(* ===== verification/_CoqProject ===== *)
-Q . S2P
Prelude.v
Bytes.v
Sdk.v
SdkRef.v
Strconv.v
SdkFacts.v
DnTypes.v
Perms.v
Chain.v
SdkBank.v
Currency.v
VMStorage.v
CCStorage.v
Markets.v
MarketsFacts.v
Orders.v
OrdersFacts.v
OrdersTheorems.v
OrdersGenesis.v
Scenario.v
OrdersWitnesses.v
Aggregates.v
Curves.v
CurvesFacts.v
Matcher.v
MatcherFacts.v
MatcherTheorems.v
OrderBook.v
OrderBookTheorems.v
OrderBookBlock.v
OrderBookWitnesses.v
Poa.v
PoaTheorems.v
MsModule.v
Multisig.v
MultisigFacts.v
MultisigCalls.v
MultisigBlock.v
MultisigTheorems.v
MultisigWitnesses.v
CCStorageFacts.v
Oracle.v
OracleFacts.v
OracleTheorems.v
OracleBlock.v
OracleWitnesses.v
VmEvents.v
VmKeeper.v
VmTheorems.v
VmGov.v
VmWitnesses.v
SdkAuth.v
BalanceFacts.v
VMAuth.v
VMAuthFacts.v
VMAuthTheorems.v
GenAccounts.v
VMAuthWitnesses.v
BankKeeper.v
Currencies.v
CurrenciesFacts.v
CurrenciesTheorems.v
CurrenciesWitnesses.v
Abci.v
BaseApp.v
BaseAppTheorems.v
AppWitnesses.v
Ante.v
AnteFacts.v
AnteTheorems.v
AnteWitnesses.v
Parsers.v
ParsersTheorems.v
Queries.v
GenesisCommands.v
Mainnet.v
DnApp.v
DnAppTheorems.v
