(* ===== verification/Prelude.v ===== *)
(** * Verification of the dnode blockchain relay layer

    dnode is a Cosmos SDK application (Go).  Each module under [src/x] keeps its
    state in a key-value store of its own and is driven by messages, by queries and
    by the begin and end of every block; modules call each other's keepers, and a
    keeper admits only the modules that were granted a permission when it was
    built.  [src/app] puts the modules together, and drives them with the requests of
    the consensus engine.

    ** How the code is modelled

    - A Go function that can fail returns an [outcome]: a value, an error or a
      panic ([Prelude]).  A keeper's method is a function in the monad [M]
      ([Chain]): it takes the calling module and the context (the stores, the
      balances, the events, the block header) and returns an outcome and the new
      context.  As in Go, an error does not undo earlier writes; the [cached]
      context does.
    - What is not in the repository is a type class of operations with a class of
      laws that state its documented behaviour: the SDK's numbers and coins, its
      stores, its supply and staking keepers, the amino codec, Go's [sort] ([Sdk],
      [SdkBank]), accounts and their keeper ([SdkAuth]), its bank keeper, which works on
      the accounts of [src/x/vmauth] ([BankKeeper]), the multistore, gas and the
      transaction codec ([Abci]), the SDK's decorators and cryptography ([Ante]), the
      Move VM ([VmKeeper]), the SDK's module manager ([DnApp]).  [SdkRef] and the
      files of witnesses instantiate them with executable functions and prove the
      laws, so the laws are consistent and every witness can be evaluated.
    - Unbounded integers stand for [sdk.Uint], [sdk.Int] and [sdk.Dec] (a [Dec] is
      its unscaled integer); the width shows in the operations, which panic out of
      range.  [uint64] and [int64] arithmetic wraps and is written out.  Strings and
      byte slices are Rocq strings of bytes; lower case and white space are those of
      ASCII.
    - An interface one component offers another is a class: [VMStorage] (the vm
      module's storage, [src/x/common_vm]), [CurrencyStorage] (what markets need of
      ccstorage), [ValidatorSet] and [MsMsgs] (what [src/x/multisig] needs of the
      validators and of the messages it executes), [AuthKeeper] (what the ante
      handler needs of the accounts).  Clients are proved against the class and its
      laws, and the implementation's theorems discharge them.
    - Where a Go map is ranged over, the order is a parameter, and the theorems hold
      for every order.

    ** Files, in dependency order

    - [Prelude], [Bytes], [Strconv]: outcomes, loops, sums, sorted lists; byte
      strings, their order, hexadecimal and big-endian encodings, SHA-256; numbers as
      strings.
    - [Sdk], [SdkRef], [SdkFacts], [SdkBank], [SdkAuth]: the external interfaces,
      their reference instances, exact results of the rounding operations, and what
      iterators return after a write or a delete.
    - [DnTypes], [Perms] ([src/helpers]): IDs, asset codes, string filters, slice
      pagination; module permissions and the parsing of stack frames.
    - [Chain]: the context and the monad.
    - [Currency], [CCStorage], [CCStorageFacts], [BalanceFacts] ([src/x/ccstorage]):
      currencies, their decimals and supply, the resources mirrored to the VM storage.
    - [VMStorage] ([src/x/common_vm], storage half of [src/x/vm]): access paths and
      their keys, reads and writes, write sets, genesis.
    - [Markets], [MarketsFacts] ([src/x/markets]): markets, extended markets, price
      arithmetic.
    - [Orders] and [OrdersFacts], [OrdersTheorems], [OrdersGenesis] ([src/x/orders]):
      the orders' store, the coins they lock, fills, time to live, genesis;
      [Scenario] and [OrdersWitnesses] evaluate them on a concrete chain.
    - [Aggregates], [Curves], [CurvesFacts], [Matcher], [MatcherFacts],
      [MatcherTheorems] ([src/x/orderbook], matching): price aggregates, the
      supply-demand curves, the crossing point, the clearance state, the fills.
    - [OrderBook], [OrderBookTheorems], [OrderBookBlock], [OrderBookWitnesses]
      ([src/x/orderbook], keeper): the end blocker, the history, genesis.
    - [Poa], [PoaTheorems] ([src/x/poa]): the validators and their limits.
    - [MsModule], [Multisig] and [MultisigFacts], [MultisigCalls], [MultisigBlock],
      [MultisigTheorems], [MultisigWitnesses] ([src/x/core/msmodule],
      [src/x/multisig]): calls, confirmations, the queue, the end blocker, and
      validators that decide on validators.
    - [Oracle] and [OracleFacts], [OracleTheorems], [OracleBlock], [OracleWitnesses]
      ([src/x/oracle]): assets, posted prices, medians, reversed prices.
    - [VmEvents], [VmKeeper], [VmTheorems], [VmGov], [VmWitnesses] ([src/x/vm]):
      answers of the Move VM as events, execution and its retry loop, the data source,
      planned updates of the standard library.
    - [VMAuth] and [VMAuthFacts], [VMAuthTheorems], [VMAuthWitnesses]
      ([src/x/vmauth]), [GenAccounts] ([src/x/genaccounts]): accounts beside their
      Move balances, the squash, genesis accounts.
    - [BankKeeper]: the SDK's bank over those accounts, as [src/app/app.go] builds it.
    - [Currencies] and [CurrenciesFacts], [CurrenciesTheorems],
      [CurrenciesWitnesses] ([src/x/currencies]): issues, withdraws, unstaking.
    - [Abci], [BaseApp], [BaseAppTheorems], [AppWitnesses] ([src/app/baseapp.go],
      [abci.go]): the check and the deliver state, running a transaction, committing
      and loading; the restrictions of the node.
    - [Ante], [AnteFacts], [AnteTheorems], [AnteWitnesses] ([src/x/core]): the
      decorators of the ante handler.
    - [Parsers], [ParsersTheorems] ([src/helpers/input_parsers.go],
      [src/x/vm/client/vm_client/args.go]), [Queries] (endpoints of markets and
      orders), [GenesisCommands] ([genesis.go] of the command line clients).
    - [Mainnet] ([src/app/export_v10.go]): the balances of the main network.
    - [DnApp], [DnAppTheorems] ([src/app/app.go]): the permissions the keepers are
      built with, the order of the end blockers, the end of a block.

    ** What the theorems show

    - Matching: a crossed book always clears; both sides are filled for the same
      volume; fills respect limit prices, price-time priority and the short side;
      processing a pool never panics; the curves are the books' supply and demand.
      Volumes up to [5 * 10^17] units are enough room for 18 decimals; two theorems
      show what happens beyond (a panic, an imbalance).
    - Orders and the order book: the store stays well-formed and the module solvent
      through posting, revoking, filling and expiring; each operation's effect on the
      store and on every balance; which errors leave the state untouched; a block
      matches exactly the crossed markets and executes their fills, whatever the map
      order, and orders that expire are paid back before, but for those without coins
      to pay back, which stay; genesis round trips and when it cannot.
    - Validators and calls: the stores refine a bounded set of validators and maps of
      calls, votes and queue entries; the end blocker takes one step per due call and
      never panics; a decision is final.
    - Currencies and accounts: the supply of a currency and the total supply of its
      denomination move together, but for the coins of accounts stored for the first
      time, which are counted once more; the balances of the VM mirror the coins of
      accounts through storing, reading, squashing and genesis.
    - Oracle: messages refine operations on lists and maps; medians lie where the
      majority of the posts lies; reversed prices are reciprocals to two units.
    - The Move VM: a message's effect is that of the write sets of the successful
      answers; printing a type ends and its gas is exact; due updates, and only they,
      are executed.
    - The application: mempool checks, queries and restarts do not show; a
      transaction is atomic up to the ante handler; panics are answered by errors, and
      only a crash of the VM stops the node; queries read committed versions; accepted transactions are signed, do not replay and pay fees.
    - Arithmetic and encodings: decimal conversions round trip, the quote quantity is
      exact to a unit; arguments of scripts give bytes the VM reads the values from.

    ** What the model of the application assumes

    Handlers and ante handlers are functions of the context; a handler replaces the
    event manager, and an ante handler that succeeds has set a gas meter of its own.
    Gas of store accesses, tracing and logging are left out.  The SDK's decorators are
    parameters that pass control on as documented ([passes]).

    ** Bounds and fuel

    [sort.Search] has [S n] halvings for [n] entries, which are enough
    ([sort_Search_loop_spec]).  The withdraws of a page are read from its first ID
    on, with the number of IDs of the page as fuel.  The retry loop of a request to the VM has
    fuel for its attempts; as it may have no limit of attempts, the theorems say from
    which fuel on it has ended ([retry_loop_success]).  All other loops recurse on
    what they range over; the iteration over accounts ranges over those stored when
    it starts.

    ** What is not modelled

    In [src/x/orders] and the mainnet report an account's coins are a ledger ([Sdk]), what the
    bank reports of them: the VM's balances, which [BankKeeper] and [VMAuth] relate to
    coins, are not part of the contexts those theorems speak of.

    Construction of the SDK keepers and connections, the glue of the zero-height
    export, commands and configuration, clients (command line and REST), generated
    documentation, registration of modules and codecs, the compiler client and the
    viewer of the VM, printers, logging, the simulator and the other test tools. *)
From stdpp Require Export prelude ssreflect strings pretty gmap sorting.
From Stdlib Require Export ZArith Lia Ascii.

Open Scope Z_scope.

(** ** Go results: a value, an error value, or a panic *)

(** An [error] value.  The SDK's registered errors are a codespace and a code
    ([sdkErrors.Register]); wrapping keeps the root, which is what [Is] compares.
    Other errors ([fmt.Errorf]) carry the constant part of their message. *)
Inductive error :=
  | Registered (codespace : string) (code : Z)
  | Plain (what : string).

#[export] Instance error_eq_dec : EqDecision error.
Proof. solve_decision. Defined.

Inductive outcome (A : Type) :=
  | Ok (a : A)
  | Err (e : error)
  | Panic.
Arguments Ok {A} a.
Arguments Err {A} e.
Arguments Panic {A}.

#[export] Instance outcome_ret : MRet outcome := @Ok.
#[export] Instance outcome_bind : MBind outcome := λ A B f o,
  match o with
  | Ok a => f a
  | Err e => Err e
  | Panic => Panic
  end.
#[export] Instance outcome_fmap : FMap outcome := λ A B f o,
  match o with
  | Ok a => Ok (f a)
  | Err e => Err e
  | Panic => Panic
  end.

(** [if cond { return err }]. *)
Definition fail_if (b : bool) (e : error) : outcome unit :=
  if b then Err e else Ok tt.

(** [if cond { panic(...) }]. *)
Definition panic_if (b : bool) : outcome unit :=
  if b then Panic else Ok tt.

Lemma outcome_bind_ok {A B} (f : A → outcome B) a : (Ok a ≫= f) = f a.
Proof. reflexivity. Qed.

Lemma outcome_bind_inv {A B} (o : outcome A) (f : A → outcome B) b :
  o ≫= f = Ok b → ∃ a, o = Ok a ∧ f a = Ok b.
Proof. destruct o; naive_solver. Qed.

Lemma fail_if_inv b e u : fail_if b e = Ok u → b = false.
Proof. by destruct b. Qed.

Lemma panic_if_inv b u : panic_if b = Ok u → b = false.
Proof. by destruct b. Qed.

(** [ok_inv] decomposes a successful run: every bind of a hypothesis
    [... = Ok _] is split and every guard turned into an equation. *)
Ltac ok_inv_step :=
  match goal with
  | H : Ok _ = Ok _ |- _ => injection H as H; try subst
  | H : Err _ = Ok _ |- _ => discriminate H
  | H : Panic = Ok _ |- _ => discriminate H
  | H : fail_if _ _ = Ok _ |- _ => apply fail_if_inv in H
  | H : panic_if _ = Ok _ |- _ => apply panic_if_inv in H
  | H : mbind _ _ = Ok _ |- _ =>
      let a := fresh "v" in let H1 := fresh "Hrun" in
      apply outcome_bind_inv in H as (a & H1 & H)
  | H : (if ?b then _ else _) = Ok _ |- _ =>
      let E := fresh "Eb" in destruct b eqn:E
  end.
Ltac ok_inv := repeat ok_inv_step.

(** Loops over a slice that may stop with an error or a panic. *)
Fixpoint foldM {A B} (f : B → A → outcome B) (acc : B) (l : list A) : outcome B :=
  match l with
  | [] => Ok acc
  | x :: l' => f acc x ≫= λ acc', foldM f acc' l'
  end.

Lemma foldM_app {A B} (f : B → A → outcome B) l1 l2 acc :
  foldM f acc (l1 ++ l2) = foldM f acc l1 ≫= λ acc', foldM f acc' l2.
Proof.
  revert acc. induction l1 as [|x l1 IH]; intros acc; [done|].
  simpl. destruct (f acc x) as [b| |]; simpl; auto.
Qed.

(** Invariant rule for [foldM]: [P] relates the processed prefix to the
    accumulator. *)
Lemma foldM_inv {A B} (P : list A → B → Prop) (f : B → A → outcome B) l :
  (∀ pre x acc, pre ++ [x] `prefix_of` l → P pre acc →
     ∃ acc', f acc x = Ok acc' ∧ P (pre ++ [x]) acc') →
  ∀ acc0, P [] acc0 → ∃ acc, foldM f acc0 l = Ok acc ∧ P l acc.
Proof.
  intros Hstep acc0 H0.
  assert (∀ l2 pre acc, pre ++ l2 = l → P pre acc →
    ∃ acc', foldM f acc l2 = Ok acc' ∧ P l acc') as Hgen.
  { induction l2 as [|x l2 IH]; intros pre acc Hl HP.
    - rw app_nil_r in Hl. subst. eauto.
    - destruct (Hstep pre x acc) as (acc' & Hf & HP'); [|done|].
      { exists l2. by rw -app_assoc. }
      simpl. rw Hf. simpl. apply (IH (pre ++ [x])); [|done].
      by rw -app_assoc. }
  by apply (Hgen l []).
Qed.

(** ** Sums *)

Definition sumZ {A} (f : A → Z) (l : list A) : Z := foldr (λ x s, f x + s) 0 l.

Section sums.
Context {A : Type}.
Implicit Types (f g : A → Z) (l : list A).

Lemma sumZ_nil f : sumZ f [] = 0.
Proof. done. Qed.
Lemma sumZ_cons f x l : sumZ f (x :: l) = f x + sumZ f l.
Proof. done. Qed.
Lemma sumZ_app f l1 l2 : sumZ f (l1 ++ l2) = sumZ f l1 + sumZ f l2.
Proof. induction l1 as [|x l1 IH]; simpl; [done|]. rw IH. lia. Qed.
#[export] Instance sumZ_perm f : Proper ((≡ₚ) ==> (=)) (sumZ f).
Proof. induction 1; simpl; lia. Qed.
Lemma sumZ_reverse f l : sumZ f (reverse l) = sumZ f l.
Proof. by rw reverse_Permutation. Qed.
Lemma sumZ_nonneg f l : (∀ x, x ∈ l → 0 ≤ f x) → 0 ≤ sumZ f l.
Proof.
  induction l as [|x l IH]; intros H; simpl; [lia|].
  assert (0 ≤ f x) by (apply H; left). assert (0 ≤ sumZ f l); [|lia].
  apply IH. intros y Hy. apply H. by right.
Qed.
Lemma sumZ_le f g l : (∀ x, x ∈ l → f x ≤ g x) → sumZ f l ≤ sumZ g l.
Proof.
  induction l as [|x l IH]; intros H; simpl; [lia|].
  assert (f x ≤ g x) by (apply H; left). assert (sumZ f l ≤ sumZ g l); [|lia].
  apply IH. intros y Hy. apply H. by right.
Qed.
Lemma sumZ_ext f g l : (∀ x, x ∈ l → f x = g x) → sumZ f l = sumZ g l.
Proof. intros H. apply Z.le_antisymm; apply sumZ_le; intros x Hx; rw (H x Hx); lia. Qed.
Lemma sumZ_zero f l : (∀ x, x ∈ l → f x = 0) → sumZ f l = 0.
Proof.
  induction l as [|x l IH]; intros H; simpl; [done|].
  rw (H x) ?IH; [done|set_solver..].
Qed.
Lemma sumZ_elem_le f l x : (∀ y, y ∈ l → 0 ≤ f y) → x ∈ l → f x ≤ sumZ f l.
Proof.
  intros Hf Hx. apply list_elem_of_split in Hx as (l1 & l2 & ->).
  rw sumZ_app sumZ_cons.
  assert (0 ≤ sumZ f l1) by (apply sumZ_nonneg; set_solver).
  assert (0 ≤ sumZ f l2) by (apply sumZ_nonneg; set_solver). lia.
Qed.
Lemma sumZ_pos f l x : (∀ y, y ∈ l → 0 ≤ f y) → x ∈ l → 0 < f x → 0 < sumZ f l.
Proof. intros Hf Hx Hp. pose proof (sumZ_elem_le f l x Hf Hx). lia. Qed.
End sums.

(** ** Sorted lists *)

Lemma sorted_impl {A} (R S : A → A → Prop) l :
  (∀ x y, R x y → S x y) → StronglySorted R l → StronglySorted S l.
Proof. intros HRS. induction 1; constructor; [done|]. eapply Forall_impl; [done|]. auto. Qed.

Lemma sorted_reverse {A} (R : A → A → Prop) l :
  StronglySorted R l → StronglySorted (λ x y, R y x) (reverse l).
Proof.
  induction 1 as [|a l _ IH Ha]; [constructor|]. rw reverse_cons.
  apply StronglySorted_app_2; [|done|by repeat constructor].
  intros x y Hx ->%list_elem_of_singleton. rw Forall_forall in Ha.
  apply Ha. by rw elem_of_reverse in Hx.
Qed.

(** ** Filters *)

Lemma filter_none {A} (P : A → Prop) `{∀ x, Decision (P x)} (l : list A) :
  (∀ x, x ∈ l → ¬ P x) → filter P l = [].
Proof.
  induction l as [|x l IH]; intros H0; [done|]. rw filter_cons_False; [|apply H0; set_solver].
  apply IH. set_solver.
Qed.

Lemma filter_all {A} (P : A → Prop) `{∀ x, Decision (P x)} (l : list A) :
  (∀ x, x ∈ l → P x) → filter P l = l.
Proof.
  induction l as [|x l IH]; intros H0; [done|]. rw filter_cons_True; [|apply H0; set_solver].
  f_equal. apply IH. set_solver.
Qed.

Lemma sorted_filter {A} (R : A → A → Prop) (P : A → Prop) `{∀ x, Decision (P x)} (l : list A) :
  StronglySorted R l → StronglySorted R (filter P l).
Proof.
  induction 1 as [|x l _ IH Hx]; [constructor|]. destruct (decide (P x)).
  - rw filter_cons_True; [|done]. constructor; [done|]. rewrite Forall_forall in Hx. apply Forall_forall.
    intros y Hy. apply list_elem_of_filter in Hy as [_ Hy]. by apply Hx.
  - by rw filter_cons_False.
Qed.
