(* ===== verification/Bytes.v ===== *)
(** * Byte strings

    Go strings and [[]byte] values are Rocq [string]s (sequences of 8-bit
    characters), so the conversions [string(b)] and [[]byte(s)] are identities.
    This file models what the source uses of [bytes], [encoding/binary] and
    [strconv]: the lexicographic order of store keys, big-endian 64-bit
    integers, [Join], [Split] and prefixes; and SHA-256. *)
From S2P Require Import Prelude.
Local Open Scope string_scope.
Local Open Scope Z_scope.

(** stdpp keeps [String.append] from reducing; these equations drive it. *)
Lemma string_app_nil s : "" +:+ s = s.
Proof. reflexivity. Qed.
Lemma string_app_cons c a b : String c a +:+ b = String c (a +:+ b).
Proof. reflexivity. Qed.
Ltac sapp := rw ?string_app_cons ?string_app_nil.

(** ** Bytes and their order *)

Definition byte_val (c : ascii) : Z := Z.of_N (N_of_ascii c).
Definition byte_of (z : Z) : ascii := ascii_of_N (Z.to_N (z mod 256)).

Lemma byte_val_of z : byte_val (byte_of z) = z mod 256.
Proof.
  unfold byte_val, byte_of. pose proof (Z.mod_pos_bound z 256 ltac:(lia)).
  rw N_ascii_embedding; lia.
Qed.

Lemma byte_val_inj c d : byte_val c = byte_val d → c = d.
Proof.
  unfold byte_val. intros H%N2Z.inj.
  by rw -(ascii_N_embedding c) -(ascii_N_embedding d) H.
Qed.

Lemma byte_val_range c : 0 ≤ byte_val c < 256.
Proof. unfold byte_val. pose proof (N_ascii_bounded c). lia. Qed.

(** [bytes.Compare(a, b) < 0]: the order the key-value store iterates in. *)
Fixpoint bytes_ltb (a b : string) : bool :=
  match a, b with
  | _, EmptyString => false
  | EmptyString, String _ _ => true
  | String c a', String d b' =>
      (byte_val c <? byte_val d) || ((byte_val c =? byte_val d) && bytes_ltb a' b')
  end.

Definition bytes_lt (a b : string) : Prop := bytes_ltb a b = true.
Definition bytes_le (a b : string) : Prop := bytes_ltb b a = false.
Arguments bytes_lt : simpl never.
Arguments bytes_le : simpl never.

#[export] Instance bytes_lt_dec a b : Decision (bytes_lt a b).
Proof. unfold bytes_lt. apply _. Defined.
#[export] Instance bytes_le_dec a b : Decision (bytes_le a b).
Proof. unfold bytes_le. apply _. Defined.

Lemma bytes_lt_cons c d a b :
  bytes_lt (String c a) (String d b) ↔
  byte_val c < byte_val d ∨ c = d ∧ bytes_lt a b.
Proof.
  unfold bytes_lt; simpl. rw orb_true_iff andb_true_iff Z.ltb_lt Z.eqb_eq.
  split; intros [?|[H ?]]; auto; right; split; auto.
  - by apply byte_val_inj.
  - by subst.
Qed.

Lemma bytes_lt_irrefl a : ¬ bytes_lt a a.
Proof. induction a as [|c a IH]; [done|]. rw bytes_lt_cons. intros [?|[_ ?]]; [lia|auto]. Qed.

#[export] Instance bytes_lt_trans : Transitive bytes_lt.
Proof.
  intros a b c. revert b c. induction a as [|x a IH]; intros [|y b] [|z c]; try done.
  rw !bytes_lt_cons. intros [?|[-> ?]] [?|[-> ?]]; [left; lia|left; lia|left; lia|].
  right. split; [done|eauto].
Qed.

Lemma bytes_lt_total a b : bytes_lt a b ∨ a = b ∨ bytes_lt b a.
Proof.
  revert b. induction a as [|x a IH]; intros [|y b]; [by auto|by left|by right; right|].
  rw !bytes_lt_cons.
  destruct (Z.lt_trichotomy (byte_val x) (byte_val y)) as [|[->%byte_val_inj|]]; auto.
  destruct (IH b) as [|[->|]]; auto.
Qed.

Lemma bytes_le_lteq a b : bytes_le a b ↔ bytes_lt a b ∨ a = b.
Proof.
  unfold bytes_le. rw -not_true_iff_false. change (¬ bytes_lt b a ↔ bytes_lt a b ∨ a = b).
  split.
  - intros H. destruct (bytes_lt_total a b) as [|[|]]; auto. done.
  - intros [H| ->] H'; [|by eapply bytes_lt_irrefl].
    eapply bytes_lt_irrefl. by trans b.
Qed.

Lemma bytes_le_refl a : bytes_le a a.
Proof. rw bytes_le_lteq. auto. Qed.

Lemma bytes_lt_app p a b : bytes_lt (p +:+ a) (p +:+ b) ↔ bytes_lt a b.
Proof.
  induction p as [|c p IH]; [done|]. sapp. rw bytes_lt_cons IH.
  split; [intros [?|[_ ?]]; [lia|done]|auto].
Qed.

(** Comparing two keys that share the length of a first part. *)
Lemma bytes_lt_app_len a b s t :
  String.length a = String.length b →
  bytes_lt (a +:+ s) (b +:+ t) ↔ bytes_lt a b ∨ a = b ∧ bytes_lt s t.
Proof.
  revert b. induction a as [|c a IH]; intros [|d b] Hlen; try done.
  - sapp. split; [auto|]. intros [H|[_ H]]; [by apply bytes_lt_irrefl in H|done].
  - sapp. rw !bytes_lt_cons IH; [|naive_solver lia]. naive_solver.
Qed.

(** ** Appending and prefixes *)

Lemma string_app_assoc a b c : (a +:+ b) +:+ c = a +:+ (b +:+ c).
Proof. induction a as [|x a IH]; [done|]. sapp. by rw IH. Qed.

Lemma string_app_nil_r a : a +:+ "" = a.
Proof. induction a as [|x a IH]; [done|]. sapp. by rw IH. Qed.

Lemma string_length_app a b : String.length (a +:+ b) = (String.length a + String.length b)%nat.
Proof. induction a as [|x a IH]; [done|]. sapp. simpl. by rw IH. Qed.

Lemma string_app_inj_len a b s t :
  String.length a = String.length b → a +:+ s = b +:+ t → a = b ∧ s = t.
Proof.
  revert b. induction a as [|c a IH]; intros [|d b] Hlen H; try done.
  rw !string_app_cons in H. simplify_eq/=. destruct (IH b) as [-> ->]; auto.
Qed.

(** [bytes.HasPrefix]. *)
Definition has_prefix (p k : string) : Prop := ∃ s, k = p +:+ s.

#[export] Instance has_prefix_dec p k : Decision (has_prefix p k).
Proof.
  refine (cast_if (decide (String.prefix p k = true))).
  - abstract (revert k e; induction p as [|c p IH]; intros k e; [by exists k|];
      destruct k as [|d k]; [done|]; simpl in e; destruct (ascii_dec c d) as [->|];
      [|done]; destruct (IH k e) as [s ->]; by exists s).
  - abstract (intros [s ->]; apply n; clear n; induction p as [|c p IH];
      [by destruct s|]; sapp; simpl; by destruct (ascii_dec c c)).
Defined.

Lemma has_prefix_app p s : has_prefix p (p +:+ s).
Proof. by exists s. Qed.

(** ** Joining and splitting on the key delimiter *)

(** [bytes.Join(parts, sep)]. *)
Definition Join (sep : string) (parts : list string) : string := String.concat sep parts.

(** [bytes.Split(s, sep)] for a one-byte separator. *)
Fixpoint Split (sep : ascii) (s : string) : list string :=
  match s with
  | EmptyString => [""]
  | String c s' =>
      if Ascii.eqb c sep then "" :: Split sep s'
      else match Split sep s' with
           | w :: ws => String c w :: ws
           | [] => [String c ""]
           end
  end.

(** [s] does not contain the byte [c]. *)
Fixpoint lacks (c : ascii) (s : string) : bool :=
  match s with
  | EmptyString => true
  | String d s' => negb (Ascii.eqb d c) && lacks c s'
  end.

Lemma lacks_app c a b : lacks c (a +:+ b) = lacks c a && lacks c b.
Proof. induction a as [|x a IH]; [done|]. sapp. simpl. by rw IH andb_assoc. Qed.

Lemma Split_lacks c s : lacks c s = true → Split c s = [s].
Proof.
  induction s as [|d s IH]; [done|]. simpl. rw andb_true_iff negb_true_iff.
  intros [-> H]. by rw IH.
Qed.

Lemma Split_app c s t :
  lacks c s = true → Split c (s +:+ String c t) = s :: Split c t.
Proof.
  induction s as [|d s IH]; sapp; simpl.
  - by rw Ascii.eqb_refl.
  - rw andb_true_iff negb_true_iff. intros [-> H]. by rw IH.
Qed.

Lemma Split_nonempty c s : Split c s ≠ [].
Proof. destruct s as [|d s]; [done|]. simpl. destruct (Ascii.eqb d c), (Split c s); done. Qed.

(** How many pieces [Split] returns: one more than the separators. *)
Fixpoint count_byte (c : ascii) (s : string) : nat :=
  match s with
  | EmptyString => 0%nat
  | String d s' => ((if Ascii.eqb d c then 1 else 0) + count_byte c s')%nat
  end.

Lemma length_Split c s : length (Split c s) = S (count_byte c s).
Proof.
  induction s as [|d s IH]; [done|]. simpl. destruct (Ascii.eqb d c); simpl; [by rw IH|].
  rw -IH. by destruct (Split c s).
Qed.

Lemma count_byte_app c a b : count_byte c (a +:+ b) = (count_byte c a + count_byte c b)%nat.
Proof. induction a as [|x a IH]; [done|]. sapp. simpl. rw IH. lia. Qed.

Lemma lacks_count c s : lacks c s = true ↔ count_byte c s = 0%nat.
Proof.
  induction s as [|d s IH]; [done|]. simpl. rw andb_true_iff negb_true_iff IH.
  destruct (Ascii.eqb d c); naive_solver lia.
Qed.

(** ** Big-endian integers ([sdk.Uint64ToBigEndian], [binary.BigEndian]) *)

(** The [n] low bytes of [z], most significant first. *)
Fixpoint be_bytes (n : nat) (z : Z) : string :=
  match n with
  | O => ""
  | S k => String (byte_of (z / 256 ^ Z.of_nat k)) (be_bytes k z)
  end.

Definition Uint64ToBigEndian (z : Z) : string := be_bytes 8 z.

(** [binary.BigEndian.Uint64(b)]: reads eight bytes, panics on fewer. *)
Fixpoint be_value (acc : Z) (s : string) : Z :=
  match s with
  | EmptyString => acc
  | String c s' => be_value (acc * 256 + byte_val c) s'
  end.

Definition BigEndian_Uint64 (s : string) : outcome Z :=
  if (String.length s <? 8)%nat then Panic
  else Ok (be_value 0 (String.substring 0 8 s)).

Lemma length_be_bytes n z : String.length (be_bytes n z) = n.
Proof. induction n as [|n IH]; [done|]. simpl. by rw IH. Qed.

Lemma pow256_S n : 256 ^ Z.of_nat (S n) = 256 * 256 ^ Z.of_nat n.
Proof. rw Nat2Z.inj_succ Z.pow_succ_r; lia. Qed.

Lemma pow256_pos n : 0 < 256 ^ Z.of_nat n.
Proof. apply Z.pow_pos_nonneg; lia. Qed.

(** Only the low bytes matter. *)
Lemma be_bytes_mod n z : be_bytes n z = be_bytes n (z mod 256 ^ Z.of_nat n).
Proof.
  assert (∀ m, (n ≤ m)%nat → be_bytes n (z mod 256 ^ Z.of_nat m) = be_bytes n z) as H;
    [|symmetry; by apply H].
  induction n as [|n IH]; intros m Hm; [done|]. simpl. rw IH; [|lia]. f_equal.
  unfold byte_of. do 2 f_equal.
  pose proof (pow256_pos n).
  destruct (Nat.le_exists_sub (S n) m Hm) as (k & -> & _).
  rw Nat2Z.inj_add (Nat2Z.inj_succ n) Z.pow_add_r; [|lia..]. rw Z.pow_succ_r; [|lia].
  pose proof (pow256_pos k).
  set (q := 256 ^ Z.of_nat n). set (r := 256 ^ Z.of_nat k). pose proof (pow256_pos n).
  rw {2}(Z.div_mod z (r * (256 * q))); [|unfold q, r; nia].
  rw (_ : r * (256 * q) * (z / (r * (256 * q))) = r * (z / (r * (256 * q))) * 256 * q); [|lia].
  rw Z.div_add_l; [|lia]. by rw Z.add_comm Z.mod_add.
Qed.

Lemma be_value_bytes n acc z :
  be_value acc (be_bytes n z) = acc * 256 ^ Z.of_nat n + z mod 256 ^ Z.of_nat n.
Proof.
  revert acc. induction n as [|n IH]; intros acc; cbn [be_bytes be_value].
  - rw Z.pow_0_r Z.mod_1_r. lia.
  - rw IH byte_val_of pow256_S. pose proof (pow256_pos n).
    rw (Z.mul_comm 256 (256 ^ Z.of_nat n)) Z.rem_mul_r; [|lia..]. lia.
Qed.

Lemma substring_all s t : String.substring 0 (String.length s) (s +:+ t) = s.
Proof. induction s as [|c s IH]; sapp; simpl; [by destruct t|by rw IH]. Qed.

(** Round trip of the eight-byte encoding. *)
Lemma BigEndian_Uint64_bytes z t :
  0 ≤ z < 2 ^ 64 → BigEndian_Uint64 (Uint64ToBigEndian z +:+ t) = Ok z.
Proof.
  intros Hz. unfold BigEndian_Uint64, Uint64ToBigEndian.
  rw string_length_app length_be_bytes. simpl Nat.ltb.
  pose proof (substring_all (be_bytes 8 z) t) as E. rw length_be_bytes in E.
  rw E be_value_bytes.
  f_equal. rw Z.mul_0_l Z.add_0_l. apply Z.mod_small.
  change (256 ^ Z.of_nat 8) with (2 ^ 64). lia.
Qed.

Lemma be_bytes_inj n z1 z2 :
  0 ≤ z1 < 256 ^ Z.of_nat n → 0 ≤ z2 < 256 ^ Z.of_nat n →
  be_bytes n z1 = be_bytes n z2 → z1 = z2.
Proof.
  intros H1 H2 H. apply (f_equal (be_value 0)) in H. rw !be_value_bytes in H.
  rw !Z.mod_small in H; lia.
Qed.

(** The encoding preserves the order: store iteration is numeric order. *)
Lemma be_bytes_lt n z1 z2 :
  0 ≤ z1 < 256 ^ Z.of_nat n → 0 ≤ z2 < 256 ^ Z.of_nat n →
  bytes_lt (be_bytes n z1) (be_bytes n z2) ↔ z1 < z2.
Proof.
  revert z1 z2. induction n as [|n IH]; intros z1 z2 H1 H2.
  { simpl in *. split; [done|lia]. }
  cbn [be_bytes]. rw pow256_S in H1 H2. pose proof (pow256_pos n) as Hp.
  set (q := 256 ^ Z.of_nat n) in *.
  assert (0 ≤ z1 / q < 256) by (split; [apply Z.div_pos; lia|apply Z.div_lt_upper_bound; lia]).
  assert (0 ≤ z2 / q < 256) by (split; [apply Z.div_pos; lia|apply Z.div_lt_upper_bound; lia]).
  rw bytes_lt_cons !byte_val_of !(Z.mod_small (_ / q)); [|lia..].
  rw (be_bytes_mod n z1) (be_bytes_mod n z2) -/q.
  rw IH; [|by apply Z.mod_pos_bound..].
  pose proof (Z.div_mod z1 q ltac:(lia)). pose proof (Z.div_mod z2 q ltac:(lia)).
  pose proof (Z.mod_pos_bound z1 q Hp). pose proof (Z.mod_pos_bound z2 q Hp).
  split.
  - intros [?|[E%(f_equal byte_val) ?]]; [nia|].
    rw !byte_val_of !(Z.mod_small (_ / q)) in E; [|lia..]. nia.
  - intros Hlt. destruct (Z.lt_trichotomy (z1 / q) (z2 / q)) as [|[E|]]; [by left| |nia].
    right. split; [by rw E|]. nia.
Qed.

(** ** [encoding/hex] *)

Definition hex_char (z : Z) : ascii := byte_of (if z <? 10 then 48 + z else 87 + z).

Definition hex_val (c : ascii) : option Z :=
  let v := byte_val c in
  if (48 <=? v) && (v <=? 57) then Some (v - 48)
  else if (97 <=? v) && (v <=? 102) then Some (v - 87)
  else if (65 <=? v) && (v <=? 70) then Some (v - 55)
  else None.

(** [hex.EncodeToString]. *)
Fixpoint hex_EncodeToString (s : string) : string :=
  match s with
  | EmptyString => ""
  | String c s' =>
      String (hex_char (byte_val c / 16)) (String (hex_char (byte_val c mod 16)) (hex_EncodeToString s'))
  end.

(** [hex.DecodeString]: an error on an odd length or a byte that is no digit. *)
Fixpoint hex_DecodeString (s : string) : outcome string :=
  match s with
  | EmptyString => Ok ""
  | String a (String b s') =>
      match hex_val a, hex_val b with
      | Some x, Some y => String (byte_of (16 * x + y)) <$> hex_DecodeString s'
      | _, _ => Err (Plain "encoding/hex: invalid byte")
      end
  | String a EmptyString => Err (Plain "encoding/hex: odd length hex string")
  end.

Lemma hex_val_char z : 0 ≤ z < 16 → hex_val (hex_char z) = Some z.
Proof.
  intros Hz. assert (z ∈ seqZ 0 16) as Hin by (apply elem_of_seqZ; lia).
  revert Hin. clear Hz. vm_compute seqZ. intros Hin.
  repeat (apply elem_of_cons in Hin as [->|Hin]; [done|]). by apply elem_of_nil in Hin.
Qed.

Lemma hex_DecodeString_Encode s : hex_DecodeString (hex_EncodeToString s) = Ok s.
Proof.
  induction s as [|c s IH]; [done|]. simpl. pose proof (byte_val_range c).
  pose proof (Z.mod_pos_bound (byte_val c) 16 ltac:(lia)).
  rw !hex_val_char; [|done|split; [apply Z.div_pos; lia|apply Z.div_lt_upper_bound; lia]].
  rw IH. simpl. do 2 f_equal. rw -Z.div_mod; [|lia]. apply byte_val_inj.
  rw byte_val_of. by apply Z.mod_small.
Qed.

(** [s[i:j]] of a byte slice that is long enough. *)
Definition bytes_slice (i j : nat) (s : string) : string := String.substring i (j - i) s.

Fixpoint string_drop (n : nat) (s : string) : string :=
  match n, s with
  | O, _ => s
  | S n', String _ s' => string_drop n' s'
  | S _, EmptyString => ""
  end.

Lemma string_drop_app s t : string_drop (String.length s) (s +:+ t) = t.
Proof. induction s as [|c s IH]; sapp; simpl; [by destruct t|by rw IH]. Qed.

Lemma substring_app_drop s t k : String.substring (String.length s) k (s +:+ t) = String.substring 0 k t.
Proof. induction s as [|c s IH]; sapp; simpl; [done|by rw IH]. Qed.

Lemma substring_drop i k s : String.substring i k s = String.substring 0 k (string_drop i s).
Proof. revert s. induction i as [|i IH]; intros [|c s]; simpl; try done. by destruct k. Qed.

Lemma take_drop_string n s : s = String.substring 0 n s +:+ string_drop n s.
Proof.
  revert s. induction n as [|n IH]; intros [|c s]; try done.
  simpl. sapp. by rw {1}(IH s).
Qed.

Lemma string_drop_drop i j s : string_drop j (string_drop i s) = string_drop (i + j) s.
Proof. revert s. induction i as [|i IH]; intros [|c s]; simpl; try done; by destruct j. Qed.

Lemma length_substring_le n s : (n ≤ String.length s)%nat → String.length (String.substring 0 n s) = n.
Proof.
  revert s. induction n as [|n IH]; intros [|c s] H; simpl in *; try done; [lia|].
  rw IH; [done|lia].
Qed.

Lemma length_string_drop n s : String.length (string_drop n s) = (String.length s - n)%nat.
Proof. revert s. induction n as [|n IH]; intros [|c s]; simpl; try done. Qed.

(** ** SHA-256 ([crypto/sha256] of Go's standard library)

    The hash of a byte string, on 32-bit words kept as integers below [2^32]. *)
Local Open Scope string_scope.
Local Open Scope Z_scope.
Local Open Scope list_scope.

Module sha256.

Definition word (z : Z) : Z := z mod 2 ^ 32.
Definition rotr (n x : Z) : Z := Z.lor (Z.shiftr x n) (word (Z.shiftl x (32 - n))).
Definition Ch (x y z : Z) : Z := Z.lxor (Z.land x y) (Z.land (2 ^ 32 - 1 - x) z).
Definition Maj (x y z : Z) : Z := Z.lxor (Z.lxor (Z.land x y) (Z.land x z)) (Z.land y z).
Definition Sigma0 (x : Z) : Z := Z.lxor (Z.lxor (rotr 2 x) (rotr 13 x)) (rotr 22 x).
Definition Sigma1 (x : Z) : Z := Z.lxor (Z.lxor (rotr 6 x) (rotr 11 x)) (rotr 25 x).
Definition sigma0 (x : Z) : Z := Z.lxor (Z.lxor (rotr 7 x) (rotr 18 x)) (Z.shiftr x 3).
Definition sigma1 (x : Z) : Z := Z.lxor (Z.lxor (rotr 17 x) (rotr 19 x)) (Z.shiftr x 10).

(** The constants: the first 32 bits of the fractional parts of the cube roots of the
    first 64 primes, and, for the initial value, of the square roots of the first 8. *)
Definition primes (bound : Z) : list Z :=
  filter (λ n, forallb (λ d, (n <? d * d) || negb (n mod d =? 0)) (seqZ 2 (Z.sqrt bound)) = true) (seqZ 2 (bound - 1)).

(** The largest [r] below [r + 2 ^ bits] whose cube is at most [n]. *)
Fixpoint cube_root (bits : nat) (r n : Z) : Z :=
  match bits with
  | O => r
  | S bits' =>
      let r' := r + 2 ^ Z.of_nat bits' in
      cube_root bits' (if r' * r' * r' <=? n then r' else r) n
  end.
Definition K : list Z := Eval vm_compute in (λ p, word (cube_root 36 0 (p * 2 ^ 96))) <$> primes 311.
Definition H0 : list Z := Eval vm_compute in (λ p, word (Z.sqrt (p * 2 ^ 64))) <$> primes 19.

(** The chaining value: eight words. *)
Record state := MkState { sa : Z; sb : Z; sc : Z; sd : Z; se : Z; sf : Z; sg : Z; sh : Z }.
Definition init : state :=
  let h i := nth i H0 0 in MkState (h 0%nat) (h 1%nat) (h 2%nat) (h 3%nat) (h 4%nat) (h 5%nat) (h 6%nat) (h 7%nat).

Definition round (s : state) (k w : Z) : state :=
  let t1 := sh s + Sigma1 (se s) + Ch (se s) (sf s) (sg s) + k + w in
  let t2 := Sigma0 (sa s) + Maj (sa s) (sb s) (sc s) in
  MkState (word (t1 + t2)) (sa s) (sb s) (sc s) (word (sd s + t1)) (se s) (sf s) (sg s).

(** [w]: the next sixteen words of the message schedule. *)
Definition next_word (w : list Z) : Z :=
  word (sigma1 (nth 14 w 0) + nth 9 w 0 + sigma0 (nth 1 w 0) + nth 0 w 0).
Fixpoint rounds (ks : list Z) (w : list Z) (s : state) : state :=
  match ks with
  | [] => s
  | k :: ks' => rounds ks' (tail w ++ [next_word w]) (round s k (nth 0 w 0))
  end.

Definition block (s : state) (w : list Z) : state :=
  let r := rounds K w s in
  MkState (word (sa s + sa r)) (word (sb s + sb r)) (word (sc s + sc r)) (word (sd s + sd r))
    (word (se s + se r)) (word (sf s + sf r)) (word (sg s + sg r)) (word (sh s + sh r)).

(** A one bit, zeros up to a whole block, and the length in bits. *)
Definition pad (s : string) : string :=
  let n := String.length s in
  let zeros := ((119 - n mod 64) mod 64)%nat in
  s +:+ String (byte_of 128) (be_bytes zeros 0) +:+ Uint64ToBigEndian (8 * Z.of_nat n).

Fixpoint words (s : string) : list Z :=
  match s with
  | String a (String b (String c (String d s'))) =>
      (byte_val a * 2 ^ 24 + byte_val b * 2 ^ 16 + byte_val c * 2 ^ 8 + byte_val d) :: words s'
  | _ => []
  end.

Fixpoint blocks (n : nat) (s : state) (w : list Z) : state :=
  match n with
  | O => s
  | S n' => blocks n' (block s (take 16 w)) (drop 16 w)
  end.

Definition Sum256 (data : string) : string :=
  let w := words (pad data) in
  let s := blocks (length w / 16) init w in
  be_bytes 4 (sa s) +:+ be_bytes 4 (sb s) +:+ be_bytes 4 (sc s) +:+ be_bytes 4 (sd s) +:+
  be_bytes 4 (se s) +:+ be_bytes 4 (sf s) +:+ be_bytes 4 (sg s) +:+ be_bytes 4 (sh s).

(** The test vectors of FIPS 180-2. *)
Example Sum256_abc : hex_EncodeToString (Sum256 "abc") = "ba7816bf8f01cfea414140de5dae2223b00361a396177a9cb410ff61f20015ad".
Proof. vm_compute. reflexivity. Qed.
Example Sum256_two_blocks : hex_EncodeToString (Sum256 "abcdbcdecdefdefgefghfghighijhijkijkljklmklmnlmnomnopnopq") =
  "248d6a61d20638b8e5c026930c3e6039a33ce45964ff2167f6ecedd419db06c1".
Proof. vm_compute. reflexivity. Qed.
Example Sum256_empty : hex_EncodeToString (Sum256 "") = "e3b0c44298fc1c149afbf4c8996fb92427ae41e4649b934ca495991b7852b855".
Proof. vm_compute. reflexivity. Qed.

Lemma length_Sum256 data : String.length (Sum256 data) = 32%nat.
Proof. unfold Sum256. by rw !string_length_app !length_be_bytes. Qed.
End sha256.
