(* ===== verification/Sdk.v ===== *)
(** * Interfaces of the code outside the repository

    The Cosmos SDK, its stores, its bank and supply keepers, the amino codec and
    the sorting routines of Go's standard library are not part of the repository:
    each is a type class of operations (what the source calls) and a class of laws
    (the documented behaviour the development relies on).  The components are
    proved against these interfaces; [SdkRef] instantiates every one of them with
    concrete functions. *)
From S2P Require Import Prelude Bytes.

(** Values of [sdk.Uint], [sdk.Int] are the integers they denote, an [sdk.Dec] is
    its unscaled integer (the value times [10^18]); addresses are byte strings. *)
Notation Uint := Z (only parsing).
Notation Int := Z (only parsing).
Notation Dec := Z (only parsing).
Notation AccAddress := string (only parsing).

Definition Precision : Z := 10 ^ 18.
Definition OneDec : Dec := Precision.
Definition ZeroDec : Dec := 0.
Definition maxUint : Z := 2 ^ 256.
Definition maxInt : Z := 2 ^ 255.
Definition maxDec : Z := 2 ^ 315.

(** [sdk.Coin]. *)
Record Coin := MkCoin { coin_Denom : string; coin_Amount : Int }.

#[export] Instance coin_eq_dec : EqDecision Coin.
Proof. solve_decision. Defined.

(** ** [github.com/cosmos/cosmos-sdk/types] *)
Class SdkTypes := {
  Uint_Add : Uint → Uint → outcome Uint;
  Uint_Sub : Uint → Uint → outcome Uint;
  Uint_QuoUint64 : Uint → Z → outcome Uint;
  NewUintFromBigInt : Z → outcome Uint;
  Uint_Uint64 : Uint → outcome Z;
  Uint_String : Uint → string;
  NewUintFromString : string → outcome Uint;
  NewIntFromBigInt : Z → outcome Int;
  Int_Add : Int → Int → outcome Int;
  Int_Sub : Int → Int → outcome Int;
  NewDecFromBigInt : Z → Dec;
  NewDecFromIntWithPrec : Int → Z → outcome Dec;
  Dec_Add : Dec → Dec → outcome Dec;
  Dec_Sub : Dec → Dec → outcome Dec;
  Dec_Mul : Dec → Dec → outcome Dec;
  Dec_Quo : Dec → Dec → outcome Dec;
  Dec_Ceil : Dec → Dec;
  Dec_RoundInt : Dec → outcome Int;
  Dec_TruncateInt : Dec → outcome Int;
  NewCoin : string → Int → outcome Coin;
  NewCoins : list Coin → outcome (list Coin);
  ValidateDenom : string → bool;
  AccAddress_String : AccAddress → string;
  VerifyAddressFormat : AccAddress → bool;
}.

(** Documented behaviour: [Uint] is a 256-bit unsigned integer whose arithmetic
    panics out of range; [Dec] has 18 decimals, [Mul] rounds to the nearest
    unit, [Quo] rounds a quotient computed with 36 decimals, [Ceil], [RoundInt]
    and [TruncateInt] round to integers; an overflow panics (so that a result of
    smaller magnitude is not one). *)
Class SdkTypesLaws `{S : SdkTypes} : Prop := {
  Uint_Add_ok a b : 0 ≤ a → 0 ≤ b → a + b < maxUint → Uint_Add a b = Ok (a + b);
  Uint_Add_overflow a b : maxUint ≤ a + b → Uint_Add a b = Panic;
  Uint_Sub_ok a b : 0 ≤ b ≤ a → a < maxUint → Uint_Sub a b = Ok (a - b);
  Uint_Sub_underflow a b : a < b → Uint_Sub a b = Panic;
  Uint_QuoUint64_ok a n : 0 ≤ a < maxUint → 0 < n < 2 ^ 64 → Uint_QuoUint64 a n = Ok (a / n);
  NewUintFromBigInt_ok z : 0 ≤ z < maxUint → NewUintFromBigInt z = Ok z;
  NewUintFromBigInt_range z : z < 0 ∨ maxUint ≤ z → NewUintFromBigInt z = Panic;
  Uint_Uint64_ok z : 0 ≤ z < 2 ^ 64 → Uint_Uint64 z = Ok z;
  Uint_Uint64_overflow z : 2 ^ 64 ≤ z → Uint_Uint64 z = Panic;
  Uint_String_decimal z : 0 ≤ z → Uint_String z = pretty (Z.to_N z);
  NewUintFromString_String z : 0 ≤ z < maxUint → NewUintFromString (Uint_String z) = Ok z;
  NewIntFromBigInt_ok z : - maxInt < z < maxInt → NewIntFromBigInt z = Ok z;
  NewIntFromBigInt_overflow z : maxInt ≤ Z.abs z → NewIntFromBigInt z = Panic;
  Int_Add_ok a b : - maxInt < a + b < maxInt → Int_Add a b = Ok (a + b);
  Int_Add_overflow a b : maxInt ≤ Z.abs (a + b) → Int_Add a b = Panic;
  Int_Sub_ok a b : - maxInt < a - b < maxInt → Int_Sub a b = Ok (a - b);
  Int_Sub_overflow a b : maxInt ≤ Z.abs (a - b) → Int_Sub a b = Panic;
  NewDecFromBigInt_eq z : NewDecFromBigInt z = z * Precision;
  NewDecFromIntWithPrec_ok z p : 0 ≤ p ≤ 18 → NewDecFromIntWithPrec z p = Ok (z * 10 ^ (18 - p));
  NewDecFromIntWithPrec_panic z p : 18 < p → NewDecFromIntWithPrec z p = Panic;
  Dec_Add_ok a b : Z.abs (a + b) < maxDec → Dec_Add a b = Ok (a + b);
  Dec_Sub_ok a b : Z.abs (a - b) < maxDec → Dec_Sub a b = Ok (a - b);
  Dec_Mul_near a b : 2 * Z.abs (a * b) < Precision * maxDec →
    ∃ r, Dec_Mul a b = Ok r ∧ 2 * Z.abs (r * Precision - a * b) ≤ Precision;
  Dec_Quo_near a b : b ≠ 0 → 2 * Z.abs a * Precision < maxDec * Z.abs b →
    ∃ r, Dec_Quo a b = Ok r ∧
      2 * Precision * Z.abs (r * b - a * Precision) ≤ (Precision + 2) * Z.abs b;
  Dec_Quo_zero a : Dec_Quo a 0 = Panic;
  Dec_Mul_sound a b : Dec_Mul a b = Panic ∨
    ∃ r, Dec_Mul a b = Ok r ∧ 2 * Z.abs (r * Precision - a * b) ≤ Precision;
  Dec_Mul_smaller a b a' b' r : Z.abs (a' * b') ≤ Z.abs (a * b) → Dec_Mul a b = Ok r → ∃ r', Dec_Mul a' b' = Ok r';
  Dec_Quo_sound a b : Dec_Quo a b = Panic ∨
    ∃ r, Dec_Quo a b = Ok r ∧
      2 * Precision * Z.abs (r * b - a * Precision) ≤ (Precision + 2) * Z.abs b;
  Dec_Quo_smaller a a' b r : Z.abs a' ≤ Z.abs a → Dec_Quo a b = Ok r → ∃ r', Dec_Quo a' b = Ok r';
  Dec_Ceil_spec a : (Precision | Dec_Ceil a) ∧ a ≤ Dec_Ceil a < a + Precision;
  Dec_RoundInt_near a : 2 * Z.abs a < Precision * maxInt →
    ∃ n, Dec_RoundInt a = Ok n ∧ 2 * Z.abs (n * Precision - a) ≤ Precision;
  Dec_TruncateInt_ok a : Z.abs a < Precision * maxInt → Dec_TruncateInt a = Ok (Z.quot a Precision);
  Dec_TruncateInt_sound a : Dec_TruncateInt a = Panic ∨ Dec_TruncateInt a = Ok (Z.quot a Precision);
  Dec_TruncateInt_smaller a a' n : Z.abs a' ≤ Z.abs a → Dec_TruncateInt a = Ok n → ∃ n', Dec_TruncateInt a' = Ok n';
  NewCoin_ok d a : ValidateDenom d = true → 0 ≤ a → NewCoin d a = Ok (MkCoin d a);
  NewCoin_panic d a : ValidateDenom d = false ∨ a < 0 → NewCoin d a = Panic;
  NewCoins_one c : ValidateDenom (coin_Denom c) = true → 0 < coin_Amount c → NewCoins [c] = Ok [c];
  NewCoins_zero c : ValidateDenom (coin_Denom c) = true → coin_Amount c = 0 → NewCoins [c] = Ok [];
}.

(** ** [sdk.KVStore]: one module's store *)
Class KVStore := {
  store : Type;
  store_Get : store → string → option string;
  store_Set : store → string → string → store;
  store_Delete : store → string → store;
  (** [store.Iterator(start, end)], read to its end: [None] is no upper bound. *)
  store_Iterator : store → string → option string → list (string * string);
  (** [sdk.PrefixEndBytes]. *)
  PrefixEndBytes : string → option string;
}.

Definition in_range (start : string) (stop : option string) (k : string) : Prop :=
  bytes_le start k ∧ match stop with Some e => bytes_lt k e | None => True end.

Class KVStoreLaws `{S : KVStore} : Prop := {
  store_Get_Set s k v k' :
    store_Get (store_Set s k v) k' = if decide (k = k') then Some v else store_Get s k';
  store_Get_Delete s k k' :
    store_Get (store_Delete s k) k' = if decide (k = k') then None else store_Get s k';
  store_Iterator_elem s start stop k v :
    (k, v) ∈ store_Iterator s start stop ↔ store_Get s k = Some v ∧ in_range start stop k;
  store_Iterator_sorted s start stop :
    StronglySorted (λ a b, bytes_lt a.1 b.1) (store_Iterator s start stop);
  PrefixEndBytes_spec p k : p ≠ ""%string → in_range p (PrefixEndBytes p) k ↔ has_prefix p k;
}.

(** [store.Has], [sdk.KVStorePrefixIterator] and its reverse. *)
Definition store_Has `{KVStore} (s : store) (k : string) : bool := bool_decide (is_Some (store_Get s k)).
Definition KVStorePrefixIterator `{KVStore} (s : store) (p : string) : list (string * string) :=
  store_Iterator s p (PrefixEndBytes p).
Definition KVStoreReversePrefixIterator `{KVStore} (s : store) (p : string) : list (string * string) :=
  reverse (KVStorePrefixIterator s p).

(** ** The amino codec: [MustMarshalBinaryBare], [...LengthPrefixed], [MarshalJSON] and back *)
Inductive encoding := Bare | LengthPrefixed | JSON.

Class Codec (A : Type) := {
  Marshal : encoding → A → string;
  Unmarshal : encoding → string → option A;
  Unmarshal_Marshal e a : Unmarshal e (Marshal e a) = Some a;
}.

(** ** The bank and supply keepers: coin balances of accounts *)
Class Ledger := {
  ledger : Type;
  balance : ledger → AccAddress → string → Int;
  ModuleAddress : string → AccAddress;
  AddCoins : ledger → AccAddress → list Coin → outcome ledger;
  SendCoinsFromAccountToModule : ledger → AccAddress → string → list Coin → outcome ledger;
  SendCoinsFromModuleToAccount : ledger → string → AccAddress → list Coin → outcome ledger;
}.

Definition amount_of (cs : list Coin) (d : string) : Int :=
  sumZ (λ c, if decide (coin_Denom c = d) then coin_Amount c else 0) cs.

(** The change of [x]'s balance when [cs] move from [src] to [dst]. *)
Definition moved (src dst : AccAddress) (cs : list Coin) (x : AccAddress) (d : string) : Int :=
  (if decide (x = dst) then amount_of cs d else 0) -
  (if decide (x = src) then amount_of cs d else 0).

Class LedgerLaws `{L : Ledger} : Prop := {
  AddCoins_balance l a cs l' x d :
    AddCoins l a cs = Ok l' →
    balance l' x d = balance l x d + (if decide (x = a) then amount_of cs d else 0);
  AddCoins_ok l a cs :
    Forall (λ c, 0 < coin_Amount c ∧ balance l a (coin_Denom c) + coin_Amount c < maxInt) cs →
    (length cs ≤ 1)%nat → ∃ l', AddCoins l a cs = Ok l';
  ToModule_balance l a m cs l' x d :
    SendCoinsFromAccountToModule l a m cs = Ok l' →
    balance l' x d = balance l x d + moved a (ModuleAddress m) cs x d;
  ToModule_insufficient l a m cs d :
    balance l a d < amount_of cs d → ∃ e, SendCoinsFromAccountToModule l a m cs = Err e;
  FromModule_balance l m a cs l' x d :
    SendCoinsFromModuleToAccount l m a cs = Ok l' →
    balance l' x d = balance l x d + moved (ModuleAddress m) a cs x d;
  FromModule_ok l m a c :
    0 < coin_Amount c ≤ balance l (ModuleAddress m) (coin_Denom c) →
    balance l a (coin_Denom c) + coin_Amount c < maxInt →
    ∃ l', SendCoinsFromModuleToAccount l m a [c] = Ok l';
  FromModule_insufficient l m a cs d :
    balance l (ModuleAddress m) d < amount_of cs d →
    ∃ e, SendCoinsFromModuleToAccount l m a cs = Err e;
}.

(** ** Go's [sort.Sort] and [sort.Slice]: some sorted permutation *)
Class GoSort := {
  sort_Sort : ∀ {A}, (A → A → bool) → list A → list A;
}.

(** [less] is a strict weak ordering ([sort.Interface]'s contract). *)
Record weak_order {A} (less : A → A → bool) : Prop := {
  less_irrefl x : less x x = false;
  less_trans x y z : less x y = true → less y z = true → less x z = true;
  less_incomparable x y z : less x y = false → less y z = false → less x z = false;
}.

Class GoSortLaws `{G : GoSort} : Prop := {
  sort_Sort_perm A (less : A → A → bool) l : sort_Sort less l ≡ₚ l;
  sort_Sort_sorted A (less : A → A → bool) l :
    weak_order less → StronglySorted (λ x y, less y x = false) (sort_Sort less l);
}.

(** [sort.Search]: binary search for the smallest index where [f] holds. *)
Fixpoint sort_Search_loop (fuel : nat) (f : nat → bool) (i j : nat) : nat :=
  match fuel with
  | O => i
  | S fuel' =>
      if (i <? j)%nat then
        let h := ((i + j) / 2)%nat in
        if f h then sort_Search_loop fuel' f i h else sort_Search_loop fuel' f (S h) j
      else i
  end.
Definition sort_Search (n : nat) (f : nat → bool) : nat := sort_Search_loop (S n) f 0 n.

(** [sort.SliceIsSorted]: no element is less than its predecessor. *)
Fixpoint sort_SliceIsSorted {A} (less : A → A → bool) (l : list A) : bool :=
  match l with
  | x :: ((y :: _) as l') => negb (less y x) && sort_SliceIsSorted less l'
  | _ => true
  end.

Lemma sort_Search_loop_spec fuel (f : nat → bool) i j n :
  (i ≤ j ≤ n)%nat → (j - i < fuel)%nat →
  (∀ a b, a ≤ b < n → f a = true → f b = true)%nat →
  (∀ k, k < i → f k = false)%nat → (∀ k, j ≤ k < n → f k = true)%nat →
  let r := sort_Search_loop fuel f i j in
  (i ≤ r ≤ j)%nat ∧ (∀ k, k < r → f k = false)%nat ∧ (∀ k, r ≤ k < n → f k = true)%nat.
Proof.
  revert i j. induction fuel as [|fuel IH]; intros i j Hij Hf Hmono Hlo Hhi; [lia|].
  cbn [sort_Search_loop]. destruct (Nat.ltb_spec i j) as [Hlt|Hge].
  2:{ split; [lia|]. split; [done|]. intros k Hk. apply Hhi. lia. }
  pose proof (Nat.div_mod_eq (i + j) 2). pose proof (Nat.mod_upper_bound (i + j) 2 ltac:(lia)).
  set (h := ((i + j) / 2)%nat) in *.
  destruct (f h) eqn:Eh.
  - edestruct (IH i h) as (? & ? & ?); [lia..|done|done| |].
    + intros k Hk. apply (Hmono h); [lia|done].
    + split; [lia|done].
  - edestruct (IH (S h) j) as (? & ? & ?); [lia..|done| |done|].
    + intros k Hk. destruct (f k) eqn:Ek; [|done].
      rw (Hmono k h) in Eh; [done|lia|done].
    + split; [lia|done].
Qed.

(** For a monotone predicate the search returns the partition point. *)
Lemma sort_Search_spec n (f : nat → bool) :
  (∀ a b, a ≤ b < n → f a = true → f b = true)%nat →
  let r := sort_Search n f in
  (r ≤ n)%nat ∧ (∀ k, k < r → f k = false)%nat ∧ (∀ k, r ≤ k < n → f k = true)%nat.
Proof.
  intros Hmono r.
  destruct (sort_Search_loop_spec (S n) f 0 n n) as (?&?&?); [lia|lia|done| | |].
  - intros k Hk. exfalso. lia.
  - intros k Hk. exfalso. lia.
  - split; [unfold r, sort_Search; lia|done].
Qed.
