(* ===== verification/SdkRef.v ===== *)
(** * Reference instances of the external interfaces

    One concrete, executable implementation of every interface of [Sdk], with the
    proof of its laws.  The theorems of the development never mention them: they
    serve to evaluate the model on concrete inputs (the witnesses), and to show
    that the laws can hold together. *)
From S2P Require Import Prelude Bytes Sdk.

(** ** Arithmetic *)

Definition range_check (lo hi z : Z) : outcome Z :=
  if (lo <=? z) && (z <? hi) then Ok z else Panic.

Lemma range_check_ok lo hi z : lo ≤ z < hi → range_check lo hi z = Ok z.
Proof.
  intros. unfold range_check.
  destruct (Z.leb_spec lo z), (Z.ltb_spec z hi); simpl; done || lia.
Qed.

Lemma range_check_panic lo hi z : z < lo ∨ hi ≤ z → range_check lo hi z = Panic.
Proof.
  intros. unfold range_check.
  destruct (Z.leb_spec lo z), (Z.ltb_spec z hi); simpl; done || lia.
Qed.

(** Division rounding to the nearest integer, halves to the even neighbour. *)
Definition round_half_even (a b : Z) : Z :=
  let q := a / b in
  let r := a mod b in
  if 2 * r <? b then q
  else if b <? 2 * r then q + 1
  else if Z.even q then q else q + 1.

Definition chop_round (a : Z) : Z := Z.sgn a * round_half_even (Z.abs a) Precision.

Lemma round_half_even_near a b : 0 < b → 2 * Z.abs (round_half_even a b * b - a) ≤ b.
Proof.
  intros Hb. unfold round_half_even.
  pose proof (Z.div_mod a b ltac:(lia)). pose proof (Z.mod_pos_bound a b Hb).
  destruct (Z.ltb_spec (2 * (a mod b)) b); [nia|].
  destruct (Z.ltb_spec b (2 * (a mod b))); [nia|].
  destruct (Z.even (a / b)); nia.
Qed.

Lemma Precision_pos : 0 < Precision.
Proof. done. Qed.

Lemma chop_round_near a : 2 * Z.abs (chop_round a * Precision - a) ≤ Precision.
Proof.
  unfold chop_round. pose proof (round_half_even_near (Z.abs a) Precision Precision_pos) as H.
  pose proof Precision_pos.
  set (r := round_half_even (Z.abs a) Precision) in *. clearbody r.
  destruct (Z.sgn_spec a) as [[? ->]|[[<- ->]|[? ->]]]; lia.
Qed.

Definition checkDec (z : Z) : outcome Dec := range_check (1 - maxDec) maxDec z.
Definition checkInt (z : Z) : outcome Int := range_check (1 - maxInt) maxInt z.
Definition checkUint (z : Z) : outcome Uint := range_check 0 maxUint z.

(** [Quo]: the quotient with 36 decimals, truncated, then rounded to 18. *)
Definition ref_Quo (a b : Dec) : outcome Dec :=
  if b =? 0 then Panic else checkDec (chop_round (Z.quot (a * Precision * Precision) b)).

Lemma quo_near_aux P a b r q m :
  0 < P → 2 * Z.abs (r * P - q) ≤ P → a * P * P = b * q + m → Z.abs m < Z.abs b →
  2 * P * Z.abs (r * b - a * P) ≤ (P + 2) * Z.abs b.
Proof.
  intros HP Hr Hq Hm.
  assert (P * (r * b - a * P) = b * (r * P - q) - m) as E by lia.
  assert (2 * Z.abs (b * (r * P - q)) ≤ Z.abs b * P) as H1 by (rw Z.abs_mul; nia).
  assert (P * Z.abs (r * b - a * P) ≤ Z.abs (b * (r * P - q)) + Z.abs m) as H2.
  { rw -{1}(Z.abs_eq P); [|lia]. rw -Z.abs_mul E. lia. }
  lia.
Qed.

(** The truncation of [ref_Quo] costs at most one unit of the 36th decimal. *)
Lemma ref_Quo_near a b : b ≠ 0 →
  let r := chop_round (Z.quot (a * Precision * Precision) b) in
  2 * Precision * Z.abs (r * b - a * Precision) ≤ (Precision + 2) * Z.abs b.
Proof.
  intros Hb r. eapply quo_near_aux; [done|apply chop_round_near|by apply Z.quot_rem|].
  by apply Z.rem_bound_abs.
Qed.

(** Decimal parsing, used for [NewUintFromString]. *)
Fixpoint digits_value (acc : Z) (s : string) : option Z :=
  match s with
  | EmptyString => Some acc
  | String c s' =>
      if (48 <=? byte_val c) && (byte_val c <=? 57)
      then digits_value (acc * 10 + (byte_val c - 48)) s' else None
  end.
Definition ref_NewUintFromString (s : string) : outcome Uint :=
  if decide (s = ""%string) then Panic
  else match digits_value 0 s with Some z => checkUint z | None => Panic end.

Lemma digits_value_char x : (x < 10)%N → byte_val (pretty_N_char x) = 48 + Z.of_N x.
Proof.
  intros H. destruct x as [|p]; [done|].
  do 4 (destruct p as [p|p|]; try done; try lia).
Qed.

Lemma digits_value_go x s : digits_value 0 (pretty_N_go x s) = digits_value (Z.of_N x) s.
Proof.
  revert s. induction (N.lt_wf_0 x) as [x _ IH]; intros s.
  destruct (decide (x = 0)%N) as [->|Hx]; [by rw pretty_N_go_0|].
  rw pretty_N_go_step; [|lia]. rw IH; [|apply N.div_lt; lia]. cbn [digits_value].
  pose proof (N.mod_upper_bound x 10 ltac:(lia)) as Hm.
  pose proof (N.div_mod x 10 ltac:(lia)) as Hdm. rw (digits_value_char _ Hm).
  set (m := (x `mod` 10)%N) in *. set (q := (x `div` 10)%N) in *. clearbody m q. subst x.
  destruct (Z.leb_spec 48 (48 + Z.of_N m)); [|lia].
  destruct (Z.leb_spec (48 + Z.of_N m) 57); [|lia]. simpl. f_equal. lia.
Qed.

Lemma digits_value_pretty x : digits_value 0 (pretty x) = Some (Z.of_N x).
Proof.
  unfold pretty, pretty_N. case_decide; [by subst|]. by rw digits_value_go.
Qed.

Lemma pretty_N_nonempty (x : N) : pretty x ≠ ""%string.
Proof.
  intros H. pose proof (digits_value_pretty x) as E. rw H in E. simpl in E.
  destruct x; [by vm_compute in H|done].
Qed.

Lemma ref_NewUintFromString_pretty z :
  0 ≤ z < maxUint → ref_NewUintFromString (pretty (Z.to_N z)) = Ok z.
Proof.
  intros Hz. unfold ref_NewUintFromString. rw digits_value_pretty.
  rw decide_False; [|apply pretty_N_nonempty]. rw Z2N.id; [|lia]. by apply range_check_ok.
Qed.

Definition ref_ValidateDenom (d : string) : bool :=
  (2 <? Z.of_nat (String.length d)) && (Z.of_nat (String.length d) <? 17).

Definition ref_NewCoin (d : string) (a : Int) : outcome Coin :=
  if ref_ValidateDenom d && (0 <=? a) then Ok (MkCoin d a) else Panic.

Definition ref_NewCoins (cs : list Coin) : outcome (list Coin) :=
  Ok (filter (λ c, coin_Amount c ≠ 0) cs).

#[export] Instance SdkTypes_ref : SdkTypes := {|
  Uint_Add a b := checkUint (a + b);
  Uint_Sub a b := checkUint (a - b);
  Uint_QuoUint64 a n := if n =? 0 then Panic else checkUint (a / n);
  NewUintFromBigInt := checkUint;
  Uint_Uint64 z := range_check 0 (2 ^ 64) z;
  Uint_String z := pretty (Z.to_N z);
  NewUintFromString := ref_NewUintFromString;
  NewIntFromBigInt := checkInt;
  Int_Add a b := checkInt (a + b);
  Int_Sub a b := checkInt (a - b);
  NewDecFromBigInt z := z * Precision;
  NewDecFromIntWithPrec z p :=
    if (0 <=? p) && (p <=? 18) then Ok (z * 10 ^ (18 - p)) else Panic;
  Dec_Add a b := checkDec (a + b);
  Dec_Sub a b := checkDec (a - b);
  Dec_Mul a b := checkDec (chop_round (a * b));
  Dec_Quo := ref_Quo;
  Dec_Ceil a := - (- a / Precision) * Precision;
  Dec_RoundInt a := checkInt (chop_round a);
  Dec_TruncateInt a := checkInt (Z.quot a Precision);
  NewCoin := ref_NewCoin;
  NewCoins := ref_NewCoins;
  ValidateDenom := ref_ValidateDenom;
  AccAddress_String a := a;
  VerifyAddressFormat a := (String.length a =? 20)%nat;
|}.

Lemma near_bound P r x M : 0 < P → 2 * Z.abs (r * P - x) ≤ P → 2 * Z.abs x < P * M → Z.abs r < M.
Proof.
  intros HP H1 H2.
  assert (Z.abs r * P ≤ Z.abs (r * P - x) + Z.abs x).
  { rw -{1}(Z.abs_eq P); [|lia]. rw -Z.abs_mul. lia. }
  assert (0 < M) by nia. assert (2 * Z.abs r < M + 1); [|lia].
  apply (Z.mul_lt_mono_pos_r P); lia.
Qed.

Lemma near_bound_quo P r a b M :
  2 < P → 2 ≤ M → b ≠ 0 → 2 * P * Z.abs (r * b - a * P) ≤ (P + 2) * Z.abs b →
  2 * Z.abs a * P < M * Z.abs b → Z.abs r < M.
Proof.
  intros HP HM Hb H1 H2.
  assert (Z.abs (r * b - a * P) < Z.abs b).
  { apply (Z.mul_lt_mono_pos_l (2 * P)); nia. }
  assert (Z.abs r * Z.abs b < Z.abs b + Z.abs a * P).
  { rw -Z.abs_mul. rw -{1}(Z.abs_eq P); [|lia]. rw -Z.abs_mul. lia. }
  assert (2 * Z.abs r < M + 2); [|lia].
  apply (Z.mul_lt_mono_pos_r (Z.abs b)); lia.
Qed.

Lemma range_check_inv lo hi z r : range_check lo hi z = Ok r → r = z ∧ lo ≤ z < hi.
Proof.
  unfold range_check. destruct (Z.leb_spec lo z), (Z.ltb_spec z hi); simpl; naive_solver.
Qed.

Lemma range_check_cases lo hi z : range_check lo hi z = Panic ∨ range_check lo hi z = Ok z.
Proof. unfold range_check. destruct (_ && _); auto. Qed.

(** Rounding preserves the order of magnitudes, so a smaller operand stays in range. *)
Lemma near_mono P x y r s :
  0 < P → 2 * Z.abs (r * P - x) ≤ P → 2 * Z.abs (s * P - y) ≤ P → x < y → r ≤ s.
Proof. intros HP Hr Hs Hxy. assert (r < s + 1); [|lia]. apply (Z.mul_lt_mono_pos_r P); lia. Qed.

Lemma abs_chop_round a : Z.abs (chop_round a) = chop_round (Z.abs a).
Proof.
  unfold chop_round. rw (Z.abs_eq (Z.abs a)); [|lia].
  assert (0 ≤ round_half_even (Z.abs a) Precision).
  { unfold round_half_even. pose proof Precision_pos.
    pose proof (Z.div_pos (Z.abs a) Precision ltac:(lia) ltac:(lia)).
    destruct (_ <? _); [lia|]. destruct (_ <? _); [lia|]. destruct (Z.even _); lia. }
  destruct (Z.sgn_spec a) as [[? ->]|[[<- ->]|[? ->]]]; [|done|].
  - rw (Z.sgn_pos (Z.abs a)); lia.
  - rw (Z.sgn_pos (Z.abs a)); lia.
Qed.

Lemma chop_round_mono a b : Z.abs a ≤ Z.abs b → Z.abs (chop_round a) ≤ Z.abs (chop_round b).
Proof.
  intros H. rw !abs_chop_round. destruct (decide (Z.abs a = Z.abs b)) as [->|]; [done|].
  eapply near_mono; [apply Precision_pos|apply chop_round_near..|]. lia.
Qed.

Lemma checkDec_smaller x y r : Z.abs x ≤ Z.abs y → checkDec y = Ok r → ∃ r', checkDec x = Ok r'.
Proof.
  intros H [_ Hr]%range_check_inv. exists x. apply range_check_ok. lia.
Qed.

Lemma quot_abs_mono a a' b : b ≠ 0 → Z.abs a' ≤ Z.abs a → Z.abs (Z.quot a' b) ≤ Z.abs (Z.quot a b).
Proof.
  intros Hb H. rw -!Z.quot_abs; [|done..]. apply Z.quot_le_mono; lia.
Qed.

#[export] Instance SdkTypesLaws_ref : SdkTypesLaws.
Proof.
  split; simpl; intros; unfold checkUint, checkInt, checkDec, maxInt in *;
    try (by apply range_check_ok; lia); try (by apply range_check_panic; lia); try done.
  - destruct (Z.eqb_spec n 0); [lia|]. apply range_check_ok. split; [apply Z.div_pos; lia|].
    apply Z.div_lt_upper_bound; nia.
  - by apply ref_NewUintFromString_pretty.
  - by rw (proj2 (Z.leb_le 0 p)) ?(proj2 (Z.leb_le p 18)); try lia.
  - by rw (proj2 (Z.leb_gt p 18)) ?andb_false_r.
  - pose proof (chop_round_near (a * b)) as Hn. eexists. split; [|exact Hn].
    pose proof (near_bound _ _ _ _ Precision_pos Hn H). apply range_check_ok. lia.
  - pose proof (ref_Quo_near a b H) as Hn. eexists. split; [|exact Hn].
    pose proof (near_bound_quo Precision _ a b maxDec ltac:(done) ltac:(done) H Hn H0).
    unfold ref_Quo. destruct (Z.eqb_spec b 0); [lia|]. apply range_check_ok. lia.
  - destruct (range_check_cases (1 - maxDec) maxDec (chop_round (a * b))) as [->| ->]; [by left|right].
    eexists. split; [done|apply chop_round_near].
  - eapply checkDec_smaller; [by apply chop_round_mono|done].
  - unfold ref_Quo, checkDec. destruct (Z.eqb_spec b 0); [by left|].
    destruct (range_check_cases (1 - maxDec) maxDec (chop_round (Z.quot (a * Precision * Precision) b))) as [->| ->];
      [by left|right]. eexists. split; [done|]. by apply ref_Quo_near.
  - unfold ref_Quo in *. destruct (Z.eqb_spec b 0); [done|]. eapply checkDec_smaller; [|done].
    apply chop_round_mono, quot_abs_mono; [done|]. rw !Z.abs_mul. pose proof Precision_pos. nia.
  - split; [apply Z.divide_factor_r|]. pose proof Precision_pos.
    pose proof (Z.div_mod (- a) Precision ltac:(lia)).
    pose proof (Z.mod_pos_bound (- a) Precision ltac:(lia)). nia.
  - pose proof (chop_round_near a) as Hn. eexists. split; [|exact Hn].
    pose proof (near_bound _ _ _ _ Precision_pos Hn H). apply range_check_ok. lia.
  - apply range_check_ok. pose proof Precision_pos.
    pose proof (Z.quot_rem a Precision ltac:(lia)). pose proof (Z.rem_bound_abs a Precision ltac:(lia)).
    pose proof (Z.rem_sign_mul a Precision ltac:(lia)). nia.
  - apply range_check_cases.
  - apply range_check_inv in H0 as [_ Hr]. exists (Z.quot a' Precision). apply range_check_ok.
    pose proof (quot_abs_mono a a' Precision ltac:(done) H). lia.
  - unfold ref_NewCoin. by rw H (proj2 (Z.leb_le 0 a)).
  - unfold ref_NewCoin. destruct H as [->|H]; [done|].
    by rw (proj2 (Z.leb_gt 0 a)) ?andb_false_r.
  - unfold ref_NewCoins. rw filter_cons_True; [|by lia]. by rw filter_nil.
  - unfold ref_NewCoins. rw filter_cons_False; [|by lia]. by rw filter_nil.
Qed.

(** ** Sorting *)

Definition not_less {A} (less : A → A → bool) (x y : A) : Prop := less y x = false.
#[export] Instance not_less_dec {A} (less : A → A → bool) x y : Decision (not_less less x y).
Proof. unfold not_less. apply _. Defined.

#[export] Instance GoSort_ref : GoSort := {|
  sort_Sort A less l := merge_sort (not_less less) l;
|}.

#[export] Instance GoSortLaws_ref : GoSortLaws.
Proof.
  split; simpl.
  - intros A less l. apply merge_sort_Permutation.
  - intros A less l [Hirr Htr Hinc].
    assert (Transitive (not_less less)) by (intros x y z Hyx Hzy; by apply (Hinc z y x)).
    assert (Total (not_less less)).
    { intros x y. unfold not_less. destruct (less y x) eqn:E; [right|by left].
      destruct (less x y) eqn:E'; [|done]. specialize (Htr x y x E' E). specialize (Hirr x). congruence. }
    apply (StronglySorted_merge_sort (not_less less)).
Qed.

(** ** Stores: finite maps, iterated in key order *)

Definition key_le (a b : string * string) : Prop := bytes_le a.1 b.1.
#[export] Instance key_le_dec a b : Decision (key_le a b).
Proof. unfold key_le. apply _. Defined.

#[export] Instance in_range_dec start stop k : Decision (in_range start stop k).
Proof. unfold in_range. destruct stop; apply _. Defined.

(** The smallest key above every key with the given prefix: the last byte that
    is not 255 incremented, the rest dropped. *)
Fixpoint ref_PrefixEndBytes (p : string) : option string :=
  match p with
  | EmptyString => None
  | String c s =>
      match ref_PrefixEndBytes s with
      | Some e => Some (String c e)
      | None => if byte_val c =? 255 then None else Some (String (byte_of (byte_val c + 1)) "")
      end
  end.

#[export] Instance KVStore_ref : KVStore := {|
  store := gmap string string;
  store_Get s k := s !! k;
  store_Set s k v := <[k := v]> s;
  store_Delete s k := delete k s;
  store_Iterator s start stop :=
    merge_sort key_le (filter (λ kv, in_range start stop kv.1) (map_to_list s));
  PrefixEndBytes := ref_PrefixEndBytes;
|}.

#[local] Instance key_le_trans : Transitive key_le.
Proof.
  intros a b c. unfold key_le. rw !bytes_le_lteq. intros [?|E] [?|E'].
  - left. by trans b.1.
  - rw -E'. by left.
  - rw E. by left.
  - right. congruence.
Qed.
#[local] Instance key_le_total : Total key_le.
Proof.
  intros a b. unfold key_le. rw !bytes_le_lteq.
  destruct (bytes_lt_total a.1 b.1) as [|[|]]; auto.
Qed.

Lemma key_sorted_strict (l : list (string * string)) :
  NoDup l.*1 → StronglySorted key_le l → StronglySorted (λ a b, bytes_lt a.1 b.1) l.
Proof.
  induction 2 as [|x l Hs IH Hx]; [constructor|].
  apply NoDup_cons in H as [Hnin Hnd]. constructor; [by apply IH|].
  rw !Forall_forall in Hx |- *. intros y Hy. specialize (Hx y Hy).
  apply bytes_le_lteq in Hx as [|E]; [done|]. exfalso. apply Hnin. rw E.
  by apply list_elem_of_fmap_2.
Qed.

Lemma ref_PrefixEndBytes_spec p k : in_range p (ref_PrefixEndBytes p) k ↔ has_prefix p k.
Proof.
  revert k. induction p as [|c p IH]; intros k.
  { split; intros _; [by exists k|]. split; [|done]. rw bytes_le_lteq. destruct k; [by right|by left]. }
  destruct k as [|d k].
  { split; [intros [H _]; by apply bytes_le_lteq in H as [H|H]|intros [s H]; done]. }
  assert (has_prefix (String c p) (String d k) ↔ c = d ∧ has_prefix p k) as ->.
  { split; [intros [s H]; rw string_app_cons in H; simplify_eq; split; [done|by exists s]|].
    intros [-> [s ->]]. by exists s. }
  rw -IH. unfold in_range. simpl. rw !bytes_le_lteq bytes_lt_cons.
  destruct (ref_PrefixEndBytes p) as [e|] eqn:Ep; simpl.
  - rw bytes_lt_cons. split; [|naive_solver].
    intros [[[?|[E1 ?]]|E1] [?|[E2 ?]]]; simplify_eq; try lia; naive_solver.
  - pose proof (byte_val_range c). pose proof (byte_val_range d).
    destruct (Z.eqb_spec (byte_val c) 255) as [E|E].
    + split; [|naive_solver]. intros [[[?|[E1 ?]]|E1] _]; simplify_eq; [lia|naive_solver..].
    + rw bytes_lt_cons byte_val_of Z.mod_small; [|lia]. split.
      * assert (¬ bytes_lt k "") by (by destruct k).
        intros [[[?|[E1 ?]]|E1] [?|[E2 ?]]]; simplify_eq; try lia; naive_solver.
      * intros [-> [? _]]. split; [naive_solver|]. left. lia.
Qed.

#[export] Instance KVStoreLaws_ref : KVStoreLaws.
Proof.
  split; simpl.
  - intros s k v k'. by rw lookup_insert.
  - intros s k k'. by rw lookup_delete.
  - intros s start stop k v.
    pose proof (merge_sort_Permutation key_le
      (filter (λ kv, in_range start stop kv.1) (map_to_list s))) as ->.
    rewrite list_elem_of_filter elem_of_map_to_list. naive_solver.
  - intros s start stop. apply key_sorted_strict; [|apply StronglySorted_merge_sort; apply _].
    pose proof (merge_sort_Permutation key_le
      (filter (λ kv, in_range start stop kv.1) (map_to_list s))) as ->.
    apply (sublist_NoDup _ (map_to_list s).*1); [apply NoDup_fst_map_to_list|].
    apply fmap_sublist, sublist_filter.
  - intros p k _. apply ref_PrefixEndBytes_spec.
Qed.

(** ** The codec of a countable type *)

Fixpoint pos_bits (p : positive) : string :=
  match p with
  | xH => ""
  | xO p => String "0" (pos_bits p)
  | xI p => String "1" (pos_bits p)
  end.
Fixpoint bits_pos (s : string) : positive :=
  match s with
  | EmptyString => xH
  | String c s => if Ascii.eqb c "0" then xO (bits_pos s) else xI (bits_pos s)
  end.

Lemma bits_pos_bits p : bits_pos (pos_bits p) = p.
Proof. induction p; simpl; congruence. Qed.

Definition encoding_tag (e : encoding) : string :=
  match e with Bare => "B" | LengthPrefixed => "L" | JSON => "J" end.

Definition codec_of_countable (A : Type) `{Countable A} : Codec A.
Proof.
  refine {|
    Marshal e a := encoding_tag e +:+ pos_bits (encode a);
    Unmarshal e s :=
      match s with
      | String c s' => if Ascii.eqb c (match e with Bare => "B" | LengthPrefixed => "L" | JSON => "J" end)
                       then decode (bits_pos s') else None
      | EmptyString => None
      end
  |}.
  abstract (intros [] a; simpl; by rw bits_pos_bits decode_encode).
Defined.

(** ** Balances *)

Notation ledger_ref := (gmap (string * string) N).

Definition ref_balance (l : ledger_ref) (a d : string) : Int := Z.of_N (default 0%N (l !! (a, d))).

Definition ref_AddCoin (a : string) (l : ledger_ref) (c : Coin) : outcome ledger_ref :=
  if coin_Amount c <? 0 then Err (Plain "invalid coins")
  else Ok (<[(a, coin_Denom c) := Z.to_N (ref_balance l a (coin_Denom c) + coin_Amount c)]> l).

Definition ref_SubCoin (a : string) (l : ledger_ref) (c : Coin) : outcome ledger_ref :=
  if (coin_Amount c <? 0) || (ref_balance l a (coin_Denom c) <? coin_Amount c)
  then Err (Plain "insufficient funds")
  else Ok (<[(a, coin_Denom c) := Z.to_N (ref_balance l a (coin_Denom c) - coin_Amount c)]> l).

Definition ref_Send (l : ledger_ref) (src dst : string) (cs : list Coin) : outcome ledger_ref :=
  l1 ← foldM (ref_SubCoin src) l cs; foldM (ref_AddCoin dst) l1 cs.

#[export] Instance Ledger_ref : Ledger := {|
  ledger := ledger_ref;
  balance := ref_balance;
  ModuleAddress m := "module/" +:+ m;
  AddCoins l a cs := foldM (ref_AddCoin a) l cs;
  SendCoinsFromAccountToModule l a m cs := ref_Send l a ("module/" +:+ m) cs;
  SendCoinsFromModuleToAccount l m a cs := ref_Send l ("module/" +:+ m) a cs;
|}.

Lemma ref_balance_insert l a d n x d' :
  ref_balance (<[(a, d) := n]> l) x d' =
  if decide (x = a ∧ d' = d) then Z.of_N n else ref_balance l x d'.
Proof.
  unfold ref_balance. rw lookup_insert. case_decide as E; simplify_eq.
  - by rw decide_True.
  - rw decide_False; [done|naive_solver].
Qed.

Lemma ref_balance_nonneg l a d : 0 ≤ ref_balance l a d.
Proof. unfold ref_balance. lia. Qed.

Lemma ref_AddCoins_balance a cs l l' x d :
  foldM (ref_AddCoin a) l cs = Ok l' →
  ref_balance l' x d = ref_balance l x d + (if decide (x = a) then amount_of cs d else 0).
Proof.
  revert l. induction cs as [|c cs IH]; intros l H; simpl in H.
  { ok_inv. case_decide; simpl; lia. }
  ok_inv. unfold ref_AddCoin in Hrun. ok_inv. rw (IH _ H) ref_balance_insert.
  pose proof (ref_balance_nonneg l a (coin_Denom c)). apply Z.ltb_ge in Eb.
  unfold amount_of; rw sumZ_cons. repeat case_decide; naive_solver lia.
Qed.

Lemma ref_SubCoins_balance a cs l l' x d :
  foldM (ref_SubCoin a) l cs = Ok l' →
  ref_balance l' x d = ref_balance l x d - (if decide (x = a) then amount_of cs d else 0).
Proof.
  revert l. induction cs as [|c cs IH]; intros l H; simpl in H.
  { ok_inv. case_decide; simpl; lia. }
  ok_inv. unfold ref_SubCoin in Hrun. ok_inv. rw (IH _ H) ref_balance_insert.
  apply orb_false_iff in Eb as [E1%Z.ltb_ge E2%Z.ltb_ge].
  unfold amount_of; rw sumZ_cons. repeat case_decide; naive_solver lia.
Qed.

Lemma ref_SubCoins_outcome a cs l : foldM (ref_SubCoin a) l cs ≠ Panic.
Proof.
  revert l. induction cs as [|c cs IH]; intros l; [done|]. simpl.
  unfold ref_SubCoin. destruct (_ || _); [done|]. apply IH.
Qed.

Lemma ref_Send_balance l src dst cs l' x d :
  ref_Send l src dst cs = Ok l' →
  ref_balance l' x d = ref_balance l x d + moved src dst cs x d.
Proof.
  unfold ref_Send, moved. intros H. ok_inv.
  rw (ref_AddCoins_balance _ _ _ _ x d H) (ref_SubCoins_balance _ _ _ _ x d Hrun). lia.
Qed.

Lemma ref_Send_insufficient l src dst cs d :
  ref_balance l src d < amount_of cs d → ∃ e, ref_Send l src dst cs = Err e.
Proof.
  intros H. unfold ref_Send. destruct (foldM (ref_SubCoin src) l cs) as [l1|e|] eqn:E; [|by exists e|].
  - pose proof (ref_SubCoins_balance _ _ _ _ src d E) as Hb. rw decide_True in Hb; [|done].
    pose proof (ref_balance_nonneg l1 src d). lia.
  - by apply ref_SubCoins_outcome in E.
Qed.

#[export] Instance LedgerLaws_ref : LedgerLaws.
Proof.
  split; simpl.
  - intros. by apply ref_AddCoins_balance.
  - intros l a [|c [|c' cs]] H Hlen; simpl in *; [by eexists| |lia].
    apply Forall_cons in H as [[Hc _] _]. unfold ref_AddCoin.
    rw (proj2 (Z.ltb_ge (coin_Amount c) 0)); [|lia]. simpl. by eexists.
  - intros. by apply ref_Send_balance.
  - intros. by eapply ref_Send_insufficient.
  - intros. by apply ref_Send_balance.
  - intros l m a c [H1 H2] _. unfold ref_Send. simpl. unfold ref_SubCoin, ref_AddCoin.
    rw (proj2 (Z.ltb_ge (coin_Amount c) 0)); [|lia].
    rw (proj2 (Z.ltb_ge (ref_balance _ _ _) (coin_Amount c))); [|done]. simpl. by eexists.
  - intros. by eapply ref_Send_insufficient.
Qed.
