(* ===== verification/Strconv.v ===== *)
(** * Strings and numbers of the Go standard library

    What the parsers of the clients use of [strings], [strconv], [encoding/binary] and
    [math/big].  Letters are ASCII letters: the bytes of other runes are left as they are. *)
From S2P Require Import Prelude Bytes Sdk SdkRef.
Local Open Scope string_scope.
Local Open Scope Z_scope.

(** ** [strings] *)

(** [TrimSpace], for white space of one byte. *)
Definition is_space (c : ascii) : bool :=
  let z := byte_val c in (z =? 32) || ((9 <=? z) && (z <=? 13)).
Fixpoint trim_left (s : string) : string :=
  match s with String c s' => if is_space c then trim_left s' else s | EmptyString => s end.
Definition string_reverse (s : string) : string := String.string_of_list_ascii (reverse (String.list_ascii_of_string s)).
Definition TrimSpace (s : string) : string := string_reverse (trim_left (string_reverse (trim_left s))).

Definition TrimPrefix (s prefix : string) : string :=
  if decide (has_prefix prefix s) then string_drop (String.length prefix) s else s.

Fixpoint ToLower (s : string) : string :=
  match s with
  | EmptyString => EmptyString
  | String c s' =>
      let z := byte_val c in
      String (if (65 <=? z) && (z <=? 90) then byte_of (z + 32) else c) (ToLower s')
  end.

Lemma TrimPrefix_app prefix s : TrimPrefix (prefix +:+ s) prefix = s.
Proof. unfold TrimPrefix. rw decide_True; [apply string_drop_app|apply has_prefix_app]. Qed.

Lemma string_reverse_cons c s : string_reverse (String c s) = string_reverse s +:+ String c "".
Proof.
  unfold string_reverse. simpl. rewrite reverse_cons. generalize (reverse (String.list_ascii_of_string s)).
  intros l. induction l as [|d l IH]; [done|]. simpl. by rewrite IH.
Qed.

Lemma string_reverse_app s t : string_reverse (s +:+ t) = string_reverse t +:+ string_reverse s.
Proof. induction s as [|c s IH]; [by rw string_app_nil_r|]. by rw string_app_cons !string_reverse_cons IH string_app_assoc. Qed.
Lemma string_reverse_involutive s : string_reverse (string_reverse s) = s.
Proof. induction s as [|c s IH]; [done|]. by rw string_reverse_cons string_reverse_app IH. Qed.

(** ** [strconv] *)
Definition ErrSyntax : error := Plain "invalid syntax".
Definition ErrRange : error := Plain "value out of range".

(** Base ten, up to [bits] bits. *)
Definition ParseUint (s : string) (bits : Z) : outcome Z :=
  if decide (s = "") then Err ErrSyntax
  else match digits_value 0 s with
       | None => Err ErrSyntax
       | Some z => if z <? 2 ^ bits then Ok z else Err ErrRange
       end.
Definition ParseInt (s : string) (bits : Z) : outcome Z :=
  let '(neg, digits) :=
    match s with
    | String "+" s' => (false, s')
    | String "-" s' => (true, s')
    | _ => (false, s)
    end in
  if decide (digits = "") then Err ErrSyntax
  else match digits_value 0 digits with
       | None => Err ErrSyntax
       | Some z =>
           if (neg : bool) then if z <=? 2 ^ (bits - 1) then Ok (- z) else Err ErrRange
           else if z <? 2 ^ (bits - 1) then Ok z else Err ErrRange
       end.
Definition ParseBool (s : string) : outcome bool :=
  if bool_decide (s ∈ ["1"; "t"; "T"; "TRUE"; "true"; "True"]) then Ok true
  else if bool_decide (s ∈ ["0"; "f"; "F"; "FALSE"; "false"; "False"]) then Ok false
  else Err ErrSyntax.
Definition FormatUint (z : Z) : string := pretty (Z.to_N z).

Lemma digits_value_nonneg acc s z : 0 ≤ acc → digits_value acc s = Some z → 0 ≤ z.
Proof.
  revert acc. induction s as [|c s IH]; intros acc Ha; [by intros [= <-]|]. cbn [digits_value].
  pose proof (byte_val_range c) as Hc. destruct (_ && _) eqn:E; [|done]. apply andb_true_iff in E as [E%Z.leb_le _]. apply IH. lia.
Qed.
Lemma ParseUint_Format z bits : 0 ≤ z < 2 ^ bits → ParseUint (FormatUint z) bits = Ok z.
Proof.
  intros Hz. unfold ParseUint, FormatUint. rw decide_False; [|apply pretty_N_nonempty]. rw digits_value_pretty Z2N.id; [|lia].
  by rw (proj2 (Z.ltb_lt _ _)); [|lia].
Qed.
Lemma ParseUint_range s bits z : ParseUint s bits = Ok z → 0 ≤ z < 2 ^ bits.
Proof.
  unfold ParseUint. destruct (decide (s = "")); [done|]. destruct (digits_value 0 s) as [v|] eqn:E; [|done].
  destruct (Z.ltb_spec v (2 ^ bits)); [|done]. intros [= <-]. split; [by apply (digits_value_nonneg 0 s v)|done].
Qed.
Lemma ParseUint_no_panic s bits : ParseUint s bits ≠ Panic.
Proof. unfold ParseUint. destruct (decide _), (digits_value 0 s); try done. by destruct (_ <? _). Qed.
Lemma ParseInt_no_panic s bits : ParseInt s bits ≠ Panic.
Proof.
  unfold ParseInt. set (p := match s with EmptyString => _ | String _ _ => _ end). destruct p as [neg digits].
  destruct (decide _), (digits_value 0 digits); try done. by destruct neg; [destruct (_ <=? _)|destruct (_ <? _)].
Qed.
Lemma ParseInt_range s bits z : 0 < bits → ParseInt s bits = Ok z → - 2 ^ (bits - 1) ≤ z < 2 ^ (bits - 1).
Proof.
  intros Hb. unfold ParseInt. set (p := match s with EmptyString => _ | String _ _ => _ end). destruct p as [neg digits].
  destruct (decide (digits = "")); [done|]. destruct (digits_value 0 digits) as [v|] eqn:E; [|done].
  pose proof (digits_value_nonneg 0 digits v ltac:(done) E) as Hn. pose proof (Z.pow_pos_nonneg 2 (bits - 1) ltac:(done) ltac:(lia)) as Hp.
  destruct neg; [destruct (Z.leb_spec v (2 ^ (bits - 1)))|destruct (Z.ltb_spec v (2 ^ (bits - 1)))]; try done; intros [= <-]; lia.
Qed.
Lemma ParseBool_inv s b : ParseBool s = Ok b → s ∈ (if b then ["1"; "t"; "T"; "TRUE"; "true"; "True"] else ["0"; "f"; "F"; "FALSE"; "false"; "False"]).
Proof.
  unfold ParseBool. destruct (bool_decide (s ∈ _)) eqn:E1; [intros [= <-]; by apply bool_decide_eq_true in E1|].
  destruct (bool_decide (s ∈ ["0"; _; _; _; _; _])) eqn:E2; [intros [= <-]; by apply bool_decide_eq_true in E2|done].
Qed.

(** ** Little endian numbers, and [big.Int] *)

(** [binary.LittleEndian] numbers of [n] bytes. *)
Fixpoint le_bytes (n : nat) (z : Z) : string :=
  match n with O => "" | S k => String (byte_of z) (le_bytes k (z / 256)) end.
Fixpoint le_value (s : string) : Z :=
  match s with EmptyString => 0 | String c s' => byte_val c + 256 * le_value s' end.

(** [BitLen], [Bytes] of a number that is not negative: no leading zeros. *)
Definition big_BitLen (z : Z) : Z := if z =? 0 then 0 else Z.log2 z + 1.
Definition big_Bytes (z : Z) : string := be_bytes (Z.to_nat ((big_BitLen z + 7) / 8)) z.

Fixpoint zeros (n : nat) : string := match n with O => "" | S k => String zero (zeros k) end.

Lemma le_bytes_length n z : String.length (le_bytes n z) = n.
Proof. revert z. induction n as [|n IH]; intros z; [done|]. simpl. by rw IH. Qed.
Lemma le_value_bytes n z : 0 ≤ z < 256 ^ Z.of_nat n → le_value (le_bytes n z) = z.
Proof.
  revert z. induction n as [|n IH]; intros z Hz; [cbn in *; lia|]. rw pow256_S in Hz. cbn [le_bytes le_value]. rw byte_val_of IH.
  - pose proof (Z.div_mod z 256 ltac:(done)). lia.
  - split; [apply Z.div_pos; lia|]. apply Z.div_lt_upper_bound; lia.
Qed.
Lemma le_bytes_zero n : le_bytes n 0 = zeros n.
Proof. induction n as [|n IH]; [done|]. cbn [le_bytes zeros]. rw Z.div_0_l; [|done]. by rw IH. Qed.
Lemma le_bytes_snoc n z : le_bytes (S n) z = le_bytes n z +:+ String (byte_of (z / 256 ^ Z.of_nat n)) "".
Proof.
  revert z. induction n as [|n IH]; intros z; [cbn; by rw Z.div_1_r|]. remember (S n) as k eqn:Ek. cbn [le_bytes]. rw IH. rw {1}Ek. cbn [le_bytes].
  rw string_app_cons. f_equal. f_equal. rw Ek pow256_S Z.div_div; [done|done|]. apply pow256_pos.
Qed.
Lemma reverse_be_bytes n z : string_reverse (be_bytes n z) = le_bytes n z.
Proof. induction n as [|n IH]; [done|]. cbn [be_bytes]. by rw string_reverse_cons IH le_bytes_snoc. Qed.
Lemma le_bytes_pad n k z : 0 ≤ z < 256 ^ Z.of_nat n → le_bytes n z +:+ zeros k = le_bytes (n + k) z.
Proof.
  revert z. induction n as [|n IH]; intros z Hz.
  - assert (z = 0) as -> by (cbn in Hz; lia). change (zeros k = le_bytes k 0). by rw le_bytes_zero.
  - rw pow256_S in Hz. cbn [le_bytes Nat.add]. rw string_app_cons IH; [done|]. split; [apply Z.div_pos; lia|]. apply Z.div_lt_upper_bound; lia.
Qed.

Lemma big_BitLen_bound z n : 0 ≤ z → 0 ≤ n → big_BitLen z ≤ n ↔ z < 2 ^ n.
Proof.
  intros Hz Hn. unfold big_BitLen. destruct (Z.eqb_spec z 0) as [->|Hne].
  - split; [intros _; by apply Z.pow_pos_nonneg|lia].
  - rewrite (Z.log2_lt_pow2 z n); [lia|lia].
Qed.
(** The bytes of a number reversed and padded are its little endian bytes. *)
Lemma big_Bytes_le z n : 0 ≤ z < 256 ^ Z.of_nat n →
  string_reverse (big_Bytes z) +:+ zeros (n - String.length (big_Bytes z)) = le_bytes n z.
Proof.
  intros [Hz Hlt]. unfold big_Bytes. set (k := Z.to_nat ((big_BitLen z + 7) / 8)). rw length_be_bytes reverse_be_bytes.
  assert (0 ≤ big_BitLen z) as Hb by (unfold big_BitLen; destruct (_ =? _); [done|pose proof (Z.log2_nonneg z); lia]).
  assert (256 ^ Z.of_nat n = 2 ^ (8 * Z.of_nat n)) as E by (rw Z.pow_mul_r; [done|done|lia]).
  assert (256 ^ Z.of_nat k = 2 ^ (8 * Z.of_nat k)) as Ek by (rw Z.pow_mul_r; [done|done|lia]).
  assert (big_BitLen z ≤ 8 * Z.of_nat n) as Hn by (apply big_BitLen_bound; lia).
  assert (Z.of_nat k = (big_BitLen z + 7) / 8) as Ekz by (unfold k; rw Z2Nat.id; [done|apply Z.div_pos; lia]).
  pose proof (Z.div_mod (big_BitLen z + 7) 8 ltac:(done)) as Hdm. pose proof (Z.mod_pos_bound (big_BitLen z + 7) 8 ltac:(done)) as Hmb.
  assert ((k ≤ n)%nat) as Hkn by lia.
  rw le_bytes_pad; [by replace (k + (n - k))%nat with n by lia|]. split; [done|]. rw Ek. apply big_BitLen_bound; lia.
Qed.

Lemma reverse_zeros n : string_reverse (zeros n) = zeros n.
Proof.
  assert (∀ k, zeros k +:+ String zero "" = String zero (zeros k)) as Hs by (induction k as [|k IH]; [done|]; cbn [zeros]; by rw string_app_cons IH).
  induction n as [|n IH]; [done|]. cbn [zeros]. by rw string_reverse_cons IH Hs.
Qed.
Lemma big_Bytes_fits z : 0 ≤ z → z < 256 ^ Z.of_nat (String.length (big_Bytes z)).
Proof.
  intros Hz. unfold big_Bytes. rw length_be_bytes. set (k := Z.to_nat ((big_BitLen z + 7) / 8)).
  assert (0 ≤ big_BitLen z) as Hb by (unfold big_BitLen; destruct (_ =? _); [done|pose proof (Z.log2_nonneg z); lia]).
  assert (256 ^ Z.of_nat k = 2 ^ (8 * Z.of_nat k)) as -> by (rw Z.pow_mul_r; [done|done|lia]).
  assert (Z.of_nat k = (big_BitLen z + 7) / 8) as Ekz by (unfold k; rw Z2Nat.id; [done|apply Z.div_pos; lia]).
  pose proof (Z.div_mod (big_BitLen z + 7) 8 ltac:(done)) as Hdm. pose proof (Z.mod_pos_bound (big_BitLen z + 7) 8 ltac:(done)) as Hmb.
  apply big_BitLen_bound; lia.
Qed.
