(* ===== verification/SdkFacts.v ===== *)
(** * Consequences of the SDK laws

    Exact results of the rounding operations, and the shape of decimal keys,
    derived once from the laws of [Sdk]; what iterators return after a write. *)
From S2P Require Import Prelude Bytes Sdk.
Local Open Scope Z_scope.

Lemma Precision_gt_2 : 2 < Precision.
Proof. done. Qed.

Lemma pow10_pos n : 0 < 10 ^ n ∨ n < 0.
Proof. destruct (Z_lt_ge_dec n 0); [by right|left]. apply Z.pow_pos_nonneg; lia. Qed.

Lemma pow10_pos' n : 0 ≤ n → 0 < 10 ^ n.
Proof. intros. apply Z.pow_pos_nonneg; lia. Qed.

Lemma pow10_split n : 0 ≤ n ≤ 18 → 10 ^ n * 10 ^ (18 - n) = Precision.
Proof. intros. rw -Z.pow_add_r; [|lia..]. by rw Z.add_sub_assoc Z.add_simpl_l. Qed.

(** Two integers closer than one unit are equal. *)
Lemma near_eq P r q k : 0 < P → k < P → Z.abs (r - q) * P ≤ k → r = q.
Proof.
  intros HP Hk Hn. destruct (decide (r = q)); [done|].
  assert (1 ≤ Z.abs (r - q)) by lia. nia.
Qed.

Lemma scale_lt P x m : 0 < P → 2 * Z.abs x < m → 2 * Z.abs (x * P) < P * m.
Proof.
  intros HP Hx. rw Z.abs_mul (Z.abs_eq P); [|lia]. rw (Z.mul_comm P) Z.mul_assoc.
  by apply Z.mul_lt_mono_pos_r.
Qed.

(** A rounded multiple of the unit is that multiple. *)
Lemma near_multiple P r q : 2 < P → 2 * Z.abs (r * P - q * P) ≤ P → r = q.
Proof.
  intros HP Hn. rw -Z.mul_sub_distr_r Z.abs_mul (Z.abs_eq P) in Hn; [|lia].
  apply (near_eq P _ _ (P - 1)); lia.
Qed.

Section facts.
Context `{SdkTypesLaws}.

(** A quotient that is a multiple of the unit is computed exactly. *)
Lemma Dec_Quo_exact a b q :
  0 < b → a * Precision = q * b → 2 * Z.abs q < maxDec → Dec_Quo a b = Ok q.
Proof.
  intros Hb Hq Hm. pose proof Precision_gt_2 as HP.
  destruct (Dec_Quo_near a b) as (r & -> & Hr); [lia| |].
  { rw -Z.mul_assoc -{1}(Z.abs_eq Precision); [|lia]. rw -Z.abs_mul Hq Z.abs_mul. nia. }
  f_equal. rw Hq in Hr. rw -Z.mul_sub_distr_r Z.abs_mul (Z.abs_eq b) in Hr; [|lia].
  assert (2 * Precision * Z.abs (r - q) ≤ Precision + 2).
  { apply (Z.mul_le_mono_pos_r _ _ b); lia. }
  apply (near_eq Precision _ _ (Precision - 1)); lia.
Qed.

(** In general a quotient is off by less than one unit. *)
Lemma Dec_Quo_close a b :
  0 < b → 2 * Z.abs a * Precision < maxDec * b →
  ∃ r, Dec_Quo a b = Ok r ∧ Z.abs (r * b - a * Precision) < b.
Proof.
  intros Hb Hm. pose proof Precision_gt_2 as HP.
  destruct (Dec_Quo_near a b) as (r & Hr & Hn); [lia|by rw (Z.abs_eq b); lia|].
  exists r. split; [done|]. rw (Z.abs_eq b) in Hn; [|lia].
  apply (Z.mul_lt_mono_pos_l (2 * Precision)); nia.
Qed.

Lemma Dec_Mul_exact a b q :
  a * b = q * Precision → 2 * Z.abs q < maxDec → Dec_Mul a b = Ok q.
Proof.
  intros Hq Hm. destruct (Dec_Mul_near a b) as (r & -> & Hr).
  { rw Hq. by apply scale_lt. }
  f_equal. rw Hq in Hr. by apply (near_multiple Precision).
Qed.

Lemma Dec_RoundInt_exact n :
  2 * Z.abs n < maxInt → Dec_RoundInt (n * Precision) = Ok n.
Proof.
  intros Hm. destruct (Dec_RoundInt_near (n * Precision)) as (r & -> & Hr).
  { by apply scale_lt. }
  f_equal. by apply (near_multiple Precision).
Qed.

Lemma Dec_TruncateInt_nonneg a :
  0 ≤ a < Precision * maxInt → Dec_TruncateInt a = Ok (a / Precision).
Proof. intros Ha. rw Dec_TruncateInt_ok; [|lia]. f_equal. apply Z.quot_div_nonneg; [lia|done]. Qed.

Lemma Dec_Ceil_multiple n : Dec_Ceil (n * Precision) = n * Precision.
Proof.
  destruct (Dec_Ceil_spec (n * Precision)) as [[m ->] Hb]. pose proof Precision_gt_2.
  assert (n = m) as ->; [|done].
  assert (n ≤ m) by (apply (Z.mul_le_mono_pos_r _ _ Precision); lia).
  assert (m < n + 1) by (apply (Z.mul_lt_mono_pos_r Precision); lia). lia.
Qed.

(** Store keys built from decimal strings. *)
Lemma Uint_String_inj a b : 0 ≤ a → 0 ≤ b → Uint_String a = Uint_String b → a = b.
Proof. intros Ha Hb. rw !Uint_String_decimal; [|done..]. intros E%(inj pretty). lia. Qed.
End facts.

(** A decimal string contains digits only. *)
Lemma lacks_pretty_go c (x : N) s :
  (∀ n, (n < 10)%N → pretty_N_char n ≠ c) → lacks c s = true → lacks c (pretty_N_go x s) = true.
Proof.
  intros Hc. revert s. induction (N.lt_wf_0 x) as [x _ IH]; intros s Hs.
  destruct (decide (x = 0)%N) as [->|Hx]; [by rw pretty_N_go_0|].
  rw pretty_N_go_step; [|lia]. apply IH; [apply N.div_lt; lia|]. simpl. rw Hs andb_true_r.
  apply negb_true_iff, Ascii.eqb_neq, Hc, N.mod_upper_bound. lia.
Qed.

Lemma pretty_char_not_colon n : (n < 10)%N → pretty_N_char n ≠ ":"%char.
Proof.
  intros H. destruct n as [|p]; [done|]. do 4 (destruct p as [p|p|]; try done; try lia).
Qed.

Lemma lacks_pretty (x : N) : lacks ":"%char (pretty x) = true.
Proof.
  unfold pretty, pretty_N. case_decide; [done|].
  apply lacks_pretty_go; [apply pretty_char_not_colon|done].
Qed.

(** ** What iterators over a store return

    Consequences of the store laws: an iterator is determined by what the store
    holds in its range, and a write or a delete changes it by exactly one entry.
    [at_prefix] is the list of entries under a prefix. *)
Local Open Scope Z_scope.

(** Two strictly sorted lists with the same elements are the same list. *)
Lemma sorted_ext {A} (R : A → A → Prop) (l1 l2 : list A) :
  (∀ x, ¬ R x x) → Transitive R →
  StronglySorted R l1 → StronglySorted R l2 → (∀ x, x ∈ l1 ↔ x ∈ l2) → l1 = l2.
Proof.
  intros Hirr Htr H1. revert l2.
  induction H1 as [|x l1 H1 IH Hx]; intros [|y l2] H2 Hel; [done|..].
  - by assert (y ∈ []) as []%elem_of_nil by (apply Hel; left).
  - by assert (x ∈ []) as []%elem_of_nil by (apply Hel; left).
  - apply StronglySorted_inv in H2 as [H2 Hy]. rw Forall_forall in Hx. rw Forall_forall in Hy.
    assert (x = y) as <-.
    { assert (x ∈ y :: l2) as [|Hxl]%elem_of_cons by (apply Hel; left); [done|].
      assert (y ∈ x :: l1) as [|Hyl]%elem_of_cons by (apply Hel; left); [done|].
      exfalso. apply (Hirr x). trans y; auto. }
    f_equal. apply IH; [done|]. intros z. specialize (Hel z). rw !elem_of_cons in Hel.
    assert (z ∈ l1 → z ≠ x) by (intros Hz ->; by apply (Hirr x), Hx).
    assert (z ∈ l2 → z ≠ x) by (intros Hz ->; by apply (Hirr x), Hy).
    naive_solver.
Qed.

Section store.
Context `{KVStoreLaws}.
Implicit Types (s : store) (k v p : string).

Notation at_prefix := KVStorePrefixIterator.

(** Reading a key just written, and another one. *)
Lemma store_Get_Set_eq s k v : store_Get (store_Set s k v) k = Some v.
Proof. rw store_Get_Set. by case_decide. Qed.
Lemma store_Get_Set_ne s k k' v : k ≠ k' → store_Get (store_Set s k v) k' = store_Get s k'.
Proof. intros Hne. rw store_Get_Set. by case_decide. Qed.
Lemma store_Get_Delete_eq s k : store_Get (store_Delete s k) k = None.
Proof. rw store_Get_Delete. by case_decide. Qed.
Lemma store_Get_Delete_ne s k k' : k ≠ k' → store_Get (store_Delete s k) k' = store_Get s k'.
Proof. intros Hne. rw store_Get_Delete. by case_decide. Qed.

Lemma at_prefix_elem s p k v :
  p ≠ ""%string → (k, v) ∈ at_prefix s p ↔ store_Get s k = Some v ∧ has_prefix p k.
Proof. intros Hp. unfold KVStorePrefixIterator. by rw store_Iterator_elem PrefixEndBytes_spec. Qed.

Lemma iterator_NoDup s start stop : NoDup (store_Iterator s start stop).
Proof.
  pose proof (store_Iterator_sorted s start stop) as Hs. induction Hs as [|x l _ IH Hx]; constructor; [|done].
  intros Hin. rw Forall_forall in Hx. by apply (bytes_lt_irrefl x.1), Hx.
Qed.

Lemma iterator_NoDup_keys s start stop : NoDup (store_Iterator s start stop).*1.
Proof.
  pose proof (store_Iterator_sorted s start stop) as Hs. induction Hs as [|x l _ IH Hx]; [constructor|].
  rw fmap_cons. constructor; [|done]. intros (y & E & Hy)%list_elem_of_fmap. rewrite Forall_forall in Hx.
  specialize (Hx y Hy). rw E in Hx. by apply bytes_lt_irrefl in Hx.
Qed.

Lemma at_prefix_ext s1 s2 p :
  p ≠ ""%string → (∀ k, has_prefix p k → store_Get s1 k = store_Get s2 k) → at_prefix s1 p = at_prefix s2 p.
Proof.
  intros Hp Hext. eapply sorted_ext with (R := λ a b, bytes_lt a.1 b.1).
  - intros x. apply bytes_lt_irrefl.
  - intros x y z. apply bytes_lt_trans.
  - apply store_Iterator_sorted.
  - apply store_Iterator_sorted.
  - intros [k v]. rw !at_prefix_elem; [|done..]. split; intros [Hg Hk]; split; try done.
    + by rw -Hext.
    + by rw Hext.
Qed.

(** Writes elsewhere do not show. *)
Lemma at_prefix_Set_other s p k v :
  p ≠ ""%string → ¬ has_prefix p k → at_prefix (store_Set s k v) p = at_prefix s p.
Proof.
  intros Hp Hk. apply at_prefix_ext; [done|]. intros k' Hk'. rw store_Get_Set.
  case_decide; [by subst|done].
Qed.

(** The entries under the prefix, other than [k]'s. *)
Definition others s p k : list (string * string) := filter (λ kv, kv.1 ≠ k) (at_prefix s p).

Lemma others_elem s p k k' v :
  p ≠ ""%string → (k', v) ∈ others s p k ↔ k' ≠ k ∧ store_Get s k' = Some v ∧ has_prefix p k'.
Proof. intros Hp. unfold others. rewrite list_elem_of_filter. by rw at_prefix_elem. Qed.

Lemma others_NoDup s p k : NoDup (others s p k).
Proof. apply NoDup_filter, iterator_NoDup. Qed.

Lemma at_prefix_split s p k v :
  p ≠ ""%string → store_Get s k = Some v → has_prefix p k → at_prefix s p ≡ₚ (k, v) :: others s p k.
Proof.
  intros Hp Hg Hk. apply NoDup_Permutation.
  - apply iterator_NoDup.
  - constructor; [|apply others_NoDup]. rw others_elem; [|done]. naive_solver.
  - intros [k' v']. rw elem_of_cons at_prefix_elem; [|done]. rw others_elem; [|done].
    destruct (decide (k' = k)); naive_solver.
Qed.

Lemma others_none s p k :
  p ≠ ""%string → store_Get s k = None → others s p k = at_prefix s p.
Proof.
  intros Hp Hg. apply filter_all. intros [k' v'] [Hg' _]%at_prefix_elem; [|done].
  simpl. intros ->. by rw Hg in Hg'.
Qed.

(** A write under the prefix: one entry is added or replaced. *)
Lemma at_prefix_Set s p k v :
  p ≠ ""%string → has_prefix p k → at_prefix (store_Set s k v) p ≡ₚ (k, v) :: others s p k.
Proof.
  intros Hp Hk. rw (at_prefix_split _ p k v); [|done|by rw store_Get_Set decide_True|done].
  constructor. apply NoDup_Permutation; [apply others_NoDup..|]. intros [k' v'].
  rw !others_elem; [|done..]. rw store_Get_Set. case_decide; naive_solver.
Qed.

(** A delete removes the key's entry. *)
Lemma at_prefix_Delete s p k :
  p ≠ ""%string → at_prefix (store_Delete s k) p = others s p k.
Proof.
  intros Hp. eapply sorted_ext with (R := λ a b, bytes_lt a.1 b.1).
  - intros x. apply bytes_lt_irrefl.
  - intros x y z. apply bytes_lt_trans.
  - apply store_Iterator_sorted.
  - apply sorted_filter, store_Iterator_sorted.
  - intros [k' v']. rw at_prefix_elem; [|done]. rw others_elem; [|done].
    rw store_Get_Delete. case_decide; naive_solver.
Qed.
(** Writing or deleting one entry per element of a list. *)
Section lists.
Context {A : Type} (key val : A → string).

Definition store_Set_list s (l : list A) : store := foldl (λ s x, store_Set s (key x) (val x)) s l.
Definition store_Delete_list s (l : list A) : store := foldl (λ s x, store_Delete s (key x)) s l.

Lemma store_Set_list_other s l k : k ∉ key <$> l → store_Get (store_Set_list s l) k = store_Get s k.
Proof.
  revert s. induction l as [|x l IH]; intros s Hk; [done|]. rw fmap_cons in Hk.
  apply not_elem_of_cons in Hk as [Hne Hk]. simpl. rw IH; [|done]. rw store_Get_Set. by case_decide.
Qed.

Lemma store_Set_list_in s l x : NoDup (key <$> l) → x ∈ l → store_Get (store_Set_list s l) (key x) = Some (val x).
Proof.
  revert s. induction l as [|y l IH]; intros s Hnd Hx; [by apply elem_of_nil in Hx|].
  rw fmap_cons in Hnd. apply NoDup_cons in Hnd as [Hnin Hnd]. apply elem_of_cons in Hx as [->|Hx]; [|by apply IH].
  simpl. rw store_Set_list_other; [|done]. rw store_Get_Set. by case_decide.
Qed.

Lemma store_Set_list_inv s l k v : NoDup (key <$> l) → store_Get (store_Set_list s l) k = Some v →
  (∃ x, x ∈ l ∧ k = key x ∧ v = val x) ∨ k ∉ key <$> l ∧ store_Get s k = Some v.
Proof.
  intros Hnd Hg. destruct (decide (k ∈ key <$> l)) as [(x & -> & Hx)%list_elem_of_fmap|Hk].
  - left. exists x. rw store_Set_list_in in Hg; [|done..]. by injection Hg as ->.
  - right. by rw store_Set_list_other in Hg.
Qed.

Lemma store_Get_Delete_list s l k :
  store_Get (store_Delete_list s l) k = if decide (k ∈ key <$> l) then None else store_Get s k.
Proof.
  revert s. induction l as [|x l IH]; intros s; [done|].
  change (store_Get (store_Delete_list (store_Delete s (key x)) l) k =
    if decide (k ∈ key x :: (key <$> l)) then None else store_Get s k). rw IH store_Get_Delete.
  repeat case_decide; try done; exfalso.
  - match goal with Hn : k ∉ _ :: _ |- _ => apply Hn end. by right.
  - subst. match goal with Hn : _ ∉ _ :: _ |- _ => apply Hn end. by left.
  - match goal with Hn : k ∈ _ :: _ |- _ => apply elem_of_cons in Hn as [->|?] end; done.
Qed.
End lists.
End store.
