(* ===== verification/DnTypes.v ===== *)
(** * Common types and helpers ([helpers/types], [helpers])

    IDs, asset codes and their string filters, slice pagination, Ethereum address
    checks.  Error values keep the constant part of the Go message. *)
From S2P Require Import Prelude Bytes Sdk SdkRef.
Local Open Scope string_scope.
Local Open Scope Z_scope.

(** ** [helpers/types/id.go]

    An [ID] is an [sdk.Uint].  The nil ID (the zero value [sdk.Uint{}]) is not a
    number: it is represented, where a nil can reach the code, by [None]. *)
Notation ID := Z (only parsing).

Section id.
Context `{SdkTypes}.

Definition ID_Valid (id : option ID) : outcome unit :=
  match id with Some _ => Ok tt | None => Err (Plain "nil") end.
Definition ID_Equal (a b : ID) : bool := a =? b.
Definition ID_LT (a b : ID) : bool := a <? b.
Definition ID_GT (a b : ID) : bool := b <? a.
Definition ID_LTE (a b : ID) : bool := a <=? b.
Definition ID_GTE (a b : ID) : bool := b <=? a.
Definition ID_Decr (a : ID) : outcome ID := Uint_Sub a 1.
Definition ID_Incr (a : ID) : outcome ID := Uint_Add a 1.
Definition ID_UInt64 (a : ID) : outcome Z := Uint_Uint64 a.
Definition ID_String (a : ID) : string := Uint_String a.
Definition NewZeroID : ID := 0.
Definition NewIDFromUint64 (n : Z) : ID := n.

(** The deferred recover turns the parser's panic into an error. *)
Definition NewIDFromString (str : string) : outcome ID :=
  if decide (str = "") then Err (Plain "empty")
  else match NewUintFromString str with
       | Panic => Err (Plain "cannot be converted to big.Int")
       | r => r
       end.
End id.

(** ** [helpers/types/str_filters.go] *)

Definition AssetCodeDelimiter : ascii := "_".

Definition stringNotEmpty (str : string) : outcome unit :=
  fail_if (bool_decide (str = "")) (Plain "empty").

Definition validCoinDenom `{SdkTypes} (str : string) : outcome unit :=
  fail_if (negb (ValidateDenom str)) (Plain "invalid denom").

(** [strings.HasPrefix] and [strings.HasSuffix] for a one-byte delimiter. *)
Definition starts_with (c : ascii) (s : string) : bool :=
  match s with String d _ => Ascii.eqb d c | EmptyString => false end.
Fixpoint ends_with (c : ascii) (s : string) : bool :=
  match s with
  | EmptyString => false
  | String d EmptyString => Ascii.eqb d c
  | String _ s' => ends_with c s'
  end.

Definition newDelimiterStrFilterOpt (delimiter : ascii) (str : string) : outcome unit :=
  if starts_with delimiter str then Err (Plain "delimiter: is a prefix")
  else if ends_with delimiter str then Err (Plain "delimiter: is a suffix")
  else let n := count_byte delimiter str in
    if (n =? 0)%nat then Err (Plain "delimiter: not found")
    else if (1 <? n)%nat then Err (Plain "delimiter: multiple")
    else Ok tt.

(** Rune filters.  [range str] yields the bytes of an ASCII string; a byte above
    127 starts (or breaks) a multi-byte rune, which is not ASCII either way. *)
Definition runeIsASCII (r : ascii) : outcome unit :=
  fail_if (127 <? byte_val r) (Plain "non ASCII symbol").

Definition is_lower (r : ascii) : bool := (97 <=? byte_val r) && (byte_val r <=? 122).
Definition is_letter (r : ascii) : bool :=
  is_lower r || ((65 <=? byte_val r) && (byte_val r <=? 90)).

Definition runeIsLowerCasedLetter (r : ascii) : outcome unit :=
  fail_if (negb (is_letter r) || negb (is_lower r)) (Plain "non lower cased letter symbol").

Definition newIsLowerCasedLetterOrDelimiter (delimiter : ascii) (r : ascii) : outcome unit :=
  if Ascii.eqb r delimiter then Ok tt else runeIsLowerCasedLetter r.

Definition run_opts {A} (opts : list (A → outcome unit)) (a : A) : outcome unit :=
  foldM (λ _ opt, opt a) tt opts.

Fixpoint filter_runes (runeOpts : list (ascii → outcome unit)) (str : string) : outcome unit :=
  match str with
  | EmptyString => Ok tt
  | String r str' => run_opts runeOpts r ≫= λ _, filter_runes runeOpts str'
  end.

Definition stringFilter (str : string) (strOpts : list (string → outcome unit))
    (runeOpts : list (ascii → outcome unit)) : outcome unit :=
  run_opts strOpts str ≫= λ _, filter_runes runeOpts str.

Definition DenomFilter `{SdkTypes} (denom : string) : outcome unit :=
  stringFilter denom [stringNotEmpty; validCoinDenom] [runeIsASCII; runeIsLowerCasedLetter].

Definition AssetCodeFilter (code : string) : outcome unit :=
  stringFilter code [stringNotEmpty; newDelimiterStrFilterOpt AssetCodeDelimiter]
    [runeIsASCII; newIsLowerCasedLetterOrDelimiter AssetCodeDelimiter].

(** ** [helpers/types/asset_code.go] *)

Definition AssetCode_Validate (a : string) : outcome unit := AssetCodeFilter a.

Definition AssetCode_ReverseCode (a : string) : outcome string :=
  match Split AssetCodeDelimiter a with
  | [p0; p1] => Ok (p1 +:+ "_" +:+ p0)
  | _ => Panic
  end.

(** ** [helpers/eth.go] *)

Definition EthAddressLength : nat := 20.

Definition isHex (s : string) : bool :=
  match hex_DecodeString s with Ok _ => true | _ => false end.

Definition IsEthereumAddress (address : string) : bool :=
  match address with
  | String _ (String _ s) => (String.length s =? 2 * EthAddressLength)%nat && isHex s
  | _ => false
  end.

(** ** [helpers/input_parsers.go]: [PaginateSlice]

    [uint64] arithmetic wraps around. *)
Definition wrap64 (z : Z) : Z := z mod 2 ^ 64.

(** [int64] conversion. *)
Definition int64 (z : Z) : Z := (z + 2 ^ 63) mod 2 ^ 64 - 2 ^ 63.

(** ** Package [time]: a time is nanoseconds since the Unix epoch, a duration an
    [int64] of nanoseconds.  [Sub] saturates, [Unix()] rounds down to seconds; the
    zero [time.Time] is January 1, year 1. *)
Definition Time_Sub (t u : Z) : Z := Z.max (- 2 ^ 63) (Z.min (2 ^ 63 - 1) (t - u)).
Definition Unix (t : Z) : Z := t / 10 ^ 9.
Definition zero_time : Z := -62135596800 * 10 ^ 9.

Definition PaginateSlice `{SdkTypes} (sliceLen : Z) (page limit : Uint) : outcome (Z * Z) :=
  if sliceLen <? 0 then Err (Plain "sliceLen: LT zero")
  else if page =? 0 then Err (Plain "page: is zero")
  else if limit =? 0 then Err (Plain "limit: is zero")
  else if sliceLen =? 0 then Ok (0, 0)
  else
    page64 ← Uint_Uint64 page; limit64 ← Uint_Uint64 limit;
    let start := wrap64 (wrap64 (page64 - 1) * limit64) in
    let stop := wrap64 (limit64 + start) in
    if sliceLen <=? start then Ok (0, 0)
    else if sliceLen <=? stop then Ok (start, sliceLen)
    else Ok (start, stop).

(** [s[start:end]]: panics unless [start <= end <= len(s)]. *)
Definition slice {A} (l : list A) (start stop : Z) : outcome (list A) :=
  if (0 <=? start) && (start <=? stop) && (stop <=? Z.of_nat (length l))
  then Ok (take (Z.to_nat (stop - start)) (drop (Z.to_nat start) l))
  else Panic.
