(* ===== verification/Perms.v ===== *)
(** * Module permissions ([helpers/perms], [helpers/caller.go])

    Every keeper method starts with [AutoCheck]: it looks at the Go call stack to
    find the module of its caller and panics unless that module is the keeper's
    own or was granted the permission when the keeper was built. *)
From S2P Require Import Prelude Bytes.
Local Open Scope string_scope.
Local Open Scope Z_scope.

(** [map[Permission]bool] only ever stores [true]: it is a set. *)
Record ModulePermissions := MkModulePermissions {
  mp_name : string;
  mp_perms : list string;
  mp_modsPerms : gmap string (gset string);
}.

Notation RequestModulePermissions := (string * list string)%type (only parsing).

Definition NewModulePermissions (targetModuleName : string) (targetPerms : list string) : ModulePermissions :=
  MkModulePermissions targetModuleName targetPerms ∅.

Fixpoint add_perms (allowed : list string) (perms : list string) (acc : gset string) : outcome (gset string) :=
  match perms with
  | [] => Ok acc
  | perm :: perms' =>
      if bool_decide (perm ∈ allowed) then add_perms allowed perms' ({[perm]} ∪ acc)
      else Err (Plain "permission: not allowed by target module")
  end.

Definition AddModulePermission (m : ModulePermissions) (requester : RequestModulePermissions)
    : outcome ModulePermissions :=
  let (moduleName, modulePerms) := requester in
  if bool_decide (moduleName = "") then Err (Plain "requester moduleName: empty")
  else if (length modulePerms =? 0)%nat then Err (Plain "requester modulePerms: empty")
  else
    modPermsMap ← add_perms (mp_perms m) modulePerms ∅;
    Ok (MkModulePermissions (mp_name m) (mp_perms m) (<[moduleName := modPermsMap]> (mp_modsPerms m))).

Definition AutoAddRequester (m : ModulePermissions) (requester : RequestModulePermissions)
    : outcome ModulePermissions :=
  match AddModulePermission m requester with
  | Ok m' => Ok m'
  | _ => Panic
  end.

Definition Check (m : ModulePermissions) (moduleName expectedPerm : string) : outcome unit :=
  match mp_modsPerms m !! moduleName with
  | None => Err (Plain "module is not supported")
  | Some modPermsMap =>
      if bool_decide (expectedPerm ∈ modPermsMap) then Ok tt
      else Err (Plain "permission is not allowed")
  end.

(** [caller] and [requester] are the modules [helpers.Caller] finds on the stack. *)
Definition AutoCheck (m : ModulePermissions) (requester caller expectedPerm : string) : outcome unit :=
  if bool_decide (caller = requester) then Ok tt
  else match Check m caller expectedPerm with
       | Ok _ => Ok tt
       | _ => Panic
       end.

(** ** [helpers.Caller]: the module of a stack frame's function name *)

Definition fixDotNotation (moduleName : string) : string :=
  match Split "." moduleName with
  | w :: _ => w
  | [] => ""
  end.

Fixpoint find_module (items : list string) : option string :=
  match items with
  | item :: ((next :: _) as rest) =>
      if bool_decide (item = "x") then Some (fixDotNotation next) else find_module rest
  | _ => None
  end.

Definition getModuleID (value : string) : string :=
  let items := Split "/" value in
  match find_module items with
  | Some m => m
  | None =>
      if (1 <? length items)%nat then fixDotNotation (List.last items "") else "unknownModule"
  end.

Definition getFuncID (value : string) : string :=
  let items := Split "." value in
  if (0 <? length items)%nat then List.last items "" else "unknownFunc".

(** ** Theorems *)

(** Every granted permission is one the target module declares. *)
Definition perms_wf (m : ModulePermissions) : Prop :=
  ∀ name s p, mp_modsPerms m !! name = Some s → p ∈ s → p ∈ mp_perms m.

Lemma add_perms_Ok allowed perms acc s :
  add_perms allowed perms acc = Ok s →
  s = list_to_set perms ∪ acc ∧ ∀ p, p ∈ perms → p ∈ allowed.
Proof.
  revert acc. induction perms as [|p perms IH]; intros acc H; simpl in H.
  { ok_inv. split; [set_solver|]. intros p Hp. by apply not_elem_of_nil in Hp. }
  case_bool_decide; [|done]. destruct (IH _ H) as [-> Hall]. split; [set_solver|].
  intros q [->|Hq]%elem_of_cons; auto.
Qed.

Lemma AddModulePermission_inv m name perms m' :
  AddModulePermission m (name, perms) = Ok m' →
  name ≠ "" ∧ perms ≠ [] ∧ (∀ p, p ∈ perms → p ∈ mp_perms m) ∧
  m' = MkModulePermissions (mp_name m) (mp_perms m) (<[name := list_to_set perms]> (mp_modsPerms m)).
Proof.
  unfold AddModulePermission. case_bool_decide; [done|].
  destruct (Nat.eqb_spec (length perms) 0) as [|Hlen]; [done|]. intros H'. ok_inv.
  apply add_perms_Ok in Hrun as [-> Hall]. repeat split; auto; [by intros ->|].
  do 2 f_equal. set_solver.
Qed.

Lemma Check_insert n ps mods name s x p :
  Check (MkModulePermissions n ps (<[name := s]> mods)) x p =
  if decide (x = name) then
    (if bool_decide (p ∈ s) then Ok tt else Err (Plain "permission is not allowed"))
  else Check (MkModulePermissions n ps mods) x p.
Proof.
  unfold Check; simpl. rw lookup_insert. repeat case_decide; naive_solver.
Qed.

(** A registered requester gets exactly the permissions it asked for (a second
    registration of the same module replaces the first), other modules keep
    theirs, and only declared permissions are ever granted. *)
Theorem AddModulePermission_grants m name perms m' :
  perms_wf m → AddModulePermission m (name, perms) = Ok m' →
  perms_wf m' ∧ mp_name m' = mp_name m ∧
  (∀ p, Check m' name p = Ok tt ↔ p ∈ perms) ∧
  (∀ other p, other ≠ name → Check m' other p = Check m other p).
Proof.
  intros Hwf (_ & _ & Hall & ->)%AddModulePermission_inv. repeat split.
  - intros x s p. simpl. rw lookup_insert. case_decide; [|apply Hwf].
    intros [= <-] Hp%elem_of_list_to_set. auto.
  - rw Check_insert decide_True; [|done]. case_bool_decide as Hp; [|done]. set_solver.
  - intros Hp. rw Check_insert decide_True; [|done]. rw bool_decide_true; [done|set_solver].
  - intros other p Hne. rw Check_insert decide_False; [|done]. by destruct m.
Qed.
