(* ===== verification/Chain.v ===== *)
(** * The context of a handler, and the monad keepers run in

    [sdk.Context] gives a keeper its module's store, the block header, the event
    manager and, through the bank and supply keepers, the account balances.  A
    keeper operation is a function of the calling module and the context, that
    returns an outcome and the new context.  As in Go, an error does not undo the
    writes made before it. *)
From S2P Require Import Prelude Bytes Sdk Perms.

(** [sdk.Event]. *)
Record Event := MkEvent { ev_Type : string; ev_Attributes : list (string * string) }.

#[export] Instance event_eq_dec : EqDecision Event.
Proof. solve_decision. Defined.

(** [sdkErrors.ErrUnknownRequest]. *)
Definition ErrUnknownRequest : error := Registered "sdk" 6.

(** [sdkErrors.ErrInvalidAddress]. *)
Definition ErrInvalidAddress : error := Registered "sdk" 7.

(** [x/core/errors.go]. *)
Definition ErrFeeRequired : error := Registered "core" 101.
Definition ErrWrongFeeDenom : error := Registered "core" 102.
Definition ErrOnlyMultisigMsgs : error := Registered "core" 200.

(** [sdk.Result]: what a message handler returns. *)
Record Result := MkResult { res_Data : string; res_Events : list Event }.

(** [dnTypes.NewModuleNameEvent]. *)
Definition NewModuleNameEvent (name : string) : Event := MkEvent "message" [("module", name)]%string.

Section chain.
Context `{KV : KVStore} `{LG : Ledger}.

(** Time is nanoseconds since the Unix epoch. *)
Record Ctx := MkCtx {
  ctx_stores : string → store;
  ctx_bank : ledger;
  ctx_events : list Event;
  ctx_height : Z;
  ctx_time : Z;
}.

Definition M (A : Type) : Type := string → Ctx → outcome A * Ctx.

#[global] Instance M_ret : MRet M := λ A a caller c, (Ok a, c).
#[global] Instance M_bind : MBind M := λ A B f m caller c,
  match m caller c with
  | (Ok a, c') => f a caller c'
  | (Err e, c') => (Err e, c')
  | (Panic, c') => (Panic, c')
  end.

Definition lift {A} (o : outcome A) : M A := λ _ c, (o, c).
Definition throw {A} (e : error) : M A := lift (Err e).
Definition panic {A} : M A := lift Panic.

(** [if err := m(); err != nil]: the error becomes a value. *)
Definition attempt {A} (m : M A) : M (outcome A) := λ caller c,
  match m caller c with
  | (Panic, c') => (Panic, c')
  | (o, c') => (Ok o, c')
  end.

(** The context. *)
Definition BlockHeight : M Z := λ _ c, (Ok (ctx_height c), c).
Definition BlockTime : M Z := λ _ c, (Ok (ctx_time c), c).
Definition Events : M (list Event) := λ _ c, (Ok (ctx_events c), c).
Definition EmitEvent (e : Event) : M unit := λ _ c,
  (Ok tt, MkCtx (ctx_stores c) (ctx_bank c) (ctx_events c ++ [e]) (ctx_height c) (ctx_time c)).

Definition set_store (c : Ctx) (key : string) (s : store) : Ctx :=
  MkCtx (λ k, if decide (k = key) then s else ctx_stores c k)
    (ctx_bank c) (ctx_events c) (ctx_height c) (ctx_time c).
Definition set_bank (c : Ctx) (l : ledger) : Ctx :=
  MkCtx (ctx_stores c) l (ctx_events c) (ctx_height c) (ctx_time c).

(** [ctx.KVStore(storeKey)] and the operations on it. *)
Definition kv_Get (key k : string) : M (option string) := λ _ c,
  (Ok (store_Get (ctx_stores c key) k), c).
Definition kv_Has (key k : string) : M bool := λ _ c, (Ok (store_Has (ctx_stores c key) k), c).
Definition kv_Set (key k v : string) : M unit := λ _ c,
  (Ok tt, set_store c key (store_Set (ctx_stores c key) k v)).
Definition kv_Delete (key k : string) : M unit := λ _ c,
  (Ok tt, set_store c key (store_Delete (ctx_stores c key) k)).
(** Iterators are read over the store as it is when they are created. *)
Definition kv_Iterator (key start : string) (stop : option string) : M (list (string * string)) :=
  λ _ c, (Ok (store_Iterator (ctx_stores c key) start stop), c).
Definition kv_PrefixIterator (key prefix : string) : M (list (string * string)) :=
  kv_Iterator key prefix (PrefixEndBytes prefix).

(** A call of the bank or supply keeper. *)
Definition bank_call (f : ledger → outcome ledger) : M unit := λ _ c,
  match f (ctx_bank c) with
  | Ok l => (Ok tt, set_bank c l)
  | Err e => (Err e, c)
  | Panic => (Panic, c)
  end.

(** [cdc.MustUnmarshal...]: panics on bytes that do not decode. *)
Definition MustUnmarshal {A} `{Codec A} (e : encoding) (bz : string) : M A :=
  match Unmarshal e bz with Some a => mret a | None => panic end.

(** [params.Subspace]: the parameters of a module are JSON values in a store of
    their own; reading one that was never written panics. *)
Definition params_store (space : string) : string := ("params/" +:+ space)%string.
Definition param_Get {A} `{Codec A} (space key : string) : M A :=
  kv_Get (params_store space) key ≫= λ bz, match bz with Some bz => MustUnmarshal JSON bz | None => panic end.
Definition param_Set {A} `{Codec A} (space key : string) (a : A) : M unit :=
  kv_Set (params_store space) key (Marshal JSON a).

(** The body of a keeper's method: the permission check, then the body run as
    the keeper's module. *)
Definition keeper_method (mp : ModulePermissions) (perm : string) {A} (body : M A) : M A :=
  λ caller c,
    match AutoCheck mp (mp_name mp) caller perm with
    | Ok _ => body (mp_name mp) c
    | _ => (Panic, c)
    end.

(** Code of module [m] running: handlers and end blockers. *)
Definition in_module (m : string) {A} (body : M A) : M A := λ _ c, body m c.

(** [ctx.CacheContext()]: run [m] on a copy of the state with a fresh event
    manager; [write] commits the copy.  The block header is shared. *)
Definition cached {A} (m : M A) : M (outcome A * Ctx) := λ caller c,
  match m caller (MkCtx (ctx_stores c) (ctx_bank c) [] (ctx_height c) (ctx_time c)) with
  | (Panic, c') => (Panic, c)
  | (o, c') => (Ok (o, c'), c)
  end.
Definition writeCache (cached_ctx : Ctx) : M unit := λ _ c,
  (Ok tt, MkCtx (ctx_stores cached_ctx) (ctx_bank cached_ctx) (ctx_events c) (ctx_height c) (ctx_time c)).
Definition EmitEvents (es : list Event) : M unit := λ _ c,
  (Ok tt, MkCtx (ctx_stores c) (ctx_bank c) (ctx_events c ++ es) (ctx_height c) (ctx_time c)).

(** [ctx.WithEventManager(sdk.NewEventManager())]: [m] emits into its own list. *)
Definition set_events (c : Ctx) (es : list Event) : Ctx :=
  MkCtx (ctx_stores c) (ctx_bank c) es (ctx_height c) (ctx_time c).
Definition WithEventManager {A} (m : M A) : M A := λ caller c,
  let r := m caller (set_events c []) in (r.1, set_events r.2 (ctx_events c)).

(** Loops over a slice. *)
Fixpoint forM {A} (l : list A) (f : A → M unit) : M unit :=
  match l with
  | [] => mret tt
  | x :: l' => f x ≫= λ _, forM l' f
  end.

Fixpoint mapM_ {A B} (f : A → M B) (l : list A) : M (list B) :=
  match l with
  | [] => mret []
  | x :: l' => f x ≫= λ y, mapM_ f l' ≫= λ ys, mret (y :: ys)
  end.

(** An iterator walked with a handler that may stop it: [handler] returns the new
    accumulator and whether to go on. *)
Fixpoint iterate {A B} (decode : string → M A) (handler : B → A → B * bool)
    (acc : B) (kvs : list (string * string)) : M B :=
  match kvs with
  | [] => mret acc
  | kv :: kvs' =>
      a ← decode kv.2;
      let r := handler acc a in
      if r.2 then iterate decode handler r.1 kvs' else mret r.1
  end.

(** ** Running *)

Lemma M_bind_Ok {A B} (m : M A) (f : A → M B) caller c a c1 :
  m caller c = (Ok a, c1) → (m ≫= f) caller c = f a caller c1.
Proof. unfold mbind, M_bind. by intros ->. Qed.

Lemma M_bind_Err {A B} (m : M A) (f : A → M B) caller c e c1 :
  m caller c = (Err e, c1) → (m ≫= f) caller c = (Err e, c1).
Proof. unfold mbind, M_bind. by intros ->. Qed.

Lemma M_bind_inv {A B} (m : M A) (f : A → M B) caller c b c' :
  (m ≫= f) caller c = (Ok b, c') →
  ∃ a c1, m caller c = (Ok a, c1) ∧ f a caller c1 = (Ok b, c').
Proof. unfold mbind, M_bind. destruct (m caller c) as [[a| |] c1]; naive_solver. Qed.

Lemma attempt_Ok {A} (m : M A) caller c a c' : m caller c = (Ok a, c') → attempt m caller c = (Ok (Ok a), c').
Proof. unfold attempt. by intros ->. Qed.
Lemma attempt_Err {A} (m : M A) caller c e c' : m caller c = (Err e, c') → attempt m caller c = (Ok (Err e), c').
Proof. unfold attempt. by intros ->. Qed.
Lemma lift_Ok {A} (o : outcome A) a caller c : o = Ok a → lift o caller c = (Ok a, c).
Proof. by intros ->. Qed.

(** A keeper may call its own methods: the check passes. *)
Lemma keeper_method_self (mp : ModulePermissions) perm {A} (body : M A) c :
  keeper_method mp perm body (mp_name mp) c = body (mp_name mp) c.
Proof. unfold keeper_method, AutoCheck. by rw bool_decide_true. Qed.

Lemma keeper_method_granted (mp : ModulePermissions) perm {A} (body : M A) caller c :
  Check mp caller perm = Ok tt →
  keeper_method mp perm body caller c = body (mp_name mp) c.
Proof. unfold keeper_method, AutoCheck. intros ->. by case_bool_decide. Qed.

(** A stranger without the permission is stopped before the body runs. *)
Lemma keeper_method_denied (mp : ModulePermissions) perm {A} (body : M A) caller c :
  caller ≠ mp_name mp → Check mp caller perm ≠ Ok tt →
  keeper_method mp perm body caller c = (Panic, c).
Proof.
  unfold keeper_method, AutoCheck. intros Hne Hc. rw bool_decide_false; [|done].
  destruct (Check mp caller perm) as [[]| |]; done.
Qed.

Lemma keeper_method_inv (mp : ModulePermissions) perm {A} (body : M A) caller c a c' :
  keeper_method mp perm body caller c = (Ok a, c') → body (mp_name mp) c = (Ok a, c').
Proof. unfold keeper_method. by destruct (AutoCheck _ _ _ _). Qed.

Lemma attempt_inv {A} (m : M A) caller c o c' :
  attempt m caller c = (Ok o, c') → m caller c = (o, c').
Proof. unfold attempt. destruct (m caller c) as [[] ?]; naive_solver. Qed.

Lemma lift_inv {A} (o : outcome A) caller c a c' : lift o caller c = (Ok a, c') → o = Ok a ∧ c' = c.
Proof. unfold lift. naive_solver. Qed.

Lemma bank_call_inv f caller c u c' :
  bank_call f caller c = (Ok u, c') → ∃ l, f (ctx_bank c) = Ok l ∧ c' = set_bank c l.
Proof. unfold bank_call. destruct (f (ctx_bank c)) as [l| |]; [|done..]. intros [= _ <-]. by exists l. Qed.

(** Reading back what was written. *)
Lemma ctx_stores_set_store c key s k :
  ctx_stores (set_store c key s) k = if decide (k = key) then s else ctx_stores c k.
Proof. done. Qed.
Lemma ctx_stores_set_bank c l : ctx_stores (set_bank c l) = ctx_stores c.
Proof. done. Qed.

Lemma forM_app {A} (l1 l2 : list A) (f : A → M unit) caller c :
  forM (l1 ++ l2) f caller c = (forM l1 f ≫= λ _, forM l2 f) caller c.
Proof.
  revert c. induction l1 as [|x l1 IH]; intros c; [done|]. simpl.
  unfold mbind, M_bind. destruct (f x caller c) as [[]?]; auto.
Qed.

(** Loop invariant: [P] relates the processed prefix to the context. *)
Lemma forM_inv {A} (P : list A → Ctx → Prop) (l : list A) (f : A → M unit) caller c c' u :
  P [] c →
  (∀ pre x c1 c2 v, pre ++ [x] `prefix_of` l → P pre c1 → f x caller c1 = (Ok v, c2) → P (pre ++ [x]) c2) →
  forM l f caller c = (Ok u, c') → P l c'.
Proof.
  intros Hinit Hstep Hrun.
  assert (∀ l2 pre c1, pre ++ l2 = l → P pre c1 → forM l2 f caller c1 = (Ok u, c') → P l c') as Hgen.
  { induction l2 as [|x l2 IH]; intros pre c1 Hl HP Hf; simpl in Hf.
    - injection Hf as <- <-. rw app_nil_r in Hl. by subst.
    - apply M_bind_inv in Hf as ([] & c2 & Hx & Hf).
      apply (IH (pre ++ [x]) c2); [by rw -app_assoc| |done].
      eapply Hstep; [|done|done]. exists l2. by rw -app_assoc. }
  by apply (Hgen l [] c).
Qed.

(** A loop whose steps are pure reads that succeed. *)
Lemma mapM_run {A B} (f : A → M B) (g : A → option B) l caller c :
  (∀ x, x ∈ l → ∃ b, g x = Some b ∧ f x caller c = (Ok b, c)) →
  mapM_ f l caller c = (Ok (omap g l), c).
Proof.
  induction l as [|x l IH]; intros Hl; [done|].
  destruct (Hl x) as (b & Hg & Hf); [left|]. cbn [mapM_ omap list_omap]. rw Hg.
  etrans; [by apply (M_bind_Ok _ _ _ _ b c)|].
  etrans; [apply (M_bind_Ok _ _ _ _ (omap g l) c)|done]. apply IH. intros y Hy. apply Hl. by right.
Qed.

(** ** Operations that change nothing *)
Definition reads {A} (m : M A) : Prop := ∀ caller c, (m caller c).2 = c.

Lemma reads_run {A} (m : M A) caller c o c' : reads m → m caller c = (o, c') → c' = c.
Proof. intros Hr Hm. specialize (Hr caller c). by rw Hm in Hr. Qed.

Lemma reads_bind {A B} (m : M A) (f : A → M B) : reads m → (∀ a, reads (f a)) → reads (m ≫= f).
Proof.
  intros Hm Hf caller c. unfold mbind, M_bind. specialize (Hm caller c).
  destruct (m caller c) as [[a| |] c1]; simpl in *; subst; [apply Hf|done..].
Qed.
Lemma reads_ret {A} (a : A) : reads (mret a).
Proof. done. Qed.
Lemma reads_lift {A} (o : outcome A) : reads (lift o).
Proof. done. Qed.
Lemma reads_throw {A} e : reads (@throw A e).
Proof. done. Qed.
Lemma reads_panic {A} : reads (@panic A).
Proof. done. Qed.
Lemma reads_attempt {A} (m : M A) : reads m → reads (attempt m).
Proof. intros Hm caller c. unfold attempt. specialize (Hm caller c). by destruct (m caller c) as [[] ?]. Qed.
Lemma reads_keeper_method mp perm {A} (m : M A) : reads m → reads (keeper_method mp perm m).
Proof. intros Hm caller c. unfold keeper_method. destruct (AutoCheck _ _ _ _); [apply Hm|done..]. Qed.
Lemma reads_in_module name {A} (m : M A) : reads m → reads (in_module name m).
Proof. intros Hm caller c. apply Hm. Qed.
Lemma reads_kv_Get key k : reads (kv_Get key k).
Proof. done. Qed.
Lemma reads_kv_Has key k : reads (kv_Has key k).
Proof. done. Qed.
Lemma reads_kv_PrefixIterator key p : reads (kv_PrefixIterator key p).
Proof. done. Qed.
Lemma reads_BlockTime : reads BlockTime.
Proof. done. Qed.
Lemma reads_BlockHeight : reads BlockHeight.
Proof. done. Qed.
Lemma reads_Events : reads Events.
Proof. done. Qed.
Lemma reads_MustUnmarshal {A} `{Codec A} e bz : reads (MustUnmarshal e bz).
Proof. unfold MustUnmarshal. by destruct (Unmarshal e bz). Qed.
Lemma reads_param_Get {A} `{Codec A} space key : reads (param_Get (A:=A) space key).
Proof. apply reads_bind; [apply reads_kv_Get|]. intros [bz|]; [apply reads_MustUnmarshal|done]. Qed.
Lemma reads_if {A} (b : bool) (m1 m2 : M A) : reads m1 → reads m2 → reads (if b then m1 else m2).
Proof. by destruct b. Qed.
Lemma reads_iterate {A B} (decode : string → M A) (handler : B → A → B * bool) acc kvs :
  (∀ bz, reads (decode bz)) → reads (iterate decode handler acc kvs).
Proof.
  intros Hd. revert acc. induction kvs as [|kv kvs IH]; intros acc; [apply reads_ret|]. simpl.
  apply reads_bind; [done|]. intros a. apply reads_if; [done|apply reads_ret].
Qed.
Lemma reads_mapM {A B} (f : A → M B) l : (∀ x, reads (f x)) → reads (mapM_ f l).
Proof.
  intros Hf. induction l as [|x l IH]; [apply reads_ret|]. simpl. apply reads_bind; [done|]. intros y.
  apply reads_bind; [done|]. intros ys. apply reads_ret.
Qed.

(** ** Operations that write some stores only *)
Definition frame (keys : list string) (c c' : Ctx) : Prop :=
  (∀ k, k ∉ keys → ctx_stores c' k = ctx_stores c k) ∧ ctx_height c' = ctx_height c ∧ ctx_time c' = ctx_time c.

Definition writes (keys : list string) {A} (m : M A) : Prop := ∀ caller c, frame keys c (m caller c).2.

Lemma frame_refl keys c : frame keys c c.
Proof. done. Qed.
Lemma frame_trans keys c1 c2 c3 : frame keys c1 c2 → frame keys c2 c3 → frame keys c1 c3.
Proof. intros (H1 & H2 & H3) (H1' & H2' & H3'). split_and!; [|congruence..]. intros k Hk. by rw H1' ?H1. Qed.

Lemma writes_run keys {A} (m : M A) caller c o c' : writes keys m → m caller c = (o, c') → frame keys c c'.
Proof. intros Hw Hm. specialize (Hw caller c). by rw Hm in Hw. Qed.

Lemma writes_reads keys {A} (m : M A) : reads m → writes keys m.
Proof. intros Hr caller c. by rw Hr. Qed.
Lemma writes_bind keys {A B} (m : M A) (f : A → M B) : writes keys m → (∀ a, writes keys (f a)) → writes keys (m ≫= f).
Proof.
  intros Hm Hf caller c. unfold mbind, M_bind. specialize (Hm caller c). destruct (m caller c) as [[a| |] c1]; simpl in *; [|done..].
  eapply frame_trans; [done|apply Hf].
Qed.
Lemma writes_attempt keys {A} (m : M A) : writes keys m → writes keys (attempt m).
Proof. intros Hm caller c. unfold attempt. specialize (Hm caller c). by destruct (m caller c) as [[] ?]. Qed.
Lemma writes_keeper_method keys mp perm {A} (m : M A) : writes keys m → writes keys (keeper_method mp perm m).
Proof. intros Hm caller c. unfold keeper_method. destruct (AutoCheck _ _ _ _); [apply Hm|done..]. Qed.
Lemma writes_in_module keys name {A} (m : M A) : writes keys m → writes keys (in_module name m).
Proof. intros Hm caller c. apply Hm. Qed.
Lemma writes_kv_Set keys key k v : key ∈ keys → writes keys (kv_Set key k v).
Proof. intros Hk caller c. split; [|done]. intros k' Hk'. simpl. rw decide_False; [done|]. by intros ->. Qed.
Lemma writes_kv_Delete keys key k : key ∈ keys → writes keys (kv_Delete key k).
Proof. intros Hk caller c. split; [|done]. intros k' Hk'. simpl. rw decide_False; [done|]. by intros ->. Qed.
Lemma writes_param_Set {A} `{Codec A} keys space key (a : A) : params_store space ∈ keys → writes keys (param_Set space key a).
Proof. apply writes_kv_Set. Qed.
Lemma writes_bank_call keys f : writes keys (bank_call f).
Proof. intros caller c. unfold bank_call. by destruct (f (ctx_bank c)). Qed.
Lemma writes_EmitEvent keys e : writes keys (EmitEvent e).
Proof. done. Qed.
Lemma writes_if keys {A} (b : bool) (m1 m2 : M A) : writes keys m1 → writes keys m2 → writes keys (if b then m1 else m2).
Proof. by destruct b. Qed.
Lemma writes_forM keys {A} (l : list A) f : (∀ x, writes keys (f x)) → writes keys (forM l f).
Proof. intros Hf. induction l as [|x l IH]; [done|]. apply writes_bind; [done|]. by intros _. Qed.
End chain.

Create HintDb writes.
#[export] Hint Resolve writes_bind writes_attempt writes_keeper_method writes_in_module writes_kv_Set writes_kv_Delete writes_param_Set
  writes_bank_call writes_EmitEvent writes_if writes_forM : writes.
#[export] Hint Resolve list_elem_of_here : writes.

Create HintDb reads.
#[export] Hint Resolve reads_bind reads_ret reads_lift reads_throw reads_panic reads_attempt
  reads_keeper_method reads_in_module reads_kv_Get reads_kv_Has reads_kv_PrefixIterator reads_BlockTime
  reads_BlockHeight reads_Events reads_MustUnmarshal reads_if reads_iterate reads_mapM reads_param_Get : reads.

(** [m_inv] decomposes a successful run of a keeper operation. *)
Ltac m_inv_step :=
  match goal with
  | H : mbind _ _ _ _ = (Ok _, _) |- _ =>
      let a := fresh "v" in let c1 := fresh "c" in let H1 := fresh "Hm" in
      apply M_bind_inv in H as (a & c1 & H1 & H)
  | H : mret _ _ _ = (Ok _, _) |- _ => injection H as H; try subst
  | H : keeper_method _ _ _ _ _ = (Ok _, _) |- _ => apply keeper_method_inv in H
  | H : attempt _ _ _ = (Ok _, _) |- _ => apply attempt_inv in H
  | H : lift _ _ _ = (Ok _, ?c') |- _ =>
      let E := fresh "Ec" in apply lift_inv in H as [H E]; try subst c'
  | H : bank_call _ _ _ = (Ok _, _) |- _ =>
      let l := fresh "l" in let E := fresh "Ec" in apply bank_call_inv in H as (l & H & E)
  | H : throw _ _ _ = (Ok _, _) |- _ => discriminate H
  | H : panic _ _ = (Ok _, _) |- _ => discriminate H
  | H : (Ok _, _) = (Ok _, _) |- _ => injection H as H; try subst
  | H : (Err _, _) = (Ok _, _) |- _ => discriminate H
  | H : (Panic, _) = (Ok _, _) |- _ => discriminate H
  | H : (if ?b then _ else _) _ _ = (Ok _, _) |- _ =>
      let E := fresh "Eb" in destruct b eqn:E
  end.
Ltac m_inv := repeat m_inv_step.
