(* ===== verification/SdkBank.v ===== *)
(** * More of the SDK: coin lists, the supply, bank and staking keepers

    The interfaces of [Sdk] continued for the modules that create and destroy coins:
    arithmetic on lists of coins, the total supply, the bank's operations on the coins
    of an account, and what [x/currencies] asks of the staking keeper.  The application
    builds the bank over the accounts of [x/vmauth]: what the bank's operations do is
    stated in [BankKeeper].  The executable instances come with the proofs of the laws. *)
From S2P Require Import Prelude Bytes Sdk SdkRef Perms Chain.
Local Open Scope string_scope.
Local Open Scope Z_scope.
Local Open Scope list_scope.

(** ** [sdk.Coins], a sorted list of positive amounts, and more numbers *)
Class SdkCoins := {
  Coins_Add : list Coin → list Coin → outcome (list Coin);
  Coins_Sub : list Coin → list Coin → outcome (list Coin);
  Coins_IsEqual : list Coin → list Coin → outcome bool;
  (** [sdk.NewIntFromString]: the result and whether it is valid. *)
  NewIntFromString : string → option Int;
  Uint_Mul : Uint → Uint → outcome Uint;
}.

Definition coins_valid (cs : list Coin) : Prop :=
  NoDup (coin_Denom <$> cs) ∧ Forall (λ c, 0 < coin_Amount c) cs.

(** Documented behaviour: [Add] and [Sub] work by denomination, [Sub] panics on a
    negative result, as integer arithmetic does beyond 255 bits. *)
Class SdkCoinsLaws `{C : SdkCoins} : Prop := {
  Coins_Add_ok a c : coins_valid a → 0 ≤ coin_Amount c → amount_of a (coin_Denom c) + coin_Amount c < maxInt →
    ∃ r, Coins_Add a [c] = Ok r ∧ coins_valid r ∧ ∀ d, amount_of r d = amount_of a d + amount_of [c] d;
  Coins_Add_one a c r : coins_valid a → 0 ≤ coin_Amount c → Coins_Add a [c] = Ok r →
    coins_valid r ∧ ∀ d, amount_of r d = amount_of a d + amount_of [c] d;
  Coins_Sub_ok a c : coins_valid a → 0 ≤ coin_Amount c ≤ amount_of a (coin_Denom c) →
    ∃ r, Coins_Sub a [c] = Ok r ∧ coins_valid r ∧ ∀ d, amount_of r d = amount_of a d - amount_of [c] d;
  Coins_Sub_negative a c : coins_valid a → amount_of a (coin_Denom c) < coin_Amount c → Coins_Sub a [c] = Panic;
  Coins_IsEqual_refl a : Coins_IsEqual a a = Ok true;
  Uint_Mul_ok a b : 0 ≤ a → 0 ≤ b → a * b < maxUint → Uint_Mul a b = Ok (a * b);
  Uint_Mul_overflow a b : maxUint ≤ a * b → Uint_Mul a b = Panic;
  NewIntFromString_decimal n : Z.of_N n < maxInt → NewIntFromString (pretty n) = Some (Z.of_N n);
}.

(** ** The supply keeper: [supplyKeeper.GetSupply(ctx).GetTotal()] and back *)
Class SupplyKeeper `{L : Ledger} := {
  GetSupply : ledger → list Coin;
  SetSupply : ledger → list Coin → ledger;
}.

Class SupplyKeeperLaws `{SU : SupplyKeeper} : Prop := {
  GetSupply_SetSupply l cs : GetSupply (SetSupply l cs) = cs;
  SetSupply_balance l cs x d : balance (SetSupply l cs) x d = balance l x d;
}.

(** ** The bank's operations on the coins of an account *)
Class BankKeeper `{KV : KVStore} `{LG : Ledger} := {
  bank_GetCoins : AccAddress → M (list Coin);
  bank_SetCoins : AccAddress → list Coin → M unit;
  bank_AddCoins : AccAddress → list Coin → M unit;
  bank_SubtractCoins : AccAddress → list Coin → M unit;
}.

(** ** The staking keeper (a fork of the SDK's): one store holds the banned accounts *)
Class Staking `{KV : KVStore} `{LG : Ledger} := {
  IsAccountBanned : AccAddress → M bool;
  BanAccount : AccAddress → Z → M unit;
  BondDenom : M string;
  LPDenom : M string;
  ForceRemoveDelegator : AccAddress → M unit;
}.

Class StakingLaws `{SK : Staking} (staking_store : string) := {
  banned : store → AccAddress → bool;
  IsAccountBanned_ok a m c : IsAccountBanned a m c = (Ok (banned (ctx_stores c staking_store) a), c);
  BanAccount_ok a h m c : ∃ s, BanAccount a h m c = (Ok tt, set_store c staking_store s) ∧
    ∀ x, banned s x = if decide (x = a) then true else banned (ctx_stores c staking_store) x;
  BondDenom_ok m c : ∃ d, BondDenom m c = (Ok d, c);
  LPDenom_ok m c : ∃ d, LPDenom m c = (Ok d, c);
}.

(** ** Reference instances *)
Lemma amount_of_nil d : amount_of [] d = 0.
Proof. done. Qed.
Lemma amount_of_cons c cs d : amount_of (c :: cs) d = (if decide (coin_Denom c = d) then coin_Amount c else 0) + amount_of cs d.
Proof. done. Qed.
Lemma amount_of_one c d : amount_of [c] d = if decide (coin_Denom c = d) then coin_Amount c else 0.
Proof. unfold amount_of. simpl. case_decide; lia. Qed.

Lemma amount_of_absent cs d : d ∉ coin_Denom <$> cs → amount_of cs d = 0.
Proof.
  induction cs as [|c cs IH]; intros Hd; [done|]. rw fmap_cons in Hd. apply not_elem_of_cons in Hd as [Hne Hd].
  rw amount_of_cons decide_False; [|congruence]. by rw IH.
Qed.

Lemma amount_of_nonneg cs d : coins_valid cs → 0 ≤ amount_of cs d.
Proof.
  intros [Hnd Hpos]. induction cs as [|c cs IH]; [done|]. rw fmap_cons in Hnd. apply NoDup_cons in Hnd as [Hn Hnd].
  apply Forall_cons in Hpos as [Hc Hpos]. rw amount_of_cons. case_decide as E; [|by apply IH].
  rw amount_of_absent; [lia|by rw -E].
Qed.

(** Every denomination once, in a map. *)
Definition coins_map (cs : list Coin) : gmap string Z :=
  foldr (λ c m, <[coin_Denom c := default 0 (m !! coin_Denom c) + coin_Amount c]> m) ∅ cs.
Definition map_coins (m : gmap string Z) : list Coin :=
  (λ p, MkCoin p.1 p.2) <$> map_to_list (filter (λ p, 0 < p.2) m).

Lemma coins_map_amount cs d : default 0 (coins_map cs !! d) = amount_of cs d.
Proof.
  induction cs as [|c cs IH]; [done|]. rw amount_of_cons.
  change (coins_map (c :: cs)) with (<[coin_Denom c := default 0 (coins_map cs !! coin_Denom c) + coin_Amount c]> (coins_map cs)).
  rw lookup_insert. case_decide as E; [|done]. subst d. simpl. rw IH. lia.
Qed.

Lemma amount_of_list (m : gmap string Z) d (l : list (string * Z)) : NoDup l.*1 → (∀ p, p ∈ l → m !! p.1 = Some p.2) →
  amount_of ((λ p, MkCoin p.1 p.2) <$> l) d = if decide (d ∈ l.*1) then default 0 (m !! d) else 0.
Proof.
  induction l as [|[d' z] l IH]; intros Hnd Hl; [done|]. rw fmap_cons in Hnd. apply NoDup_cons in Hnd as [Hn Hnd].
  rw !fmap_cons amount_of_cons IH; [|done|]; [|intros p Hp; apply Hl; by right]. simpl. pose proof (Hl (d', z) (list_elem_of_here _ _)) as Hz.
  simpl in Hz. destruct (decide (d' = d)) as [<-|Hne].
  - rw decide_False; [|done]. rw decide_True; [|left]. rw Hz. simpl. lia.
  - destruct (decide (d ∈ l.*1)) as [Hd|Hd]; [rw decide_True; [done|by right]|].
    rw decide_False; [done|]. by intros [->|?]%elem_of_cons.
Qed.

Lemma map_coins_amount (m : gmap string Z) d : (∀ d z, m !! d = Some z → 0 ≤ z) → amount_of (map_coins m) d = default 0 (m !! d).
Proof.
  intros Hm. unfold map_coins. rw (amount_of_list m).
  - case_decide as E.
    + done.
    + destruct (m !! d) as [z|] eqn:Ez; [|done]. pose proof (Hm d z Ez). simpl. assert (z = 0); [|done].
      destruct (decide (0 < z)); [|lia]. exfalso. apply E. apply list_elem_of_fmap. exists (d, z). split; [done|].
      apply elem_of_map_to_list. by apply map_lookup_filter_Some.
  - apply NoDup_fst_map_to_list.
  - intros [d' z] Hp%elem_of_map_to_list. by apply map_lookup_filter_Some in Hp as [? _].
Qed.

Lemma map_coins_valid (m : gmap string Z) : coins_valid (map_coins m).
Proof.
  unfold map_coins. split.
  - rw -list_fmap_compose. apply NoDup_fst_map_to_list.
  - apply Forall_forall. intros c (p & -> & Hp)%list_elem_of_fmap. destruct p as [d z].
    apply elem_of_map_to_list, map_lookup_filter_Some in Hp as [Hp Hz]. done.
Qed.

(** The sum or difference by denomination; [ok] checks a result. *)
Definition ref_combine (ok : Z → bool) (m : gmap string Z) (ds : list string) : outcome (list Coin) :=
  if forallb (λ d, ok (default 0 (m !! d))) ds then Ok (map_coins m) else Panic.

Definition ref_Coins_Add (a b : list Coin) : outcome (list Coin) :=
  ref_combine (λ z, z <? maxInt) (coins_map (a ++ b)) (coin_Denom <$> b).
Definition ref_Coins_Sub (a b : list Coin) : outcome (list Coin) :=
  ref_combine (λ z, 0 <=? z) (coins_map (a ++ ((λ c, MkCoin (coin_Denom c) (- coin_Amount c)) <$> b))) (coin_Denom <$> b).

#[export] Instance Coins_ref : SdkCoins := {|
  Coins_Add := ref_Coins_Add;
  Coins_Sub := ref_Coins_Sub;
  Coins_IsEqual a b := Ok (bool_decide (coins_map a = coins_map b));
  NewIntFromString s := match ref_NewUintFromString s with Ok n => if n <? maxInt then Some n else None | _ => None end;
  Uint_Mul a b := checkUint (a * b);
|}.

Lemma amount_of_app a b d : amount_of (a ++ b) d = amount_of a d + amount_of b d.
Proof. apply sumZ_app. Qed.

(** The amounts of [a], changed by [z] at [d0]. *)
Lemma ref_combine_spec ok a c z : coins_valid a → coin_Denom c = coin_Denom z →
  let m := coins_map (a ++ [z]) in
  ref_combine ok m (coin_Denom <$> [c]) =
    (if ok (amount_of a (coin_Denom c) + coin_Amount z) then Ok (map_coins m) else Panic) ∧ coins_valid (map_coins m) ∧
  (0 ≤ amount_of a (coin_Denom c) + coin_Amount z → ∀ d, amount_of (map_coins m) d = amount_of a d + amount_of [z] d).
Proof.
  intros Ha Hd m. assert (∀ d, default 0 (m !! d) = amount_of a d + amount_of [z] d) as Hm.
  { intros d. unfold m. by rw coins_map_amount amount_of_app. }
  split; [|split].
  - unfold ref_combine. simpl. rw Hm amount_of_one decide_True; [|done]. by rw andb_true_r.
  - apply map_coins_valid.
  - intros Hz d. rw -Hm. apply map_coins_amount. intros d' z' E. assert (z' = amount_of a d' + amount_of [z] d') as -> by (by rw -(Hm d') E). rw amount_of_one.
    pose proof (amount_of_nonneg a d' Ha). case_decide as E'; [|lia]. by rw -E' -Hd.
Qed.

#[export] Instance CoinsLaws_ref : SdkCoinsLaws.
Proof.
  split; simpl; unfold ref_Coins_Add, ref_Coins_Sub; cbn [fmap list_fmap].
  - intros a c Ha Hc Hlt. destruct (ref_combine_spec (λ z, z <? maxInt) a c c Ha eq_refl) as (Hr & Hv & Hm). cbn [fmap list_fmap] in Hr.
    rw (proj2 (Z.ltb_lt _ _) Hlt) in Hr. eexists. split; [exact Hr|]. split; [done|]. apply Hm. pose proof (amount_of_nonneg a (coin_Denom c) Ha). lia.
  - intros a c r Ha Hc0 Hc. revert Hc. destruct (ref_combine_spec (λ z, z <? maxInt) a c c Ha eq_refl) as (Hr & Hv & Hm). cbn [fmap list_fmap] in Hr.
    rw Hr. destruct (_ <? _); [|done]. intros [= <-]. split; [done|]. apply Hm. pose proof (amount_of_nonneg a (coin_Denom c) Ha). lia.
  - intros a c Ha Hc. destruct (ref_combine_spec (λ z, 0 <=? z) a c (MkCoin (coin_Denom c) (- coin_Amount c)) Ha eq_refl) as (Hr & Hv & Hm).
    cbn [fmap list_fmap coin_Amount coin_Denom] in Hr, Hm. rw (proj2 (Z.leb_le _ _)) in Hr; [|lia]. eexists. split; [exact Hr|]. split; [done|].
    intros d. rw Hm; [|lia]. rw !amount_of_one. simpl. case_decide; lia.
  - intros a c Ha Hlt. destruct (ref_combine_spec (λ z, 0 <=? z) a c (MkCoin (coin_Denom c) (- coin_Amount c)) Ha eq_refl) as (Hr & _).
    cbn [fmap list_fmap] in Hr. simpl in Hr. rw (proj2 (Z.leb_gt _ _)) in Hr; [|lia]. exact Hr.
  - intros a. by rw bool_decide_true.
  - intros a b Ha Hb Hlt. apply range_check_ok. nia.
  - intros a b Hlt. apply range_check_panic. lia.
  - intros n Hn. rw -{1}(N2Z.id n) ref_NewUintFromString_pretty; [|unfold maxUint, maxInt in *; lia].
    by rw (proj2 (Z.ltb_lt _ _)).
Qed.

(** Balances with the total supply beside them. *)
Definition bank_ref : Type := gmap (string * string) N * list Coin.
Definition with_balances (l : bank_ref) (o : outcome (gmap (string * string) N)) : outcome bank_ref :=
  m ← o; Ok (m, l.2).

Definition Bank_ledger : Ledger := {|
  ledger := bank_ref;
  balance l := ref_balance l.1;
  ModuleAddress m := "module/" +:+ m;
  AddCoins l a cs := with_balances l (foldM (ref_AddCoin a) l.1 cs);
  SendCoinsFromAccountToModule l a m cs := with_balances l (ref_Send l.1 a ("module/" +:+ m) cs);
  SendCoinsFromModuleToAccount l m a cs := with_balances l (ref_Send l.1 ("module/" +:+ m) a cs);
|}.

Definition Supply_ops : SupplyKeeper (L := Bank_ledger) :=
  @Build_SupplyKeeper Bank_ledger (λ l : bank_ref, l.2) (λ (l : bank_ref) cs, (l.1, cs)).
Lemma Supply_ops_laws : SupplyKeeperLaws (SU := Supply_ops).
Proof. by split. Qed.

Lemma with_balances_inv l o l' : with_balances l o = Ok l' → o = Ok l'.1 ∧ l'.2 = l.2.
Proof. unfold with_balances. intros H. ok_inv. done. Qed.
Lemma with_balances_Err l o e : o = Err e → with_balances l o = Err e.
Proof. by intros ->. Qed.

Lemma Bank_ledger_laws : LedgerLaws (L := Bank_ledger).
Proof.
  split; simpl.
  - intros l a cs l' x d [H _]%with_balances_inv. by apply ref_AddCoins_balance.
  - intros l a cs H Hlen. destruct (AddCoins_ok (L := Ledger_ref) l.1 a cs H Hlen) as [l' Hl']. simpl in Hl'. unfold with_balances. rw Hl'. by eexists.
  - intros l a m cs l' x d [H _]%with_balances_inv. by apply ref_Send_balance.
  - intros l a m cs d H. destruct (ref_Send_insufficient l.1 a ("module/" +:+ m) cs d H) as [e He]. exists e. by apply with_balances_Err.
  - intros l m a cs l' x d [H _]%with_balances_inv. by apply ref_Send_balance.
  - intros l m a c H1 H2. destruct (FromModule_ok (L := Ledger_ref) l.1 m a c H1 H2) as [l' Hl']. simpl in Hl'. unfold with_balances. rw Hl'. by eexists.
  - intros l m a cs d H. destruct (ref_Send_insufficient l.1 ("module/" +:+ m) a cs d H) as [e He]. exists e. by apply with_balances_Err.
Qed.

(** A staking keeper that records the banned accounts; nothing is delegated. *)
Section staking.
Context `{KVL : KVStoreLaws} `{LG : Ledger}.

Definition Staking_ref : Staking := {|
  IsAccountBanned a := kv_Has "staking" a;
  BanAccount a height := kv_Set "staking" a (Uint64ToBigEndian height);
  BondDenom := mret "sxfi";
  LPDenom := mret "lpt";
  ForceRemoveDelegator _ := mret tt;
|}.

Definition Staking_ref_laws : StakingLaws (SK := Staking_ref) "staking".
Proof.
  refine {| banned s a := store_Has s a |}; simpl.
  - done.
  - intros a h m c. eexists. split; [done|]. intros x. unfold store_Has. rw store_Get_Set. by repeat case_decide; subst.
  - intros m c. by eexists.
  - intros m c. by eexists.
Defined.
End staking.
