(* ===== verification/Currency.v ===== *)
(** * Currencies ([x/ccstorage/internal/types/currency.go])

    A currency fixes how many decimals its integer amounts carry.  The DEX
    converts amounts between currencies through 18-digit decimals. *)
From S2P Require Import Prelude Bytes Sdk SdkRef SdkFacts DnTypes.
Local Open Scope Z_scope.

Record Currency := MkCurrency {
  cur_Denom : string;
  cur_Decimals : Z;
  cur_Supply : Int;
  cur_ContractAddress : string;
}.

#[export] Instance currency_eq_dec : EqDecision Currency.
Proof. solve_decision. Defined.

Record CurrencyParams := MkCurrencyParams {
  cp_Denom : string;
  cp_Decimals : Z;
  cp_ContractAddress : string;
}.

Section currency.
Context `{SdkTypes}.

Definition Currency_Valid (c : Currency) : outcome unit :=
  match DenomFilter (cur_Denom c) with
  | Err _ => Err (Plain "denom is invalid")
  | r => r
  end.

Definition GetSupplyCoin (c : Currency) : outcome Coin := NewCoin (cur_Denom c) (cur_Supply c).

(** Amount to decimal and back, by the currency's number of decimals. *)
Definition UintToDec (c : Currency) (quantity : Uint) : outcome Dec :=
  NewDecFromIntWithPrec quantity (cur_Decimals c).

Definition MinDecimal (c : Currency) : outcome Dec :=
  NewDecFromIntWithPrec 1 (cur_Decimals c).

Definition DecToUint (c : Currency) (quantity : Dec) : outcome Uint :=
  m ← MinDecimal c; r ← Dec_Quo quantity m; res ← Dec_TruncateInt r; NewUintFromBigInt res.

Definition Currencies_ToParams (l : list Currency) : list CurrencyParams :=
  map (λ c, MkCurrencyParams (cur_Denom c) (cur_Decimals c) (cur_ContractAddress c)) l.

Definition NewCurrency (params : CurrencyParams) (supply : Int) : Currency :=
  MkCurrency (cp_Denom params) (cp_Decimals params) supply (cp_ContractAddress params).
End currency.

(** The currencies the decimal arithmetic supports. *)
Definition decimals_ok (c : Currency) : Prop := 0 ≤ cur_Decimals c ≤ 18.

Section facts.
Context `{SdkTypesLaws}.

Lemma UintToDec_ok c q : decimals_ok c → UintToDec c q = Ok (q * 10 ^ (18 - cur_Decimals c)).
Proof. intros. by apply NewDecFromIntWithPrec_ok. Qed.

Lemma MinDecimal_ok c : decimals_ok c → MinDecimal c = Ok (10 ^ (18 - cur_Decimals c)).
Proof. intros. unfold MinDecimal. rw NewDecFromIntWithPrec_ok; [|done]. by rw Z.mul_1_l. Qed.

(** A decimal is cut to whole minimal units. *)
Lemma DecToUint_ok c d :
  decimals_ok c → 0 ≤ d → d * 10 ^ cur_Decimals c < 2 ^ 254 →
  DecToUint c d = Ok (d / 10 ^ (18 - cur_Decimals c)).
Proof.
  intros Hc Hd Hb. unfold DecToUint. rw MinDecimal_ok; [|done]. simpl.
  pose proof (pow10_split _ Hc) as Hs. pose proof Hc as [Hc1 Hc2].
  pose proof (pow10_pos' (cur_Decimals c) Hc1).
  pose proof (pow10_pos' (18 - cur_Decimals c) ltac:(lia)).
  set (A := 10 ^ (18 - cur_Decimals c)) in *. set (B := 10 ^ cur_Decimals c) in *.
  assert (0 ≤ d * B) by nia.
  rw (Dec_Quo_exact d A (d * B)); [|lia|lia|].
  2:{ apply (Z.lt_trans _ (2 * 2 ^ 254)); [lia|done]. }
  simpl. rw Dec_TruncateInt_nonneg.
  2:{ split; [lia|]. apply (Z.lt_trans _ (2 ^ 254)); [lia|done]. }
  simpl.
  assert (d * B / Precision = d / A) as ->.
  { rw -Hs. rw (Z.mul_comm d). by rw Z.div_mul_cancel_l; [|lia..]. }
  apply NewUintFromBigInt_ok. split; [apply Z.div_pos; lia|].
  apply Z.div_lt_upper_bound; [lia|]. unfold maxUint. nia.
Qed.
End facts.

(** Converting an amount to a decimal and back is the identity. *)
Theorem UintToDec_DecToUint `{SdkTypesLaws} c q :
  decimals_ok c → 0 ≤ q < 2 ^ 190 →
  (UintToDec c q ≫= DecToUint c) = Ok q.
Proof.
  intros Hc Hq. rw UintToDec_ok; [|done]. simpl.
  pose proof (pow10_split _ Hc) as Hs. pose proof Hc as [? ?].
  pose proof (pow10_pos' (18 - cur_Decimals c) ltac:(lia)).
  rw DecToUint_ok; [|done|nia|].
  - by rw Z.div_mul; [|lia].
  - rw -Z.mul_assoc (Z.mul_comm (10 ^ _)) Hs. unfold Precision. lia.
Qed.

(** More than 18 decimals: every conversion panics. *)
Theorem UintToDec_panics `{SdkTypesLaws} c q : 18 < cur_Decimals c → UintToDec c q = Panic.
Proof. apply NewDecFromIntWithPrec_panic. Qed.
