(* ===== verification/VMStorage.v ===== *)
(** * VM storage ([x/common_vm/common.go], [x/vm/internal/keeper/keeper_vm.go])

    The Move VM's resources are kept in the [vm] module's store under a key built
    from the access path.  [VMStorage] is the interface other keepers use; the vm
    keeper implements it, and [VMStorageLaws] says what it promises: a map from
    access paths to values. *)
From S2P Require Import Prelude Bytes Sdk SdkRef Perms Chain.
Local Open Scope string_scope.
Local Open Scope Z_scope.

(** [vm_grpc.VMAccessPath]: an address and a path inside it. *)
Record VMAccessPath := MkVMAccessPath { vp_Address : string; vp_Path : string }.

#[export] Instance vmaccesspath_eq_dec : EqDecision VMAccessPath.
Proof. solve_decision. Defined.

Module common_vm.

Definition VMAddressLength : nat := 20.
Definition KeyDelimiter : string := ":".
Definition VMKey : string := "vm".

(** Twenty bytes, the last one 1. *)
Definition StdLibAddress : string := be_bytes VMAddressLength 1.

Definition Bech32ToLibra (addr : AccAddress) : string := addr.

Definition GetPathKey (path : VMAccessPath) : string :=
  Join KeyDelimiter [VMKey; vp_Address path; vp_Path path].

Definition GetPathPrefixKey : string := VMKey +:+ KeyDelimiter.

Definition MustParsePathKey (key : string) : outcome VMAccessPath :=
  let expectedMinLen :=
    (String.length VMKey + String.length KeyDelimiter + VMAddressLength + String.length KeyDelimiter + 1)%nat in
  panic_if (String.length key <? expectedMinLen)%nat;;
  let prefixEndIdx := String.length VMKey in
  let delimiterFirstEndIdx := (prefixEndIdx + String.length KeyDelimiter)%nat in
  let addressEndIdx := (delimiterFirstEndIdx + VMAddressLength)%nat in
  let pathStartIdx := (addressEndIdx + String.length KeyDelimiter)%nat in
  let prefixValue := bytes_slice 0 prefixEndIdx key in
  let delimiterFirstValue := bytes_slice prefixEndIdx delimiterFirstEndIdx key in
  let addressValue := bytes_slice delimiterFirstEndIdx addressEndIdx key in
  let delimiterSecondValue := bytes_slice addressEndIdx pathStartIdx key in
  let pathValue := string_drop pathStartIdx key in
  panic_if (negb (bool_decide (prefixValue = VMKey)));;
  panic_if (negb (bool_decide (delimiterFirstValue = KeyDelimiter)));;
  panic_if (negb (bool_decide (delimiterSecondValue = KeyDelimiter)));;
  Ok (MkVMAccessPath addressValue pathValue).

(** The paths the storage is used with. *)
Definition path_ok (p : VMAccessPath) : Prop := String.length (vp_Address p) = VMAddressLength.

Lemma GetPathKey_eq p : GetPathKey p = "vm:" +:+ vp_Address p +:+ ":" +:+ vp_Path p.
Proof. done. Qed.

Lemma GetPathKey_inj p q : path_ok p → path_ok q → GetPathKey p = GetPathKey q → p = q.
Proof.
  unfold path_ok. destruct p as [a x], q as [b y]; simpl. intros Ha Hb.
  rw !GetPathKey_eq. simpl. intros H.
  apply (string_app_inj_len "vm:" "vm:") in H as [_ H]; [|done].
  apply string_app_inj_len in H as [-> H]; [|congruence].
  by apply (string_app_inj_len ":" ":") in H as [_ ->].
Qed.

Lemma has_prefix_GetPathKey p : has_prefix GetPathPrefixKey (GetPathKey p).
Proof. by exists (vp_Address p +:+ ":" +:+ vp_Path p). Qed.

(** The store key of an access path parses back to it. *)
Lemma MustParsePathKey_Get p :
  path_ok p → vp_Path p ≠ "" → MustParsePathKey (GetPathKey p) = Ok p.
Proof.
  destruct p as [a x]. unfold path_ok. simpl. intros Ha Hx.
  do 20 (destruct a as [|? a]; [done|]). destruct a; [|done]. by destruct x.
Qed.

(** Only keys of access paths parse. *)
Lemma MustParsePathKey_inv k p :
  MustParsePathKey k = Ok p → path_ok p ∧ vp_Path p ≠ "" ∧ k = GetPathKey p.
Proof.
  unfold MustParsePathKey. intros H. ok_inv. revert Hrun Hrun0 Hrun1 Hrun2.
  do 25 (destruct k as [|? k]; [done|]). intros _ H1 H2 H3. cbn in *.
  apply negb_false_iff, bool_decide_eq_true in H1, H2, H3.
  unfold VMKey, KeyDelimiter in *. simplify_eq. done.
Qed.
End common_vm.

(** ** The interface ([common_vm.VMStorage]) *)
Class VMStorage `{KV : KVStore} `{LG : Ledger} := {
  SetValue : VMAccessPath → string → M unit;
  GetValue : VMAccessPath → M (option string);
  DelValue : VMAccessPath → M unit;
  HasValue : VMAccessPath → M bool;
}.

(** What it promises to the modules in [clients]: a map from access paths to
    values, that nothing else of the state depends on. *)
Class VMStorageLaws `{VS : VMStorage} (clients : string → Prop) (vm_store : string) := {
  vm_read : store → VMAccessPath → option string;
  SetValue_ok m c p v : clients m → common_vm.path_ok p →
    ∃ s, SetValue p v m c = (Ok tt, set_store c vm_store s) ∧
      ∀ q, common_vm.path_ok q → vm_read s q = if decide (q = p) then Some v else vm_read (ctx_stores c vm_store) q;
  DelValue_ok m c p : clients m → common_vm.path_ok p →
    ∃ s, DelValue p m c = (Ok tt, set_store c vm_store s) ∧
      ∀ q, common_vm.path_ok q → vm_read s q = if decide (q = p) then None else vm_read (ctx_stores c vm_store) q;
  GetValue_ok m c p : clients m → GetValue p m c = (Ok (vm_read (ctx_stores c vm_store) p), c);
  HasValue_ok m c p : clients m →
    HasValue p m c = (Ok (bool_decide (is_Some (vm_read (ctx_stores c vm_store) p))), c);
}.

(** ** The vm keeper *)
Module vm.

Definition ModuleName := "vm".
Definition StoreKey := ModuleName.
Definition PermInit := ModuleName +:+ "PermInit".
Definition PermVmExec := ModuleName +:+ "PermVmExec".
Definition PermDsAdmin := ModuleName +:+ "PermDsAdmin".
Definition PermStorageRead := ModuleName +:+ "PermStorageRead".
Definition PermStorageWrite := ModuleName +:+ "PermStorageWrite".
Definition KeyGenesisInit := "gen".

Definition AvailablePermissions : list string :=
  [PermInit; PermVmExec; PermDsAdmin; PermStorageRead; PermStorageWrite].

Definition NewModulePerms : ModulePermissions := NewModulePermissions ModuleName AvailablePermissions.

(** [vm_grpc.VMValue]: one write of a script's write set. *)
Inductive VmWriteOp := VmWriteOp_Value | VmWriteOp_Deletion | VmWriteOp_other.
Record VMValue := MkVMValue { vv_Type : VmWriteOp; vv_Path : VMAccessPath; vv_Value : string }.

(** Genesis write operations are hexadecimal. *)
Record GenesisWriteOp := MkGenesisWriteOp { wo_Address : string; wo_Path : string; wo_Value : string }.
Record GenesisState := MkGenesisState { gs_WriteSet : list GenesisWriteOp }.

Definition ToBytes (writeOp : GenesisWriteOp) : outcome (VMAccessPath * string) :=
  bzAddr ← hex_DecodeString (wo_Address writeOp);
  bzPath ← hex_DecodeString (wo_Path writeOp);
  bzValue ← hex_DecodeString (wo_Value writeOp);
  Ok (MkVMAccessPath bzAddr bzPath, bzValue).

Definition GenesisWriteOp_String (writeOp : GenesisWriteOp) : string :=
  wo_Address writeOp +:+ "::" +:+ wo_Path writeOp.

(** The set of seen operations is the fold's accumulator. *)
Definition Validate_op (writeOpsSet : gset string) (writeOp : GenesisWriteOp) : outcome (gset string) :=
  bzAddr ← hex_DecodeString (wo_Address writeOp);
  fail_if (negb (String.length bzAddr =? common_vm.VMAddressLength)%nat) (Plain "incorrect length");;
  hex_DecodeString (wo_Path writeOp);;
  hex_DecodeString (wo_Value writeOp);;
  let writeOpId := GenesisWriteOp_String writeOp in
  fail_if (bool_decide (writeOpId ∈ writeOpsSet)) (Plain "duplicated");;
  Ok ({[writeOpId]} ∪ writeOpsSet).

Definition GenesisState_Validate (s : GenesisState) : outcome unit :=
  foldM Validate_op ∅ (gs_WriteSet s);; Ok tt.

Section keeper.
Context `{KV : KVStore} `{LG : Ledger}.
Variable modulePerms : ModulePermissions.

Definition hasValue (accessPath : VMAccessPath) : M bool := kv_Has StoreKey (common_vm.GetPathKey accessPath).
Definition getValue (accessPath : VMAccessPath) : M (option string) :=
  kv_Get StoreKey (common_vm.GetPathKey accessPath).
Definition setValue (accessPath : VMAccessPath) (value : string) : M unit :=
  kv_Set StoreKey (common_vm.GetPathKey accessPath) value.
Definition delValue (accessPath : VMAccessPath) : M unit :=
  kv_Delete StoreKey (common_vm.GetPathKey accessPath).

Definition keeper_HasValue (accessPath : VMAccessPath) : M bool :=
  keeper_method modulePerms PermStorageRead (hasValue accessPath).
Definition keeper_GetValue (accessPath : VMAccessPath) : M (option string) :=
  keeper_method modulePerms PermStorageRead (getValue accessPath).
Definition keeper_SetValue (accessPath : VMAccessPath) (value : string) : M unit :=
  keeper_method modulePerms PermStorageWrite (setValue accessPath value).
Definition keeper_DelValue (accessPath : VMAccessPath) : M unit :=
  keeper_method modulePerms PermStorageWrite (delValue accessPath).

Definition processWriteSet (writeSet : list VMValue) : M unit :=
  forM writeSet (λ value,
    match vv_Type value with
    | VmWriteOp_Deletion => delValue (vv_Path value)
    | VmWriteOp_Value => setValue (vv_Path value) (vv_Value value)
    | VmWriteOp_other => panic
    end).

(** All stored values, with their keys parsed. *)
Definition iterateOverValues {A} (handler : VMAccessPath → string → A) : M (list A) :=
  kvs ← kv_PrefixIterator StoreKey common_vm.GetPathPrefixKey;
  mapM_ (λ kv, accessPath ← lift (common_vm.MustParsePathKey kv.1); mret (handler accessPath kv.2)) kvs.

Definition InitGenesis (state : GenesisState) : M unit :=
  keeper_method modulePerms PermInit (
    forM (gs_WriteSet state) (λ genWriteOp,
      match ToBytes genWriteOp with
      | Ok (accessPath, value) => setValue accessPath value
      | _ => panic
      end);;
    kv_Set StoreKey KeyGenesisInit (String (byte_of 1) "")).

Definition ExportGenesis : M GenesisState :=
  keeper_method modulePerms PermStorageRead (
    ops ← iterateOverValues (λ accessPath value,
      MkGenesisWriteOp (hex_EncodeToString (vp_Address accessPath)) (hex_EncodeToString (vp_Path accessPath))
        (hex_EncodeToString value));
    mret (MkGenesisState ops)).

#[export] Instance vm_storage : VMStorage := {|
  SetValue := keeper_SetValue;
  GetValue := keeper_GetValue;
  DelValue := keeper_DelValue;
  HasValue := keeper_HasValue;
|}.
End keeper.

(** A keeper built by [NewKeeper] from its requesters' permissions. *)
Definition NewKeeper (permsRequesters : list RequestModulePermissions) : outcome ModulePermissions :=
  foldM AutoAddRequester NewModulePerms permsRequesters.

Section laws.
Context `{KVL : KVStoreLaws} `{LG : Ledger}.
Variable modulePerms : ModulePermissions.

(** The modules that were granted both storage permissions. *)
Definition storage_clients (m : string) : Prop :=
  Check modulePerms m PermStorageRead = Ok tt ∧ Check modulePerms m PermStorageWrite = Ok tt.

(** The keeper keeps the promises of [VMStorage]. *)
#[export] Program Instance vm_storage_laws :
    VMStorageLaws (VS := vm_storage modulePerms) storage_clients StoreKey := {|
  vm_read s p := store_Get s (common_vm.GetPathKey p);
|}.
Next Obligation.
  intros m c p v [_ Hw] Hp. cbn. unfold keeper_SetValue. rw keeper_method_granted; [|done].
  eexists. split; [done|]. intros q Hq. rw store_Get_Set. repeat case_decide; try done.
  - exfalso. by apply (common_vm.GetPathKey_inj p q) in Hp as ->.
  - exfalso. naive_solver.
Qed.
Next Obligation.
  intros m c p [_ Hw] Hp. cbn. unfold keeper_DelValue. rw keeper_method_granted; [|done].
  eexists. split; [done|]. intros q Hq. rw store_Get_Delete. repeat case_decide; try done.
  - exfalso. by apply (common_vm.GetPathKey_inj p q) in Hp as ->.
  - exfalso. naive_solver.
Qed.
Next Obligation. intros m c p [Hr _]. cbn. unfold keeper_GetValue. by rw keeper_method_granted. Qed.
Next Obligation. intros m c p [Hr _]. cbn. unfold keeper_HasValue. by rw keeper_method_granted. Qed.
End laws.
End vm.
