(* ===== verification/CCStorage.v ===== *)
(** * Currency storage ([x/ccstorage])

    The module owns the registered currencies and mirrors two things in the Move
    VM's storage: every currency's info resource, and the balance resources of an
    account.  [CurrencyStorage] is what other keepers use of it. *)
From S2P Require Import Prelude Bytes Sdk SdkRef SdkFacts DnTypes Perms Chain Currency VMStorage.
Local Open Scope string_scope.
Local Open Scope Z_scope.

(** ** Code outside the repository

    [glav] computes the VM paths of a currency's resources, [lcs] is the binary
    format of the VM. *)
Class Glav := {
  BalanceVector : string → string;
  CurrencyInfoVector : string → string;
  BalanceVector_inj a b : BalanceVector a = BalanceVector b → a = b;
  CurrencyInfoVector_inj a b : CurrencyInfoVector a = CurrencyInfoVector b → a = b;
}.

Class Lcs (A : Type) := {
  lcs_Marshal : A → outcome string;
  lcs_Unmarshal : string → outcome A;
  lcs_Unmarshal_Marshal a bz : lcs_Marshal a = Ok bz → lcs_Unmarshal bz = Ok a;
}.

(** ** What other keepers use of the module *)
Class CurrencyStorage `{KV : KVStore} `{LG : Ledger} := {
  ccs_HasCurrency : string → M bool;
  ccs_GetCurrency : string → M Currency;
}.

(** The promise: in a well-formed store the two read the same map, and change
    nothing. *)
Class CurrencyStorageLaws `{CS : CurrencyStorage} (clients : string → Prop) (ccs_store : string) := {
  ccs_wf : store → Prop;
  cur_read : store → string → option Currency;
  ccs_HasCurrency_ok m c denom : clients m → ccs_wf (ctx_stores c ccs_store) →
    ccs_HasCurrency denom m c = (Ok (bool_decide (is_Some (cur_read (ctx_stores c ccs_store) denom))), c);
  ccs_GetCurrency_Some m c denom cur : clients m → ccs_wf (ctx_stores c ccs_store) →
    cur_read (ctx_stores c ccs_store) denom = Some cur → ccs_GetCurrency denom m c = (Ok cur, c);
  ccs_GetCurrency_None m c denom : clients m → ccs_wf (ctx_stores c ccs_store) →
    cur_read (ctx_stores c ccs_store) denom = None → ∃ e, ccs_GetCurrency denom m c = (Err e, c);
  cur_read_denom s denom cur : ccs_wf s → cur_read s denom = Some cur → cur_Denom cur = denom;
  cur_read_decimals s denom cur : ccs_wf s → cur_read s denom = Some cur → 0 ≤ cur_Decimals cur < 256;
  ccs_HasCurrency_reads denom : reads (ccs_HasCurrency denom);
  ccs_GetCurrency_reads denom : reads (ccs_GetCurrency denom);
}.

Module ccstorage.

Definition ModuleName := "ccstorage".
Definition StoreKey := ModuleName.
Definition PermInit := ModuleName +:+ "PermInit".
Definition PermCreate := ModuleName +:+ "PermCreate".
Definition PermUpdate := ModuleName +:+ "PermUpdate".
Definition PermRead := ModuleName +:+ "PermRead".
Definition PermResUpdate := ModuleName +:+ "PermResUpdate".

Definition AvailablePermissions : list string := [PermInit; PermCreate; PermUpdate; PermRead; PermResUpdate].
Definition NewModulePerms : ModulePermissions := NewModulePermissions ModuleName AvailablePermissions.
Definition RequestVMStoragePerms : RequestModulePermissions :=
  (ModuleName, [vm.PermStorageRead; vm.PermStorageWrite]).

Definition ErrInternal := Registered ModuleName 100.
Definition ErrWrongDenom := Registered ModuleName 101.
Definition ErrWrongParams := Registered ModuleName 102.

(** ** Keys *)
Definition KeyDelimiter := ":".
Definition KeyCurrencyPrefix := "currency".
Definition GetCurrencyKey (denom : string) : string := Join KeyDelimiter [KeyCurrencyPrefix; denom].
Definition GetCurrencyKeyPrefix : string := KeyCurrencyPrefix +:+ KeyDelimiter.
Definition GetCurrencyBalancePathKey (denom : string) : string := Join KeyDelimiter ["currencyBalancePath"; denom].
Definition GetCurrencyInfoPathKey (denom : string) : string := Join KeyDelimiter ["currencyInfoPath"; denom].

(** ** VM resources *)
Record ResCurrencyInfo := MkResCurrencyInfo {
  rci_Denom : string;
  rci_Decimals : Z;
  rci_IsToken : bool;
  rci_Owner : string;
  rci_TotalSupply : Z;
}.
Record ResBalance := MkResBalance { rb_Value : Z }.
Record Balance := MkBalance { bal_Denom : string; bal_AccessPath : VMAccessPath; bal_Resource : ResBalance }.

Definition NewResCurrencyInfo (currency : Currency) (ownerAddress : string) : outcome ResCurrencyInfo :=
  fail_if (negb (String.length ownerAddress =? common_vm.VMAddressLength)%nat)
    (Plain "ownerAddress: address length is not equal to VM address length");;
  Ok (MkResCurrencyInfo (cur_Denom currency) (cur_Decimals currency)
        (negb (bool_decide (ownerAddress = common_vm.StdLibAddress))) ownerAddress (cur_Supply currency)).

(** ** Genesis *)
Record GenesisState := MkGenesisState { gs_CurrenciesParams : list CurrencyParams }.

Definition CurrencyParams_Validate `{SdkTypes} (c : CurrencyParams) : outcome unit := DenomFilter (cp_Denom c).

Definition Validate_params `{SdkTypes} (denomsSet : gset string) (params : CurrencyParams) : outcome (gset string) :=
  fail_if (bool_decide (cp_Denom params ∈ denomsSet)) (Plain "duplicated");;
  CurrencyParams_Validate params;;
  Ok ({[cp_Denom params]} ∪ denomsSet).
Definition GenesisState_Validate `{SdkTypes} (s : GenesisState) : outcome unit :=
  foldM Validate_params ∅ (gs_CurrenciesParams s);; Ok tt.

Definition DefaultGenesisState : GenesisState :=
  MkGenesisState [MkCurrencyParams "xfi" 18 ""; MkCurrencyParams "sxfi" 18 ""; MkCurrencyParams "eth" 18 "";
                  MkCurrencyParams "usdt" 6 ""; MkCurrencyParams "btc" 8 ""; MkCurrencyParams "lpt" 18 ""].

Section keeper.
Context `{ST : SdkTypes} `{KV : KVStore} `{LG : Ledger} `{VS : !VMStorage}.
Context `{GL : Glav} `{LI : !Lcs ResCurrencyInfo} `{LB : !Lcs ResBalance} `{CC : !Codec Currency}.
Variable modulePerms : ModulePermissions.

Definition BalancePath (c : Currency) : string := BalanceVector (cur_Denom c).
Definition InfoPath (c : Currency) : string := CurrencyInfoVector (cur_Denom c).
Definition InfoPathHex (c : Currency) : string := hex_EncodeToString (InfoPath c).

Definition NewCCCreatedEvent (currency : Currency) : Event :=
  MkEvent (ModuleName +:+ ".create")
    [("denom", cur_Denom currency); ("decimals", pretty (Z.to_N (cur_Decimals currency)));
     ("info_path", InfoPathHex currency); ("contract_address", cur_ContractAddress currency)].

(** *** Currencies *)

Definition storeCurrency (currency : Currency) : M unit :=
  kv_Set StoreKey (GetCurrencyKey (cur_Denom currency)) (Marshal Bare currency).

(** [Unmarshal] of a missing value panics. *)
Definition getCurrency (denom : string) : M Currency :=
  bz ← kv_Get StoreKey (GetCurrencyKey denom);
  match bz with Some bz => MustUnmarshal Bare bz | None => panic end.

Definition HasCurrency (denom : string) : M bool :=
  keeper_method modulePerms PermRead (kv_Has StoreKey (GetCurrencyKey denom)).

Definition GetCurrencies : M (list Currency) :=
  keeper_method modulePerms PermRead (
    kvs ← kv_PrefixIterator StoreKey GetCurrencyKeyPrefix;
    mapM_ (λ kv, MustUnmarshal Bare kv.2) kvs).

Definition GetCurrency (denom : string) : M Currency :=
  keeper_method modulePerms PermRead (
    has ← HasCurrency denom;
    if negb has then throw ErrWrongDenom else getCurrency denom).

Definition storeResStdCurrencyInfo (currency : Currency) : M unit :=
  match NewResCurrencyInfo currency common_vm.StdLibAddress with
  | Ok currencyInfo =>
      match lcs_Marshal currencyInfo with
      | Ok bz => SetValue (MkVMAccessPath common_vm.StdLibAddress (InfoPath currency)) bz
      | _ => panic
      end
  | _ => panic
  end.

Definition GetResStdCurrencyInfo (denom : string) : M ResCurrencyInfo :=
  keeper_method modulePerms PermRead (
    let accessPath := MkVMAccessPath common_vm.StdLibAddress (CurrencyInfoVector denom) in
    has ← HasValue accessPath;
    if negb has then throw ErrInternal
    else
      bz ← GetValue accessPath;
      match lcs_Unmarshal (default "" bz) with
      | Ok currencyInfo => mret currencyInfo
      | Err _ => throw ErrInternal
      | Panic => panic
      end).

Definition CreateCurrency (params : CurrencyParams) : M unit :=
  keeper_method modulePerms PermCreate (
    let denom := cp_Denom params in
    has ← HasCurrency denom;
    if (has : bool) then throw ErrWrongDenom
    else
      let currency := NewCurrency params 0 in
      match NewResCurrencyInfo currency common_vm.StdLibAddress with
      | Err _ => throw ErrWrongParams
      | _ =>
          storeCurrency currency;;
          storeResStdCurrencyInfo currency;;
          EmitEvent (NewCCCreatedEvent currency)
      end).

Definition with_Supply (c : Currency) (supply : Int) : Currency :=
  MkCurrency (cur_Denom c) (cur_Decimals c) supply (cur_ContractAddress c).

Definition IncreaseCurrencySupply (coin : Coin) : M unit :=
  keeper_method modulePerms PermUpdate (
    currency ← GetCurrency (coin_Denom coin);
    supply ← lift (Int_Add (cur_Supply currency) (coin_Amount coin));
    let currency := with_Supply currency supply in
    storeCurrency currency;;
    storeResStdCurrencyInfo currency).

Definition DecreaseCurrencySupply (coin : Coin) : M unit :=
  keeper_method modulePerms PermUpdate (
    currency ← GetCurrency (coin_Denom coin);
    supply ← lift (Int_Sub (cur_Supply currency) (coin_Amount coin));
    let currency := with_Supply currency supply in
    storeCurrency currency;;
    storeResStdCurrencyInfo currency).

(** *** Balance resources *)

Definition newBalance (addr : AccAddress) (coin : Coin) : Balance :=
  MkBalance (coin_Denom coin)
    (MkVMAccessPath (common_vm.Bech32ToLibra addr) (BalanceVector (coin_Denom coin)))
    (MkResBalance (coin_Amount coin)).

(** The account's coins, and a zero balance for every other registered currency. *)
Definition newBalances (addr : AccAddress) (coins : list Coin) : M (list Balance * list Balance) :=
  let filledBalances := newBalance addr <$> coins in
  let foundAccDenoms : gset string := list_to_set (coin_Denom <$> coins) in
  currencies ← GetCurrencies;
  emptyBalances ← mapM_ (λ currency,
      coin ← lift (NewCoin (cur_Denom currency) 0); mret (newBalance addr coin))
    (filter (λ currency, cur_Denom currency ∉ foundAccDenoms) currencies);
  mret (filledBalances, emptyBalances).

Definition ResourceBytes (b : Balance) : outcome string := lcs_Marshal (bal_Resource b).

Definition SetAccountBalanceResources (addr : AccAddress) (coins : list Coin) : M unit :=
  keeper_method modulePerms PermResUpdate (
    balances ← newBalances addr coins;
    forM balances.1 (λ balance,
      bz ← lift (ResourceBytes balance); SetValue (bal_AccessPath balance) bz);;
    forM balances.2 (λ balance,
      has ← HasValue (bal_AccessPath balance);
      if (has : bool) then bz ← lift (ResourceBytes balance); SetValue (bal_AccessPath balance) bz
      else mret tt)).

Definition NewBalance (denom : string) (accessPath : VMAccessPath) (resBytes : string) : outcome Balance :=
  fail_if (bool_decide (denom = "")) (Plain "denom is empty");;
  res ← lcs_Unmarshal resBytes;
  Ok (MkBalance denom accessPath res).

Definition GetAccountBalanceResources (addr : AccAddress) : M (list Balance) :=
  keeper_method modulePerms PermRead (
    currencies ← GetCurrencies;
    bs ← mapM_ (λ currency,
      let accessPath := MkVMAccessPath (common_vm.Bech32ToLibra addr) (BalancePath currency) in
      bz ← GetValue accessPath;
      match bz with
      | Some bz => balance ← lift (NewBalance (cur_Denom currency) accessPath bz); mret (Some balance)
      | None => mret None
      end) currencies;
    mret (omap id bs)).

Definition RemoveAccountBalanceResources (addr : AccAddress) : M unit :=
  keeper_method modulePerms PermResUpdate (
    currencies ← GetCurrencies;
    forM currencies (λ currency,
      DelValue (MkVMAccessPath (common_vm.Bech32ToLibra addr) (BalancePath currency)))).

Definition Balance_Coin (b : Balance) : outcome Coin := NewCoin (bal_Denom b) (rb_Value (bal_Resource b)).

(** Zero values are left out. *)
Definition Coins (l : list Balance) : outcome (list Coin) :=
  foldM (λ coins balance,
    if rb_Value (bal_Resource balance) =? 0 then Ok coins
    else coin ← Balance_Coin balance; Ok (coins ++ [coin])%list) [] l.

(** *** Genesis and zero-height squash *)

(** An error of [CreateCurrency] is a panic. *)
Definition InitGenesis (state : GenesisState) : M unit :=
  keeper_method modulePerms PermInit (
    forM (gs_CurrenciesParams state) (λ params,
      r ← attempt (CreateCurrency params);
      match r with Ok _ => mret tt | _ => panic end)).

Definition ExportGenesis : M GenesisState :=
  keeper_method modulePerms PermRead (
    currencies ← GetCurrencies;
    mret (MkGenesisState (map (λ currency,
      MkCurrencyParams (cur_Denom currency) (cur_Decimals currency) "") currencies))).

Record supplyOperation := MkSupplyOperation { SetToZero : bool }.
Record SquashOptions := MkSquashOptions { supplyOps : supplyOperation }.
Definition NewEmptySquashOptions : SquashOptions := MkSquashOptions (MkSupplyOperation false).
Definition SetSupplyOperation (opts : SquashOptions) (toZero : bool) : SquashOptions :=
  MkSquashOptions (MkSupplyOperation toZero).

Definition PrepareForZeroHeight (opts : SquashOptions) : M unit :=
  in_module ModuleName (
    if SetToZero (supplyOps opts) then
      currencies ← GetCurrencies;
      forM currencies (λ cur,
        let cur := with_Supply cur 0 in
        storeCurrency cur;; storeResStdCurrencyInfo cur)
    else mret tt).
End keeper.

Definition NewKeeper (permsRequesters : list RequestModulePermissions) : outcome ModulePermissions :=
  foldM AutoAddRequester NewModulePerms permsRequesters.
End ccstorage.
