(* ===== verification/Markets.v ===== *)
(** * Markets ([x/markets])

    A market pairs a base and a quote currency.  The keeper gives every new market
    the next ID and refuses a second market of the same pair. *)
From S2P Require Import Prelude Bytes Sdk SdkRef SdkFacts DnTypes Perms Chain Currency VMStorage CCStorage.
Local Open Scope string_scope.
Local Open Scope Z_scope.

Record Market := MkMarket { mkt_ID : ID; mkt_BaseAssetDenom : string; mkt_QuoteAssetDenom : string }.

(** A market with its currencies' data. *)
Record MarketExtended := MkMarketExtended {
  me_ID : ID;
  me_BaseCurrency : Currency;
  me_QuoteCurrency : Currency;
}.

#[export] Instance market_eq_dec : EqDecision Market.
Proof. solve_decision. Defined.
#[export] Instance marketext_eq_dec : EqDecision MarketExtended.
Proof. solve_decision. Defined.

Module markets.

Definition ModuleName := "markets".
Definition StoreKey := ModuleName.
Definition PermInit := ModuleName +:+ "PermInit".
Definition PermCreate := ModuleName +:+ "PermCreate".
Definition PermRead := ModuleName +:+ "PermRead".
Definition AvailablePermissions : list string := [PermInit; PermCreate; PermRead].
Definition NewModulePerms : ModulePermissions := NewModulePermissions ModuleName AvailablePermissions.
Definition RequestCCStoragePerms : RequestModulePermissions := (ModuleName, [ccstorage.PermRead]).

Definition ErrInternal := Registered ModuleName 100.
Definition ErrWrongID := Registered ModuleName 101.
Definition ErrWrongAssetDenom := Registered ModuleName 102.
Definition ErrMarketExists := Registered ModuleName 103.
Definition ErrInvalidQuantity := Registered ModuleName 104.
Definition ErrWrongFrom := Registered ModuleName 105.

Section types.
Context `{ST : SdkTypes}.

(** ** Keys *)
Definition KeyDelimiter := ":".
Definition KeyMarketPrefix := "market".
Definition KeyLastMarketId := "last_market_id".
Definition GetMarketsKey (id : ID) : string := Join KeyDelimiter [KeyMarketPrefix; ID_String id].
Definition GetPrefixMarketsKey : string := KeyMarketPrefix +:+ KeyDelimiter.

(** ** Market objects *)

(** The denominations' filter errors are wrapped in the module's own. *)
Definition wrap_err (o : outcome unit) (e : error) : outcome unit :=
  match o with Err _ => Err e | r => r end.

Definition Market_Valid (m : Market) : outcome unit :=
  wrap_err (ID_Valid (Some (mkt_ID m))) ErrWrongID;;
  wrap_err (DenomFilter (mkt_BaseAssetDenom m)) ErrWrongAssetDenom;;
  wrap_err (DenomFilter (mkt_QuoteAssetDenom m)) ErrWrongAssetDenom.

Definition GetAssetCode (m : Market) : string := mkt_BaseAssetDenom m +:+ "_" +:+ mkt_QuoteAssetDenom m.

Definition NewMarket (id : ID) (baseAsset quoteAsset : string) : Market := MkMarket id baseAsset quoteAsset.

Definition MarketExtended_Valid (m : MarketExtended) : outcome unit :=
  wrap_err (Currency_Valid (me_BaseCurrency m)) (Plain "base_currency is invalid");;
  wrap_err (Currency_Valid (me_QuoteCurrency m)) (Plain "quote_currency is invalid");;
  wrap_err (ID_Valid (Some (me_ID m))) (Plain "id is invalid").

Definition NewMarketExtended (market : Market) (baseCurrency quoteCurrency : Currency) : MarketExtended :=
  MkMarketExtended (mkt_ID market) baseCurrency quoteCurrency.

Definition BaseDenom (m : MarketExtended) : string := cur_Denom (me_BaseCurrency m).
Definition QuoteDenom (m : MarketExtended) : string := cur_Denom (me_QuoteCurrency m).

(** Price (of one whole base unit, in quote units) times quantity, in quote units. *)
Definition BaseToQuoteQuantity (m : MarketExtended) (basePrice baseQuantity : Uint) : outcome Uint :=
  basePriceDec ← UintToDec (me_QuoteCurrency m) basePrice;
  baseQuantityDec ← UintToDec (me_BaseCurrency m) baseQuantity;
  quoteQuantityDec ← Dec_Mul basePriceDec baseQuantityDec;
  minDec ← MinDecimal (me_QuoteCurrency m);
  if quoteQuantityDec <? minDec then Err ErrInvalidQuantity
  else DecToUint (me_QuoteCurrency m) quoteQuantityDec.

(** ** Events and messages *)
Definition NewMarketCreatedEvent (market : Market) : Event :=
  MkEvent (ModuleName +:+ ".create")
    [("market_id", ID_String (mkt_ID market)); ("base_denom", mkt_BaseAssetDenom market);
     ("quote_denom", mkt_QuoteAssetDenom market)].

Record MsgCreateMarket := MkMsgCreateMarket {
  mcm_From : AccAddress; mcm_BaseAssetDenom : string; mcm_QuoteAssetDenom : string }.

Definition MsgCreateMarket_ValidateBasic (msg : MsgCreateMarket) : outcome unit :=
  fail_if (bool_decide (mcm_From msg = "")) ErrWrongFrom;;
  fail_if (bool_decide (mcm_BaseAssetDenom msg = "")) ErrWrongAssetDenom;;
  fail_if (bool_decide (mcm_QuoteAssetDenom msg = "")) ErrWrongAssetDenom.

Definition MsgCreateMarket_GetSigners (msg : MsgCreateMarket) : list AccAddress := [mcm_From msg].

(** ** Query requests *)
Record MarketsReq := MkMarketsReq {
  mr_Page : Uint; mr_Limit : Uint;
  mr_BaseAssetDenom : string; mr_QuoteAssetDenom : string; mr_AssetCode : string;
}.

Definition NewMarketsFilter (page limit : Z) : MarketsReq := MkMarketsReq page limit "" "" "".
Definition BaseDenomFilter (r : MarketsReq) : bool := negb (bool_decide (mr_BaseAssetDenom r = "")).
Definition QuoteDenomFilter (r : MarketsReq) : bool := negb (bool_decide (mr_QuoteAssetDenom r = "")).
Definition MarketsReq_AssetCodeFilter (r : MarketsReq) : bool := negb (bool_decide (mr_AssetCode r = "")).

(** ** Genesis *)
Record GenesisState := MkGenesisState { gs_Markets : list Market; gs_LastMarketID : option ID }.
Definition DefaultGenesisState : GenesisState := MkGenesisState [] None.

Definition Validate_market (acc : ID * gset string) (m : Market) : outcome (ID * gset string) :=
  let (maxMarketID, marketsSet) := acc in
  Market_Valid m;;
  fail_if (bool_decide (ID_String (mkt_ID m) ∈ marketsSet)) (Plain "duplicated ID");;
  Ok (if ID_GT (mkt_ID m) maxMarketID then mkt_ID m else maxMarketID, {[ID_String (mkt_ID m)]} ∪ marketsSet).

Definition GenesisState_Validate (s : GenesisState) : outcome unit :=
  acc ← foldM Validate_market (NewZeroID, ∅) (gs_Markets s);
  match gs_LastMarketID s with
  | None => fail_if (negb (length (gs_Markets s) =? 0)%nat) (Plain "last_market_id: nil with existing markets")
  | Some lastMarketID =>
      fail_if (length (gs_Markets s) =? 0)%nat (Plain "last_market_id: not nil without existing markets");;
      ID_Valid (Some lastMarketID);;
      fail_if (negb (ID_Equal lastMarketID acc.1)) (Plain "last_market_id: not equal to max market ID")
  end.
End types.

(** ** The keeper *)
Section keeper.
Context `{ST : SdkTypes} `{KV : KVStore} `{LG : Ledger} `{CS : !CurrencyStorage}.
Context `{CM : !Codec Market} `{CI : !Codec Z}.
Variable modulePerms : ModulePermissions.

Definition decode_market (bz : string) : M Market := MustUnmarshal LengthPrefixed bz.

Definition set (market : Market) : M unit :=
  kv_Set StoreKey (GetMarketsKey (mkt_ID market)) (Marshal LengthPrefixed market).

Definition setLastID (id : ID) : M unit := kv_Set StoreKey KeyLastMarketId (Marshal LengthPrefixed id).

Definition getLastMarketID : M (option ID) :=
  has ← kv_Has StoreKey KeyLastMarketId;
  if negb has then mret None
  else
    bz ← kv_Get StoreKey KeyLastMarketId;
    id ← MustUnmarshal LengthPrefixed (default "" bz);
    mret (Some id).

Definition nextID : M ID :=
  id ← getLastMarketID;
  match id with
  | None => mret NewZeroID
  | Some id => lift (ID_Incr id)
  end.

Definition iterateMarkets {B} (handler : B → Market → B * bool) (acc : B) : M B :=
  kvs ← kv_PrefixIterator StoreKey GetPrefixMarketsKey;
  iterate decode_market handler acc kvs.

Definition Has (id : ID) : M bool := keeper_method modulePerms PermRead (kv_Has StoreKey (GetMarketsKey id)).

Definition Get (id : ID) : M Market :=
  keeper_method modulePerms PermRead (
    bz ← kv_Get StoreKey (GetMarketsKey id);
    match bz with
    | None => throw ErrWrongID
    | Some bz => decode_market bz
    end).

(** Both currencies are looked up before an error is returned. *)
Definition GetExtended (id : ID) : M MarketExtended :=
  keeper_method modulePerms PermRead (
    market ← Get id;
    baseCurrency ← attempt (ccs_GetCurrency (mkt_BaseAssetDenom market));
    quoteCurrency ← attempt (ccs_GetCurrency (mkt_QuoteAssetDenom market));
    match baseCurrency, quoteCurrency with
    | Ok baseCurrency, Ok quoteCurrency => mret (NewMarketExtended market baseCurrency quoteCurrency)
    | _, Err e => throw e
    | Err e, _ => throw e
    | _, _ => panic
    end).

Definition Add (baseAsset quoteAsset : string) : M Market :=
  keeper_method modulePerms PermCreate (
    duplicated ← iterateMarkets (λ (_ : bool) m,
        if bool_decide (mkt_BaseAssetDenom m = baseAsset) && bool_decide (mkt_QuoteAssetDenom m = quoteAsset)
        then (true, false) else (false, true)) false;
    if (duplicated : bool) then throw ErrMarketExists
    else
      hasBase ← ccs_HasCurrency baseAsset;
      if negb hasBase then throw ErrWrongAssetDenom
      else
        hasQuote ← ccs_HasCurrency quoteAsset;
        if negb hasQuote then throw ErrWrongAssetDenom
        else
          id ← nextID;
          let market := NewMarket id baseAsset quoteAsset in
          set market;;
          setLastID (mkt_ID market);;
          EmitEvent (NewMarketCreatedEvent market);;
          mret market).

Definition GetList : M (list Market) :=
  keeper_method modulePerms PermRead (iterateMarkets (λ acc m, (acc ++ [m], true))%list []).

Definition matches (params : MarketsReq) (m : Market) : bool :=
  negb (BaseDenomFilter params && negb (bool_decide (mkt_BaseAssetDenom m = mr_BaseAssetDenom params))) &&
  negb (QuoteDenomFilter params && negb (bool_decide (mkt_QuoteAssetDenom m = mr_QuoteAssetDenom params))) &&
  negb (MarketsReq_AssetCodeFilter params && negb (bool_decide (mr_AssetCode params = GetAssetCode m))).

(** A pagination error gives an empty list. *)
Definition GetListFiltered (params : MarketsReq) : M (list Market) :=
  keeper_method modulePerms PermRead (
    filteredMarkets ← iterateMarkets (λ acc m, (if matches params m then acc ++ [m] else acc, true))%list [];
    match PaginateSlice (Z.of_nat (length filteredMarkets)) (mr_Page params) (mr_Limit params) with
    | Ok (start, stop) => lift (slice filteredMarkets start stop)
    | Err _ => mret []
    | Panic => panic
    end).

Definition InitGenesis (state : GenesisState) : M unit :=
  keeper_method modulePerms PermInit (
    match gs_LastMarketID state with Some id => setLastID id | None => mret tt end;;
    forM (gs_Markets state) (λ market,
      hasBase ← ccs_HasCurrency (mkt_BaseAssetDenom market);
      if negb hasBase then panic
      else
        hasQuote ← ccs_HasCurrency (mkt_QuoteAssetDenom market);
        if negb hasQuote then panic else set market)).

Definition ExportGenesis : M GenesisState :=
  in_module ModuleName (
    markets ← GetList;
    lastID ← getLastMarketID;
    mret (MkGenesisState markets lastID)).

(** ** The message handler *)
Inductive Msg := Msg_CreateMarket (msg : MsgCreateMarket) | Msg_other.

Definition handleMsgCreateMarket (msg : MsgCreateMarket) : M Result :=
  market ← Add (mcm_BaseAssetDenom msg) (mcm_QuoteAssetDenom msg);
  EmitEvent (NewModuleNameEvent ModuleName);;
  events ← Events;
  mret (MkResult (Marshal LengthPrefixed market) events).

Definition NewHandler (msg : Msg) : M Result :=
  in_module ModuleName (WithEventManager
    match msg with
    | Msg_CreateMarket msg => handleMsgCreateMarket msg
    | Msg_other => throw ErrUnknownRequest
    end).
End keeper.

Definition NewKeeper (permsRequesters : list RequestModulePermissions) : outcome ModulePermissions :=
  foldM AutoAddRequester NewModulePerms permsRequesters.
End markets.
