(* ===== verification/MarketsFacts.v ===== *)
(** * Markets: price arithmetic

    [BaseToQuoteQuantity] multiplies a price and a quantity in 18-digit decimals and
    cuts the product to whole quote units.  Its result is pinned down to a unit, and
    it is monotone: a smaller quantity never costs more and never overflows. *)
From S2P Require Import Prelude Bytes Sdk SdkRef SdkFacts DnTypes Perms Chain Currency VMStorage CCStorage Markets.
Local Open Scope string_scope.
Local Open Scope Z_scope.

Section arithmetic.
Context `{SdkTypesLaws}.

Lemma NewUintFromBigInt_inv z r : NewUintFromBigInt z = Ok r → r = z ∧ 0 ≤ z < maxUint.
Proof.
  intros Hr. destruct (decide (0 ≤ z < maxUint)) as [Hz|Hz].
  - rw NewUintFromBigInt_ok in Hr; [|done]. by ok_inv.
  - rw NewUintFromBigInt_range in Hr; [done|lia].
Qed.

Lemma NewIntFromBigInt_inv z r : NewIntFromBigInt z = Ok r → r = z ∧ - maxInt < z < maxInt.
Proof.
  intros Hr. destruct (decide (- maxInt < z < maxInt)) as [Hz|Hz].
  - rw NewIntFromBigInt_ok in Hr; [|done]. by ok_inv.
  - rw NewIntFromBigInt_overflow in Hr; [done|lia].
Qed.

Lemma NewCoin_inv d a c : NewCoin d a = Ok c → c = MkCoin d a ∧ ValidateDenom d = true ∧ 0 ≤ a.
Proof.
  intros Hr. destruct (ValidateDenom d) eqn:Ed.
  - destruct (decide (0 ≤ a)).
    + rw NewCoin_ok in Hr; [|done..]. by ok_inv.
    + rw NewCoin_panic in Hr; [done|lia].
  - rw NewCoin_panic in Hr; [done|by left].
Qed.

Lemma Dec_Mul_inv a b r : Dec_Mul a b = Ok r → 2 * Z.abs (r * Precision - a * b) ≤ Precision.
Proof. destruct (Dec_Mul_sound a b) as [->|(? & -> & ?)]; naive_solver. Qed.

Lemma Dec_Quo_inv a b r : Dec_Quo a b = Ok r →
  2 * Precision * Z.abs (r * b - a * Precision) ≤ (Precision + 2) * Z.abs b.
Proof. destruct (Dec_Quo_sound a b) as [->|(? & -> & ?)]; naive_solver. Qed.

Lemma Dec_TruncateInt_inv a n : Dec_TruncateInt a = Ok n → n = Z.quot a Precision.
Proof. destruct (Dec_TruncateInt_sound a) as [->| ->]; naive_solver. Qed.

Lemma UintToDec_inv c q d : 0 ≤ cur_Decimals c → UintToDec c q = Ok d →
  decimals_ok c ∧ d = q * 10 ^ (18 - cur_Decimals c).
Proof.
  intros Hc Hd. destruct (decide (cur_Decimals c ≤ 18)).
  - assert (decimals_ok c) as Hok by done. rw UintToDec_ok in Hd; [|done]. by ok_inv.
  - unfold UintToDec in Hd. rw NewDecFromIntWithPrec_panic in Hd; [done|lia].
Qed.

Lemma DecToUint_inv c d v : decimals_ok c → 0 ≤ d → DecToUint c d = Ok v →
  v = d / 10 ^ (18 - cur_Decimals c).
Proof.
  intros Hc Hd Hv. pose proof (pow10_split _ Hc) as Hs. pose proof Hc as [Hc1 Hc2].
  pose proof (pow10_pos' (cur_Decimals c) Hc1). pose proof (pow10_pos' (18 - cur_Decimals c) ltac:(lia)).
  unfold DecToUint in Hv. rw MinDecimal_ok in Hv; [|done].
  rw outcome_bind_ok in Hv. ok_inv.
  apply NewUintFromBigInt_inv in Hv as [-> _]. apply Dec_TruncateInt_inv in Hrun0 as ->.
  apply Dec_Quo_inv in Hrun.
  set (A := 10 ^ (18 - cur_Decimals c)) in *. set (B := 10 ^ cur_Decimals c) in *.
  assert (v0 = d * B) as ->.
  { apply (near_eq Precision _ _ (Precision - 1)); [done|lia|].
    rw (Z.abs_eq A) in Hrun; [|lia]. rw -Hs in Hrun.
    assert (v0 * A - d * (B * A) = (v0 - d * B) * A) as E by lia. rw E Z.abs_mul (Z.abs_eq A) in Hrun; [|lia].
    assert (2 * (B * A) * Z.abs (v0 - d * B) ≤ B * A + 2); [|pose proof Precision_gt_2; rw -Hs; lia].
    apply (Z.mul_le_mono_pos_r _ _ A); lia. }
  rw Z.quot_div_nonneg; [|nia|done]. rw -Hs (Z.mul_comm d). by apply Z.div_mul_cancel_l; lia.
Qed.

Lemma DecToUint_no_error c d e : decimals_ok c → DecToUint c d ≠ Err e.
Proof.
  intros Hc He. unfold DecToUint in He. rw MinDecimal_ok in He; [|done]. rw outcome_bind_ok in He.
  destruct (Dec_Quo_sound d (10 ^ (18 - cur_Decimals c))) as [E|(r & E & _)]; rw E in He; [done|].
  rw outcome_bind_ok in He.
  destruct (Dec_TruncateInt_sound r) as [E'|E']; rw E' in He; [done|]. rw outcome_bind_ok in He.
  destruct (decide (0 ≤ Z.quot r Precision < maxUint)).
  - by rw NewUintFromBigInt_ok in He.
  - rw NewUintFromBigInt_range in He; [done|lia].
Qed.

Lemma DecToUint_smaller c d d' v : decimals_ok c → 0 ≤ d' ≤ d → DecToUint c d = Ok v →
  ∃ v', DecToUint c d' = Ok v' ∧ v' ≤ v.
Proof.
  intros Hc Hd Hv. pose proof (DecToUint_inv c d v Hc ltac:(lia) Hv) as Ev.
  pose proof (pow10_pos' (18 - cur_Decimals c) ltac:(destruct Hc; lia)) as HA.
  assert (∃ v', DecToUint c d' = Ok v') as [v' Hv'].
  { unfold DecToUint in *. rw MinDecimal_ok in Hv; [|done]. rw MinDecimal_ok; [|done].
    rw outcome_bind_ok in Hv. rw outcome_bind_ok. ok_inv.
    destruct (Dec_Quo_smaller d d' _ v0 ltac:(lia) Hrun) as [q' Hq']. rw Hq' outcome_bind_ok.
    pose proof (Dec_Quo_inv _ _ _ Hrun) as S1. pose proof (Dec_Quo_inv _ _ _ Hq') as S2.
    set (A := 10 ^ (18 - cur_Decimals c)) in *. rw (Z.abs_eq A) in S1; [|lia]. rw (Z.abs_eq A) in S2; [|lia].
    pose proof Precision_gt_2.
    assert (Z.abs (v0 * A - d * Precision) < A) by (apply (Z.mul_lt_mono_pos_l (2 * Precision)); nia).
    assert (Z.abs (q' * A - d' * Precision) < A) by (apply (Z.mul_lt_mono_pos_l (2 * Precision)); nia).
    assert (0 ≤ q') by (assert (- 1 < q'); [|lia]; apply (Z.mul_lt_mono_pos_r A); nia).
    assert (q' ≤ v0 ∨ d' = d) as [Hle| ->].
    { destruct (decide (d' = d)); [by right|left]. assert (d' * Precision + Precision ≤ d * Precision) by nia.
      assert (q' < v0 + 1); [|lia]. apply (Z.mul_lt_mono_pos_r A); [lia|].
      assert (A ≤ Precision); [|nia]. unfold A, Precision. apply Z.pow_le_mono_r; destruct Hc; lia. }
    - destruct (Dec_TruncateInt_smaller v0 q' _ ltac:(lia) Hrun0) as [n' Hn']. rw Hn' outcome_bind_ok.
      pose proof (Dec_TruncateInt_inv _ _ Hrun0) as E0. pose proof (Dec_TruncateInt_inv _ _ Hn') as E1.
      apply NewUintFromBigInt_inv in Hv as [_ Hb]. exists n'. apply NewUintFromBigInt_ok.
      rw E1. split; [apply Z.quot_pos; [lia|done]|].
      eapply Z.le_lt_trans; [apply (Z.quot_le_mono q' v0); [done|lia]|rw -E0; lia].
    - rw Hrun in Hq'. injection Hq' as <-. rw Hrun0. eauto. }
  exists v'. split; [done|]. rw (DecToUint_inv c d' v' Hc ltac:(lia) Hv') Ev. apply Z.div_le_mono; lia.
Qed.

Definition market_decimals (m : MarketExtended) : Prop :=
  0 ≤ cur_Decimals (me_BaseCurrency m) ∧ 0 ≤ cur_Decimals (me_QuoteCurrency m).

(** A cost that is computed: the rounded product, cut to quote units. *)
Lemma BaseToQuote_inv m p q v :
  market_decimals m → 0 ≤ p → 0 ≤ q → markets.BaseToQuoteQuantity m p q = Ok v →
  let A := 10 ^ (18 - cur_Decimals (me_QuoteCurrency m)) in
  let B := 10 ^ (18 - cur_Decimals (me_BaseCurrency m)) in
  decimals_ok (me_BaseCurrency m) ∧ decimals_ok (me_QuoteCurrency m) ∧
  ∃ r, Dec_Mul (p * A) (q * B) = Ok r ∧ A ≤ r ∧ v = r / A.
Proof.
  intros [Hb Hq] Hp Hqq Hv A B. unfold markets.BaseToQuoteQuantity in Hv. ok_inv.
  apply UintToDec_inv in Hrun as [Hqo ->]; [|done]. apply UintToDec_inv in Hrun0 as [Hbo ->]; [|done].
  rw MinDecimal_ok in Hrun2; [|done]. injection Hrun2 as <-. apply Z.ltb_ge in Eb.
  split; [done|]. split; [done|]. exists v2. split; [done|]. split; [done|].
  apply DecToUint_inv; [done| |done]. pose proof (pow10_pos' (18 - cur_Decimals (me_QuoteCurrency m)) ltac:(destruct Hqo; lia)). lia.
Qed.

(** A smaller quantity costs no more, and is computed whenever the larger one is
    not a panic. *)
Lemma BaseToQuote_smaller m p q q' :
  market_decimals m → 0 ≤ p → 0 ≤ q' ≤ q → markets.BaseToQuoteQuantity m p q ≠ Panic →
  markets.BaseToQuoteQuantity m p q' ≠ Panic ∧
  ∀ v', markets.BaseToQuoteQuantity m p q' = Ok v' →
    ∃ v, markets.BaseToQuoteQuantity m p q = Ok v ∧ v' ≤ v.
Proof.
  intros [Hb Hq] Hp Hle Hnp. unfold markets.BaseToQuoteQuantity in *.
  destruct (UintToDec (me_QuoteCurrency m) p) as [pd|e|] eqn:Ep; [|split; [done|discriminate]|done].
  apply UintToDec_inv in Ep as [Hqo ->]; [|done]. rw !outcome_bind_ok in Hnp |- *.
  destruct (decide (cur_Decimals (me_BaseCurrency m) ≤ 18)) as [Hb'|Hb'].
  2:{ exfalso. apply Hnp. unfold UintToDec. rw NewDecFromIntWithPrec_panic; [done|lia]. }
  assert (decimals_ok (me_BaseCurrency m)) as Hbo by done.
  rw !(UintToDec_ok (me_BaseCurrency m)) in Hnp |- *; [|done..]. rw !outcome_bind_ok in Hnp |- *.
  pose proof (pow10_pos' (18 - cur_Decimals (me_QuoteCurrency m)) ltac:(destruct Hqo; lia)) as HA.
  pose proof (pow10_pos' (18 - cur_Decimals (me_BaseCurrency m)) ltac:(lia)) as HB.
  rw !(MinDecimal_ok (me_QuoteCurrency m)) in Hnp |- *; [|done..].
  set (A := 10 ^ (18 - cur_Decimals (me_QuoteCurrency m))) in *.
  set (B := 10 ^ (18 - cur_Decimals (me_BaseCurrency m))) in *.
  destruct (Dec_Mul_sound (p * A) (q * B)) as [Er|(r & Er & Hr)].
  { by rw Er in Hnp. }
  destruct (Dec_Mul_smaller (p * A) (q * B) (p * A) (q' * B) r) as [r' Er'];
    [|done|].
  { rw !Z.abs_eq; [|repeat apply Z.mul_nonneg_nonneg; lia..]. apply Z.mul_le_mono_nonneg_l; [nia|].
    apply Z.mul_le_mono_nonneg_r; lia. }
  pose proof (Dec_Mul_inv _ _ _ Er') as Hr'.
  rw Er in Hnp |- *. rw Er'. rw !outcome_bind_ok in Hnp |- *.
  assert (r' ≤ r) as Hrr.
  { destruct (decide (p * A * (q' * B) = p * A * (q * B))) as [E|].
    - destruct (decide (p = 0)) as [->|]; [|].
      + rw Z.mul_0_l in Er Er'. rw Z.mul_0_l in Hr. rw Z.mul_0_l in Hr'. pose proof Precision_gt_2.
        rw Z.sub_0_r in Hr. rw Z.sub_0_r in Hr'.
        assert (r = 0) by (apply (near_multiple Precision); lia). assert (r' = 0) by (apply (near_multiple Precision); lia). lia.
      + apply Z.mul_reg_l in E; [|nia]. apply Z.mul_reg_r in E; [|lia]. subst q'. rw Er in Er'. by injection Er' as ->.
    - pose proof Precision_gt_2. assert (p * A * (q' * B) ≤ p * A * (q * B)).
      { apply Z.mul_le_mono_nonneg_l; [nia|]. apply Z.mul_le_mono_nonneg_r; lia. }
      assert (r' < r + 1); [|lia]. apply (Z.mul_lt_mono_pos_r Precision); lia. }
  assert (0 ≤ r').
  { pose proof Precision_gt_2. assert (0 ≤ p * A * (q' * B)) by (repeat apply Z.mul_nonneg_nonneg; lia).
    assert (- 1 < r'); [|lia]. apply (Z.mul_lt_mono_pos_r Precision); lia. }
  destruct (Z.ltb_spec r' A); [split; [done|discriminate]|].
  destruct (Z.ltb_spec r A); [lia|].
  destruct (DecToUint (me_QuoteCurrency m) r) as [v|e|] eqn:Ev; [|..|done].
  - destruct (DecToUint_smaller _ r r' v Hqo ltac:(lia) Ev) as (v' & -> & Hv'). split; [done|].
    intros w [= <-]. by exists v.
  - exfalso. by apply (DecToUint_no_error _ r e Hqo).
Qed.
(** ** The cost, independently of the decimals

    [cost_rounded m p q r]: [r] is the cost of [q] base units at the price [p], in
    [10 ^ 18]ths of a whole quote coin, rounded to the nearest. *)
Definition cost_unit (m : MarketExtended) : Z := 10 ^ cur_Decimals (me_BaseCurrency m).
Definition cost_scale (m : MarketExtended) : Z := 10 ^ (18 - cur_Decimals (me_QuoteCurrency m)).
Definition cost_rounded (m : MarketExtended) (p q r : Z) : Prop :=
  2 * Z.abs (r * cost_unit m - p * q * cost_scale m) ≤ cost_unit m.

(** The cost is [v] whole quote units, and at least one; or less than one. *)
Definition quote_value m p q v : Prop := ∃ r, cost_rounded m p q r ∧ 0 < cost_scale m ≤ r ∧ v = r / cost_scale m.
Definition worthless m p q : Prop := ∃ r, cost_rounded m p q r ∧ r < cost_scale m.

Lemma rounded_scale P A B D p q r :
  0 < B → B * D = P → 2 * Z.abs (r * P - p * A * (q * B)) ≤ P → 2 * Z.abs (r * D - p * q * A) ≤ D.
Proof.
  intros HB HP Hr. rw -HP in Hr. assert (r * (B * D) - p * A * (q * B) = (r * D - p * q * A) * B) as E by lia.
  rw E Z.abs_mul (Z.abs_eq B) in Hr; [|lia]. apply (Z.mul_le_mono_pos_r _ _ B); lia.
Qed.

Lemma Dec_Mul_cost m p q r : decimals_ok (me_BaseCurrency m) → decimals_ok (me_QuoteCurrency m) →
  Dec_Mul (p * 10 ^ (18 - cur_Decimals (me_QuoteCurrency m))) (q * 10 ^ (18 - cur_Decimals (me_BaseCurrency m))) = Ok r →
  cost_rounded m p q r.
Proof.
  intros Hb Hq Hr%Dec_Mul_inv. eapply rounded_scale; [|by rw Z.mul_comm; apply (pow10_split _ Hb)|exact Hr].
  apply pow10_pos'. destruct Hb; lia.
Qed.

Lemma quote_value_inv m p q v : market_decimals m → 0 ≤ p → 0 ≤ q →
  markets.BaseToQuoteQuantity m p q = Ok v → quote_value m p q v.
Proof.
  intros Hm Hp Hq Hv. destruct (BaseToQuote_inv m p q v Hm Hp Hq Hv) as (Hb & Hqo & r & Hr & Hmin & ->).
  exists r. split; [by apply Dec_Mul_cost|]. split; [|done]. split; [|done]. apply pow10_pos'. destruct Hqo; lia.
Qed.

(** The only error: the cost is less than one unit. *)
Lemma worthless_inv m p q e : market_decimals m → 0 ≤ p → 0 ≤ q →
  markets.BaseToQuoteQuantity m p q = Err e → e = markets.ErrInvalidQuantity ∧ worthless m p q.
Proof.
  intros [Hb Hq] Hp Hqq He. unfold markets.BaseToQuoteQuantity in He.
  destruct (decide (cur_Decimals (me_QuoteCurrency m) ≤ 18)); [|rw (UintToDec_panics (me_QuoteCurrency m)) in He; [discriminate He|lia]].
  assert (decimals_ok (me_QuoteCurrency m)) as Hqo by done. rw (UintToDec_ok (me_QuoteCurrency m)) in He; [|done]. rw outcome_bind_ok in He.
  destruct (decide (cur_Decimals (me_BaseCurrency m) ≤ 18)); [|rw (UintToDec_panics (me_BaseCurrency m)) in He; [discriminate He|lia]].
  assert (decimals_ok (me_BaseCurrency m)) as Hbo by done. rw (UintToDec_ok (me_BaseCurrency m)) in He; [|done]. rw outcome_bind_ok in He.
  destruct (Dec_Mul_sound (p * 10 ^ (18 - cur_Decimals (me_QuoteCurrency m)))
    (q * 10 ^ (18 - cur_Decimals (me_BaseCurrency m)))) as [E|(r & E & _)]; rw E in He; [done|].
  rw outcome_bind_ok MinDecimal_ok in He; [|done]. rw outcome_bind_ok in He.
  destruct (Z.ltb_spec r (10 ^ (18 - cur_Decimals (me_QuoteCurrency m)))); [|by apply DecToUint_no_error in He].
  injection He as <-. split; [done|]. exists r. split; [by apply Dec_Mul_cost|done].
Qed.

(** Both in terms of the plain product of price and quantity. *)
Lemma cost_unit_pos m : market_decimals m → 0 < cost_unit m.
Proof. intros []. by apply pow10_pos'. Qed.

Lemma quote_value_worth m p q v : market_decimals m → quote_value m p q v → 1 ≤ v ∧ cost_unit m ≤ 2 * (p * q).
Proof.
  intros Hm (r & Hr & [Hs Hle] & ->). pose proof (cost_unit_pos m Hm). unfold cost_rounded in Hr.
  set (D := cost_unit m) in *. set (A := cost_scale m) in *. split.
  - assert (0 < r / A); [|lia]. by apply Z.div_str_pos.
  - assert (D * (2 * A - 1) ≤ 2 * (p * q) * A) by nia.
    destruct (decide (D ≤ 2 * (p * q))); [done|]. assert (2 * (p * q) * A + A ≤ D * A) by nia. nia.
Qed.

Lemma worthless_small m p q : market_decimals m → 0 ≤ p → 0 ≤ q → worthless m p q → p * q < cost_unit m.
Proof.
  intros Hm Hp Hq (r & Hr & Hlt). pose proof (cost_unit_pos m Hm). unfold cost_rounded in Hr.
  set (D := cost_unit m) in *. set (A := cost_scale m) in *.
  destruct (decide (p * q < D)); [done|]. assert (0 ≤ A) by (apply Z.pow_nonneg; lia).
  assert (D * A ≤ p * q * A) by nia. assert (r * D ≤ (A - 1) * D) by nia. lia.
Qed.

(** The bounds below, in the abstract. *)
Lemma quote_bounds P A B D p q r v :
  0 < A → 0 < B → 0 < D → B * D = P → 2 * Z.abs (r * P - p * A * (q * B)) ≤ P → A ≤ r → v = r / A →
  1 ≤ v ∧ p * q < (v + 1) * D ∧ 2 * v * D ≤ 2 * (p * q) + D.
Proof.
  intros HA HB HD HP Hr Hmin ->. pose proof (Z.div_mod r A ltac:(lia)) as Hdm.
  pose proof (Z.mod_pos_bound r A HA) as Hmod. set (v := r / A) in *. set (m := r mod A) in *. clearbody v m.
  assert (2 * Z.abs (r * D - p * A * q) ≤ D) as Hr'.
  { pose proof (rounded_scale P A B D p q r HB HP Hr). by replace (p * A * q) with (p * q * A) by lia. }
  subst r. clear Hr HP. split_and!.
  - assert (0 < v); [|lia]. apply (Z.mul_lt_mono_pos_l A); nia.
  - apply (Z.mul_lt_mono_pos_l A); [done|]. assert (m * D ≤ A * D - D) by nia. lia.
  - assert (2 * v * D * A ≤ (2 * (p * q) + D) * A); [|by apply (Z.mul_le_mono_pos_r _ _ A)].
    assert (0 ≤ m * D) by nia. assert (D ≤ D * A) by nia. lia.
Qed.
End arithmetic.

(** The quote quantity of a price and a base quantity is at least one unit and
    is the exact product to the unit: rounded at most half a unit up and less than
    one unit down. *)
Theorem BaseToQuoteQuantity_bounds `{SdkTypesLaws} m p q v :
  market_decimals m → 0 ≤ p → 0 ≤ q → markets.BaseToQuoteQuantity m p q = Ok v →
  let unit := 10 ^ cur_Decimals (me_BaseCurrency m) in
  1 ≤ v ∧ p * q < (v + 1) * unit ∧ 2 * v * unit ≤ 2 * (p * q) + unit.
Proof.
  intros Hm Hp Hq Hv unit. destruct (BaseToQuote_inv m p q v Hm Hp Hq Hv) as (Hb & Hqo & r & Hr & Hmin & Ev).
  apply Dec_Mul_inv in Hr. pose proof (pow10_split _ Hb) as Hs. destruct Hb as [Hb1 Hb2], Hqo as [Hq1 Hq2].
  eapply quote_bounds; [..|exact Hr|exact Hmin|exact Ev].
  - apply pow10_pos'. lia.
  - apply pow10_pos'. lia.
  - by apply pow10_pos'.
  - unfold unit. by rw Z.mul_comm.
Qed.

Lemma BaseToQuoteQuantity_bounds_witness :
  let m := MkMarketExtended 0 (MkCurrency "btc" 8 0 "") (MkCurrency "usdt" 6 0 "") in
  markets.BaseToQuoteQuantity m 9000000001 150000000 = Ok 13500000001 ∧
  9000000001 * 150000000 < 13500000002 * 10 ^ 8.
Proof.
  intros m. assert (markets.BaseToQuoteQuantity m 9000000001 150000000 = Ok 13500000001) as E by (vm_compute; reflexivity).
  split; [exact E|]. apply (BaseToQuoteQuantity_bounds m 9000000001 150000000 13500000001); [split; vm_compute; discriminate|discriminate|discriminate|exact E].
Defined.

(** ** Reading markets *)
Section reading.
Context `{ST : SdkTypes} `{KV : KVStore} `{LG : Ledger} `{CS : !CurrencyStorage}.
Context `{CM : !Codec Market} `{CI : !Codec Z}.
Context (clients : string → Prop) (ccs_store : string) `{CSL : !CurrencyStorageLaws clients ccs_store}.
Variable marketsPerms : ModulePermissions.
Hypothesis markets_client : clients (mp_name marketsPerms).
Import markets.

Lemma reads_ccs_GetCurrency denom : reads (ccs_GetCurrency denom).
Proof. eapply ccs_GetCurrency_reads. Qed.
Lemma reads_ccs_HasCurrency denom : reads (ccs_HasCurrency denom).
Proof. eapply ccs_HasCurrency_reads. Qed.
#[local] Hint Resolve reads_ccs_GetCurrency reads_ccs_HasCurrency : reads.

Lemma reads_iterateMarkets {B} (handler : B → Market → B * bool) acc : reads (iterateMarkets handler acc).
Proof. unfold iterateMarkets, decode_market. auto with reads. Qed.
#[local] Hint Resolve reads_iterateMarkets : reads.

Lemma reads_GetListFiltered params : reads (GetListFiltered marketsPerms params).
Proof.
  unfold GetListFiltered. apply reads_keeper_method, reads_bind; [auto with reads|].
  intros l. destruct (PaginateSlice _ _ _) as [[]| |]; auto with reads.
Qed.

Lemma reads_Get id : reads (Get marketsPerms id).
Proof.
  unfold Get, decode_market. apply reads_keeper_method, reads_bind; [auto with reads|].
  intros [bz|]; auto with reads.
Qed.
#[local] Hint Resolve reads_Get : reads.

Lemma reads_GetExtended id : reads (GetExtended marketsPerms id).
Proof.
  unfold GetExtended. apply reads_keeper_method, reads_bind; [auto with reads|]. intros m.
  apply reads_bind; [auto with reads|]. intros b. apply reads_bind; [auto with reads|]. intros q.
  destruct b, q; auto with reads.
Qed.

(** The currencies of an extended market are registered ones. *)
Lemma GetExtended_inv id caller c me c' :
  ccs_wf (ctx_stores c ccs_store) → GetExtended marketsPerms id caller c = (Ok me, c') →
  cur_read (ctx_stores c ccs_store) (BaseDenom me) = Some (me_BaseCurrency me) ∧
  cur_read (ctx_stores c ccs_store) (QuoteDenom me) = Some (me_QuoteCurrency me) ∧ market_decimals me.
Proof.
  intros Hwf Hrun. unfold GetExtended in Hrun. m_inv.
  pose proof (reads_run _ _ _ _ _ (reads_Get _) Hm) as ->.
  assert (∀ denom cur cx, ccs_GetCurrency denom (mp_name marketsPerms) c = (Ok cur, cx) →
    cx = c ∧ cur_Denom cur = denom ∧ cur_read (ctx_stores c ccs_store) denom = Some cur ∧ 0 ≤ cur_Decimals cur) as Hcur.
  { intros denom cur cx Hg. destruct (cur_read (ctx_stores c ccs_store) denom) as [cur'|] eqn:Er.
    - rw (ccs_GetCurrency_Some _ c denom cur' markets_client Hwf Er) in Hg. injection Hg as -> ->.
      split; [done|]. split; [by eapply cur_read_denom|]. split; [done|]. by eapply cur_read_decimals.
    - destruct (ccs_GetCurrency_None _ c denom markets_client Hwf Er) as [e He]. by rw He in Hg. }
  pose proof (reads_run _ _ _ _ _ (reads_ccs_GetCurrency _) Hm0) as ->.
  pose proof (reads_run _ _ _ _ _ (reads_ccs_GetCurrency _) Hm1) as ->.
  destruct v0 as [b| |], v1 as [q| |]; m_inv.
  apply Hcur in Hm0 as (_ & Hd1 & Hb & ?). apply Hcur in Hm1 as (_ & Hd2 & Hq & ?).
  unfold BaseDenom, QuoteDenom, NewMarketExtended. simpl. rw Hd1 Hd2. done.
Qed.
End reading.
