(* ===== verification/Orders.v ===== *)
(** * Orders ([x/orders])

    An order locks its owner's coins when it is posted; revoking it (by its owner,
    or by the end blocker when its time to live is over) unlocks them; the
    matcher's fills reduce or remove it and pay the owner. *)
From S2P Require Import Prelude Bytes Sdk SdkRef SdkFacts DnTypes Perms Chain Currency VMStorage CCStorage Markets.
Local Open Scope string_scope.
Local Open Scope Z_scope.

(** [Direction] is a string enum: other strings reach the code. *)
Notation Direction := string (only parsing).

(** Times are nanoseconds since the Unix epoch, durations are [int64] nanoseconds. *)
Record Order := MkOrder {
  o_ID : ID;
  o_Owner : AccAddress;
  o_Market : MarketExtended;
  o_Direction : Direction;
  o_Price : Uint;
  o_Quantity : Uint;
  o_Ttl : Z;
  o_CreatedAt : Z;
  o_UpdatedAt : Z;
}.

#[export] Instance order_eq_dec : EqDecision Order.
Proof. solve_decision. Defined.

(** The matcher's decision about one order. *)
Record OrderFill := MkOrderFill {
  f_Order : Order;
  f_ClearancePrice : Uint;
  f_QuantityFilled : Uint;
  f_QuantityUnfilled : Uint;
}.

Module orders.

Definition ModuleName := "orders".
Definition StoreKey := ModuleName.
Definition PermOrderPost := ModuleName +:+ "PermOrderPost".
Definition PermOrderRevoke := ModuleName +:+ "PermOrderRevoke".
Definition PermInit := ModuleName +:+ "PermInit".
Definition PermRead := ModuleName +:+ "PermRead".
Definition PermOrderLock := ModuleName +:+ "PermOrderLock".
Definition PermOrderUnlock := ModuleName +:+ "PermOrderUnlock".
Definition PermExecFill := ModuleName +:+ "PermExecFill".
Definition AvailablePermissions : list string :=
  [PermOrderPost; PermOrderRevoke; PermInit; PermRead; PermOrderLock; PermOrderUnlock; PermExecFill].
Definition NewModulePerms : ModulePermissions := NewModulePermissions ModuleName AvailablePermissions.
Definition RequestMarketsPerms : RequestModulePermissions := (ModuleName, [markets.PermRead]).

Definition ErrInternal := Registered ModuleName 100.
Definition ErrWrongMarketID := Registered ModuleName 101.
Definition ErrWrongOwner := Registered ModuleName 102.
Definition ErrWrongPrice := Registered ModuleName 103.
Definition ErrWrongQuantity := Registered ModuleName 104.
Definition ErrWrongTtl := Registered ModuleName 105.
Definition ErrWrongDirection := Registered ModuleName 106.
Definition ErrWrongOrderID := Registered ModuleName 107.
Definition ErrWrongAssetCode := Registered ModuleName 108.

(** ** Directions *)
Definition Bid : Direction := "bid".
Definition Ask : Direction := "ask".
Definition Direction_IsValid (d : Direction) : bool := bool_decide (d = Bid) || bool_decide (d = Ask).
Definition Direction_Equal (d d2 : Direction) : bool := bool_decide (d = d2).

(** ** Keys *)
Definition KeyDelimiter := ":".
Definition OrderKeyPrefix := "order".
Definition LastOrderIDKey := "last_order_id".

(** [id.UInt64()] panics on an ID of more than 64 bits. *)
Definition GetOrderKey `{SdkTypes} (id : ID) : outcome string :=
  n ← ID_UInt64 id; Ok (Join KeyDelimiter [OrderKeyPrefix; Uint64ToBigEndian n]).

Section types.
Context `{ST : SdkTypes}.

(** ** Orders *)

(** [now] is the validator's wall clock. *)
Definition Order_Valid (now : Z) (o : Order) : outcome unit :=
  ID_Valid (Some (o_ID o));;
  fail_if (bool_decide (o_Owner o = "")) (Plain "owner: empty");;
  fail_if (negb (VerifyAddressFormat (o_Owner o))) (Plain "owner address format is wrong");;
  markets.MarketExtended_Valid (o_Market o);;
  fail_if (negb (Direction_IsValid (o_Direction o))) (Plain "direction: invalid");;
  fail_if (o_Price o =? 0) (Plain "price: is zero");;
  fail_if (o_Quantity o =? 0) (Plain "quantity: is zero");;
  fail_if (o_UpdatedAt o <? o_CreatedAt o) (Plain "wrong create and update dates");;
  fail_if (o_CreatedAt o =? zero_time) (Plain "created_at: is zero");;
  fail_if (now <? o_CreatedAt o) (Plain "created_at: is future date");;
  fail_if (o_UpdatedAt o =? zero_time) (Plain "updated_at: is zero");;
  fail_if (now <? o_UpdatedAt o) (Plain "updated_at: is future date").

Definition ValidatePriceQuantity (o : Order) : outcome unit :=
  minQuotePrice ← MinDecimal (me_QuoteCurrency (o_Market o));
  quotePrice ← UintToDec (me_QuoteCurrency (o_Market o)) (o_Price o);
  minBaseQuantity ← MinDecimal (me_BaseCurrency (o_Market o));
  baseQuantity ← UintToDec (me_BaseCurrency (o_Market o)) (o_Quantity o);
  fail_if (quotePrice <? minQuotePrice) ErrWrongPrice;;
  fail_if (baseQuantity <? minBaseQuantity) ErrWrongQuantity.

(** A bid locks the quote coins of its limit price, an ask its base coins. *)
Definition LockCoin (o : Order) : outcome Coin :=
  if bool_decide (o_Direction o = Bid) then
    quantity ← markets.BaseToQuoteQuantity (o_Market o) (o_Price o) (o_Quantity o);
    coinQuantity ← NewIntFromBigInt quantity;
    NewCoin (markets.QuoteDenom (o_Market o)) coinQuantity
  else if bool_decide (o_Direction o = Ask) then
    coinQuantity ← NewIntFromBigInt (o_Quantity o);
    NewCoin (markets.BaseDenom (o_Market o)) coinQuantity
  else Err ErrWrongDirection.

Definition NewOrder (blockTime : Z) (id : ID) (owner : AccAddress) (market : MarketExtended)
    (direction : Direction) (price quantity : Uint) (ttlInSec : Z) : Order :=
  MkOrder id owner market direction price quantity (int64 (int64 ttlInSec * 10 ^ 9)) blockTime blockTime.

(** ** Fills *)

(** What the owner receives: base coins for a bid, quote coins for an ask. *)
Definition FillCoin (f : OrderFill) : outcome Coin :=
  let o := f_Order f in
  if bool_decide (o_Direction o = Bid) then
    coinQuantity ← NewIntFromBigInt (f_QuantityFilled f);
    NewCoin (markets.BaseDenom (o_Market o)) coinQuantity
  else if bool_decide (o_Direction o = Ask) then
    quantity ← markets.BaseToQuoteQuantity (o_Market o) (f_ClearancePrice f) (f_QuantityFilled f);
    coinQuantity ← NewIntFromBigInt quantity;
    NewCoin (markets.QuoteDenom (o_Market o)) coinQuantity
  else Err ErrWrongDirection.

(** [(doRefund, retCoin)]: a bid that cleared below its limit price. *)
Definition RefundCoin (f : OrderFill) : outcome (bool * option Coin) :=
  let o := f_Order f in
  if bool_decide (o_Direction o = Bid) then
    if f_ClearancePrice f <? o_Price o then
      priceDiff ← Uint_Sub (o_Price o) (f_ClearancePrice f);
      match markets.BaseToQuoteQuantity (o_Market o) priceDiff (f_QuantityFilled f) with
      | Ok quantity =>
          coinQuantity ← NewIntFromBigInt quantity;
          coin ← NewCoin (markets.QuoteDenom (o_Market o)) coinQuantity;
          Ok (true, Some coin)
      | Err _ => Ok (true, None)
      | Panic => Panic
      end
    else Ok (false, None)
  else if bool_decide (o_Direction o = Ask) then Ok (false, None)
  else Err ErrWrongDirection.

(** ** Events *)
Definition order_event (type : string) (order : Order) : Event :=
  MkEvent type
    [("owner", AccAddress_String (o_Owner order)); ("market_id", ID_String (me_ID (o_Market order)));
     ("order_id", ID_String (o_ID order)); ("direction", o_Direction order);
     ("price", Uint_String (o_Price order)); ("quantity", Uint_String (o_Quantity order))].
Definition NewOrderPostedEvent := order_event (ModuleName +:+ ".post").
Definition NewOrderCanceledEvent := order_event (ModuleName +:+ ".cancel").
Definition NewFullyFilledOrderEvent := order_event (ModuleName +:+ ".full_fill").
Definition NewPartiallyFilledOrderEvent := order_event (ModuleName +:+ ".partial_fill").

(** ** Messages *)
Record MsgPostOrder := MkMsgPostOrder {
  mpo_Owner : AccAddress; mpo_AssetCode : string; mpo_Direction : Direction;
  mpo_Price : Uint; mpo_Quantity : Uint; mpo_TtlInSec : Z }.

Definition MsgPostOrder_ValidateBasic (msg : MsgPostOrder) : outcome unit :=
  markets.wrap_err (AssetCode_Validate (mpo_AssetCode msg)) ErrWrongAssetCode;;
  fail_if (bool_decide (mpo_Owner msg = "")) ErrWrongOwner;;
  fail_if (negb (Direction_IsValid (mpo_Direction msg))) ErrWrongDirection;;
  fail_if (mpo_Price msg =? 0) ErrWrongPrice;;
  fail_if (mpo_Quantity msg =? 0) ErrWrongQuantity;;
  fail_if (mpo_TtlInSec msg =? 0) ErrWrongTtl.
Definition MsgPostOrder_GetSigners (msg : MsgPostOrder) : list AccAddress := [mpo_Owner msg].

Record MsgRevokeOrder := MkMsgRevokeOrder { mro_Owner : AccAddress; mro_OrderID : ID }.

Definition MsgRevokeOrder_ValidateBasic (msg : MsgRevokeOrder) : outcome unit :=
  fail_if (bool_decide (mro_Owner msg = "")) ErrWrongOwner;;
  markets.wrap_err (ID_Valid (Some (mro_OrderID msg))) ErrWrongOrderID.
Definition MsgRevokeOrder_GetSigners (msg : MsgRevokeOrder) : list AccAddress := [mro_Owner msg].

(** ** Query requests *)
Record OrdersReq := MkOrdersReq {
  or_Page : Uint; or_Limit : Uint; or_Owner : AccAddress; or_Direction : Direction; or_MarketID : string }.
Definition OwnerFilter (r : OrdersReq) : bool := negb (bool_decide (or_Owner r = "")).
Definition DirectionFilter (r : OrdersReq) : bool := Direction_IsValid (or_Direction r).
Definition MarketIDFilter (r : OrdersReq) : bool := negb (bool_decide (or_MarketID r = "")).

(** ** Genesis *)
Record GenesisState := MkGenesisState { gs_Orders : list Order; gs_LastOrderId : option ID }.
Definition DefaultGenesisState : GenesisState := MkGenesisState [] None.

Definition Validate_order (now blockTime : Z) (acc : ID * gset string) (order : Order) : outcome (ID * gset string) :=
  let (maxOrderID, ordersIdsSet) := acc in
  Order_Valid now order;;
  fail_if (negb (blockTime =? zero_time) && (blockTime <? o_CreatedAt order)) (Plain "create_at after block time");;
  fail_if (negb (blockTime =? zero_time) && (blockTime <? o_UpdatedAt order)) (Plain "updated_at after block time");;
  fail_if (bool_decide (ID_String (o_ID order) ∈ ordersIdsSet)) (Plain "duplicated ID");;
  Ok (if ID_GT (o_ID order) maxOrderID then o_ID order else maxOrderID, {[ID_String (o_ID order)]} ∪ ordersIdsSet).

Definition GenesisState_Validate (now blockTime : Z) (gs : GenesisState) : outcome unit :=
  acc ← foldM (Validate_order now blockTime) (NewZeroID, ∅) (gs_Orders gs);
  match gs_LastOrderId gs with
  | None => fail_if (negb (length (gs_Orders gs) =? 0)%nat) (Plain "last_order_id: nil with existing orders")
  | Some lastOrderId =>
      fail_if (length (gs_Orders gs) =? 0)%nat (Plain "last_order_id: not nil without existing orders");;
      ID_Valid (Some lastOrderId);;
      fail_if (negb (ID_Equal lastOrderId acc.1)) (Plain "last_order_id: not equal to max order ID")
  end.
End types.

(** ** The keeper

    The markets keeper is the repository's own: its permissions are a parameter. *)
Section keeper.
Context `{ST : SdkTypes} `{KV : KVStore} `{LG : Ledger} `{CS : !CurrencyStorage}.
Context `{CM : !Codec Market} `{CI : !Codec Z} `{CO : !Codec Order}.
Variable modulePerms marketsPerms : ModulePermissions.

(** *** Stored orders *)
Definition decode_order (bz : string) : M Order := MustUnmarshal LengthPrefixed bz.

Definition set (order : Order) : M unit :=
  key ← lift (GetOrderKey (o_ID order));
  kv_Set StoreKey key (Marshal LengthPrefixed order).

Definition del (id : ID) : M unit :=
  key ← lift (GetOrderKey id); kv_Delete StoreKey key.

Definition Has (id : ID) : M bool :=
  keeper_method modulePerms PermRead (key ← lift (GetOrderKey id); kv_Has StoreKey key).

Definition Get (id : ID) : M Order :=
  keeper_method modulePerms PermRead (
    key ← lift (GetOrderKey id);
    bz ← kv_Get StoreKey key;
    match bz with
    | None => throw ErrWrongOrderID
    | Some bz => decode_order bz
    end).

Definition GetIterator : M (list (string * string)) :=
  keeper_method modulePerms PermRead (kv_PrefixIterator StoreKey OrderKeyPrefix).

Definition GetReverseIterator : M (list (string * string)) :=
  keeper_method modulePerms PermRead (
    kvs ← kv_PrefixIterator StoreKey OrderKeyPrefix; mret (reverse kvs)).

(** Bytes that do not decode are an error here, not a panic. *)
Definition GetList : M (list Order) :=
  keeper_method modulePerms PermRead (
    kvs ← GetIterator;
    mapM_ (λ kv, match Unmarshal LengthPrefixed kv.2 with
                 | Some order => mret order
                 | None => throw (Plain "order unmarshal")
                 end) kvs).

(** A market ID that does not parse is the nil ID: comparing a number with it
    dereferences a nil pointer. *)
Definition match_market (o : Order) (paramsMarketID : option ID) : outcome bool :=
  match paramsMarketID with
  | Some id => Ok (ID_Equal (me_ID (o_Market o)) id)
  | None => Panic
  end.

Definition matches (params : OrdersReq) (paramsMarketID : option ID) (o : Order) : outcome bool :=
  let owner := negb (OwnerFilter params && negb (bool_decide (o_Owner o = or_Owner params))) in
  market ← (if MarketIDFilter params then match_market o paramsMarketID else Ok true);
  let direction := negb (DirectionFilter params && negb (Direction_Equal (o_Direction o) (or_Direction params))) in
  Ok (owner && market && direction).

Definition GetListFiltered (params : OrdersReq) : M (list Order) :=
  keeper_method modulePerms PermRead (
    orders ← GetList;
    let paramsMarketID := match NewIDFromString (or_MarketID params) with Ok id => Some id | _ => None end in
    filteredOrders ← lift (foldM (λ acc o,
      ok ← matches params paramsMarketID o; Ok (if (ok : bool) then acc ++ [o] else acc)%list) [] orders);
    range ← lift (PaginateSlice (Z.of_nat (length filteredOrders)) (or_Page params) (or_Limit params));
    lift (slice filteredOrders range.1 range.2)).

(** *** IDs *)
Definition hasLastOrderID : M bool := kv_Has StoreKey LastOrderIDKey.

Definition getLastOrderID : M ID :=
  bz ← kv_Get StoreKey LastOrderIDKey;
  MustUnmarshal Bare (default "" bz).

Definition setID (id : ID) : M unit := kv_Set StoreKey LastOrderIDKey (Marshal Bare id).

Definition nextID : M ID :=
  has ← kv_Has StoreKey LastOrderIDKey;
  if negb has then mret (NewIDFromUint64 0)
  else lastID ← getLastOrderID; lift (ID_Incr lastID).

(** *** Funds *)

(** [sdkErrors.Wrapf(types.ErrInternal, ...)] replaces the bank's error. *)
Definition wrap_internal (m : M unit) : M unit :=
  r ← attempt m; match r with Ok _ => mret tt | _ => throw ErrInternal end.

Definition LockOrderCoins (order : Order) : M unit :=
  keeper_method modulePerms PermOrderLock (
    coin ← lift (LockCoin order);
    coins ← lift (NewCoins [coin]);
    wrap_internal (bank_call (λ l, SendCoinsFromAccountToModule l (o_Owner order) ModuleName coins))).

Definition UnlockOrderCoins (order : Order) : M unit :=
  keeper_method modulePerms PermOrderUnlock (
    coin ← lift (LockCoin order);
    coins ← lift (NewCoins [coin]);
    wrap_internal (bank_call (λ l, SendCoinsFromModuleToAccount l ModuleName (o_Owner order) coins))).

(** [AddCoins] failing is a panic. *)
Definition add_coins (owner : AccAddress) (coin : Coin) : M unit :=
  coins ← lift (NewCoins [coin]);
  r ← attempt (bank_call (λ l, AddCoins l owner coins));
  match r with Ok _ => mret tt | _ => panic end.

Definition with_Quantity (o : Order) (quantity : Uint) (updatedAt : Z) : Order :=
  MkOrder (o_ID o) (o_Owner o) (o_Market o) (o_Direction o) (o_Price o) quantity (o_Ttl o) (o_CreatedAt o) updatedAt.

(** One iteration of the fills loop: an error of a coin skips the fill. *)
Definition ExecuteOrderFill (orderFill : OrderFill) : M unit :=
  match FillCoin orderFill with
  | Panic => panic
  | Err _ => mret tt
  | Ok fillCoin =>
      add_coins (o_Owner (f_Order orderFill)) fillCoin;;
      match RefundCoin orderFill with
      | Panic => panic
      | Err _ => mret tt
      | Ok (doRefund, refundCoin) =>
          (if (doRefund : bool) then
            match refundCoin with
            | Some refundCoin => add_coins (o_Owner (f_Order orderFill)) refundCoin
            | None => mret tt
            end
          else mret tt);;
          if f_QuantityUnfilled orderFill =? 0 then
            del (o_ID (f_Order orderFill));;
            EmitEvent (NewFullyFilledOrderEvent (f_Order orderFill))
          else
            now ← BlockTime;
            let order := with_Quantity (f_Order orderFill) (f_QuantityUnfilled orderFill) now in
            set order;;
            EmitEvent (NewPartiallyFilledOrderEvent order)
      end
  end.

Definition ExecuteOrderFills (orderFills : list OrderFill) : M unit :=
  keeper_method modulePerms PermExecFill (
    forM orderFills ExecuteOrderFill;;
    if (0 <? length orderFills)%nat then EmitEvent (NewModuleNameEvent ModuleName) else mret tt).

(** *** Posting and revoking *)
Definition PostOrder (owner : AccAddress) (assetCode : string) (direction : Direction)
    (price quantity : Uint) (ttlInSec : Z) : M Order :=
  keeper_method modulePerms PermOrderPost (
    let filter := markets.MkMarketsReq 1 1 "" "" assetCode in
    marketsList ← markets.GetListFiltered marketsPerms filter;
    match marketsList with
    | [] => throw ErrWrongAssetCode
    | m :: _ =>
        market ← markets.GetExtended marketsPerms (mkt_ID m);
        id ← nextID;
        blockTime ← BlockTime;
        let order := NewOrder blockTime id owner market direction price quantity ttlInSec in
        lift (ValidatePriceQuantity order);;
        LockOrderCoins order;;
        set order;;
        setID id;;
        EmitEvent (NewOrderPostedEvent order);;
        mret order
    end).

Definition RevokeOrder (id : ID) : M unit :=
  keeper_method modulePerms PermOrderRevoke (
    r ← attempt (Get id);
    match r with
    | Ok order =>
        UnlockOrderCoins order;;
        del id;;
        EmitEvent (NewOrderCanceledEvent order)
    | _ => throw ErrWrongOrderID
    end).

(** *** End of block: orders whose time to live is over *)
Definition EndBlocker_step (now : Z) (kv : string * string) : M unit :=
  order ← decode_order kv.2;
  if o_Ttl order <=? Time_Sub now (o_CreatedAt order) then
    attempt (RevokeOrder (o_ID order));; mret tt
  else mret tt.

Definition EndBlocker : M unit :=
  in_module ModuleName (
    now ← BlockTime;
    prevEvents ← Events;
    kvs ← GetIterator;
    forM kvs (EndBlocker_step now);;
    curEvents ← Events;
    if negb (length curEvents =? length prevEvents)%nat then EmitEvent (NewModuleNameEvent ModuleName)
    else mret tt).

(** *** Genesis *)
Definition InitGenesis (now : Z) (state : GenesisState) : M unit :=
  keeper_method modulePerms PermInit (
    blockTime ← BlockTime;
    match GenesisState_Validate now blockTime state with
    | Ok _ => mret tt
    | _ => panic
    end;;
    forM (gs_Orders state) (λ order,
      r ← attempt (markets.Get marketsPerms (me_ID (o_Market order)));
      match r with Ok _ => set order | _ => panic end);;
    match gs_LastOrderId state with Some id => setID id | None => mret tt end).

Definition ExportGenesis : M GenesisState :=
  keeper_method modulePerms PermRead (
    r ← attempt GetList;
    match r with
    | Ok orders =>
        has ← hasLastOrderID;
        if (has : bool) then lastID ← getLastOrderID; mret (MkGenesisState orders (Some lastID))
        else mret (MkGenesisState orders None)
    | _ => panic
    end).

(** *** The message handler *)
Inductive Msg := Msg_PostOrder (msg : MsgPostOrder) | Msg_RevokeOrder (msg : MsgRevokeOrder) | Msg_other.

Definition handleMsgPostOrder (msg : MsgPostOrder) : M Result :=
  order ← PostOrder (mpo_Owner msg) (mpo_AssetCode msg) (mpo_Direction msg) (mpo_Price msg)
            (mpo_Quantity msg) (mpo_TtlInSec msg);
  EmitEvent (NewModuleNameEvent ModuleName);;
  events ← Events;
  mret (MkResult (Marshal LengthPrefixed order) events).

Definition handleMsgCancelOrder (msg : MsgRevokeOrder) : M Result :=
  order ← Get (mro_OrderID msg);
  if negb (bool_decide (o_Owner order = mro_Owner msg)) then throw ErrWrongOwner
  else
    RevokeOrder (mro_OrderID msg);;
    EmitEvent (NewModuleNameEvent ModuleName);;
    events ← Events;
    mret (MkResult (Marshal LengthPrefixed order) events).

Definition NewHandler (msg : Msg) : M Result :=
  in_module ModuleName (WithEventManager
    match msg with
    | Msg_PostOrder msg => handleMsgPostOrder msg
    | Msg_RevokeOrder msg => handleMsgCancelOrder msg
    | Msg_other => throw ErrUnknownRequest
    end).
End keeper.

Definition NewKeeper (permsRequesters : list RequestModulePermissions) : outcome ModulePermissions :=
  foldM AutoAddRequester NewModulePerms permsRequesters.
End orders.
