(* ===== verification/OrdersFacts.v ===== *)
(** * Orders: the store and the escrow

    [orders_wf] is the well-formedness of the module's store: every entry under
    the orders' prefix is an order under its own ID, and the last ID bounds them
    all.  [escrow] is what the stored orders have locked; [solvent] says the
    module's account covers it.  The lemmas say how a write and a delete change
    them; [OrdersTheorems] applies them to the operations. *)
From S2P Require Import Prelude Bytes Sdk SdkRef SdkFacts DnTypes Perms Chain Currency VMStorage CCStorage Markets MarketsFacts Orders.
Local Open Scope string_scope.
Local Open Scope Z_scope.

(** The key of an ID that fits 64 bits. *)
Definition order_key (id : ID) : string := Join ":" ["order"; Uint64ToBigEndian id].

Lemma order_key_prefix id : has_prefix orders.OrderKeyPrefix (order_key id).
Proof. by exists (":" +:+ Uint64ToBigEndian id). Qed.

Lemma order_key_inj a b : 0 ≤ a < 2 ^ 64 → 0 ≤ b < 2 ^ 64 → order_key a = order_key b → a = b.
Proof.
  intros Ha Hb E. change ("order:" +:+ Uint64ToBigEndian a = "order:" +:+ Uint64ToBigEndian b) in E.
  apply string_app_inj_len in E as [_ E]; [|done]. by apply (be_bytes_inj 8).
Qed.

Lemma LastOrderIDKey_no_prefix : ¬ has_prefix orders.OrderKeyPrefix orders.LastOrderIDKey.
Proof. by intros [s Hs]. Qed.

Lemma order_key_not_last id : order_key id ≠ orders.LastOrderIDKey.
Proof. done. Qed.

Section lock.
Context `{SdkTypesLaws}.
Import orders.

Lemma GetOrderKey_ok id : 0 ≤ id < 2 ^ 64 → GetOrderKey id = Ok (order_key id).
Proof. intros Hid. unfold GetOrderKey, ID_UInt64. by rw Uint_Uint64_ok. Qed.

Lemma GetOrderKey_inv id key : 0 ≤ id → GetOrderKey id = Ok key → id < 2 ^ 64 ∧ key = order_key id.
Proof.
  intros Hid Hk. destruct (decide (id < 2 ^ 64)).
  - rw GetOrderKey_ok in Hk; [|done]. by ok_inv.
  - unfold GetOrderKey, ID_UInt64 in Hk. rw Uint_Uint64_overflow in Hk; [done|lia].
Qed.

(** What an order has locked, by denomination. *)
Definition lock_amount (o : Order) (d : string) : Z :=
  match LockCoin o with
  | Ok c => if decide (coin_Denom c = d) then coin_Amount c else 0
  | _ => 0
  end.

Lemma lock_amount_ok o c d : LockCoin o = Ok c → lock_amount o d = if decide (coin_Denom c = d) then coin_Amount c else 0.
Proof. unfold lock_amount. by intros ->. Qed.

Lemma LockCoin_inv o c : LockCoin o = Ok c → ValidateDenom (coin_Denom c) = true ∧ 0 ≤ coin_Amount c < maxInt.
Proof.
  unfold LockCoin. case_bool_decide; [|case_bool_decide; [|done]]; intros Hl; ok_inv.
  - apply NewIntFromBigInt_inv in Hrun0 as [-> ?]. apply NewCoin_inv in Hl as (-> & ? & ?). simpl. split; [done|lia].
  - apply NewIntFromBigInt_inv in Hrun as [-> ?]. apply NewCoin_inv in Hl as (-> & ? & ?). simpl. split; [done|lia].
Qed.

Lemma lock_amount_nonneg o d : 0 ≤ lock_amount o d.
Proof.
  unfold lock_amount. destruct (LockCoin o) as [c| |] eqn:E; [|done..].
  apply LockCoin_inv in E as [_ ?]. case_decide; lia.
Qed.

(** A positive quantity locks a positive amount. *)
Lemma LockCoin_pos o c : market_decimals (o_Market o) → 0 ≤ o_Price o → 0 < o_Quantity o →
  LockCoin o = Ok c → 0 < coin_Amount c.
Proof.
  intros Hm Hp Hq. unfold LockCoin. case_bool_decide; [|case_bool_decide; [|done]]; intros Hl; ok_inv.
  - apply NewIntFromBigInt_inv in Hrun0 as [-> ?]. apply NewCoin_inv in Hl as (-> & ? & ?).
    destruct (BaseToQuote_inv _ _ (o_Quantity o) _ Hm Hp ltac:(lia) Hrun) as (_ & Hok & r & _ & Hr & ->). simpl.
    pose proof (pow10_pos' (18 - cur_Decimals (me_QuoteCurrency (o_Market o))) ltac:(destruct Hok; lia)).
    apply Z.div_str_pos. lia.
  - apply NewIntFromBigInt_inv in Hrun as [-> ?]. by apply NewCoin_inv in Hl as (-> & ? & ?).
Qed.

(** Less quantity locks no more, and computing it does not start to panic. *)
Lemma LockCoin_smaller o q t :
  market_decimals (o_Market o) → 0 ≤ o_Price o → 0 ≤ q ≤ o_Quantity o → LockCoin o ≠ Panic →
  LockCoin (with_Quantity o q t) ≠ Panic ∧ ∀ d, lock_amount (with_Quantity o q t) d ≤ lock_amount o d.
Proof.
  intros Hm Hp Hq Hnp. unfold lock_amount, LockCoin, markets.QuoteDenom, markets.BaseDenom in *. simpl.
  case_bool_decide; [|case_bool_decide; [|done]].
  - destruct (BaseToQuote_smaller _ _ (o_Quantity o) q Hm Hp Hq) as [Hnp' Hle]; [by intros E; rw E in Hnp|].
    destruct (markets.BaseToQuoteQuantity (o_Market o) (o_Price o) q) as [v'|e|] eqn:Ev'; [| |done].
    2:{ simpl. split; [done|]. intros d. destruct (_ ≫= _) as [c| |] eqn:E; [|done..].
        ok_inv. apply NewIntFromBigInt_inv in Hrun0 as [-> ?]. apply NewCoin_inv in E as (-> & ? & ?). simpl. case_decide; lia. }
    destruct (Hle v' eq_refl) as (v & Ev & Hv). rw Ev in Hnp |- *. rw !outcome_bind_ok in Hnp |- *.
    destruct (NewIntFromBigInt v) as [w|e|] eqn:Ew; [| |done].
    2:{ destruct (decide (- maxInt < v < maxInt)); [by rw NewIntFromBigInt_ok in Ew|rw NewIntFromBigInt_overflow in Ew; [done|lia]]. }
    apply NewIntFromBigInt_inv in Ew as [-> Hr]. rw outcome_bind_ok in Hnp. rw outcome_bind_ok.
    destruct (BaseToQuote_inv _ _ q _ Hm Hp ltac:(lia) Ev') as (_ & Hok & r & _ & Hr' & Ew).
    assert (0 < v').
    { rw Ew. apply Z.div_str_pos. split; [|done]. apply pow10_pos'. destruct Hok; lia. }
    rw NewIntFromBigInt_ok; [|lia]. rw outcome_bind_ok.
    destruct (NewCoin _ v) as [c|e|] eqn:Ec; [| |done].
    + apply NewCoin_inv in Ec as (-> & Hd & _). rw NewCoin_ok; [|done|lia]. split; [done|]. intros d. simpl. case_decide; lia.
    + exfalso. destruct (ValidateDenom (cur_Denom (me_QuoteCurrency (o_Market o)))) eqn:Ed.
      * rw NewCoin_ok in Ec; [done|done|lia].
      * rw NewCoin_panic in Ec; [done|by left].
  - destruct (decide (o_Quantity o < maxInt)) as [Hr|Hr].
    2:{ rw NewIntFromBigInt_overflow in Hnp; [done|lia]. }
    rw !NewIntFromBigInt_ok in Hnp |- *; [|unfold maxInt in *; lia..]. rw !outcome_bind_ok in Hnp |- *.
    destruct (ValidateDenom (cur_Denom (me_BaseCurrency (o_Market o)))) eqn:Ed.
    + rw (NewCoin_ok _ q) ?(NewCoin_ok _ (o_Quantity o)); [|done|lia|done|lia]. split; [done|]. intros d. simpl. case_decide; lia.
    + rw NewCoin_panic in Hnp; [done|by left].
Qed.

(** The coins of an order, independently of the code: an ask's are its base quantity,
    a bid's the quote value of its price and quantity. *)
Definition locked_coin (o : Order) (coin : Coin) : Prop :=
  (o_Direction o = Bid ∧ coin_Denom coin = cur_Denom (me_QuoteCurrency (o_Market o)) ∧
     quote_value (o_Market o) (o_Price o) (o_Quantity o) (coin_Amount coin)) ∨
  (o_Direction o = Ask ∧ coin_Denom coin = cur_Denom (me_BaseCurrency (o_Market o)) ∧
     coin_Amount coin = o_Quantity o).

(** An order without coins: a bid worth less than one unit of the quote currency
    (or an order of no direction, which posting refuses). *)
Definition unpayable (o : Order) : Prop :=
  (o_Direction o = Bid ∧ worthless (o_Market o) (o_Price o) (o_Quantity o)) ∨
  (o_Direction o ≠ Bid ∧ o_Direction o ≠ Ask).

Lemma NewIntFromBigInt_no_error z e : NewIntFromBigInt z ≠ Err e.
Proof.
  intros He. destruct (decide (Z.abs z < maxInt)).
  - rw NewIntFromBigInt_ok in He; [done|lia].
  - rw NewIntFromBigInt_overflow in He; [done|lia].
Qed.

Lemma NewCoin_no_error d a e : NewCoin d a ≠ Err e.
Proof.
  intros He. destruct (ValidateDenom d) eqn:Ed; [destruct (decide (0 ≤ a))|].
  - by rw NewCoin_ok in He.
  - rw NewCoin_panic in He; [done|lia].
  - rw NewCoin_panic in He; [done|by left].
Qed.

(** When the coins of an order can be computed, and what they are. *)
Lemma LockCoin_spec o : market_decimals (o_Market o) → 0 ≤ o_Price o → 0 ≤ o_Quantity o →
  match LockCoin o with Ok coin => locked_coin o coin | Err _ => unpayable o | Panic => True end.
Proof.
  intros Hm Hp Hq. unfold LockCoin, locked_coin, unpayable. case_bool_decide as Hb; [|case_bool_decide as Ha].
  - destruct (markets.BaseToQuoteQuantity _ _ _) as [v|e|] eqn:Ev; simpl.
    + apply quote_value_inv in Ev; [|done..]. destruct (NewIntFromBigInt v) as [w|e|] eqn:Ew; simpl.
      * apply NewIntFromBigInt_inv in Ew as [-> _]. destruct (NewCoin _ _) as [c|e|] eqn:Ec; [|by apply NewCoin_no_error in Ec|done].
        apply NewCoin_inv in Ec as (-> & _). by left.
      * by apply NewIntFromBigInt_no_error in Ew.
      * done.
    + apply worthless_inv in Ev as [_ ?]; [|done..]. by left.
    + done.
  - destruct (NewIntFromBigInt _) as [w|e|] eqn:Ew; simpl; [|by apply NewIntFromBigInt_no_error in Ew|done].
    apply NewIntFromBigInt_inv in Ew as [-> _]. destruct (NewCoin _ _) as [c|e|] eqn:Ec; [|by apply NewCoin_no_error in Ec|done].
    apply NewCoin_inv in Ec as (-> & _). by right.
  - by right.
Qed.
End lock.

Section escrow.
Context `{SdkTypesLaws} `{KVStoreLaws} `{LedgerLaws} `{CI : !Codec Z} `{CO : !Codec Order}.
Import orders.
Implicit Types (s : store) (c : Ctx) (o : Order) (d : string).

Notation prefix_ok := (_ : OrderKeyPrefix ≠ ""%string) (only parsing).
Lemma OrderKeyPrefix_nonempty : OrderKeyPrefix ≠ "".
Proof. done. Qed.

(** The order stored under an ID. *)
Definition order_at s (id : ID) : option Order := store_Get s (order_key id) ≫= Unmarshal LengthPrefixed.

Definition entry_lock d (kv : string * string) : Z :=
  match Unmarshal LengthPrefixed kv.2 with Some o => lock_amount o d | None => 0 end.

Definition escrow s d : Z := sumZ (entry_lock d) (KVStorePrefixIterator s OrderKeyPrefix).
Definition escrow_others s d (id : ID) : Z := sumZ (entry_lock d) (others s OrderKeyPrefix (order_key id)).

(** An order of the store: a 64-bit ID, amounts that are numbers, an owner that
    is an account of its own, and coins that can be computed. *)
Record order_ok o : Prop := {
  ok_id : 0 ≤ o_ID o < 2 ^ 64;
  ok_decimals : market_decimals (o_Market o);
  ok_price : 0 ≤ o_Price o;
  ok_quantity : 0 < o_Quantity o;
  ok_owner : o_Owner o ≠ ModuleAddress ModuleName;
  ok_lock : LockCoin o ≠ Panic;
}.

Definition entries_wf s : Prop := ∀ k v,
  store_Get s k = Some v → has_prefix OrderKeyPrefix k →
  ∃ o, order_ok o ∧ k = order_key (o_ID o) ∧ v = Marshal LengthPrefixed o.

(** The last ID given out, if any. *)
Definition last_id s : option ID := store_Get s LastOrderIDKey ≫= Unmarshal Bare.

Definition ids_wf s : Prop :=
  (store_Get s LastOrderIDKey = None ∨ ∃ last, 0 ≤ last ∧ store_Get s LastOrderIDKey = Some (Marshal Bare last)) ∧
  ∀ id o, 0 ≤ id < 2 ^ 64 → order_at s id = Some o → ∃ last, last_id s = Some last ∧ id ≤ last.

Definition orders_wf s : Prop := entries_wf s ∧ ids_wf s.

(** The module's account covers what its orders have locked. *)
Definition solvent c : Prop :=
  ∀ d, escrow (ctx_stores c StoreKey) d ≤ balance (ctx_bank c) (ModuleAddress ModuleName) d.

Lemma order_at_inv s id o : entries_wf s → 0 ≤ id < 2 ^ 64 → order_at s id = Some o →
  store_Get s (order_key id) = Some (Marshal LengthPrefixed o) ∧ order_ok o ∧ o_ID o = id.
Proof.
  intros Hwf Hid Ho. unfold order_at in Ho. apply bind_Some in Ho as (v & Hg & Hv).
  destruct (Hwf _ v Hg (order_key_prefix id)) as (o' & Hok & Hk & ->).
  rw Unmarshal_Marshal in Hv. injection Hv as ->. split; [done|]. split; [done|].
  symmetry. apply order_key_inj; [done|apply Hok|done].
Qed.

Lemma order_at_none s id : entries_wf s → order_at s id = None → store_Get s (order_key id) = None.
Proof.
  intros Hwf Ho. unfold order_at in Ho. destruct (store_Get s (order_key id)) as [v|] eqn:Hg; [|done].
  destruct (Hwf _ v Hg (order_key_prefix id)) as (o' & _ & _ & ->). simpl in Ho. by rw Unmarshal_Marshal in Ho.
Qed.

Lemma order_at_Set s o id : 0 ≤ o_ID o < 2 ^ 64 → 0 ≤ id < 2 ^ 64 →
  order_at (store_Set s (order_key (o_ID o)) (Marshal LengthPrefixed o)) id =
  if decide (id = o_ID o) then Some o else order_at s id.
Proof.
  intros Ho Hid. unfold order_at. rw store_Get_Set. destruct (decide (id = o_ID o)) as [->|Hne].
  - rw decide_True; [|done]. simpl. by rw Unmarshal_Marshal.
  - rw decide_False; [done|]. intros E%order_key_inj; [|done..]. by apply Hne.
Qed.

Lemma order_at_Delete s id' id : 0 ≤ id' < 2 ^ 64 → 0 ≤ id < 2 ^ 64 →
  order_at (store_Delete s (order_key id')) id = if decide (id = id') then None else order_at s id.
Proof.
  intros Ho Hid. unfold order_at. rw store_Get_Delete. destruct (decide (id = id')) as [->|Hne].
  - by rw decide_True.
  - rw decide_False; [done|]. intros E%order_key_inj; [|done..]. by apply Hne.
Qed.

(** *** The escrow *)

Lemma entry_lock_nonneg d kv : 0 ≤ entry_lock d kv.
Proof. unfold entry_lock. destruct (Unmarshal _ _); [apply lock_amount_nonneg|done]. Qed.

Lemma escrow_others_nonneg s d id : 0 ≤ escrow_others s d id.
Proof. apply sumZ_nonneg. intros kv _. apply entry_lock_nonneg. Qed.

Lemma escrow_split s d id o : entries_wf s → order_at s id = Some o → 0 ≤ id < 2 ^ 64 →
  escrow s d = lock_amount o d + escrow_others s d id.
Proof.
  intros Hwf Ho Hid. destruct (order_at_inv s id o Hwf Hid Ho) as (Hg & _ & _).
  unfold escrow, escrow_others.
  rw (at_prefix_split s OrderKeyPrefix _ _ OrderKeyPrefix_nonempty Hg (order_key_prefix id)).
  rw sumZ_cons. unfold entry_lock at 1. simpl. by rw Unmarshal_Marshal.
Qed.

Lemma escrow_absent s d id : entries_wf s → order_at s id = None → escrow s d = escrow_others s d id.
Proof.
  intros Hwf Ho. unfold escrow, escrow_others.
  rw (others_none s); [done|done|by apply order_at_none].
Qed.

Lemma escrow_Set s d o :
  escrow (store_Set s (order_key (o_ID o)) (Marshal LengthPrefixed o)) d = lock_amount o d + escrow_others s d (o_ID o).
Proof.
  unfold escrow, escrow_others.
  rw (at_prefix_Set s OrderKeyPrefix _ _ OrderKeyPrefix_nonempty (order_key_prefix (o_ID o))).
  rw sumZ_cons. unfold entry_lock at 1. simpl. by rw Unmarshal_Marshal.
Qed.

Lemma escrow_Delete s d id : escrow (store_Delete s (order_key id)) d = escrow_others s d id.
Proof. unfold escrow, escrow_others. by rw at_prefix_Delete. Qed.

Lemma escrow_setID s d bz : escrow (store_Set s LastOrderIDKey bz) d = escrow s d.
Proof. unfold escrow. by rw at_prefix_Set_other; [|done|apply LastOrderIDKey_no_prefix]. Qed.

Lemma escrow_elem s d id o : entries_wf s → order_at s id = Some o → 0 ≤ id < 2 ^ 64 → lock_amount o d ≤ escrow s d.
Proof. intros Hwf Ho Hid. rw (escrow_split s d id o); [|done..]. pose proof (escrow_others_nonneg s d id). lia. Qed.

(** *** Well-formedness is kept *)

Lemma entries_wf_Set s o : entries_wf s → order_ok o →
  entries_wf (store_Set s (order_key (o_ID o)) (Marshal LengthPrefixed o)).
Proof.
  intros Hwf Hok k v. rw store_Get_Set. case_decide as E; [|apply Hwf].
  intros [= <-] _. by exists o.
Qed.

Lemma entries_wf_Delete s k : entries_wf s → entries_wf (store_Delete s k).
Proof. intros Hwf k' v. rw store_Get_Delete. case_decide; [done|apply Hwf]. Qed.

Lemma entries_wf_setID s bz : entries_wf s → entries_wf (store_Set s LastOrderIDKey bz).
Proof.
  intros Hwf k v. rw store_Get_Set. case_decide as E; [|apply Hwf]. subst k.
  intros _ Hp. by apply LastOrderIDKey_no_prefix in Hp.
Qed.

Lemma last_id_Set s o bz : last_id (store_Set s (order_key (o_ID o)) bz) = last_id s.
Proof. unfold last_id. by rw store_Get_Set. Qed.
Lemma last_id_Delete s id : last_id (store_Delete s (order_key id)) = last_id s.
Proof. unfold last_id. by rw store_Get_Delete. Qed.

Lemma ids_wf_Set s o o0 : ids_wf s → 0 ≤ o_ID o < 2 ^ 64 → order_at s (o_ID o) = Some o0 →
  ids_wf (store_Set s (order_key (o_ID o)) (Marshal LengthPrefixed o)).
Proof.
  intros [Hl Hi] Hid Ho. split.
  - by rw store_Get_Set.
  - intros id o' Hid'. rw order_at_Set; [|done..]. rw last_id_Set.
    case_decide as E; [subst; intros _; by apply (Hi (o_ID o) o0)|by apply Hi].
Qed.

Lemma ids_wf_Delete s id' : ids_wf s → 0 ≤ id' < 2 ^ 64 → ids_wf (store_Delete s (order_key id')).
Proof.
  intros [Hl Hi] Hid. split; [by rw store_Get_Delete|]. intros id o Hid'.
  rw order_at_Delete; [|done..]. rw last_id_Delete. case_decide; [done|by apply Hi].
Qed.
End escrow.
