(* ===== verification/OrdersTheorems.v ===== *)
(** * Orders: posting, revoking, filling, expiring

    The theorems about the keeper's operations: what a successful post does, when
    a revocation succeeds and what it pays back, which remainders can no longer be
    revoked, what fills do to the store and the escrow, and which orders the end
    blocker removes. *)
From S2P Require Import Prelude Bytes Sdk SdkRef SdkFacts DnTypes Perms Chain Currency VMStorage CCStorage Markets MarketsFacts Orders OrdersFacts.
Local Open Scope string_scope.
Local Open Scope Z_scope.

Section operations.
Context `{SdkTypesLaws} `{KVStoreLaws} `{LedgerLaws} `{CI : !Codec Z} `{CO : !Codec Order} `{CM : !Codec Market}.
Context `{CS : !CurrencyStorage}.
Variable modulePerms marketsPerms : ModulePermissions.
Hypothesis own_perms : mp_name modulePerms = orders.ModuleName.
Import orders.
Implicit Types (c : Ctx) (o : Order).

Notation orders_store c := (ctx_stores c StoreKey).
Notation module_account := (ModuleAddress ModuleName).

(** [caller] passes the check of [perm]. *)
Definition allowed (caller perm : string) : Prop := AutoCheck modulePerms (mp_name modulePerms) caller perm = Ok tt.

Lemma allowed_self perm : allowed (mp_name modulePerms) perm.
Proof. unfold allowed, AutoCheck. by rw bool_decide_true. Qed.

Lemma keeper_method_allowed perm {A} (body : M A) caller c :
  allowed caller perm → keeper_method modulePerms perm body caller c = body (mp_name modulePerms) c.
Proof. unfold allowed, keeper_method. by intros ->. Qed.

(** *** Coins *)

Definition coin_amount (cn : Coin) (d : string) : Z := if decide (coin_Denom cn = d) then coin_Amount cn else 0.

Lemma NewCoins_coin cn : ValidateDenom (coin_Denom cn) = true → 0 ≤ coin_Amount cn →
  ∃ cs, NewCoins [cn] = Ok cs ∧ (∀ d, amount_of cs d = if decide (coin_Denom cn = d) then coin_Amount cn else 0) ∧
    (0 < coin_Amount cn → cs = [cn]).
Proof.
  intros Hd Ha. destruct (decide (coin_Amount cn = 0)) as [E|].
  - rw NewCoins_zero; [|done..]. exists []. split; [done|]. split; [|lia]. intros d. rw E. by case_decide.
  - rw NewCoins_one; [|done|lia]. exists [cn]. split; [done|]. split; [|done]. intros d. unfold amount_of. simpl.
    case_decide; lia.
Qed.

(** What locking does to the balances. *)
Definition locked_bank (l l' : ledger) o : Prop := ∀ x d,
  balance l' x d = balance l x d + (if decide (x = module_account) then lock_amount o d else 0)
                                 - (if decide (x = o_Owner o) then lock_amount o d else 0).

Lemma LockOrderCoins_inv o caller c u c' :
  LockOrderCoins modulePerms o caller c = (Ok u, c') →
  ∃ coin l', LockCoin o = Ok coin ∧ c' = set_bank c l' ∧ locked_bank (ctx_bank c) l' o.
Proof.
  intros Hrun. unfold LockOrderCoins, wrap_internal in Hrun. m_inv.
destruct v1 as [[]| |]; [|discriminate Hrun..].
  m_inv. exists v, l. split; [done|]. split; [done|].
  destruct (LockCoin_inv o v Hm) as [Hd Ha].
  destruct (NewCoins_coin v Hd ltac:(lia)) as (cs & Hcs & Ham & _). rw Hcs in Hm0. injection Hm0 as <-.
  intros x d. rw (ToModule_balance _ _ _ _ _ x d Hm1). unfold moved. rw !Ham (lock_amount_ok o v d Hm). lia.
Qed.

(** *** Posting *)
Section posting.
Context (clients : string → Prop) (ccs_store : string) `{CSL : !CurrencyStorageLaws clients ccs_store}.
Hypothesis markets_client : clients (mp_name marketsPerms).

Lemma nextID_inv caller c id c' : ids_wf (orders_store c) → nextID caller c = (Ok id, c') →
  c' = c ∧ 0 ≤ id ∧ id = match last_id (orders_store c) with None => 0 | Some l => l + 1 end.
Proof.
  intros [[Hl|(last & Hlast & Hl)] _] Hrun; unfold nextID, getLastOrderID, last_id in *.
  - m_inv_step. injection Hm as <- <-. unfold store_Has in Hrun. rw Hl in Hrun |- *. simpl in Hrun. by m_inv.
  - m_inv_step. injection Hm as <- <-. unfold store_Has in Hrun. rw bool_decide_true in Hrun; [|by rw Hl]. simpl in Hrun.
    m_inv. injection Hm0 as <- <-. unfold MustUnmarshal in Hm. rw Hl in Hm |- *. simpl in Hm |- *.
    rw !Unmarshal_Marshal in Hm |- *. m_inv. unfold ID_Incr in Hrun. split; [done|].
    rename v into lst. destruct (decide (lst + 1 < maxUint)).
    + rw Uint_Add_ok in Hrun; [|lia..]. ok_inv. split; [lia|done].
    + rw Uint_Add_overflow in Hrun; [done|lia].
Qed.

(** A fresh ID has no order. *)
Lemma fresh_none c id : ids_wf (orders_store c) → 0 ≤ id < 2 ^ 64 →
  id = match last_id (orders_store c) with None => 0 | Some l => l + 1 end → order_at (orders_store c) id = None.
Proof.
  intros [_ Hids] Hid E. destruct (order_at (orders_store c) id) as [o|] eqn:Ho; [|done].
  destruct (Hids id o Hid Ho) as (l & Hl & Hle). rw Hl in E. lia.
Qed.

Lemma set_inv o caller c u c' : 0 ≤ o_ID o → set o caller c = (Ok u, c') →
  o_ID o < 2 ^ 64 ∧
  c' = set_store c StoreKey (store_Set (orders_store c) (order_key (o_ID o)) (Marshal LengthPrefixed o)).
Proof.
  intros Hid Hrun. unfold set in Hrun. m_inv. apply GetOrderKey_inv in Hm as [? ->]; [|done].
  by injection Hrun as _ <-.
Qed.

(** An order of a new ID above the others keeps the IDs well-formed. *)
Lemma ids_wf_post s o :
  ids_wf s → 0 ≤ o_ID o < 2 ^ 64 → o_ID o = match last_id s with None => 0 | Some l => l + 1 end →
  ids_wf (store_Set (store_Set s (order_key (o_ID o)) (Marshal LengthPrefixed o)) LastOrderIDKey (Marshal Bare (o_ID o))).
Proof.
  intros [_ Hids] Hid E. split.
  - right. exists (o_ID o). split; [lia|]. by rw store_Get_Set.
  - intros id o' Hid'. unfold order_at at 1. rw store_Get_Set. case_decide; [done|].
    fold (order_at (store_Set s (order_key (o_ID o)) (Marshal LengthPrefixed o)) id).
    rw order_at_Set; [|done..]. intros Ho. exists (o_ID o).
    unfold last_id. rw store_Get_Set. split; [simpl; by rw Unmarshal_Marshal|]. case_decide; [lia|].
    destruct (Hids id o' Hid' Ho) as (l & Hl & Hle). rw Hl in E. lia.
Qed.

(** A posted order has a valid price and quantity. *)
Lemma ValidatePriceQuantity_inv o u : market_decimals (o_Market o) → ValidatePriceQuantity o = Ok u → 0 < o_Quantity o.
Proof.
  intros [Hb _] Hv. unfold ValidatePriceQuantity in Hv. ok_inv.
  apply UintToDec_inv in Hrun2 as [Hbo ->]; [|done]. rw MinDecimal_ok in Hrun1; [|done]. injection Hrun1 as <-.
  apply Z.ltb_ge in Hv. pose proof (pow10_pos' (18 - cur_Decimals (me_BaseCurrency (o_Market o))) ltac:(destruct Hbo; lia)). nia.
Qed.

(** What a successful post has done. *)
Record posted c c' o : Prop := {
  post_ok : order_ok o;
  post_id : o_ID o = match last_id (orders_store c) with None => 0 | Some l => l + 1 end;
  post_fresh : order_at (orders_store c) (o_ID o) = None;
  post_stored : ∀ id, 0 ≤ id < 2 ^ 64 →
    order_at (orders_store c') id = if decide (id = o_ID o) then Some o else order_at (orders_store c) id;
  post_last : last_id (orders_store c') = Some (o_ID o);
  post_bank : locked_bank (ctx_bank c) (ctx_bank c') o;
  post_wf : orders_wf (orders_store c');
  post_solvent : solvent c';
}.

Lemma PostOrder_inv caller c c' owner assetCode direction price quantity ttl o :
  orders_wf (orders_store c) → ccs_wf (ctx_stores c ccs_store) →
  owner ≠ module_account → 0 ≤ price → 0 ≤ quantity →
  PostOrder modulePerms marketsPerms owner assetCode direction price quantity ttl caller c = (Ok o, c') →
  o = NewOrder (ctx_time c) (o_ID o) owner (o_Market o) direction price quantity ttl ∧
  order_ok o ∧ o_ID o = match last_id (orders_store c) with None => 0 | Some l => l + 1 end ∧
  locked_bank (ctx_bank c) (ctx_bank c') o ∧
  orders_store c' = store_Set (store_Set (orders_store c) (order_key (o_ID o)) (Marshal LengthPrefixed o))
                      LastOrderIDKey (Marshal Bare (o_ID o)) ∧
  ctx_events c' = (ctx_events c ++ [NewOrderPostedEvent o])%list.
Proof.
  intros [Hent Hids] Hccs Howner Hp Hq Hrun. unfold PostOrder in Hrun.
  apply keeper_method_inv in Hrun. apply M_bind_inv in Hrun as (ms & c1 & Hlist & Hrun).
  pose proof (reads_run _ _ _ _ _ (reads_GetListFiltered marketsPerms _) Hlist) as ->.
  destruct ms as [|m ms]; [done|].
  apply M_bind_inv in Hrun as (me & c1 & Hext & Hrun).
  assert (c1 = c) as -> by (eapply reads_run; [|exact Hext]; by eapply reads_GetExtended).
  destruct (GetExtended_inv clients ccs_store marketsPerms markets_client _ _ _ _ _ Hccs Hext) as (_ & _ & Hdec).
  apply M_bind_inv in Hrun as (id & c1 & Hid & Hrun). apply nextID_inv in Hid as (-> & Hid0 & Hid); [|done].
  apply M_bind_inv in Hrun as (now & c1 & [= <- <-] & Hrun).
  set (o' := NewOrder (ctx_time c) id owner me direction price quantity ttl) in *.
  apply M_bind_inv in Hrun as ([] & c1 & Hval & Hrun). apply lift_inv in Hval as [Hval ->].
  apply M_bind_inv in Hrun as ([] & c1 & Hlock & Hrun).
  apply LockOrderCoins_inv in Hlock as (coin & l' & Hcoin & -> & Hbank).
  apply M_bind_inv in Hrun as ([] & c1 & Hset & Hrun). apply set_inv in Hset as [Hid64 ->]; [|done].
  apply M_bind_inv in Hrun as ([] & c1 & [= <-] & Hrun).
  apply M_bind_inv in Hrun as ([] & c1 & [= <-] & Hrun). injection Hrun as <- <-.
  split; [done|]. split; [|done].
  split; try done.
  - by apply (ValidatePriceQuantity_inv o' _ Hdec Hval).
  - by rw Hcoin.
Qed.

Lemma PostOrder_posted caller c c' owner assetCode direction price quantity ttl o :
  orders_wf (orders_store c) → solvent c → ccs_wf (ctx_stores c ccs_store) →
  owner ≠ module_account → 0 ≤ price → 0 ≤ quantity →
  PostOrder modulePerms marketsPerms owner assetCode direction price quantity ttl caller c = (Ok o, c') →
  o = NewOrder (ctx_time c) (o_ID o) owner (o_Market o) direction price quantity ttl ∧ posted c c' o.
Proof.
  intros [Hent Hids] Hsol Hccs Howner Hp Hq Hrun.
  destruct (PostOrder_inv _ _ _ _ _ _ _ _ _ _ (conj Hent Hids) Hccs Howner Hp Hq Hrun)
    as (Eo & Hok & Hid & Hbank & Hst & _).
  pose proof (fresh_none c (o_ID o) Hids (ok_id o Hok) Hid) as Hfresh.
  assert (o_Owner o = owner) as Eow by (rw Eo; done). split; [done|]. split; try done.
  - intros id Hid'. rw Hst. unfold order_at. rw store_Get_Set. case_decide; [done|].
    by apply order_at_Set; [apply Hok|].
  - unfold last_id. rw Hst store_Get_Set. simpl. by rw Unmarshal_Marshal.
  - rw Hst. split; [|apply ids_wf_post; [done|apply Hok|done]].
    by apply entries_wf_setID, entries_wf_Set.
  - intros d. rw Hst escrow_setID escrow_Set -(escrow_absent _ d (o_ID o) Hent Hfresh) (Hbank module_account d).
    rw decide_True; [|done]. rw decide_False; [|by rw Eow]. specialize (Hsol d). lia.
Qed.

(** C6: a successful post stores one new order, under the ID after the last one
    given out (0 for the first), with the block time as both times; it locks
    exactly the order's coins (from the owner to the module), changes no other
    order, and keeps the store well-formed and the module solvent. *)
Theorem PostOrder_posts caller c c' owner assetCode direction price quantity ttl o :
  orders_wf (orders_store c) → solvent c → ccs_wf (ctx_stores c ccs_store) →
  owner ≠ module_account → 0 ≤ price → 0 ≤ quantity →
  PostOrder modulePerms marketsPerms owner assetCode direction price quantity ttl caller c = (Ok o, c') →
  o = NewOrder (ctx_time c) (o_ID o) owner (o_Market o) direction price quantity ttl ∧ posted c c' o.
Proof. apply PostOrder_posted. Qed.
End posting.

(** *** Revoking *)

(** What unlocking does to the balances. *)
Definition unlocked_bank (l l' : ledger) o : Prop := ∀ x d,
  balance l' x d = balance l x d - (if decide (x = module_account) then lock_amount o d else 0)
                                 + (if decide (x = o_Owner o) then lock_amount o d else 0).

(** A revocation that the bank can pay. *)
Lemma RevokeOrder_run id o coin caller c :
  allowed caller PermOrderRevoke → entries_wf (orders_store c) → solvent c → 0 ≤ id < 2 ^ 64 →
  order_at (orders_store c) id = Some o → LockCoin o = Ok coin →
  balance (ctx_bank c) (o_Owner o) (coin_Denom coin) + coin_Amount coin < maxInt →
  ∃ l', unlocked_bank (ctx_bank c) l' o ∧
    RevokeOrder modulePerms id caller c =
      (Ok tt, set_events (set_bank (set_store c StoreKey (store_Delete (orders_store c) (order_key id))) l')
                (ctx_events c ++ [NewOrderCanceledEvent o])%list).
Proof.
  intros Hal Hent Hsol Hid Ho Hcoin Hcap.
  destruct (order_at_inv _ id o Hent Hid Ho) as (Hget & Hok & Eid).
  destruct (LockCoin_inv o coin Hcoin) as [Hd Ha].
  assert (0 < coin_Amount coin) as Hpos by (eapply LockCoin_pos; [apply Hok..|exact Hcoin]).
  destruct (NewCoins_coin coin Hd ltac:(lia)) as (cs & Hcs & Ham & E). rw E in Hcs Ham; [|done]. clear E cs.
  assert (coin_Amount coin ≤ balance (ctx_bank c) module_account (coin_Denom coin)) as Hbal.
  { specialize (Hsol (coin_Denom coin)). pose proof (escrow_elem _ (coin_Denom coin) id o Hent Ho Hid) as He.
    rw (lock_amount_ok o coin _ Hcoin) decide_True in He; [|done]. lia. }
  destruct (FromModule_ok (ctx_bank c) ModuleName (o_Owner o) coin (conj Hpos Hbal) Hcap) as [l' Hl'].
  exists l'. split.
  - intros x d. rw (FromModule_balance _ _ _ _ _ x d Hl'). unfold moved. rw !Ham (lock_amount_ok o coin d Hcoin). lia.
  - unfold RevokeOrder. rw keeper_method_allowed; [|done].
    assert (Get modulePerms id (mp_name modulePerms) c = (Ok o, c)) as HG.
    { unfold Get. rw keeper_method_self GetOrderKey_ok; [|done].
      unfold mbind, M_bind, lift, kv_Get, decode_order, MustUnmarshal. rw Hget. by rw Unmarshal_Marshal. }
    rw (M_bind_Ok _ _ _ _ _ _ (attempt_Ok _ _ _ _ _ HG)).
    assert (UnlockOrderCoins modulePerms o (mp_name modulePerms) c = (Ok tt, set_bank c l')) as HU.
    { unfold UnlockOrderCoins, wrap_internal. rw keeper_method_self.
      rw (M_bind_Ok _ _ _ _ _ _ (lift_Ok _ _ _ _ Hcoin)) (M_bind_Ok _ _ _ _ _ _ (lift_Ok _ _ _ _ Hcs)).
      assert (bank_call (λ l, SendCoinsFromModuleToAccount l ModuleName (o_Owner o) [coin]) (mp_name modulePerms) c
                = (Ok tt, set_bank c l')) as HB by (unfold bank_call; by rw Hl').
      by rw (M_bind_Ok _ _ _ _ _ _ (attempt_Ok _ _ _ _ _ HB)). }
    rw (M_bind_Ok _ _ _ _ _ _ HU). unfold del. rw GetOrderKey_ok; [|done]. done.
Qed.

(** The store after a revocation, in terms of orders. *)
Lemma deleted_wf s id : orders_wf s → 0 ≤ id < 2 ^ 64 → orders_wf (store_Delete s (order_key id)).
Proof. intros [He Hi] Hid. split; [by apply entries_wf_Delete|by apply ids_wf_Delete]. Qed.

Lemma unlocked_solvent c c' id o l' :
  entries_wf (orders_store c) → solvent c → 0 ≤ id < 2 ^ 64 → order_at (orders_store c) id = Some o →
  orders_store c' = store_Delete (orders_store c) (order_key id) → ctx_bank c' = l' →
  unlocked_bank (ctx_bank c) l' o → solvent c'.
Proof.
  intros Hent Hsol Hid Ho Est El Hb d. destruct (order_at_inv _ id o Hent Hid Ho) as (_ & Hok & _).
  rw Est El escrow_Delete (Hb module_account d) decide_True; [|done].
  rw decide_False; [|intros E; by apply (ok_owner o Hok)]. specialize (Hsol d).
  rw (escrow_split _ d id o Hent Ho Hid) in Hsol. lia.
Qed.

Lemma Get_run id o c : entries_wf (orders_store c) → 0 ≤ id < 2 ^ 64 → order_at (orders_store c) id = Some o →
  Get modulePerms id (mp_name modulePerms) c = (Ok o, c).
Proof.
  intros Hent Hid Ho. destruct (order_at_inv _ id o Hent Hid Ho) as (Hget & _ & _).
  unfold Get. rw keeper_method_self GetOrderKey_ok; [|done].
  unfold mbind, M_bind, lift, kv_Get, decode_order, MustUnmarshal. rw Hget. by rw Unmarshal_Marshal.
Qed.

Lemma Get_missing id c : entries_wf (orders_store c) → 0 ≤ id < 2 ^ 64 → order_at (orders_store c) id = None →
  Get modulePerms id (mp_name modulePerms) c = (Err ErrWrongOrderID, c).
Proof.
  intros Hent Hid Ho%order_at_none; [|done]. unfold Get. rw keeper_method_self GetOrderKey_ok; [|done].
  unfold mbind, M_bind, lift, kv_Get. by rw Ho.
Qed.

(** An order whose coins cannot be computed is not revoked: nothing changes. *)
Lemma RevokeOrder_stuck id o e caller c :
  allowed caller PermOrderRevoke → entries_wf (orders_store c) → 0 ≤ id < 2 ^ 64 →
  order_at (orders_store c) id = Some o → LockCoin o = Err e →
  RevokeOrder modulePerms id caller c = (Err e, c).
Proof.
  intros Hal Hent Hid Ho He. unfold RevokeOrder. rw keeper_method_allowed; [|done].
  rw (M_bind_Ok _ _ _ _ _ _ (attempt_Ok _ _ _ _ _ (Get_run id o c Hent Hid Ho))).
  apply M_bind_Err. unfold UnlockOrderCoins. rw keeper_method_self. apply M_bind_Err. unfold lift. by rw He.
Qed.

(** What an order of the store locks, and when it locks nothing. *)
Lemma LockCoin_order o : order_ok o →
  match LockCoin o with
  | Ok coin => locked_coin o coin ∧ ∀ d, lock_amount o d = coin_amount coin d
  | Err _ => unpayable o
  | Panic => False
  end.
Proof.
  intros Hok. pose proof (LockCoin_spec o (ok_decimals _ Hok) (ok_price _ Hok) ltac:(destruct Hok; lia)) as Hl.
  destruct (LockCoin o) as [coin|e|] eqn:E; [|done|by destruct (ok_lock o Hok)].
  split; [done|]. intros d. by apply lock_amount_ok.
Qed.

(** C7: revoking a stored order either succeeds or is refused with an error and no
    change at all.  It is refused only for an order without coins to pay back: a bid
    whose remainder is worth less than one unit of the quote currency.  When it
    succeeds, it removes that order and nothing else and pays the owner, out of the
    module's account, the order's own coins: an ask's base quantity, a bid's price
    times quantity in the quote currency, cut to whole units.  The module stays
    solvent. *)
Theorem RevokeOrder_refunds id o caller c :
  allowed caller PermOrderRevoke → orders_wf (orders_store c) → solvent c → 0 ≤ id < 2 ^ 64 →
  order_at (orders_store c) id = Some o →
  (∀ d, balance (ctx_bank c) (o_Owner o) d + lock_amount o d < maxInt) →
  (∃ coin c', locked_coin o coin ∧ RevokeOrder modulePerms id caller c = (Ok tt, c') ∧
    (∀ id', 0 ≤ id' < 2 ^ 64 →
       order_at (orders_store c') id' = if decide (id' = id) then None else order_at (orders_store c) id') ∧
    (∀ x d, balance (ctx_bank c') x d = balance (ctx_bank c) x d
       - (if decide (x = module_account) then coin_amount coin d else 0)
       + (if decide (x = o_Owner o) then coin_amount coin d else 0)) ∧
    ctx_events c' = (ctx_events c ++ [NewOrderCanceledEvent o])%list ∧
    orders_wf (orders_store c') ∧ solvent c') ∨
  (unpayable o ∧ ∃ e, RevokeOrder modulePerms id caller c = (Err e, c)).
Proof.
  intros Hal [Hent Hids] Hsol Hid Ho Hcap. destruct (order_at_inv _ id o Hent Hid Ho) as (_ & Hok & _).
  pose proof (LockCoin_order o Hok) as Hspec. destruct (LockCoin o) as [coin|e|] eqn:Hcoin; [left|right|done].
  - destruct Hspec as [Hl Ham].
    assert (balance (ctx_bank c) (o_Owner o) (coin_Denom coin) + coin_Amount coin < maxInt) as Hcap'.
    { specialize (Hcap (coin_Denom coin)). rw Ham in Hcap. unfold coin_amount in Hcap. by rw decide_True in Hcap. }
    destruct (RevokeOrder_run id o coin caller c Hal Hent Hsol Hid Ho Hcoin Hcap') as (l' & Hb & Hrun).
    exists coin. eexists. split; [done|]. split; [exact Hrun|]. simpl. split.
    + intros id' Hid'. by apply order_at_Delete.
    + split; [intros x d; by rw (Hb x d) -!Ham|]. split; [done|]. split; [by apply deleted_wf|].
      by eapply unlocked_solvent.
  - split; [done|]. exists e. by apply (RevokeOrder_stuck id o).
Qed.

(** Errors of a revocation leave the state as it was: an unknown ID, a message
    from someone who is not the order's owner, and an order whose remainder is
    worth less than a unit of the quote currency (which therefore can be revoked
    neither by its owner nor by the end blocker). *)
Theorem RevokeOrder_errors id caller c :
  allowed caller PermOrderRevoke → entries_wf (orders_store c) → 0 ≤ id < 2 ^ 64 →
  match order_at (orders_store c) id with
  | None => RevokeOrder modulePerms id caller c = (Err ErrWrongOrderID, c)
  | Some o =>
      (∀ e, LockCoin o = Err e →
         RevokeOrder modulePerms id caller c = (Err e, c) ∧
         (∀ kv now, kv.2 = Marshal LengthPrefixed o → EndBlocker_step modulePerms now kv ModuleName c = (Ok tt, c))) ∧
      (∀ from, from ≠ o_Owner o →
         NewHandler modulePerms marketsPerms (Msg_RevokeOrder (MkMsgRevokeOrder from id)) caller c = (Err ErrWrongOwner, c))
  end.
Proof.
  intros Hal Hent Hid. destruct (order_at (orders_store c) id) as [o|] eqn:Ho.
  - destruct (order_at_inv _ id o Hent Hid Ho) as (_ & Hok & Eid). split.
    + intros e He. split; [by eapply RevokeOrder_stuck|]. intros kv now Ekv.
      unfold EndBlocker_step, decode_order, MustUnmarshal. rw Ekv Unmarshal_Marshal. unfold mbind, M_bind at 1. simpl.
      destruct (o_Ttl o <=? Time_Sub now (o_CreatedAt o)); [|done].
      rw Eid -own_perms. unfold M_bind. rw (attempt_Err _ _ _ e c); [done|].
      apply (RevokeOrder_stuck id o e); [apply allowed_self|done..].
    + intros from Hfrom. unfold NewHandler, in_module, WithEventManager, handleMsgCancelOrder. simpl mro_OrderID.
      rw -own_perms. rw (M_bind_Ok _ _ _ _ _ _ (Get_run id o (set_events c []) Hent Hid Ho)).
      rw bool_decide_false; [|intros E; by apply Hfrom]. simpl. by destruct c.
  - unfold RevokeOrder. rw keeper_method_allowed; [|done].
    by rw (M_bind_Ok _ _ _ _ _ _ (attempt_Err _ _ _ _ _ (Get_missing id c Hent Hid Ho))).
Qed.

(** *** Fills *)

(** What a fill pays to its order's owner. *)
Definition paid (f : OrderFill) (d : string) : Z :=
  match FillCoin f with
  | Ok fillCoin => coin_amount fillCoin d +
      match RefundCoin f with Ok (true, Some refundCoin) => coin_amount refundCoin d | _ => 0 end
  | _ => 0
  end.

(** What is left of its order: an error of a coin leaves the order as it was. *)
Definition after_fill (now : Z) (f : OrderFill) : option Order :=
  match FillCoin f, RefundCoin f with
  | Ok _, Ok _ =>
      if f_QuantityUnfilled f =? 0 then None else Some (with_Quantity (f_Order f) (f_QuantityUnfilled f) now)
  | _, _ => Some (f_Order f)
  end.

(** The fills are of stored orders and do not increase them. *)
Definition fill_ok (s : store) (f : OrderFill) : Prop :=
  order_at s (o_ID (f_Order f)) = Some (f_Order f) ∧ 0 ≤ o_ID (f_Order f) < 2 ^ 64 ∧
  0 ≤ f_QuantityUnfilled f ≤ o_Quantity (f_Order f).

Lemma FillCoin_inv f cn : FillCoin f = Ok cn → ValidateDenom (coin_Denom cn) = true ∧ 0 ≤ coin_Amount cn.
Proof.
  unfold FillCoin. case_bool_decide; [|case_bool_decide; [|done]]; intros Hl; ok_inv;
    by apply NewCoin_inv in Hl as (-> & ? & ?).
Qed.

Lemma RefundCoin_inv f b cn : RefundCoin f = Ok (b, Some cn) → ValidateDenom (coin_Denom cn) = true ∧ 0 ≤ coin_Amount cn.
Proof.
  unfold RefundCoin. case_bool_decide; [|by case_bool_decide]. destruct (_ <? _); [|done].
  intros Hl. apply outcome_bind_inv in Hl as (diff & _ & Hl).
  destruct (markets.BaseToQuoteQuantity _ _ _) as [q| |]; [|done..].
  apply outcome_bind_inv in Hl as (n & _ & Hl). apply outcome_bind_inv in Hl as (cn' & Hcn & [= _ ->]).
  by apply NewCoin_inv in Hcn as (-> & ? & ?).
Qed.

Lemma add_coins_inv owner cn caller c u c' :
  ValidateDenom (coin_Denom cn) = true → 0 ≤ coin_Amount cn → add_coins owner cn caller c = (Ok u, c') →
  ∃ l', c' = set_bank c l' ∧
    ∀ x d, balance l' x d = balance (ctx_bank c) x d + (if decide (x = owner) then coin_amount cn d else 0).
Proof.
  intros Hd Ha Hrun. unfold add_coins in Hrun. destruct (NewCoins_coin cn Hd Ha) as (cs & Hcs & Ham & _).
  rw (M_bind_Ok _ _ _ _ _ _ (lift_Ok _ _ _ _ Hcs)) in Hrun.
  apply M_bind_inv in Hrun as ([[]| |] & c1 & Hb & Hrun); [|discriminate Hrun..]. injection Hrun as _ <-.
  apply attempt_inv, bank_call_inv in Hb as (l' & Hl' & ->). exists l'. split; [done|].
  intros x d. by rw (AddCoins_balance _ _ _ _ x d Hl') Ham.
Qed.

(** The store after one fill. *)
Definition apply_fill (now : Z) (s : store) (f : OrderFill) : store :=
  match FillCoin f, RefundCoin f with
  | Ok _, Ok _ =>
      if f_QuantityUnfilled f =? 0 then store_Delete s (order_key (o_ID (f_Order f)))
      else store_Set s (order_key (o_ID (f_Order f)))
             (Marshal LengthPrefixed (with_Quantity (f_Order f) (f_QuantityUnfilled f) now))
  | _, _ => s
  end.

(** A context that differs in this module's store and in balances. *)
Definition filled_bank (l l' : ledger) (f : OrderFill) : Prop :=
  ∀ x d, balance l' x d = balance l x d + (if decide (x = o_Owner (f_Order f)) then paid f d else 0).

Lemma ExecuteOrderFill_inv f caller c u c' :
  0 ≤ o_ID (f_Order f) < 2 ^ 64 → ExecuteOrderFill f caller c = (Ok u, c') →
  orders_store c' = apply_fill (ctx_time c) (orders_store c) f ∧
  filled_bank (ctx_bank c) (ctx_bank c') f ∧ ctx_time c' = ctx_time c.
Proof.
  intros Hid Hrun. unfold ExecuteOrderFill, apply_fill, filled_bank, paid in *.
  destruct (FillCoin f) as [fc|e|] eqn:Ef; [|by m_inv; split_and!; [done| |done]; intros x d; case_decide; lia|done].
  destruct (FillCoin_inv f fc Ef) as [Hd Ha].
  apply M_bind_inv in Hrun as ([] & c1 & Hadd & Hrun). apply add_coins_inv in Hadd as (l1 & -> & Hl1); [|done..].
  destruct (RefundCoin f) as [[b rc]|e|] eqn:Er; [| |done].
  2:{ injection Hrun as _ <-. split_and!; [done| |done]. intros x d. simpl. rw Hl1. case_decide; lia. }
  apply M_bind_inv in Hrun as ([] & c2 & Href & Hrun).
  assert (∃ l2, c2 = set_bank c l2 ∧ ∀ x d, balance l2 x d = balance l1 x d +
    (if decide (x = o_Owner (f_Order f)) then
       match b, rc with true, Some r => coin_amount r d | _, _ => 0 end else 0)) as (l2 & -> & Hl2).
  { destruct b; [destruct rc as [r|]|].
    - destruct (RefundCoin_inv f true r Er) as [Hd' Ha']. apply add_coins_inv in Href as (l2 & -> & Hl2); [|done..].
      exists l2. split; [done|]. exact Hl2.
    - injection Href as <-. exists l1. split; [done|]. intros x d. case_decide; lia.
    - injection Href as <-. exists l1. split; [done|]. intros x d. case_decide; lia. }
  assert (∀ x d, balance l2 x d = balance (ctx_bank c) x d + (if decide (x = o_Owner (f_Order f)) then
    coin_amount fc d + match Ok (b, rc) with Ok (true, Some r) => coin_amount r d | _ => 0 end else 0)) as Hb.
  { intros x d. rw Hl2 Hl1. case_decide; [|lia]. destruct b; [destruct rc|]; lia. }
  destruct (f_QuantityUnfilled f =? 0).
  - unfold del in Hrun. rw GetOrderKey_ok in Hrun; [|done]. injection Hrun as _ <-. done.
  - apply M_bind_inv in Hrun as (now & c3 & [= <- <-] & Hrun).
    apply M_bind_inv in Hrun as ([] & c3 & Hset & Hrun). apply set_inv in Hset as [_ ->]; [|simpl; lia].
    injection Hrun as _ <-. done.
Qed.

Lemma order_at_apply_fill now s f id : fill_ok s f → 0 ≤ id < 2 ^ 64 →
  order_at (apply_fill now s f) id = if decide (id = o_ID (f_Order f)) then after_fill now f else order_at s id.
Proof.
  intros (Ho & Hf & _) Hid. unfold apply_fill, after_fill.
  destruct (FillCoin f), (RefundCoin f); try (by case_decide; [subst|]).
  destruct (f_QuantityUnfilled f =? 0); [by apply order_at_Delete|].
  by apply (order_at_Set s (with_Quantity (f_Order f) (f_QuantityUnfilled f) now)).
Qed.

(** A fill keeps the store well-formed and never increases the escrow. *)
Lemma apply_fill_wf now s f : orders_wf s → fill_ok s f →
  orders_wf (apply_fill now s f) ∧ ∀ d, escrow (apply_fill now s f) d ≤ escrow s d.
Proof.
  intros [Hent Hids] (Ho & Hid & Hq). destruct (order_at_inv _ _ _ Hent Hid Ho) as (_ & Hok & _).
  unfold apply_fill. destruct (FillCoin f); [|by split..]. destruct (RefundCoin f); [|by split..].
  destruct (Z.eqb_spec (f_QuantityUnfilled f) 0) as [E|E].
  - split; [by apply deleted_wf|]. intros d. rw escrow_Delete (escrow_split s d _ _ Hent Ho Hid).
    pose proof (lock_amount_nonneg (f_Order f) d). lia.
  - set (o' := with_Quantity (f_Order f) (f_QuantityUnfilled f) now).
    destruct (LockCoin_smaller (f_Order f) (f_QuantityUnfilled f) now) as [Hnp Hle]; [apply Hok..|done|apply Hok|].
    split; [split|].
    + apply (entries_wf_Set s o'); [done|]. destruct Hok. split; try done. simpl. lia.
    + by apply (ids_wf_Set s o' (f_Order f)).
    + intros d. rw (escrow_Set s d o') (escrow_split s d _ _ Hent Ho Hid). specialize (Hle d). fold o' in Hle.
      change (o_ID o') with (o_ID (f_Order f)). lia.
Qed.

Lemma paid_nonneg f d : 0 ≤ paid f d.
Proof.
  unfold paid. destruct (FillCoin f) as [fc| |] eqn:Ef; [|done..]. apply FillCoin_inv in Ef as [_ ?].
  assert (0 ≤ coin_amount fc d) by (unfold coin_amount; case_decide; lia).
  destruct (RefundCoin f) as [[[] [r|]]| |] eqn:Er; try lia. apply RefundCoin_inv in Er as [_ ?].
  assert (0 ≤ coin_amount r d) by (unfold coin_amount; case_decide; lia). lia.
Qed.

(** Fills that were executed had coins that do not panic. *)
Lemma ExecuteOrderFill_no_panic fills caller c u c' :
  forM fills ExecuteOrderFill caller c = (Ok u, c') → ∀ f, f ∈ fills →
  FillCoin f ≠ Panic ∧ ((∃ fc, FillCoin f = Ok fc) → RefundCoin f ≠ Panic).
Proof.
  revert c. induction fills as [|g fills IH]; intros c Hrun f Hin; [by apply elem_of_nil in Hin|].
  simpl in Hrun. apply M_bind_inv in Hrun as ([] & c1 & Hg & Hrun).
  apply elem_of_cons in Hin as [->|Hin]; [|by eapply IH].
  unfold ExecuteOrderFill in Hg. destruct (FillCoin g) as [fc|e|]; [|split; [done|by intros [? ?]]|done].
  split; [done|]. intros _. apply M_bind_inv in Hg as ([] & c2 & _ & Hg). by destruct (RefundCoin g).
Qed.

(** A list of fills of distinct orders. *)
Lemma ExecuteOrderFill_all fills caller c u c' :
  orders_wf (orders_store c) → solvent c → (∀ f, f ∈ fills → fill_ok (orders_store c) f) →
  NoDup ((λ f, o_ID (f_Order f)) <$> fills) → forM fills ExecuteOrderFill caller c = (Ok u, c') →
  (∀ f, f ∈ fills → order_at (orders_store c') (o_ID (f_Order f)) = after_fill (ctx_time c) f) ∧
  (∀ id, 0 ≤ id < 2 ^ 64 → id ∉ (λ f, o_ID (f_Order f)) <$> fills →
     order_at (orders_store c') id = order_at (orders_store c) id) ∧
  (∀ x d, balance (ctx_bank c') x d = balance (ctx_bank c) x d +
     sumZ (λ f, if decide (x = o_Owner (f_Order f)) then paid f d else 0) fills) ∧
  orders_wf (orders_store c') ∧ solvent c'.
Proof.
  revert c. induction fills as [|f fills IH]; intros c Hwf Hsol Hok Hnd Hrun.
  { injection Hrun as _ <-. split; [by intros f Hf%elem_of_nil|]. split; [done|]. split; [|done].
    intros x d. simpl. lia. }
  apply NoDup_cons in Hnd as [Hnin Hnd]. simpl in Hrun. apply M_bind_inv in Hrun as ([] & c1 & Hf & Hrun).
  assert (fill_ok (orders_store c) f) as Hfok by (apply Hok; left). pose proof Hfok as (_ & Hid & _).
  apply ExecuteOrderFill_inv in Hf as (Hst & Hbank & Htime); [|done].
  destruct (apply_fill_wf (ctx_time c) _ f Hwf Hfok) as [Hwf1 Hesc].
  destruct (IH c1) as (K1 & K2 & K3 & K4 & K5); [by rw Hst| |..]; try done.
  - intros d. specialize (Hesc d). specialize (Hsol d). rw Hst Hbank. pose proof (paid_nonneg f d). case_decide; lia.
  - intros g Hg. destruct (Hok g) as (Ho & Hgid & Hq); [by right|]. split; [|done]. rw Hst order_at_apply_fill; [|done..].
    rw decide_False; [done|]. intros E. apply Hnin. rw -E. by apply (list_elem_of_fmap_2 (λ f, o_ID (f_Order f))).
  - split_and!; [..|done|done].
    + intros g [->|Hg]%elem_of_cons; [|by rw K1 -?Htime].
      rw K2; [|done..]. rw Hst order_at_apply_fill; [|done..]. by rw decide_True.
    + intros id Hi Hn. rw fmap_cons in Hn. apply not_elem_of_cons in Hn as [Hne Hn].
      rw K2; [|done..]. rw Hst order_at_apply_fill; [|done..]. by rw decide_False.
    + intros x d. rw K3 Hbank. simpl. lia.
Qed.

(** What a fill does, independently of the code.  A bid is paid the base quantity
    filled; when it cleared below its limit, it also gets back the difference, unless
    that is worth less than one quote unit.  An ask is paid the quote value of what it
    sold at the clearance price.  Of the order the unfilled quantity is left. *)
Definition bid_refund (f : OrderFill) (back : Z) : Prop :=
  let o := f_Order f in
  if f_ClearancePrice f <? o_Price o then
    quote_value (o_Market o) (o_Price o - f_ClearancePrice f) (f_QuantityFilled f) back ∨
    (worthless (o_Market o) (o_Price o - f_ClearancePrice f) (f_QuantityFilled f) ∧ back = 0)
  else back = 0.

Definition rest_of (now : Z) (f : OrderFill) : option Order :=
  let o := f_Order f in
  if f_QuantityUnfilled f =? 0 then None
  else Some (MkOrder (o_ID o) (o_Owner o) (o_Market o) (o_Direction o) (o_Price o) (f_QuantityUnfilled f)
               (o_Ttl o) (o_CreatedAt o) now).

Definition in_denom (c : Currency) (amount : Z) (d : string) : Z := if decide (cur_Denom c = d) then amount else 0.

Inductive fill_settles (now : Z) (f : OrderFill) (pay : string → Z) (left : option Order) : Prop :=
  | settles_bid back :
      o_Direction (f_Order f) = Bid → bid_refund f back →
      (∀ d, pay d = in_denom (me_BaseCurrency (o_Market (f_Order f))) (f_QuantityFilled f) d +
                    in_denom (me_QuoteCurrency (o_Market (f_Order f))) back d) →
      left = rest_of now f → fill_settles now f pay left
  | settles_ask v :
      o_Direction (f_Order f) = Ask → quote_value (o_Market (f_Order f)) (f_ClearancePrice f) (f_QuantityFilled f) v →
      (∀ d, pay d = in_denom (me_QuoteCurrency (o_Market (f_Order f))) v d) →
      left = rest_of now f → fill_settles now f pay left
  | settles_skipped :
      (o_Direction (f_Order f) = Ask ∧ worthless (o_Market (f_Order f)) (f_ClearancePrice f) (f_QuantityFilled f)) ∨
      (o_Direction (f_Order f) ≠ Bid ∧ o_Direction (f_Order f) ≠ Ask) →
      (∀ d, pay d = 0) → left = Some (f_Order f) → fill_settles now f pay left.

(** The amounts of a fill are unsigned numbers of at most 256 bits. *)
Definition fill_amounts (f : OrderFill) : Prop :=
  0 ≤ f_ClearancePrice f ∧ 0 ≤ f_QuantityFilled f ∧ o_Price (f_Order f) < maxUint.

Lemma NewCoin_amounts d a cn : NewCoin d a = Ok cn → coin_Denom cn = d ∧ coin_Amount cn = a.
Proof. by intros (-> & _)%NewCoin_inv. Qed.

Lemma FillCoin_spec f fc : market_decimals (o_Market (f_Order f)) → fill_amounts f → FillCoin f = Ok fc →
  (o_Direction (f_Order f) = Bid ∧ coin_Denom fc = cur_Denom (me_BaseCurrency (o_Market (f_Order f))) ∧
     coin_Amount fc = f_QuantityFilled f) ∨
  (o_Direction (f_Order f) = Ask ∧ coin_Denom fc = cur_Denom (me_QuoteCurrency (o_Market (f_Order f))) ∧
     quote_value (o_Market (f_Order f)) (f_ClearancePrice f) (f_QuantityFilled f) (coin_Amount fc)).
Proof.
  intros Hm (Hp & Hq & _). unfold FillCoin. case_bool_decide; [|case_bool_decide; [|done]]; intros Hf; ok_inv; [left|right].
  - apply NewIntFromBigInt_inv in Hrun as [-> _]. by apply NewCoin_amounts in Hf as [-> ->].
  - apply quote_value_inv in Hrun; [|done..]. apply NewIntFromBigInt_inv in Hrun0 as [-> _].
    by apply NewCoin_amounts in Hf as [-> ->].
Qed.

Lemma FillCoin_error f e : market_decimals (o_Market (f_Order f)) → fill_amounts f → FillCoin f = Err e →
  (o_Direction (f_Order f) = Ask ∧ worthless (o_Market (f_Order f)) (f_ClearancePrice f) (f_QuantityFilled f)) ∨
  (o_Direction (f_Order f) ≠ Bid ∧ o_Direction (f_Order f) ≠ Ask).
Proof.
  intros Hm (Hp & Hq & _). unfold FillCoin. case_bool_decide as Hb; [|case_bool_decide as Ha].
  - destruct (NewIntFromBigInt _) as [z|e'|] eqn:E; simpl; [|by apply NewIntFromBigInt_no_error in E|done].
    by intros ?%NewCoin_no_error.
  - destruct (markets.BaseToQuoteQuantity _ _ _) as [v|e'|] eqn:Ev; simpl; [| |done].
    + destruct (NewIntFromBigInt _) as [z|e'|] eqn:E; simpl; [|by apply NewIntFromBigInt_no_error in E|done].
      by intros ?%NewCoin_no_error.
    + intros _. apply worthless_inv in Ev as [_ ?]; [|done..]. by left.
  - by right.
Qed.

(** The refund of a bid. *)
Lemma RefundCoin_spec f : market_decimals (o_Market (f_Order f)) → fill_amounts f → o_Direction (f_Order f) = Bid →
  match RefundCoin f with
  | Ok (doRefund, coin) => ∃ back, bid_refund f back ∧ ∀ d,
      match doRefund, coin with true, Some r => coin_amount r d | _, _ => 0 end =
      in_denom (me_QuoteCurrency (o_Market (f_Order f))) back d
  | Err _ => False
  | Panic => True
  end.
Proof.
  intros Hm (Hp & Hq & Hmax) Hbid. unfold RefundCoin, bid_refund. rw bool_decide_true; [|done].
  destruct (Z.ltb_spec (f_ClearancePrice f) (o_Price (f_Order f))).
  2:{ exists 0. split; [done|]. intros d. unfold in_denom. by case_decide. }
  rw Uint_Sub_ok; [|lia..]. rw outcome_bind_ok.
  destruct (markets.BaseToQuoteQuantity _ _ _) as [v|e|] eqn:Ev; simpl; [| |done].
  - apply quote_value_inv in Ev; [|done|lia|done].
    destruct (NewIntFromBigInt v) as [z|e|] eqn:E; simpl; [|by apply NewIntFromBigInt_no_error in E|done].
    apply NewIntFromBigInt_inv in E as [-> _].
    destruct (NewCoin _ v) as [r|e|] eqn:Er; simpl; [|by apply NewCoin_no_error in Er|done].
    apply NewCoin_amounts in Er as [Hd Ha]. exists v. split; [by left|]. intros d. unfold coin_amount. by rw Hd Ha.
  - apply worthless_inv in Ev as [_ ?]; [|done|lia|done]. exists 0. split; [by right|]. intros d. unfold in_denom. by case_decide.
Qed.

Lemma RefundCoin_ask f : o_Direction (f_Order f) = Ask → RefundCoin f = Ok (false, None).
Proof. intros E. unfold RefundCoin. by rw E. Qed.

(** What a fill that does not panic pays and leaves is what it should. *)
Lemma fill_settled now f : market_decimals (o_Market (f_Order f)) → fill_amounts f → FillCoin f ≠ Panic → ((∃ fc, FillCoin f = Ok fc) → RefundCoin f ≠ Panic) →
  fill_settles now f (paid f) (after_fill now f).
Proof.
  intros Hm Hf Hnf Hnr. unfold after_fill. destruct (FillCoin f) as [fc|e|] eqn:Ef; [| |done].
  2:{ apply settles_skipped; [by eapply FillCoin_error| |by destruct (RefundCoin f)]. intros d. unfold paid. by rw Ef. }
  destruct (FillCoin_spec f fc Hm Hf Ef) as [(Hb & Hd & Ha)|(Hb & Hd & Ha)].
  - pose proof (RefundCoin_spec f Hm Hf Hb) as Hr. destruct (RefundCoin f) as [[b rc]|e|] eqn:Er; [|done|by destruct Hnr; eauto].
    destruct Hr as (back & Hback & Hr). apply (settles_bid _ _ _ _ back); [done|done| |done].
    intros d. unfold paid. rw Ef Er -Hr. unfold coin_amount at 1. rw Hd Ha. unfold in_denom at 1. destruct b; [by destruct rc|done].
  - rw (RefundCoin_ask f Hb). apply (settles_ask _ _ _ _ (coin_Amount fc)); [done|done| |done].
    intros d. unfold paid. rw Ef (RefundCoin_ask f Hb). unfold coin_amount. rw Hd. unfold in_denom. lia.
Qed.

(** C9: executing the fills of distinct stored orders settles each of them: a bid is
    paid the base quantity filled and gets back the difference to its limit price, an
    ask is paid the value of what it sold at the clearance price (both cut to whole
    quote units), the owners are paid and nobody else; of every order its unfilled
    quantity is left, nothing when that is zero.  A fill worth less than one quote
    unit is skipped: the ask is not paid and keeps its whole quantity.  No other order
    is touched, the store stays well-formed and the module solvent. *)
Theorem ExecuteOrderFills_effect fills caller c u c' :
  orders_wf (orders_store c) → solvent c → (∀ f, f ∈ fills → fill_ok (orders_store c) f ∧ fill_amounts f) →
  NoDup ((λ f, o_ID (f_Order f)) <$> fills) →
  ExecuteOrderFills modulePerms fills caller c = (Ok u, c') →
  ∃ pay : OrderFill → string → Z,
    (∀ f, f ∈ fills → fill_settles (ctx_time c) f (pay f) (order_at (orders_store c') (o_ID (f_Order f)))) ∧
    (∀ id, 0 ≤ id < 2 ^ 64 → id ∉ (λ f, o_ID (f_Order f)) <$> fills →
       order_at (orders_store c') id = order_at (orders_store c) id) ∧
    (∀ x d, balance (ctx_bank c') x d = balance (ctx_bank c) x d +
       sumZ (λ f, if decide (x = o_Owner (f_Order f)) then pay f d else 0) fills) ∧
    orders_wf (orders_store c') ∧ solvent c'.
Proof.
  intros Hwf Hsol Hok Hnd Hrun. unfold ExecuteOrderFills in Hrun. apply keeper_method_inv in Hrun.
  apply M_bind_inv in Hrun as ([] & c1 & Hf & Hrun).
  destruct (ExecuteOrderFill_all _ _ _ _ _ Hwf Hsol (λ f Hf, proj1 (Hok f Hf)) Hnd Hf) as (K1 & K2 & K3 & K4 & K5).
  assert (ctx_stores c' = ctx_stores c1 ∧ ctx_bank c' = ctx_bank c1) as [Est Eb].
  { destruct (0 <? length fills)%nat; by injection Hrun as _ <-. }
  unfold solvent. rw Est Eb. exists paid. split; [|done]. intros f Hin. rw K1; [|done].
  destruct (ExecuteOrderFill_no_panic fills _ _ _ _ Hf f Hin) as [? ?].
  destruct (Hok f Hin) as [(Ho & Hid & _) Ham]. destruct (order_at_inv _ _ _ (proj1 Hwf) Hid Ho) as (_ & Hook & _).
  apply fill_settled; [apply Hook|done..].
Qed.

(** The coins a fill pays are created: no balance goes down, in particular the
    module's account keeps everything the filled orders had locked. *)
Theorem ExecuteOrderFills_no_debit fills caller c u c' :
  orders_wf (orders_store c) → solvent c → (∀ f, f ∈ fills → fill_ok (orders_store c) f) →
  NoDup ((λ f, o_ID (f_Order f)) <$> fills) →
  ExecuteOrderFills modulePerms fills caller c = (Ok u, c') →
  (∀ d, balance (ctx_bank c') module_account d = balance (ctx_bank c) module_account d) ∧
  ∀ x d, balance (ctx_bank c) x d ≤ balance (ctx_bank c') x d.
Proof.
  intros Hwf Hsol Hok Hnd Hrun. unfold ExecuteOrderFills in Hrun. apply keeper_method_inv in Hrun.
  apply M_bind_inv in Hrun as ([] & c1 & Hf & Hrun).
  destruct (ExecuteOrderFill_all _ _ _ _ _ Hwf Hsol Hok Hnd Hf) as (_ & _ & K3 & _).
  assert (ctx_bank c' = ctx_bank c1) as -> by (destruct (0 <? length fills)%nat; by injection Hrun as _ <-).
  split.
  - intros d. rw K3 sumZ_zero; [lia|]. intros f Hfin. destruct (Hok f Hfin) as (Ho & Hid & _).
    destruct (order_at_inv _ _ _ (proj1 Hwf) Hid Ho) as (_ & Hook & _).
    rw decide_False; [done|]. intros E. by apply (ok_owner _ Hook).
  - intros x d. rw K3. assert (0 ≤ sumZ (λ f, if decide (x = o_Owner (f_Order f)) then paid f d else 0) fills); [|lia].
    apply sumZ_nonneg. intros f _. case_decide; [apply paid_nonneg|done].
Qed.

(** *** The end blocker *)

(** The orders it removes: their time to live is over and their coins can be
    computed. *)
Definition removed (now : Z) o : bool :=
  (o_Ttl o <=? Time_Sub now (o_CreatedAt o)) && match LockCoin o with Ok _ => true | _ => false end.

(** No balance can overflow by paying back everything that is locked. *)
Definition capacity c : Prop := ∀ x d, balance (ctx_bank c) x d + escrow (orders_store c) d < maxInt.

(** An expired order is removed, and its own coins are what it locks; or it has no
    coins to pay back, and then it stays, expired as it is. *)
Definition expiry_spec (now : Z) o : Prop :=
  if o_Ttl o <=? Time_Sub now (o_CreatedAt o) then
    (removed now o = true ∧ ∃ coin, locked_coin o coin ∧ ∀ d, lock_amount o d = coin_amount coin d) ∨
    (removed now o = false ∧ unpayable o)
  else removed now o = false.

Lemma expiry_order now o : order_ok o → expiry_spec now o.
Proof.
  intros Hok. pose proof (LockCoin_order o Hok) as Hspec. unfold expiry_spec, removed.
  destruct (_ <=? _); [|done]. destruct (LockCoin o) as [coin|e|]; [left|right|done]; simpl; eauto.
Qed.

(** The change of a balance by unlocking an order. *)
Definition refund o x d : Z :=
  (if decide (x = o_Owner o) then lock_amount o d else 0) - (if decide (x = module_account) then lock_amount o d else 0).

Definition stored_orders s : list Order := omap (λ kv, Unmarshal LengthPrefixed kv.2) (KVStorePrefixIterator s OrderKeyPrefix).

(** What the loop keeps. *)
Definition loop_ok c : Prop := orders_wf (orders_store c) ∧ solvent c ∧ capacity c.

Lemma EndBlocker_step_run now id o k c :
  loop_ok c → 0 ≤ id < 2 ^ 64 → order_at (orders_store c) id = Some o →
  ∃ c', EndBlocker_step modulePerms now (k, Marshal LengthPrefixed o) ModuleName c = (Ok tt, c') ∧ loop_ok c' ∧
    orders_store c' = (if removed now o then store_Delete (orders_store c) (order_key id) else orders_store c) ∧
    (∀ x d, balance (ctx_bank c') x d = balance (ctx_bank c) x d + if removed now o then refund o x d else 0).
Proof.
  intros (Hwf & Hsol & Hcap) Hid Ho. pose proof Hwf as [Hent Hids].
  destruct (order_at_inv _ id o Hent Hid Ho) as (_ & Hok & Eid).
  unfold EndBlocker_step, decode_order, MustUnmarshal, removed. simpl snd. rw Unmarshal_Marshal.
  unfold mbind, M_bind at 1. simpl mret. cbv iota beta delta [mret M_ret].
  destruct (o_Ttl o <=? Time_Sub now (o_CreatedAt o)).
  2:{ exists c. split; [done|]. split; [done|]. split; [done|]. intros x d. simpl. lia. }
  rw Eid -own_perms. destruct (LockCoin o) as [coin|e|] eqn:Hcoin; [..|by destruct (ok_lock o Hok)].
  - destruct (RevokeOrder_run id o coin (mp_name modulePerms) c) as (l' & Hb & Hrun); try done; [apply allowed_self| |].
    { specialize (Hcap (o_Owner o) (coin_Denom coin)).
      pose proof (escrow_elem _ (coin_Denom coin) id o Hent Ho Hid) as He.
      rw (lock_amount_ok o coin _ Hcoin) decide_True in He; [|done]. lia. }
    eexists. split; [unfold M_bind; by rw (attempt_Ok _ _ _ _ _ Hrun)|]. cbn [andb].
    split; [|split; [done|]].
    + split; [by apply deleted_wf|]. split; [by eapply unlocked_solvent|].
      intros x d. simpl. rw escrow_Delete (Hb x d). specialize (Hcap x d). rw (escrow_split _ d id o Hent Ho Hid) in Hcap.
      pose proof (lock_amount_nonneg o d). do 2 case_decide; lia.
    + intros x d. simpl. rw (Hb x d). unfold refund. lia.
  - exists c. split; [|split; [done|split; [done|]]].
    + unfold M_bind. rw (attempt_Err _ _ _ e c); [done|]. apply (RevokeOrder_stuck id o e); [apply allowed_self|done..].
    + intros x d. simpl. lia.
Qed.

Lemma EndBlocker_loop now kvs c :
  loop_ok c → NoDup kvs.*1 →
  (∀ kv, kv ∈ kvs → ∃ o, kv = (order_key (o_ID o), Marshal LengthPrefixed o) ∧ 0 ≤ o_ID o < 2 ^ 64 ∧
     order_at (orders_store c) (o_ID o) = Some o) →
  ∃ c', forM kvs (EndBlocker_step modulePerms now) ModuleName c = (Ok tt, c') ∧ loop_ok c' ∧
    (∀ id, 0 ≤ id < 2 ^ 64 → order_at (orders_store c') id =
       if decide (order_key id ∈ kvs.*1)
       then order_at (orders_store c) id ≫= λ o, if removed now o then None else Some o
       else order_at (orders_store c) id) ∧
    (∀ x d, balance (ctx_bank c') x d = balance (ctx_bank c) x d +
       sumZ (λ o, if removed now o then refund o x d else 0) (omap (λ kv, Unmarshal LengthPrefixed kv.2) kvs)).
Proof.
  revert c. induction kvs as [|kv kvs IH]; intros c Hok Hnd Hkvs.
  { exists c. split; [done|]. split; [done|]. split; [by intros|]. intros x d. simpl. lia. }
  rw fmap_cons in Hnd. apply NoDup_cons in Hnd as [Hnin Hnd].
  destruct (Hkvs kv) as (o & -> & Hid & Ho); [left|]. simpl in Hnin.
  destruct (EndBlocker_step_run now (o_ID o) o (order_key (o_ID o)) c Hok Hid Ho) as (c1 & Hrun & Hok1 & Hst & Hb).
  assert (∀ id, 0 ≤ id < 2 ^ 64 → order_at (orders_store c1) id =
    if decide (id = o_ID o) then (if removed now o then None else Some o) else order_at (orders_store c) id) as Hat.
  { intros id Hid'. rw Hst. destruct (removed now o); [by apply order_at_Delete|].
    case_decide; [by subst|done]. }
  destruct (IH c1) as (c' & Hrun' & Hok' & Hat' & Hb'); [done|done| |].
  { intros kv' Hin. destruct (Hkvs kv') as (o' & -> & Hid' & Ho'); [by right|]. exists o'. split; [done|]. split; [done|].
    rw Hat; [|done]. rw decide_False; [done|]. intros E. apply Hnin. rw -E.
    by apply (list_elem_of_fmap_2 fst kvs (order_key (o_ID o'), Marshal LengthPrefixed o')). }
  exists c'. split; [|split; [done|split]].
  - cbn [forM]. by rw (M_bind_Ok _ _ _ _ _ _ Hrun).
  - intros id Hid'. rw Hat'; [|done]. rw Hat; [|done]. rw fmap_cons. simpl fst.
    destruct (decide (id = o_ID o)) as [->|Hne].
    + rw decide_False; [|done]. rw decide_True; [|left]. by rw Ho.
    + destruct (decide (order_key id ∈ kvs.*1)); [rw decide_True; [done|by right]|].
      rw decide_False; [done|]. intros [E%order_key_inj|]%elem_of_cons; [|done..]. done.
  - intros x d. rw Hb' Hb. cbn [omap list_omap]. simpl snd. rw Unmarshal_Marshal. rw sumZ_cons. lia.
Qed.

(** What the end blocker leaves. *)
Lemma EndBlocker_expired caller c :
  orders_wf (orders_store c) → solvent c → capacity c →
  ∃ c', EndBlocker modulePerms caller c = (Ok tt, c') ∧
    (∀ id, 0 ≤ id < 2 ^ 64 → order_at (orders_store c') id =
       order_at (orders_store c) id ≫= λ o, if removed (ctx_time c) o then None else Some o) ∧
    (∀ x d, balance (ctx_bank c') x d = balance (ctx_bank c) x d +
       sumZ (λ o, if removed (ctx_time c) o then refund o x d else 0) (stored_orders (orders_store c))) ∧
    orders_wf (orders_store c') ∧ solvent c'.
Proof.
  intros Hwf Hsol Hcap. pose proof Hwf as [Hent _].
  set (kvs := KVStorePrefixIterator (orders_store c) OrderKeyPrefix).
  destruct (EndBlocker_loop (ctx_time c) kvs c) as (c1 & Hrun & (Hwf1 & Hsol1 & _) & Hat & Hb); [done| | |].
  - apply iterator_NoDup_keys.
  - intros [k v] [Hg Hp]%at_prefix_elem; [|done]. destruct (Hent k v Hg Hp) as (o & Hok & -> & ->).
    exists o. split; [done|]. split; [apply Hok|]. unfold order_at. rw Hg. simpl. by rw Unmarshal_Marshal.
  - assert (∃ c', EndBlocker modulePerms caller c = (Ok tt, c') ∧ ctx_stores c' = ctx_stores c1 ∧ ctx_bank c' = ctx_bank c1)
      as (c' & Hrun' & Est & Eb).
    { unfold EndBlocker, in_module. rw (M_bind_Ok BlockTime _ _ c (ctx_time c) c); [|done].
      rw (M_bind_Ok Events _ _ c (ctx_events c) c); [|done].
      rw (M_bind_Ok (GetIterator modulePerms) _ _ c kvs c); [|unfold GetIterator; by rw -own_perms keeper_method_self].
      rw (M_bind_Ok _ _ _ _ _ _ Hrun). rw (M_bind_Ok Events _ _ c1 (ctx_events c1) c1); [|done].
      destruct (negb _); by eexists. }
    exists c'. split; [done|]. unfold solvent. rw Est Eb. split; [|done].
    intros id Hid. rw Hat; [|done]. case_decide as Hin; [done|].
    destruct (order_at (orders_store c) id) as [o|] eqn:Ho; [|done]. exfalso. apply Hin.
    destruct (order_at_inv _ id o Hent Hid Ho) as (Hg & _ & _).
    apply (list_elem_of_fmap_2 fst kvs (order_key id, Marshal LengthPrefixed o)).
    apply at_prefix_elem; [done|]. split; [done|apply order_key_prefix].
Qed.

(** An order listed is an order of the store. *)
Lemma stored_orders_ok s o : entries_wf s → o ∈ stored_orders s → order_ok o.
Proof.
  intros Hent ([k v] & [Hg Hp]%at_prefix_elem & Ev)%list_elem_of_omap; [|done].
  destruct (Hent k v Hg Hp) as (o' & Hok & -> & ->). simpl in Ev. rw Unmarshal_Marshal in Ev. by injection Ev as <-.
Qed.

(** C8: the end blocker never fails.  It removes exactly the orders whose time to live
    is over and which have coins to pay back, and pays each of them back to its
    owner; every other order stays as it is.  An expired order that stays is a bid
    whose remainder is worth less than one unit of the quote currency. *)
Theorem EndBlocker_expires caller c :
  orders_wf (orders_store c) → solvent c → capacity c →
  ∃ c', EndBlocker modulePerms caller c = (Ok tt, c') ∧
    (∀ o, o ∈ stored_orders (orders_store c) → expiry_spec (ctx_time c) o) ∧
    (∀ id, 0 ≤ id < 2 ^ 64 → order_at (orders_store c') id =
       order_at (orders_store c) id ≫= λ o, if removed (ctx_time c) o then None else Some o) ∧
    (∀ x d, balance (ctx_bank c') x d = balance (ctx_bank c) x d +
       sumZ (λ o, if removed (ctx_time c) o then refund o x d else 0) (stored_orders (orders_store c))) ∧
    orders_wf (orders_store c') ∧ solvent c'.
Proof.
  intros Hwf Hsol Hcap. destruct (EndBlocker_expired caller c Hwf Hsol Hcap) as (c' & Hrun & Hc').
  exists c'. split; [done|]. split; [|done]. intros o Ho. eapply expiry_order, stored_orders_ok; [apply Hwf|done].
Qed.
End operations.
