(* ===== verification/OrdersGenesis.v ===== *)
(** * Orders: genesis

    Export and import of the module's state.  An export of a state whose newest
    order is still stored can be imported into an empty module, and gives the same
    orders back; an export of any other state that ever had an order cannot. *)
From S2P Require Import Prelude Bytes Sdk SdkRef SdkFacts DnTypes Perms Chain Currency VMStorage CCStorage Markets MarketsFacts Orders OrdersFacts OrdersTheorems.
Local Open Scope string_scope.
Local Open Scope Z_scope.

(** The running maximum of the validation loop. *)
Definition max_id (m : Z) (l : list Order) : Z := foldl Z.max m (o_ID <$> l).

Lemma max_id_ge m l : m ≤ max_id m l ∧ ∀ o, o ∈ l → o_ID o ≤ max_id m l.
Proof.
  revert m. induction l as [|o l IH]; intros m.
  - split; [done|]. by intros o Ho%elem_of_nil.
  - destruct (IH (Z.max m (o_ID o))) as [H1 H2].
    change (max_id m (o :: l)) with (max_id (Z.max m (o_ID o)) l). split; [lia|].
    intros o' [->|Ho]%elem_of_cons; [lia|by apply H2].
Qed.

Lemma max_id_in m l : max_id m l = m ∨ ∃ o, o ∈ l ∧ max_id m l = o_ID o.
Proof.
  revert m. induction l as [|o l IH]; intros m; [by left|].
  destruct (IH (Z.max m (o_ID o))) as [E|(o' & Ho' & E)]; unfold max_id in *; simpl; rw E.
  - destruct (Z.max_spec m (o_ID o)) as [[_ ->]|[_ ->]]; [right|by left]. exists o. split; [left|done].
  - right. exists o'. split; [by right|done].
Qed.

Section genesis.
Context `{SdkTypesLaws} `{KVStoreLaws} `{LedgerLaws} `{CI : !Codec Z} `{CO : !Codec Order} `{CM : !Codec Market}.
Context `{CS : !CurrencyStorage}.
Variable modulePerms marketsPerms : ModulePermissions.
Hypothesis own_perms : mp_name modulePerms = orders.ModuleName.
Import orders.
Notation orders_store c := (ctx_stores c StoreKey).

Lemma Validate_order_inv now bt m S o acc :
  Validate_order now bt (m, S) o = Ok acc →
  acc = (Z.max m (o_ID o), {[ID_String (o_ID o)]} ∪ S) ∧ ID_String (o_ID o) ∉ S.
Proof.
  intros Hv. unfold Validate_order in Hv. ok_inv. apply bool_decide_eq_false in Hrun2. split; [|done].
  unfold ID_GT. f_equal. destruct (Z.ltb_spec m (o_ID o)); lia.
Qed.

Lemma Validate_orders_max now bt m S l acc :
  foldM (Validate_order now bt) (m, S) l = Ok acc → acc.1 = max_id m l.
Proof.
  revert m S. induction l as [|o l IH]; intros m S Hv; simpl in Hv; [by ok_inv|].
  apply outcome_bind_inv in Hv as (acc' & Hv & Hl). apply Validate_order_inv in Hv as [-> _]. by apply IH in Hl.
Qed.

(** Reading the whole store. *)
Lemma GetList_run c : entries_wf (orders_store c) →
  GetList modulePerms (mp_name modulePerms) c = (Ok (stored_orders (orders_store c)), c).
Proof.
  intros Hent. unfold GetList. rw keeper_method_self.
  set (kvs := KVStorePrefixIterator (orders_store c) OrderKeyPrefix).
  rw (M_bind_Ok _ _ _ _ kvs c); [|unfold GetIterator; by rw keeper_method_self].
  unfold stored_orders. fold kvs. apply mapM_run.
  intros [k v] [Hg Hp]%at_prefix_elem; [|done]. destruct (Hent k v Hg Hp) as (o & _ & _ & ->).
  exists o. simpl. by rw Unmarshal_Marshal.
Qed.

Lemma stored_orders_elem s o : entries_wf s → o ∈ stored_orders s ↔ 0 ≤ o_ID o < 2 ^ 64 ∧ order_at s (o_ID o) = Some o.
Proof.
  intros Hent. unfold stored_orders. rw list_elem_of_omap. split.
  - intros ([k v] & [Hg Hp]%at_prefix_elem & Hu); [|done]. destruct (Hent k v Hg Hp) as (o' & Hok & -> & ->).
    simpl in Hu. rw Unmarshal_Marshal in Hu. injection Hu as ->. split; [apply Hok|]. unfold order_at. rw Hg. simpl.
    by rw Unmarshal_Marshal.
  - intros [Hid Ho]. destruct (order_at_inv s _ o Hent Hid Ho) as (Hg & _ & _).
    exists (order_key (o_ID o), Marshal LengthPrefixed o). split; [|apply Unmarshal_Marshal].
    apply at_prefix_elem; [done|]. split; [done|apply order_key_prefix].
Qed.

(** The store yields the orders by ID. *)
Lemma stored_orders_sorted s : entries_wf s → StronglySorted (λ a b, o_ID a < o_ID b) (stored_orders s).
Proof.
  intros Hent. unfold stored_orders. set (kvs := KVStorePrefixIterator s OrderKeyPrefix).
  assert (∀ kv, kv ∈ kvs → ∃ o, order_ok o ∧ kv = (order_key (o_ID o), Marshal LengthPrefixed o)) as Hkvs.
  { intros [k v] [Hg Hp]%at_prefix_elem; [|done]. destruct (Hent k v Hg Hp) as (o & Hok & -> & ->). by exists o. }
  assert (StronglySorted (λ a b, bytes_lt a.1 b.1) kvs) as Hs by apply store_Iterator_sorted.
  clearbody kvs. induction Hs as [|kv kvs Hs IH Hx]; [constructor|].
  destruct (Hkvs kv) as (o & Hok & ->); [left|]. cbn [omap list_omap]. simpl snd. rw Unmarshal_Marshal.
  constructor; [apply IH; intros kv' Hin; apply Hkvs; by right|].
  apply Forall_forall. intros o' (kv' & Hin & Ho')%list_elem_of_omap. destruct (Hkvs kv') as (o'' & Hok' & ->); [by right|].
  simpl in Ho'. rw Unmarshal_Marshal in Ho'. injection Ho' as ->.
  rewrite Forall_forall in Hx. specialize (Hx _ Hin). simpl in Hx.
  change (bytes_lt ("order:" +:+ Uint64ToBigEndian (o_ID o)) ("order:" +:+ Uint64ToBigEndian (o_ID o'))) in Hx.
  apply bytes_lt_app, be_bytes_lt in Hx; [done|apply Hok|apply Hok'].
Qed.

Lemma ExportGenesis_run c : orders_wf (orders_store c) →
  ExportGenesis modulePerms (mp_name modulePerms) c =
    (Ok (MkGenesisState (stored_orders (orders_store c)) (last_id (orders_store c))), c).
Proof.
  intros [Hent [Hl _]]. unfold ExportGenesis. rw keeper_method_self.
  rw (M_bind_Ok _ _ _ _ _ _ (attempt_Ok _ _ _ _ _ (GetList_run c Hent))).
  rw (M_bind_Ok _ _ _ _ (bool_decide (is_Some (store_Get (orders_store c) LastOrderIDKey))) c); [|done].
  unfold last_id. destruct Hl as [Hl|(lst & Hlst & Hl)]; rw Hl; simpl.
  - done.
  - rw Unmarshal_Marshal.
    rw (M_bind_Ok _ _ _ _ lst c); [done|]. unfold getLastOrderID, mbind, M_bind, kv_Get, MustUnmarshal. rw Hl. simpl.
    by rw Unmarshal_Marshal.
Qed.

(** Once the newest order is gone (filled, revoked or expired) the exported
    genesis state is refused by its own validation: importing it panics. *)
Theorem ExportGenesis_not_importable c lst :
  orders_wf (orders_store c) → last_id (orders_store c) = Some lst → 0 ≤ lst < 2 ^ 64 →
  order_at (orders_store c) lst = None →
  ∃ gs, ExportGenesis modulePerms (mp_name modulePerms) c = (Ok gs, c) ∧
    ∀ now c0, InitGenesis modulePerms marketsPerms now gs (mp_name modulePerms) c0 = (Panic, c0).
Proof.
  intros Hwf Hlast Hrange Hgone. pose proof Hwf as [Hent _]. eexists. split; [by apply ExportGenesis_run|]. intros now c0.
  unfold InitGenesis. rw keeper_method_self. rw (M_bind_Ok BlockTime _ _ c0 (ctx_time c0) c0); [|done].
  set (gs := MkGenesisState _ _).
  assert (∀ u, GenesisState_Validate now (ctx_time c0) gs ≠ Ok u) as Hv.
  { intros u Hv. unfold GenesisState_Validate in Hv. apply outcome_bind_inv in Hv as (acc & Hacc & Hv).
    apply Validate_orders_max in Hacc. unfold gs in *. simpl in Hv, Hacc. rw Hlast in Hv. ok_inv.
    apply negb_false_iff in Hv. unfold ID_Equal in Hv. apply Z.eqb_eq in Hv. rw Hacc in Hv.
    destruct (max_id_in 0 (stored_orders (orders_store c))) as [E|(o & Ho & E)].
    - destruct (stored_orders (orders_store c)) as [|o l] eqn:El; [done|].
      assert (o ∈ stored_orders (orders_store c)) as Ho by (rw El; left).
      apply stored_orders_elem in Ho as [Hid Ho]; [|done].
      destruct (max_id_ge 0 (o :: l)) as [_ Hle]. specialize (Hle o ltac:(left)). unfold NewZeroID in Hv.
      assert (o_ID o = lst) as Ei by lia. rw Ei in Ho. by rw Hgone in Ho.
    - apply stored_orders_elem in Ho as [Hid Ho]; [|done]. unfold NewZeroID in Hv.
      assert (o_ID o = lst) as Ei by lia. rw Ei in Ho. by rw Hgone in Ho. }
  destruct (GenesisState_Validate now (ctx_time c0) gs) as [u| |]; [by destruct (Hv u)|done..].
Qed.

(** *** Import *)

Notation set_orders := (store_Set_list (λ o, order_key (o_ID o)) (Marshal LengthPrefixed)).

Lemma order_keys_NoDup l : (∀ o, o ∈ l → 0 ≤ o_ID o < 2 ^ 64) → StronglySorted (λ a b, o_ID a < o_ID b) l →
  NoDup ((λ o, order_key (o_ID o)) <$> l).
Proof.
  intros Hid Hs. induction Hs as [|x l Hs IH Hx]; [constructor|]. rw fmap_cons. constructor.
  - intros (o & E & Ho)%list_elem_of_fmap. rewrite Forall_forall in Hx. specialize (Hx o Ho).
    apply order_key_inj in E; [lia|apply Hid; by left|apply Hid; by right].
  - apply IH. intros o Ho. apply Hid. by right.
Qed.

Lemma Validate_orders_ok now bt m S l :
  (∀ o, o ∈ l → 0 ≤ o_ID o ∧ Order_Valid now o = Ok tt ∧ o_CreatedAt o ≤ bt ∧ o_UpdatedAt o ≤ bt ∧ ID_String (o_ID o) ∉ S) →
  StronglySorted (λ a b, o_ID a < o_ID b) l →
  ∃ acc, foldM (Validate_order now bt) (m, S) l = Ok acc.
Proof.
  intros Hl Hs. revert m S Hl. induction Hs as [|o l Hs IH Hx]; intros m S Hl; [by eexists|].
  destruct (Hl o) as (Hid & Hv & Hc & Hu & Hin); [left|]. cbn [foldM].
  assert (∃ m', Validate_order now bt (m, S) o = Ok (m', {[ID_String (o_ID o)]} ∪ S)) as [m' ->].
  { eexists. unfold Validate_order. rw Hv. rw (proj2 (Z.ltb_ge _ _) Hc) (proj2 (Z.ltb_ge _ _) Hu) !andb_false_r. simpl.
    by rw bool_decide_false. }
  rw outcome_bind_ok.
  apply IH. intros o' Ho'. destruct (Hl o') as (Hid' & Hv' & Hc' & Hu' & Hin'); [by right|]. split_and!; try done.
  intros [E%elem_of_singleton|]%elem_of_union; [|done].
  apply Uint_String_inj in E; [|done..]. rewrite Forall_forall in Hx. specialize (Hx o' Ho'). lia.
Qed.

(** What an import needs: valid orders, not of the future, of known markets. *)
Definition importable (now : Z) (c0 : Ctx) (l : list Order) : Prop := ∀ o, o ∈ l →
  Order_Valid now o = Ok tt ∧ o_CreatedAt o ≤ ctx_time c0 ∧ o_UpdatedAt o ≤ ctx_time c0 ∧
  ∀ c', ctx_stores c' markets.StoreKey = ctx_stores c0 markets.StoreKey →
    ∃ m, markets.Get marketsPerms (me_ID (o_Market o)) ModuleName c' = (Ok m, c').

(** The module's store is empty. *)
Definition no_orders (s : store) : Prop :=
  store_Get s LastOrderIDKey = None ∧ ∀ k, has_prefix OrderKeyPrefix k → store_Get s k = None.

Lemma import_loop l c0 :
  (∀ o, o ∈ l → 0 ≤ o_ID o < 2 ^ 64 ∧ ∀ c', ctx_stores c' markets.StoreKey = ctx_stores c0 markets.StoreKey →
    ∃ m, markets.Get marketsPerms (me_ID (o_Market o)) ModuleName c' = (Ok m, c')) →
  ∃ c1, forM l (λ order,
      r ← attempt (markets.Get marketsPerms (me_ID (o_Market order)));
      match r with Ok _ => set order | _ => panic end) ModuleName c0 = (Ok tt, c1) ∧
    orders_store c1 = set_orders (orders_store c0) l ∧ ctx_time c1 = ctx_time c0.
Proof.
  revert c0. induction l as [|o l IH]; intros c0 Hl; [by eexists|].
  destruct (Hl o) as (Hid & Hm); [left|]. destruct (Hm c0 eq_refl) as [m Hget].
  set (c1 := set_store c0 StoreKey (store_Set (orders_store c0) (order_key (o_ID o)) (Marshal LengthPrefixed o))).
  destruct (IH c1) as (c2 & Hrun & Hst & Ht).
  { intros o' Ho'. destruct (Hl o') as (Hid' & Hm'); [by right|]. by split. }
  exists c2. split; [|by rw Hst Ht]. cbn [forM].
  assert (set o ModuleName c0 = (Ok tt, c1)) as Hset by (unfold set; by rw GetOrderKey_ok).
  rw (M_bind_Ok _ _ _ _ tt c1); [|by rw (M_bind_Ok _ _ _ _ _ _ (attempt_Ok _ _ _ _ _ Hget))]. done.
Qed.

(** The export of a state that holds its newest order is valid. *)
Lemma export_valid now c0 s :
  orders_wf s → (∀ lst, last_id s = Some lst → 0 ≤ lst < 2 ^ 64 ∧ order_at s lst ≠ None) →
  importable now c0 (stored_orders s) →
  ∃ u, GenesisState_Validate now (ctx_time c0) (MkGenesisState (stored_orders s) (last_id s)) = Ok u.
Proof.
  intros [Hent [_ Hids]] Hlast Himp. unfold GenesisState_Validate. cbn [gs_Orders gs_LastOrderId].
  assert (∀ o, o ∈ stored_orders s → 0 ≤ o_ID o < 2 ^ 64 ∧ order_at s (o_ID o) = Some o) as Hel
    by (intros o; by apply stored_orders_elem).
  destruct (Validate_orders_ok now (ctx_time c0) NewZeroID ∅ (stored_orders s)) as [acc Hacc];
    [|by apply stored_orders_sorted|].
  { intros o Ho. destruct (Himp o Ho) as (Hv & Hc & Hu & _). split_and!; [apply Hel in Ho; lia|done|done|done|].
    apply not_elem_of_empty. }
  rw Hacc outcome_bind_ok. apply Validate_orders_max in Hacc. destruct (last_id s) as [lst|] eqn:El.
  - destruct (Hlast lst eq_refl) as [Hr Hsome]. destruct (order_at s lst) as [o|] eqn:Ho; [|done].
    destruct (order_at_inv s lst o Hent Hr Ho) as (_ & Hok & Eid).
    assert (o ∈ stored_orders s) as Hin by (apply stored_orders_elem; [done|]; by rw Eid).
    assert (max_id NewZeroID (stored_orders s) = lst) as Emax.
    { destruct (max_id_ge NewZeroID (stored_orders s)) as [_ Hge]. specialize (Hge o Hin).
      destruct (max_id_in NewZeroID (stored_orders s)) as [E|(o' & Ho' & E)]; rw E in Hge |- *; [unfold NewZeroID in *; lia|].
      destruct (Hel o' Ho') as [Hid' Hat']. destruct (Hids _ o' Hid' Hat') as (lst' & [= <-] & ?). lia. }
    rw Hacc Emax. unfold ID_Equal. rw Z.eqb_refl. destruct (stored_orders s); [by apply elem_of_nil in Hin|]. by eexists.
  - destruct (stored_orders s) as [|o l'] eqn:Ell; [by eexists|]. destruct (Hel o) as [Hid Hat]; [left|].
    by destruct (Hids _ o Hid Hat) as (lst' & ? & _).
Qed.

(** Stores with the same orders and last ID. *)
Definition same_orders (s s2 : store) : Prop :=
  (∀ k, has_prefix OrderKeyPrefix k → store_Get s2 k = store_Get s k) ∧
  store_Get s2 LastOrderIDKey = Marshal Bare <$> last_id s.

Lemma same_orders_wf s s2 : orders_wf s → same_orders s s2 →
  orders_wf s2 ∧ last_id s2 = last_id s ∧ stored_orders s2 = stored_orders s ∧
  ∀ id, order_at s2 id = order_at s id.
Proof.
  intros [Hent [Hl Hids]] [Hsame Hlast].
  assert (last_id s2 = last_id s) as El.
  { unfold last_id at 1. rw Hlast. destruct (last_id s); simpl; [apply Unmarshal_Marshal|done]. }
  assert (∀ id, order_at s2 id = order_at s id) as Hat.
  { intros id. unfold order_at. rw Hsame; [done|apply order_key_prefix]. }
  split; [split; [|split]|split; [done|split; [|done]]].
  - intros k v Hg Hk. rw Hsame in Hg; [|done]. by apply Hent.
  - rw Hlast. destruct Hl as [Hl|(lst & Hlst & Hl)]; unfold last_id; rw Hl; simpl; [by left|].
    rw Unmarshal_Marshal. right. by exists lst.
  - intros id o Hid. rw Hat El. by apply Hids.
  - unfold stored_orders. by rw (at_prefix_ext s2 s).
Qed.

(** What an import writes. *)
Lemma import_run now c0 s :
  orders_wf s → (∀ lst, last_id s = Some lst → 0 ≤ lst < 2 ^ 64 ∧ order_at s lst ≠ None) →
  no_orders (orders_store c0) → importable now c0 (stored_orders s) →
  ∃ c1, InitGenesis modulePerms marketsPerms now (MkGenesisState (stored_orders s) (last_id s)) (mp_name modulePerms) c0
          = (Ok tt, c1) ∧ same_orders s (orders_store c1).
Proof.
  intros Hwf Hlast [Hno1 Hno2] Himp. pose proof Hwf as [Hent _].
  destruct (export_valid now c0 s Hwf Hlast Himp) as [u Hval]. set (l := stored_orders s) in *.
  assert (∀ o, o ∈ l → 0 ≤ o_ID o < 2 ^ 64 ∧ order_at s (o_ID o) = Some o) as Hel by (intros o; by apply stored_orders_elem).
  destruct (import_loop l c0) as (c1 & Hloop & Hst & Ht).
  { intros o Ho. split; [by apply Hel|]. by apply Himp. }
  exists (match last_id s with
          | Some id => set_store c1 StoreKey (store_Set (orders_store c1) LastOrderIDKey (Marshal Bare id))
          | None => c1 end).
  split; [|split].
  - unfold InitGenesis. rw keeper_method_self. rw (M_bind_Ok BlockTime _ _ c0 (ctx_time c0) c0); [|done].
    rw Hval. rw (M_bind_Ok _ _ _ _ tt c0); [|done]. rw own_perms. cbn [gs_Orders gs_LastOrderId].
    rw (M_bind_Ok _ _ _ _ _ _ Hloop). by destruct (last_id s).
  - intros k Hk. trans (store_Get (set_orders (orders_store c0) l) k).
    { rw -Hst. destruct (last_id s); [|done]. simpl. rw store_Get_Set. case_decide as E; [|done].
      subst k. by apply LastOrderIDKey_no_prefix in Hk. }
    destruct (store_Get s k) as [v|] eqn:Hg.
    + destruct (Hent k v Hg Hk) as (o & Hok & -> & ->).
      apply (store_Set_list_in (λ o, order_key (o_ID o))).
      { apply order_keys_NoDup; [by intros o' Ho'; apply Hel|by apply stored_orders_sorted]. }
      apply stored_orders_elem; [done|]. split; [apply Hok|]. unfold order_at. rw Hg. simpl. by rw Unmarshal_Marshal.
    + rw store_Set_list_other; [by apply Hno2|]. intros (o & -> & Ho)%list_elem_of_fmap. apply Hel in Ho as [Hid Hat].
      destruct (order_at_inv s _ o Hent Hid Hat) as (Hg' & _ & _). by rw Hg in Hg'.
  - destruct (last_id s) as [id|]; simpl; [by rw store_Get_Set|]. rw Hst store_Set_list_other; [done|]. by intros (o & E & _)%list_elem_of_fmap.
Qed.

(** C10: as long as the newest order is stored (or none was ever posted), exporting
    the module and importing the result into an empty one gives the same orders
    under the same IDs and the same last ID; exporting again gives the same
    state. *)
Theorem genesis_roundtrip now c c0 :
  orders_wf (orders_store c) →
  (∀ lst, last_id (orders_store c) = Some lst → 0 ≤ lst < 2 ^ 64 ∧ order_at (orders_store c) lst ≠ None) →
  no_orders (orders_store c0) → importable now c0 (stored_orders (orders_store c)) →
  ∃ gs c1, ExportGenesis modulePerms (mp_name modulePerms) c = (Ok gs, c) ∧
    InitGenesis modulePerms marketsPerms now gs (mp_name modulePerms) c0 = (Ok tt, c1) ∧
    (∀ id, 0 ≤ id < 2 ^ 64 → order_at (orders_store c1) id = order_at (orders_store c) id) ∧
    last_id (orders_store c1) = last_id (orders_store c) ∧
    ExportGenesis modulePerms (mp_name modulePerms) c1 = (Ok gs, c1).
Proof.
  intros Hwf Hlast Hno Himp. destruct (import_run now c0 _ Hwf Hlast Hno Himp) as (c1 & Hinit & Hsame).
  destruct (same_orders_wf _ _ Hwf Hsame) as (Hwf1 & El & Est & Hat).
  exists (MkGenesisState (stored_orders (orders_store c)) (last_id (orders_store c))), c1. split; [by apply ExportGenesis_run|].
  split; [done|]. split; [by intros|]. split; [done|]. rw ExportGenesis_run; [|done]. by rw El Est.
Qed.
End genesis.
