(* ===== verification/Scenario.v ===== *)
(** * A concrete chain

    Codecs, currencies, permissions and a small state on which the witnesses of the
    keepers' theorems are evaluated: one market ([btc_usdt]), one trader with both
    coins. *)
From S2P Require Import Prelude Bytes Sdk SdkRef SdkFacts DnTypes Perms Chain Currency VMStorage CCStorage Markets MarketsFacts Orders OrdersFacts.
Local Open Scope string_scope.
Local Open Scope Z_scope.

(** ** Codecs *)
#[export] Instance currency_countable : Countable Currency.
Proof.
  refine (inj_countable' (λ c, ((cur_Denom c, cur_Decimals c), (cur_Supply c, cur_ContractAddress c)))
    (λ x, MkCurrency x.1.1 x.1.2 x.2.1 x.2.2) _). abstract (by intros []).
Defined.
#[export] Instance marketext_countable : Countable MarketExtended.
Proof.
  refine (inj_countable' (λ m, (me_ID m, (me_BaseCurrency m, me_QuoteCurrency m)))
    (λ x, MkMarketExtended x.1 x.2.1 x.2.2) _). abstract (by intros []).
Defined.
#[export] Instance market_countable : Countable Market.
Proof.
  refine (inj_countable' (λ m, (mkt_ID m, (mkt_BaseAssetDenom m, mkt_QuoteAssetDenom m)))
    (λ x, MkMarket x.1 x.2.1 x.2.2) _). abstract (by intros []).
Defined.
#[export] Instance order_countable : Countable Order.
Proof.
  refine (inj_countable'
    (λ o, ((o_Market o, ((o_ID o, o_Owner o), (o_Direction o, o_Price o))),
           ((o_Quantity o, o_Ttl o), (o_CreatedAt o, o_UpdatedAt o))))
    (λ x, MkOrder x.1.2.1.1 x.1.2.1.2 x.1.1 x.1.2.2.1 x.1.2.2.2 x.2.1.1 x.2.1.2 x.2.2.1 x.2.2.2) _).
  abstract (by intros []).
Defined.

#[export] Instance codec_Z : Codec Z := codec_of_countable Z.
#[export] Instance codec_Market : Codec Market := codec_of_countable Market.
#[export] Instance codec_Order : Codec Order := codec_of_countable Order.
#[export] Instance codec_Currency : Codec Currency := codec_of_countable Currency.

(** ** Currencies that never change *)
Definition btc : Currency := MkCurrency "btc" 8 0 "".
Definition usdt : Currency := MkCurrency "usdt" 6 0 "".

Definition find_currency (denom : string) : option Currency :=
  if decide (denom = "btc") then Some btc else if decide (denom = "usdt") then Some usdt else None.

#[export] Instance fixed_currencies : CurrencyStorage := {|
  ccs_HasCurrency denom := mret (bool_decide (is_Some (find_currency denom)));
  ccs_GetCurrency denom := match find_currency denom with Some cur => mret cur | None => throw ccstorage.ErrWrongDenom end;
|}.

#[export] Instance fixed_currencies_laws : CurrencyStorageLaws (λ _, True) "ccstorage".
Proof.
  refine {| ccs_wf _ := True; cur_read _ := find_currency |}; simpl.
  - done.
  - intros m c denom cur _ _ E. by rw E.
  - intros m c denom _ _ E. rw E. by eexists.
  - intros s denom cur _ E. unfold find_currency in E. repeat case_decide; by simplify_eq.
  - intros s denom cur _ E. unfold find_currency in E. repeat case_decide; by simplify_eq.
  - intros denom. apply reads_ret.
  - intros denom. destruct (find_currency denom); [apply reads_ret|apply reads_throw].
Defined.

(** ** Permissions *)
Definition orders_perms : ModulePermissions := orders.NewModulePerms.
Definition markets_perms : ModulePermissions :=
  match markets.NewKeeper [orders.RequestMarketsPerms] with Ok p => p | _ => markets.NewModulePerms end.

(** ** The state *)

(** An account: addresses are 20 bytes. *)
Definition alice : string := "alice-wallet-address".

Definition btc_usdt : MarketExtended := MkMarketExtended 0 btc usdt.

(** 2020-06-01. *)
Definition genesis_time : Z := 1590969600 * 10 ^ 9.

Definition start : Ctx := MkCtx
  (λ k, if decide (k = markets.StoreKey)
        then {[ markets.GetMarketsKey 0 := Marshal LengthPrefixed (MkMarket 0 "btc" "usdt") ]} else ∅)
  {[ (alice, "btc") := 500000000%N; (alice, "usdt") := 20000000000%N ]} [] 1 genesis_time.

Definition post (direction : string) (price quantity ttl : Z) (c : Ctx) : outcome Order * Ctx :=
  orders.PostOrder orders_perms markets_perms alice "btc_usdt" direction price quantity ttl "orders" c.

Lemma id_0 : 0 ≤ 0 < 2 ^ 64.
Proof. split; [discriminate|reflexivity]. Qed.
Lemma id_7 : 0 ≤ 7 < 2 ^ 64.
Proof. split; [discriminate|reflexivity]. Qed.

(** A bid of 1.5 btc at 9000.000001 usdt, as [PostOrder] stores it. *)
Definition ex_bid : Order :=
  MkOrder 0 alice btc_usdt orders.Bid 9000000001 150000000 (60 * 10 ^ 9) genesis_time genesis_time.

Definition empty_store : store (KVStore := KVStore_ref) := (∅ : gmap string string).

(** The store after the order with the newest ID was posted into an empty one. *)
Definition one_order (o : Order) : store :=
  store_Set (store_Set empty_store (order_key (o_ID o)) (Marshal LengthPrefixed o))
    orders.LastOrderIDKey (Marshal Bare (o_ID o)).

(** [start] with an order posted and its coins locked, at time [t]. *)
Definition with_order (o : Order) (t : Z) : Ctx := MkCtx
  (λ k, if decide (k = orders.StoreKey) then one_order o else ctx_stores start k)
  {[ (alice, "btc") := 500000000%N; ("module/orders", "usdt") := 13500000001%N; ("module/orders", "btc") := 150000000%N ]} [] 1 t.

Lemma empty_orders_wf : orders_wf empty_store.
Proof.
  split; [|split].
  - by intros k v Hg.
  - by left.
  - by intros id o _ Ho.
Qed.

Lemma empty_order_at id : order_at empty_store id = None.
Proof. done. Qed.

Section one.
Context (o : Order) (Hok : order_ok o).

Lemma one_order_at id : 0 ≤ id < 2 ^ 64 → order_at (one_order o) id = if decide (id = o_ID o) then Some o else None.
Proof.
  intros Hid. trans (order_at (store_Set empty_store (order_key (o_ID o)) (Marshal LengthPrefixed o)) id).
  - unfold one_order, order_at. rw store_Get_Set. case_decide; done.
  - rw order_at_Set; [done|apply Hok|done].
Qed.

Lemma one_order_wf : orders_wf (one_order o).
Proof.
  split; [|split].
  - apply entries_wf_setID, entries_wf_Set; [apply empty_orders_wf|done].
  - right. exists (o_ID o). split; [apply Hok|]. unfold one_order. by rw store_Get_Set.
  - intros id o' Hid Ho. exists (o_ID o). split.
    + unfold last_id, one_order. rw store_Get_Set. exact (Unmarshal_Marshal Bare (o_ID o)).
    + rw one_order_at in Ho; [|done]. case_decide; [lia|done].
Qed.

Lemma one_order_escrow d : escrow (one_order o) d = lock_amount o d.
Proof.
  unfold one_order. rw escrow_setID escrow_Set -(escrow_absent _ d); [|apply empty_orders_wf|done].
  assert (escrow empty_store d = 0) as -> by reflexivity. lia.
Qed.
End one.

Lemma with_order_wf o t : order_ok o → orders_wf (ctx_stores (with_order o t) orders.StoreKey).
Proof. exact (one_order_wf o). Qed.
Lemma with_order_at o t id : order_ok o → 0 ≤ id < 2 ^ 64 → id = o_ID o →
  order_at (ctx_stores (with_order o t) orders.StoreKey) id = Some o.
Proof.
  intros Hok Hid ->. change (order_at (one_order o) (o_ID o) = Some o).
  rw (one_order_at o Hok); [|apply Hok]. by rw decide_True.
Qed.
Lemma with_order_absent o t id : order_ok o → 0 ≤ id < 2 ^ 64 → id ≠ o_ID o →
  order_at (ctx_stores (with_order o t) orders.StoreKey) id = None.
Proof.
  intros Hok Hid Hne. change (order_at (one_order o) id = None).
  rw (one_order_at o Hok); [|done]. by rw decide_False.
Qed.

Lemma ex_bid_lock : orders.LockCoin ex_bid = Ok (MkCoin "usdt" 13500000001).
Proof. vm_compute. reflexivity. Qed.
Lemma ex_bid_ok : order_ok ex_bid.
Proof.
  split; [split; vm_compute; congruence|split; vm_compute; congruence|vm_compute; congruence|vm_compute; reflexivity|
    intros E; discriminate E|by rw ex_bid_lock].
Qed.

Lemma ex_bid_at t : order_at (ctx_stores (with_order ex_bid t) orders.StoreKey) 0 = Some ex_bid.
Proof. apply with_order_at; [exact ex_bid_ok|split; [discriminate|reflexivity]|reflexivity]. Qed.

Lemma with_order_balance o t x d : ref_balance (ctx_bank (with_order o t)) x d ≤ 13500000001.
Proof. unfold with_order. simpl ctx_bank. rw !ref_balance_insert. repeat case_decide; vm_compute; done. Qed.

Lemma ex_bid_solvent t : solvent (with_order ex_bid t).
Proof.
  intros d. change (escrow (one_order ex_bid) d ≤ ref_balance (ctx_bank (with_order ex_bid t)) "module/orders" d).
  rw one_order_escrow (lock_amount_ok _ _ _ ex_bid_lock). simpl coin_Denom. simpl coin_Amount.
  case_decide as E; [subst d; vm_compute; done|apply ref_balance_nonneg].
Qed.
