(* ===== verification/OrdersWitnesses.v ===== *)
(** * Orders: the theorems on the concrete chain *)
From S2P Require Import Prelude Bytes Sdk SdkRef SdkFacts DnTypes Perms Chain Currency VMStorage CCStorage Markets MarketsFacts Orders OrdersFacts OrdersTheorems OrdersGenesis Scenario.
Local Open Scope string_scope.
Local Open Scope Z_scope.

(** A bid is posted into the empty module. *)
Lemma PostOrder_posts_witness :
  ∃ c', post orders.Bid 9000000001 150000000 60 start = (Ok ex_bid, c') ∧ posted start c' ex_bid.
Proof.
  assert ((post orders.Bid 9000000001 150000000 60 start).1 = Ok ex_bid) as E by (vm_compute; reflexivity).
  exists (post orders.Bid 9000000001 150000000 60 start).2.
  assert (post orders.Bid 9000000001 150000000 60 start = (Ok ex_bid, (post orders.Bid 9000000001 150000000 60 start).2)) as Hrun
    by (rw -E; by destruct (post _ _ _ _ _)).
  split; [exact Hrun|].
  apply (PostOrder_posts orders_perms markets_perms (λ _, True) "ccstorage" I "orders" start _ alice "btc_usdt"
    orders.Bid 9000000001 150000000 60 ex_bid).
  - exact empty_orders_wf.
  - intros d. apply ref_balance_nonneg.
  - exact I.
  - discriminate.
  - discriminate.
  - discriminate.
  - exact Hrun.
Defined.

(** An order so small that it is worth nothing: it stays. *)
Definition dust : Order := MkOrder 0 alice btc_usdt orders.Bid 1 1 (60 * 10 ^ 9) genesis_time genesis_time.

Lemma dust_ok : order_ok dust.
Proof.
  split; [split; vm_compute; congruence|split; vm_compute; congruence|vm_compute; congruence|vm_compute; reflexivity|
    intros E; discriminate E|vm_compute; discriminate].
Qed.

Lemma dust_lock : orders.LockCoin dust = Err markets.ErrInvalidQuantity.
Proof. vm_compute. reflexivity. Qed.
Lemma dust_at t : order_at (ctx_stores (with_order dust t) orders.StoreKey) 0 = Some dust.
Proof. apply with_order_at; [exact dust_ok|split; [discriminate|reflexivity]|reflexivity]. Qed.
Lemma dust_missing t : order_at (ctx_stores (with_order dust t) orders.StoreKey) 7 = None.
Proof. apply with_order_absent; [exact dust_ok|split; [discriminate|reflexivity]|discriminate]. Qed.

Lemma dust_solvent t : solvent (with_order dust t).
Proof.
  intros d. change (escrow (one_order dust) d ≤ ref_balance (ctx_bank (with_order dust t)) "module/orders" d).
  rw one_order_escrow. unfold lock_amount. rw dust_lock. apply ref_balance_nonneg.
Qed.

(** The coins of the bid, from their specification. *)
Lemma ex_bid_coins coin : locked_coin ex_bid coin → coin = MkCoin "usdt" 13500000001.
Proof.
  intros [(_ & Hd & r & Hr & Hle & Ha)|(E & _)]; [|discriminate E]. destruct coin as [d a]. simpl in Hd, Ha. subst d.
  unfold cost_rounded, cost_unit, cost_scale in *. simpl in *.
  assert (r = 13500000001500000000000) as -> by lia. subst a. reflexivity.
Qed.

Lemma ex_bid_payable : ¬ unpayable ex_bid.
Proof.
  intros [[_ Hw]|[E _]]; [|by apply E]. apply worthless_small in Hw; [vm_compute in Hw; discriminate Hw|apply ex_bid_ok|discriminate..].
Qed.

Lemma dust_unpayable coin : ¬ locked_coin dust coin.
Proof.
  intros [(_ & _ & Hv)|(E & _)]; [|discriminate E].
  apply quote_value_worth in Hv as [_ Hv]; [by vm_compute in Hv|apply dust_ok].
Qed.

(** The bid is paid back; the dust is refused. *)
Lemma RevokeOrder_refunds_witness :
  (∃ c', orders.RevokeOrder orders_perms 0 "orders" (with_order ex_bid genesis_time) = (Ok tt, c') ∧
    order_at (ctx_stores c' orders.StoreKey) 0 = None ∧ ref_balance (ctx_bank c') alice "usdt" = 13500000001) ∧
  ∃ e, orders.RevokeOrder orders_perms 0 "orders" (with_order dust genesis_time) = (Err e, with_order dust genesis_time).
Proof.
  split.
  - destruct (RevokeOrder_refunds orders_perms 0 ex_bid "orders" (with_order ex_bid genesis_time))
      as [(coin & c' & Hcoin & Hrun & Hat & Hb & _)|[Hu _]].
    + reflexivity.
    + exact (with_order_wf ex_bid _ ex_bid_ok).
    + apply ex_bid_solvent.
    + exact id_0.
    + apply ex_bid_at.
    + intros d. pose proof (with_order_balance ex_bid genesis_time (o_Owner ex_bid) d) as Hb.
      rw (lock_amount_ok _ _ d ex_bid_lock). simpl coin_Amount.
      apply (Z.le_lt_trans _ (13500000001 + 13500000001)); [apply Z.add_le_mono; [exact Hb|case_decide; lia]|reflexivity].
    + apply ex_bid_coins in Hcoin as ->. exists c'. split; [exact Hrun|]. split.
      * exact (Hat 0 id_0).
      * etransitivity; [exact (Hb alice "usdt")|]. vm_compute. reflexivity.
    + by destruct ex_bid_payable.
  - destruct (RevokeOrder_refunds orders_perms 0 dust "orders" (with_order dust genesis_time))
      as [(coin & c' & Hcoin & _)|[_ He]].
    + reflexivity.
    + exact (with_order_wf dust _ dust_ok).
    + apply dust_solvent.
    + exact id_0.
    + apply dust_at.
    + intros d. pose proof (with_order_balance dust genesis_time (o_Owner dust) d) as Hb.
      unfold lock_amount. rw dust_lock. apply (Z.le_lt_trans _ (13500000001 + 0)); [apply Z.add_le_mono; [exact Hb|done]|reflexivity].
    + by destruct (dust_unpayable coin).
    + exact He.
Defined.

Lemma RevokeOrder_errors_witness :
  orders.RevokeOrder orders_perms 0 "orders" (with_order dust genesis_time) =
    (Err markets.ErrInvalidQuantity, with_order dust genesis_time) ∧
  orders.RevokeOrder orders_perms 7 "orders" (with_order dust genesis_time) =
    (Err orders.ErrWrongOrderID, with_order dust genesis_time).
Proof.
  split.
  - pose proof (RevokeOrder_errors orders_perms markets_perms eq_refl 0 "orders" (with_order dust genesis_time)
      eq_refl (proj1 (with_order_wf dust _ dust_ok)) id_0) as H.
    replace (order_at (ctx_stores (with_order dust genesis_time) orders.StoreKey) 0) with (Some dust) in H
      by (symmetry; exact (dust_at _)).
    exact (proj1 (proj1 H markets.ErrInvalidQuantity dust_lock)).
  - pose proof (RevokeOrder_errors orders_perms markets_perms eq_refl 7 "orders" (with_order dust genesis_time)
      eq_refl (proj1 (with_order_wf dust _ dust_ok)) id_7) as H.
    replace (order_at (ctx_stores (with_order dust genesis_time) orders.StoreKey) 7) with (@None Order) in H
      by (symmetry; exact (dust_missing _)).
    exact H.
Defined.

(** A fill of a third of the bid. *)
Definition ex_fill : OrderFill := MkOrderFill ex_bid 9000000000 100000000 50000000.

Lemma ex_fill_ok t : ∀ f, f ∈ [ex_fill] → fill_ok (ctx_stores (with_order ex_bid t) orders.StoreKey) f.
Proof.
  intros f ->%list_elem_of_singleton. split; [|split; [split; [discriminate|reflexivity]|split; discriminate]].
  apply ex_bid_at.
Qed.

Definition after_ex_fill (t : Z) := orders.ExecuteOrderFills orders_perms [ex_fill] "orders" (with_order ex_bid t).
Lemma after_ex_fill_run t : after_ex_fill t = (Ok tt, (after_ex_fill t).2).
Proof.
  assert ((after_ex_fill t).1 = Ok tt) as E by (vm_compute; reflexivity).
  rw -E. by destruct (after_ex_fill t).
Qed.

Lemma ex_fill_amounts f : f ∈ [ex_fill] → fill_amounts f.
Proof. intros ->%list_elem_of_singleton. split; [discriminate|]. split; [discriminate|reflexivity]. Qed.

Lemma ex_fill_refund back : bid_refund ex_fill back → back = 1.
Proof.
  intros [(r & Hr & Hle & ->)|[Hw _]].
  - unfold cost_rounded, cost_unit, cost_scale in *. simpl in *. assert (r = 1000000000000) as -> by lia. reflexivity.
  - apply worthless_small in Hw; [vm_compute in Hw; discriminate Hw|apply ex_bid_ok|discriminate..].
Qed.

(** The bid gets the third it bought, and a quote unit for the difference of one
    unit in the price. *)
Lemma ExecuteOrderFills_effect_witness :
  order_at (ctx_stores (after_ex_fill 0).2 orders.StoreKey) 0 = Some (orders.with_Quantity ex_bid 50000000 0) ∧
  ref_balance (ctx_bank (after_ex_fill 0).2) alice "btc" = 600000000 ∧
  ref_balance (ctx_bank (after_ex_fill 0).2) alice "usdt" = 1.
Proof.
  destruct (ExecuteOrderFills_effect orders_perms [ex_fill] "orders" (with_order ex_bid 0) tt (after_ex_fill 0).2)
    as (pay & Hset & _ & Hb & _).
  - exact (with_order_wf ex_bid _ ex_bid_ok).
  - apply ex_bid_solvent.
  - intros f Hf. split; [by apply ex_fill_ok|by apply ex_fill_amounts].
  - apply NoDup_singleton.
  - exact (after_ex_fill_run 0).
  - destruct (Hset ex_fill) as [back _ Hback Hpay Hleft|v E|[[E _]|[E _]]]; [left| |discriminate E|discriminate E|by destruct E].
    apply ex_fill_refund in Hback as ->.
    split; [exact Hleft|]. split.
    + etransitivity; [exact (Hb alice "btc")|]. rw sumZ_cons sumZ_nil Hpay. vm_compute. reflexivity.
    + etransitivity; [exact (Hb alice "usdt")|]. rw sumZ_cons sumZ_nil Hpay. vm_compute. reflexivity.
Defined.

Lemma ExecuteOrderFills_no_debit_witness :
  ref_balance (ctx_bank (after_ex_fill 0).2) "module/orders" "usdt" = 13500000001.
Proof.
  destruct (ExecuteOrderFills_no_debit orders_perms [ex_fill] "orders" (with_order ex_bid 0) tt (after_ex_fill 0).2)
    as (Hm & _).
  - exact (with_order_wf ex_bid _ ex_bid_ok).
  - apply ex_bid_solvent.
  - apply ex_fill_ok.
  - apply NoDup_singleton.
  - exact (after_ex_fill_run 0).
  - etransitivity; [exact (Hm "usdt")|]. vm_compute. reflexivity.
Defined.

(** The bid's minute is over. *)
Lemma ex_bid_capacity t : capacity (with_order ex_bid t).
Proof.
  intros x d. pose proof (with_order_balance ex_bid t x d) as Hb.
  change (ref_balance (ctx_bank (with_order ex_bid t)) x d + escrow (one_order ex_bid) d < maxInt).
  rw one_order_escrow (lock_amount_ok _ _ _ ex_bid_lock). simpl coin_Amount.
  apply (Z.le_lt_trans _ (13500000001 + 13500000001)); [|reflexivity]. case_decide; lia.
Qed.

Definition expired : Ctx := with_order ex_bid (genesis_time + 60 * 10 ^ 9).

Lemma EndBlocker_expires_witness :
  ∃ c', orders.EndBlocker orders_perms "orders" expired = (Ok tt, c') ∧
    order_at (ctx_stores c' orders.StoreKey) 0 = None.
Proof.
  destruct (EndBlocker_expires orders_perms eq_refl "orders" expired) as (c' & Hrun & _ & Hat & _).
  - exact (with_order_wf ex_bid _ ex_bid_ok).
  - apply ex_bid_solvent.
  - apply ex_bid_capacity.
  - exists c'. split; [exact Hrun|]. etransitivity; [exact (Hat 0 id_0)|].
    replace (order_at (ctx_stores expired orders.StoreKey) 0) with (Some ex_bid) by (symmetry; exact (ex_bid_at _)).
    vm_compute. reflexivity.
Defined.

(** The store after the bid is gone. *)
Definition revoked : Ctx :=
  set_store (with_order ex_bid genesis_time) orders.StoreKey (store_Delete (one_order ex_bid) (order_key 0)).

Lemma revoked_store : ctx_stores revoked orders.StoreKey = store_Delete (one_order ex_bid) (order_key 0).
Proof. reflexivity. Qed.

Lemma ExportGenesis_not_importable_witness :
  ∃ gs, orders.ExportGenesis orders_perms "orders" revoked = (Ok gs, revoked) ∧
    orders.InitGenesis orders_perms markets_perms genesis_time gs "orders" start = (Panic, start).
Proof.
  destruct (ExportGenesis_not_importable orders_perms markets_perms revoked 0) as (gs & Hexp & Himp).
  - rw revoked_store. exact (deleted_wf _ 0 (one_order_wf ex_bid ex_bid_ok) id_0).
  - rw revoked_store (last_id_Delete (one_order ex_bid) 0). vm_compute. reflexivity.
  - exact id_0.
  - rw revoked_store (order_at_Delete (one_order ex_bid) 0 0 id_0 id_0). reflexivity.
  - exists gs. split; [exact Hexp|]. exact (Himp genesis_time start).
Defined.

Lemma ex_importable : importable markets_perms genesis_time start (stored_orders (ctx_stores (with_order ex_bid genesis_time) orders.StoreKey)).
Proof.
  intros o Ho. apply stored_orders_elem in Ho as [Hid Ho]; [|exact (proj1 (with_order_wf ex_bid _ ex_bid_ok))].
  change (order_at (one_order ex_bid) (o_ID o) = Some o) in Ho. rw (one_order_at ex_bid ex_bid_ok) in Ho; [|done].
  case_decide; [|done]. injection Ho as <-. split; [vm_compute; reflexivity|].
  split; [vm_compute; congruence|]. split; [vm_compute; congruence|].
  intros c' Hc'. exists (MkMarket 0 "btc" "usdt"). unfold markets.Get. rw keeper_method_granted; [|vm_compute; reflexivity].
  unfold mbind, M_bind, kv_Get, markets.decode_market, MustUnmarshal. rw Hc'.
  assert (store_Get (ctx_stores start markets.StoreKey) (markets.GetMarketsKey (me_ID (o_Market ex_bid))) =
    Some (Marshal LengthPrefixed (MkMarket 0 "btc" "usdt"))) as -> by (vm_compute; reflexivity).
  by rw Unmarshal_Marshal.
Qed.

Lemma genesis_roundtrip_witness :
  ∃ gs c1, orders.ExportGenesis orders_perms "orders" (with_order ex_bid genesis_time) = (Ok gs, with_order ex_bid genesis_time) ∧
    orders.InitGenesis orders_perms markets_perms genesis_time gs "orders" start = (Ok tt, c1) ∧
    order_at (ctx_stores c1 orders.StoreKey) 0 = Some ex_bid.
Proof.
  destruct (genesis_roundtrip orders_perms markets_perms eq_refl genesis_time (with_order ex_bid genesis_time) start)
    as (gs & c1 & Hexp & Himp & Hat & _).
  - exact (with_order_wf ex_bid _ ex_bid_ok).
  - intros lst Hl. assert (Some 0 = Some lst) as E by (rw -Hl; vm_compute; reflexivity). injection E as <-.
    split; [exact id_0|]. rw (ex_bid_at genesis_time). intros E. discriminate E.
  - split; [reflexivity|]. intros k _. reflexivity.
  - exact ex_importable.
  - exists gs, c1. split; [exact Hexp|]. split; [exact Himp|]. etransitivity; [exact (Hat 0 id_0)|]. exact (ex_bid_at _).
Defined.
