(* ===== verification/Aggregates.v ===== *)
(** * Sorting and aggregating orders
    ([x/orderbook/internal/keeper/order_sorter.go], [order_aggs.go])

    Bids and asks are sorted by price and summed up to one entry per price: the
    asks' quantities accumulate from the lowest price, the bids' from the
    highest. *)
From S2P Require Import Prelude Bytes Sdk SdkRef DnTypes Markets Orders.
Local Open Scope Z_scope.

(** ** [sort.Interface] *)
Definition ByPriceAscIDDesc_Less (x y : Order) : bool :=
  if o_Price x =? o_Price y then ID_GT (o_ID x) (o_ID y) else o_Price x <? o_Price y.

Definition ByPriceAscIDAsc_Less (x y : Order) : bool :=
  if o_Price x =? o_Price y then ID_LT (o_ID x) (o_ID y) else o_Price x <? o_Price y.

(** ** Aggregates *)
Record OrderAggregate := MkOrderAggregate { agg_Price : Uint; agg_Quantity : Uint }.

#[export] Instance order_aggregate_eq_dec : EqDecision OrderAggregate.
Proof. solve_decision. Defined.

Section aggs.
Context `{ST : SdkTypes}.

Definition first_agg (order : Order) : OrderAggregate := MkOrderAggregate (o_Price order) (o_Quantity order).

(** One iteration of the bids' loop: [aggs[0]] is the entry being summed. *)
Definition add_bid (aggs : list OrderAggregate) (order : Order) : outcome (list OrderAggregate) :=
  match aggs with
  | agg :: rest =>
      quantity ← Uint_Add (agg_Quantity agg) (o_Quantity order);
      if agg_Price agg =? o_Price order then Ok (MkOrderAggregate (agg_Price agg) quantity :: rest)
      else Ok (MkOrderAggregate (o_Price order) quantity :: aggs)
  | [] => Panic
  end.

(** From the last order (the highest price) to the first. *)
Definition NewBidOrderAggregates (orders : list Order) : outcome (list OrderAggregate) :=
  match reverse orders with
  | [] => Ok []
  | order :: orders' => foldM add_bid [first_agg order] orders'
  end.

(** One iteration of the asks' loop: [aggs[lastIdx]] is the entry being summed. *)
Definition add_ask (aggs : list OrderAggregate) (order : Order) : outcome (list OrderAggregate) :=
  match last aggs with
  | Some agg =>
      quantity ← Uint_Add (agg_Quantity agg) (o_Quantity order);
      if agg_Price agg =? o_Price order
      then Ok (<[(length aggs - 1)%nat := MkOrderAggregate (agg_Price agg) quantity]> aggs)
      else Ok (aggs ++ [MkOrderAggregate (o_Price order) quantity])
  | None => Panic
  end.

Definition NewAskOrderAggregates (orders : list Order) : outcome (list OrderAggregate) :=
  match orders with
  | [] => Ok []
  | order :: orders' => foldM add_ask [first_agg order] orders'
  end.
End aggs.

(** ** What the aggregates are *)

(** The quantity offered at a price or below, the quantity wanted at it or above. *)
Definition supply (asks : list Order) (p : Z) : Z := sumZ (λ o, if o_Price o <=? p then o_Quantity o else 0) asks.
Definition demand (bids : list Order) (p : Z) : Z := sumZ (λ o, if p <=? o_Price o then o_Quantity o else 0) bids.
Definition volume (l : list Order) : Z := sumZ o_Quantity l.

(** Orders of the book: positive quantities whose sum is a [Uint]. *)
Definition book_side_ok (l : list Order) : Prop :=
  (∀ o, o ∈ l → 0 < o_Price o ∧ 0 < o_Quantity o) ∧ volume l < maxUint.

(** The entries are the orders' prices, ascending, with [cum] of each. *)
Definition aggs_of (cum : Z → Z) (l : list Order) (aggs : list OrderAggregate) : Prop :=
  StronglySorted (λ a b, agg_Price a < agg_Price b) aggs ∧
  (∀ a, a ∈ aggs → agg_Quantity a = cum (agg_Price a)) ∧
  (∀ p, p ∈ agg_Price <$> aggs ↔ p ∈ o_Price <$> l).

Lemma ByPriceAscIDDesc_weak_order : weak_order ByPriceAscIDDesc_Less.
Proof.
  split; intros *; unfold ByPriceAscIDDesc_Less, ID_GT;
    repeat case_match; lia.
Qed.

Lemma ByPriceAscIDAsc_weak_order : weak_order ByPriceAscIDAsc_Less.
Proof.
  split; intros *; unfold ByPriceAscIDAsc_Less, ID_LT;
    repeat case_match; lia.
Qed.

(** ** Proofs

    Both loops are the same computation up to the direction of the prices: [s] is
    [1] for asks (ascending) and [-1] for bids. *)
Definition cum (s : Z) (l : list Order) (p : Z) : Z :=
  sumZ (λ o, if s * o_Price o <=? s * p then o_Quantity o else 0) l.

Lemma cum_supply l p : cum 1 l p = supply l p.
Proof. apply sumZ_ext. intros o _. by rw !Z.mul_1_l. Qed.

Lemma cum_demand l p : cum (-1) l p = demand l p.
Proof. apply sumZ_ext. intros o _. by destruct (Z.leb_spec (-1 * o_Price o) (-1 * p)), (Z.leb_spec p (o_Price o)); try lia. Qed.

Lemma cum_app s l1 l2 p : cum s (l1 ++ l2) p = cum s l1 p + cum s l2 p.
Proof. apply sumZ_app. Qed.

Lemma cum_perm s l1 l2 p : l1 ≡ₚ l2 → cum s l1 p = cum s l2 p.
Proof. intros H. unfold cum. by rw H. Qed.

(** Above every price, the cumulative quantity is the whole volume. *)
Lemma cum_all s l p : (∀ o, o ∈ l → s * o_Price o ≤ s * p) → cum s l p = volume l.
Proof. intros H. apply sumZ_ext. intros o Ho. by rw (proj2 (Z.leb_le _ _) (H o Ho)). Qed.

Lemma volume_app l1 l2 : volume (l1 ++ l2) = volume l1 + volume l2.
Proof. apply sumZ_app. Qed.

Lemma volume_snoc l x : volume (l ++ [x]) = volume l + o_Quantity x.
Proof. rw volume_app. unfold volume at 2. simpl. lia. Qed.

Lemma volume_one x : volume [x] = o_Quantity x.
Proof. unfold volume. simpl. lia. Qed.

Section fold.
Context `{STL : SdkTypesLaws}.

(** What the loop has built after the orders [l]; the head is the last price. *)
Definition partial_aggs (s : Z) (l : list Order) (aggs : list OrderAggregate) : Prop :=
  (∃ agg rest, aggs = agg :: rest ∧ agg_Quantity agg = volume l ∧
    (∀ o, o ∈ l → s * o_Price o ≤ s * agg_Price agg)) ∧
  StronglySorted (λ a b, s * agg_Price b < s * agg_Price a) aggs ∧
  (∀ a, a ∈ aggs → agg_Quantity a = cum s l (agg_Price a)) ∧
  (∀ p, p ∈ agg_Price <$> aggs ↔ p ∈ o_Price <$> l).

Lemma add_bid_step s l aggs x :
  s ≠ 0 → partial_aggs s l aggs → (∀ o, o ∈ l → s * o_Price o ≤ s * o_Price x) →
  0 ≤ volume l → 0 ≤ o_Quantity x → volume l + o_Quantity x < maxUint →
  ∃ aggs', add_bid aggs x = Ok aggs' ∧ partial_aggs s (l ++ [x]) aggs'.
Proof.
  intros Hs ((agg & rest & -> & HQ & Hle) & Hsort & Hcum & Hpr) Hx Hv Hq Hmax.
  unfold add_bid. rw HQ Uint_Add_ok; [|lia..]. simpl.
  apply StronglySorted_inv in Hsort as [Hsort Hhd]. rw Forall_forall in Hhd.
  assert (s * agg_Price agg ≤ s * o_Price x) as Hagg.
  { assert (agg_Price agg ∈ o_Price <$> l) as Hin by (apply Hpr; set_solver).
    apply list_elem_of_fmap in Hin as (o & -> & Ho). by apply Hx. }
  assert (∀ a, a ∈ rest → agg_Quantity a = cum s (l ++ [x]) (agg_Price a)) as Hrest.
  { intros a Ha. specialize (Hhd a Ha). rw cum_app Hcum; [|set_solver].
    unfold cum at 3. simpl. destruct (Z.leb_spec (s * o_Price x) (s * agg_Price a)); lia. }
  assert (cum s (l ++ [x]) (o_Price x) = volume l + o_Quantity x) as Hnew.
  { rw cum_all; [by rw volume_snoc|].
    intros o [?| ->%list_elem_of_singleton]%elem_of_app; [auto|lia]. }
  destruct (Z.eqb_spec (agg_Price agg) (o_Price x)) as [E|NE].
  - eexists. split; [done|]. repeat split.
    + eexists _, _. split; [done|]. simpl. split; [by rw volume_snoc|].
      intros o [Ho| ->%list_elem_of_singleton]%elem_of_app; [auto|lia].
    + constructor; [done|]. by rw Forall_forall.
    + intros a [->|Ha]%elem_of_cons; [|auto]. simpl. rw E. lia.
    + rw fmap_app elem_of_app. intros Hp. left. apply Hpr. by simpl in *.
    + rw fmap_app elem_of_app. intros [Hp|Hp]; [by apply Hpr in Hp|]. simpl in *. rw E. set_solver.
  - assert (s * agg_Price agg < s * o_Price x) as Hlt by nia.
    eexists. split; [done|]. repeat split.
    + eexists _, _. split; [done|]. simpl. split; [by rw volume_snoc|].
      intros o [Ho| ->%list_elem_of_singleton]%elem_of_app; [auto|lia].
    + constructor; [constructor; [done|by rw Forall_forall]|]. rw Forall_forall.
      intros a [->|Ha]%elem_of_cons; simpl; [done|]. specialize (Hhd a Ha). lia.
    + intros a [->|[->|Ha]%elem_of_cons]%elem_of_cons; [simpl; lia| |auto]. rw cum_app Hcum; [|set_solver].
      unfold cum at 3. simpl. destruct (Z.leb_spec (s * o_Price x) (s * agg_Price agg)); lia.
    + rw fmap_app elem_of_app. simpl. intros [->|Hp]%elem_of_cons; [set_solver|]. left. by apply Hpr.
    + rw fmap_app elem_of_app. simpl. rw elem_of_cons. intros [Hp|Hp]; [right; by apply Hpr in Hp|set_solver].
Qed.

Lemma add_bid_fold s o os :
  s ≠ 0 → StronglySorted (λ a b, s * o_Price a ≤ s * o_Price b) (o :: os) →
  (∀ x, x ∈ o :: os → 0 < o_Quantity x) → volume (o :: os) < maxUint →
  ∃ aggs, foldM add_bid [first_agg o] os = Ok aggs ∧ partial_aggs s (o :: os) aggs.
Proof.
  intros Hs Hsort Hpos Hv.
  apply (foldM_inv (λ pre aggs, partial_aggs s (o :: pre) aggs)).
  - intros pre x aggs [post ->] HP.
    assert (o :: (pre ++ [x]) ++ post = (o :: pre) ++ [x] ++ post) as E by (by rw -app_assoc).
    rw E in Hsort Hpos Hv. rw !volume_app in Hv.
    assert (0 ≤ volume post).
    { apply sumZ_nonneg. intros y Hy. apply Z.lt_le_incl, Hpos. set_solver. }
    assert (0 < o_Quantity x) by (apply Hpos; set_solver).
    rw volume_one in Hv.
    apply (add_bid_step s (o :: pre)); [done|done| | |lia|lia].
    + intros y Hy. apply (StronglySorted_app_1_elem_of _ _ _ y x Hsort); set_solver.
    + apply sumZ_nonneg. intros y Hy. apply Z.lt_le_incl, Hpos. set_solver.
  - split; [|split; [|split]].
    + exists (first_agg o), []. split; [done|]. split; [by rw volume_one|].
      intros y ->%list_elem_of_singleton. simpl. lia.
    + repeat constructor.
    + intros a ->%list_elem_of_singleton. rw cum_all; [by rw volume_one|].
      by intros y ->%list_elem_of_singleton.
    + done.
Qed.

(** The asks' loop is the bids' on the reversed slice. *)
Lemma add_ask_reverse aggs x : add_ask (reverse aggs) x = reverse <$> add_bid aggs x.
Proof.
  destruct aggs as [|agg rest]; [done|]. unfold add_ask, add_bid. rw reverse_cons last_snoc.
  destruct (Uint_Add _ _) as [q| |]; [|done..]. simpl. case_match; simpl.
  - rw !reverse_cons insert_app_r_alt; [|rw length_app; simpl; lia].
    rw length_app Nat.add_sub Nat.sub_diag. done.
  - by rw !reverse_cons.
Qed.

Lemma add_ask_fold aggs os : foldM add_ask (reverse aggs) os = reverse <$> foldM add_bid aggs os.
Proof.
  revert aggs. induction os as [|x os IH]; intros aggs; [done|]. simpl. rw add_ask_reverse.
  destruct (add_bid aggs x); simpl; auto.
Qed.

Lemma partial_aggs_reverse s l aggs :
  partial_aggs s l aggs →
  StronglySorted (λ a b, s * agg_Price a < s * agg_Price b) (reverse aggs) ∧
  (∀ a, a ∈ reverse aggs → agg_Quantity a = cum s l (agg_Price a)) ∧
  (∀ p, p ∈ agg_Price <$> reverse aggs ↔ p ∈ o_Price <$> l).
Proof.
  intros (_ & Hsort & Hcum & Hpr). repeat split.
  - by apply sorted_reverse in Hsort.
  - intros a. rw elem_of_reverse. auto.
  - rw fmap_reverse elem_of_reverse. apply Hpr.
  - rw fmap_reverse elem_of_reverse. apply Hpr.
Qed.

(** Asks: the loop succeeds and its entries are the supply at every ask price. *)
Lemma NewAskOrderAggregates_spec asks :
  book_side_ok asks → StronglySorted (λ a b, o_Price a ≤ o_Price b) asks →
  ∃ aggs, NewAskOrderAggregates asks = Ok aggs ∧ aggs_of (supply asks) asks aggs.
Proof.
  intros [Hpos Hv] Hsort. destruct asks as [|o os].
  { exists []. repeat split; [constructor|by intros a ?%elem_of_nil|done..]. }
  destruct (add_bid_fold 1 o os) as (aggs & Hf & HP).
  { done. }
  { eapply sorted_impl; [|exact Hsort]. intros. simpl in *. lia. }
  { intros x Hx. by apply Hpos. }
  { done. }
  exists (reverse aggs). split.
  - simpl. change [first_agg o] with (reverse [first_agg o]). by rw add_ask_fold Hf.
  - apply partial_aggs_reverse in HP as (Hs & Hc & Hp). repeat split; try apply Hp.
    + eapply sorted_impl; [|exact Hs]. intros. simpl in *. lia.
    + intros a Ha. rw Hc; [|done]. apply cum_supply.
Qed.

(** Bids: the same from the highest price, hence the demand at every bid price. *)
Lemma NewBidOrderAggregates_spec bids :
  book_side_ok bids → StronglySorted (λ a b, o_Price a ≤ o_Price b) bids →
  ∃ aggs, NewBidOrderAggregates bids = Ok aggs ∧ aggs_of (demand bids) bids aggs.
Proof.
  intros [Hpos Hv] Hsort. unfold NewBidOrderAggregates. destruct (reverse bids) as [|o os] eqn:E.
  { apply (f_equal reverse) in E. rw reverse_involutive in E. subst.
    exists []. repeat split; [constructor|by intros a ?%elem_of_nil|done..]. }
  assert (bids = reverse os ++ [o]) as Hb by (by rw -(reverse_involutive bids) E reverse_cons).
  assert (bids ≡ₚ o :: os) as Hperm by (by rw -E reverse_Permutation).
  destruct (add_bid_fold (-1) o os) as (aggs & Hf & HP).
  { done. }
  { rw -E. eapply sorted_impl; [|by apply sorted_reverse]. intros. simpl in *. lia. }
  { intros x. rw -Hperm. apply Hpos. }
  { unfold volume in *. by rw -Hperm. }
  destruct HP as (_ & Hs & Hc & Hp).
  exists aggs. split; [done|]. repeat split.
  - eapply sorted_impl; [|exact Hs]. intros. simpl in *. lia.
  - intros a Ha. rw Hc; [|done]. rw -(cum_perm _ bids); [|done]. apply cum_demand.
  - rw Hperm. apply Hp.
  - rw Hperm. apply Hp.
Qed.
End fold.
