(* ===== verification/Curves.v ===== *)
(** * Supply-demand curves ([x/orderbook/internal/keeper/pq_curves.go])

    The curves are points (price, supply, demand) over every price of the book.
    The crossing point gives the clearance price and how much can be matched. *)
From S2P Require Import Prelude Bytes Sdk SdkRef SdkFacts DnTypes Markets Orders Aggregates.
Local Open Scope Z_scope.

Record SDItem := MkSDItem { sd_Price : Uint; sd_Supply : Uint; sd_Demand : Uint }.

#[export] Instance sditem_eq_dec : EqDecision SDItem.
Proof. solve_decision. Defined.

Record ClearanceState := MkClearanceState {
  cs_Price : Uint;
  cs_ProRata : Dec;
  cs_ProRataInvert : Dec;
  cs_MaxBidVolume : Dec;
  cs_MaxAskVolume : Dec;
}.

(** [x/orderbook/internal/types/errors.go]. *)
Definition ErrInternal := Registered "orderbook" 100.
Definition ErrWrongHistoryItem := Registered "orderbook" 101.

Definition SupplyDemandBalance (i : SDItem) : Z :=
  if sd_Demand i <? sd_Supply i then 1 else if sd_Supply i =? sd_Demand i then 0 else -1.

(** ** Building the curves *)

Definition addAskOrders (c : list SDItem) (aggs : list OrderAggregate) : list SDItem :=
  foldl (λ c agg, c ++ [MkSDItem (agg_Price agg) (agg_Quantity agg) 0]) c aggs.

(** One bid aggregate: set the demand of its price's point, or insert a point. *)
Definition addBidOrder (c : list SDItem) (agg : OrderAggregate) : list SDItem :=
  let gtePriceIdx := sort_Search (length c)
    (λ i, match c !! i with Some item => agg_Price agg <=? sd_Price item | None => false end) in
  let inserted := take gtePriceIdx c ++ MkSDItem (agg_Price agg) 0 (agg_Quantity agg) :: drop gtePriceIdx c in
  match c !! gtePriceIdx with
  | Some item =>
      if sd_Price item =? agg_Price agg
      then <[gtePriceIdx := MkSDItem (sd_Price item) (sd_Supply item) (agg_Quantity agg)]> c
      else inserted
  | None => inserted
  end.

Definition addBidOrders (c : list SDItem) (aggs : list OrderAggregate) : list SDItem :=
  foldl addBidOrder c aggs.

(** The state of [fixZeroSupplyDemand]'s loop: [askFillItem] and [bidFillItem]
    point into the slice. *)
Record FixState := MkFixState {
  fx_c : list SDItem;
  fx_askIdx : nat; fx_askFillItem : nat;
  fx_bidIdx : nat; fx_bidFillItem : nat;
}.

Definition fix_ask (s : FixState) : outcome FixState :=
  match fx_c s !! fx_askIdx s, fx_c s !! fx_askFillItem s with
  | Some item, Some fill =>
      if sd_Supply item =? 0 then
        Ok (MkFixState (<[fx_askIdx s := MkSDItem (sd_Price item) (sd_Supply fill) (sd_Demand item)]> (fx_c s))
              (S (fx_askIdx s)) (fx_askFillItem s) (fx_bidIdx s) (fx_bidFillItem s))
      else Ok (MkFixState (fx_c s) (S (fx_askIdx s)) (fx_askIdx s) (fx_bidIdx s) (fx_bidFillItem s))
  | _, _ => Panic
  end.

Definition fix_bid (s : FixState) : outcome FixState :=
  match fx_c s !! fx_bidIdx s, fx_c s !! fx_bidFillItem s with
  | Some item, Some fill =>
      if sd_Demand item =? 0 then
        Ok (MkFixState (<[fx_bidIdx s := MkSDItem (sd_Price item) (sd_Supply item) (sd_Demand fill)]> (fx_c s))
              (fx_askIdx s) (fx_askFillItem s) (fx_bidIdx s - 1) (fx_bidFillItem s))
      else Ok (MkFixState (fx_c s) (fx_askIdx s) (fx_askFillItem s) (fx_bidIdx s - 1) (fx_bidIdx s))
  | _, _ => Panic
  end.

Fixpoint fix_loop (n : nat) (s : FixState) : outcome FixState :=
  match n with
  | O => Ok s
  | S n' => s1 ← fix_ask s; s2 ← fix_bid s1; fix_loop n' s2
  end.

Definition fixZeroSupplyDemand (c : list SDItem) : outcome (list SDItem) :=
  if (length c =? 0)%nat then Panic
  else fx_c <$> fix_loop (length c - 1) (MkFixState c 1 0 (length c - 2) (length c - 1)).

Definition NewSDCurves (askAggs bidAggs : list OrderAggregate) : outcome (list SDItem) :=
  match askAggs, last bidAggs with
  | firstAsk :: _, Some lastBid =>
      fail_if (negb (sort_SliceIsSorted (λ a b, (agg_Price a <? agg_Price b) && (agg_Quantity a <=? agg_Quantity b))
        askAggs)) ErrInternal;;
      fail_if (negb (sort_SliceIsSorted (λ a b, (agg_Price a <? agg_Price b) && (agg_Quantity b <=? agg_Quantity a))
        bidAggs)) ErrInternal;;
      fail_if (agg_Price lastBid <? agg_Price firstAsk) (Plain "highest bid price is lower than lowest ask price");;
      fixZeroSupplyDemand (addBidOrders (addAskOrders [] askAggs) bidAggs)
  | _, _ => Err (Plain "ask / bid orders are empty")
  end.

Section cross.
Context `{ST : SdkTypes} `{GS : GoSort}.

(** ** The crossing point *)

Definition non_zero (item : SDItem) : bool := negb (sd_Supply item =? 0) && negb (sd_Demand item =? 0).

(** The last of the points that follow [leftCrossPoint] with its supply and demand. *)
Fixpoint corridor (leftCrossPoint : SDItem) (right : list SDItem) (rightCrossPoint : option SDItem) : option SDItem :=
  match right with
  | rightItem :: right' =>
      if negb (sd_Supply leftCrossPoint =? sd_Supply rightItem) || negb (sd_Demand leftCrossPoint =? sd_Demand rightItem)
      then rightCrossPoint
      else corridor leftCrossPoint right' (Some rightItem)
  | [] => rightCrossPoint
  end.

(** The first point whose balance differs from its predecessor's, that
    predecessor and the clearance price. *)
Fixpoint find_cross (prevItem : SDItem) (rest : list SDItem) : outcome (option (SDItem * SDItem * Uint)) :=
  match rest with
  | [] => Ok None
  | curItem :: rest' =>
      if negb (SupplyDemandBalance prevItem =? SupplyDemandBalance curItem) then
        match corridor curItem rest' None with
        | None => Ok (Some (prevItem, curItem, sd_Price curItem))
        | Some rightCrossPoint =>
            sum ← Uint_Add (sd_Price curItem) (sd_Price rightCrossPoint);
            clearancePrice ← Uint_QuoUint64 sum 2;
            Ok (Some (prevItem, curItem, clearancePrice))
        end
      else find_cross curItem rest'
  end.

(** [|Supply - Demand|]: the larger minus the smaller never underflows. *)
Definition sd_diff (i : SDItem) : Z :=
  match (if sd_Demand i <? sd_Supply i then Uint_Sub (sd_Supply i) (sd_Demand i)
         else Uint_Sub (sd_Demand i) (sd_Supply i)) with
  | Ok d => d
  | _ => 0
  end.

Definition diff_Less (left right : SDItem) : bool := sd_diff left <? sd_diff right.

(** Edge case 2: the point with volumes that is the most balanced. *)
Definition best_balanced (c : list SDItem) : SDItem :=
  match List.find non_zero (sort_Sort diff_Less c) with
  | Some item => item
  | None => MkSDItem 0 0 0
  end.

Definition getCrossPoint (c : list SDItem) : outcome SDItem :=
  match c with
  | [] => Panic
  | firstItem :: rest =>
      if (sd_Supply firstItem =? sd_Demand firstItem) && non_zero firstItem then Ok firstItem
      else
        cross ← find_cross firstItem rest;
        match cross with
        | Some (prevItem, curItem, clearancePrice) =>
            if non_zero curItem then Ok (MkSDItem clearancePrice (sd_Supply curItem) (sd_Demand curItem))
            else if non_zero prevItem then Ok prevItem
            else Ok (best_balanced c)
        | None => Ok (best_balanced c)
        end
  end.

Definition GetClearanceState (c : list SDItem) : outcome ClearanceState :=
  if (length c =? 0)%nat then Err (Plain "SDCurves is empty")
  else
    crossPoint ← getCrossPoint c;
    fail_if (sd_Price crossPoint =? 0) ErrInternal;;
    fail_if (sd_Supply crossPoint =? 0) ErrInternal;;
    fail_if (sd_Demand crossPoint =? 0) ErrInternal;;
    let demandDec := NewDecFromBigInt (sd_Demand crossPoint) in
    let supplyDec := NewDecFromBigInt (sd_Supply crossPoint) in
    proRata ← Dec_Quo supplyDec demandDec;
    proRataInvert ← Dec_Quo OneDec proRata;
    bidMul ← Dec_Mul demandDec proRata;
    maxBid ← Dec_RoundInt bidMul;
    askMul ← Dec_Mul supplyDec proRataInvert;
    maxAsk ← Dec_RoundInt askMul;
    Ok (MkClearanceState (sd_Price crossPoint) proRata proRataInvert (NewDecFromBigInt maxBid) (NewDecFromBigInt maxAsk)).
End cross.
