(* ===== verification/CurvesFacts.v ===== *)
(** * Correctness of the supply-demand curves

    [NewSDCurves] on the aggregates of a book gives, at every price of the book,
    the supply and the demand at that price, and the crossing point is a price at
    which both are positive. *)
From S2P Require Import Prelude Bytes Sdk SdkRef SdkFacts DnTypes Markets Orders Aggregates Curves.
Local Open Scope Z_scope.

(** Points by ascending price, one per price. *)
Definition curve_sorted (c : list SDItem) : Prop := StronglySorted (λ a b, sd_Price a < sd_Price b) c.

Definition qty_at (aggs : list OrderAggregate) (p : Z) : Z :=
  sumZ (λ a, if agg_Price a =? p then agg_Quantity a else 0) aggs.

(** The curve before the zeros are filled. *)
Definition raw_curve (askAggs bidAggs : list OrderAggregate) (c : list SDItem) : Prop :=
  curve_sorted c ∧
  (∀ it, it ∈ c → sd_Supply it = qty_at askAggs (sd_Price it) ∧ sd_Demand it = qty_at bidAggs (sd_Price it)) ∧
  (∀ p, p ∈ sd_Price <$> c ↔ p ∈ agg_Price <$> askAggs ∨ p ∈ agg_Price <$> bidAggs).

Lemma qty_at_absent aggs p : p ∉ agg_Price <$> aggs → qty_at aggs p = 0.
Proof.
  intros Hp. apply sumZ_zero. intros a Ha. destruct (Z.eqb_spec (agg_Price a) p) as [<-|]; [|done].
  exfalso. apply Hp. by apply list_elem_of_fmap_2.
Qed.

Lemma qty_at_elem aggs a :
  StronglySorted (λ a b, agg_Price a < agg_Price b) aggs → a ∈ aggs → qty_at aggs (agg_Price a) = agg_Quantity a.
Proof.
  intros Hs Ha. apply list_elem_of_split in Ha as (l1 & l2 & ->).
  unfold qty_at. rw sumZ_app sumZ_cons Z.eqb_refl.
  rw !sumZ_zero; [lia| |].
  - intros b Hb. apply StronglySorted_app_1_r, StronglySorted_inv in Hs as [_ Hs]. rw Forall_forall in Hs.
    specialize (Hs b Hb). destruct (Z.eqb_spec (agg_Price b) (agg_Price a)); lia.
  - intros b Hb. pose proof (StronglySorted_app_1_elem_of _ _ _ b a Hs Hb ltac:(set_solver)).
    simpl in *. destruct (Z.eqb_spec (agg_Price b) (agg_Price a)); lia.
Qed.

(** ** Positions in a sorted curve *)
Section sorted.
Variable c : list SDItem.
Hypothesis Hs : curve_sorted c.

Lemma sorted_lookup_lt i j a b : c !! i = Some a → c !! j = Some b → (i < j)%nat → sd_Price a < sd_Price b.
Proof.
  intros Hi Hj Hij. pose proof Hs as Hs'. unfold curve_sorted in Hs'. rw -(take_drop j c) in Hs'.
  apply (StronglySorted_app_1_elem_of _ _ _ a b Hs').
  - apply list_elem_of_lookup. exists i. by rw lookup_take_lt.
  - apply list_elem_of_lookup. exists 0%nat. by rw lookup_drop Nat.add_0_r.
Qed.

Lemma sorted_lookup_le i j a b : c !! i = Some a → c !! j = Some b → (i ≤ j)%nat → sd_Price a ≤ sd_Price b.
Proof.
  intros Hi Hj Hij. destruct (decide (i = j)) as [->|]; [simplify_eq; lia|].
  apply Z.lt_le_incl. apply (sorted_lookup_lt i j); [done|done|lia].
Qed.

Lemma sorted_first a it : c !! 0%nat = Some a → it ∈ c → sd_Price a ≤ sd_Price it.
Proof. intros Ha (i & Hi)%list_elem_of_lookup. apply (sorted_lookup_le 0 i); [done|done|lia]. Qed.

Lemma sorted_last a it : c !! (length c - 1)%nat = Some a → it ∈ c → sd_Price it ≤ sd_Price a.
Proof.
  intros Ha (i & Hi)%list_elem_of_lookup. pose proof (lookup_lt_Some _ _ _ Hi).
  apply (sorted_lookup_le i (length c - 1)); [done|done|lia].
Qed.

Lemma sorted_between j a b it :
  c !! j = Some a → c !! S j = Some b → it ∈ c → sd_Price it ≤ sd_Price a ∨ sd_Price b ≤ sd_Price it.
Proof.
  intros Ha Hb (i & Hi)%list_elem_of_lookup. destruct (decide (i ≤ j)%nat).
  - left. by apply (sorted_lookup_le i j).
  - right. apply (sorted_lookup_le (S j) i); [done|done|lia].
Qed.
End sorted.

(** ** Asks *)

Lemma addAskOrders_map c aggs :
  addAskOrders c aggs = c ++ ((λ agg, MkSDItem (agg_Price agg) (agg_Quantity agg) 0) <$> aggs).
Proof.
  revert c. induction aggs as [|a aggs IH]; intros c; simpl; [by rw app_nil_r|].
  unfold addAskOrders in *. by rw IH -app_assoc.
Qed.

Lemma sorted_fmap {A B} (f : A → B) (R : B → B → Prop) l :
  StronglySorted (λ x y, R (f x) (f y)) l → StronglySorted R (f <$> l).
Proof.
  induction 1 as [|x l _ IH Hx]; simpl; constructor; [done|].
  rw Forall_forall in Hx. rw Forall_forall. intros y (z & -> & Hz)%list_elem_of_fmap. auto.
Qed.

Lemma raw_curve_asks aggs :
  StronglySorted (λ a b, agg_Price a < agg_Price b) aggs → raw_curve aggs [] (addAskOrders [] aggs).
Proof.
  intros Hs. rw addAskOrders_map. simpl. repeat split.
  - by apply sorted_fmap.
  - apply list_elem_of_fmap in H as (a & -> & Ha). simpl. by rw qty_at_elem.
  - apply list_elem_of_fmap in H as (a & -> & Ha). done.
  - rw -list_fmap_compose. auto.
  - rw -list_fmap_compose. intros [?|H%elem_of_nil]; done.
Qed.

(** ** Bids *)

Definition supplies (m : list SDItem) : Z := sumZ sd_Supply m.

(** Where a bid's price belongs in a sorted curve. *)
Lemma addBidOrder_split c agg :
  curve_sorted c →
  ∃ l1 m l2, c = l1 ++ m ++ l2 ∧
    (∀ it, it ∈ l1 → sd_Price it < agg_Price agg) ∧ (∀ it, it ∈ l2 → agg_Price agg < sd_Price it) ∧
    (∀ it, it ∈ m → sd_Price it = agg_Price agg) ∧
    addBidOrder c agg = l1 ++ MkSDItem (agg_Price agg) (supplies m) (agg_Quantity agg) :: l2.
Proof.
  intros Hs. unfold addBidOrder.
  set (f := λ i : nat, match c !! i with Some item => agg_Price agg <=? sd_Price item | None => false end).
  pose proof (sorted_lookup_lt c Hs) as Hlt.
  destruct (sort_Search_spec (length c) f) as (Hn & Hlo & Hhi).
  { intros i j [Hij Hj] Hi. unfold f in *. destruct (lookup_lt_is_Some_2 c j Hj) as [b Hb].
    destruct (c !! i) as [a|] eqn:Ha; [|done]. rw Hb. apply Z.leb_le in Hi. apply Z.leb_le.
    destruct (decide (i = j)) as [->|]; [by simplify_eq|]. pose proof (Hlt i j a b Ha Hb ltac:(lia)). lia. }
  set (n := sort_Search (length c) f) in *.
  assert (∀ it, it ∈ take n c → sd_Price it < agg_Price agg) as Htake.
  { intros it (i & Hi)%list_elem_of_lookup. apply lookup_take_Some in Hi as [Hi Hin].
    specialize (Hlo i Hin). unfold f in Hlo. rw Hi in Hlo. lia. }
  assert (∀ it, it ∈ drop n c → agg_Price agg ≤ sd_Price it) as Hdrop.
  { intros it (i & Hi)%list_elem_of_lookup. rw lookup_drop in Hi.
    pose proof (lookup_lt_Some _ _ _ Hi). specialize (Hhi (n + i)%nat ltac:(lia)).
    unfold f in Hhi. rw Hi in Hhi. lia. }
  destruct (c !! n) as [item|] eqn:Hitem.
  2:{ exists c, [], []. apply lookup_ge_None in Hitem. assert (n = length c) as E by lia.
      rw E take_ge in Htake; [|done]. rw E take_ge ?drop_ge; [|done|done].
      split_and!; [by rw !app_nil_r|done|by intros ? ?%elem_of_nil..|done]. }
  destruct (Z.eqb_spec (sd_Price item) (agg_Price agg)) as [E|NE].
  - exists (take n c), [item], (drop (S n) c). split_and!; [by rw take_drop_middle|done| | |].
    + intros it (i & Hi)%list_elem_of_lookup. rw lookup_drop in Hi. rw -E.
      eapply (Hlt n); [done|done|lia].
    + by intros it ->%list_elem_of_singleton.
    + rw insert_take_drop; [|by eapply lookup_lt_Some]. rw E. unfold supplies. simpl. by rw Z.add_0_r.
  - exists (take n c), [], (drop n c). split_and!; [by rw take_drop|done| |by intros ? ?%elem_of_nil|done].
    assert (agg_Price agg ≤ sd_Price item).
    { apply Hdrop, list_elem_of_lookup. exists 0%nat. by rw lookup_drop Nat.add_0_r. }
    intros it (i & Hi)%list_elem_of_lookup. rw lookup_drop in Hi. destruct i as [|i].
    + rw Nat.add_0_r in Hi. simplify_eq. lia.
    + pose proof (Hlt n (n + S i)%nat item it Hitem Hi ltac:(lia)). lia.
Qed.

Lemma addBidOrder_raw askAggs pre c agg :
  raw_curve askAggs pre c → agg_Price agg ∉ agg_Price <$> pre → raw_curve askAggs (pre ++ [agg]) (addBidOrder c agg).
Proof.
  intros (Hs & Hq & Hp) Hnew. destruct (addBidOrder_split c agg Hs) as (l1 & m & l2 & -> & H1 & H2 & Hm & ->).
  assert (qty_at (pre ++ [agg]) (agg_Price agg) = agg_Quantity agg) as Hqn.
  { unfold qty_at. rw sumZ_app. rw -/(qty_at pre (agg_Price agg)) qty_at_absent; [|done].
    simpl. rw Z.eqb_refl. lia. }
  assert (∀ p, p ≠ agg_Price agg → qty_at (pre ++ [agg]) p = qty_at pre p) as Hqo.
  { intros p Hne. unfold qty_at. rw sumZ_app. simpl. destruct (Z.eqb_spec (agg_Price agg) p); [done|lia]. }
  assert (supplies m = qty_at askAggs (agg_Price agg)) as Hsup.
  { destruct m as [|it [|it' m]].
    - rw qty_at_absent; [done|]. intros Hin. assert (agg_Price agg ∈ sd_Price <$> l1 ++ [] ++ l2) as Hin'.
      { apply Hp. by left. }
      apply list_elem_of_fmap in Hin' as (it & E & [Hit|Hit]%elem_of_app); [specialize (H1 it Hit)|specialize (H2 it Hit)]; lia.
    - unfold supplies. simpl. rw Z.add_0_r. rw -(Hm it); [|set_solver]. apply Hq. set_solver.
    - exfalso. apply StronglySorted_app in Hs as (_ & _ & Hs). simpl in Hs.
      apply StronglySorted_inv in Hs as [_ Hs]. apply Forall_cons in Hs as [Hs _].
      pose proof (Hm it ltac:(set_solver)). pose proof (Hm it' ltac:(set_solver)). lia. }
  split_and!.
  - unfold curve_sorted in *. apply StronglySorted_app in Hs as (Hs12 & Hsl1 & Hs).
    apply StronglySorted_app in Hs as (_ & _ & Hsl2).
    apply StronglySorted_app_2; [|done|].
    + intros a b Ha [->|Hb]%elem_of_cons; [by apply H1|]. specialize (H1 a Ha). specialize (H2 b Hb). lia.
    + constructor; [done|]. rw Forall_forall. intros b Hb. by apply H2.
  - intros it [Hit|[->|Hit]%elem_of_cons]%elem_of_app.
    + rw Hqo; [apply Hq; set_solver|]. specialize (H1 it Hit). lia.
    + simpl. by rw Hqn.
    + rw Hqo; [apply Hq; set_solver|]. specialize (H2 it Hit). lia.
  - intros p. specialize (Hp p). rw !fmap_app !elem_of_app in Hp.
    rw !fmap_app fmap_cons !elem_of_app elem_of_cons. simpl. rw list_elem_of_singleton.
    assert (p ∈ sd_Price <$> m → p = agg_Price agg).
    { intros (it & -> & Hit)%list_elem_of_fmap. by apply Hm. }
    assert (p = agg_Price agg → p ∈ sd_Price <$> m ∨ m = []) as Hm0.
    { intros ->. destruct m as [|it m]; [by right|left]. simpl. rw (Hm it); set_solver. }
    naive_solver.
Qed.

Lemma addBidOrders_raw askAggs bidAggs c :
  raw_curve askAggs [] c → StronglySorted (λ a b, agg_Price a < agg_Price b) bidAggs →
  raw_curve askAggs bidAggs (addBidOrders c bidAggs).
Proof.
  intros Hc Hs. assert (∀ l pre c, pre ++ l = bidAggs → raw_curve askAggs pre c →
    raw_curve askAggs bidAggs (addBidOrders c l)) as Hgen; [|by apply (Hgen bidAggs [])].
  clear c Hc. induction l as [|agg l IH]; intros pre c Hl Hc; simpl.
  { rw app_nil_r in Hl. by subst. }
  apply (IH (pre ++ [agg])); [by rw -app_assoc|]. apply addBidOrder_raw; [done|].
  intros (a & E & Ha)%list_elem_of_fmap. subst bidAggs.
  pose proof (StronglySorted_app_1_elem_of _ _ _ a agg Hs Ha ltac:(set_solver)). simpl in *. lia.
Qed.

(** ** Filling the zeros

    [sup] and [dem] are what the filled curve should hold: known at the ends, and
    at every other point either already there or the neighbour's. *)
Section fixing.
Variables (sup dem : Z → Z) (c0 : list SDItem).
Hypothesis Hsup0 : ∀ it, c0 !! 0%nat = Some it → sd_Supply it = sup (sd_Price it).
Hypothesis Hsup : ∀ j a b, c0 !! j = Some a → c0 !! S j = Some b →
  if sd_Supply b =? 0 then sup (sd_Price b) = sup (sd_Price a) else sd_Supply b = sup (sd_Price b).
Hypothesis Hdem0 : ∀ it, c0 !! (length c0 - 1)%nat = Some it → sd_Demand it = dem (sd_Price it).
Hypothesis Hdem : ∀ j a b, c0 !! j = Some a → c0 !! S j = Some b →
  if sd_Demand a =? 0 then dem (sd_Price a) = dem (sd_Price b) else sd_Demand a = dem (sd_Price a).

(** Supplies filled up to index [i], demands from index [k]. *)
Definition stage_item (i k j : nat) (it : SDItem) : SDItem :=
  MkSDItem (sd_Price it) (if (j <=? i)%nat then sup (sd_Price it) else sd_Supply it)
    (if (k <=? j)%nat then dem (sd_Price it) else sd_Demand it).
Definition stage (i k : nat) : list SDItem := imap (stage_item i k) c0.

Definition filled (it : SDItem) : SDItem := MkSDItem (sd_Price it) (sup (sd_Price it)) (dem (sd_Price it)).

Lemma stage_lookup i k j : stage i k !! j = stage_item i k j <$> c0 !! j.
Proof. apply list_lookup_imap. Qed.

Lemma stage_lookup_Some i k j it : c0 !! j = Some it → stage i k !! j = Some (stage_item i k j it).
Proof. intros H. by rw stage_lookup H. Qed.

Lemma stage_insert_ask i k it :
  c0 !! S i = Some it →
  <[S i := MkSDItem (sd_Price it) (sup (sd_Price it)) (sd_Demand (stage_item i k (S i) it))]> (stage i k) = stage (S i) k.
Proof.
  intros Hit. apply list_eq. intros j. rw stage_lookup. destruct (decide (j = S i)) as [->|Hne].
  - rw list_lookup_insert_eq; [|unfold stage; rw length_imap; by eapply lookup_lt_Some].
    rw Hit. simpl. unfold stage_item. simpl. by rw Nat.leb_refl.
  - rw list_lookup_insert_ne; [|done]. rw stage_lookup. destruct (c0 !! j) as [b|]; [|done]. simpl.
    unfold stage_item. do 2 f_equal.
    destruct (Nat.leb_spec j i), (Nat.leb_spec j (S i)); try done; lia.
Qed.

Lemma stage_insert_bid i k it :
  c0 !! k = Some it →
  <[k := MkSDItem (sd_Price it) (sd_Supply (stage_item i (S k) k it)) (dem (sd_Price it))]> (stage i (S k)) = stage i k.
Proof.
  intros Hit. apply list_eq. intros j. rw stage_lookup. destruct (decide (j = k)) as [->|Hne].
  - rw list_lookup_insert_eq; [|unfold stage; rw length_imap; by eapply lookup_lt_Some].
    rw Hit. simpl. unfold stage_item. simpl. by rw Nat.leb_refl.
  - rw list_lookup_insert_ne; [|done]. rw stage_lookup. destruct (c0 !! j) as [b|]; [|done]. simpl.
    unfold stage_item. do 2 f_equal.
    destruct (Nat.leb_spec k j), (Nat.leb_spec (S k) j); try done; lia.
Qed.

Lemma stage_insert_same i k j it : stage i k !! j = Some it → <[j := it]> (stage i k) = stage i k.
Proof. apply list_insert_id. Qed.

(** The pointers: the fill item holds the quantity of the last filled point. *)
Definition fills_ask (i f : nat) : Prop :=
  (f ≤ i)%nat ∧ ∃ a b, c0 !! f = Some a ∧ c0 !! i = Some b ∧ sup (sd_Price a) = sup (sd_Price b).
Definition fills_bid (k g : nat) : Prop :=
  (k ≤ g)%nat ∧ ∃ a b, c0 !! g = Some a ∧ c0 !! k = Some b ∧ dem (sd_Price a) = dem (sd_Price b).

Lemma fix_ask_step i k f b g :
  (S i < length c0)%nat → fills_ask i f →
  ∃ f', fix_ask (MkFixState (stage i k) (S i) f b g) = Ok (MkFixState (stage (S i) k) (S (S i)) f' b g) ∧
    fills_ask (S i) f'.
Proof.
  intros Hi (Hf & a & a' & Ha & Ha' & Heq). destruct (lookup_lt_is_Some_2 c0 (S i) Hi) as [it Hit].
  pose proof (Hsup i a' it Ha' Hit) as Hs. unfold fix_ask. cbn [fx_c fx_askIdx fx_askFillItem fx_bidIdx fx_bidFillItem].
  rw (stage_lookup_Some _ _ _ _ Ha) (stage_lookup_Some _ _ _ _ Hit). cbv iota beta.
  assert (sd_Supply (stage_item i k (S i) it) = sd_Supply it) as E1.
  { unfold stage_item. destruct (Nat.leb_spec (S i) i); [lia|done]. }
  assert (sd_Supply (stage_item i k f a) = sup (sd_Price a)) as E2.
  { unfold stage_item. destruct (Nat.leb_spec f i); [done|lia]. }
  rw E1 E2. destruct (Z.eqb_spec (sd_Supply it) 0) as [Hz|Hz].
  - exists f. split; [|split; [lia|exists a, it; split_and!; [done|done|congruence]]].
    rw -(stage_insert_ask i k it Hit). by rw Heq -Hs.
  - exists (S i). split; [|split; [lia|by exists it, it]].
    rw -(stage_insert_ask i k it); [|done]. rw -Hs.
    rw (stage_insert_same i k (S i)); [done|]. rw (stage_lookup_Some _ _ _ _ Hit).
    unfold stage_item. cbn [sd_Demand]. destruct (Nat.leb_spec (S i) i); [lia|done].
Qed.

Lemma fix_bid_step i k f g ai :
  (S k < length c0)%nat → fills_bid (S k) g →
  ∃ g', fix_bid (MkFixState (stage i (S k)) ai f k g) = Ok (MkFixState (stage i k) ai f (k - 1) g') ∧
    fills_bid k g'.
Proof.
  intros Hi (Hf & a & a' & Ha & Ha' & Heq). destruct (lookup_lt_is_Some_2 c0 k ltac:(lia)) as [it Hit].
  pose proof (Hdem k it a' Hit Ha') as Hs. unfold fix_bid. cbn [fx_c fx_askIdx fx_askFillItem fx_bidIdx fx_bidFillItem].
  rw (stage_lookup_Some _ _ _ _ Ha) (stage_lookup_Some _ _ _ _ Hit). cbv iota beta.
  assert (sd_Demand (stage_item i (S k) k it) = sd_Demand it) as E1.
  { unfold stage_item. destruct (Nat.leb_spec (S k) k); [lia|done]. }
  assert (sd_Demand (stage_item i (S k) g a) = dem (sd_Price a)) as E2.
  { unfold stage_item. destruct (Nat.leb_spec (S k) g); [done|lia]. }
  rw E1 E2. destruct (Z.eqb_spec (sd_Demand it) 0) as [Hz|Hz].
  - exists g. split; [|split; [lia|exists a, it; split_and!; [done|done|congruence]]].
    rw -(stage_insert_bid i k it Hit). by rw Heq -Hs.
  - exists k. split; [|split; [lia|by exists it, it]].
    rw -(stage_insert_bid i k it); [|done]. rw -Hs.
    rw (stage_insert_same i (S k) k); [done|]. rw (stage_lookup_Some _ _ _ _ Hit).
    unfold stage_item. cbn [sd_Supply]. destruct (Nat.leb_spec (S k) k); [lia|done].
Qed.

Lemma fix_loop_stages n i f g :
  (S i + n = length c0)%nat → fills_ask i f → fills_bid n g →
  ∃ s, fix_loop n (MkFixState (stage i n) (S i) f (n - 1) g) = Ok s ∧ fx_c s = stage (length c0 - 1) 0.
Proof.
  revert i f g. induction n as [|n IH]; intros i f g Hn Hf Hg; cbn [fix_loop].
  { eexists. split; [done|]. simpl. f_equal. lia. }
  destruct (fix_ask_step i (S n) f (S n - 1) g) as (f' & -> & Hf'); [lia|done|]. simpl.
  rw Nat.sub_0_r. destruct (fix_bid_step (S i) n f' g (S (S i))) as (g' & -> & Hg'); [lia|done|]. simpl.
  apply IH; [lia|done..].
Qed.

Lemma fixZeroSupplyDemand_filled : c0 ≠ [] → fixZeroSupplyDemand c0 = Ok (filled <$> c0).
Proof.
  intros Hne. unfold fixZeroSupplyDemand. destruct (Nat.eqb_spec (length c0) 0) as [E|E].
  { by apply nil_length_inv in E. }
  destruct (lookup_lt_is_Some_2 c0 0 ltac:(lia)) as [h Hh].
  destruct (lookup_lt_is_Some_2 c0 (length c0 - 1) ltac:(lia)) as [t Ht].
  assert (c0 = stage 0 (length c0 - 1)) as Hst.
  { apply list_eq. intros j. rw stage_lookup. destruct (c0 !! j) as [it|] eqn:Hj; [|done]. simpl. f_equal.
    pose proof (lookup_lt_Some _ _ _ Hj). unfold stage_item. destruct it as [p s d]; simpl. f_equal.
    - destruct j as [|j]; [|done]. by apply Hsup0 in Hj.
    - destruct (Nat.leb_spec (length c0 - 1) j); [|done]. replace j with (length c0 - 1)%nat in Hj by lia.
      by apply Hdem0 in Hj. }
  destruct (fix_loop_stages (length c0 - 1) 0 0 (length c0 - 1)) as (s & Hs & Hc).
  { lia. } { split; [lia|by exists h, h]. } { split; [lia|by exists t, t]. }
  replace (length c0 - 2)%nat with (length c0 - 1 - 1)%nat by lia. rw {2}Hst Hs. simpl. f_equal. rw Hc.
  apply list_eq. intros j. rw stage_lookup list_lookup_fmap. destruct (c0 !! j) as [it|] eqn:Hj; [|done]. simpl. f_equal.
  pose proof (lookup_lt_Some _ _ _ Hj). unfold stage_item, filled. f_equal.
  destruct (Nat.leb_spec j (length c0 - 1)); [done|lia].
Qed.
End fixing.

(** ** Supply and demand as functions of the price *)

Lemma supply_gap asks p q :
  p ≤ q → (∀ o, o ∈ asks → ¬ (p < o_Price o ≤ q)) → supply asks p = supply asks q.
Proof.
  intros Hpq H. apply sumZ_ext. intros o Ho. specialize (H o Ho).
  destruct (Z.leb_spec (o_Price o) p), (Z.leb_spec (o_Price o) q); try done; lia.
Qed.

Lemma demand_gap bids p q :
  p ≤ q → (∀ o, o ∈ bids → ¬ (p ≤ o_Price o < q)) → demand bids p = demand bids q.
Proof.
  intros Hpq H. apply sumZ_ext. intros o Ho. specialize (H o Ho).
  destruct (Z.leb_spec p (o_Price o)), (Z.leb_spec q (o_Price o)); try done; lia.
Qed.

Lemma supply_pos asks o p :
  book_side_ok asks → o ∈ asks → o_Price o ≤ p → 0 < supply asks p.
Proof.
  intros [Hpos _] Ho Hp. apply (sumZ_pos _ _ o); [|done|].
  - intros x Hx. destruct (Hpos x Hx). case_match; lia.
  - destruct (Hpos o Ho). destruct (Z.leb_spec (o_Price o) p); lia.
Qed.

Lemma demand_pos bids o p :
  book_side_ok bids → o ∈ bids → p ≤ o_Price o → 0 < demand bids p.
Proof.
  intros [Hpos _] Ho Hp. apply (sumZ_pos _ _ o); [|done|].
  - intros x Hx. destruct (Hpos x Hx). case_match; lia.
  - destruct (Hpos o Ho). destruct (Z.leb_spec p (o_Price o)); lia.
Qed.

Lemma supply_zero asks p : (∀ o, o ∈ asks → p < o_Price o) → supply asks p = 0.
Proof. intros H. apply sumZ_zero. intros o Ho. specialize (H o Ho). destruct (Z.leb_spec (o_Price o) p); lia. Qed.

Lemma demand_zero bids p : (∀ o, o ∈ bids → o_Price o < p) → demand bids p = 0.
Proof. intros H. apply sumZ_zero. intros o Ho. specialize (H o Ho). destruct (Z.leb_spec p (o_Price o)); lia. Qed.

Lemma supply_mono asks p q : (∀ o, o ∈ asks → 0 ≤ o_Quantity o) → p ≤ q → supply asks p ≤ supply asks q.
Proof.
  intros H Hpq. apply sumZ_le. intros o Ho. specialize (H o Ho).
  destruct (Z.leb_spec (o_Price o) p), (Z.leb_spec (o_Price o) q); lia.
Qed.

Lemma demand_anti bids p q : (∀ o, o ∈ bids → 0 ≤ o_Quantity o) → p ≤ q → demand bids q ≤ demand bids p.
Proof.
  intros H Hpq. apply sumZ_le. intros o Ho. specialize (H o Ho).
  destruct (Z.leb_spec q (o_Price o)), (Z.leb_spec p (o_Price o)); lia.
Qed.

(** ** The curves of a book *)
Definition curve_of (asks bids : list Order) (c : list SDItem) : Prop :=
  curve_sorted c ∧
  (∀ it, it ∈ c → sd_Supply it = supply asks (sd_Price it) ∧ sd_Demand it = demand bids (sd_Price it)) ∧
  (∀ p, p ∈ sd_Price <$> c ↔ p ∈ o_Price <$> asks ∨ p ∈ o_Price <$> bids).

Lemma in_prices {A} (f : A → Z) (l : list A) x : x ∈ l → f x ∈ f <$> l.
Proof. intros H. by apply list_elem_of_fmap_2. Qed.

Section raw.
Variables (asks bids : list Order) (askAggs bidAggs : list OrderAggregate) (c : list SDItem).
Hypotheses (Hasks : book_side_ok asks) (Hbids : book_side_ok bids).
Hypotheses (HA : aggs_of (supply asks) asks askAggs) (HB : aggs_of (demand bids) bids bidAggs).
Hypothesis Hraw : raw_curve askAggs bidAggs c.

Lemma raw_price_asks o : o ∈ asks → ∃ it, it ∈ c ∧ sd_Price it = o_Price o.
Proof.
  intros Ho. destruct Hraw as (_ & _ & Hp). destruct HA as (_ & _ & HpA).
  assert (o_Price o ∈ sd_Price <$> c) as Hin by (apply Hp; left; by apply HpA, in_prices).
  apply list_elem_of_fmap in Hin as (it & E & Hit). eauto.
Qed.

Lemma raw_price_bids o : o ∈ bids → ∃ it, it ∈ c ∧ sd_Price it = o_Price o.
Proof.
  intros Ho. destruct Hraw as (_ & _ & Hp). destruct HB as (_ & _ & HpB).
  assert (o_Price o ∈ sd_Price <$> c) as Hin by (apply Hp; right; by apply HpB, in_prices).
  apply list_elem_of_fmap in Hin as (it & E & Hit). eauto.
Qed.

(** A point without supply is the price of no ask, the others have theirs. *)
Lemma raw_supply it :
  it ∈ c →
  if sd_Supply it =? 0 then ∀ o, o ∈ asks → o_Price o ≠ sd_Price it else sd_Supply it = supply asks (sd_Price it).
Proof.
  intros Hit. destruct Hraw as (_ & Hq & _). destruct HA as (HsA & HqA & HpA).
  destruct (Hq it Hit) as [-> _].
  destruct (decide (sd_Price it ∈ agg_Price <$> askAggs)) as [Hin|Hnin].
  - apply list_elem_of_fmap in Hin as (a & E & Ha). rw E qty_at_elem; [|done..]. rw HqA; [|done].
    assert (agg_Price a ∈ o_Price <$> asks) as Hin by (by apply HpA, in_prices).
    apply list_elem_of_fmap in Hin as (o & Eo & Ho).
    pose proof (supply_pos asks o (agg_Price a) Hasks Ho ltac:(lia)).
    destruct (Z.eqb_spec (supply asks (agg_Price a)) 0); [lia|done].
  - rw qty_at_absent; [|done]. simpl. intros o Ho E. apply Hnin, HpA. rw -E. by apply in_prices.
Qed.

Lemma raw_demand it :
  it ∈ c →
  if sd_Demand it =? 0 then ∀ o, o ∈ bids → o_Price o ≠ sd_Price it else sd_Demand it = demand bids (sd_Price it).
Proof.
  intros Hit. destruct Hraw as (_ & Hq & _). destruct HB as (HsB & HqB & HpB).
  destruct (Hq it Hit) as [_ ->].
  destruct (decide (sd_Price it ∈ agg_Price <$> bidAggs)) as [Hin|Hnin].
  - apply list_elem_of_fmap in Hin as (a & E & Ha). rw E qty_at_elem; [|done..]. rw HqB; [|done].
    assert (agg_Price a ∈ o_Price <$> bids) as Hin by (by apply HpB, in_prices).
    apply list_elem_of_fmap in Hin as (o & Eo & Ho).
    pose proof (demand_pos bids o (agg_Price a) Hbids Ho ltac:(lia)).
    destruct (Z.eqb_spec (demand bids (agg_Price a)) 0); [lia|done].
  - rw qty_at_absent; [|done]. simpl. intros o Ho E. apply Hnin, HpB. rw -E. by apply in_prices.
Qed.

Lemma raw_fixed : c ≠ [] → fixZeroSupplyDemand c = Ok (filled (supply asks) (demand bids) <$> c).
Proof.
  pose proof Hraw as (Hs & _ & _).
  apply fixZeroSupplyDemand_filled.
  - intros it Hit. pose proof (list_elem_of_lookup_2 _ _ _ Hit) as Hin. pose proof (raw_supply it Hin) as H.
    destruct (Z.eqb_spec (sd_Supply it) 0) as [->|]; [|done]. symmetry. apply supply_zero.
    intros o Ho. specialize (H o Ho). destruct (raw_price_asks o Ho) as (it' & Hit' & E).
    pose proof (sorted_first c Hs it it' Hit Hit'). lia.
  - intros j a b Ha Hb. pose proof (raw_supply b (list_elem_of_lookup_2 _ _ _ Hb)) as H.
    destruct (Z.eqb_spec (sd_Supply b) 0) as [_|]; [|done]. symmetry. apply supply_gap.
    { apply Z.lt_le_incl. apply (sorted_lookup_lt c Hs j (S j)); [done|done|lia]. }
    intros o Ho Hr. specialize (H o Ho). destruct (raw_price_asks o Ho) as (it' & Hit' & E).
    pose proof (sorted_between c Hs j a b it' Ha Hb Hit'). lia.
  - intros it Hit. pose proof (list_elem_of_lookup_2 _ _ _ Hit) as Hin. pose proof (raw_demand it Hin) as H.
    destruct (Z.eqb_spec (sd_Demand it) 0) as [->|]; [|done]. symmetry. apply demand_zero.
    intros o Ho. specialize (H o Ho). destruct (raw_price_bids o Ho) as (it' & Hit' & E).
    pose proof (sorted_last c Hs it it' Hit Hit'). lia.
  - intros j a b Ha Hb. pose proof (raw_demand a (list_elem_of_lookup_2 _ _ _ Ha)) as H.
    destruct (Z.eqb_spec (sd_Demand a) 0) as [_|]; [|done]. apply demand_gap.
    { apply Z.lt_le_incl. apply (sorted_lookup_lt c Hs j (S j)); [done|done|lia]. }
    intros o Ho Hr. specialize (H o Ho). destruct (raw_price_bids o Ho) as (it' & Hit' & E).
    pose proof (sorted_between c Hs j a b it' Ha Hb Hit'). lia.
Qed.

Lemma raw_curve_of : curve_of asks bids (filled (supply asks) (demand bids) <$> c).
Proof.
  destruct Hraw as (Hs & _ & Hp). destruct HA as (_ & _ & HpA). destruct HB as (_ & _ & HpB). split_and!.
  - by apply sorted_fmap.
  - intros it (it' & -> & Hit)%list_elem_of_fmap. done.
  - intros p. rw -list_fmap_compose -HpA -HpB. apply Hp.
Qed.
End raw.

Lemma SliceIsSorted_sorted {A} (less : A → A → bool) l :
  StronglySorted (λ a b, less b a = false) l → sort_SliceIsSorted less l = true.
Proof.
  induction 1 as [|a [|b l] Hs IH Ha]; [done..|]. simpl in *. apply Forall_cons in Ha as [-> _]. done.
Qed.

Lemma last_max aggs a b :
  StronglySorted (λ a b, agg_Price a < agg_Price b) aggs → last aggs = Some b → a ∈ aggs → agg_Price a ≤ agg_Price b.
Proof.
  intros Hs (l & ->)%last_Some [Ha| ->%list_elem_of_singleton]%elem_of_app; [|done].
  pose proof (StronglySorted_app_1_elem_of _ _ _ a b Hs Ha ltac:(set_solver)). simpl in *. lia.
Qed.

(** The code after the emptiness checks. *)
Lemma NewSDCurves_cons askAggs bidAggs firstAsk restA lastBid :
  StronglySorted (λ a b, agg_Price a < agg_Price b) askAggs →
  StronglySorted (λ a b, agg_Price a < agg_Price b) bidAggs →
  askAggs = firstAsk :: restA → last bidAggs = Some lastBid →
  NewSDCurves askAggs bidAggs =
    if agg_Price lastBid <? agg_Price firstAsk then Err (Plain "highest bid price is lower than lowest ask price")
    else fixZeroSupplyDemand (addBidOrders (addAskOrders [] askAggs) bidAggs).
Proof.
  intros HsA HsB E EB. unfold NewSDCurves. rw EB {1}E.
  rw (SliceIsSorted_sorted _ askAggs); [|eapply sorted_impl; [|exact HsA]; intros; simpl in *; lia].
  rw (SliceIsSorted_sorted _ bidAggs); [|eapply sorted_impl; [|exact HsB]; intros; simpl in *; lia].
  simpl. by destruct (_ <? _).
Qed.

(** The prices at which the book could trade. *)
Definition crossed (asks bids : list Order) : Prop :=
  ∃ a b, a ∈ asks ∧ b ∈ bids ∧ o_Price a ≤ o_Price b.

Lemma crossed_dec_or asks bids : crossed asks bids ∨ ¬ crossed asks bids.
Proof.
  destruct (decide (Exists (λ a, Exists (λ b, o_Price a ≤ o_Price b) bids) asks)) as [H|H]; [left|right].
  - apply Exists_exists in H as (a & Ha & (b & Hb & Hab)%Exists_exists). by exists a, b.
  - intros (a & b & Ha & Hb & Hab). apply H, Exists_exists. exists a. split; [done|]. apply Exists_exists. by exists b.
Qed.

Section curves.
Variables (asks bids : list Order) (askAggs bidAggs : list OrderAggregate).
Hypotheses (Hasks : book_side_ok asks) (Hbids : book_side_ok bids).
Hypotheses (HA : aggs_of (supply asks) asks askAggs) (HB : aggs_of (demand bids) bids bidAggs).

Lemma NewSDCurves_crossed :
  crossed asks bids → ∃ c, NewSDCurves askAggs bidAggs = Ok c ∧ curve_of asks bids c ∧ c ≠ [].
Proof.
  intros (a & b & Ha & Hb & Hab). pose proof HA as (HsA & HqA & HpA). pose proof HB as (HsB & HqB & HpB).
  assert (o_Price a ∈ agg_Price <$> askAggs) as Hpa by (apply HpA; by apply in_prices).
  assert (o_Price b ∈ agg_Price <$> bidAggs) as Hpb by (apply HpB; by apply in_prices).
  apply list_elem_of_fmap in Hpa as (x & Ex & Hx). apply list_elem_of_fmap in Hpb as (y & Ey & Hy).
  destruct (last bidAggs) as [lastBid|] eqn:EB; [|by apply last_None in EB; subst; apply elem_of_nil in Hy].
  assert (∃ firstAsk restA, askAggs = firstAsk :: restA) as (firstAsk & restA & EA).
  { destruct askAggs; [by apply elem_of_nil in Hx|eauto]. }
  rw (NewSDCurves_cons _ _ firstAsk restA lastBid); [|done..].
  pose proof (last_max _ y lastBid HsB EB Hy).
  assert (agg_Price firstAsk ≤ agg_Price x).
  { rw EA in Hx HsA. apply StronglySorted_inv in HsA as [_ Hf]. rw Forall_forall in Hf.
    apply elem_of_cons in Hx as [->|Hx]; [done|]. specialize (Hf x Hx). lia. }
  destruct (Z.ltb_spec (agg_Price lastBid) (agg_Price firstAsk)) as [|_]; [lia|].
  pose proof (addBidOrders_raw askAggs bidAggs _ (raw_curve_asks askAggs HsA) HsB) as Hraw.
  set (c := addBidOrders (addAskOrders [] askAggs) bidAggs) in *.
  assert (c ≠ []) as Hne.
  { intros E. destruct Hraw as (_ & _ & Hp). assert (agg_Price x ∈ sd_Price <$> c) as Hin.
    - apply Hp. left. by apply in_prices.
    - rw E in Hin. by apply elem_of_nil in Hin. }
  rw (raw_fixed asks bids askAggs bidAggs); [|done..]. eexists. split; [done|]. split.
  - by eapply raw_curve_of.
  - intros E. by apply fmap_nil_inv in E.
Qed.

(** Otherwise there is nothing to match: an error that is not internal. *)
Lemma NewSDCurves_uncrossed :
  ¬ crossed asks bids → ∃ e, NewSDCurves askAggs bidAggs = Err e ∧ e ≠ ErrInternal.
Proof.
  intros Hnc. pose proof HA as (HsA & _ & HpA). pose proof HB as (HsB & _ & HpB).
  destruct (last bidAggs) as [lastBid|] eqn:EB; [|by unfold NewSDCurves; rw EB; destruct askAggs; eexists].
  assert (askAggs = [] ∨ ∃ firstAsk restA, askAggs = firstAsk :: restA) as [->|(firstAsk & restA & EA)].
  { destruct askAggs; eauto. } { by eexists. }
  rw (NewSDCurves_cons _ _ firstAsk restA lastBid); [|done..].
  destruct (Z.ltb_spec (agg_Price lastBid) (agg_Price firstAsk)) as [_|Hle]; [by eexists|]. exfalso.
  assert (agg_Price firstAsk ∈ o_Price <$> asks) as Hpa by (apply HpA, in_prices; rw EA; set_solver).
  assert (agg_Price lastBid ∈ o_Price <$> bids) as Hpb.
  { apply HpB, in_prices. apply last_Some in EB as (l & ->). set_solver. }
  apply list_elem_of_fmap in Hpa as (a & Ea & Ha). apply list_elem_of_fmap in Hpb as (b & Eb & Hb).
  apply Hnc. exists a, b. split_and!; [done|done|lia].
Qed.
End curves.

(** ** The crossing point *)

Definition prices_bounded (l : list Order) : Prop := ∀ o, o ∈ l → o_Price o < 2 ^ 255.

(** A point of the market: a price with what can be sold and bought at it. *)
Definition market_point (asks bids : list Order) (it : SDItem) : Prop :=
  0 < sd_Price it ∧ 0 < sd_Supply it ∧ 0 < sd_Demand it ∧
  sd_Supply it = supply asks (sd_Price it) ∧ sd_Demand it = demand bids (sd_Price it).

Section crossing.
Context `{STL : SdkTypesLaws} `{GSL : GoSortLaws}.
Variables (asks bids : list Order) (c : list SDItem).
Hypotheses (Hasks : book_side_ok asks) (Hbids : book_side_ok bids).
Hypotheses (Hpa : prices_bounded asks) (Hpb : prices_bounded bids).
Hypothesis Hc : curve_of asks bids c.

Lemma curve_price_range it : it ∈ c → 0 < sd_Price it < 2 ^ 255.
Proof.
  intros Hit. destruct Hc as (_ & _ & Hp). pose proof (proj1 (Hp _) (in_prices sd_Price c it Hit)) as H.
  destruct Hasks as [HA _]. destruct Hbids as [HB _].
  destruct H as [(o & -> & Ho)%list_elem_of_fmap|(o & -> & Ho)%list_elem_of_fmap].
  - specialize (HA o Ho). specialize (Hpa o Ho). lia.
  - specialize (HB o Ho). specialize (Hpb o Ho). lia.
Qed.

Lemma curve_qty_nonneg it : it ∈ c → 0 ≤ sd_Supply it ∧ 0 ≤ sd_Demand it.
Proof.
  intros Hit. destruct Hc as (_ & Hq & _). destruct (Hq it Hit) as [-> ->].
  destruct Hasks as [HA _]. destruct Hbids as [HB _].
  split; apply sumZ_nonneg; intros o Ho; [destruct (HA o Ho)|destruct (HB o Ho)]; case_match; lia.
Qed.

Lemma non_zero_pos it : it ∈ c → non_zero it = true → 0 < sd_Supply it ∧ 0 < sd_Demand it.
Proof.
  intros Hit Hnz. pose proof (curve_qty_nonneg it Hit). unfold non_zero in Hnz. lia.
Qed.

Lemma curve_point it : it ∈ c → non_zero it = true → market_point asks bids it.
Proof.
  intros Hit Hnz. pose proof (non_zero_pos it Hit Hnz). pose proof (curve_price_range it Hit).
  destruct Hc as (_ & Hq & _). destruct (Hq it Hit). unfold market_point. lia.
Qed.

Lemma corridor_spec cur right acc :
  (∀ it, acc = Some it → it ∈ c ∧ sd_Supply it = sd_Supply cur ∧ sd_Demand it = sd_Demand cur ∧ sd_Price cur ≤ sd_Price it) →
  (∀ it, it ∈ right → it ∈ c ∧ sd_Price cur ≤ sd_Price it) →
  ∀ it, corridor cur right acc = Some it →
    it ∈ c ∧ sd_Supply it = sd_Supply cur ∧ sd_Demand it = sd_Demand cur ∧ sd_Price cur ≤ sd_Price it.
Proof.
  revert acc. induction right as [|r right IH]; intros acc Hacc Hr it; simpl; [apply Hacc|].
  destruct (negb _ || negb _) eqn:E; [apply Hacc|]. apply IH; [|set_solver].
  intros ? [= <-]. destruct (Hr r ltac:(set_solver)). split_and!; [done|lia..].
Qed.

(** Between two points with the same quantities nothing changes. *)
Lemma corridor_between cur right p :
  cur ∈ c → right ∈ c → sd_Supply right = sd_Supply cur → sd_Demand right = sd_Demand cur →
  sd_Price cur ≤ p ≤ sd_Price right → supply asks p = sd_Supply cur ∧ demand bids p = sd_Demand cur.
Proof.
  intros Hcur Hright HS HD Hp. destruct Hc as (_ & Hq & _).
  destruct (Hq cur Hcur) as [Ec Ed]. destruct (Hq right Hright) as [Er Es].
  assert (∀ o, o ∈ asks → 0 ≤ o_Quantity o) as HA by (intros o Ho; destruct Hasks as [H _]; specialize (H o Ho); lia).
  assert (∀ o, o ∈ bids → 0 ≤ o_Quantity o) as HB by (intros o Ho; destruct Hbids as [H _]; specialize (H o Ho); lia).
  pose proof (supply_mono asks (sd_Price cur) p HA ltac:(lia)). pose proof (supply_mono asks p (sd_Price right) HA ltac:(lia)).
  pose proof (demand_anti bids (sd_Price cur) p HB ltac:(lia)). pose proof (demand_anti bids p (sd_Price right) HB ltac:(lia)).
  lia.
Qed.

Lemma find_cross_spec prev rest :
  curve_sorted (prev :: rest) → (∀ it, it ∈ prev :: rest → it ∈ c) →
  ∃ r, find_cross prev rest = Ok r ∧
    ∀ p cur price, r = Some (p, cur, price) → p ∈ c ∧ cur ∈ c ∧ 0 < price ∧
      supply asks price = sd_Supply cur ∧ demand bids price = sd_Demand cur.
Proof.
  revert prev. induction rest as [|cur rest IH]; intros prev Hs Hin; simpl.
  { eexists. split; [done|]. done. }
  apply StronglySorted_inv in Hs as [Hs _]. pose proof (Hin prev ltac:(set_solver)). pose proof (Hin cur ltac:(set_solver)) as Hcur.
  pose proof (curve_price_range cur Hcur).
  destruct (negb _); [|apply IH; [done|set_solver]].
  destruct (corridor cur rest None) as [right|] eqn:E.
  - assert (right ∈ c ∧ sd_Supply right = sd_Supply cur ∧ sd_Demand right = sd_Demand cur ∧ sd_Price cur ≤ sd_Price right)
      as (Hr & HS & HD & Hle).
    { apply (corridor_spec cur rest None); [done| |done]. apply StronglySorted_inv in Hs as [_ Hs].
      rw Forall_forall in Hs. intros it Hit. split; [set_solver|]. specialize (Hs it Hit). lia. }
    pose proof (curve_price_range right Hr).
    assert (2 ^ 255 + 2 ^ 255 = maxUint) by done.
    rw Uint_Add_ok; [|lia..]. simpl. rw Uint_QuoUint64_ok; [|lia|lia]. simpl. eexists. split; [done|].
    intros ? ? ? [= <- <- <-].
    pose proof (Z.div_mod (sd_Price cur + sd_Price right) 2 ltac:(lia)).
    pose proof (Z.mod_pos_bound (sd_Price cur + sd_Price right) 2 ltac:(lia)).
    split_and!; [done|done|lia|..]; apply (corridor_between cur right); done || lia.
  - eexists. split; [done|]. intros ? ? ? [= <- <- <-]. destruct Hc as (_ & Hq & _).
    destruct (Hq cur Hcur). split_and!; [done|done|lia|done|done].
Qed.

Lemma best_balanced_spec : crossed asks bids → market_point asks bids (best_balanced c).
Proof.
  intros (a & b & Ha & Hb & Hab). destruct Hc as (_ & Hq & Hp).
  assert (o_Price a ∈ sd_Price <$> c) as Hin by (apply Hp; left; by apply in_prices).
  apply list_elem_of_fmap in Hin as (it & E & Hit).
  assert (non_zero it = true) as Hnz.
  { destruct (Hq it Hit) as [HS HD]. pose proof (supply_pos asks a (sd_Price it) Hasks Ha ltac:(lia)).
    pose proof (demand_pos bids b (sd_Price it) Hbids Hb ltac:(lia)). unfold non_zero. lia. }
  unfold best_balanced. destruct (List.find non_zero (sort_Sort diff_Less c)) as [r|] eqn:Ef.
  - apply List.find_some in Ef as [Hr Hz]. apply list_elem_of_In in Hr. rw sort_Sort_perm in Hr.
    by apply curve_point.
  - exfalso. pose proof (List.find_none _ _ Ef it) as H. rw Hnz in H. discriminate H.
    apply list_elem_of_In. by rw sort_Sort_perm.
Qed.

Lemma getCrossPoint_point : crossed asks bids → ∃ it, getCrossPoint c = Ok it ∧ market_point asks bids it.
Proof.
  intros Hx. pose proof (best_balanced_spec Hx) as Hbest. pose proof Hc as (Hs & _ & Hp).
  destruct Hx as (a & b & Ha & Hb & Hab).
  assert (o_Price a ∈ sd_Price <$> c) as Hin by (apply Hp; left; by apply in_prices).
  apply list_elem_of_fmap in Hin as (it & _ & Hit).
  assert (∃ first rest, c = first :: rest) as (first & rest & E).
  { destruct c; [by apply elem_of_nil in Hit|eauto]. }
  assert (∀ x, x ∈ first :: rest → x ∈ c) as Hsub by (by rw E). rw E in Hs.
  destruct (find_cross_spec first rest Hs Hsub) as (r & Hr & Hspec).
  unfold getCrossPoint. rw {1}E Hr.
  destruct ((sd_Supply first =? sd_Demand first) && non_zero first) eqn:E0.
  { apply andb_true_iff in E0 as [_ Hnz]. eexists. split; [done|]. apply curve_point; [set_solver|done]. }
  simpl. destruct r as [[[p cur] price]|]; [|eauto].
  destruct (Hspec p cur price eq_refl) as (Hpc & Hcur & Hprice & HS & HD).
  destruct (non_zero cur) eqn:Hnz.
  { pose proof (non_zero_pos cur Hcur Hnz). eexists. split; [done|]. unfold market_point. simpl. lia. }
  destruct (non_zero p) eqn:Hnzp; [|eauto]. eexists. split; [done|]. by apply curve_point.
Qed.
End crossing.

(** ** The clearance state

    Up to half of [10^18] units the rounded coefficients identify the side that
    is short, and its volume is the limit of the other side. *)
Definition clears_side (S D : Z) (cs : ClearanceState) : Prop :=
  (0 < cs_ProRata cs ≤ Precision ∧ S ≤ D ∧ cs_MaxBidVolume cs = S * Precision ∧
   S * Precision ≤ cs_MaxAskVolume cs ∧ Z.abs (D * cs_ProRata cs - S * Precision) < D) ∨
  (Precision < cs_ProRata cs ∧ D < S ∧ cs_MaxAskVolume cs = D * Precision ∧
   D * Precision ≤ cs_MaxBidVolume cs ∧ 0 < cs_ProRataInvert cs ≤ Precision ∧
   Z.abs (S * cs_ProRataInvert cs - D * Precision) < S + D).

(** The volumes are integers of the chain. *)
Definition volumes_bounded (cs : ClearanceState) : Prop :=
  Z.abs (cs_MaxBidVolume cs) < 2 ^ 200 ∧ Z.abs (cs_MaxAskVolume cs) < 2 ^ 200.

Definition clears (S D : Z) (cs : ClearanceState) : Prop := clears_side S D cs ∧ volumes_bounded cs.

Lemma abs_mul_pos x P : 0 ≤ P → Z.abs x * P = Z.abs (x * P).
Proof. intros. rw Z.abs_mul. by rw (Z.abs_eq P). Qed.

(** Rounding to the nearest unit. *)
Lemma near_ge P n a v : 0 < P → 2 * Z.abs (n * P - a) ≤ P → v * P ≤ a → v ≤ n.
Proof.
  intros HP Hn Ha. destruct (Z_lt_ge_dec n v) as [Hlt|]; [|lia]. exfalso.
  assert ((n + 1) * P ≤ v * P) by (apply Z.mul_le_mono_nonneg_r; lia). lia.
Qed.

Lemma near_unique P n a v : 0 < P → 2 * Z.abs (n * P - a) ≤ P → 2 * Z.abs (a - v * P) < P → n = v.
Proof.
  intros HP Hn Ha. apply (near_eq P n v (P - 1)); [done|lia|].
  assert (Z.abs (n - v) * P = Z.abs (n * P - v * P)) as ->; [|lia].
  rw abs_mul_pos; [|lia]. by rw Z.mul_sub_distr_r.
Qed.

(** The coefficients' errors, for [P] units of precision. *)
Lemma prorata_bounds P S D r :
  0 < P → 0 < S → 0 < D → 2 * D ≤ P → Z.abs (r * (D * P) - S * P * P) < D * P →
  Z.abs (D * r - S * P) < D ∧ 0 < r ∧ (r ≤ P → S ≤ D) ∧ (P < r → D < S).
Proof.
  intros HP HS HD HDP Hr.
  assert (Z.abs (D * r - S * P) < D) as Hclose.
  { apply (Z.mul_lt_mono_pos_r P); [done|]. rw abs_mul_pos; lia. }
  split_and!; [done|nia|nia|nia].
Qed.

Lemma invert_bounds P S D r i :
  0 < P → 0 < S → 0 < D → 0 < r → 2 * (S + D) ≤ P → Z.abs (D * r - S * P) < D → Z.abs (i * r - P * P) < r →
  (r ≤ P → P ≤ i) ∧ i < P * P + 1 ∧ (P < r → 0 < i ≤ P ∧ Z.abs (S * i - D * P) < S + D).
Proof.
  intros HP HS HD Hr HSD Hc Hi. split_and!; [nia|nia|]. intros HPr.
  assert (Z.abs (S * i - D * P) < S + D) as Habs.
  { apply (Z.mul_lt_mono_pos_r r); [done|]. rw abs_mul_pos; [|lia].
    assert (Z.abs (S * (i * r - P * P)) ≤ S * r) by (rw Z.abs_mul; nia).
    assert (Z.abs (P * (D * r - S * P)) ≤ D * P) by (rw Z.abs_mul; nia).
    assert ((S * i - D * P) * r = S * (i * r - P * P) - P * (D * r - S * P)) as -> by lia. nia. }
  split; [split; nia|done].
Qed.

Lemma product_bounds P S D r i :
  0 < S ≤ P → 0 < D ≤ P → 0 < r → D * r < S * P + D → 0 ≤ i ≤ P * P →
  0 ≤ D * r ≤ P * P + P ∧ 0 ≤ S * i ≤ P * P * P.
Proof.
  intros HS HD Hr HDr Hi.
  assert (S * P ≤ P * P) by (apply Z.mul_le_mono_nonneg_r; lia).
  split; [split; [apply Z.mul_nonneg_nonneg; lia|lia]|].
  split; [apply Z.mul_nonneg_nonneg; lia|]. rw -Z.mul_assoc. apply Z.mul_le_mono_nonneg; lia.
Qed.

Section clearance.
Context `{STL : SdkTypesLaws}.

(** The numeric part of [GetClearanceState]. *)
Lemma clearance_numbers S D :
  0 < S → 0 < D → 2 * (S + D) ≤ Precision →
  ∃ r i b a, Dec_Quo (NewDecFromBigInt S) (NewDecFromBigInt D) = Ok r ∧ Dec_Quo OneDec r = Ok i ∧
    Dec_Mul (NewDecFromBigInt D) r = Ok (D * r) ∧ Dec_RoundInt (D * r) = Ok b ∧
    Dec_Mul (NewDecFromBigInt S) i = Ok (S * i) ∧ Dec_RoundInt (S * i) = Ok a ∧
    ∀ p, clears S D (MkClearanceState p r i (b * Precision) (a * Precision)).
Proof.
  intros HS HD HSD. rw !NewDecFromBigInt_eq. pose proof Precision_gt_2 as HP2.
  assert (8 * (Precision * Precision * Precision) < maxDec) as HM by done. unfold OneDec.
  assert (2 * S * Precision * Precision ≤ Precision * Precision * Precision) by nia.
  destruct (Dec_Quo_close (S * Precision) (D * Precision)) as (r & Hr & Hrc).
  { nia. }
  { rw Z.abs_eq; [|nia]. assert (0 < D * Precision) by nia.
    apply (Z.lt_le_trans _ maxDec); [lia|]. apply Z.le_mul_diag_r; lia. }
  destruct (prorata_bounds Precision S D r) as (Hc & Hr0 & Hle & Hgt); [lia..|].
  destruct (Dec_Quo_close Precision r) as (i & Hi & Hic).
  { done. }
  { rw Z.abs_eq; [|lia]. apply (Z.lt_le_trans _ maxDec); [nia|]. apply Z.le_mul_diag_r; lia. }
  destruct (invert_bounds Precision S D r i) as (Hi1 & Hi2 & Hi3); [lia..|].
  assert (0 ≤ i) as Hi0 by (destruct (Z_le_gt_dec r Precision); [lia|destruct Hi3; lia]).
  destruct (product_bounds Precision S D r i) as [HDr HSi].
  { clear -HS HD HSD. lia. } { clear -HS HD HSD. lia. } { done. }
  { clear -Hc. lia. } { clear -Hi2 Hi0. lia. }
  assert (2 * (Precision * Precision + Precision) < Precision * maxInt) as HI by done.
  assert (2 * (Precision * Precision * Precision) < Precision * maxInt) as HJ by done.
  assert (2 * (Precision * Precision + Precision) < maxDec) as HI' by done.
  assert (2 * (Precision * Precision * Precision) < maxDec) as HJ' by done.
  assert (2 * Z.abs (D * r) < Precision * maxInt ∧ 2 * Z.abs (D * r) < maxDec) as [Hbd Hbm] by (clear -HDr HI HI'; lia).
  assert (2 * Z.abs (S * i) < Precision * maxInt ∧ 2 * Z.abs (S * i) < maxDec) as [Had Ham] by (clear -HSi HJ HJ'; lia).
  destruct (Dec_RoundInt_near (D * r) Hbd) as (b & Hb & Hbn).
  destruct (Dec_RoundInt_near (S * i) Had) as (a & Ha & Han).
  exists r, i, b, a. split_and!; [done|done| |done| |done|].
  { apply Dec_Mul_exact; [clear; lia|done]. }
  { apply Dec_Mul_exact; [clear; lia|done]. }
  intros p. split.
  2:{ assert (Precision * Precision * Precision + 2 * Precision < 2 ^ 200) as HK by done.
      assert (Precision * Precision + 2 * Precision < 2 ^ 200) as HK' by done. unfold volumes_bounded. simpl.
      split; [clear -Hbn HDr HK'|clear -Han HSi HK]; lia. }
  unfold clears_side. simpl. destruct (Z_le_gt_dec r Precision) as [HrP|HrP]; [left|right].
  - specialize (Hle HrP). specialize (Hi1 HrP).
    rw (near_unique Precision b (D * r) S); [|done|done|clear -Hc HSD HS; lia].
    split_and!; [done|done|done|done| |done]. apply Z.mul_le_mono_nonneg_r; [done|].
    apply (near_ge Precision a (S * i)); [done|done|apply Z.mul_le_mono_nonneg_l; [clear -HS; lia|done]].
  - assert (Precision < r) as HrP' by (clear -HrP; lia). destruct (Hi3 HrP') as [[Hi4 Hi4u] Hi5]. specialize (Hgt HrP').
    rw (near_unique Precision a (S * i) D); [|done|done|clear -Hi5 HSD; lia].
    split_and!; [done|done|done| |done|done|done]. apply Z.mul_le_mono_nonneg_r; [done|].
    apply (near_ge Precision b (D * r)); [done|done|apply Z.mul_le_mono_nonneg_l; clear -HD HrP'; lia].
Qed.
End clearance.

Lemma supply_le_volume asks p : book_side_ok asks → supply asks p ≤ volume asks.
Proof. intros [H _]. apply sumZ_le. intros o Ho. destruct (H o Ho). case_match; lia. Qed.

Lemma demand_le_volume bids p : book_side_ok bids → demand bids p ≤ volume bids.
Proof. intros [H _]. apply sumZ_le. intros o Ho. destruct (H o Ho). case_match; lia. Qed.

(** The books the decimal coefficients are exact enough for. *)
Definition book_ok (asks bids : list Order) : Prop :=
  book_side_ok asks ∧ book_side_ok bids ∧ prices_bounded asks ∧ prices_bounded bids ∧
  2 * (volume asks + volume bids) ≤ Precision.

(** The state of a crossed book: a price where both sides are positive, and the
    short side's volume as the limit. *)
Lemma GetClearanceState_clears `{STL : SdkTypesLaws} `{GSL : GoSortLaws} asks bids c :
  book_ok asks bids → crossed asks bids → curve_of asks bids c → c ≠ [] →
  ∃ cs, GetClearanceState c = Ok cs ∧ 0 < cs_Price cs ∧
    0 < supply asks (cs_Price cs) ∧ 0 < demand bids (cs_Price cs) ∧
    clears (supply asks (cs_Price cs)) (demand bids (cs_Price cs)) cs.
Proof.
  intros (HA & HB & Hpa & Hpb & Hvol) Hx Hc Hne.
  destruct (getCrossPoint_point asks bids c HA HB Hpa Hpb Hc Hx) as (it & Hit & Hp & HS & HD & ES & ED).
  unfold GetClearanceState. destruct (Nat.eqb_spec (length c) 0) as [E|_]; [by apply nil_length_inv in E|].
  rw Hit. simpl. rw !(proj2 (Z.eqb_neq _ 0)); [|lia..]. simpl.
  pose proof (supply_le_volume asks (sd_Price it) HA). pose proof (demand_le_volume bids (sd_Price it) HB).
  destruct (clearance_numbers (sd_Supply it) (sd_Demand it)) as (r & i & b & a & -> & H1 & H2 & H3 & H4 & H5 & Hcl); [lia..|].
  simpl. rw H1. simpl. rw H2. simpl. rw H3. simpl. rw H4. simpl. rw H5. simpl. eexists. split; [done|].
  rw -ES -ED !NewDecFromBigInt_eq. split_and!; [done|done|done|apply Hcl].
Qed.
