(* ===== verification/Matcher.v ===== *)
(** * The matcher ([x/orderbook/internal/keeper/matcher.go], [matcher_pool.go])

    Every market has a matcher: it sorts and aggregates its orders, finds the
    clearance state and fills the orders, highest bids and lowest asks first. *)
From S2P Require Import Prelude Bytes Sdk SdkRef SdkFacts DnTypes Markets Orders Aggregates Curves.
Local Open Scope Z_scope.

Record Matcher := MkMatcher {
  m_marketID : ID;
  m_bid : list Order;
  m_ask : list Order;
}.

Record MatcherResult := MkMatcherResult {
  mr_MarketID : ID;
  mr_BidOrdersCount : Z;
  mr_AskOrdersCount : Z;
  mr_ClearanceState : ClearanceState;
  mr_MatchedBidVolume : Dec;
  mr_MatchedAskVolume : Dec;
  mr_OrderFills : list OrderFill;
}.

Definition NewMatcher (marketID : ID) : Matcher := MkMatcher marketID [] [].

(** The orders slice never reaches [MaxInt] elements. *)
Definition MaxInt : Z := 2 ^ 63 - 1.

Definition Matcher_AddOrder (m : Matcher) (order : Order) : outcome Matcher :=
  fail_if (negb (ID_Equal (me_ID (o_Market order)) (m_marketID m))) ErrInternal;;
  fail_if (o_Price order =? 0) ErrInternal;;
  fail_if (o_Quantity order =? 0) ErrInternal;;
  if bool_decide (o_Direction order = orders.Bid) then
    fail_if (Z.of_nat (length (m_bid m)) =? MaxInt) (Plain "max orders len reached");;
    Ok (MkMatcher (m_marketID m) (m_bid m ++ [order]) (m_ask m))
  else if bool_decide (o_Direction order = orders.Ask) then
    fail_if (Z.of_nat (length (m_ask m)) =? MaxInt) (Plain "max orders len reached");;
    Ok (MkMatcher (m_marketID m) (m_bid m) (m_ask m ++ [order]))
  else Err (Plain "unknown order direction").

Section fills.
Context `{ST : SdkTypes} `{GS : GoSort}.

(** The quantity of one order, scaled by [coef] and capped by what is left of
    [maxVolume]. *)
Definition prorata_quantity (coef maxVolume matchedVolume : Dec) (order : Order) : outcome Uint :=
  orderQtyDec ← Dec_Mul (NewDecFromBigInt (o_Quantity order)) coef;
  let orderQtyDec := Dec_Ceil orderQtyDec in
  sum ← Dec_Add matchedVolume orderQtyDec;
  orderQtyDec ← (if maxVolume <? sum then Dec_Sub maxVolume matchedVolume else Ok orderQtyDec);
  qty ← Dec_RoundInt orderQtyDec;
  NewUintFromBigInt qty.

Definition fill_of (cs : ClearanceState) (order : Order) (fillQuantity : Uint) : outcome OrderFill :=
  unfilled ← Uint_Sub (o_Quantity order) fillQuantity;
  Ok (MkOrderFill order (cs_Price cs) fillQuantity unfilled).

(** Bids, from the last (the highest price) down. *)
Fixpoint fill_bids (cs : ClearanceState) (rev_bids : list Order) (fills : list OrderFill) (matchedVolume : Dec)
    : outcome (list OrderFill * Dec) :=
  match rev_bids with
  | [] => Ok (fills, matchedVolume)
  | order :: rest =>
      if (o_Price order <? cs_Price cs) || (matchedVolume =? cs_MaxBidVolume cs) then Ok (fills, matchedVolume)
      else
        fillQuantity ← (if OneDec <? cs_ProRata cs then Ok (o_Quantity order)
                        else prorata_quantity (cs_ProRata cs) (cs_MaxBidVolume cs) matchedVolume order);
        if fillQuantity =? 0 then fill_bids cs rest fills matchedVolume
        else
          matchedVolume ← Dec_Add matchedVolume (NewDecFromBigInt fillQuantity);
          fill ← fill_of cs order fillQuantity;
          fill_bids cs rest (fills ++ [fill]) matchedVolume
  end.

Definition getBidOrderFills (bids : list Order) (cs : ClearanceState) : outcome (list OrderFill * Dec) :=
  fill_bids cs (reverse bids) [] ZeroDec.

(** Asks, from the first (the lowest price) up. *)
Fixpoint fill_asks (cs : ClearanceState) (asks : list Order) (fills : list OrderFill) (matchedVolume : Dec)
    : outcome (list OrderFill * Dec) :=
  match asks with
  | [] => Ok (fills, matchedVolume)
  | order :: rest =>
      if (cs_Price cs <? o_Price order) || (matchedVolume =? cs_MaxAskVolume cs) then Ok (fills, matchedVolume)
      else
        fillQuantity ← (if OneDec <? cs_ProRata cs
                        then prorata_quantity (cs_ProRataInvert cs) (cs_MaxAskVolume cs) matchedVolume order
                        else Ok (o_Quantity order));
        if fillQuantity =? 0 then fill_asks cs rest fills matchedVolume
        else
          matchedVolume ← Dec_Add matchedVolume (NewDecFromBigInt fillQuantity);
          fill ← fill_of cs order fillQuantity;
          fill_asks cs rest (fills ++ [fill]) matchedVolume
  end.

Definition getAskOrderFills (asks : list Order) (cs : ClearanceState) : outcome (list OrderFill * Dec) :=
  fill_asks cs asks [] ZeroDec.

(** A panic in a sorting goroutine ends the process like any other. *)
Definition Match (m : Matcher) : outcome MatcherResult :=
  let bid := sort_Sort ByPriceAscIDDesc_Less (m_bid m) in
  bidAggs ← NewBidOrderAggregates bid;
  let ask := sort_Sort ByPriceAscIDAsc_Less (m_ask m) in
  askAggs ← NewAskOrderAggregates ask;
  sdCurves ← NewSDCurves askAggs bidAggs;
  clearanceState ← GetClearanceState sdCurves;
  bidFills ← getBidOrderFills bid clearanceState;
  askFills ← getAskOrderFills ask clearanceState;
  Ok (MkMatcherResult (m_marketID m) (Z.of_nat (length bid)) (Z.of_nat (length ask)) clearanceState
        bidFills.2 askFills.2 (bidFills.1 ++ askFills.1)).

(** ** The pool: a matcher per market ID *)
Definition MatcherPool : Type := gmap string Matcher.
Definition NewMatcherPool : MatcherPool := ∅.

Definition MatcherPool_AddOrder (mp : MatcherPool) (order : Order) : outcome MatcherPool :=
  let marketID := me_ID (o_Market order) in
  let matcher := default (NewMatcher marketID) (mp !! ID_String marketID) in
  matcher ← Matcher_AddOrder matcher order;
  Ok (<[ID_String marketID := matcher]> mp).

(** The matchers in the order the map is ranged over; an internal error panics,
    any other is logged. *)
Definition Process (matchers : list Matcher) : outcome (list MatcherResult) :=
  foldM (λ results matcher,
    match Match matcher with
    | Ok result => Ok (results ++ [result])
    | Err e => if bool_decide (e = ErrInternal) then Panic else Ok results
    | Panic => Panic
    end) [] matchers.

(** Go ranges over a map in any order. *)
Definition range_of (mp : MatcherPool) (matchers : list Matcher) : Prop := matchers ≡ₚ (map_to_list mp).*2.
End fills.
