(* ===== verification/MatcherFacts.v ===== *)
(** * Correctness of the matcher

    The fills of a crossed book: who is filled, how much, at what price, and that
    the two sides match the same volume.  The loops are compared with a pure
    allocation function. *)
From S2P Require Import Prelude Bytes Sdk SdkRef SdkFacts DnTypes Markets Orders Aggregates Curves CurvesFacts Matcher.
Local Open Scope Z_scope.

(** ** The reference allocation

    [V] units are given to the orders in turn: each gets its share, the quantity
    times [coef] (in units of [10^-18]) rounded up, until nothing is left. *)
Definition ceil_units (x : Z) : Z := - (- x / Precision).
Definition share (coef : Z) (o : Order) : Z := ceil_units (o_Quantity o * coef).

Fixpoint alloc (coef V : Z) (l : list Order) : list (Order * Z) :=
  match l with
  | [] => []
  | o :: l' =>
      if V =? 0 then []
      else let q := Z.min (share coef o) V in (o, q) :: alloc coef (V - q) l'
  end.

(** A fill of [q] units of [o] at price [p]. *)
Definition fill_at (p : Z) (x : Order * Z) : OrderFill :=
  MkOrderFill x.1 p x.2 (o_Quantity x.1 - x.2).

Lemma ceil_units_bounds x : x ≤ ceil_units x * Precision < x + Precision.
Proof.
  unfold ceil_units. pose proof Precision_gt_2. pose proof (Z.div_mod (- x) Precision ltac:(lia)).
  pose proof (Z.mod_pos_bound (- x) Precision ltac:(lia)). lia.
Qed.

Lemma share_bounds coef o : 0 < o_Quantity o → 0 < coef ≤ Precision → 1 ≤ share coef o ≤ o_Quantity o.
Proof.
  intros Hq Hc. unfold share. pose proof (ceil_units_bounds (o_Quantity o * coef)). pose proof Precision_gt_2.
  assert (o_Quantity o * coef ≤ o_Quantity o * Precision) by (apply Z.mul_le_mono_nonneg_l; lia).
  assert (0 < o_Quantity o * coef) by (apply Z.mul_pos_pos; lia).
  set (c := ceil_units (o_Quantity o * coef)) in *. split.
  - assert (0 < c); [|lia]. apply (Z.mul_lt_mono_pos_r Precision); lia.
  - assert (c < o_Quantity o + 1); [|lia]. apply (Z.mul_lt_mono_pos_r Precision); lia.
Qed.

Section alloc.
Variables (coef : Z).
Hypothesis Hcoef : 0 < coef ≤ Precision.

Lemma alloc_orders V l : (alloc coef V l).*1 `prefix_of` l.
Proof.
  revert V. induction l as [|o l IH]; intros V; simpl; [done|].
  destruct (V =? 0); simpl; [apply prefix_nil|]. apply prefix_cons, IH.
Qed.

Lemma alloc_range V l :
  (∀ o, o ∈ l → 0 < o_Quantity o) → 0 ≤ V → ∀ x, x ∈ alloc coef V l → 0 < x.2 ≤ o_Quantity x.1.
Proof.
  revert V. induction l as [|o l IH]; intros V Hl HV x; simpl; [by intros ?%elem_of_nil|].
  destruct (Z.eqb_spec V 0); [by intros ?%elem_of_nil|].
  pose proof (share_bounds coef o (Hl o ltac:(set_solver)) Hcoef).
  intros [->|Hx]%elem_of_cons; [simpl; lia|]. eapply (IH (V - _)); [set_solver| |done]. lia.
Qed.

(** Everything is given out when the shares are enough. *)
Lemma alloc_total V l :
  (∀ o, o ∈ l → 0 < o_Quantity o) → 0 ≤ V ≤ sumZ (share coef) l → sumZ snd (alloc coef V l) = V.
Proof.
  revert V. induction l as [|o l IH]; intros V Hl HV; simpl in *; [lia|].
  destruct (Z.eqb_spec V 0) as [->|]; [done|].
  pose proof (share_bounds coef o (Hl o ltac:(set_solver)) Hcoef). simpl.
  destruct (Z.min_spec (share coef o) V) as [[? ->]|[? ->]].
  - rw IH; [lia|set_solver|lia].
  - rw IH; [lia|set_solver|]. split; [lia|]. rw Z.sub_diag. apply sumZ_nonneg. intros y Hy.
    pose proof (share_bounds coef y (Hl y ltac:(set_solver)) Hcoef). lia.
Qed.
End alloc.

(** The shares of the eligible orders cover the scaled volume. *)
Lemma share_total coef l V :
  (∀ o, o ∈ l → 0 < o_Quantity o) → 0 < coef →
  2 * (V * Precision - volume l * coef) < Precision → V ≤ sumZ (share coef) l.
Proof.
  intros Hl Hc HV. assert (volume l * coef ≤ sumZ (share coef) l * Precision) as Hle.
  { clear HV. induction l as [|o l IH]; [done|]. unfold volume in *. simpl.
    pose proof (ceil_units_bounds (o_Quantity o * coef)). unfold share at 1.
    specialize (IH ltac:(set_solver)). lia. }
  pose proof Precision_gt_2. assert (V < sumZ (share coef) l + 1); [|lia].
  apply (Z.mul_lt_mono_pos_r Precision); lia.
Qed.

(** ** Orders in priority *)

(** A list sorted for a threshold predicate is its two halves. *)
Lemma filter_sorted_split {A} (R : A → A → Prop) (stop : A → bool) l :
  StronglySorted R l → (∀ x y, R x y → stop x = true → stop y = true) →
  l = filter (λ x, stop x = false) l ++ filter (λ x, stop x = true) l.
Proof.
  intros Hs Hmono. induction Hs as [|x l Hs IH Hx]; [done|].
  rw !filter_cons. destruct (stop x) eqn:E; simpl.
  - assert (∀ y, y ∈ l → stop y = true) as Hy.
    { intros y Hy. rw Forall_forall in Hx. by apply (Hmono x y); [apply Hx|]. }
    rw (filter_none (λ x, stop x = false)); [|intros y Hl; by rw (Hy y Hl)].
    by rw filter_all.
  - by rw {1}IH.
Qed.

Lemma volume_filter (P : Order → Prop) `{∀ o, Decision (P o)} l :
  volume (filter P l) = sumZ (λ o, if decide (P o) then o_Quantity o else 0) l.
Proof. induction l as [|o l IH]; [done|]. rw filter_cons. unfold volume in *. simpl. case_decide; simpl; rw IH; lia. Qed.

(** ** The fill loops

    Both loops are one loop, up to when an order is out of reach and whether its
    quantity is scaled. *)
Section loops.
Context `{STL : SdkTypesLaws} `{GS : GoSort}.

Fixpoint fill_loop (cs : ClearanceState) (stop : Order → bool) (scaled : bool) (coef maxVolume : Dec)
    (l : list Order) (fills : list OrderFill) (matchedVolume : Dec) : outcome (list OrderFill * Dec) :=
  match l with
  | [] => Ok (fills, matchedVolume)
  | order :: rest =>
      if stop order || (matchedVolume =? maxVolume) then Ok (fills, matchedVolume)
      else
        fillQuantity ← (if scaled then prorata_quantity coef maxVolume matchedVolume order else Ok (o_Quantity order));
        if fillQuantity =? 0 then fill_loop cs stop scaled coef maxVolume rest fills matchedVolume
        else
          matchedVolume ← Dec_Add matchedVolume (NewDecFromBigInt fillQuantity);
          fill ← fill_of cs order fillQuantity;
          fill_loop cs stop scaled coef maxVolume rest (fills ++ [fill]) matchedVolume
  end.

Lemma fill_bids_loop cs l fills mv :
  fill_bids cs l fills mv =
  fill_loop cs (λ o, o_Price o <? cs_Price cs) (negb (OneDec <? cs_ProRata cs)) (cs_ProRata cs) (cs_MaxBidVolume cs) l fills mv.
Proof.
  revert fills mv. induction l as [|o l IH]; intros fills mv; [done|]. simpl.
  destruct (_ || _); [done|]. destruct (OneDec <? cs_ProRata cs); simpl.
  - case_match; [apply IH|]. destruct (Dec_Add _ _); simpl; [|done..]. destruct (fill_of _ _ _); simpl; [apply IH|done..].
  - destruct (prorata_quantity _ _ _ _) as [q| |]; simpl; [|done..]. case_match; [apply IH|].
    destruct (Dec_Add _ _); simpl; [|done..]. destruct (fill_of _ _ _); simpl; [apply IH|done..].
Qed.

Lemma fill_asks_loop cs l fills mv :
  fill_asks cs l fills mv =
  fill_loop cs (λ o, cs_Price cs <? o_Price o) (OneDec <? cs_ProRata cs) (cs_ProRataInvert cs) (cs_MaxAskVolume cs) l fills mv.
Proof.
  revert fills mv. induction l as [|o l IH]; intros fills mv; [done|]. simpl.
  destruct (_ || _); [done|]. destruct (OneDec <? cs_ProRata cs); simpl.
  - destruct (prorata_quantity _ _ _ _) as [q| |]; simpl; [|done..]. case_match; [apply IH|].
    destruct (Dec_Add _ _); simpl; [|done..]. destruct (fill_of _ _ _); simpl; [apply IH|done..].
  - case_match; [apply IH|]. destruct (Dec_Add _ _); simpl; [|done..]. destruct (fill_of _ _ _); simpl; [apply IH|done..].
Qed.

Variables (cs : ClearanceState) (stop : Order → bool) (coef : Dec).

Lemma fill_of_ok o q :
  0 ≤ q ≤ o_Quantity o → o_Quantity o < maxUint → fill_of cs o q = Ok (fill_at (cs_Price cs) (o, q)).
Proof. intros Hq Hm. unfold fill_of. by rw Uint_Sub_ok. Qed.

Lemma Dec_Add_units a b :
  0 ≤ a → 0 ≤ b → a + b ≤ Precision → Dec_Add (a * Precision) (b * Precision) = Ok ((a + b) * Precision).
Proof.
  intros Ha Hb Hab. rw Dec_Add_ok; [by rw Z.mul_add_distr_r|]. rw -Z.mul_add_distr_r.
  apply (Z.le_lt_trans _ (Precision * Precision)); [|done].
  rw Z.abs_eq; [apply Z.mul_le_mono_nonneg_r; [done|lia]|]. apply Z.mul_nonneg_nonneg; [lia|done].
Qed.

Lemma Dec_Sub_units a b :
  0 ≤ b ≤ a → a ≤ Precision → Dec_Sub (a * Precision) (b * Precision) = Ok ((a - b) * Precision).
Proof.
  intros Hb Ha. rw Dec_Sub_ok; [by rw Z.mul_sub_distr_r|]. rw -Z.mul_sub_distr_r.
  apply (Z.le_lt_trans _ (Precision * Precision)); [|done].
  rw Z.abs_eq; [apply Z.mul_le_mono_nonneg_r; [done|lia]|]. apply Z.mul_nonneg_nonneg; [lia|done].
Qed.

Lemma Dec_Ceil_units x : Dec_Ceil x = ceil_units x * Precision.
Proof.
  destruct (Dec_Ceil_spec x) as [[m ->] Hb]. pose proof (ceil_units_bounds x). pose proof Precision_gt_2.
  f_equal. assert (m < ceil_units x + 1) by (apply (Z.mul_lt_mono_pos_r Precision); lia).
  assert (ceil_units x < m + 1) by (apply (Z.mul_lt_mono_pos_r Precision); lia). lia.
Qed.

(** One scaled order. *)
Lemma prorata_quantity_ok V v o :
  0 < o_Quantity o → 0 < coef ≤ Precision → 0 ≤ v ≤ V → V + o_Quantity o ≤ Precision →
  prorata_quantity coef (V * Precision) (v * Precision) o = Ok (Z.min (share coef o) (V - v)).
Proof.
  intros Hq Hc Hv HV. pose proof (share_bounds coef o Hq Hc) as Hs. unfold prorata_quantity.
  rw NewDecFromBigInt_eq (Dec_Mul_exact _ _ (o_Quantity o * coef)); [|lia|].
  2:{ apply (Z.le_lt_trans _ (2 * (Precision * Precision))); [|done].
      rw Z.abs_eq; [|lia]. apply Z.mul_le_mono_nonneg_l; [done|]. apply Z.mul_le_mono_nonneg; lia. }
  simpl. rw Dec_Ceil_units -/(share coef o) Dec_Add_units; [|lia..]. simpl.
  assert (maxInt = 2 ^ 255 ∧ maxUint = 2 ^ 256) as [EI EU] by done.
  assert (2 * Precision < maxInt ∧ Precision < maxUint) as [HI HU] by done.
  destruct (Z.ltb_spec (V * Precision) ((v + share coef o) * Precision)) as [Hlt|Hge].
  - apply Z.mul_lt_mono_pos_r in Hlt; [|done]. rw Dec_Sub_units; [|lia..]. simpl.
    rw Dec_RoundInt_exact; [|lia]. simpl. rw NewUintFromBigInt_ok; [|lia]. f_equal. lia.
  - apply Z.mul_le_mono_pos_r in Hge; [|done]. simpl.
    rw Dec_RoundInt_exact; [|lia]. simpl. rw NewUintFromBigInt_ok; [|lia]. f_equal. lia.
Qed.

(** Orders out of reach end the loop. *)
Lemma fill_loop_stop scaled maxV R fills mv :
  (∀ o, o ∈ R → stop o = true) → fill_loop cs stop scaled coef maxV R fills mv = Ok (fills, mv).
Proof. intros HR. destruct R as [|o R]; [done|]. simpl. by rw (HR o); [|set_solver]. Qed.

(** The scaled side: the fills are the reference allocation. *)
Lemma fill_loop_scaled V v E R fills :
  (∀ o, o ∈ E → stop o = false ∧ 0 < o_Quantity o) → (∀ o, o ∈ R → stop o = true) →
  0 < coef ≤ Precision → 0 ≤ v ≤ V → V + volume E ≤ Precision → V - v ≤ sumZ (share coef) E →
  fill_loop cs stop true coef (V * Precision) (E ++ R) fills (v * Precision) =
    Ok (fills ++ (fill_at (cs_Price cs) <$> alloc coef (V - v) E), V * Precision).
Proof.
  intros HE HR Hc. revert v fills. induction E as [|o E IH]; intros v fills Hv HV Hsh; simpl.
  { assert (v = V) as -> by (simpl in Hsh; lia). rw app_nil_r. by apply fill_loop_stop. }
  assert (∀ o, o ∈ E → stop o = false ∧ 0 < o_Quantity o) as HE' by (intros y Hy; apply HE; by right).
  destruct (HE o ltac:(by left)) as [-> Hq]. simpl.
  destruct (Z.eqb_spec (v * Precision) (V * Precision)) as [Heq|Hne].
  { apply Z.mul_reg_r in Heq as ->; [|done]. rw Z.sub_diag. simpl. by rw app_nil_r. }
  assert (v ≠ V) by congruence.
  assert (0 ≤ volume E) by (apply sumZ_nonneg; intros y Hy; destruct (HE' y Hy); lia).
  unfold volume in HV. simpl in HV, Hsh. fold (volume E) in HV.
  assert (Precision < maxUint) by done.
  pose proof (share_bounds coef o Hq Hc). rw prorata_quantity_ok; [|done|done|done|lia]. simpl.
  set (q := Z.min (share coef o) (V - v)).
  destruct (Z.eqb_spec q 0) as [|_]; [lia|]. destruct (Z.eqb_spec (V - v) 0) as [|_]; [lia|].
  rw NewDecFromBigInt_eq Dec_Add_units; [|lia..]. simpl. rw fill_of_ok; [|lia..]. simpl.
  rw (IH HE' (v + q)); [|lia|lia|].
  - rw -app_assoc. simpl. by rw Z.sub_add_distr.
  - destruct (Z.min_spec (share coef o) (V - v)) as [[_ E1]|[_ E1]]; unfold q; rw E1; [lia|].
    rw Z.sub_add_distr Z.sub_diag. apply sumZ_nonneg. intros y Hy.
    pose proof (share_bounds coef y). destruct (HE' y Hy). lia.
Qed.

(** The other side is filled completely. *)
Lemma fill_loop_full maxV v E R fills :
  (∀ o, o ∈ E → stop o = false ∧ 0 < o_Quantity o) → (∀ o, o ∈ R → stop o = true) →
  0 ≤ v → v + volume E ≤ Precision → (v + volume E) * Precision ≤ maxV →
  fill_loop cs stop false coef maxV (E ++ R) fills (v * Precision) =
    Ok (fills ++ (fill_at (cs_Price cs) <$> ((λ o, (o, o_Quantity o)) <$> E)), (v + volume E) * Precision).
Proof.
  intros HE HR. revert v fills. induction E as [|o E IH]; intros v fills Hv HV Hm; simpl.
  { rw app_nil_r Z.add_0_r. by apply fill_loop_stop. }
  assert (∀ o, o ∈ E → stop o = false ∧ 0 < o_Quantity o) as HE' by (intros y Hy; apply HE; by right).
  destruct (HE o ltac:(by left)) as [-> Hq]. simpl.
  assert (0 ≤ volume E) by (apply sumZ_nonneg; intros y Hy; destruct (HE' y Hy); lia).
  unfold volume in HV, Hm. simpl in HV, Hm. fold (volume E) in HV, Hm. assert (Precision < maxUint) by done.
  assert (v * Precision < (v + (o_Quantity o + volume E)) * Precision) by (apply Z.mul_lt_mono_pos_r; [done|lia]).
  destruct (Z.eqb_spec (v * Precision) maxV) as [|_]; [lia|]. simpl.
  destruct (Z.eqb_spec (o_Quantity o) 0) as [|_]; [lia|].
  rw NewDecFromBigInt_eq Dec_Add_units; [|lia..]. simpl. rw fill_of_ok; [|lia..]. simpl.
  rw (IH HE' (v + o_Quantity o)); [|lia|lia|by rw -Z.add_assoc].
  rw -app_assoc. simpl. unfold volume. simpl. by rw Z.add_assoc.
Qed.
End loops.

(** ** One side of the result

    [E] are the orders of the side that the clearance price reaches, by priority. *)
Definition full (E : list Order) : list (Order * Z) := (λ o, (o, o_Quantity o)) <$> E.

Record side_fill (E : list Order) (V : Z) (xs : list (Order * Z)) : Prop := {
  sf_prefix : xs.*1 `prefix_of` E;
  sf_range x : x ∈ xs → 0 < x.2 ≤ o_Quantity x.1;
  sf_total : sumZ snd xs = V;
  sf_full : V = volume E → xs = full E;
}.

Lemma side_fill_full E : (∀ o, o ∈ E → 0 < o_Quantity o) → side_fill E (volume E) (full E).
Proof.
  intros HE. unfold full. split.
  - by rw -list_fmap_compose list_fmap_id.
  - intros x (o & -> & Ho)%list_elem_of_fmap. simpl. specialize (HE o Ho). lia.
  - clear HE. unfold volume. induction E as [|o E IH]; simpl; [done|]. by rw IH.
  - done.
Qed.

(** An allocation that uses up the whole side fills every order. *)
Lemma alloc_full coef E :
  0 < coef ≤ Precision → (∀ o, o ∈ E → 0 < o_Quantity o) → volume E ≤ sumZ (share coef) E →
  alloc coef (volume E) E = full E.
Proof.
  intros Hc HE Hv.
  assert (∀ o, o ∈ E → share coef o = o_Quantity o) as Heq.
  { clear -Hc HE Hv. induction E as [|o E IH]; [by intros ? ?%elem_of_nil|]. unfold volume in Hv. simpl in Hv.
    assert (∀ x, x ∈ E → share coef x ≤ o_Quantity x) as Hle.
    { intros x Hx. apply share_bounds; [apply HE; by right|done]. }
    pose proof (share_bounds coef o (HE o ltac:(by left)) Hc). pose proof (sumZ_le _ _ E Hle).
    intros x [->|Hx]%elem_of_cons; [lia|]. apply IH; [intros; apply HE; by right|unfold volume; lia|done]. }
  clear Hv. induction E as [|o E IH]; [done|].
  assert (0 ≤ volume E) by (apply sumZ_nonneg; intros y Hy; pose proof (HE y ltac:(by right)); lia).
  pose proof (HE o ltac:(by left)). assert (volume (o :: E) = o_Quantity o + volume E) as EV by done.
  rw EV. cbn [alloc]. destruct (Z.eqb_spec (o_Quantity o + volume E) 0); [lia|].
  rw (Heq o); [|by left]. rw Z.min_l; [|lia]. rw Z.add_simpl_l IH; [done|..]; intros y Hy; [apply HE|apply Heq]; by right.
Qed.

Lemma side_fill_alloc coef V E :
  0 < coef ≤ Precision → (∀ o, o ∈ E → 0 < o_Quantity o) → 0 ≤ V ≤ sumZ (share coef) E →
  side_fill E V (alloc coef V E).
Proof.
  intros Hc HE HV. split.
  - apply alloc_orders.
  - intros x Hx. by apply (alloc_range coef Hc V E HE (proj1 HV) x).
  - by apply (alloc_total coef Hc).
  - intros ->. apply alloc_full; [done|done|lia].
Qed.

(** ** The whole run *)

(** The sorted book and the orders a price reaches. *)
Definition sorted_bids `{GoSort} (m : Matcher) : list Order := sort_Sort ByPriceAscIDDesc_Less (m_bid m).
Definition sorted_asks `{GoSort} (m : Matcher) : list Order := sort_Sort ByPriceAscIDAsc_Less (m_ask m).
Definition reached_bids `{GoSort} (m : Matcher) (p : Z) : list Order :=
  filter (λ o, (o_Price o <? p) = false) (reverse (sorted_bids m)).
Definition reached_asks `{GoSort} (m : Matcher) (p : Z) : list Order :=
  filter (λ o, (p <? o_Price o) = false) (sorted_asks m).

Section run.
Context `{STL : SdkTypesLaws} `{GSL : GoSortLaws}.

Lemma sorted_bids_prices m : StronglySorted (λ a b, o_Price a ≤ o_Price b) (sorted_bids m).
Proof.
  eapply sorted_impl; [|apply sort_Sort_sorted, ByPriceAscIDDesc_weak_order].
  intros x y. unfold ByPriceAscIDDesc_Less. simpl. case_match; lia.
Qed.

Lemma sorted_asks_prices m : StronglySorted (λ a b, o_Price a ≤ o_Price b) (sorted_asks m).
Proof.
  eapply sorted_impl; [|apply sort_Sort_sorted, ByPriceAscIDAsc_weak_order].
  intros x y. unfold ByPriceAscIDAsc_Less. simpl. case_match; lia.
Qed.

Lemma sorted_bids_perm m : sorted_bids m ≡ₚ m_bid m.
Proof. apply sort_Sort_perm. Qed.
Lemma sorted_asks_perm m : sorted_asks m ≡ₚ m_ask m.
Proof. apply sort_Sort_perm. Qed.

Lemma reached_bids_volume m p : volume (reached_bids m p) = demand (m_bid m) p.
Proof.
  unfold reached_bids. rw volume_filter. unfold demand. rw sumZ_reverse (sumZ_perm _ _ _ (sorted_bids_perm m)).
  apply sumZ_ext. intros o _. case_decide; case_match; lia.
Qed.

Lemma reached_asks_volume m p : volume (reached_asks m p) = supply (m_ask m) p.
Proof.
  unfold reached_asks. rw volume_filter. unfold supply. rw (sumZ_perm _ _ _ (sorted_asks_perm m)).
  apply sumZ_ext. intros o _. case_decide; case_match; lia.
Qed.

Lemma reached_bids_elem m p o : o ∈ reached_bids m p ↔ o ∈ m_bid m ∧ p ≤ o_Price o.
Proof.
  unfold reached_bids. rw list_elem_of_filter elem_of_reverse sorted_bids_perm Z.ltb_ge. naive_solver.
Qed.

Lemma reached_asks_elem m p o : o ∈ reached_asks m p ↔ o ∈ m_ask m ∧ o_Price o ≤ p.
Proof. unfold reached_asks. rw list_elem_of_filter sorted_asks_perm Z.ltb_ge. naive_solver. Qed.

Lemma bids_split m p :
  reverse (sorted_bids m) = reached_bids m p ++ filter (λ o, (o_Price o <? p) = true) (reverse (sorted_bids m)).
Proof.
  apply (filter_sorted_split (λ a b, o_Price b ≤ o_Price a)).
  - eapply sorted_impl; [|apply sorted_reverse, sorted_bids_prices]. done.
  - intros x y. lia.
Qed.

Lemma asks_split m p :
  sorted_asks m = reached_asks m p ++ filter (λ o, (p <? o_Price o) = true) (sorted_asks m).
Proof.
  apply (filter_sorted_split (λ a b, o_Price a ≤ o_Price b)); [apply sorted_asks_prices|]. intros x y. lia.
Qed.

Definition matcher_ok (m : Matcher) : Prop := book_ok (m_ask m) (m_bid m).
Definition matcher_crossed (m : Matcher) : Prop := crossed (m_ask m) (m_bid m).

Lemma book_side_ok_perm l l' : l ≡ₚ l' → book_side_ok l → book_side_ok l'.
Proof.
  intros Hp [H1 H2]. split; [intros o; rw -Hp; apply H1|]. unfold volume in *. by rw -Hp.
Qed.

Lemma supply_perm l l' p : l ≡ₚ l' → supply l p = supply l' p.
Proof. intros H. unfold supply. by rw H. Qed.
Lemma demand_perm l l' p : l ≡ₚ l' → demand l p = demand l' p.
Proof. intros H. unfold demand. by rw H. Qed.

Lemma matcher_ok_sorted m : matcher_ok m → book_ok (sorted_asks m) (sorted_bids m).
Proof.
  intros (HA & HB & Hpa & Hpb & Hv). split_and!.
  - by apply (book_side_ok_perm (m_ask m)); [rw sorted_asks_perm|].
  - by apply (book_side_ok_perm (m_bid m)); [rw sorted_bids_perm|].
  - intros o. rw sorted_asks_perm. apply Hpa.
  - intros o. rw sorted_bids_perm. apply Hpb.
  - unfold volume in *. rw (sumZ_perm _ _ _ (sorted_asks_perm m)). by rw (sumZ_perm _ _ _ (sorted_bids_perm m)).
Qed.

(** The aggregates of the sorted book. *)
Lemma Match_aggs m :
  matcher_ok m → ∃ askAggs bidAggs,
    NewAskOrderAggregates (sorted_asks m) = Ok askAggs ∧ NewBidOrderAggregates (sorted_bids m) = Ok bidAggs ∧
    aggs_of (supply (sorted_asks m)) (sorted_asks m) askAggs ∧ aggs_of (demand (sorted_bids m)) (sorted_bids m) bidAggs.
Proof.
  intros (HA & HB & _)%matcher_ok_sorted.
  destruct (NewAskOrderAggregates_spec _ HA (sorted_asks_prices m)) as (askAggs & ? & ?).
  destruct (NewBidOrderAggregates_spec _ HB (sorted_bids_prices m)) as (bidAggs & ? & ?). eauto 10.
Qed.

Lemma bid_fills_scaled m cs V :
  let E := reached_bids m (cs_Price cs) in
  (∀ o, o ∈ m_bid m → 0 < o_Quantity o) → 0 < cs_ProRata cs ≤ Precision → cs_MaxBidVolume cs = V * Precision →
  0 ≤ V ≤ sumZ (share (cs_ProRata cs)) E → V + volume E ≤ Precision →
  getBidOrderFills (sorted_bids m) cs = Ok (fill_at (cs_Price cs) <$> alloc (cs_ProRata cs) V E, V * Precision).
Proof.
  intros E HQ Hc HM HV Hv. unfold getBidOrderFills. rw fill_bids_loop HM (bids_split m (cs_Price cs)) -/E.
  unfold OneDec, ZeroDec. rw (proj2 (Z.ltb_ge _ _)); [|lia]. simpl.
  rw -{1}(Z.mul_0_l Precision) (fill_loop_scaled cs _ _ V 0 E); [by rw Z.sub_0_r| | |done|lia|done|lia].
  - intros o [Ho Hp]%reached_bids_elem. split; [lia|auto].
  - by intros o [? _]%list_elem_of_filter.
Qed.

Lemma ask_fills_scaled m cs V :
  let E := reached_asks m (cs_Price cs) in
  (∀ o, o ∈ m_ask m → 0 < o_Quantity o) → Precision < cs_ProRata cs → 0 < cs_ProRataInvert cs ≤ Precision →
  cs_MaxAskVolume cs = V * Precision →
  0 ≤ V ≤ sumZ (share (cs_ProRataInvert cs)) E → V + volume E ≤ Precision →
  getAskOrderFills (sorted_asks m) cs = Ok (fill_at (cs_Price cs) <$> alloc (cs_ProRataInvert cs) V E, V * Precision).
Proof.
  intros E HQ Hgt Hc HM HV Hv. unfold getAskOrderFills. rw fill_asks_loop HM (asks_split m (cs_Price cs)) -/E.
  unfold OneDec, ZeroDec. rw (proj2 (Z.ltb_lt _ _)); [|lia].
  rw -{1}(Z.mul_0_l Precision) (fill_loop_scaled cs _ _ V 0 E); [by rw Z.sub_0_r| | |done|lia|done|lia].
  - intros o [Ho Hp]%reached_asks_elem. split; [lia|auto].
  - by intros o [? _]%list_elem_of_filter.
Qed.

Lemma bid_fills_full m cs :
  let E := reached_bids m (cs_Price cs) in
  (∀ o, o ∈ m_bid m → 0 < o_Quantity o) → Precision < cs_ProRata cs →
  volume E * Precision ≤ cs_MaxBidVolume cs → volume E ≤ Precision →
  getBidOrderFills (sorted_bids m) cs = Ok (fill_at (cs_Price cs) <$> full E, volume E * Precision).
Proof.
  intros E HQ Hgt HM Hv. unfold getBidOrderFills. rw fill_bids_loop (bids_split m (cs_Price cs)) -/E.
  unfold OneDec, ZeroDec. rw (proj2 (Z.ltb_lt _ _)); [|lia]. simpl.
  rw -{1}(Z.mul_0_l Precision) (fill_loop_full cs _ _ _ 0 E); [done| | |done|done|done].
  - intros o [Ho Hp]%reached_bids_elem. split; [lia|auto].
  - by intros o [? _]%list_elem_of_filter.
Qed.

Lemma ask_fills_full m cs :
  let E := reached_asks m (cs_Price cs) in
  (∀ o, o ∈ m_ask m → 0 < o_Quantity o) → cs_ProRata cs ≤ Precision →
  volume E * Precision ≤ cs_MaxAskVolume cs → volume E ≤ Precision →
  getAskOrderFills (sorted_asks m) cs = Ok (fill_at (cs_Price cs) <$> full E, volume E * Precision).
Proof.
  intros E HQ Hgt HM Hv. unfold getAskOrderFills. rw fill_asks_loop (asks_split m (cs_Price cs)) -/E.
  unfold OneDec, ZeroDec. rw (proj2 (Z.ltb_ge _ _)); [|lia].
  rw -{1}(Z.mul_0_l Precision) (fill_loop_full cs _ _ _ 0 E); [done| | |done|done|done].
  - intros o [Ho Hp]%reached_asks_elem. split; [lia|auto].
  - by intros o [? _]%list_elem_of_filter.
Qed.

(** Both loops give out the smaller of the supply and the demand. *)
Lemma fills_ok m cs :
  let p := cs_Price cs in let S := supply (m_ask m) p in let D := demand (m_bid m) p in
  matcher_ok m → 0 < S → 0 < D → clears S D cs →
  ∃ xb xa,
    getBidOrderFills (sorted_bids m) cs = Ok (fill_at p <$> xb, Z.min S D * Precision) ∧
    getAskOrderFills (sorted_asks m) cs = Ok (fill_at p <$> xa, Z.min S D * Precision) ∧
    side_fill (reached_bids m p) (Z.min S D) xb ∧ side_fill (reached_asks m p) (Z.min S D) xa.
Proof.
  intros p S D (HA & HB & _ & _ & Hvol) HS HD Hcl.
  assert (∀ o, o ∈ m_bid m → 0 < o_Quantity o) as HQb by (intros o Ho; apply HB, Ho).
  assert (∀ o, o ∈ m_ask m → 0 < o_Quantity o) as HQa by (intros o Ho; apply HA, Ho).
  assert (∀ o, o ∈ reached_bids m p → 0 < o_Quantity o) as HEb by (intros o [? _]%reached_bids_elem; auto).
  assert (∀ o, o ∈ reached_asks m p → 0 < o_Quantity o) as HEa by (intros o [? _]%reached_asks_elem; auto).
  pose proof (reached_bids_volume m p) as EB. pose proof (reached_asks_volume m p) as EA.
  fold D in EB. fold S in EA.
  assert (2 * (S + D) ≤ Precision) as HSD.
  { pose proof (supply_le_volume (m_ask m) p HA). pose proof (demand_le_volume (m_bid m) p HB). lia. }
  destruct Hcl as [[(Hr & Hle & HMb & HMa & Hc)|(Hr & Hlt & HMa & HMb & Hi & Hc)] _].
  - rw Z.min_l; [|done].
    assert (S ≤ sumZ (share (cs_ProRata cs)) (reached_bids m p)) as Hsh.
    { apply share_total; [done|lia|]. rw EB. lia. }
    exists (alloc (cs_ProRata cs) S (reached_bids m p)), (full (reached_asks m p)). split_and!.
    + apply bid_fills_scaled; [done|done|done|split; [lia|done]|]. fold p. rw EB. lia.
    + rw -EA. apply ask_fills_full; [done|lia|by rw -/p EA|rw -/p EA; lia].
    + apply side_fill_alloc; [done|done|lia].
    + rw -EA. by apply side_fill_full.
  - rw Z.min_r; [|lia].
    assert (D ≤ sumZ (share (cs_ProRataInvert cs)) (reached_asks m p)) as Hsh.
    { apply share_total; [done|lia|]. rw EA. lia. }
    exists (full (reached_bids m p)), (alloc (cs_ProRataInvert cs) D (reached_asks m p)). split_and!.
    + rw -EB. apply bid_fills_full; [done|lia|by rw -/p EB|rw -/p EB; lia].
    + apply ask_fills_scaled; [done|done|done|done|split; [lia|done]|]. fold p. rw EA. lia.
    + rw -EB. by apply side_fill_full.
    + apply side_fill_alloc; [done|done|lia].
Qed.

(** A crossed book is matched: one clearance price, the same volume on both
    sides, and each side's fills a prefix of its priority order. *)
Lemma Match_run m :
  matcher_ok m → matcher_crossed m →
  ∃ cs xb xa, let p := cs_Price cs in let V := Z.min (supply (m_ask m) p) (demand (m_bid m) p) in
    Match m = Ok (MkMatcherResult (m_marketID m) (Z.of_nat (length (m_bid m))) (Z.of_nat (length (m_ask m))) cs
      (V * Precision) (V * Precision) ((fill_at p <$> xb) ++ (fill_at p <$> xa))) ∧
    0 < p ∧ 0 < V ∧ clears (supply (m_ask m) p) (demand (m_bid m) p) cs ∧
    side_fill (reached_bids m p) V xb ∧ side_fill (reached_asks m p) V xa.
Proof.
  intros Hok Hx. pose proof (matcher_ok_sorted m Hok) as Hoks.
  destruct (Match_aggs m Hok) as (askAggs & bidAggs & EA & EB & HA & HB).
  assert (crossed (sorted_asks m) (sorted_bids m)) as Hxs.
  { destruct Hx as (a & b & Ha & Hb & Hab). exists a, b. by rw sorted_asks_perm sorted_bids_perm. }
  pose proof Hoks as (HokA & HokB & _).
  destruct (NewSDCurves_crossed _ _ askAggs bidAggs HokA HokB HA HB Hxs) as (c & Ec & Hc & Hne).
  destruct (GetClearanceState_clears _ _ c Hoks Hxs Hc Hne) as (cs & Ecs & Hp & HS & HD & Hcl).
  rw (supply_perm _ _ _ (sorted_asks_perm m)) in HS Hcl. rw (demand_perm _ _ _ (sorted_bids_perm m)) in HD Hcl.
  destruct (fills_ok m cs Hok HS HD Hcl) as (xb & xa & Eb & Ea & Hb & Ha).
  exists cs, xb, xa. simpl. split_and!; [|done|lia|done|done|done].
  unfold Match. fold (sorted_bids m) (sorted_asks m). rw EB. simpl. rw EA. simpl. rw Ec. simpl. rw Ecs. simpl.
  rw Eb. simpl. rw Ea. simpl. by rw (Permutation_length (sorted_bids_perm m)) (Permutation_length (sorted_asks_perm m)).
Qed.

(** Otherwise there is an error, which is logged. *)
Lemma Match_uncrossed m : matcher_ok m → ¬ matcher_crossed m → ∃ e, Match m = Err e ∧ e ≠ ErrInternal.
Proof.
  intros Hok Hx. pose proof (matcher_ok_sorted m Hok) as Hoks.
  destruct (Match_aggs m Hok) as (askAggs & bidAggs & EA & EB & HA & HB).
  pose proof Hoks as (HokA & HokB & _).
  destruct (NewSDCurves_uncrossed _ _ askAggs bidAggs HokA HokB HA HB) as (e & Ee & Hne).
  { intros (a & b & Ha & Hb & Hab). apply Hx. exists a, b. by rw -sorted_asks_perm -sorted_bids_perm. }
  exists e. split; [|done].
  unfold Match. fold (sorted_bids m) (sorted_asks m). rw EB. simpl. rw EA. simpl. by rw Ee.
Qed.
End run.
