(* ===== verification/MatcherTheorems.v ===== *)
(** * What the matcher guarantees

    Consequences of [MatcherFacts] in terms of the result's fills, the matching of
    a whole pool, and the behaviour outside the supported volumes. *)
From S2P Require Import Prelude Bytes Sdk SdkRef SdkFacts DnTypes Currency Markets Orders Aggregates Curves CurvesFacts Matcher MatcherFacts.
Local Open Scope Z_scope.

Section lemmas.
Context `{STL : SdkTypesLaws} `{GSL : GoSortLaws}.

Lemma fills_sum p xs : sumZ f_QuantityFilled (fill_at p <$> xs) = sumZ snd xs.
Proof. induction xs as [|x xs IH]; simpl; [done|]. by rw IH. Qed.

Lemma side_fill_elem E V xs p f :
  side_fill E V xs → f ∈ fill_at p <$> xs →
  f_Order f ∈ E ∧ f_ClearancePrice f = p ∧ 0 < f_QuantityFilled f ≤ o_Quantity (f_Order f) ∧
  f_QuantityFilled f + f_QuantityUnfilled f = o_Quantity (f_Order f).
Proof.
  intros [Hpre Hr _ _] (x & -> & Hx)%list_elem_of_fmap. simpl. split_and!; [|done|apply Hr, Hx|apply Hr, Hx|lia].
  destruct Hpre as [l ->]. apply elem_of_app. left. by apply list_elem_of_fmap_2.
Qed.

Lemma side_fill_complete E p o :
  o ∈ E → ∃ f, f ∈ fill_at p <$> full E ∧ f_Order f = o ∧ f_QuantityUnfilled f = 0.
Proof.
  intros Ho. exists (fill_at p (o, o_Quantity o)). split_and!; [|done|simpl; lia].
  apply list_elem_of_fmap_2. by apply (list_elem_of_fmap_2 (λ o, (o, o_Quantity o))).
Qed.

(** Priority: what comes before a filled order in a sorted list is filled. *)
Lemma prefix_priority {A} (R : A → A → Prop) (l E : list A) x y :
  l `prefix_of` E → StronglySorted R E → y ∈ l → x ∈ E → ¬ R y x → x ∈ l.
Proof.
  intros [l' ->] Hs Hy [Hx|Hx]%elem_of_app Hn; [done|]. exfalso. apply Hn.
  exact (StronglySorted_app_1_elem_of _ _ _ y x Hs Hy Hx).
Qed.

Definition bid_le (x y : Order) : Prop := ByPriceAscIDDesc_Less x y = false.
Definition ask_le (x y : Order) : Prop := ByPriceAscIDAsc_Less y x = false.

Lemma filter_sorted {A} (R : A → A → Prop) (P : A → Prop) `{∀ x, Decision (P x)} l :
  StronglySorted R l → StronglySorted R (filter P l).
Proof.
  induction 1 as [|x l _ IH Hx]; [constructor|]. rw filter_cons. case_decide; [|done].
  constructor; [done|]. rw Forall_forall in Hx. rw Forall_forall. intros y [_ Hy]%list_elem_of_filter. auto.
Qed.

Lemma reached_bids_sorted m p : StronglySorted bid_le (reached_bids m p).
Proof.
  apply filter_sorted. eapply sorted_impl; [|apply sorted_reverse, sort_Sort_sorted, ByPriceAscIDDesc_weak_order]. done.
Qed.

Lemma reached_asks_sorted m p : StronglySorted ask_le (reached_asks m p).
Proof. apply filter_sorted, sort_Sort_sorted, ByPriceAscIDAsc_weak_order. Qed.

(** [Match] in terms of its result. *)
Lemma Match_result m r :
  matcher_ok m → matcher_crossed m → Match m = Ok r →
  let p := cs_Price (mr_ClearanceState r) in let V := Z.min (supply (m_ask m) p) (demand (m_bid m) p) in
  ∃ xb xa, mr_OrderFills r = (fill_at p <$> xb) ++ (fill_at p <$> xa) ∧ 0 < p ∧ 0 < V ∧
    side_fill (reached_bids m p) V xb ∧ side_fill (reached_asks m p) V xa.
Proof.
  intros Hok Hx Hm. destruct (Match_run m Hok Hx) as (cs & xb & xa & Em & Hp & HV & _ & Hb & Ha).
  rw Em in Hm. injection Hm as <-. simpl. by exists xb, xa.
Qed.
End lemmas.

(** C1: a crossed book is matched, and the two sides match the same volume: what
    the asks offer at the clearance price or what the bids want, whichever is less. *)
Theorem Match_conserves_volume `{STL : SdkTypesLaws} `{GSL : GoSortLaws} m :
  matcher_ok m → matcher_crossed m →
  ∃ r bidFills askFills, Match m = Ok r ∧ mr_OrderFills r = bidFills ++ askFills ∧
    (∀ f, f ∈ bidFills → f_Order f ∈ m_bid m) ∧ (∀ f, f ∈ askFills → f_Order f ∈ m_ask m) ∧
    let p := cs_Price (mr_ClearanceState r) in let V := Z.min (supply (m_ask m) p) (demand (m_bid m) p) in
    0 < V ∧ sumZ f_QuantityFilled bidFills = V ∧ sumZ f_QuantityFilled askFills = V ∧
    mr_MatchedBidVolume r = NewDecFromBigInt V ∧ mr_MatchedAskVolume r = NewDecFromBigInt V.
Proof.
  intros Hok Hx. destruct (Match_run m Hok Hx) as (cs & xb & xa & Em & Hp & HV & _ & Hb & Ha).
  eexists _, (fill_at (cs_Price cs) <$> xb), (fill_at (cs_Price cs) <$> xa). split; [exact Em|].
  simpl. rw !NewDecFromBigInt_eq !fills_sum. split_and!; [done| | |done|apply Hb|apply Ha|done|done].
  - intros f Hf. by apply (side_fill_elem _ _ _ _ _ Hb) in Hf as [[? _]%reached_bids_elem _].
  - intros f Hf. by apply (side_fill_elem _ _ _ _ _ Ha) in Hf as [[? _]%reached_asks_elem _].
Qed.

(** C2: every fill is of an order of the book that the clearance price satisfies (at
    most a bid's price, at least an ask's), fills a positive part of it, and
    leaves exactly the rest. *)
Theorem Match_fills_sound `{STL : SdkTypesLaws} `{GSL : GoSortLaws} m r f :
  matcher_ok m → matcher_crossed m → Match m = Ok r → f ∈ mr_OrderFills r →
  let p := cs_Price (mr_ClearanceState r) in
  ((f_Order f ∈ m_bid m ∧ p ≤ o_Price (f_Order f)) ∨ (f_Order f ∈ m_ask m ∧ o_Price (f_Order f) ≤ p)) ∧
  f_ClearancePrice f = p ∧ 0 < f_QuantityFilled f ≤ o_Quantity (f_Order f) ∧
  f_QuantityFilled f + f_QuantityUnfilled f = o_Quantity (f_Order f).
Proof.
  intros Hok Hx Hm Hf. destruct (Match_result m r Hok Hx Hm) as (xb & xa & E & _ & _ & Hb & Ha).
  rw E in Hf. apply elem_of_app in Hf as [Hf|Hf].
  - apply (side_fill_elem _ _ _ _ _ Hb) in Hf as [Ho%reached_bids_elem Hf]. auto.
  - apply (side_fill_elem _ _ _ _ _ Ha) in Hf as [Ho%reached_asks_elem Hf]. auto.
Qed.

(** C3: price and then age (the lower ID) decide who is filled: a bid that comes
    before a filled bid is filled too, and so is an ask before a filled ask. *)
Theorem Match_priority `{STL : SdkTypesLaws} `{GSL : GoSortLaws} m r :
  matcher_ok m → matcher_crossed m → Match m = Ok r →
  ∃ bidFills askFills, mr_OrderFills r = bidFills ++ askFills ∧
    (∀ f, f ∈ bidFills → f_Order f ∈ m_bid m) ∧ (∀ f, f ∈ askFills → f_Order f ∈ m_ask m) ∧
    (∀ x f, x ∈ m_bid m → f ∈ bidFills →
       o_Price (f_Order f) < o_Price x ∨ (o_Price x = o_Price (f_Order f) ∧ o_ID x < o_ID (f_Order f)) →
       ∃ g, g ∈ bidFills ∧ f_Order g = x) ∧
    (∀ x f, x ∈ m_ask m → f ∈ askFills →
       o_Price x < o_Price (f_Order f) ∨ (o_Price x = o_Price (f_Order f) ∧ o_ID x < o_ID (f_Order f)) →
       ∃ g, g ∈ askFills ∧ f_Order g = x).
Proof.
  intros Hok Hx Hm. destruct (Match_result m r Hok Hx Hm) as (xb & xa & E & _ & _ & Hb & Ha).
  set (p := cs_Price (mr_ClearanceState r)) in *. eexists _, _. split; [exact E|].
  split; [by intros f Hf; apply (side_fill_elem _ _ _ _ _ Hb) in Hf as [[? _]%reached_bids_elem _]|].
  split; [by intros f Hf; apply (side_fill_elem _ _ _ _ _ Ha) in Hf as [[? _]%reached_asks_elem _]|].
  split.
  - intros x f Hxm (y & -> & Hy)%list_elem_of_fmap Hlt. simpl in Hlt.
    pose proof (list_elem_of_fmap_2 fst _ _ Hy) as Hy1. destruct Hb as [Hpre _ _ _].
    assert (y.1 ∈ reached_bids m p) as Hyr%reached_bids_elem by (destruct Hpre as [l ->]; set_solver).
    assert (x ∈ xb.*1) as (z & -> & Hz)%list_elem_of_fmap.
    { apply (prefix_priority bid_le _ (reached_bids m p) x y.1 Hpre); [apply reached_bids_sorted|done| |].
      - apply reached_bids_elem. split; [done|lia].
      - unfold bid_le, ByPriceAscIDDesc_Less, ID_GT. case_match; lia. }
    exists (fill_at p z). split; [by apply list_elem_of_fmap_2|done].
  - intros x f Hxm (y & -> & Hy)%list_elem_of_fmap Hlt. simpl in Hlt.
    pose proof (list_elem_of_fmap_2 fst _ _ Hy) as Hy1. destruct Ha as [Hpre _ _ _].
    assert (y.1 ∈ reached_asks m p) as Hyr%reached_asks_elem by (destruct Hpre as [l ->]; set_solver).
    assert (x ∈ xa.*1) as (z & -> & Hz)%list_elem_of_fmap.
    { apply (prefix_priority ask_le _ (reached_asks m p) x y.1 Hpre); [apply reached_asks_sorted|done| |].
      - apply reached_asks_elem. split; [done|lia].
      - unfold ask_le, ByPriceAscIDAsc_Less, ID_LT. case_match; lia. }
    exists (fill_at p z). split; [by apply list_elem_of_fmap_2|done].
Qed.

(** C4: the side that is short at the clearance price is filled completely. *)
Theorem Match_fills_short_side `{STL : SdkTypesLaws} `{GSL : GoSortLaws} m r o :
  matcher_ok m → matcher_crossed m → Match m = Ok r →
  let p := cs_Price (mr_ClearanceState r) in
  (supply (m_ask m) p ≤ demand (m_bid m) p ∧ o ∈ m_ask m ∧ o_Price o ≤ p) ∨
  (demand (m_bid m) p ≤ supply (m_ask m) p ∧ o ∈ m_bid m ∧ p ≤ o_Price o) →
  ∃ f, f ∈ mr_OrderFills r ∧ f_Order f = o ∧ f_QuantityUnfilled f = 0.
Proof.
  intros Hok Hx Hm p Hside. destruct (Match_result m r Hok Hx Hm) as (xb & xa & -> & _ & _ & Hb & Ha). fold p in Hb, Ha |- *.
  destruct Hside as [(Hle & Ho & Hp)|(Hle & Ho & Hp)].
  - rw (sf_full _ _ _ Ha); [|rw reached_asks_volume; lia].
    destruct (side_fill_complete (reached_asks m p) p o) as (f & Hf & ?); [by apply reached_asks_elem|].
    exists f. split; [apply elem_of_app; by right|done].
  - rw (sf_full _ _ _ Hb); [|rw reached_bids_volume; lia].
    destruct (side_fill_complete (reached_bids m p) p o) as (f & Hf & ?); [by apply reached_bids_elem|].
    exists f. split; [apply elem_of_app; by left|done].
Qed.

(** The results of a pool of supported books. *)
Lemma Process_results `{STL : SdkTypesLaws} `{GSL : GoSortLaws} matchers :
  (∀ m, m ∈ matchers → matcher_ok m) →
  ∃ results, Process matchers = Ok results ∧
    Forall2 (λ m r, matcher_crossed m ∧ Match m = Ok r)
      (filter (λ m, match Match m with Ok _ => true | _ => false end = true) matchers) results ∧
    (∀ m, m ∈ matchers → matcher_crossed m → ∃ r, r ∈ results ∧ Match m = Ok r).
Proof.
  intros Hok. unfold Process.
  set (crossed_of := filter (λ m, match Match m with Ok _ => true | _ => false end = true)).
  destruct (foldM_inv (λ pre rs, Forall2 (λ m r, matcher_crossed m ∧ Match m = Ok r) (crossed_of pre) rs)
    (λ results matcher, match Match matcher with
       | Ok result => Ok (results ++ [result])
       | Err e => if bool_decide (e = ErrInternal) then Panic else Ok results
       | Panic => Panic end) matchers) with (acc0 := @nil MatcherResult) as (rs & Hrs & HF).
  - intros pre x acc [post E] HP. assert (matcher_ok x) as Hx by (apply Hok; rw E; set_solver).
    unfold crossed_of in *. rw filter_app.
    assert (matcher_crossed x ∨ ¬ matcher_crossed x) as [Hc|Hc] by apply crossed_dec_or.
    + destruct (Match_run x Hx Hc) as (cs & xb & xa & Em & _). rw filter_cons_True; [|by rw Em]. rw Em.
      eexists. split; [done|]. apply Forall2_app; [done|]. by repeat constructor.
    + destruct (Match_uncrossed x Hx Hc) as (e & Em & He). rw filter_cons_False; [|by rw Em].
      rw Em bool_decide_false; [|done].
      eexists. split; [done|]. by rw filter_nil app_nil_r.
  - constructor.
  - exists rs. split_and!; [done|done|]. intros m Hm Hc. destruct (Match_run m (Hok m Hm) Hc) as (cs & xb & xa & Em & _).
    assert (m ∈ crossed_of matchers) as Hin by (apply list_elem_of_filter; by rw Em).
    apply list_elem_of_lookup in Hin as (i & Hi). destruct (Forall2_lookup_l _ _ _ _ _ HF Hi) as (r & Hr & _ & Hmr).
    exists r. split; [by eapply list_elem_of_lookup_2|done].
Qed.

(** C5: matching a pool never panics: the results are those of the crossed books,
    in the order the pool is walked, and every other book is skipped. *)
Theorem Process_total `{STL : SdkTypesLaws} `{GSL : GoSortLaws} matchers :
  (∀ m, m ∈ matchers → matcher_ok m) →
  ∃ results, Process matchers = Ok results ∧
    Forall2 (λ m r, matcher_crossed m ∧ Match m = Ok r)
      (filter (λ m, match Match m with Ok _ => true | _ => false end = true) matchers) results ∧
    (∀ m, m ∈ matchers → matcher_crossed m → ∃ r, r ∈ results ∧ Match m = Ok r).
Proof. apply Process_results. Qed.

(** ** The curves and the clearance point *)

(** From the sorted orders of a crossed book the curves hold, at exactly the
    book's prices and in ascending order, the quantity asked at that price or
    below and the quantity bid at it or above. *)
Theorem NewSDCurves_correct `{STL : SdkTypesLaws} asks bids :
  book_side_ok asks → book_side_ok bids → crossed asks bids →
  StronglySorted (λ a b, o_Price a ≤ o_Price b) asks → StronglySorted (λ a b, o_Price a ≤ o_Price b) bids →
  ∃ c, (askAggs ← NewAskOrderAggregates asks; bidAggs ← NewBidOrderAggregates bids; NewSDCurves askAggs bidAggs) = Ok c ∧
    StronglySorted Z.lt (sd_Price <$> c) ∧
    (∀ p, p ∈ sd_Price <$> c ↔ p ∈ o_Price <$> asks ∨ p ∈ o_Price <$> bids) ∧
    (∀ it, it ∈ c → sd_Supply it = supply asks (sd_Price it) ∧ sd_Demand it = demand bids (sd_Price it)).
Proof.
  intros HA HB Hx HsA HsB. destruct (NewAskOrderAggregates_spec _ HA HsA) as (askAggs & -> & Ha).
  destruct (NewBidOrderAggregates_spec _ HB HsB) as (bidAggs & -> & Hb). simpl.
  destruct (NewSDCurves_crossed asks bids askAggs bidAggs HA HB Ha Hb Hx) as (c & Ec & (Hs & Hq & Hp) & _).
  exists c. split_and!; [done| |done|done]. by apply sorted_fmap.
Qed.

(** The crossing point of a book's curves exists and is a market point: a
    price with positive supply and demand, which are the ones it reports.  The
    error branches of [GetClearanceState] are dead. *)
Theorem getCrossPoint_market_point `{STL : SdkTypesLaws} `{GSL : GoSortLaws} asks bids c :
  book_side_ok asks → book_side_ok bids → prices_bounded asks → prices_bounded bids →
  crossed asks bids → curve_of asks bids c →
  ∃ it, getCrossPoint c = Ok it ∧ 0 < sd_Price it ∧ 0 < sd_Supply it ∧ 0 < sd_Demand it ∧
    sd_Supply it = supply asks (sd_Price it) ∧ sd_Demand it = demand bids (sd_Price it).
Proof.
  intros HA HB Hpa Hpb Hx Hc. destruct (getCrossPoint_point asks bids c HA HB Hpa Hpb Hc Hx) as (it & Hit & Hp).
  by exists it.
Qed.

(** ** Outside the supported volumes *)

Lemma Dec_Quo_rounds_to_zero `{STL : SdkTypesLaws} S D :
  0 < S → 3 * S * Precision ≤ D → D < 2 ^ 200 → Dec_Quo (S * Precision) (D * Precision) = Ok 0.
Proof.
  intros HS HD HDm. assert (18 ≤ Precision) as HP by done.
  assert (0 < D * Precision) by nia.
  assert (S * Precision * Precision * 3 ≤ D * Precision) by nia.
  destruct (Dec_Quo_near (S * Precision) (D * Precision)) as (r & Hr & Hn).
  { lia. }
  { rw (Z.abs_eq (D * Precision)); [|lia]. rw Z.abs_eq; [|nia].
    apply (Z.lt_le_trans _ maxDec); [|apply Z.le_mul_diag_r; [done|lia]].
    apply (Z.le_lt_trans _ (2 ^ 200 * Precision)); [|done].
    apply (Z.le_trans _ (D * Precision)); [nia|]. apply Z.mul_le_mono_nonneg_r; lia. }
  rw Hr. f_equal. destruct (decide (r = 0)) as [|Hne]; [done|exfalso].
  rw (Z.abs_eq (D * Precision)) in Hn; [|lia]. set (x := D * Precision) in *.
  assert (x - S * Precision * Precision ≤ Z.abs (r * x - S * Precision * Precision)) by nia.
  nia.
Qed.

(** A demand over [3 * 10^18] times the supply rounds the pro rata coefficient
    to zero; inverting it panics, in the end blocker. *)
Theorem Match_panics_on_extreme_ratio `{STL : SdkTypesLaws} `{GSL : GoSortLaws} m a b :
  m_ask m = [a] → m_bid m = [b] → 0 < o_Price a ≤ o_Price b → o_Price b < 2 ^ 255 → 0 < o_Quantity a →
  3 * o_Quantity a * Precision ≤ o_Quantity b → o_Quantity b < 2 ^ 200 → Match m = Panic.
Proof.
  intros Ea Eb Hp Hpb Hqa Hr Hqb. pose proof Precision_gt_2.
  assert (2 ^ 200 < maxUint) by done. assert (o_Quantity a < o_Quantity b) by nia.
  assert (book_side_ok [a]) as HA by (split; [intros o ->%list_elem_of_singleton; lia|rw volume_one; lia]).
  assert (book_side_ok [b]) as HB by (split; [intros o ->%list_elem_of_singleton; lia|rw volume_one; lia]).
  assert (sort_Sort ByPriceAscIDDesc_Less [b] = [b]) as Esb by (apply Permutation_singleton_r, sort_Sort_perm).
  assert (sort_Sort ByPriceAscIDAsc_Less [a] = [a]) as Esa by (apply Permutation_singleton_r, sort_Sort_perm).
  assert (crossed [a] [b]) as Hx by (exists a, b; split_and!; [set_solver..|lia]).
  assert (NewBidOrderAggregates [b] = Ok [first_agg b]) as EB by done.
  assert (NewAskOrderAggregates [a] = Ok [first_agg a]) as EA by done.
  unfold Match. cbv zeta. rw Ea Eb Esa Esb EB outcome_bind_ok EA outcome_bind_ok.
  destruct (NewAskOrderAggregates_spec [a] HA) as (aa & [= <-] & Haa); [by repeat constructor|].
  destruct (NewBidOrderAggregates_spec [b] HB) as (ba & [= <-] & Hba); [by repeat constructor|].
  destruct (NewSDCurves_crossed [a] [b] _ _ HA HB Haa Hba Hx) as (c & Ec & Hc & Hne).
  rw Ec outcome_bind_ok.
  destruct (getCrossPoint_point [a] [b] c HA HB) as (it & Hit & Hpi & HS & HD & ES & ED).
  { intros o ->%list_elem_of_singleton. lia. } { intros o ->%list_elem_of_singleton. lia. } { done. } { done. }
  assert (sd_Supply it = o_Quantity a ∧ sd_Demand it = o_Quantity b) as [EqS EqD].
  { rw ES in HS |- *. rw ED in HD |- *. unfold supply, demand in *. simpl in *. do 2 case_match; lia. }
  unfold GetClearanceState. destruct (Nat.eqb_spec (length c) 0) as [E|_]; [by apply nil_length_inv in E|].
  rw Hit. simpl. rw !(proj2 (Z.eqb_neq _ 0)); [|lia..]. simpl.
  rw EqS EqD !NewDecFromBigInt_eq Dec_Quo_rounds_to_zero; [|lia..]. simpl. by rw Dec_Quo_zero.
Qed.

(** ** A small book, with the reference instances *)

Definition ex_btc : Currency := MkCurrency "btc" 8 1000 "".
Definition ex_xfi : Currency := MkCurrency "xfi" 18 1000 "".
Definition ex_market : MarketExtended := MkMarketExtended 0 ex_btc ex_xfi.
Definition ex_order (id : Z) (direction : string) (price quantity : Z) : Order :=
  MkOrder id "owner" ex_market direction price quantity (60 * 10 ^ 9) 0 0.

(** Supply 7 and demand 6 at the clearance price 10. *)
Definition ex_matcher : Matcher := MkMatcher 0
  [ex_order 2 orders.Bid 10 6; ex_order 3 orders.Bid 9 4; ex_order 4 orders.Bid 5 8]
  [ex_order 0 orders.Ask 8 4; ex_order 1 orders.Ask 9 3; ex_order 5 orders.Ask 12 2].

Ltac each_elem :=
  intros ? Hin; try unfold ex_matcher in Hin; try unfold NewMatcher in Hin; simpl in Hin; repeat match goal with
  | H : _ ∈ _ :: _ |- _ => apply elem_of_cons in H as [->|H]
  | H : _ ∈ [] |- _ => by apply elem_of_nil in H
  end; simpl; try (split; lia); try lia.

Ltac ex_in := try unfold ex_matcher; simpl; rewrite ?elem_of_cons; tauto.

Lemma ex_matcher_ok : matcher_ok ex_matcher.
Proof. split_and!; [split; [each_elem|done]|split; [each_elem|done]|each_elem|each_elem|done]. Qed.

Lemma ex_matcher_crossed : matcher_crossed ex_matcher.
Proof. exists (ex_order 0 orders.Ask 8 4), (ex_order 2 orders.Bid 10 6). split_and!; [ex_in..|done]. Qed.

(** What the code computes: the bid gets its 6 units, the asks give 4 and 2. *)
Example ex_match :
  (λ r, (cs_Price (mr_ClearanceState r), (λ f, (o_ID (f_Order f), f_QuantityFilled f, f_QuantityUnfilled f)) <$> mr_OrderFills r))
    <$> Match ex_matcher = Ok (10, [(2, 6, 0); (0, 4, 0); (1, 2, 1)]).
Proof. vm_compute. reflexivity. Qed.

Lemma Match_conserves_volume_witness :
  matcher_ok ex_matcher ∧ matcher_crossed ex_matcher ∧
  ∃ r bidFills askFills, Match ex_matcher = Ok r ∧ mr_OrderFills r = bidFills ++ askFills ∧
    sumZ f_QuantityFilled bidFills = sumZ f_QuantityFilled askFills.
Proof.
  split; [exact ex_matcher_ok|]. split; [exact ex_matcher_crossed|].
  destruct (Match_conserves_volume ex_matcher ex_matcher_ok ex_matcher_crossed)
    as (r & bf & af & Hr & Hf & _ & _ & _ & Hb & Ha & _).
  exists r, bf, af. split; [exact Hr|]. split; [exact Hf|]. rewrite Hb Ha. reflexivity.
Defined.

Definition ex_result : MatcherResult :=
  match Match ex_matcher with Ok r => r | _ => MkMatcherResult 0 0 0 (MkClearanceState 0 0 0 0 0) 0 0 [] end.

Lemma ex_result_eq : Match ex_matcher = Ok ex_result.
Proof. vm_compute. reflexivity. Qed.

Lemma Match_fills_sound_witness :
  length (mr_OrderFills ex_result) = 3%nat ∧
  (∀ f, f ∈ mr_OrderFills ex_result →
    f_ClearancePrice f = 10 ∧ f_QuantityFilled f + f_QuantityUnfilled f = o_Quantity (f_Order f)).
Proof.
  split; [vm_compute; reflexivity|]. intros f Hf. destruct (Match_fills_sound ex_matcher ex_result f ex_matcher_ok ex_matcher_crossed ex_result_eq Hf)
    as (_ & Hp & _ & Hq).
  split; [rewrite Hp; vm_compute; reflexivity|exact Hq].
Defined.

Lemma Match_priority_witness :
  ∃ bidFills askFills, mr_OrderFills ex_result = bidFills ++ askFills ∧
    (∀ f, f ∈ askFills → o_ID (f_Order f) = 1 → o_Price (f_Order f) = 9 →
       ∃ g, g ∈ askFills ∧ f_Order g = ex_order 0 orders.Ask 8 4).
Proof.
  destruct (Match_priority ex_matcher ex_result ex_matcher_ok ex_matcher_crossed ex_result_eq)
    as (bf & af & E & _ & _ & _ & Ha).
  exists bf, af. split; [exact E|]. intros f Hf _ Hp. apply (Ha (ex_order 0 orders.Ask 8 4) f).
  - ex_in.
  - exact Hf.
  - left. rewrite Hp. reflexivity.
Defined.

Lemma Match_fills_short_side_witness :
  ∃ f, f ∈ mr_OrderFills ex_result ∧ f_Order f = ex_order 2 orders.Bid 10 6 ∧ f_QuantityUnfilled f = 0.
Proof.
  apply (Match_fills_short_side ex_matcher ex_result _ ex_matcher_ok ex_matcher_crossed ex_result_eq).
  right. split; [vm_compute; discriminate|]. split; [ex_in|vm_compute; discriminate].
Defined.

Lemma Process_total_witness : ∃ results, Process [ex_matcher; NewMatcher 1] = Ok results ∧ ∃ r, r ∈ results.
Proof.
  destruct (Process_total [ex_matcher; NewMatcher 1]) as (rs & Hrs & _ & Hall).
  - intros m [->|[->|[]%elem_of_nil]%elem_of_cons]%elem_of_cons; [exact ex_matcher_ok|].
    split_and!; [split; [each_elem|done]|split; [each_elem|done]|each_elem|each_elem|done].
  - destruct (Hall ex_matcher) as (r & Hr & _); [ex_in|exact ex_matcher_crossed|].
    exists rs. split; [exact Hrs|]. exists r. exact Hr.
Defined.

Lemma NewSDCurves_correct_witness :
  ∃ c, (askAggs ← NewAskOrderAggregates [ex_order 0 orders.Ask 8 4; ex_order 1 orders.Ask 9 3];
        bidAggs ← NewBidOrderAggregates [ex_order 3 orders.Bid 9 4; ex_order 2 orders.Bid 10 6];
        NewSDCurves askAggs bidAggs) = Ok c ∧ StronglySorted Z.lt (sd_Price <$> c).
Proof.
  destruct (NewSDCurves_correct [ex_order 0 orders.Ask 8 4; ex_order 1 orders.Ask 9 3]
    [ex_order 3 orders.Bid 9 4; ex_order 2 orders.Bid 10 6]) as (c & Hc & Hs & _).
  - split; [each_elem|done].
  - split; [each_elem|done].
  - exists (ex_order 0 orders.Ask 8 4), (ex_order 2 orders.Bid 10 6). split_and!; [ex_in..|done].
  - repeat constructor; done.
  - repeat constructor; done.
  - exists c. split; [exact Hc|exact Hs].
Defined.

Lemma getCrossPoint_market_point_witness :
  ∃ it, getCrossPoint [MkSDItem 8 4 6; MkSDItem 10 4 6] = Ok it ∧ 0 < sd_Supply it.
Proof.
  destruct (getCrossPoint_market_point [ex_order 0 orders.Ask 8 4] [ex_order 2 orders.Bid 10 6]
    [MkSDItem 8 4 6; MkSDItem 10 4 6]) as (it & Hit & _ & HS & _).
  - split; [each_elem|done].
  - split; [each_elem|done].
  - each_elem.
  - each_elem.
  - exists (ex_order 0 orders.Ask 8 4), (ex_order 2 orders.Bid 10 6). split_and!; [ex_in..|done].
  - split; [repeat constructor; done|]. split; [each_elem; done|]. intros p. ex_in.
  - exists it. split; [exact Hit|exact HS].
Defined.

(** One unit asked, [3 * 10^18] wanted: an 18-decimals quote currency's three
    whole units. *)
Lemma Match_panics_witness :
  Match (MkMatcher 0 [ex_order 1 orders.Bid 10 (3 * 10 ^ 18)] [ex_order 0 orders.Ask 10 1]) = Panic.
Proof.
  apply (Match_panics_on_extreme_ratio _ (ex_order 0 orders.Ask 10 1) (ex_order 1 orders.Bid 10 (3 * 10 ^ 18)));
    try reflexivity; split; done.
Defined.

(** Beyond [10^18] units the rounding of the coefficients no longer balances the
    sides: with [2 * 10^18] offered and [3 * 10^18] wanted the bids are filled for
    one unit more than the asks. *)
Theorem Match_unbalanced_on_large_volume :
  ∃ r, Match (MkMatcher 0 [ex_order 1 orders.Bid 10 (3 * 10 ^ 18)] [ex_order 0 orders.Ask 10 (2 * 10 ^ 18)]) = Ok r ∧
    mr_MatchedBidVolume r = NewDecFromBigInt (2 * 10 ^ 18 + 1) ∧ mr_MatchedAskVolume r = NewDecFromBigInt (2 * 10 ^ 18).
Proof. eexists. split; [vm_compute; reflexivity|]. split; vm_compute; reflexivity. Qed.
