(* ===== verification/OrderBook.v ===== *)
(** * The order book ([x/orderbook])

    At the end of every block the module collects the active orders by market,
    matches each market, hands the fills to the orders module and keeps one history
    item per matched market and block. *)
From S2P Require Import Prelude Bytes Sdk SdkRef SdkFacts DnTypes Perms Chain Currency VMStorage CCStorage Markets Orders Aggregates Curves Matcher.
Local Open Scope string_scope.
Local Open Scope Z_scope.

(** What is kept of a match: counts are [int], the time and the height [int64]. *)
Record HistoryItem := MkHistoryItem {
  hi_MarketID : ID;
  hi_ClearancePrice : Uint;
  hi_BidOrdersCount : Z;
  hi_AskOrdersCount : Z;
  hi_BidVolume : Uint;
  hi_AskVolume : Uint;
  hi_MatchedBidVolume : Uint;
  hi_MatchedAskVolume : Uint;
  hi_Timestamp : Z;
  hi_BlockHeight : Z;
}.

#[export] Instance history_item_eq_dec : EqDecision HistoryItem.
Proof. solve_decision. Defined.

Module orderbook.

Definition ModuleName := "orderbook".
Definition StoreKey := ModuleName.
Definition PermInit := ModuleName +:+ "PermInit".
Definition PermExport := ModuleName +:+ "PermExport".
Definition PermHistoryRead := ModuleName +:+ "PermHistoryRead".
Definition PermHistoryWrite := ModuleName +:+ "PermHistoryWrite".
Definition PermOrdersRead := ModuleName +:+ "PermOrdersRead".
Definition PermExecFill := ModuleName +:+ "PermExecFill".
Definition AvailablePermissions : list string :=
  [PermExport; PermInit; PermHistoryRead; PermHistoryWrite; PermOrdersRead; PermExecFill].
Definition NewModulePerms : ModulePermissions := NewModulePermissions ModuleName AvailablePermissions.
Definition RequestOrdersPerms : RequestModulePermissions := (ModuleName, [orders.PermRead; orders.PermExecFill]).

Section types.
Context `{ST : SdkTypes}.

(** ** Keys *)
Definition KeyDelimiter := ":".
Definition HistoryItemKeyPrefix := "history_item".

(** [uint64(blockHeight)] wraps a negative height around. *)
Definition GetHistoryItemKey (marketID : ID) (blockHeight : Z) : outcome string :=
  market ← ID_UInt64 marketID;
  Ok (Join KeyDelimiter [HistoryItemKeyPrefix; Uint64ToBigEndian market; Uint64ToBigEndian (wrap64 blockHeight)]).

(** ** History items *)
Definition HistoryItem_Valid (h : HistoryItem) : outcome unit :=
  ID_Valid (Some (hi_MarketID h));;
  fail_if (hi_ClearancePrice h =? 0) (Plain "clearance_price is zero");;
  fail_if (hi_BidOrdersCount h <? 0) (Plain "bid_orders_count has negative value");;
  fail_if (hi_AskOrdersCount h <? 0) (Plain "ask_orders_count has negative value");;
  fail_if (hi_Timestamp h <? 0) (Plain "timestamp is negative");;
  fail_if (hi_BlockHeight h <? 0) (Plain "block_height is negative").

Definition NewHistoryItem (blockTime blockHeight : Z) (result : MatcherResult) : outcome HistoryItem :=
  bidVolume ← Dec_TruncateInt (cs_MaxBidVolume (mr_ClearanceState result));
  askVolume ← Dec_TruncateInt (cs_MaxAskVolume (mr_ClearanceState result));
  matchedBidVolume ← Dec_TruncateInt (mr_MatchedBidVolume result);
  matchedAskVolume ← Dec_TruncateInt (mr_MatchedAskVolume result);
  Ok (MkHistoryItem (mr_MarketID result) (cs_Price (mr_ClearanceState result))
        (mr_BidOrdersCount result) (mr_AskOrdersCount result)
        bidVolume askVolume matchedBidVolume matchedAskVolume (Unix blockTime) blockHeight).

Definition NewClearanceEvent (result : MatcherResult) : Event :=
  MkEvent (ModuleName +:+ ".clearance")
    [("market_id", ID_String (mr_MarketID result)); ("price", Uint_String (cs_Price (mr_ClearanceState result)))].

(** ** Genesis *)
Record GenesisState := MkGenesisState { gs_HistoryItems : list HistoryItem }.
Definition DefaultGenesisState : GenesisState := MkGenesisState [].

(** [fmt.Sprintf("%s:%d", item.MarketID, item.BlockHeight)]; a valid height is not
    negative. *)
Definition getItemId (item : HistoryItem) : string :=
  ID_String (hi_MarketID item) +:+ ":" +:+ pretty (hi_BlockHeight item).

Definition Validate_item (currentBlockTime : Z) (acc : gset string * Z) (item : HistoryItem) : outcome (gset string * Z) :=
  let (historyItemIdsSet, maxBlockHeight) := acc in
  HistoryItem_Valid item;;
  fail_if (negb (currentBlockTime =? zero_time) && (currentBlockTime <? hi_Timestamp item * 10 ^ 9))
    (Plain "timestamp after block time");;
  fail_if (bool_decide (getItemId item ∈ historyItemIdsSet)) (Plain "duplicated ID");;
  Ok ({[getItemId item]} ∪ historyItemIdsSet,
      if maxBlockHeight <? hi_BlockHeight item then hi_BlockHeight item else maxBlockHeight).

Definition GenesisState_Validate (currentBlockTime currentBlockHeight : Z) (gs : GenesisState) : outcome unit :=
  acc ← foldM (Validate_item currentBlockTime) (∅, 0) (gs_HistoryItems gs);
  fail_if (negb (currentBlockHeight =? -1) && (currentBlockHeight <? acc.2)) (Plain "blockHeight: GT current blockHeight").
End types.

Section keeper.
Context `{ST : SdkTypes} `{KV : KVStore} `{LG : Ledger} `{GS : GoSort}.
Context `{CO : !Codec Order} `{CH : !Codec HistoryItem}.
Variable modulePerms ordersPerms : ModulePermissions.

(** ** History *)
Definition HasHistoryItem (marketID : ID) (blockHeight : Z) : M bool :=
  keeper_method modulePerms PermHistoryRead (
    key ← lift (GetHistoryItemKey marketID blockHeight); kv_Has StoreKey key).

Definition GetHistoryItem (marketID : ID) (blockHeight : Z) : M HistoryItem :=
  keeper_method modulePerms PermHistoryRead (
    key ← lift (GetHistoryItemKey marketID blockHeight);
    bz ← kv_Get StoreKey key;
    match bz with
    | None => throw ErrWrongHistoryItem
    | Some bz => MustUnmarshal LengthPrefixed bz
    end).

Definition decode_item (e : error) (kv : string * string) : M HistoryItem :=
  match Unmarshal LengthPrefixed kv.2 with Some item => mret item | None => throw e end.

Definition GetHistoryItemsList : M (list HistoryItem) :=
  keeper_method modulePerms PermHistoryRead (
    kvs ← kv_PrefixIterator StoreKey HistoryItemKeyPrefix;
    mapM_ (decode_item (Plain "order unmarshal")) kvs).

(** [endHeight+1] is an [int64] addition. *)
Definition GetHistoryItemsInBlockHeightRange (marketID : ID) (startHeight endHeight : Z) : M (list HistoryItem) :=
  keeper_method modulePerms PermHistoryRead (
    startKey ← lift (GetHistoryItemKey marketID startHeight);
    endKey ← lift (GetHistoryItemKey marketID (int64 (endHeight + 1)));
    kvs ← kv_Iterator StoreKey startKey (Some endKey);
    mapM_ (decode_item ErrInternal) kvs).

Definition SetHistoryItem (item : HistoryItem) : M unit :=
  keeper_method modulePerms PermHistoryWrite (
    key ← lift (GetHistoryItemKey (hi_MarketID item) (hi_BlockHeight item));
    kv_Set StoreKey key (Marshal LengthPrefixed item)).

(** ** Orders *)
Definition GetOrderIterator : M (list (string * string)) :=
  keeper_method modulePerms PermOrdersRead (orders.GetIterator ordersPerms).

Definition ProcessOrderFills (orderFills : list OrderFill) : M unit :=
  keeper_method modulePerms PermExecFill (orders.ExecuteOrderFills ordersPerms orderFills).

(** ** End of block

    [range] is the order in which Go ranges over the pool. *)
Variable range : MatcherPool → list Matcher.

(** One order of the iterator goes to its market's matcher; an error panics. *)
Definition collect_order (mp : MatcherPool) (kv : string * string) : M MatcherPool :=
  order ← MustUnmarshal LengthPrefixed kv.2;
  match MatcherPool_AddOrder mp order with
  | Ok mp => mret mp
  | _ => panic
  end.

Fixpoint collect_orders (mp : MatcherPool) (kvs : list (string * string)) : M MatcherPool :=
  match kvs with
  | [] => mret mp
  | kv :: kvs' => mp ← collect_order mp kv; collect_orders mp kvs'
  end.

Definition execute_result (result : MatcherResult) : M unit :=
  ProcessOrderFills (mr_OrderFills result);;
  blockTime ← BlockTime; blockHeight ← BlockHeight;
  item ← lift (NewHistoryItem blockTime blockHeight result);
  SetHistoryItem item;;
  EmitEvent (NewClearanceEvent result).

Definition EndBlocker : M unit :=
  in_module ModuleName (
    kvs ← GetOrderIterator;
    matcherPool ← collect_orders NewMatcherPool kvs;
    results ← lift (Process (range matcherPool));
    forM results execute_result;;
    if (0 <? length results)%nat then EmitEvent (NewModuleNameEvent ModuleName) else mret tt).

(** ** Genesis *)
Definition InitGenesis (state : GenesisState) : M unit :=
  keeper_method modulePerms PermInit (
    blockTime ← BlockTime; blockHeight ← BlockHeight;
    match GenesisState_Validate blockTime blockHeight state with
    | Ok _ => forM (gs_HistoryItems state) SetHistoryItem
    | _ => panic
    end).

Definition ExportGenesis : M GenesisState :=
  keeper_method modulePerms PermExport (
    r ← attempt GetHistoryItemsList;
    match r with Ok historyItems => mret (MkGenesisState historyItems) | _ => panic end).

(** ** Zero-height squash

    The latest item of every market, by the string of its ID; the items are
    distinct markets', so the order they are written in does not matter. *)
Definition latest (historyItemsSet : gmap string HistoryItem) (curItem : HistoryItem) : gmap string HistoryItem :=
  match historyItemsSet !! ID_String (hi_MarketID curItem) with
  | Some existingItem =>
      if hi_BlockHeight existingItem <? hi_BlockHeight curItem
      then <[ID_String (hi_MarketID curItem) := curItem]> historyItemsSet else historyItemsSet
  | None => <[ID_String (hi_MarketID curItem) := curItem]> historyItemsSet
  end.

Definition at_height_0 (item : HistoryItem) : HistoryItem :=
  MkHistoryItem (hi_MarketID item) (hi_ClearancePrice item) (hi_BidOrdersCount item) (hi_AskOrdersCount item)
    (hi_BidVolume item) (hi_AskVolume item) (hi_MatchedBidVolume item) (hi_MatchedAskVolume item)
    (hi_Timestamp item) 0.

Definition PrepareForZeroHeight : M unit :=
  in_module ModuleName (
    historyItems ← GetHistoryItemsList;
    forM historyItems (λ curItem,
      key ← lift (GetHistoryItemKey (hi_MarketID curItem) (hi_BlockHeight curItem));
      kv_Delete StoreKey key);;
    forM ((map_to_list (foldl latest ∅ historyItems)).*2) (λ item, SetHistoryItem (at_height_0 item))).
End keeper.

Definition NewKeeper (permsRequesters : list RequestModulePermissions) : outcome ModulePermissions :=
  foldM AutoAddRequester NewModulePerms permsRequesters.
End orderbook.
