(* ===== verification/OrderBookTheorems.v ===== *)
(** * The order book: the history, genesis and the squash

    Items are stored under the market's ID and the block height, both big-endian,
    so the store's order is (market, height) order and a range of heights is a
    range of keys. *)
From S2P Require Import Prelude Bytes Sdk SdkRef SdkFacts DnTypes Perms Chain Currency VMStorage CCStorage Markets Orders Aggregates Curves Matcher OrderBook.
Local Open Scope string_scope.
Local Open Scope Z_scope.

Definition history_key (marketID blockHeight : Z) : string :=
  Join ":" ["history_item"; Uint64ToBigEndian marketID; Uint64ToBigEndian blockHeight].

Lemma history_key_app m h :
  history_key m h = "history_item:" +:+ (Uint64ToBigEndian m +:+ (":" +:+ Uint64ToBigEndian h)).
Proof. done. Qed.

(** Keys compare as the pairs they encode. *)
Lemma history_key_lt m h m' h' :
  0 ≤ m < 2 ^ 64 → 0 ≤ m' < 2 ^ 64 → 0 ≤ h < 2 ^ 64 → 0 ≤ h' < 2 ^ 64 →
  bytes_lt (history_key m h) (history_key m' h') ↔ m < m' ∨ m = m' ∧ h < h'.
Proof.
  intros Hm Hm' Hh Hh'. rw !history_key_app bytes_lt_app bytes_lt_app_len; [|by rw !length_be_bytes].
  rw bytes_lt_app. unfold Uint64ToBigEndian. rw !(be_bytes_lt 8); [|done..].
  split; intros [?|[E ?]]; [by left|right|by left|right; by subst].
  split; [|done]. by apply (be_bytes_inj 8).
Qed.

Lemma history_key_inj m h m' h' :
  0 ≤ m < 2 ^ 64 → 0 ≤ m' < 2 ^ 64 → 0 ≤ h < 2 ^ 64 → 0 ≤ h' < 2 ^ 64 →
  history_key m h = history_key m' h' → m = m' ∧ h = h'.
Proof.
  intros Hm Hm' Hh Hh' E.
  pose proof (history_key_lt m h m' h' Hm Hm' Hh Hh') as [_ H1].
  pose proof (history_key_lt m' h' m h Hm' Hm Hh' Hh) as [_ H2]. rw E in H1. rw E in H2.
  pose proof (bytes_lt_irrefl (history_key m' h')) as Hi.
  destruct (Z.lt_trichotomy m m') as [?|[<-|?]]; [by destruct Hi; auto| |by destruct Hi; auto].
  destruct (Z.lt_trichotomy h h') as [?|[<-|?]]; [by destruct Hi; auto|done|by destruct Hi; auto].
Qed.

Lemma history_key_prefix m h : has_prefix orderbook.HistoryItemKeyPrefix (history_key m h).
Proof. by exists (":" +:+ (Uint64ToBigEndian m +:+ (":" +:+ Uint64ToBigEndian h))). Qed.

(** The two conversions of a height that is not negative. *)
Lemma wrap64_int64 z : wrap64 (int64 z) = wrap64 z.
Proof.
  unfold wrap64, int64. rw Zminus_mod_idemp_l. f_equal. lia.
Qed.
Lemma wrap64_small z : 0 ≤ z < 2 ^ 64 → wrap64 z = z.
Proof. apply Z.mod_small. Qed.

Section history.
Context `{SdkTypesLaws} `{KVStoreLaws} `{LG : Ledger} `{CH : !Codec HistoryItem}.
Variable modulePerms : ModulePermissions.
Import orderbook.
Implicit Types (s : store) (c : Ctx) (item : HistoryItem).
Notation history_store c := (ctx_stores c StoreKey).

Definition item_key item : string := history_key (hi_MarketID item) (hi_BlockHeight item).
Definition item_ok item : Prop := 0 ≤ hi_MarketID item < 2 ^ 64 ∧ 0 ≤ hi_BlockHeight item < 2 ^ 63.
Definition item_stored s item : Prop := store_Get s (item_key item) = Some (Marshal LengthPrefixed item).

(** The module's store holds items only, each under its own key. *)
Definition history_wf s : Prop := ∀ k v, store_Get s k = Some v →
  ∃ item, item_ok item ∧ k = item_key item ∧ v = Marshal LengthPrefixed item.

Lemma GetHistoryItemKey_ok m h : 0 ≤ m < 2 ^ 64 → GetHistoryItemKey m h = Ok (history_key m (wrap64 h)).
Proof. intros Hm. unfold GetHistoryItemKey, ID_UInt64. by rw Uint_Uint64_ok. Qed.

Lemma item_key_ok item : item_ok item → GetHistoryItemKey (hi_MarketID item) (hi_BlockHeight item) = Ok (item_key item).
Proof. intros [Hm Hh]. rw GetHistoryItemKey_ok; [|done]. by rw wrap64_small; [|lia]. Qed.

Lemma item_key_inj a b : item_ok a → item_ok b → item_key a = item_key b →
  hi_MarketID a = hi_MarketID b ∧ hi_BlockHeight a = hi_BlockHeight b.
Proof. intros [? ?] [? ?]. apply history_key_inj; lia. Qed.

(** Decoding entries of the store. *)
Definition decode_entries (kvs : list (string * string)) : list HistoryItem :=
  omap (λ kv, Unmarshal LengthPrefixed kv.2) kvs.

Lemma decode_entries_run e kvs s caller c : history_wf s → (∀ k v, (k, v) ∈ kvs → store_Get s k = Some v) →
  mapM_ (decode_item e) kvs caller c = (Ok (decode_entries kvs), c).
Proof.
  intros Hwf Hkvs. apply mapM_run. intros [k v] Hin. destruct (Hwf k v (Hkvs k v Hin)) as (item & _ & _ & ->).
  exists item. unfold decode_item. simpl. by rw Unmarshal_Marshal.
Qed.

Lemma decode_entries_elem s kvs item : history_wf s → (∀ k v, (k, v) ∈ kvs → store_Get s k = Some v) →
  item ∈ decode_entries kvs ↔ item_ok item ∧ (item_key item, Marshal LengthPrefixed item) ∈ kvs.
Proof.
  intros Hwf Hkvs. unfold decode_entries. rw list_elem_of_omap. split.
  - intros ([k v] & Hin & Hu). destruct (Hwf k v (Hkvs k v Hin)) as (item' & Hok & -> & ->).
    simpl in Hu. rw Unmarshal_Marshal in Hu. injection Hu as ->. done.
  - intros [Hok Hin]. eexists. split; [exact Hin|]. apply Unmarshal_Marshal.
Qed.

(** (market, height) order. *)
Definition item_lt a b : Prop :=
  hi_MarketID a < hi_MarketID b ∨ hi_MarketID a = hi_MarketID b ∧ hi_BlockHeight a < hi_BlockHeight b.

Lemma decode_entries_sorted s kvs : history_wf s → (∀ k v, (k, v) ∈ kvs → store_Get s k = Some v) →
  StronglySorted (λ a b, bytes_lt a.1 b.1) kvs → StronglySorted item_lt (decode_entries kvs).
Proof.
  intros Hwf Hkvs Hs. unfold decode_entries. induction Hs as [|[k v] kvs Hs IH Hx]; [constructor|].
  destruct (Hwf k v) as (item & Hok & -> & ->); [apply Hkvs; left|].
  cbn [omap list_omap]. simpl snd. rw Unmarshal_Marshal.
  assert (∀ k v, (k, v) ∈ kvs → store_Get s k = Some v) as Hkvs' by (intros; apply Hkvs; by right).
  constructor; [by apply IH|]. apply Forall_forall. intros item' Hin.
  apply (decode_entries_elem s kvs item' Hwf Hkvs') in Hin as [[Hm' Hh'] Hin].
  rewrite Forall_forall in Hx. specialize (Hx _ Hin). destruct Hok as [Hm Hh].
  by apply history_key_lt in Hx; [|lia..].
Qed.

(** A stored item is read back by its market and height. *)
Lemma GetHistoryItem_run item c : history_wf (history_store c) → item_ok item → item_stored (history_store c) item →
  GetHistoryItem modulePerms (hi_MarketID item) (hi_BlockHeight item) (mp_name modulePerms) c = (Ok item, c).
Proof.
  intros Hwf Hok Hst. unfold GetHistoryItem. rw keeper_method_self item_key_ok; [|done].
  unfold mbind, M_bind, lift, kv_Get, MustUnmarshal. rw Hst. by rw Unmarshal_Marshal.
Qed.
End history.

(** ** The order book: history, genesis, squash

    Reading back what was written, the range query, the zero-height squash and the
    genesis round trip. *)
Local Open Scope string_scope.
Local Open Scope Z_scope.

Section theorems.
Context `{SdkTypesLaws} `{KVStoreLaws} `{LG : Ledger} `{CH : !Codec HistoryItem}.
Variable modulePerms : ModulePermissions.
Hypothesis own_perms : mp_name modulePerms = orderbook.ModuleName.
Import orderbook.
Implicit Types (s : store) (c : Ctx) (item : HistoryItem).
Notation history_store c := (ctx_stores c StoreKey).

Lemma SetHistoryItem_run item c : item_ok item →
  SetHistoryItem modulePerms item (mp_name modulePerms) c =
    (Ok tt, set_store c StoreKey (store_Set (history_store c) (item_key item) (Marshal LengthPrefixed item))).
Proof.
  intros Hok. unfold SetHistoryItem. rw keeper_method_self item_key_ok; [|done]. done.
Qed.

Lemma history_wf_Set s item : history_wf s → item_ok item →
  history_wf (store_Set s (item_key item) (Marshal LengthPrefixed item)).
Proof. intros Hwf Hok k v. rw store_Get_Set. case_decide; [intros [= <-]; by exists item|apply Hwf]. Qed.

(** An item that was set is the one read back for its market and height; items
    of other markets or heights are as before. *)
Theorem SetHistoryItem_GetHistoryItem item c :
  history_wf (history_store c) → item_ok item →
  ∃ c', SetHistoryItem modulePerms item (mp_name modulePerms) c = (Ok tt, c') ∧ history_wf (history_store c') ∧
    GetHistoryItem modulePerms (hi_MarketID item) (hi_BlockHeight item) (mp_name modulePerms) c' = (Ok item, c') ∧
    ∀ other, item_ok other →
      (hi_MarketID other ≠ hi_MarketID item ∨ hi_BlockHeight other ≠ hi_BlockHeight item) →
      (item_stored (history_store c') other ↔ item_stored (history_store c) other).
Proof.
  intros Hwf Hok. eexists. split; [by apply SetHistoryItem_run|]. simpl ctx_stores.
  split; [by apply history_wf_Set|]. split.
  - apply GetHistoryItem_run; [by apply history_wf_Set|done|]. unfold item_stored. simpl.
    by rw store_Get_Set decide_True.
  - intros other Hother Hne. unfold item_stored. rw store_Get_Set decide_False; [done|].
    intros [? ?]%item_key_inj; naive_solver.
Qed.

(** The range query returns exactly the market's items between the two heights,
    both included, by height; an end height of [2^63 - 1] is no exception, though
    [endHeight + 1] overflows. *)
Theorem GetHistoryItemsInBlockHeightRange_exact marketID startHeight endHeight c :
  history_wf (history_store c) → 0 ≤ marketID < 2 ^ 64 → 0 ≤ startHeight < 2 ^ 63 → 0 ≤ endHeight < 2 ^ 63 →
  ∃ items, GetHistoryItemsInBlockHeightRange modulePerms marketID startHeight endHeight (mp_name modulePerms) c = (Ok items, c) ∧
    StronglySorted (λ a b, hi_BlockHeight a < hi_BlockHeight b) items ∧
    ∀ item, item ∈ items ↔ item_ok item ∧ item_stored (history_store c) item ∧ hi_MarketID item = marketID ∧
                           startHeight ≤ hi_BlockHeight item ≤ endHeight.
Proof.
  intros Hwf Hm Hs He. unfold GetHistoryItemsInBlockHeightRange. rw keeper_method_self !GetHistoryItemKey_ok; [|done..].
  rw wrap64_int64 !wrap64_small; [|lia..].
  set (kvs := store_Iterator (history_store c) (history_key marketID startHeight) (Some (history_key marketID (endHeight + 1)))).
  assert (∀ k v, (k, v) ∈ kvs → store_Get (history_store c) k = Some v) as Hkvs
    by (intros k v Hin; by apply store_Iterator_elem in Hin as [? _]).
  assert (∀ item, item ∈ decode_entries kvs ↔ item_ok item ∧ item_stored (history_store c) item ∧ hi_MarketID item = marketID ∧
                           startHeight ≤ hi_BlockHeight item ≤ endHeight) as Hel.
  { intros item. rw (decode_entries_elem _ kvs item Hwf Hkvs) store_Iterator_elem. unfold in_range, item_key, item_stored.
    rw bytes_le_lteq. split.
    - intros ([Hm' Hh'] & Hg & Hlo & Hhi). split; [done|]. split; [done|].
      apply history_key_lt in Hhi; [|lia..]. destruct Hlo as [Hlo|Hlo].
      + apply history_key_lt in Hlo; lia.
      + apply history_key_inj in Hlo; lia.
    - intros ([Hm' Hh'] & Hg & <- & Hlo & Hhi). split; [done|]. split; [done|]. split.
      + destruct (decide (startHeight = hi_BlockHeight item)) as [->|]; [by right|left]. apply history_key_lt; lia.
      + apply history_key_lt; lia. }
  exists (decode_entries kvs). split; [|split; [|done]].
  - rw (M_bind_Ok _ _ _ _ _ _ (lift_Ok _ _ _ _ eq_refl)) (M_bind_Ok _ _ _ _ _ _ (lift_Ok _ _ _ _ eq_refl)).
    rw (M_bind_Ok _ _ _ _ kvs c); [|done]. by apply (decode_entries_run _ _ (history_store c)).
  - pose proof (decode_entries_sorted _ kvs Hwf Hkvs (store_Iterator_sorted _ _ _)) as Hsorted.
    clear - Hsorted Hel. assert (∀ item, item ∈ decode_entries kvs → hi_MarketID item = marketID) as Hmk by naive_solver.
    clear Hel. induction Hsorted as [|x l Hl IH Hx]; constructor; [apply IH; intros; apply Hmk; by right|].
    rewrite Forall_forall in Hx. apply Forall_forall. intros y Hy. specialize (Hx y Hy).
    pose proof (Hmk x ltac:(left)). pose proof (Hmk y ltac:(by right)). destruct Hx as [|[]]; lia.
Qed.

(** *** Loops over items *)

Notation set_items f := (store_Set_list (λ x, item_key (f x)) (λ x, Marshal LengthPrefixed (f x))).

Lemma set_loop {A} (f : A → HistoryItem) l c : (∀ x, x ∈ l → item_ok (f x)) →
  ∃ c', forM l (λ x, SetHistoryItem modulePerms (f x)) (mp_name modulePerms) c = (Ok tt, c') ∧
    history_store c' = set_items f (history_store c) l.
Proof.
  revert c. induction l as [|x l IH]; intros c Hl; [by eexists|].
  destruct (IH (set_store c StoreKey (store_Set (history_store c) (item_key (f x)) (Marshal LengthPrefixed (f x)))))
    as (c' & Hrun & Hst); [intros y Hy; apply Hl; by right|].
  exists c'. split; [|by rw Hst]. cbn [forM].
  by rw (M_bind_Ok _ _ _ _ _ _ (SetHistoryItem_run (f x) c (Hl x ltac:(left)))).
Qed.

Lemma delete_loop l c : (∀ x, x ∈ l → item_ok x) →
  ∃ c', forM l (λ x, key ← lift (GetHistoryItemKey (hi_MarketID x) (hi_BlockHeight x)); kv_Delete StoreKey key) (mp_name modulePerms) c = (Ok tt, c') ∧
    history_store c' = store_Delete_list item_key (history_store c) l.
Proof.
  revert c. induction l as [|x l IH]; intros c Hl; [by eexists|].
  destruct (IH (set_store c StoreKey (store_Delete (history_store c) (item_key x))))
    as (c' & Hrun & Hst); [intros y Hy; apply Hl; by right|].
  exists c'. split; [|by rw Hst]. cbn [forM].
  rw (M_bind_Ok _ _ _ _ tt (set_store c StoreKey (store_Delete (history_store c) (item_key x)))); [done|].
  rw item_key_ok; [done|apply Hl; left].
Qed.

(** The module's whole history. *)
Definition all_items s : list HistoryItem := decode_entries (KVStorePrefixIterator s HistoryItemKeyPrefix).

Lemma all_items_elem s item : history_wf s → item ∈ all_items s ↔ item_ok item ∧ item_stored s item.
Proof.
  intros Hwf. unfold all_items. rw (decode_entries_elem s); [|done|by intros k v [? _]%at_prefix_elem].
  rw at_prefix_elem; [|done]. split; [by intros (? & ? & _)|]. intros [? ?]. split; [done|]. split; [done|apply history_key_prefix].
Qed.

Lemma all_items_sorted s : history_wf s → StronglySorted item_lt (all_items s).
Proof.
  intros Hwf. apply (decode_entries_sorted s); [done|by intros k v [? _]%at_prefix_elem|apply store_Iterator_sorted].
Qed.

Lemma GetHistoryItemsList_run c : history_wf (history_store c) →
  GetHistoryItemsList modulePerms (mp_name modulePerms) c = (Ok (all_items (history_store c)), c).
Proof.
  intros Hwf. unfold GetHistoryItemsList. rw keeper_method_self.
  etrans; [by apply (M_bind_Ok _ _ _ _ (KVStorePrefixIterator (history_store c) HistoryItemKeyPrefix) c)|].
  apply (decode_entries_run _ _ (history_store c)); [done|by intros k v [? _]%at_prefix_elem].
Qed.

(** *** The latest items *)

Definition latest_ok (L : list HistoryItem) (m : gmap string HistoryItem) : Prop :=
  (∀ id item, m !! id = Some item → item ∈ L ∧ ID_String (hi_MarketID item) = id ∧
     ∀ j, j ∈ L → hi_MarketID j = hi_MarketID item → hi_BlockHeight j ≤ hi_BlockHeight item) ∧
  (∀ j, j ∈ L → is_Some (m !! ID_String (hi_MarketID j))).

Lemma latest_step L m x : (∀ j, j ∈ (L ++ [x])%list → 0 ≤ hi_MarketID j) → latest_ok L m → latest_ok (L ++ [x])%list (latest m x).
Proof.
  intros Hpos [Hm Hall]. unfold latest.
  assert (∀ id item, m !! id = Some item → ID_String (hi_MarketID x) ≠ id → item ∈ (L ++ [x])%list ∧ ID_String (hi_MarketID item) = id ∧
    ∀ j, j ∈ (L ++ [x])%list → hi_MarketID j = hi_MarketID item → hi_BlockHeight j ≤ hi_BlockHeight item) as Hother.
  { intros id item Hi Hne. destruct (Hm id item Hi) as (Hin & Hid & Hmax). split; [apply elem_of_app; by left|]. split; [done|].
    intros j [Hj|Hj%list_elem_of_singleton]%elem_of_app Ej; [by apply Hmax|]. subst j. exfalso. apply Hne. by rw Ej. }
  assert (∀ m' : gmap string HistoryItem, (∀ id, is_Some (m !! id) → is_Some (m' !! id)) → is_Some (m' !! ID_String (hi_MarketID x)) →
    ∀ j, j ∈ (L ++ [x])%list → is_Some (m' !! ID_String (hi_MarketID j))) as Hkeys.
  { intros m' Hsub Hx j [Hj|Hj%list_elem_of_singleton]%elem_of_app; [by apply Hsub, Hall|by subst j]. }
  assert (∀ id, is_Some (m !! id) → is_Some (<[ID_String (hi_MarketID x):=x]> m !! id)) as Hins
    by (intros id Hs; rw lookup_insert; by case_decide).
  assert (x ∈ (L ++ [x])%list) as Hxin by (apply elem_of_app; right; by left).
  destruct (m !! ID_String (hi_MarketID x)) as [old|] eqn:Hold.
  - destruct (Hm _ _ Hold) as (Hoin & Hoid & Homax).
    assert (hi_MarketID old = hi_MarketID x) as Em.
    { apply Uint_String_inj; [apply Hpos, elem_of_app; by left|by apply Hpos|done]. }
    destruct (Z.ltb_spec (hi_BlockHeight old) (hi_BlockHeight x)); split.
    + intros id item. rw lookup_insert. case_decide as E; [|by intros Hi; apply Hother]. intros [= <-]. split; [done|]. split; [done|].
      intros j [Hj|Hj%list_elem_of_singleton]%elem_of_app Ej; [|by subst j]. specialize (Homax j Hj). lia.
    + apply Hkeys; [done|]. rw lookup_insert. by case_decide.
    + intros id item Hi. destruct (decide (ID_String (hi_MarketID x) = id)) as [E|]; [|by apply Hother].
      subst id. rw Hold in Hi. injection Hi as <-. split; [apply elem_of_app; by left|]. split; [done|].
      intros j [Hj|Hj%list_elem_of_singleton]%elem_of_app Ej; [by apply Homax|by subst j].
    + apply Hkeys; [done|by rw Hold].
  - split.
    + intros id item. rw lookup_insert. case_decide as E; [|by intros Hi; apply Hother]. intros [= <-]. split; [done|]. split; [done|].
      intros j [Hj|Hj%list_elem_of_singleton]%elem_of_app Ej; [|by subst j].
      exfalso. destruct (Hall j Hj) as [y Hy]. rw Ej in Hy. by rw Hold in Hy.
    + apply Hkeys; [done|]. rw lookup_insert. by case_decide.
Qed.

Lemma latest_all L : (∀ j, j ∈ L → 0 ≤ hi_MarketID j) → latest_ok L (foldl latest ∅ L).
Proof.
  induction L as [|x L IH] using rev_ind; intros Hpos.
  - split; [by intros id item|by intros j Hj%elem_of_nil].
  - rw foldl_app. simpl. apply latest_step; [done|]. apply IH. intros j Hj. apply Hpos, elem_of_app. by left.
Qed.

(** *** Squash *)

Lemma at_height_0_ok item : item_ok item → item_ok (at_height_0 item).
Proof. intros [Hm Hh]. split; simpl; lia. Qed.

(** The items the squash keeps. *)
Definition kept s : list HistoryItem := (map_to_list (foldl latest ∅ (all_items s))).*2.

Lemma kept_elem s item : history_wf s →
  item ∈ kept s ↔ item_ok item ∧ item_stored s item ∧
    ∀ j, item_ok j → item_stored s j → hi_MarketID j = hi_MarketID item → hi_BlockHeight j ≤ hi_BlockHeight item.
Proof.
  intros Hwf. destruct (latest_all (all_items s)) as [Hm Hall].
  { intros j [[? _] _]%all_items_elem; [lia|done]. }
  unfold kept. split.
  - intros ([id it] & -> & Hin%elem_of_map_to_list)%list_elem_of_fmap. destruct (Hm id it Hin) as (Hit & _ & Hmax).
    apply all_items_elem in Hit as [Hok Hst]; [|done]. split; [done|]. split; [done|].
    intros j Hj Hjs. apply Hmax. by apply all_items_elem.
  - intros (Hok & Hst & Hmax). destruct (Hall item) as [it Hit]; [by apply all_items_elem|].
    destruct (Hm _ it Hit) as (Hin & Hid & Hmax'). apply all_items_elem in Hin as [Hok' Hst']; [|done].
    apply Uint_String_inj in Hid; [|apply Hok'|apply Hok].
    assert (hi_BlockHeight it ≤ hi_BlockHeight item) by (by apply Hmax).
    assert (hi_BlockHeight item ≤ hi_BlockHeight it) by (by apply Hmax'; [apply all_items_elem|]).
    assert (it = item) as ->.
    { unfold item_stored, item_key in Hst, Hst'. rw Hid (Z.le_antisymm _ _ _ _ : hi_BlockHeight it = hi_BlockHeight item) in Hst'; [|done..].
      rw Hst in Hst'. apply (f_equal (λ b, b ≫= Unmarshal LengthPrefixed)) in Hst'. simpl in Hst'. rw !Unmarshal_Marshal in Hst'. by injection Hst' as ->. }
    apply (list_elem_of_fmap_2 snd _ (ID_String (hi_MarketID item), item)). by apply elem_of_map_to_list.
Qed.

Lemma kept_keys_NoDup s : history_wf s → NoDup ((λ x, item_key (at_height_0 x)) <$> kept s).
Proof.
  intros Hwf. destruct (latest_all (all_items s)) as [Hm _].
  { intros j [[? _] _]%all_items_elem; [lia|done]. }
  unfold kept. rw -list_fmap_compose. apply NoDup_fmap_2_strong; [|apply NoDup_map_to_list].
  intros [id a] [id' b] Ha%elem_of_map_to_list Hb%elem_of_map_to_list E. simpl in E.
  destruct (Hm _ _ Ha) as (Hina & Hida & _). destruct (Hm _ _ Hb) as (Hinb & Hidb & _).
  apply all_items_elem in Hina as [Hoka _]; [|done]. apply all_items_elem in Hinb as [Hokb _]; [|done].
  apply item_key_inj in E as [E _]; [|by apply at_height_0_ok..]. simpl in E. rw E Hidb in Hida. subst id.
  rw Ha in Hb. by injection Hb as ->.
Qed.

Lemma deleted_empty s k : history_wf s → store_Get (store_Delete_list item_key s (all_items s)) k = None.
Proof.
  intros Hwf. rw store_Get_Delete_list. case_decide as Hk; [done|]. destruct (store_Get s k) as [v|] eqn:Hg; [|done].
  destruct (Hwf k v Hg) as (item & Hok & -> & ->). destruct Hk. apply list_elem_of_fmap_2. by apply all_items_elem.
Qed.

(** The zero-height squash keeps, of every market that has history, exactly the
    latest item, moved to height 0. *)
Theorem PrepareForZeroHeight_keeps_latest caller c :
  history_wf (history_store c) →
  ∃ c', PrepareForZeroHeight modulePerms caller c = (Ok tt, c') ∧ history_wf (history_store c') ∧
    ∀ item, item_ok item → item_stored (history_store c') item ↔
      ∃ item0, at_height_0 item0 = item ∧ item_ok item0 ∧ item_stored (history_store c) item0 ∧
        ∀ j, item_ok j → item_stored (history_store c) j → hi_MarketID j = hi_MarketID item0 →
          hi_BlockHeight j ≤ hi_BlockHeight item0.
Proof.
  intros Hwf. set (s := history_store c) in *.
  destruct (delete_loop (all_items s) c) as (c1 & Hdel & Hst1); [by intros x [? _]%all_items_elem|].
  destruct (set_loop at_height_0 (kept s) c1) as (c2 & Hset & Hst2).
  { intros x Hx. apply at_height_0_ok. by apply kept_elem in Hx as [? _]. }
  exists c2. split.
  { unfold PrepareForZeroHeight, in_module. rw -own_perms (M_bind_Ok _ _ _ _ _ _ (GetHistoryItemsList_run c Hwf)).
    by rw (M_bind_Ok _ _ _ _ _ _ Hdel). }
  assert (∀ k v, store_Get (history_store c2) k = Some v ↔
    ∃ x, x ∈ kept s ∧ k = item_key (at_height_0 x) ∧ v = Marshal LengthPrefixed (at_height_0 x)) as Hget.
  { intros k v. rw Hst2. split.
    - intros [(x & Hx & -> & ->)|[_ Hg]]%store_Set_list_inv; [by exists x| |by apply kept_keys_NoDup].
      rw Hst1 deleted_empty in Hg; done.
    - intros (x & Hx & -> & ->). apply (store_Set_list_in (λ x, item_key (at_height_0 x)) (λ x, Marshal LengthPrefixed (at_height_0 x)) _ (kept s) x);
        [by apply kept_keys_NoDup|done]. }
  split.
  - intros k v (x & Hx & -> & ->)%Hget. apply kept_elem in Hx as [Hok _]; [|done].
    exists (at_height_0 x). by split; [apply at_height_0_ok|].
  - intros item Hok. unfold item_stored at 1. rw Hget. split.
    + intros (x & Hx & _ & E). apply (f_equal (Unmarshal LengthPrefixed)) in E. rw !Unmarshal_Marshal in E. injection E as ->.
      exists x. split; [done|]. by apply kept_elem.
    + intros (x & <- & Hx). exists x. split; [by apply kept_elem|done].
Qed.

(** *** Genesis *)

(** What an import requires of an item. *)
Definition importable_item c0 item : Prop :=
  HistoryItem_Valid item = Ok tt ∧ hi_Timestamp item * 10 ^ 9 ≤ ctx_time c0 ∧ hi_BlockHeight item ≤ ctx_height c0.

Lemma getItemId_inj a b : item_ok a → item_ok b → getItemId a = getItemId b → item_key a = item_key b.
Proof.
  intros [Ha Ha'] [Hb Hb'] E. unfold getItemId, ID_String in E.
  assert (∀ z, 0 ≤ z → lacks ":"%char (Uint_String z) = true) as Hl by (intros z Hz; rw Uint_String_decimal; [apply lacks_pretty|done]).
  assert (Uint_String (hi_MarketID a) = Uint_String (hi_MarketID b)) as Em.
  { apply (f_equal (Split ":"%char)) in E. rw !Split_app in E; [|apply Hl; lia..]. by injection E. }
  rw Em in E. apply string_app_inj_len in E as [_ E]; [|done]. injection E as E.
  apply Uint_String_inj in Em; [|lia..]. unfold item_key. rw Em.
  assert (hi_BlockHeight a = hi_BlockHeight b) as -> by (by apply (inj (pretty (A:=Z)))). done.
Qed.

Lemma Validate_items_ok c0 (S : gset string) m l :
  (∀ item, item ∈ l → item_ok item ∧ importable_item c0 item ∧ getItemId item ∉ S) → m ≤ ctx_height c0 →
  StronglySorted item_lt l →
  ∃ S' m', foldM (Validate_item (ctx_time c0)) (S, m) l = Ok (S', m') ∧ m' ≤ ctx_height c0.
Proof.
  intros Hl Hmax Hs. revert S m Hl Hmax. induction Hs as [|x l Hs IH Hx]; intros S m Hl Hmax; [by exists S, m|].
  destruct (Hl x) as (Hok & (Hv & Ht & Hh) & Hin); [left|].
  destruct (IH ({[getItemId x]} ∪ S) (if m <? hi_BlockHeight x then hi_BlockHeight x else m)) as (S' & m' & Hrun & Hm').
  - intros item Hitem. destruct (Hl item) as (Hok' & Himp & Hin'); [by right|]. split; [done|]. split; [done|].
    intros [E%elem_of_singleton|]%elem_of_union; [|done]. apply getItemId_inj in E; [|done..].
    apply item_key_inj in E as [E1 E2]; [|done..]. rewrite Forall_forall in Hx. destruct (Hx item Hitem) as [|[]]; lia.
  - by destruct (m <? hi_BlockHeight x).
  - exists S', m'. split; [|done]. cbn [foldM].
    assert (Validate_item (ctx_time c0) (S, m) x =
      Ok ({[getItemId x]} ∪ S, if m <? hi_BlockHeight x then hi_BlockHeight x else m)) as ->; [|done].
    unfold Validate_item. rw Hv (proj2 (Z.ltb_ge _ _) Ht) andb_false_r. simpl. by rw bool_decide_false.
Qed.

(** Exporting the history and importing it into an empty module gives the same
    items back; exporting again gives the same state. *)
Theorem history_genesis_roundtrip c c0 :
  history_wf (history_store c) → (∀ k, store_Get (history_store c0) k = None) → 0 ≤ ctx_height c0 →
  (∀ item, item_ok item → item_stored (history_store c) item → importable_item c0 item) →
  ∃ gs c1, ExportGenesis modulePerms (mp_name modulePerms) c = (Ok gs, c) ∧
    InitGenesis modulePerms gs (mp_name modulePerms) c0 = (Ok tt, c1) ∧
    (∀ k, store_Get (history_store c1) k = store_Get (history_store c) k) ∧
    ExportGenesis modulePerms (mp_name modulePerms) c1 = (Ok gs, c1).
Proof.
  intros Hwf Hempty Hheight Himp. set (s := history_store c) in *.
  assert (∀ c, history_wf (history_store c) → ExportGenesis modulePerms (mp_name modulePerms) c =
    (Ok (MkGenesisState (all_items (history_store c))), c)) as Hexp.
  { intros cx Hx. unfold ExportGenesis. rw keeper_method_self.
    by rw (M_bind_Ok _ _ _ _ _ _ (attempt_Ok _ _ _ _ _ (GetHistoryItemsList_run cx Hx))). }
  destruct (Validate_items_ok c0 ∅ 0 (all_items s)) as (S' & m' & Hval & Hm').
  { intros item [Hok Hst]%all_items_elem; [|done]. split; [done|]. split; [by apply Himp|apply not_elem_of_empty]. }
  { done. } { by apply all_items_sorted. }
  destruct (set_loop id (all_items s) c0) as (c1 & Hset & Hst1); [by intros x [? _]%all_items_elem|].
  assert (∀ k, store_Get (history_store c1) k = store_Get s k) as Hsame.
  { intros k. rw Hst1. destruct (store_Get s k) as [v|] eqn:Hg.
    - destruct (Hwf k v Hg) as (item & Hok & -> & ->).
      apply (store_Set_list_in (λ x, item_key (id x)) (λ x, Marshal LengthPrefixed (id x)) _ (all_items s) item);
        [|by apply all_items_elem].
      pose proof (all_items_sorted s Hwf) as Hsorted.
      assert (∀ x, x ∈ all_items s → item_ok x) as Hall by (by intros x [? _]%all_items_elem).
      clear - Hsorted Hall. induction Hsorted as [|x l Hs IH Hx]; [constructor|]. rw fmap_cons. constructor.
      + intros (y & E & Hy)%list_elem_of_fmap. apply item_key_inj in E as [E1 E2]; [|apply Hall; by left|apply Hall; by right].
        rewrite Forall_forall in Hx. destruct (Hx y Hy) as [|[]]; unfold id in *; lia.
      + apply IH. intros y Hy. apply Hall. by right.
    - rw store_Set_list_other; [apply Hempty|]. intros (x & -> & Hx)%list_elem_of_fmap.
      apply all_items_elem in Hx as [_ Hx]; [|done]. unfold item_stored in Hx. unfold id in Hg. by rw Hg in Hx. }
  exists (MkGenesisState (all_items s)), c1. split; [by apply Hexp|]. split; [|split; [done|]].
  - unfold InitGenesis. rw keeper_method_self. rw (M_bind_Ok BlockTime _ _ c0 (ctx_time c0) c0); [|done].
    rw (M_bind_Ok BlockHeight _ _ c0 (ctx_height c0) c0); [|done].
    assert (GenesisState_Validate (ctx_time c0) (ctx_height c0) (MkGenesisState (all_items s)) = Ok tt) as ->; [|exact Hset].
    unfold GenesisState_Validate. simpl. rw Hval outcome_bind_ok. simpl.
    by rw (proj2 (Z.ltb_ge _ _) Hm') andb_false_r.
  - rw Hexp; [|intros k v; rw Hsame; apply Hwf]. unfold all_items. by rw (at_prefix_ext (history_store c1) s).
Qed.
End theorems.
