(* ===== verification/OrderBookBlock.v ===== *)
(** * The end of a block: from the stored orders to the executed fills

    The composition of the components the end blocker calls: the orders of the
    store go to the matchers of their markets, the matchers' fills are fills of
    stored orders, and executing them succeeds while the amounts involved are
    numbers the chain can represent. *)
From S2P Require Import Prelude Bytes Sdk SdkRef SdkFacts DnTypes Perms Chain Currency VMStorage CCStorage Markets MarketsFacts Orders OrdersFacts OrdersTheorems OrdersGenesis Aggregates.
From S2P Require Import Curves CurvesFacts Matcher MatcherFacts MatcherTheorems OrderBook OrderBookTheorems.
Local Open Scope string_scope.
Local Open Scope Z_scope.
Local Open Scope list_scope.

(** ** Amounts *)

Section amounts.
Context `{SdkTypesLaws}.
Import orders.

(** Prices below [2^120] and quantities up to [2^60] are multiplied without a panic. *)
Lemma quote_amount_bound P A Dq B r p q x y :
  0 < P → 0 < A → 0 < Dq → 0 < B → Dq * A = P → 0 ≤ p → 0 ≤ q → 0 ≤ r →
  2 * Z.abs (r * P - p * A * (q * B)) ≤ P → p * q * B ≤ x → Dq ≤ y → r * Dq ≤ x + y.
Proof.
  intros HP HA HD HB HDA Hp Hq Hr Hn Hx Hy.
  assert (2 * (r * P) ≤ 2 * (p * A * (q * B)) + P) by lia.
  assert (2 * (r * P) * Dq ≤ 2 * (p * q * B) * P + P * Dq) by (rw -HDA; nia).
  assert (2 * (r * Dq) ≤ 2 * (p * q * B) + Dq); [|lia]. apply (Z.mul_le_mono_pos_r _ _ P); lia.
Qed.

Lemma BaseToQuote_total m p q :
  decimals_ok (me_BaseCurrency m) → decimals_ok (me_QuoteCurrency m) → 0 ≤ p < 2 ^ 120 → 0 ≤ q ≤ 2 ^ 60 →
  markets.BaseToQuoteQuantity m p q ≠ Panic ∧
  ∀ v, markets.BaseToQuoteQuantity m p q = Ok v → 0 ≤ v < 2 ^ 254.
Proof.
  intros Hb Hqo Hp Hq. pose proof (pow10_split _ Hqo) as Hs.
  assert (∀ c, decimals_ok c → 0 < 10 ^ (18 - cur_Decimals c) ≤ 2 ^ 60) as Hpow.
  { intros c [? ?]. split; [apply pow10_pos'; lia|].
    apply (Z.le_trans _ (10 ^ 18)); [apply Z.pow_le_mono_r; lia|by vm_compute]. }
  pose proof (Hpow _ Hb) as HB. pose proof (Hpow _ Hqo) as HA.
  assert (0 < 10 ^ cur_Decimals (me_QuoteCurrency m) ≤ 2 ^ 60) as HD.
  { destruct Hqo. split; [by apply pow10_pos'|]. apply (Z.le_trans _ (10 ^ 18)); [apply Z.pow_le_mono_r; lia|by vm_compute]. }
  unfold markets.BaseToQuoteQuantity. rw !UintToDec_ok; [|done..]. rw !outcome_bind_ok.
  set (A := 10 ^ (18 - cur_Decimals (me_QuoteCurrency m))) in *. set (B := 10 ^ (18 - cur_Decimals (me_BaseCurrency m))) in *.
  set (D := 10 ^ cur_Decimals (me_QuoteCurrency m)) in *.
  assert (0 ≤ p * A ≤ 2 ^ 180) as HpA by (change (2 ^ 180) with (2 ^ 120 * 2 ^ 60); split; [nia|apply Z.mul_le_mono_nonneg; lia]).
  assert (0 ≤ q * B ≤ 2 ^ 120) as HqB by (change (2 ^ 120) with (2 ^ 60 * 2 ^ 60); split; [nia|apply Z.mul_le_mono_nonneg; lia]).
  assert (0 ≤ p * A * (q * B) ≤ 2 ^ 300) as Hx.
  { change (2 ^ 300) with (2 ^ 180 * 2 ^ 120). split; [apply Z.mul_nonneg_nonneg; lia|apply Z.mul_le_mono_nonneg; lia]. }
  destruct (Dec_Mul_near (p * A) (q * B)) as (r & Hr & Hn).
  { rw Z.abs_eq; [|lia]. apply (Z.le_lt_trans _ (2 * 2 ^ 300)); [lia|done]. }
  rw Hr MinDecimal_ok; [|done]. rw !outcome_bind_ok. fold A.
  pose proof Precision_gt_2. assert (0 ≤ r).
  { assert (- 1 < r); [|lia]. apply (Z.mul_lt_mono_pos_r Precision); lia. }
  assert (r * D ≤ 2 ^ 240 + 2 ^ 60) as HrD.
  { eapply (quote_amount_bound Precision A D B r p q); try done; try lia.
    change (2 ^ 240) with (2 ^ 120 * 2 ^ 120). rw -Z.mul_assoc. apply Z.mul_le_mono_nonneg; lia. }
  destruct (Z.ltb_spec r A); [split; [done|discriminate]|].
  rw DecToUint_ok; [|done|done|apply (Z.le_lt_trans _ (2 ^ 240 + 2 ^ 60)); [done|done]]. fold A.
  split; [discriminate|]. intros v [= <-]. split; [apply Z.div_pos; lia|].
  apply (Z.le_lt_trans _ r); [apply Z.div_le_upper_bound; nia|].
  apply (Z.le_lt_trans _ (2 ^ 240 + 2 ^ 60)); [nia|done].
Qed.

(** The orders whose amounts can always be computed: supported currencies, a price
    below [2^120], a quantity up to [2^60]. *)
Record tradable (o : Order) : Prop := {
  tr_market : 0 ≤ me_ID (o_Market o) < 2 ^ 64;
  tr_base : decimals_ok (me_BaseCurrency (o_Market o)) ∧ ValidateDenom (markets.BaseDenom (o_Market o)) = true;
  tr_quote : decimals_ok (me_QuoteCurrency (o_Market o)) ∧ ValidateDenom (markets.QuoteDenom (o_Market o)) = true;
  tr_price : 0 < o_Price o < 2 ^ 120;
  tr_quantity : 0 < o_Quantity o ≤ 2 ^ 60;
  tr_direction : o_Direction o = Bid ∨ o_Direction o = Ask;
}.

(** A fill of a part of such an order at such a price. *)
Record computable (f : OrderFill) : Prop := {
  cf_order : tradable (f_Order f);
  cf_price : 0 ≤ f_ClearancePrice f < 2 ^ 120;
  cf_filled : 0 ≤ f_QuantityFilled f ≤ o_Quantity (f_Order f);
}.

Lemma small_coin d v : ValidateDenom d = true → 0 ≤ v < 2 ^ 254 →
  (coinQuantity ← NewIntFromBigInt v; NewCoin d coinQuantity) = Ok (MkCoin d v).
Proof.
  intros Hd Hv. rw NewIntFromBigInt_ok; [|assert (2 ^ 254 < maxInt) by done; lia]. rw outcome_bind_ok.
  by rw NewCoin_ok; [|done|lia].
Qed.

Lemma FillCoin_total f : computable f → FillCoin f ≠ Panic.
Proof.
  intros [[_ [Hb Hbd] [Hq Hqd] _ Hqty _] Hp Hf]. unfold FillCoin. case_bool_decide; [|case_bool_decide; [|done]].
  - rw small_coin; [done|done|]. assert (2 ^ 60 < 2 ^ 254) by done. lia.
  - destruct (BaseToQuote_total (o_Market (f_Order f)) (f_ClearancePrice f) (f_QuantityFilled f)) as [Hnp Hv]; [done|done|lia|lia|].
    destruct (markets.BaseToQuoteQuantity _ _ _) as [v| |]; [|done..]. rw outcome_bind_ok.
    by rw small_coin; [|done|by apply Hv].
Qed.

Lemma RefundCoin_total f : computable f → RefundCoin f ≠ Panic.
Proof.
  intros [[_ [Hb Hbd] [Hq Hqd] Hpr Hqty _] Hp Hf]. unfold RefundCoin. case_bool_decide; [|by case_bool_decide].
  destruct (Z.ltb_spec (f_ClearancePrice f) (o_Price (f_Order f))); [|done].
  assert (2 ^ 120 < maxUint) by done. rw Uint_Sub_ok; [|lia..]. rw outcome_bind_ok.
  destruct (BaseToQuote_total (o_Market (f_Order f)) (o_Price (f_Order f) - f_ClearancePrice f) (f_QuantityFilled f))
    as [Hnp Hv]; [done|done|lia|lia|].
  destruct (markets.BaseToQuoteQuantity _ _ _) as [v| |]; [|done..]. specialize (Hv v eq_refl).
  rw NewIntFromBigInt_ok; [|assert (2 ^ 254 < maxInt) by done; lia]. rw outcome_bind_ok.
  by rw NewCoin_ok; [|done|lia].
Qed.

(** Such a fill settles its order as it should. *)
Lemma computable_settles now f : computable f → fill_settles now f (paid f) (after_fill now f).
Proof.
  intros Hf. pose proof (FillCoin_total f Hf). pose proof (RefundCoin_total f Hf).
  destruct Hf as [[_ [[Hb _] _] [[Hq _] _] Hpr Hqty _] Hp Hfl]. apply fill_settled; [by split| |done|done].
  split; [lia|]. split; [lia|]. assert (2 ^ 120 < maxUint) by done. lia.
Qed.
End amounts.

(** ** Executing fills succeeds *)
Section execution.
Context `{SdkTypesLaws} `{KVStoreLaws} `{LedgerLaws} `{CI : !Codec Z} `{CO : !Codec Order}.
Variable ordersPerms : ModulePermissions.
Import orders.
Implicit Types (c : Ctx) (f : OrderFill).
Notation orders_store c := (ctx_stores c StoreKey).

Lemma add_coins_run owner cn caller c :
  ValidateDenom (coin_Denom cn) = true → 0 ≤ coin_Amount cn →
  balance (ctx_bank c) owner (coin_Denom cn) + coin_Amount cn < maxInt →
  ∃ c', add_coins owner cn caller c = (Ok tt, c').
Proof.
  intros Hd Ha Hcap. unfold add_coins. destruct (NewCoins_coin cn Hd Ha) as (cs & Hcs & _ & Hpos).
  rw (M_bind_Ok _ _ _ _ _ _ (lift_Ok _ _ _ _ Hcs)).
  assert (∃ l', AddCoins (ctx_bank c) owner cs = Ok l') as [l' Hl'].
  { destruct (decide (0 < coin_Amount cn)) as [Hp|Hp].
    - rw (Hpos Hp). apply AddCoins_ok; [|done]. by apply Forall_singleton.
    - rw NewCoins_zero in Hcs; [|done|lia]. injection Hcs as <-. by apply AddCoins_ok; [constructor|simpl; lia]. }
  unfold attempt, bank_call, mbind, M_bind. rw Hl'. by eexists.
Qed.

(** One fill that is computable and whose payment fits the owner's balances. *)
Lemma ExecuteOrderFill_run f caller c :
  computable f → 0 ≤ o_ID (f_Order f) < 2 ^ 64 →
  (∀ d, balance (ctx_bank c) (o_Owner (f_Order f)) d + paid f d < maxInt) →
  ∃ c', ExecuteOrderFill f caller c = (Ok tt, c').
Proof.
  intros Hf Hid Hcap. pose proof (FillCoin_total f Hf) as Hfc. pose proof (RefundCoin_total f Hf) as Hrc.
  unfold ExecuteOrderFill, paid in *. destruct (FillCoin f) as [fc|e|] eqn:Ef; [|by eexists|done].
  destruct (FillCoin_inv f fc Ef) as [Hd Ha].
  assert (∀ b rc d, RefundCoin f = Ok (b, rc) → 0 ≤ match b, rc with true, Some r => coin_amount r d | _, _ => 0 end) as Hrpos.
  { intros [] [r|] d Er; try done. apply RefundCoin_inv in Er as [_ Hr]. unfold coin_amount. case_decide; lia. }
  destruct (add_coins_run (o_Owner (f_Order f)) fc caller c Hd Ha) as [c1 Hadd].
  { specialize (Hcap (coin_Denom fc)). unfold coin_amount at 1 in Hcap. rw decide_True in Hcap; [|done].
    destruct (RefundCoin f) as [[b rc]|e|] eqn:Er; [|lia|done]. specialize (Hrpos b rc (coin_Denom fc) eq_refl).
    destruct b, rc; lia. }
  rw (M_bind_Ok _ _ _ _ _ _ Hadd). apply add_coins_inv in Hadd as (l1 & -> & Hl1); [|done..].
  destruct (RefundCoin f) as [[b rc]|e|] eqn:Er; [|by eexists|done].
  assert (∃ c2, (if b then match rc with Some r => add_coins (o_Owner (f_Order f)) r | None => mret tt end else mret tt)
    caller (set_bank c l1) = (Ok tt, c2)) as [c2 Href].
  { destruct b; [destruct rc as [r|]|]; try by eexists. destruct (RefundCoin_inv f true r Er) as [Hd' Ha'].
    apply add_coins_run; [done..|]. specialize (Hcap (coin_Denom r)). simpl ctx_bank. rw Hl1 decide_True; [|done].
    unfold coin_amount in Hcap at 2. rw decide_True in Hcap; [lia|done]. }
  rw (M_bind_Ok _ _ _ _ _ _ Href). destruct (f_QuantityUnfilled f =? 0).
  - unfold del. rw GetOrderKey_ok; [|done]. by eexists.
  - unfold mbind, M_bind, BlockTime, set. simpl. rw GetOrderKey_ok; [|done]. by eexists.
Qed.

Lemma ExecuteOrderFill_all_run fills caller c :
  (∀ f, f ∈ fills → computable f ∧ 0 ≤ o_ID (f_Order f) < 2 ^ 64) →
  (∀ x d, balance (ctx_bank c) x d + sumZ (λ f, if decide (x = o_Owner (f_Order f)) then paid f d else 0) fills < maxInt) →
  ∃ c', forM fills ExecuteOrderFill caller c = (Ok tt, c').
Proof.
  revert c. induction fills as [|f fills IH]; intros c Hf Hcap; [by eexists|].
  destruct (Hf f) as [Hc Hid]; [left|].
  assert (∀ x d, 0 ≤ sumZ (λ f, if decide (x = o_Owner (f_Order f)) then paid f d else 0) fills) as Hpos.
  { intros x d. apply sumZ_nonneg. intros g _. case_decide; [apply paid_nonneg|done]. }
  destruct (ExecuteOrderFill_run f caller c) as [c1 Hrun]; [done..| |].
  { intros d. specialize (Hcap (o_Owner (f_Order f)) d). specialize (Hpos (o_Owner (f_Order f)) d).
    rw sumZ_cons decide_True in Hcap; [|done]. lia. }
  cbn [forM]. rw (M_bind_Ok _ _ _ _ _ _ Hrun). apply ExecuteOrderFill_inv in Hrun as (_ & Hb & _); [|done].
  apply IH; [by intros g Hg; apply Hf; right|]. intros x d. specialize (Hcap x d). rw sumZ_cons in Hcap.
  rw (Hb x d). lia.
Qed.
End execution.

(** ** The books of the markets *)

(** The orders of market [mid], split by direction. *)
Definition book_of (os : list Order) (mid : ID) : Matcher := MkMatcher mid
  (filter (λ o, o_Direction o = orders.Bid ∧ me_ID (o_Market o) = mid) os)
  (filter (λ o, o_Direction o = orders.Ask ∧ me_ID (o_Market o) = mid) os).

Lemma filter_disjoint {A} (P Q : A → Prop) `{∀ x, Decision (P x)} `{∀ x, Decision (Q x)} (l : list A) :
  (∀ x, P x → ¬ Q x) → filter P l ++ filter Q l ⊆+ l.
Proof.
  intros HPQ. induction l as [|x l IH]; [done|]. rw !filter_cons. destruct (decide (P x)).
  - rw decide_False; [|by apply HPQ]. by apply submseteq_skip.
  - destruct (decide (Q x)); [|by apply submseteq_cons]. rw -Permutation_middle. by apply submseteq_skip.
Qed.

Lemma book_of_submseteq os mid : m_bid (book_of os mid) ++ m_ask (book_of os mid) ⊆+ os.
Proof. apply filter_disjoint. intros o [E _] [E' _]. by rw E in E'. Qed.

Lemma book_of_elem os mid o :
  o ∈ m_bid (book_of os mid) ++ m_ask (book_of os mid) ↔
  o ∈ os ∧ me_ID (o_Market o) = mid ∧ (o_Direction o = orders.Bid ∨ o_Direction o = orders.Ask).
Proof. rw elem_of_app !list_elem_of_filter. naive_solver. Qed.

Lemma length_volume l : (∀ o, o ∈ l → 0 < o_Quantity o) → Z.of_nat (length l) ≤ volume l.
Proof.
  unfold volume. induction l as [|o l IH]; intros Hl; [done|]. rw sumZ_cons. specialize (Hl o (list_elem_of_here _ _)) as Ho.
  assert (∀ o, o ∈ l → 0 < o_Quantity o) as Hl' by (intros x Hx; apply Hl; by right). specialize (IH Hl').
  rw length_cons. lia.
Qed.

Section pool.
Context `{SdkTypesLaws}.
Implicit Types (os : list Order) (mp : MatcherPool).

(** The pool after the orders [os] were added. *)
Definition pool_of os : MatcherPool :=
  list_to_map ((λ o, (ID_String (me_ID (o_Market o)), book_of os (me_ID (o_Market o)))) <$> os).

Definition pool_holds mp os : Prop := ∀ key m,
  mp !! key = Some m ↔ ∃ o, o ∈ os ∧ key = ID_String (me_ID (o_Market o)) ∧ m = book_of os (me_ID (o_Market o)).

Definition supported os : Prop := (∀ o, o ∈ os → tradable o) ∧
  ∀ mid, 2 * (volume (m_ask (book_of os mid)) + volume (m_bid (book_of os mid))) ≤ Precision.

Lemma supported_prefix os os' : supported (os ++ os') → supported os.
Proof.
  intros [Ht Hv]. split; [intros o Ho; apply Ht, elem_of_app; by left|]. intros mid. specialize (Hv mid).
  unfold book_of in *. simpl in *. rw !filter_app !volume_app in Hv.
  assert (∀ l, (∀ o, o ∈ l → o ∈ os') → 0 ≤ volume l) as Hpos.
  { intros l Hl. apply sumZ_nonneg. intros o Ho. assert (tradable o) as Hto by (apply Ht, elem_of_app; right; by apply Hl).
    destruct Hto. lia. }
  pose proof (Hpos (filter (λ o, o_Direction o = orders.Ask ∧ me_ID (o_Market o) = mid) os')
    ltac:(intros o Ho; by apply list_elem_of_filter in Ho as [_ ?])).
  pose proof (Hpos (filter (λ o, o_Direction o = orders.Bid ∧ me_ID (o_Market o) = mid) os')
    ltac:(intros o Ho; by apply list_elem_of_filter in Ho as [_ ?])). lia.
Qed.

Lemma market_string_inj os o o' : (∀ o, o ∈ os → tradable o) → o ∈ os → o' ∈ os →
  ID_String (me_ID (o_Market o)) = ID_String (me_ID (o_Market o')) → me_ID (o_Market o) = me_ID (o_Market o').
Proof. intros Ht Ho Ho' E. apply Uint_String_inj in E; [done|apply (Ht o Ho)|apply (Ht o' Ho')]. Qed.

(** A supported book is one the matcher accepts. *)
Lemma book_of_ok os mid : supported os → matcher_ok (book_of os mid).
Proof.
  intros [Ht Hv]. specialize (Hv mid). pose proof (λ o Ho, Ht o (proj1 (proj1 (book_of_elem os mid o) Ho))) as Htb.
  assert (∀ l, (∀ o, o ∈ l → o ∈ m_bid (book_of os mid) ++ m_ask (book_of os mid)) → 0 ≤ volume l) as Hpos.
  { intros l Hl. apply sumZ_nonneg. intros o Ho. destruct (Htb o (Hl o Ho)). lia. }
  pose proof (Hpos (m_bid (book_of os mid)) ltac:(intros o Ho; apply elem_of_app; by left)).
  pose proof (Hpos (m_ask (book_of os mid)) ltac:(intros o Ho; apply elem_of_app; by right)).
  assert (Precision < maxUint) by done. assert (2 ^ 120 < 2 ^ 255) by done.
  split_and!; [split; [|lia]|split; [|lia]| | |done].
  - intros o Ho. destruct (Htb o); [apply elem_of_app; by right|lia].
  - intros o Ho. destruct (Htb o); [apply elem_of_app; by left|lia].
  - intros o Ho. destruct (Htb o); [apply elem_of_app; by right|lia].
  - intros o Ho. destruct (Htb o); [apply elem_of_app; by left|lia].
Qed.

Lemma book_of_snoc_other os o mid : me_ID (o_Market o) ≠ mid → book_of (os ++ [o]) mid = book_of os mid.
Proof.
  intros Hne. unfold book_of. rw !filter_app !(filter_none _ [o]) ?app_nil_r; [done|..];
    by intros x ->%list_elem_of_singleton [_ ?].
Qed.

Lemma book_of_none os mid : (∀ o, o ∈ os → me_ID (o_Market o) ≠ mid) → book_of os mid = NewMatcher mid.
Proof. intros Hn. unfold book_of, NewMatcher. rw !filter_none; [done|..]; intros o Ho [_ E]; by apply (Hn o). Qed.

Lemma Matcher_AddOrder_book os o : supported (os ++ [o]) →
  Matcher_AddOrder (book_of os (me_ID (o_Market o))) o = Ok (book_of (os ++ [o]) (me_ID (o_Market o))).
Proof.
  intros Hs. assert (tradable o) as [_ _ _ Hp Hq Hd] by (apply Hs, elem_of_app; right; left).
  pose proof (book_of_ok os (me_ID (o_Market o)) (supported_prefix _ _ Hs)) as (HA & HB & _ & _ & Hv).
  assert (∀ l, book_side_ok l → volume l < MaxInt → (Z.of_nat (length l) =? MaxInt) = false) as Hlen.
  { intros l [Hl _] Hvl. apply Z.eqb_neq. pose proof (length_volume l (λ o Ho, proj2 (Hl o Ho))). lia. }
  assert (∀ l, book_side_ok l → 0 ≤ volume l) as Hpos.
  { intros l [Hl _]. apply sumZ_nonneg. intros x Hx. destruct (Hl x Hx). lia. }
  pose proof (Hpos _ HA). pose proof (Hpos _ HB). assert (Precision < 2 * MaxInt) by done.
  unfold Matcher_AddOrder. rw !Hlen; [|done|lia|done|lia]. simpl m_marketID. unfold ID_Equal. rw Z.eqb_refl. simpl negb.
  rw (proj2 (Z.eqb_neq (o_Price o) 0)); [|lia]. rw (proj2 (Z.eqb_neq (o_Quantity o) 0)); [|lia]. simpl.
  unfold book_of. rw !filter_app. destruct Hd as [E|E]; rw E; simpl; do 2 f_equal.
  - by rw filter_cons_True; [|split; first [exact E|reflexivity]].
  - rw (filter_none _ [o]); [by rw app_nil_r|]. intros x ->%list_elem_of_singleton. rw E. by intros [? _].
  - rw (filter_none _ [o]); [by rw app_nil_r|]. intros x ->%list_elem_of_singleton. rw E. by intros [? _].
  - by rw filter_cons_True; [|split; first [exact E|reflexivity]].
Qed.

Lemma pool_add mp os o : pool_holds mp os → supported (os ++ [o]) →
  ∃ mp', MatcherPool_AddOrder mp o = Ok mp' ∧ pool_holds mp' (os ++ [o]).
Proof.
  intros Hmp Hs. pose proof Hs as [Ht _]. set (mid := me_ID (o_Market o)).
  assert (o ∈ os ++ [o]) as Ho by (apply elem_of_app; right; left).
  assert (∀ o', o' ∈ os → o' ∈ os ++ [o]) as Hin by (intros o' ?; apply elem_of_app; by left).
  assert (default (NewMatcher mid) (mp !! ID_String mid) = book_of os mid) as Hdef.
  { destruct (mp !! ID_String mid) as [m|] eqn:Hm; simpl.
    - apply Hmp in Hm as (o' & Ho' & E & ->). by rw (market_string_inj _ o' o Ht (Hin _ Ho') Ho (eq_sym E)).
    - symmetry. apply book_of_none. intros o' Ho' E. assert (mp !! ID_String mid = Some (book_of os mid)) as Hsome; [|by rw Hm in Hsome].
      apply Hmp. exists o'. by rw E. }
  eexists. split; [unfold MatcherPool_AddOrder; fold mid; rw Hdef; by rw Matcher_AddOrder_book|]. fold mid.
  intros key m. rw lookup_insert. case_decide as E.
  - subst key. split.
    + intros [= <-]. by exists o.
    + intros (o' & Ho' & E & ->). by rw (market_string_inj _ o' o Ht Ho' Ho (eq_sym E)).
  - rw Hmp. split.
    + intros (o' & Ho' & -> & ->). exists o'. split; [by apply Hin|]. split; [done|]. symmetry. apply book_of_snoc_other.
      intros E'. apply E. unfold mid. by rw E'.
    + intros (o' & [Ho'|Ho'%list_elem_of_singleton]%elem_of_app & -> & ->); [|by subst]. exists o'. split; [done|].
      split; [done|]. apply book_of_snoc_other. intros E'. apply E. unfold mid. by rw E'.
Qed.

Lemma pool_of_holds os : (∀ o, o ∈ os → tradable o) → pool_holds (pool_of os) os.
Proof.
  intros Ht key m. unfold pool_of. rw -elem_of_list_to_map'.
  - rw list_elem_of_fmap. split; [intros (o & [= -> ->] & Ho); by exists o|intros (o & Ho & -> & ->); by exists o].
  - intros m' (o & [= -> ->] & Ho)%list_elem_of_fmap (o' & [= E ->] & Ho')%list_elem_of_fmap.
    by rw (market_string_inj os o o').
Qed.

Lemma pool_holds_eq mp os : (∀ o, o ∈ os → tradable o) → pool_holds mp os → mp = pool_of os.
Proof.
  intros Ht Hmp. apply map_eq. intros key. apply option_eq. intros m. rw Hmp. symmetry. by apply pool_of_holds.
Qed.

(** The matchers of the pool, in any order: one per market that has an order. *)
Lemma range_of_elem os matchers m : (∀ o, o ∈ os → tradable o) → range_of (pool_of os) matchers →
  m ∈ matchers ↔ ∃ o, o ∈ os ∧ m = book_of os (me_ID (o_Market o)).
Proof.
  intros Ht Hr. rw Hr list_elem_of_fmap. split.
  - intros ([key m'] & -> & Hin%elem_of_map_to_list). apply pool_of_holds in Hin as (o & ? & _ & ?); [|done]. by exists o.
  - intros (o & Ho & ->). exists (ID_String (me_ID (o_Market o)), book_of os (me_ID (o_Market o))). split; [done|].
    apply elem_of_map_to_list, pool_of_holds; [done|]. by exists o.
Qed.

Lemma range_of_NoDup os matchers : (∀ o, o ∈ os → tradable o) → range_of (pool_of os) matchers →
  NoDup (m_marketID <$> matchers).
Proof.
  intros Ht Hr. rw Hr. apply (NoDup_fmap_1 ID_String). rw -list_fmap_compose -list_fmap_compose.
  rw (list_fmap_ext (ID_String ∘ m_marketID ∘ snd) fst (map_to_list (pool_of os))); [apply NoDup_fst_map_to_list|].
  intros i [key m] Hi. apply list_elem_of_lookup_2, elem_of_map_to_list, pool_of_holds in Hi as (o & _ & -> & ->); done.
Qed.
End pool.

(** ** The matches of supported books *)
Section matches.
Context `{SdkTypesLaws} `{GoSortLaws}.
Implicit Types (os : list Order) (m : Matcher) (r : MatcherResult).

(** What the end blocker relies on of a result: fills of its own market's orders,
    each at most once, whose coins can be computed, and a history item. *)
Record sound_result os r : Prop := {
  sr_market : 0 ≤ mr_MarketID r < 2 ^ 64;
  sr_fills : (f_Order <$> mr_OrderFills r) ⊆+ os;
  sr_fill f : f ∈ mr_OrderFills r → computable f ∧ me_ID (o_Market (f_Order f)) = mr_MarketID r ∧
    0 ≤ f_QuantityUnfilled f ≤ o_Quantity (f_Order f);
  sr_item t h : ∃ item, orderbook.NewHistoryItem t h r = Ok item ∧ hi_MarketID item = mr_MarketID r ∧
    hi_BlockHeight item = h ∧ hi_ClearancePrice item = cs_Price (mr_ClearanceState r) ∧
    0 < hi_MatchedBidVolume item ∧ hi_MatchedAskVolume item = hi_MatchedBidVolume item ∧
    sumZ f_QuantityFilled (mr_OrderFills r) = 2 * hi_MatchedBidVolume item;
}.

Lemma side_fill_submseteq E V xs p : side_fill E V xs → f_Order <$> (fill_at p <$> xs) ⊆+ E.
Proof.
  intros [[l ->] _ _ _]. rw -list_fmap_compose. apply submseteq_inserts_r.
  rewrite (list_fmap_ext (f_Order ∘ fill_at p) fst xs); done.
Qed.

Lemma reached_submseteq m p : reached_bids m p ++ reached_asks m p ⊆+ m_bid m ++ m_ask m.
Proof.
  apply submseteq_app; (etrans; [apply sublist_submseteq, sublist_filter|]); apply Permutation_submseteq.
  - by rw reverse_Permutation sorted_bids_perm.
  - apply sorted_asks_perm.
Qed.

Lemma TruncateInt_small z : Z.abs z < 2 ^ 200 → Dec_TruncateInt z = Ok (Z.quot z Precision).
Proof. intros Hz. apply Dec_TruncateInt_ok. assert (2 ^ 200 < Precision * maxInt) by done. lia. Qed.

Lemma book_result os mid r :
  supported os → 0 ≤ mid < 2 ^ 64 → matcher_crossed (book_of os mid) → Match (book_of os mid) = Ok r →
  sound_result os r ∧ mr_MarketID r = mid.
Proof.
  intros Hs Hmid Hx Hm. pose proof (book_of_ok os mid Hs) as Hok.
  destruct (Match_run _ Hok Hx) as (cs & xb & xa & Em & Hp & HV & [_ [Hvb Hva]] & Hb & Ha).
  rw Em in Hm. injection Hm as <-. split; [|done]. set (p := cs_Price cs) in *.
  set (V := Z.min (supply (m_ask (book_of os mid)) p) (demand (m_bid (book_of os mid)) p)) in *.
  assert (V < 2 ^ 60) as HVs.
  { destruct Hok as ([Hpa _] & HB & _ & _ & Hv). pose proof (demand_le_volume _ p HB).
    assert (0 ≤ volume (m_ask (book_of os mid))) by (apply sumZ_nonneg; intros o Ho; destruct (Hpa o Ho); lia).
    assert (Precision < 2 ^ 60) by done. lia. }
  assert ((f_Order <$> ((fill_at p <$> xb) ++ (fill_at p <$> xa))) ⊆+ m_bid (book_of os mid) ++ m_ask (book_of os mid)) as Hsub.
  { rw fmap_app. etrans; [|apply (reached_submseteq _ p)]. apply submseteq_app; by eapply side_fill_submseteq. }
  assert (∃ b, b ∈ m_bid (book_of os mid) ∧ p ≤ o_Price b) as (b & Hbin & Hbp).
  { destruct xb as [|x xb]; [destruct Hb as [_ _ Ht _]; simpl in Ht; lia|].
    destruct (side_fill_elem _ _ _ p (fill_at p x) Hb) as [Hin _]; [left|].
    exists x.1. by apply reached_bids_elem in Hin. }
  assert (tradable b) as [_ _ _ Hbt _ _] by (apply Hs, (book_of_elem os mid b), elem_of_app; by left).
  split; simpl.
  - done.
  - etrans; [exact Hsub|apply book_of_submseteq].
  - intros f Hf. assert (f_Order f ∈ m_bid (book_of os mid) ++ m_ask (book_of os mid)) as Hin.
    { eapply elem_of_submseteq; [|exact Hsub]. by apply list_elem_of_fmap_2. }
    apply book_of_elem in Hin as (Hin & Hmk & _).
    assert (f_ClearancePrice f = p ∧ 0 < f_QuantityFilled f ≤ o_Quantity (f_Order f) ∧
      f_QuantityFilled f + f_QuantityUnfilled f = o_Quantity (f_Order f)) as (Hfp & Hfq & Hfu).
    { apply elem_of_app in Hf as [Hf|Hf]; [by apply (side_fill_elem _ _ _ _ _ Hb) in Hf as [_ ?]|by apply (side_fill_elem _ _ _ _ _ Ha) in Hf as [_ ?]]. }
    split; [|split; [done|lia]]. split; [by apply Hs|lia|lia].
  - intros t h. unfold orderbook.NewHistoryItem. simpl. pose proof Precision_gt_2.
    assert (Z.abs (V * Precision) < 2 ^ 200) as HVP.
    { rw Z.abs_eq; [|lia]. apply (Z.lt_le_trans _ (2 ^ 60 * Precision)); [|by vm_compute]. apply Z.mul_lt_mono_pos_r; lia. }
    rw !TruncateInt_small; [|done..]. simpl. eexists. split; [done|]. simpl.
    rw Z.quot_mul; [|lia]. rw sumZ_app !fills_sum (sf_total _ _ _ Hb) (sf_total _ _ _ Ha). fold V. split_and!; [done..|]. change (V + V = 2 * V). lia.
Qed.

(** All results of a pool: one per market whose book is crossed. *)
Lemma pool_results os matchers :
  supported os → range_of (pool_of os) matchers →
  ∃ rs, Process matchers = Ok rs ∧ (∀ r, r ∈ rs → sound_result os r ∧ Match (book_of os (mr_MarketID r)) = Ok r) ∧
    NoDup (mr_MarketID <$> rs) ∧
    ∀ mid, mid ∈ mr_MarketID <$> rs ↔ matcher_crossed (book_of os mid).
Proof.
  intros Hs Hr. pose proof Hs as [Ht _].
  assert (∀ m, m ∈ matchers → m = book_of os (m_marketID m) ∧ 0 ≤ m_marketID m < 2 ^ 64) as Hbook.
  { intros m Hm. apply (range_of_elem os matchers) in Hm as (o & Ho & ->); [|done..]. split; [done|]. by apply (Ht o). }
  destruct (Process_results matchers) as (rs & Hrs & Hf & Hall).
  { intros m Hm. destruct (Hbook m Hm) as [-> _]. by apply book_of_ok. }
  exists rs. split; [done|].
  assert (∀ m r, m ∈ matchers → matcher_crossed m → Match m = Ok r → sound_result os r ∧ mr_MarketID r = m_marketID m) as Hres.
  { intros m r Hm Hx HM. destruct (Hbook m Hm) as [E Hid]. rw E in Hx, HM. by apply book_result. }
  set (okm := filter _ matchers) in Hf.
  assert (Forall2 (λ m r, (sound_result os r ∧ Match (book_of os (mr_MarketID r)) = Ok r) ∧ mr_MarketID r = m_marketID m ∧
      matcher_crossed m ∧ m ∈ matchers) okm rs) as Hf2.
  { assert (∀ m, m ∈ okm → m ∈ matchers) as Hin by (intros m Hm; by apply list_elem_of_filter in Hm as [_ ?]).
    clear - Hf Hin Hres Hbook. induction Hf as [|m r ms rs [Hx HM] Hf IH]; constructor.
    - assert (m ∈ matchers) as Hm by (apply Hin; left). destruct (Hres m r Hm Hx HM) as [Hsr E]. split; [|done].
      split; [done|]. rw E. by destruct (Hbook m Hm) as [<- _].
    - apply IH. intros m' Hm'. apply Hin. by right. }
  assert (mr_MarketID <$> rs = m_marketID <$> okm) as Eids.
  { clear - Hf2. induction Hf2 as [|m r ms rs (_ & E & _) _ IH]; [done|]. rw !fmap_cons. by rw E IH. }
  split; [|split].
  - intros r Hr'. apply list_elem_of_lookup in Hr' as [i Hi]. destruct (Forall2_lookup_r _ _ _ _ _ Hf2 Hi) as (m & _ & ? & _). done.
  - rw Eids. eapply sublist_NoDup; [by apply (range_of_NoDup os matchers)|]. apply fmap_sublist, sublist_filter.
  - intros mid. split.
    + intros (r & -> & Hr')%list_elem_of_fmap. apply list_elem_of_lookup in Hr' as [i Hi].
      destruct (Forall2_lookup_r _ _ _ _ _ Hf2 Hi) as (m & _ & _ & E & Hx & Hm). rw E. by destruct (Hbook m Hm) as [<- _].
    + intros Hx. pose proof Hx as (a & b & Ha & _). simpl in Ha. apply list_elem_of_filter in Ha as [[_ Ema] Ha].
      assert (book_of os mid ∈ matchers) as Hm by (apply (range_of_elem os); [done..|]; exists a; by rw Ema).
      destruct (Hall _ Hm Hx) as (r & Hrin & HM). destruct (Hres _ r Hm Hx HM) as [_ E]. simpl in E. rw -E.
      by apply list_elem_of_fmap_2.
Qed.
End matches.

(** ** The end blocker *)
Section block.
Context `{SdkTypesLaws} `{KVStoreLaws} `{LedgerLaws} `{GoSortLaws}.
Context `{CI : !Codec Z} `{CO : !Codec Order} `{CH : !Codec HistoryItem}.
Variable modulePerms ordersPerms : ModulePermissions.
Hypothesis own_perms : mp_name modulePerms = orderbook.ModuleName.
Hypothesis may_read : Check ordersPerms orderbook.ModuleName orders.PermRead = Ok tt.
Hypothesis may_fill : Check ordersPerms orderbook.ModuleName orders.PermExecFill = Ok tt.
Variable range : MatcherPool → list Matcher.
Hypothesis range_any : ∀ mp, range_of mp (range mp).
Import orderbook.
Implicit Types (c : Ctx) (os : list Order) (r : MatcherResult).
Notation orders_store c := (ctx_stores c orders.StoreKey).
Notation history_store c := (ctx_stores c StoreKey).
Notation fill_id := (λ f, o_ID (f_Order f)).
Notation owed x d := (λ f, if decide (x = o_Owner (f_Order f)) then paid f d else 0).

Lemma stored_orders_NoDup s : entries_wf s → NoDup (o_ID <$> stored_orders s).
Proof.
  intros Hent. pose proof (stored_orders_sorted s Hent) as Hs. induction Hs as [|o l Hs IH Ho]; [constructor|].
  rw fmap_cons. constructor; [|done]. intros (o' & E & Hin)%list_elem_of_fmap.
  rewrite Forall_forall in Ho. specialize (Ho o' Hin). simpl in Ho. lia.
Qed.

(** Different results fill different orders. *)
Lemma results_NoDup os rs :
  NoDup (o_ID <$> os) → (∀ r, r ∈ rs → sound_result os r) → NoDup (mr_MarketID <$> rs) →
  NoDup (fill_id <$> (rs ≫= mr_OrderFills)).
Proof.
  intros Hos Hrs. induction rs as [|r rs IH]; intros Hnd; [constructor|]. rw fmap_cons in Hnd.
  apply NoDup_cons in Hnd as [Hnin Hnd]. rw bind_cons fmap_app. apply NoDup_app. split; [|split].
  - assert (fill_id <$> mr_OrderFills r = o_ID <$> (f_Order <$> mr_OrderFills r)) as -> by (by rw -list_fmap_compose).
    destruct (proj1 (submseteq_sublist_l _ _) (sr_fills os r (Hrs r (list_elem_of_here _ _)))) as (l & Hl & Hp).
    eapply sublist_NoDup; [|apply fmap_sublist, Hl]. by rw Hp.
  - intros id (f & -> & Hf)%list_elem_of_fmap (g & E & Hg)%list_elem_of_fmap. apply list_elem_of_bind in Hg as (r' & Hg & Hr').
    assert (∀ q h, q ∈ r :: rs → h ∈ mr_OrderFills q → f_Order h ∈ os ∧ me_ID (o_Market (f_Order h)) = mr_MarketID q) as Hin.
    { intros q h Hq Hh. specialize (Hrs q Hq). split; [|by apply (sr_fill os q Hrs)].
      eapply elem_of_submseteq; [|exact (sr_fills os q Hrs)]. by apply list_elem_of_fmap_2. }
    destruct (Hin r f) as [Hfo Hfm]; [left|done|]. destruct (Hin r' g) as [Hgo Hgm]; [by right|done|].
    assert (f_Order f = f_Order g) as Efg.
    { apply list_elem_of_lookup in Hfo as [i Hi]. apply list_elem_of_lookup in Hgo as [j Hj].
      assert (i = j) as <-; [|congruence]. eapply (NoDup_lookup (o_ID <$> os)); [done|by rw list_lookup_fmap Hi|].
      rw list_lookup_fmap Hj. simpl. by rw E. }
    apply Hnin. rw -Hfm Efg Hgm. by apply list_elem_of_fmap_2.
  - apply IH; [|done]. intros q Hq. apply Hrs. by right.
Qed.

Lemma collect_orders_run kvs os os' mp caller c :
  Forall2 (λ kv o, Unmarshal LengthPrefixed kv.2 = Some o) kvs os' → pool_holds mp os → supported (os ++ os') →
  collect_orders mp kvs caller c = (Ok (pool_of (os ++ os')), c).
Proof.
  intros Hd. revert os mp. induction Hd as [|kv o kvs os' Hu Hd IH]; intros os mp Hmp Hs.
  { rw app_nil_r in Hs. rw app_nil_r. simpl. by rw (pool_holds_eq mp os (proj1 Hs) Hmp). }
  rw (cons_middle o os os') (app_assoc os) in Hs. rw (cons_middle o os os') (app_assoc os).
  destruct (pool_add mp os o Hmp (supported_prefix _ _ Hs)) as (mp' & Hadd & Hmp').
  cbn [collect_orders]. rw (M_bind_Ok _ _ _ _ mp' c); [by apply IH|].
  unfold collect_order, MustUnmarshal. rw Hu. unfold mbind, M_bind. simpl. by rw Hadd.
Qed.

Lemma collect_stored c : entries_wf (orders_store c) → supported (stored_orders (orders_store c)) →
  (kvs ← GetOrderIterator modulePerms ordersPerms; collect_orders NewMatcherPool kvs) ModuleName c =
  (Ok (pool_of (stored_orders (orders_store c))), c).
Proof.
  intros Hent Hs. set (kvs := KVStorePrefixIterator (orders_store c) orders.OrderKeyPrefix).
  rw (M_bind_Ok _ _ _ _ kvs c).
  2:{ unfold GetOrderIterator. rw -{1}own_perms keeper_method_self own_perms. unfold orders.GetIterator.
      by rw keeper_method_granted. }
  rewrite (collect_orders_run kvs [] (stored_orders (orders_store c))); [done| | |done].
  - unfold stored_orders. fold kvs. assert (∀ k v, (k, v) ∈ kvs → ∃ o : Order, Unmarshal LengthPrefixed v = Some o) as Hdec.
    { intros k v [Hg Hp]%at_prefix_elem; [|done]. destruct (Hent k v Hg Hp) as (o & _ & _ & ->). exists o. by rw Unmarshal_Marshal. }
    clearbody kvs. induction kvs as [|[k v] kvs IH]; [constructor|]. destruct (Hdec k v) as [o Ho]; [left|].
    cbn [omap list_omap]. simpl snd. rw Ho. constructor; [done|]. apply IH. intros k' v' Hin. apply (Hdec k'). by right.
  - intros key m. rw lookup_empty. split; [done|]. by intros (o & ?%elem_of_nil & _).
Qed.

(** What the end blocker has done, in terms of the results it executed. *)
Record block_effect rs c c' : Prop := {
  be_filled f : f ∈ rs ≫= mr_OrderFills → order_at (orders_store c') (fill_id f) = after_fill (ctx_time c) f;
  be_settles f : f ∈ rs ≫= mr_OrderFills → fill_settles (ctx_time c) f (paid f) (after_fill (ctx_time c) f);
  be_others id : 0 ≤ id < 2 ^ 64 → id ∉ fill_id <$> (rs ≫= mr_OrderFills) →
    order_at (orders_store c') id = order_at (orders_store c) id;
  be_bank x d : balance (ctx_bank c') x d = balance (ctx_bank c) x d + sumZ (owed x d) (rs ≫= mr_OrderFills);
  be_wf : orders_wf (orders_store c');
  be_solvent : solvent c';
  be_history r : r ∈ rs → ∃ item, NewHistoryItem (ctx_time c) (ctx_height c) r = Ok item ∧ item_stored (history_store c') item ∧
    hi_MatchedAskVolume item = hi_MatchedBidVolume item ∧
    sumZ f_QuantityFilled (mr_OrderFills r) = 2 * hi_MatchedBidVolume item;
  be_history_other k : k ∉ (λ r, history_key (mr_MarketID r) (ctx_height c)) <$> rs →
    store_Get (history_store c') k = store_Get (history_store c) k;
}.

Lemma ExecuteOrderFill_writes f : writes [orders.StoreKey] (orders.ExecuteOrderFill f).
Proof.
  assert (∀ x cn, writes [orders.StoreKey] (orders.add_coins x cn)) as Hadd.
  { intros x cn. unfold orders.add_coins. apply writes_bind; [by apply writes_reads|]. intros cs.
    apply writes_bind; [auto with writes|]. by intros []. }
  unfold orders.ExecuteOrderFill. destruct (orders.FillCoin f) as [fc| |]; [|done..]. apply writes_bind; [done|]. intros _.
  destruct (orders.RefundCoin f) as [[b rc]| |]; [|done..]. apply writes_bind; [destruct b; [destruct rc|]; done|]. intros _.
  unfold orders.del, orders.set. apply writes_if; auto 10 with writes reads.
  - apply writes_bind; [|done]. apply writes_bind; [by apply writes_reads|]. auto with writes.
  - apply writes_bind; [by apply writes_reads|]. intros now. apply writes_bind; [|done].
    apply writes_bind; [by apply writes_reads|]. auto with writes.
Qed.

(** The fills of one result, executed as the order book. *)
Lemma ProcessOrderFills_run fills c :
  orders_wf (orders_store c) → solvent c → (∀ f, f ∈ fills → fill_ok (orders_store c) f ∧ computable f) →
  NoDup (fill_id <$> fills) → (∀ x d, balance (ctx_bank c) x d + sumZ (owed x d) fills < maxInt) →
  ∃ c', ProcessOrderFills modulePerms ordersPerms fills (mp_name modulePerms) c = (Ok tt, c') ∧
    (∀ f, f ∈ fills → order_at (orders_store c') (fill_id f) = after_fill (ctx_time c) f) ∧
    (∀ id, 0 ≤ id < 2 ^ 64 → id ∉ fill_id <$> fills → order_at (orders_store c') id = order_at (orders_store c) id) ∧
    (∀ x d, balance (ctx_bank c') x d = balance (ctx_bank c) x d + sumZ (owed x d) fills) ∧
    orders_wf (orders_store c') ∧ solvent c' ∧ frame [orders.StoreKey] c c'.
Proof.
  intros Hwf Hsol Hf Hnd Hcap.
  destruct (ExecuteOrderFill_all_run fills (mp_name ordersPerms) c) as [c1 Hrun]; [|done|].
  { intros f Hin. destruct (Hf f Hin) as [(_ & ? & _) ?]. done. }
  pose proof (λ f Hin, proj1 (Hf f Hin)) as Hfok.
  destruct (ExecuteOrderFill_all fills _ c _ c1 Hwf Hsol Hfok Hnd Hrun) as (K1 & K2 & K3 & K4 & K5).
  assert (frame [orders.StoreKey] c c1) as Hfr.
  { eapply writes_run; [|exact Hrun]. apply writes_forM, ExecuteOrderFill_writes. }
  assert (∃ c', ProcessOrderFills modulePerms ordersPerms fills (mp_name modulePerms) c = (Ok tt, c') ∧
    ctx_stores c' = ctx_stores c1 ∧ ctx_bank c' = ctx_bank c1 ∧ ctx_time c' = ctx_time c1 ∧ ctx_height c' = ctx_height c1)
    as (c' & Hrun' & Es & Eb & Et & Eh).
  { unfold ProcessOrderFills. rw keeper_method_self own_perms. unfold orders.ExecuteOrderFills.
    rw keeper_method_granted; [|done]. rw (M_bind_Ok _ _ _ _ _ _ Hrun). destruct (0 <? length fills)%nat; by eexists. }
  exists c'. unfold solvent, frame. rw Es Eb Et Eh. done.
Qed.

Lemma execute_result_run os r c :
  sound_result os r → orders_wf (orders_store c) → solvent c →
  (∀ f, f ∈ mr_OrderFills r → order_at (orders_store c) (fill_id f) = Some (f_Order f) ∧ 0 ≤ fill_id f < 2 ^ 64) →
  NoDup (fill_id <$> mr_OrderFills r) →
  (∀ x d, balance (ctx_bank c) x d + sumZ (owed x d) (mr_OrderFills r) < maxInt) → 0 ≤ ctx_height c < 2 ^ 63 →
  ∃ c', execute_result modulePerms ordersPerms r (mp_name modulePerms) c = (Ok tt, c') ∧ block_effect [r] c c' ∧
    ctx_height c' = ctx_height c ∧ ctx_time c' = ctx_time c.
Proof.
  intros Hr Hwf Hsol Hat Hnd Hcap Hh.
  destruct (ProcessOrderFills_run (mr_OrderFills r) c Hwf Hsol) as (c1 & Hrun & K1 & K2 & K3 & K4 & K5 & Hst & Eh & Et);
    [|done..|].
  { intros f Hf. destruct (Hat f Hf), (sr_fill os r Hr f Hf) as (? & _ & ?). by split. }
  destruct (sr_item os r Hr (ctx_time c) (ctx_height c)) as (item & Hit & Em & Ehi & _ & _ & Hv & Hsum).
  assert (item_ok item) as Hiok by (split; [rw Em; apply Hr|by rw Ehi]).
  eexists. split; [|split; [|split]].
  - unfold execute_result. rw (M_bind_Ok _ _ _ _ _ _ Hrun). rw (M_bind_Ok BlockTime _ _ c1 (ctx_time c) c1); [|by rw -Et].
    rw (M_bind_Ok BlockHeight _ _ c1 (ctx_height c) c1); [|by rw -Eh].
    rw (M_bind_Ok _ _ _ _ _ _ (lift_Ok _ _ _ _ Hit)). rw (M_bind_Ok _ _ _ _ _ _ (SetHistoryItem_run modulePerms item c1 Hiok)).
    reflexivity.
  - assert ([r] ≫= mr_OrderFills = mr_OrderFills r) as E by (simpl; apply app_nil_r).
    split; rw ?E; simpl ctx_stores; simpl ctx_bank; try done.
    + intros f Hf. apply computable_settles. by apply (sr_fill os r Hr f Hf).
    + intros r' ->%list_elem_of_singleton. exists item. split; [done|]. split; [|done]. unfold item_stored.
      by rw store_Get_Set decide_True.
    + intros k Hk. rw store_Get_Set decide_False; [rw Hst; [done|]; by intros ?%list_elem_of_singleton|].
      intros <-. apply Hk. apply list_elem_of_singleton. unfold item_key. by rw Em Ehi.
  - done.
  - done.
Qed.

Lemma block_effect_cons os r rs c c1 c' :
  (∀ q, q ∈ r :: rs → sound_result os q) →
  (∀ f, f ∈ (r :: rs) ≫= mr_OrderFills → 0 ≤ fill_id f < 2 ^ 64) →
  NoDup (mr_MarketID <$> r :: rs) → NoDup (fill_id <$> ((r :: rs) ≫= mr_OrderFills)) → 0 ≤ ctx_height c < 2 ^ 63 →
  ctx_height c1 = ctx_height c → ctx_time c1 = ctx_time c →
  block_effect [r] c c1 → block_effect rs c1 c' → block_effect (r :: rs) c c'.
Proof.
  intros Hs Hid Hm Hnd Hh Eh Et [A1 A0 A2 A3 A4 A5 A6 A7] [B1 B0 B2 B3 B4 B5 B6 B7].
  assert ([r] ≫= mr_OrderFills = mr_OrderFills r) as E by (simpl; apply app_nil_r). rw !E in A1 A0 A2 A3.
  rw bind_cons in Hnd Hid. rw fmap_app in Hnd. apply NoDup_app in Hnd as (_ & Hdis & _).
  rw fmap_cons in Hm. apply NoDup_cons in Hm as [Hmr _].
  split; rw ?bind_cons; try done.
  - intros f [Hf|Hf]%elem_of_app; [|by rw B1 // Et].
    rw B2; [by apply A1|apply Hid, elem_of_app; by left|]. apply Hdis. by apply (list_elem_of_fmap_2 fill_id).
  - intros f [Hf|Hf]%elem_of_app; [by apply A0|]. rw -Et. by apply B0.
  - intros id Hi Hn. rw fmap_app in Hn. apply not_elem_of_app in Hn as [Hn1 Hn2]. by rw B2 ?A2.
  - intros x d. rw B3 A3 sumZ_app. lia.
  - intros q [->|Hq]%elem_of_cons; [|destruct (B6 q Hq) as (item & ? & ?); exists item; by rw -Et -Eh].
    destruct (A6 r) as (item & Hit & Hsto & Hsum); [left|]. exists item. split; [done|]. split; [|done].
    unfold item_stored. rw B7; [done|].
    intros (q & Ek & Hq)%list_elem_of_fmap. apply Hmr.
    destruct (sr_item os r (Hs r (list_elem_of_here _ _)) (ctx_time c) (ctx_height c)) as (item' & Hit' & Em & Ehi & _).
    rw Hit in Hit'. injection Hit' as <-. unfold item_key in Ek. rw Em Ehi Eh in Ek.
    assert (0 ≤ mr_MarketID q < 2 ^ 64) by (apply (sr_market os), Hs; by right).
    assert (0 ≤ mr_MarketID r < 2 ^ 64) by (apply (sr_market os), Hs; by left).
    apply history_key_inj in Ek as [-> _]; [|lia..]. by apply list_elem_of_fmap_2.
  - intros k Hk. rw fmap_cons in Hk. apply not_elem_of_cons in Hk as [Hk1 Hk2].
    rw B7 ?Eh; [|done]. apply A7. by apply not_elem_of_cons; split; [|apply not_elem_of_nil].
Qed.

Lemma execute_results_run os rs c :
  (∀ r, r ∈ rs → sound_result os r) → NoDup (mr_MarketID <$> rs) → NoDup (fill_id <$> (rs ≫= mr_OrderFills)) →
  (∀ f, f ∈ rs ≫= mr_OrderFills → order_at (orders_store c) (fill_id f) = Some (f_Order f) ∧ 0 ≤ fill_id f < 2 ^ 64) →
  orders_wf (orders_store c) → solvent c → 0 ≤ ctx_height c < 2 ^ 63 →
  (∀ x d, balance (ctx_bank c) x d + sumZ (owed x d) (rs ≫= mr_OrderFills) < maxInt) →
  ∃ c', forM rs (execute_result modulePerms ordersPerms) (mp_name modulePerms) c = (Ok tt, c') ∧ block_effect rs c c'.
Proof.
  revert c. induction rs as [|r rs IH]; intros c Hs Hm Hnd Hat Hwf Hsol Hh Hcap.
  { exists c. split; [done|]. split; try done. - by intros f ?%elem_of_nil. - by intros f ?%elem_of_nil. - intros x d. simpl. lia. - by intros r ?%elem_of_nil. }
  assert (∀ x d, 0 ≤ sumZ (owed x d) (rs ≫= mr_OrderFills)) as Hpos.
  { intros x d. apply sumZ_nonneg. intros f _. case_decide; [apply paid_nonneg|done]. }
  assert (∀ x d, balance (ctx_bank c) x d + (sumZ (owed x d) (mr_OrderFills r) + sumZ (owed x d) (rs ≫= mr_OrderFills)) < maxInt) as Hcap'.
  { intros x d. specialize (Hcap x d). by rw bind_cons sumZ_app in Hcap. }
  pose proof Hnd as Hnd'. rw bind_cons fmap_app in Hnd'. apply NoDup_app in Hnd' as (Hnd1 & Hdis & Hnd2).
  pose proof Hm as Hm'. rw fmap_cons in Hm'. apply NoDup_cons in Hm' as [_ Hm'].
  destruct (execute_result_run os r c) as (c1 & Hrun & He & Eh & Et); try done.
  { apply Hs. left. }
  { intros f Hf. apply Hat. rw bind_cons. apply elem_of_app. by left. }
  { intros x d. specialize (Hcap' x d). specialize (Hpos x d). lia. }
  assert ([r] ≫= mr_OrderFills = mr_OrderFills r) as E by (simpl; apply app_nil_r).
  destruct (IH c1) as (c' & Hrun' & He'); try done.
  { intros q Hq. apply Hs. by right. }
  { intros f Hf. destruct (Hat f) as [Ha Hi]; [rw bind_cons; apply elem_of_app; by right|]. split; [|done].
    rw (be_others _ _ _ He); [done|done|]. rw E. intros Hin. by apply (Hdis _ Hin), (list_elem_of_fmap_2 fill_id). }
  { apply He. } { apply He. } { by rw Eh. }
  { intros x d. specialize (Hcap' x d). rw (be_bank _ _ _ He) E. lia. }
  exists c'. split; [cbn [forM]; by rw (M_bind_Ok _ _ _ _ _ _ Hrun)|].
  eapply block_effect_cons; try done. intros f Hf. by apply Hat.
Qed.

(** The end blocker up to the executed results. *)
Lemma EndBlocker_results caller c :
  orders_wf (orders_store c) → solvent c → supported (stored_orders (orders_store c)) → 0 ≤ ctx_height c < 2 ^ 63 →
  (∀ rs, Process (range (pool_of (stored_orders (orders_store c)))) = Ok rs →
     ∀ x d, balance (ctx_bank c) x d + sumZ (owed x d) (rs ≫= mr_OrderFills) < maxInt) →
  ∃ rs c1, Process (range (pool_of (stored_orders (orders_store c)))) = Ok rs ∧
    (∀ r, r ∈ rs → sound_result (stored_orders (orders_store c)) r ∧ Match (book_of (stored_orders (orders_store c)) (mr_MarketID r)) = Ok r) ∧ NoDup (mr_MarketID <$> rs) ∧
    (∀ mid, mid ∈ mr_MarketID <$> rs ↔ matcher_crossed (book_of (stored_orders (orders_store c)) mid)) ∧
    forM rs (execute_result modulePerms ordersPerms) ModuleName c = (Ok tt, c1) ∧ block_effect rs c c1 ∧
    EndBlocker modulePerms ordersPerms range caller c =
      (if (0 <? length rs)%nat then EmitEvent (NewModuleNameEvent ModuleName) else mret tt) ModuleName c1.
Proof.
  intros Hwf Hsol Hsup Hh Hcap. set (os := stored_orders (orders_store c)) in *. pose proof (proj1 Hwf) as Hent.
  destruct (pool_results os (range (pool_of os)) Hsup (range_any _)) as (rs & Hp & Hs & Hnd & Hx).
  destruct (execute_results_run os rs c) as (c1 & Hrun & He); try done.
  { intros r Hr. by apply Hs. }
  { apply (results_NoDup os); [by apply stored_orders_NoDup|intros r Hr; by apply Hs|done]. }
  { intros f (r & Hf & Hr)%list_elem_of_bind. assert (f_Order f ∈ os) as Ho.
    { eapply elem_of_submseteq; [by apply list_elem_of_fmap_2|]. by apply (sr_fills os r), Hs. }
    by apply stored_orders_elem in Ho as [? ?]. }
  { by apply Hcap. }
  exists rs, c1. split; [done|]. split; [done|]. split; [done|]. split; [done|].
  rw -{1}own_perms. split; [done|]. split; [done|]. unfold EndBlocker, in_module.
  pose proof (collect_stored c Hent Hsup) as Hcol. apply M_bind_inv in Hcol as (kvs & c0 & Hit & Hcol).
  rw (M_bind_Ok _ _ _ _ _ _ Hit) (M_bind_Ok _ _ _ _ _ _ Hcol). fold os.
  rw (M_bind_Ok _ _ _ _ _ _ (lift_Ok _ _ _ _ Hp)). by rw -own_perms (M_bind_Ok _ _ _ _ _ _ Hrun) own_perms.
Qed.

(** C11: at the end of a block of supported books, whatever the order in which the
    pool is ranged over, exactly the crossed markets are matched, each once, and
    their fills are executed: every filled order keeps exactly its unfilled
    quantity (an ask whose fill is worth less than a quote unit keeps all of it), every other order is as before, the owners and nobody else are paid,
    the orders stay well-formed and their escrow covered, and the history has one
    new item per matched market, with the same matched volume on both sides. *)
Theorem EndBlocker_executes caller c :
  orders_wf (orders_store c) → solvent c → supported (stored_orders (orders_store c)) → 0 ≤ ctx_height c < 2 ^ 63 →
  (∀ rs, Process (range (pool_of (stored_orders (orders_store c)))) = Ok rs →
     ∀ x d, balance (ctx_bank c) x d + sumZ (owed x d) (rs ≫= mr_OrderFills) < maxInt) →
  ∃ rs c', EndBlocker modulePerms ordersPerms range caller c = (Ok tt, c') ∧
    Process (range (pool_of (stored_orders (orders_store c)))) = Ok rs ∧
    (∀ r, r ∈ rs → Match (book_of (stored_orders (orders_store c)) (mr_MarketID r)) = Ok r) ∧ NoDup (mr_MarketID <$> rs) ∧
    (∀ mid, mid ∈ mr_MarketID <$> rs ↔ matcher_crossed (book_of (stored_orders (orders_store c)) mid)) ∧
    block_effect rs c c'.
Proof.
  intros Hwf Hsol Hsup Hh Hcap.
  destruct (EndBlocker_results caller c Hwf Hsol Hsup Hh Hcap) as (rs & c1 & Hp & Hm & Hnd & Hx & _ & He & Hrun).
  assert (∀ r, r ∈ rs → Match (book_of (stored_orders (orders_store c)) (mr_MarketID r)) = Ok r) as Hm' by (intros r Hr; by apply Hm).
  rw Hrun. exists rs. destruct (0 <? length rs)%nat; [|by exists c1].
  eexists. split; [done|]. split; [done|]. split; [done|]. split; [done|]. split; [done|]. by destruct He.
Qed.

(** A block without a crossed market changes nothing and emits nothing. *)
Theorem EndBlocker_idle caller c :
  orders_wf (orders_store c) → supported (stored_orders (orders_store c)) →
  (∀ mid, ¬ matcher_crossed (book_of (stored_orders (orders_store c)) mid)) →
  EndBlocker modulePerms ordersPerms range caller c = (Ok tt, c).
Proof.
  intros Hwf Hsup Hx. set (os := stored_orders (orders_store c)) in *. pose proof (proj1 Hwf) as Hent.
  destruct (pool_results os (range (pool_of os)) Hsup (range_any _)) as (rs & Hp & _ & _ & Hmid).
  assert (rs = []) as ->.
  { destruct rs as [|r rs]; [done|exfalso]. apply (Hx (mr_MarketID r)), Hmid. left. }
  unfold EndBlocker, in_module. pose proof (collect_stored c Hent Hsup) as Hcol.
  apply M_bind_inv in Hcol as (kvs & c0 & Hit & Hcol). rw (M_bind_Ok _ _ _ _ _ _ Hit) (M_bind_Ok _ _ _ _ _ _ Hcol). fold os.
  by rw (M_bind_Ok _ _ _ _ _ _ (lift_Ok _ _ _ _ Hp)).
Qed.
End block.
