(* ===== verification/OrderBookWitnesses.v ===== *)
(** * The order book: the theorems on the concrete chain *)
From S2P Require Import Prelude Bytes Sdk SdkRef SdkFacts DnTypes Perms Chain Currency VMStorage CCStorage Markets MarketsFacts Orders OrdersFacts OrdersTheorems OrdersGenesis Scenario.
From S2P Require Import OrdersWitnesses Aggregates Curves CurvesFacts Matcher MatcherFacts OrderBook OrderBookTheorems OrderBookBlock.
Local Open Scope string_scope.
Local Open Scope Z_scope.

#[export] Instance history_item_countable : Countable HistoryItem.
Proof.
  refine (inj_countable'
    (λ h, (((hi_MarketID h, hi_ClearancePrice h), (hi_BidOrdersCount h, hi_AskOrdersCount h)),
           ((hi_BidVolume h, hi_AskVolume h), (hi_MatchedBidVolume h, hi_MatchedAskVolume h)),
           (hi_Timestamp h, hi_BlockHeight h)))
    (λ x, MkHistoryItem x.1.1.1.1 x.1.1.1.2 x.1.1.2.1 x.1.1.2.2 x.1.2.1.1 x.1.2.1.2 x.1.2.2.1 x.1.2.2.2 x.2.1 x.2.2) _).
  abstract (by intros []).
Defined.
#[export] Instance codec_HistoryItem : Codec HistoryItem := codec_of_countable HistoryItem.

Definition orderbook_perms : ModulePermissions := orderbook.NewModulePerms.

(** Three items: market 0 at blocks 3 and 5, market 1 at block 4. *)
Definition item_at (market height : Z) : HistoryItem :=
  MkHistoryItem market 9000000000 1 2 150000000 300000000 150000000 150000000 1590969600 height.
Definition item03 := item_at 0 3.
Definition item05 := item_at 0 5.
Definition item14 := item_at 1 4.

Definition put_item (s : store (KVStore := KVStore_ref)) (item : HistoryItem) : store :=
  store_Set s (item_key item) (Marshal LengthPrefixed item).
Definition items_store : store := put_item (put_item (put_item empty_store item03) item05) item14.

Definition with_items : Ctx := set_store start orderbook.StoreKey items_store.

Lemma item_at_ok m h : 0 ≤ m < 10 → 0 ≤ h < 10 → item_ok (item_at m h).
Proof. intros ??. split; simpl; lia. Qed.
Lemma item00_ok : item_ok (orderbook.at_height_0 item05).
Proof. change (item_ok (item_at 0 0)). by apply item_at_ok. Qed.
Lemma item03_ok : item_ok item03.
Proof. by apply item_at_ok. Qed.
Lemma item05_ok : item_ok item05.
Proof. by apply item_at_ok. Qed.
Lemma item14_ok : item_ok item14.
Proof. by apply item_at_ok. Qed.

Lemma empty_history_wf : history_wf (S1 := KVStore_ref) empty_store.
Proof. by intros k v Hg. Qed.
Lemma items_wf : history_wf items_store.
Proof.
  repeat (apply history_wf_Set; [|first [exact item03_ok|exact item05_ok|exact item14_ok]]).
  exact empty_history_wf.
Qed.
Lemma with_items_wf : history_wf (ctx_stores with_items orderbook.StoreKey).
Proof. exact items_wf. Qed.

(** What is stored are the three items. *)
Lemma items_stored_inv item : item_stored items_store item → item = item03 ∨ item = item05 ∨ item = item14.
Proof.
  unfold item_stored, items_store, put_item. rw !store_Get_Set.
  repeat (case_decide; [intros E%(inj Some)%(f_equal (Unmarshal LengthPrefixed));
    rw !Unmarshal_Marshal in E; apply (inj Some) in E; subst item; tauto|]). done.
Qed.
Lemma item05_stored : item_stored items_store item05.
Proof. vm_compute. reflexivity. Qed.
Lemma item03_stored : item_stored items_store item03.
Proof. vm_compute. reflexivity. Qed.

Lemma SetHistoryItem_GetHistoryItem_witness :
  ∃ c', orderbook.SetHistoryItem orderbook_perms (item_at 0 9) "orderbook" with_items = (Ok tt, c') ∧
    orderbook.GetHistoryItem orderbook_perms 0 9 "orderbook" c' = (Ok (item_at 0 9), c') ∧
    item_stored (ctx_stores c' orderbook.StoreKey) item05.
Proof.
  destruct (SetHistoryItem_GetHistoryItem orderbook_perms (item_at 0 9) with_items) as (c' & Hset & _ & Hget & Hother).
  - exact with_items_wf.
  - by apply item_at_ok.
  - exists c'. split; [exact Hset|]. split; [exact Hget|].
    apply (Hother item05 item05_ok); [right; discriminate|exact item05_stored].
Defined.

(** Blocks 4 to 9 of market 0: the item of block 5 only. *)
Lemma GetHistoryItemsInBlockHeightRange_witness :
  ∃ items, orderbook.GetHistoryItemsInBlockHeightRange orderbook_perms 0 4 9 "orderbook" with_items = (Ok items, with_items) ∧
    item05 ∈ items ∧ item03 ∉ items.
Proof.
  destruct (GetHistoryItemsInBlockHeightRange_exact orderbook_perms 0 4 9 with_items) as (items & Hrun & _ & Hel).
  - exact with_items_wf.
  - exact id_0.
  - split; [discriminate|reflexivity].
  - split; [discriminate|reflexivity].
  - exists items. split; [exact Hrun|]. split.
    + apply Hel. split; [exact item05_ok|]. split; [exact item05_stored|]. split; [reflexivity|]. split; discriminate.
    + intros (_ & _ & _ & Hh & _)%Hel. by apply Hh.
Defined.

(** Of market 0 the item of block 5 is kept, at height 0. *)
Lemma PrepareForZeroHeight_witness :
  ∃ c', orderbook.PrepareForZeroHeight orderbook_perms "app" with_items = (Ok tt, c') ∧
    item_stored (ctx_stores c' orderbook.StoreKey) (orderbook.at_height_0 item05) ∧
    ¬ item_stored (ctx_stores c' orderbook.StoreKey) item05.
Proof.
  destruct (PrepareForZeroHeight_keeps_latest orderbook_perms eq_refl "app" with_items) as (c' & Hrun & _ & Hel).
  - exact with_items_wf.
  - exists c'. split; [exact Hrun|]. split.
    + apply Hel; [exact item00_ok|]. exists item05. split; [reflexivity|]. split; [exact item05_ok|].
      split; [exact item05_stored|]. intros j _ Hj Em. apply items_stored_inv in Hj as [-> | [-> | ->]]; [discriminate..|discriminate Em].
    + intros Hst. apply Hel in Hst as (item0 & E & _); [|exact item05_ok]. discriminate (f_equal hi_BlockHeight E).
Defined.

(** A context at block 10, with an empty module. *)
Definition importing : Ctx := MkCtx (λ _, empty_store) (ctx_bank start) [] 10 genesis_time.

Lemma history_genesis_roundtrip_witness :
  ∃ gs c1, orderbook.ExportGenesis orderbook_perms "orderbook" with_items = (Ok gs, with_items) ∧
    orderbook.InitGenesis orderbook_perms gs "orderbook" importing = (Ok tt, c1) ∧
    store_Get (ctx_stores c1 orderbook.StoreKey) (item_key item05) = Some (Marshal LengthPrefixed item05).
Proof.
  destruct (history_genesis_roundtrip orderbook_perms with_items importing) as (gs & c1 & Hexp & Himp & Hget & _).
  - exact with_items_wf.
  - intros k. reflexivity.
  - discriminate.
  - intros item _ Hitem; apply items_stored_inv in Hitem as [-> | [-> | ->]]; (split; [vm_compute; reflexivity|split; vm_compute; congruence]).
  - exists gs, c1. split; [exact Hexp|]. split; [exact Himp|]. etransitivity; [exact (Hget (item_key item05))|].
    exact item05_stored.
Defined.

(** ** A block with a bid and an ask that cross *)
Definition after_bid : Ctx := (post orders.Bid 9000000001 150000000 60 start).2.
Definition ex_ask : Order :=
  MkOrder 1 alice btc_usdt orders.Ask 9000000000 100000000 (60 * 10 ^ 9) genesis_time genesis_time.
Definition crossing : Ctx := (post orders.Ask 9000000000 100000000 60 after_bid).2.

Lemma post_posted direction price quantity c o :
  orders_wf (ctx_stores c orders.StoreKey) → solvent c → 0 ≤ price → 0 ≤ quantity →
  (post direction price quantity 60 c).1 = Ok o → posted c (post direction price quantity 60 c).2 o.
Proof.
  intros Hwf Hsol Hp Hq E.
  assert (post direction price quantity 60 c = (Ok o, (post direction price quantity 60 c).2)) as Hrun
    by (rw -E; by destruct (post _ _ _ _ _)).
  apply (PostOrder_posted orders_perms markets_perms (λ _, True) "ccstorage" I) in Hrun as [_ Hp']; done.
Qed.

Lemma after_bid_posted : posted start after_bid ex_bid.
Proof.
  apply post_posted; [exact empty_orders_wf|intros d; apply ref_balance_nonneg|done|done|vm_compute; reflexivity].
Qed.
Lemma crossing_posted : posted after_bid crossing ex_ask.
Proof. apply post_posted; [apply after_bid_posted|apply after_bid_posted|done|done|vm_compute; reflexivity]. Qed.

Lemma crossing_orders : stored_orders (ctx_stores crossing orders.StoreKey) = [ex_bid; ex_ask].
Proof. vm_compute. reflexivity. Qed.

Lemma ex_bid_tradable : tradable ex_bid.
Proof. split; [exact id_0|split; [split; discriminate|reflexivity]|split; [split; discriminate|reflexivity]|split; reflexivity|split; [reflexivity|discriminate]|by left]. Qed.
Lemma ex_ask_tradable : tradable ex_ask.
Proof. split; [exact id_0|split; [split; discriminate|reflexivity]|split; [split; discriminate|reflexivity]|split; reflexivity|split; [reflexivity|discriminate]|by right]. Qed.

Lemma crossing_supported : supported [ex_bid; ex_ask].
Proof.
  split; [intros o [-> | [-> | []%elem_of_nil]%elem_of_cons]%elem_of_cons; [exact ex_bid_tradable|exact ex_ask_tradable]|].
  intros mid. assert (∀ P `{∀ o : Order, Decision (P o)}, 0 ≤ volume (filter P [ex_bid; ex_ask]) ≤ 250000000) as Hv.
  { intros P HP. rw !filter_cons filter_nil. repeat case_decide; vm_compute; done. }
  pose proof (Hv (λ o, o_Direction o = orders.Ask ∧ me_ID (o_Market o) = mid) _).
  pose proof (Hv (λ o, o_Direction o = orders.Bid ∧ me_ID (o_Market o) = mid) _).
  assert (1000000000 < Precision) by done. unfold book_of. simpl. lia.
Qed.

(** What the block pays: the bid's fill and refund, the ask's fill. *)
Definition crossing_range (mp : MatcherPool) : list Matcher := (map_to_list mp).*2.
Definition crossing_results : list MatcherResult :=
  match Process (crossing_range (pool_of [ex_bid; ex_ask])) with Ok rs => rs | _ => [] end.

Lemma crossing_process : Process (crossing_range (pool_of [ex_bid; ex_ask])) = Ok crossing_results.
Proof. vm_compute. reflexivity. Qed.

(** A bound of all a fill can pay. *)
Definition pays_at_most (n : Z) (f : OrderFill) : bool :=
  match orders.FillCoin f with
  | Ok c => (coin_Amount c <=? n) && match orders.RefundCoin f with Ok (true, Some r) => coin_Amount r <=? n | _ => true end
  | _ => true
  end.

Lemma paid_at_most n f d : 0 ≤ n → pays_at_most n f = true → paid f d ≤ 2 * n.
Proof.
  unfold pays_at_most, paid. intros Hn. destruct (orders.FillCoin f) as [fc| |]; [|lia..].
  intros [Hf%Z.leb_le Hr]%andb_true_iff. unfold coin_amount.
  destruct (orders.RefundCoin f) as [[[] [r|]]| |]; repeat case_decide; try apply Z.leb_le in Hr; lia.
Qed.

Lemma crossing_pays : forallb (pays_at_most (2 ^ 60)) (crossing_results ≫= mr_OrderFills) = true ∧
  (length (crossing_results ≫= mr_OrderFills) ≤ 2)%nat.
Proof. vm_compute. split; [reflexivity|lia]. Qed.

Lemma owed_at_most n fs x d : 0 ≤ n → forallb (pays_at_most n) fs = true →
  sumZ (λ f, if decide (x = o_Owner (f_Order f)) then paid f d else 0) fs ≤ 2 * n * Z.of_nat (length fs).
Proof.
  intros Hn. induction fs as [|f fs IH]; [simpl; lia|]. intros [Hf Hfs]%andb_true_iff. specialize (IH Hfs).
  rw sumZ_cons length_cons. pose proof (paid_at_most n f d Hn Hf). case_decide; lia.
Qed.

Definition balances_at_most (n : N) (l : ledger_ref) : bool := forallb (λ kv, (kv.2 <=? n)%N) (map_to_list l).
Lemma balances_at_most_spec (n : N) (l : ledger_ref) x d : balances_at_most n l = true → ref_balance l x d ≤ Z.of_N n.
Proof.
  unfold balances_at_most, ref_balance. intros Hb. rewrite forallb_forall in Hb. destruct (l !! (x, d)) as [v|] eqn:E; simpl; [|lia].
  apply elem_of_map_to_list, list_elem_of_In, Hb, N.leb_le in E. simpl in E. lia.
Qed.
Lemma crossing_balances x d : ref_balance (ctx_bank crossing) x d ≤ Z.of_N (2 ^ 60).
Proof. apply balances_at_most_spec. vm_compute. reflexivity. Qed.


Definition crossing_orders_perms : ModulePermissions :=
  match orders.NewKeeper [orderbook.RequestOrdersPerms] with Ok p => p | _ => orders_perms end.

Lemma crossing_height : 0 ≤ ctx_height crossing < 2 ^ 63.
Proof. assert (ctx_height crossing = 1) as -> by (vm_compute; reflexivity). done. Qed.

Lemma Ok_inj {A} (a b : A) : Ok a = Ok b → a = b.
Proof. by intros [= ->]. Qed.
Lemma two60_nonneg : 0 ≤ 2 ^ 60.
Proof. done. Qed.
Lemma two60_capacity : 2 ^ 60 * 5 < maxInt.
Proof. done. Qed.
Lemma crossing_capacity rs : Process (crossing_range (pool_of (stored_orders (ctx_stores crossing orders.StoreKey)))) = Ok rs →
  ∀ x d, balance (ctx_bank crossing) x d +
    sumZ (λ f, if decide (x = o_Owner (f_Order f)) then paid f d else 0) (rs ≫= mr_OrderFills) < maxInt.
Proof.
  rewrite crossing_orders crossing_process. intros <-%Ok_inj x d.
  pose proof (owed_at_most (2 ^ 60) _ x d two60_nonneg (proj1 crossing_pays)) as Ho.
  pose proof (crossing_balances x d) as Hb. pose proof (proj2 crossing_pays) as Hl.
  pose proof two60_capacity as H.
  change (balance (ctx_bank crossing) x d) with (ref_balance (ctx_bank crossing) x d).
  clear - Ho Hb Hl H. lia.
Qed.

(** After the block: the bid keeps a third, the ask is gone. *)
Definition crossing_left : list (ID * option Order) :=
  [(0, Some (orders.with_Quantity ex_bid 50000000 genesis_time)); (1, None)].

Lemma crossing_fills :
  (λ f, (o_ID (f_Order f), after_fill (ctx_time crossing) f)) <$> (crossing_results ≫= mr_OrderFills) = crossing_left.
Proof. vm_compute. reflexivity. Qed.

Lemma crossing_after rs c' : Process (crossing_range (pool_of (stored_orders (ctx_stores crossing orders.StoreKey)))) = Ok rs →
  block_effect rs crossing c' →
  ∀ id o, (id, o) ∈ crossing_left → order_at (ctx_stores c' orders.StoreKey) id = o.
Proof.
  rewrite crossing_orders crossing_process. intros <-%Ok_inj He id o. rewrite -crossing_fills.
  intros (f & [= -> ->] & Hf)%list_elem_of_fmap. exact (be_filled _ _ _ He f Hf).
Qed.

Lemma crossing_supported_stored : supported (stored_orders (ctx_stores crossing orders.StoreKey)).
Proof. rewrite crossing_orders. exact crossing_supported. Qed.

Lemma EndBlocker_executes_witness :
  ∃ c', orderbook.EndBlocker orderbook_perms crossing_orders_perms crossing_range "app" crossing = (Ok tt, c') ∧
    order_at (ctx_stores c' orders.StoreKey) 0 = Some (orders.with_Quantity ex_bid 50000000 genesis_time) ∧
    order_at (ctx_stores c' orders.StoreKey) 1 = None.
Proof.
  destruct (EndBlocker_executes orderbook_perms crossing_orders_perms eq_refl eq_refl eq_refl crossing_range
    (λ mp, reflexivity _) "app" crossing (post_wf _ _ _ crossing_posted) (post_solvent _ _ _ crossing_posted)
    crossing_supported_stored crossing_height crossing_capacity) as (rs & c' & Hrun & Hp & _ & _ & _ & He).
  exists c'. split; [exact Hrun|]. split; apply (crossing_after rs c' Hp He); [left|right; left].
Defined.

(** A bid alone crosses nothing. *)
Lemma EndBlocker_idle_witness :
  orderbook.EndBlocker orderbook_perms crossing_orders_perms crossing_range "app" after_bid = (Ok tt, after_bid).
Proof.
  assert (stored_orders (ctx_stores after_bid orders.StoreKey) = [ex_bid]) as E by (vm_compute; reflexivity).
  apply (EndBlocker_idle orderbook_perms crossing_orders_perms eq_refl eq_refl crossing_range (λ mp, reflexivity _)).
  - exact (post_wf _ _ _ after_bid_posted).
  - rewrite E. exact (supported_prefix [ex_bid] [ex_ask] crossing_supported).
  - rewrite E. intros mid (a & b & Ha & _). simpl in Ha.
    apply list_elem_of_filter in Ha as [[Hd _] ->%list_elem_of_singleton]. discriminate Hd.
Defined.
