(* ===== verification/Poa.v ===== *)
(** * Proof of authority validators ([x/poa])

    The validators that confirm multi signature calls: a list, one entry per
    address and a [uint16] counter, kept between the parameters' minimum and
    maximum.  The module changes only through confirmed calls. *)
From S2P Require Import Prelude Bytes Sdk SdkRef SdkFacts DnTypes Perms Chain.
Local Open Scope string_scope.
Local Open Scope Z_scope.

(** Go's [uint16] arithmetic wraps around. *)
Definition uint16 (z : Z) : Z := z mod 2 ^ 16.

Record Validator := MkValidator { v_Address : AccAddress; v_EthAddress : string }.

#[export] Instance validator_eq_dec : EqDecision Validator.
Proof. solve_decision. Defined.

Module poa.

Definition ModuleName := "poa".
Definition StoreKey := ModuleName.
Definition DefaultParamspace := ModuleName.
Definition ValidatorsCountKey := "validatorsCount".
Definition ValidatorsListKey := "validators".
Definition PermInit := ModuleName +:+ "PermInit".
Definition PermRead := ModuleName +:+ "PermRead".
Definition PermWrite := ModuleName +:+ "PermWrite".
Definition AvailablePermissions : list string := [PermInit; PermRead; PermWrite].
Definition NewModulePerms : ModulePermissions := NewModulePermissions ModuleName AvailablePermissions.

Definition ErrInternal := Registered ModuleName 100.
Definition ErrWrongEthereumAddress := Registered ModuleName 101.
Definition ErrValidatorExists := Registered ModuleName 102.
Definition ErrValidatorNotExists := Registered ModuleName 103.
Definition ErrMaxValidatorsReached := Registered ModuleName 104.
Definition ErrMinValidatorsReached := Registered ModuleName 105.

(** ** Parameters *)
Definition DefaultMaxValidators : Z := 11.
Definition DefaultMinValidators : Z := 1.
Definition ParamStoreKeyMaxValidators := "maxValidators".
Definition ParamStoreKeyMinValidators := "minValidators".

Record Params := MkParams { p_MaxValidators : Z; p_MinValidators : Z }.
Definition NewParams (maxValidators minValidators : Z) : Params := MkParams maxValidators minValidators.
Definition DefaultParams : Params := NewParams DefaultMaxValidators DefaultMinValidators.

Definition Params_Validate (p : Params) : outcome unit :=
  fail_if (p_MinValidators p <? DefaultMinValidators) (Plain "minimum amount of validators should be not less than");;
  fail_if (DefaultMaxValidators <? p_MaxValidators p) (Plain "maximum amount of validators should be not greater than").

(** ** Validators, events, messages *)
Definition NewValidator (address : AccAddress) (ethAddress : string) : Validator := MkValidator address ethAddress.

Definition Validator_Validate (v : Validator) : outcome unit :=
  fail_if (bool_decide (v_Address v = "")) ErrInvalidAddress;;
  fail_if (String.length (v_EthAddress v) =? 0)%nat ErrWrongEthereumAddress;;
  fail_if (negb (IsEthereumAddress (v_EthAddress v))) ErrWrongEthereumAddress.

Section types.
Context `{ST : SdkTypes}.

Definition NewValidatorAddedEvent (validator : Validator) : Event :=
  MkEvent (ModuleName +:+ ".add")
    [("address", AccAddress_String (v_Address validator)); ("eth_address", v_EthAddress validator)].
Definition NewValidatorRemovedEvent (validator : Validator) : Event :=
  MkEvent (ModuleName +:+ ".remove")
    [("address", AccAddress_String (v_Address validator)); ("eth_address", v_EthAddress validator)].

Record MsgAddValidator := MkMsgAddValidator { mav_Address : AccAddress; mav_EthAddress : string; mav_Sender : AccAddress }.
Record MsgRemoveValidator := MkMsgRemoveValidator { mrv_Address : AccAddress; mrv_Sender : AccAddress }.
Record MsgReplaceValidator := MkMsgReplaceValidator {
  mpv_OldValidator : AccAddress; mpv_NewValidator : AccAddress; mpv_EthAddress : string; mpv_Sender : AccAddress }.

Definition MsgAddValidator_ValidateBasic (msg : MsgAddValidator) : outcome unit :=
  Validator_Validate (NewValidator (mav_Address msg) (mav_EthAddress msg));;
  fail_if (bool_decide (mav_Sender msg = "")) ErrInvalidAddress.

Definition MsgRemoveValidator_ValidateBasic (msg : MsgRemoveValidator) : outcome unit :=
  fail_if (bool_decide (mrv_Address msg = "")) ErrInvalidAddress;;
  fail_if (bool_decide (mrv_Sender msg = "")) ErrInvalidAddress.

Definition MsgReplaceValidator_ValidateBasic (msg : MsgReplaceValidator) : outcome unit :=
  fail_if (bool_decide (mpv_OldValidator msg = "")) ErrInvalidAddress;;
  Validator_Validate (NewValidator (mpv_NewValidator msg) (mpv_EthAddress msg));;
  fail_if (bool_decide (mpv_OldValidator msg = mpv_NewValidator msg)) ErrInvalidAddress;;
  fail_if (bool_decide (mpv_Sender msg = "")) ErrInvalidAddress.

Definition MsgAddValidator_GetSigners (msg : MsgAddValidator) : list AccAddress := [mav_Sender msg].
Definition MsgRemoveValidator_GetSigners (msg : MsgRemoveValidator) : list AccAddress := [mrv_Sender msg].
Definition MsgReplaceValidator_GetSigners (msg : MsgReplaceValidator) : list AccAddress := [mpv_Sender msg].

(** ** Genesis *)
Record GenesisState := MkGenesisState { gs_Parameters : Params; gs_Validators : list Validator }.
Definition DefaultGenesisState : GenesisState := MkGenesisState DefaultParams [].

Definition Validate_validator (validatorsSet : gset string) (v : Validator) : outcome (gset string) :=
  Validator_Validate v;;
  fail_if (bool_decide (AccAddress_String (v_Address v) ∈ validatorsSet)) (Plain "is a duplicate");;
  Ok ({[AccAddress_String (v_Address v)]} ∪ validatorsSet).

Definition GenesisState_Validate (s : GenesisState) (skipCountValidation : bool) : outcome unit :=
  Params_Validate (gs_Parameters s);;
  foldM Validate_validator ∅ (gs_Validators s);;
  if skipCountValidation then Ok tt
  else
    let validatorsCount := Z.of_nat (length (gs_Validators s)) in
    fail_if (validatorsCount <? p_MinValidators (gs_Parameters s)) (Plain "invalid validators amount: should be >=");;
    fail_if (p_MaxValidators (gs_Parameters s) <? validatorsCount) (Plain "invalid validators amount: should be <=").

(** ** Query responses *)
Record ValidatorReq := MkValidatorReq { vr_Address : AccAddress }.
Record ValidatorsConfirmationsResp := MkValidatorsConfirmationsResp {
  vcr_Validators : list Validator; vcr_Confirmations : Z }.
End types.

Section keeper.
Context `{ST : SdkTypes} `{KV : KVStore} `{LG : Ledger}.
Context `{CI : !Codec Z} `{CV : !Codec Validator} `{CL : !Codec (list Validator)}.
Variable modulePerms : ModulePermissions.

(** ** The counter *)
Definition GetValidatorAmount : M Z :=
  keeper_method modulePerms PermRead (
    has ← kv_Has StoreKey ValidatorsCountKey;
    if negb has then mret 0
    else
      bz ← kv_Get StoreKey ValidatorsCountKey;
      MustUnmarshal LengthPrefixed (default "" bz)).

Definition GetEnoughConfirmations : M Z :=
  keeper_method modulePerms PermRead (amount ← GetValidatorAmount; mret (uint16 (amount / 2 + 1))).

Definition setValidatorsAmount (amount : Z) : M unit := kv_Set StoreKey ValidatorsCountKey (Marshal LengthPrefixed amount).

Definition increaseValidatorsAmount : M Z :=
  amount ← GetValidatorAmount;
  let amount := uint16 (amount + 1) in
  setValidatorsAmount amount;; mret amount.

Definition decreaseValidatorsAmount : M Z :=
  amount ← GetValidatorAmount;
  let amount := uint16 (amount - 1) in
  setValidatorsAmount amount;; mret amount.

(** ** The list *)
Definition GetValidators : M (list Validator) :=
  keeper_method modulePerms PermRead (
    has ← kv_Has StoreKey ValidatorsListKey;
    if negb has then mret []
    else
      bz ← kv_Get StoreKey ValidatorsListKey;
      MustUnmarshal Bare (default "" bz)).

Definition storeValidatorsList (validators : list Validator) : M unit :=
  kv_Set StoreKey ValidatorsListKey (Marshal Bare validators).

Definition addValidatorToList (validator : Validator) : M unit :=
  validators ← GetValidators;
  storeValidatorsList (validators ++ [validator])%list.

Definition removeValidatorFromList (address : AccAddress) : M unit :=
  validators ← GetValidators;
  match list_find (λ validator, v_Address validator = address) validators with
  | Some (idx, _) =>
      if (1 <? length validators)%nat
      then storeValidatorsList (take idx validators ++ drop (S idx) validators)%list
      else kv_Delete StoreKey ValidatorsListKey
  | None => mret tt
  end.

(** ** Parameters *)
Definition GetMaxValidators : M Z :=
  keeper_method modulePerms PermRead (param_Get DefaultParamspace ParamStoreKeyMaxValidators).
Definition GetMinValidators : M Z :=
  keeper_method modulePerms PermRead (param_Get DefaultParamspace ParamStoreKeyMinValidators).
Definition GetParams : M Params :=
  keeper_method modulePerms PermRead (
    min ← GetMinValidators; max ← GetMaxValidators; mret (NewParams max min)).
Definition setParams (params : Params) : M unit :=
  param_Set DefaultParamspace ParamStoreKeyMaxValidators (p_MaxValidators params);;
  param_Set DefaultParamspace ParamStoreKeyMinValidators (p_MinValidators params).

(** ** Validators: an entry's key is the address itself *)
Definition HasValidator (address : AccAddress) : M bool :=
  keeper_method modulePerms PermRead (kv_Has StoreKey address).

Definition getValidator (address : AccAddress) : M Validator :=
  bz ← kv_Get StoreKey address;
  MustUnmarshal Bare (default "" bz).

Definition GetValidator (address : AccAddress) : M Validator :=
  keeper_method modulePerms PermRead (
    has ← HasValidator address;
    if negb has then throw ErrValidatorNotExists else getValidator address).

Definition addValidator (address : AccAddress) (ethAddress : string) (checkLimits : bool) : M unit :=
  let validator := NewValidator address ethAddress in
  lift (Validator_Validate validator);;
  has ← HasValidator address;
  if (has : bool) then throw ErrValidatorExists
  else
    (if checkLimits then
       maxValidators ← GetMaxValidators;
       curValidators ← GetValidatorAmount;
       if maxValidators <? uint16 (curValidators + 1) then throw ErrMaxValidatorsReached else mret tt
     else mret tt);;
    kv_Set StoreKey (v_Address validator) (Marshal Bare validator);;
    addValidatorToList validator;;
    increaseValidatorsAmount;;
    EmitEvent (NewValidatorAddedEvent validator).

Definition removeValidator (address : AccAddress) (checkLimits : bool) : M unit :=
  has ← HasValidator address;
  if negb has then throw ErrValidatorNotExists
  else
    validator ← getValidator address;
    (if checkLimits then
       minValidators ← GetMinValidators;
       curValidators ← GetValidatorAmount;
       if uint16 (curValidators - 1) <? minValidators then throw ErrMinValidatorsReached else mret tt
     else mret tt);;
    kv_Delete StoreKey address;;
    removeValidatorFromList address;;
    decreaseValidatorsAmount;;
    EmitEvent (NewValidatorRemovedEvent validator).

Definition AddValidator (address : AccAddress) (ethAddress : string) : M unit :=
  keeper_method modulePerms PermWrite (addValidator address ethAddress true).
Definition RemoveValidator (address : AccAddress) : M unit :=
  keeper_method modulePerms PermWrite (removeValidator address true).
Definition ReplaceValidator (oldAddress newAddress : AccAddress) (ethAddress : string) : M unit :=
  keeper_method modulePerms PermWrite (
    removeValidator oldAddress false;;
    addValidator newAddress ethAddress false).

(** ** Genesis *)
Definition InitGenesis (state : GenesisState) : M unit :=
  keeper_method modulePerms PermInit (
    setParams (gs_Parameters state);;
    forM (gs_Validators state) (λ v,
      r ← attempt (AddValidator (v_Address v) (v_EthAddress v));
      match r with Ok _ => mret tt | _ => panic end)).

Definition ExportGenesis : M GenesisState :=
  keeper_method modulePerms PermRead (
    params ← GetParams; validators ← GetValidators; mret (MkGenesisState params validators)).

(** ** Multi signature messages; the plain handler accepts none *)
Inductive MsMsg :=
  | MsMsg_AddValidator (msg : MsgAddValidator)
  | MsMsg_RemoveValidator (msg : MsgRemoveValidator)
  | MsMsg_ReplaceValidator (msg : MsgReplaceValidator)
  | MsMsg_other.

Definition handleMsMsgAddValidator (msg : MsgAddValidator) : M unit :=
  AddValidator (mav_Address msg) (mav_EthAddress msg);; EmitEvent (NewModuleNameEvent ModuleName).
Definition handleMsMsgRemoveValidator (msg : MsgRemoveValidator) : M unit :=
  RemoveValidator (mrv_Address msg);; EmitEvent (NewModuleNameEvent ModuleName).
Definition handleMsMsgReplaceValidator (msg : MsgReplaceValidator) : M unit :=
  ReplaceValidator (mpv_OldValidator msg) (mpv_NewValidator msg) (mpv_EthAddress msg);;
  EmitEvent (NewModuleNameEvent ModuleName).

Definition NewMsHandler (msg : MsMsg) : M unit :=
  in_module ModuleName
    match msg with
    | MsMsg_AddValidator msg => handleMsMsgAddValidator msg
    | MsMsg_RemoveValidator msg => handleMsMsgRemoveValidator msg
    | MsMsg_ReplaceValidator msg => handleMsMsgReplaceValidator msg
    | MsMsg_other => throw ErrUnknownRequest
    end.

Definition NewHandler : M Result := throw ErrOnlyMultisigMsgs.

(** ** Queries *)
Context `{CR : !Codec ValidatorReq} `{CC : !Codec ValidatorsConfirmationsResp} `{CP : !Codec Params}.

Definition queryGetValidators : M string :=
  validators ← GetValidators; confirmations ← GetEnoughConfirmations;
  mret (Marshal JSON (MkValidatorsConfirmationsResp validators confirmations)).

Definition queryGetValidator (data : string) : M string :=
  match Unmarshal JSON data with
  | None => throw ErrInternal
  | Some params => validator ← GetValidator (vr_Address params); mret (Marshal JSON validator)
  end.

Definition queryGetMinMax : M string := params ← GetParams; mret (Marshal JSON params).

(** [path[0]] of an empty path is out of range. *)
Definition NewQuerier (path : list string) (data : string) : M string :=
  in_module ModuleName
    match path with
    | [] => panic
    | p :: _ =>
        if decide (p = "validators") then queryGetValidators
        else if decide (p = "validator") then queryGetValidator data
        else if decide (p = "minmax") then queryGetMinMax
        else throw ErrUnknownRequest
    end.
End keeper.

Definition NewKeeper (permsRequesters : list RequestModulePermissions) : outcome ModulePermissions :=
  foldM AutoAddRequester NewModulePerms permsRequesters.
End poa.
