(* ===== verification/PoaTheorems.v ===== *)
(** * Validators: the store refines a bounded set

    The module's store is three views of one list: the list itself, an entry per
    address and a counter.  [poa_holds] relates it to that list; every message
    refines the operation of the same name on lists, errors included. *)
From S2P Require Import Prelude Bytes Sdk SdkRef SdkFacts DnTypes Perms Chain Poa.
Local Open Scope string_scope.
Local Open Scope Z_scope.
Local Open Scope list_scope.

(** An account's address is 20 bytes. *)
Definition is_address (a : AccAddress) : Prop := String.length a = 20%nat.

Lemma address_not_count a : is_address a → a ≠ poa.ValidatorsCountKey.
Proof. by intros Ha ->. Qed.
Lemma address_not_list a : is_address a → a ≠ poa.ValidatorsListKey.
Proof. by intros Ha ->. Qed.
Lemma address_not_empty a : is_address a → a ≠ "".
Proof. by intros Ha ->. Qed.

(** ** The abstract validators: a list without duplicates *)
Module poa_spec.
Import poa.

Definition addresses (vs : list Validator) : list AccAddress := v_Address <$> vs.

Definition add (limit : option Z) (vs : list Validator) (v : Validator) : outcome (list Validator) :=
  Validator_Validate v;;
  fail_if (bool_decide (v_Address v ∈ addresses vs)) ErrValidatorExists;;
  fail_if (match limit with Some max => max <? Z.of_nat (length vs) + 1 | None => false end) ErrMaxValidatorsReached;;
  Ok (vs ++ [v]).

Definition remove (limit : option Z) (vs : list Validator) (a : AccAddress) : outcome (list Validator) :=
  fail_if (bool_decide (a ∉ addresses vs)) ErrValidatorNotExists;;
  fail_if (match limit with Some min => Z.of_nat (length vs) - 1 <? min | None => false end) ErrMinValidatorsReached;;
  Ok (filter (λ v, v_Address v ≠ a) vs).

Definition step (p : Params) (vs : list Validator) (msg : MsMsg) : outcome (list Validator) :=
  match msg with
  | MsMsg_AddValidator m => add (Some (p_MaxValidators p)) vs (NewValidator (mav_Address m) (mav_EthAddress m))
  | MsMsg_RemoveValidator m => remove (Some (p_MinValidators p)) vs (mrv_Address m)
  | MsMsg_ReplaceValidator m =>
      vs ← remove None vs (mpv_OldValidator m);
      add None vs (NewValidator (mpv_NewValidator m) (mpv_EthAddress m))
  | MsMsg_other => Err ErrUnknownRequest
  end.

(** The addresses of a message are account addresses. *)
Definition well_addressed (msg : MsMsg) : Prop :=
  match msg with
  | MsMsg_AddValidator m => is_address (mav_Address m)
  | MsMsg_RemoveValidator m => is_address (mrv_Address m)
  | MsMsg_ReplaceValidator m => is_address (mpv_OldValidator m) ∧ is_address (mpv_NewValidator m)
  | MsMsg_other => True
  end.
End poa_spec.

Section lists.
Implicit Types (vs : list Validator).

Lemma filter_others vs idx v a : NoDup (poa_spec.addresses vs) → list_find (λ v, v_Address v = a) vs = Some (idx, v) →
  take idx vs ++ drop (S idx) vs = filter (λ v, v_Address v ≠ a) vs.
Proof.
  intros Hnd (Hl & Ha & Hbefore)%list_find_Some. rw -{3}(take_drop_middle vs idx v Hl) filter_app filter_cons_False; [|naive_solver].
  rw !filter_all; [done|..].
  - intros x Hx E. apply list_elem_of_lookup in Hx as [j Hj]. rw lookup_drop in Hj.
    assert (idx = S idx + j)%nat; [|lia]. eapply (NoDup_lookup (poa_spec.addresses vs)); [done|..]; unfold poa_spec.addresses; rw list_lookup_fmap.
    + rw Hl. done.
    + rw Hj. simpl. by rw E Ha.
  - intros x Hx E. apply list_elem_of_lookup in Hx as [j Hj]. apply lookup_take_Some in Hj as [Hj Hlt]. by apply (Hbefore j x).
Qed.

Lemma length_filter_others vs a : NoDup (poa_spec.addresses vs) → a ∈ poa_spec.addresses vs →
  (S (length (filter (λ v, v_Address v ≠ a) vs)) = length vs)%nat.
Proof.
  unfold poa_spec.addresses. induction vs as [|v vs IH]; intros Hnd Ha; [by apply elem_of_nil in Ha|].
  rw fmap_cons in Hnd Ha. apply NoDup_cons in Hnd as [Hn Hnd]. destruct (decide (v_Address v = a)) as [E|E].
  - rw filter_cons_False; [|naive_solver]. rw filter_all; [done|]. intros x Hx Ex. apply Hn. rw E -Ex. by apply list_elem_of_fmap_2.
  - rw filter_cons_True; [|done]. apply elem_of_cons in Ha as [Ha|Ha]; [congruence|]. rw !length_cons (IH Hnd Ha). done.
Qed.

Lemma filter_others_addresses vs a b : b ∈ poa_spec.addresses (filter (λ v, v_Address v ≠ a) vs) ↔ b ∈ poa_spec.addresses vs ∧ b ≠ a.
Proof. unfold poa_spec.addresses. rw !list_elem_of_fmap. setoid_rewrite list_elem_of_filter. naive_solver. Qed.
End lists.

Section poa.
Context `{SdkTypesLaws} `{KVStoreLaws} `{LG : Ledger}.
Context `{CI : !Codec Z} `{CV : !Codec Validator} `{CL : !Codec (list Validator)}.
Variable modulePerms : ModulePermissions.
Hypothesis own_perms : mp_name modulePerms = poa.ModuleName.
Import poa.
Implicit Types (s : store) (c : Ctx) (vs : list Validator) (a : AccAddress).
Notation poa_store c := (ctx_stores c StoreKey).
Notation self := (mp_name modulePerms).

Definition list_is s vs : Prop :=
  store_Get s ValidatorsListKey = match vs with [] => None | _ => Some (Marshal Bare vs) end.
Definition count_is s (n : Z) : Prop :=
  store_Get s ValidatorsCountKey = Some (Marshal LengthPrefixed n) ∨ store_Get s ValidatorsCountKey = None ∧ n = 0.

(** The three views of the list [vs]. *)
Record poa_holds s vs : Prop := {
  ph_list : list_is s vs;
  ph_count : count_is s (Z.of_nat (length vs));
  ph_entry v : v ∈ vs → is_address (v_Address v) ∧ store_Get s (v_Address v) = Some (Marshal Bare v);
  ph_only a : is_address a → store_Get s a ≠ None → a ∈ poa_spec.addresses vs;
  ph_NoDup : NoDup (poa_spec.addresses vs);
  ph_small : Z.of_nat (length vs) < 2 ^ 16 - 1;
}.

Definition params_at c (p : Params) : Prop :=
  store_Get (ctx_stores c (params_store DefaultParamspace)) ParamStoreKeyMaxValidators = Some (Marshal JSON (p_MaxValidators p)) ∧
  store_Get (ctx_stores c (params_store DefaultParamspace)) ParamStoreKeyMinValidators = Some (Marshal JSON (p_MinValidators p)) ∧
  0 ≤ p_MinValidators p < 2 ^ 16 ∧ 0 ≤ p_MaxValidators p < 2 ^ 16 - 1.

Lemma empty_holds s : (∀ k, store_Get s k = None) → poa_holds s [].
Proof.
  intros Hs. split; try done.
  - by apply Hs.
  - right. by rw Hs.
  - intros v Hv. by apply elem_of_nil in Hv.
  - intros a _ Ha. by rw Hs in Ha.
  - apply NoDup_nil_2.
Qed.

(** *** Reading *)
Lemma GetValidators_run c vs : list_is (poa_store c) vs → GetValidators modulePerms self c = (Ok vs, c).
Proof.
  intros E. unfold GetValidators. rw keeper_method_self. unfold mbind, M_bind, kv_Has, kv_Get, store_Has, MustUnmarshal.
  destruct vs as [|v vs]; rw E; [by rw bool_decide_false; [|intros []]|].
  rw bool_decide_true; [|done]. simpl. rw E. simpl. by rw Unmarshal_Marshal.
Qed.

Lemma GetValidatorAmount_run c n : count_is (poa_store c) n → GetValidatorAmount modulePerms self c = (Ok n, c).
Proof.
  intros Hn. unfold GetValidatorAmount. rw keeper_method_self. unfold mbind, M_bind, kv_Has, kv_Get, store_Has, MustUnmarshal.
  destruct Hn as [E|[E ->]]; rw E.
  - rw bool_decide_true; [|done]. simpl. rw E. simpl. by rw Unmarshal_Marshal.
  - by rw bool_decide_false; [|intros []].
Qed.

Lemma has_iff s vs a : poa_holds s vs → is_address a → store_Has s a = bool_decide (a ∈ poa_spec.addresses vs).
Proof.
  intros Hh Ha. unfold store_Has. apply bool_decide_ext. rw -not_eq_None_Some. split; [by apply (ph_only _ _ Hh)|].
  unfold poa_spec.addresses. intros (v & -> & Hv)%list_elem_of_fmap. by rw (proj2 (ph_entry _ _ Hh v Hv)).
Qed.

Lemma HasValidator_run c vs a : poa_holds (poa_store c) vs → is_address a →
  HasValidator modulePerms a self c = (Ok (bool_decide (a ∈ poa_spec.addresses vs)), c).
Proof.
  intros Hh Ha. unfold HasValidator. rw keeper_method_self. unfold kv_Has. by rw (has_iff _ vs).
Qed.

Lemma getValidator_run c vs v : poa_holds (poa_store c) vs → v ∈ vs → getValidator (v_Address v) self c = (Ok v, c).
Proof.
  intros Hh Hv. unfold getValidator, mbind, M_bind, kv_Get, MustUnmarshal. rw (proj2 (ph_entry _ _ Hh v Hv)). simpl.
  by rw Unmarshal_Marshal.
Qed.

Lemma param_run {A} `{Codec A} space key (x : A) caller c :
  store_Get (ctx_stores c (params_store space)) key = Some (Marshal JSON x) → param_Get space key caller c = (Ok x, c).
Proof. intros E. unfold param_Get, mbind, M_bind, kv_Get, MustUnmarshal. rw E. by rw Unmarshal_Marshal. Qed.

Lemma GetMaxValidators_run c p : params_at c p → GetMaxValidators modulePerms self c = (Ok (p_MaxValidators p), c).
Proof. intros (? & _). unfold GetMaxValidators. rw keeper_method_self. by apply param_run. Qed.
Lemma GetMinValidators_run c p : params_at c p → GetMinValidators modulePerms self c = (Ok (p_MinValidators p), c).
Proof. intros (_ & ? & _). unfold GetMinValidators. rw keeper_method_self. by apply param_run. Qed.

Lemma params_frame c c' p : params_at c p → frame [StoreKey] c c' → params_at c' p.
Proof.
  intros Hp (Hs & _). unfold params_at. rw (Hs (params_store DefaultParamspace)); [done|]. by intros ?%list_elem_of_singleton.
Qed.

(** *** Writing *)

(** Entries of other addresses survive the writes of the list and the counter. *)
Lemma holds_intro s s' vs vs' :
  list_is s' vs' → store_Get s' ValidatorsCountKey = Some (Marshal LengthPrefixed (Z.of_nat (length vs'))) →
  (∀ v, v ∈ vs' → is_address (v_Address v) ∧ store_Get s' (v_Address v) = Some (Marshal Bare v)) →
  (∀ a, is_address a → store_Get s' a ≠ None → a ∈ poa_spec.addresses vs') →
  NoDup (poa_spec.addresses vs') → Z.of_nat (length vs') < 2 ^ 16 - 1 → poa_holds s' vs'.
Proof. intros. split; auto. by left. Qed.

Lemma holds_add s vs v :
  poa_holds s vs → is_address (v_Address v) → v_Address v ∉ poa_spec.addresses vs → Z.of_nat (length vs) + 1 < 2 ^ 16 - 1 →
  poa_holds (store_Set (store_Set (store_Set s (v_Address v) (Marshal Bare v)) ValidatorsListKey (Marshal Bare (vs ++ [v])))
    ValidatorsCountKey (Marshal LengthPrefixed (Z.of_nat (length vs) + 1))) (vs ++ [v]).
Proof.
  intros Hh Ha Hn Hlt. pose proof (address_not_count _ Ha) as Hc. pose proof (address_not_list _ Ha) as Hl.
  assert (length (vs ++ [v]) = S (length vs)) as Hlen by (rw length_app; simpl; lia).
  apply (holds_intro s _ vs).
  - unfold list_is. rw store_Get_Set_ne; [|done]. rw store_Get_Set_eq. destruct (vs ++ [v]) eqn:E; [by apply app_nil in E as [_ ?]|done].
  - rw store_Get_Set_eq Hlen. do 2 f_equal. lia.
  - intros x [Hx| ->%list_elem_of_singleton]%elem_of_app.
    + destruct (ph_entry _ _ Hh x Hx) as [Hax Hgx]. split; [done|].
      rw !store_Get_Set_ne; [done|..].
      * intros E. apply Hn. rw E. by apply list_elem_of_fmap_2.
      * intros E. by apply (address_not_list _ Hax).
      * intros E. by apply (address_not_count _ Hax).
    + split; [done|]. rw store_Get_Set_ne; [|congruence]. rw store_Get_Set_ne; [|congruence]. by rw store_Get_Set_eq.
  - intros a Haa. rw !store_Get_Set. unfold poa_spec.addresses. rw fmap_app.
    repeat case_decide; intros Hs; apply elem_of_app; [..|left; by apply (ph_only _ _ Hh)].
    + subst a. exfalso. by apply (address_not_count _ Haa).
    + subst a. exfalso. by apply (address_not_list _ Haa).
    + subst a. right. left.
  - unfold poa_spec.addresses. rw fmap_app. apply NoDup_app. split; [apply Hh|]. split; [|apply NoDup_singleton].
    intros x Hx ->%list_elem_of_singleton. done.
  - rw Hlen. lia.
Qed.

Lemma holds_remove s vs a :
  poa_holds s vs → is_address a → a ∈ poa_spec.addresses vs → let vs' := filter (λ v, v_Address v ≠ a) vs in
  poa_holds (store_Set (if (1 <? length vs)%nat
                        then store_Set (store_Delete s a) ValidatorsListKey (Marshal Bare vs')
                        else store_Delete (store_Delete s a) ValidatorsListKey)
    ValidatorsCountKey (Marshal LengthPrefixed (Z.of_nat (length vs) - 1))) vs'.
Proof.
  intros Hh Ha Hin vs'. pose proof (address_not_count _ Ha) as Hc. pose proof (address_not_list _ Ha) as Hl.
  pose proof (length_filter_others vs a (ph_NoDup _ _ Hh) Hin) as Hlen. fold vs' in Hlen.
  assert (∀ k, k ≠ ValidatorsListKey → k ≠ ValidatorsCountKey → store_Get (store_Set (if (1 <? length vs)%nat
      then store_Set (store_Delete s a) ValidatorsListKey (Marshal Bare vs')
      else store_Delete (store_Delete s a) ValidatorsListKey)
    ValidatorsCountKey (Marshal LengthPrefixed (Z.of_nat (length vs) - 1))) k = if decide (a = k) then None else store_Get s k) as Hget.
  { intros k K1 K2. rw store_Get_Set_ne; [|congruence]. destruct (1 <? length vs)%nat.
    - rw store_Get_Set_ne; [|congruence]. apply store_Get_Delete.
    - rw store_Get_Delete_ne; [|congruence]. apply store_Get_Delete. }
  apply (holds_intro s _ vs).
  - unfold list_is. rw store_Get_Set_ne; [|done]. destruct (Nat.ltb_spec 1 (length vs)).
    + rw store_Get_Set_eq. destruct vs'; [simpl in Hlen; lia|done].
    + rw store_Get_Delete_eq. destruct vs'; [done|simpl in Hlen; lia].
  - rw store_Get_Set_eq. do 2 f_equal. lia.
  - intros x [Hxa Hx]%list_elem_of_filter. destruct (ph_entry _ _ Hh x Hx) as [Hax Hgx]. split; [done|].
    rw Hget; [rw decide_False; [done|congruence]|by apply address_not_list|by apply address_not_count].
  - intros b Hb. rw Hget; [|by apply address_not_list|by apply address_not_count]. case_decide; [done|].
    intros Hs. apply filter_others_addresses. split; [by apply (ph_only _ _ Hh)|done].
  - unfold poa_spec.addresses. eapply sublist_NoDup; [apply (ph_NoDup _ _ Hh)|]. apply fmap_sublist, sublist_filter.
  - pose proof (ph_small _ _ Hh). lia.
Qed.

(** *** The operations refine the abstract ones *)
Lemma Validate_not_panic v : Validator_Validate v ≠ Panic.
Proof. unfold Validator_Validate, fail_if. by repeat case_match. Qed.

Lemma uint16_small z : 0 ≤ z < 2 ^ 16 → uint16 z = z.
Proof. apply Z.mod_small. Qed.

Lemma writes_keeper c c' A (m : M A) o : writes [StoreKey] m → m self c = (o, c') → frame [StoreKey] c c'.
Proof. intros Hw. by apply writes_run. Qed.

(** The writes of an addition. *)
Lemma add_writes vs v c : poa_holds (poa_store c) vs → is_address (v_Address v) → v_Address v ∉ poa_spec.addresses vs →
  Z.of_nat (length vs) + 1 < 2 ^ 16 - 1 →
  ∃ c', (kv_Set StoreKey (v_Address v) (Marshal Bare v);; addValidatorToList modulePerms v;;
         increaseValidatorsAmount modulePerms;; EmitEvent (NewValidatorAddedEvent v)) self c = (Ok tt, c') ∧
    poa_holds (poa_store c') (vs ++ [v]) ∧ frame [StoreKey] c c'.
Proof.
  intros Hh Ha Hn Hlt. set (c1 := set_store c StoreKey (store_Set (poa_store c) (v_Address v) (Marshal Bare v))).
  rw (M_bind_Ok (kv_Set _ _ _) _ _ c tt c1); [|done].
  assert (list_is (poa_store c1) vs) as Hl by (etrans; [apply store_Get_Set_ne; by apply address_not_list|apply Hh]).
  set (c2 := set_store c1 StoreKey (store_Set (poa_store c1) ValidatorsListKey (Marshal Bare (vs ++ [v])))).
  rw (M_bind_Ok (addValidatorToList _ _) _ _ c1 tt c2); [|unfold addValidatorToList; by rw (M_bind_Ok _ _ _ _ _ _ (GetValidators_run c1 vs Hl))].
  assert (count_is (poa_store c2) (Z.of_nat (length vs))) as Hc.
  { pose proof (ph_count _ _ Hh) as Hc. unfold count_is in *. simpl ctx_stores. rw !store_Get_Set_ne; [done|by apply address_not_count|done]. }
  set (c3 := set_store c2 StoreKey (store_Set (poa_store c2) ValidatorsCountKey (Marshal LengthPrefixed (Z.of_nat (length vs) + 1)))).
  rw (M_bind_Ok (increaseValidatorsAmount _) _ _ c2 (Z.of_nat (length vs) + 1) c3).
  2:{ unfold increaseValidatorsAmount. rw (M_bind_Ok _ _ _ _ _ _ (GetValidatorAmount_run c2 _ Hc)). rw uint16_small; [done|lia]. }
  eexists. split; [done|]. split; [|split; [|done]].
  - simpl ctx_stores. by apply holds_add.
  - intros k Hk. simpl. rw !decide_False; [done|..]; intros ->; apply Hk; left.
Qed.

(** The writes of a removal. *)
Lemma remove_writes vs v c : poa_holds (poa_store c) vs → v ∈ vs →
  ∃ c', (kv_Delete StoreKey (v_Address v);; removeValidatorFromList modulePerms (v_Address v);;
         decreaseValidatorsAmount modulePerms;; EmitEvent (NewValidatorRemovedEvent v)) self c = (Ok tt, c') ∧
    poa_holds (poa_store c') (filter (λ x, v_Address x ≠ v_Address v) vs) ∧ frame [StoreKey] c c'.
Proof.
  intros Hh Hv. pose proof (ph_entry _ _ Hh v Hv) as [Ha _]. set (a := v_Address v) in *.
  assert (a ∈ poa_spec.addresses vs) as Hin by (by apply list_elem_of_fmap_2).
  set (vs' := filter (λ x, v_Address x ≠ a) vs).
  set (c1 := set_store c StoreKey (store_Delete (poa_store c) a)). rw (M_bind_Ok (kv_Delete _ _) _ _ c tt c1); [|done].
  assert (list_is (poa_store c1) vs) as Hl by (etrans; [apply store_Get_Delete_ne; by apply address_not_list|apply Hh]).
  destruct (list_find_elem_of (λ x, v_Address x = a) vs v) as [[idx x] Hfind]; [done..|].
  set (c2 := set_store c1 StoreKey (if (1 <? length vs)%nat
    then store_Set (poa_store c1) ValidatorsListKey (Marshal Bare vs') else store_Delete (poa_store c1) ValidatorsListKey)).
  rw (M_bind_Ok (removeValidatorFromList _ _) _ _ c1 tt c2).
  2:{ unfold removeValidatorFromList. rw (M_bind_Ok _ _ _ _ _ _ (GetValidators_run c1 vs Hl)). rw Hfind.
      rw (filter_others vs idx x a (ph_NoDup _ _ Hh) Hfind). unfold c2. by destruct (1 <? length vs)%nat. }
  assert (count_is (poa_store c2) (Z.of_nat (length vs))) as Hc.
  { pose proof (ph_count _ _ Hh) as Hc.
    assert (store_Get (poa_store c2) ValidatorsCountKey = store_Get (poa_store c) ValidatorsCountKey) as E; [|unfold count_is; by rw E].
    simpl. destruct (1 <? length vs)%nat.
    - rw store_Get_Set_ne; [|done]. apply store_Get_Delete_ne. by apply address_not_count.
    - rw store_Get_Delete_ne; [|done]. apply store_Get_Delete_ne. by apply address_not_count. }
  set (c3 := set_store c2 StoreKey (store_Set (poa_store c2) ValidatorsCountKey (Marshal LengthPrefixed (Z.of_nat (length vs) - 1)))).
  rw (M_bind_Ok (decreaseValidatorsAmount _) _ _ c2 (Z.of_nat (length vs) - 1) c3).
  2:{ unfold decreaseValidatorsAmount. rw (M_bind_Ok _ _ _ _ _ _ (GetValidatorAmount_run c2 _ Hc)). rw uint16_small; [done|].
      pose proof (ph_small _ _ Hh). destruct vs; [by apply elem_of_nil in Hv|simpl in *; lia]. }
  eexists. split; [done|]. split; [|split; [|done]].
  - simpl ctx_stores. by apply holds_remove.
  - intros k Hk. simpl. rw !decide_False; [done|..]; intros ->; apply Hk; left.
Qed.

Definition result_of {A B} (m : M A) c (spec : outcome B) (P : B → Ctx → Prop) : Prop :=
  match spec with
  | Ok b => ∃ x c', m self c = (Ok x, c') ∧ P b c'
  | Err e => m self c = (Err e, c)
  | Panic => False
  end.

Lemma addValidator_refines c vs p a eth limit :
  poa_holds (poa_store c) vs → params_at c p → is_address a → (limit = false → Z.of_nat (length vs) + 1 < 2 ^ 16 - 1) →
  result_of (addValidator modulePerms a eth limit) c
    (poa_spec.add (if limit then Some (p_MaxValidators p) else None) vs (NewValidator a eth))
    (λ vs' c', poa_holds (poa_store c') vs' ∧ frame [StoreKey] c c').
Proof.
  intros Hh Hp Ha Hlim. unfold result_of, poa_spec.add, addValidator.
  pose proof (Validate_not_panic (NewValidator a eth)) as Hnp.
  destruct (Validator_Validate (NewValidator a eth)) as [u|e|]; [|done..]. rw outcome_bind_ok.
  rw (M_bind_Ok (lift (Ok u)) _ _ c u c); [|done]. rw (M_bind_Ok _ _ _ _ _ _ (HasValidator_run c vs a Hh Ha)). simpl v_Address.
  case_bool_decide as Hin; [done|]. simpl. pose proof (ph_small _ _ Hh) as Hsm.
  destruct limit.
  - destruct (Z.ltb_spec (p_MaxValidators p) (Z.of_nat (length vs) + 1)) as [Hlt|Hge].
    + simpl. apply M_bind_Err. rw (M_bind_Ok _ _ _ _ _ _ (GetMaxValidators_run c p Hp)).
      rw (M_bind_Ok _ _ _ _ _ _ (GetValidatorAmount_run c _ (ph_count _ _ Hh))). rw uint16_small; [|lia].
      by rw (proj2 (Z.ltb_lt _ _) Hlt).
    + simpl. destruct (add_writes vs (NewValidator a eth) c) as (c' & Hrun & Hres); [done..|destruct Hp as (_ & _ & _ & ?); lia|].
      exists tt, c'. split; [|done]. rw (M_bind_Ok _ _ _ c tt c); [exact Hrun|].
      rw (M_bind_Ok _ _ _ _ _ _ (GetMaxValidators_run c p Hp)).
      rw (M_bind_Ok _ _ _ _ _ _ (GetValidatorAmount_run c _ (ph_count _ _ Hh))). rw uint16_small; [|lia].
      by rw (proj2 (Z.ltb_ge _ _) Hge).
  - simpl. destruct (add_writes vs (NewValidator a eth) c) as (c' & Hrun & Hres); [done..|by apply Hlim|].
    exists tt, c'. split; [|done]. by rw (M_bind_Ok (mret tt) _ _ c tt c).
Qed.

Lemma removeValidator_refines c vs p a limit :
  poa_holds (poa_store c) vs → params_at c p → is_address a →
  result_of (removeValidator modulePerms a limit) c
    (poa_spec.remove (if limit then Some (p_MinValidators p) else None) vs a)
    (λ vs' c', poa_holds (poa_store c') vs' ∧ frame [StoreKey] c c').
Proof.
  intros Hh Hp Ha. unfold result_of, poa_spec.remove, removeValidator.
  rw (M_bind_Ok _ _ _ _ _ _ (HasValidator_run c vs a Hh Ha)). pose proof (ph_small _ _ Hh) as Hsm.
  destruct (decide (a ∈ poa_spec.addresses vs)) as [Hin|Hin].
  2:{ by rw bool_decide_true; [|done]; rw bool_decide_false. }
  rw bool_decide_false; [|tauto]. rw bool_decide_true; [|done]. cbn [negb]. cbv iota. simpl fail_if. rw outcome_bind_ok.
  unfold poa_spec.addresses in Hin. apply list_elem_of_fmap in Hin as (v & -> & Hv).
  rw (M_bind_Ok _ _ _ _ _ _ (getValidator_run c vs v Hh Hv)).
  assert (1 ≤ Z.of_nat (length vs)) as Hpos by (destruct vs; [by apply elem_of_nil in Hv|simpl; lia]).
  destruct (remove_writes vs v c Hh Hv) as (c' & Hrun & Hres). destruct limit.
  - assert (∀ r, (minValidators ← GetMinValidators modulePerms; curValidators ← GetValidatorAmount modulePerms;
        if uint16 (curValidators - 1) <? minValidators then throw ErrMinValidatorsReached else mret tt) self c = r →
      (if Z.of_nat (length vs) - 1 <? p_MinValidators p then throw ErrMinValidatorsReached else mret tt) self c = r) as Hchk.
    { intros r <-. rw (M_bind_Ok _ _ _ _ _ _ (GetMinValidators_run c p Hp)).
      rw (M_bind_Ok _ _ _ _ _ _ (GetValidatorAmount_run c _ (ph_count _ _ Hh))). rw uint16_small; [done|lia]. }
    destruct (Z.ltb_spec (Z.of_nat (length vs) - 1) (p_MinValidators p)); simpl.
    + apply M_bind_Err. symmetry. by apply Hchk.
    + exists tt, c'. split; [|done]. rw (M_bind_Ok _ _ _ c tt c); [exact Hrun|]. symmetry. by apply Hchk.
  - simpl. exists tt, c'. split; [|done]. by rw (M_bind_Ok (mret tt) _ _ c tt c).
Qed.

(** A message of the module, on the store and on lists.  A failing replacement may
    have removed the old validator already. *)
Lemma NewMsHandler_step c vs p msg caller :
  poa_holds (poa_store c) vs → params_at c p → poa_spec.well_addressed msg →
  match poa_spec.step p vs msg with
  | Ok vs' => ∃ c', NewMsHandler modulePerms msg caller c = (Ok tt, c') ∧ poa_holds (poa_store c') vs' ∧
      params_at c' p ∧ frame [StoreKey] c c'
  | Err e => ∃ c', NewMsHandler modulePerms msg caller c = (Err e, c') ∧
      ((∀ m, msg ≠ MsMsg_ReplaceValidator m) → c' = c) ∧ frame [StoreKey] c c'
  | Panic => False
  end.
Proof.
  intros Hh Hp Hmsg. unfold NewMsHandler, in_module. rw -own_perms. destruct msg as [m|m|m|]; simpl in *.
  - pose proof (addValidator_refines c vs p (mav_Address m) (mav_EthAddress m) true Hh Hp Hmsg ltac:(done)) as Hr.
    unfold handleMsMsgAddValidator, AddValidator, result_of in *. destruct (poa_spec.add _ _ _) as [vs'|e|]; [|..|done].
    + destruct Hr as ([] & c1 & Hrun & Hh1 & Hf). eexists. split.
      { rw (M_bind_Ok _ _ _ _ tt c1); [done|by rw keeper_method_self]. }
      split; [done|]. split; [by eapply params_frame|done].
    + exists c. split; [|by split]. apply M_bind_Err. by rw keeper_method_self.
  - pose proof (removeValidator_refines c vs p (mrv_Address m) true Hh Hp Hmsg) as Hr.
    unfold handleMsMsgRemoveValidator, RemoveValidator, result_of in *. destruct (poa_spec.remove _ _ _) as [vs'|e|]; [|..|done].
    + destruct Hr as ([] & c1 & Hrun & Hh1 & Hf). eexists. split.
      { rw (M_bind_Ok _ _ _ _ tt c1); [done|by rw keeper_method_self]. }
      split; [done|]. split; [by eapply params_frame|done].
    + exists c. split; [|by split]. apply M_bind_Err. by rw keeper_method_self.
  - destruct Hmsg as [Hold Hnew]. pose proof (removeValidator_refines c vs p (mpv_OldValidator m) false Hh Hp Hold) as Hr.
    unfold handleMsMsgReplaceValidator, ReplaceValidator, result_of in Hr |- *.
    unfold poa_spec.remove in Hr |- *. case_bool_decide as Hin; simpl in Hr |- *.
    { exists c. split; [|by split]. apply M_bind_Err. rw keeper_method_self. by apply M_bind_Err. }
    destruct Hr as ([] & c1 & Hrun & Hh1 & Hf). set (vs1 := filter (λ v, v_Address v ≠ mpv_OldValidator m) vs) in *.
    assert (S (length vs1) = length vs) as Hlen.
    { apply length_filter_others; [apply Hh|]. destruct (decide (mpv_OldValidator m ∈ poa_spec.addresses vs)); tauto. }
    pose proof (params_frame _ _ _ Hp Hf) as Hp1.
    pose proof (addValidator_refines c1 vs1 p (mpv_NewValidator m) (mpv_EthAddress m) false Hh1 Hp1 Hnew) as Hr.
    unfold result_of in Hr. simpl in Hr. pose proof (ph_small _ _ Hh).
    destruct (poa_spec.add None vs1 _) as [vs'|e|]; [|..|by apply Hr; lia].
    + destruct Hr as ([] & c2 & Hrun2 & Hh2 & Hf2); [intros _; lia|]. eexists. split.
      { rw (M_bind_Ok _ _ _ _ tt c2); [done|]. rw keeper_method_self. by rw (M_bind_Ok _ _ _ _ _ _ Hrun). }
      split; [done|]. pose proof (frame_trans _ _ _ _ Hf Hf2). split; [by eapply params_frame|done].
    + exists c1. split; [|split; [|done]].
      * apply M_bind_Err. rw keeper_method_self (M_bind_Ok _ _ _ _ _ _ Hrun). apply Hr. intros _. lia.
      * intros Hm. by destruct (Hm m).
  - exists c. split; [done|]. by split.
Qed.

(** C13: a multi signature message does to the store what the abstract operation does
    to the list of validators: it succeeds or fails with the same error, the
    list, the entries and the counter all follow, and no other store is touched. *)
Theorem NewMsHandler_refines c vs p msg caller :
  poa_holds (poa_store c) vs → params_at c p → poa_spec.well_addressed msg →
  match poa_spec.step p vs msg with
  | Ok vs' => ∃ c', NewMsHandler modulePerms msg caller c = (Ok tt, c') ∧ poa_holds (poa_store c') vs' ∧
      params_at c' p ∧ frame [StoreKey] c c'
  | Err e => ∃ c', NewMsHandler modulePerms msg caller c = (Err e, c') ∧
      ((∀ m, msg ≠ MsMsg_ReplaceValidator m) → c' = c) ∧ frame [StoreKey] c c'
  | Panic => False
  end.
Proof. apply NewMsHandler_step. Qed.

(** The number of validators is within the parameters' limits. *)
Definition within_limits (p : Params) vs : Prop :=
  p_MinValidators p ≤ Z.of_nat (length vs) ≤ p_MaxValidators p.

Lemma step_within_limits p vs msg vs' : NoDup (poa_spec.addresses vs) →
  within_limits p vs → poa_spec.step p vs msg = Ok vs' → within_limits p vs'.
Proof.
  intros Hnd Hl. unfold within_limits in *.
  assert (∀ lim vs v vs', poa_spec.add lim vs v = Ok vs' → length vs' = S (length vs) ∧
    ∀ max, lim = Some max → Z.of_nat (length vs') ≤ max) as Hadd.
  { intros lim us v us' Hs. unfold poa_spec.add in Hs. ok_inv. rw length_app. simpl. split; [lia|]. intros max ->.
    apply Z.ltb_ge in Hrun1. lia. }
  assert (∀ lim a vs', poa_spec.remove lim vs a = Ok vs' → S (length vs') = length vs ∧
    ∀ min, lim = Some min → min ≤ Z.of_nat (length vs')) as Hrem.
  { intros lim a us Hs. unfold poa_spec.remove in Hs. ok_inv. apply bool_decide_eq_false in Hrun.
    assert (a ∈ poa_spec.addresses vs) as Hin by (destruct (decide (a ∈ poa_spec.addresses vs)); tauto).
    pose proof (length_filter_others vs a Hnd Hin) as Hlen. split; [done|]. intros min ->. apply Z.ltb_ge in Hrun0. lia. }
  destruct msg as [m|m|m|]; simpl; [..|done].
  - intros [Hlen Hmax]%Hadd. specialize (Hmax _ eq_refl). lia.
  - intros [Hlen Hmin]%Hrem. specialize (Hmin _ eq_refl). lia.
  - intros (vs1 & [Hlen1 _]%Hrem & [Hlen2 _]%Hadd)%outcome_bind_inv. lia.
Qed.

(** C14: whatever message is executed, the validators stay a list without duplicates,
    mirrored by the entries and the counter, and their number stays between the
    minimum and the maximum of the parameters. *)
Theorem NewMsHandler_keeps_limits c vs p msg caller u c' :
  poa_holds (poa_store c) vs → params_at c p → within_limits p vs → poa_spec.well_addressed msg →
  NewMsHandler modulePerms msg caller c = (Ok u, c') →
  ∃ vs', poa_holds (poa_store c') vs' ∧ params_at c' p ∧ within_limits p vs' ∧
    GetValidatorAmount modulePerms self c' = (Ok (Z.of_nat (length vs')), c').
Proof.
  intros Hh Hp Hl Hmsg Hrun. pose proof (NewMsHandler_step c vs p msg caller Hh Hp Hmsg) as Hs.
  destruct (poa_spec.step p vs msg) as [vs'|e|] eqn:E; [|destruct Hs as (? & Hs & _); congruence|done].
  destruct Hs as (c1 & Hrun1 & Hh1 & Hp1 & _). assert (c1 = c') as -> by congruence. exists vs'. split; [done|]. split; [done|].
  split; [eapply step_within_limits; [apply (ph_NoDup _ _ Hh)|done..]|]. apply GetValidatorAmount_run, Hh1.
Qed.

(** The number of confirmations a call needs is a majority of the validators that
    they can reach: any two sets of validators that large have a member in common. *)
Theorem GetEnoughConfirmations_majority c vs :
  poa_holds (poa_store c) vs →
  ∃ q, GetEnoughConfirmations modulePerms self c = (Ok q, c) ∧ Z.of_nat (length vs) < 2 * q ∧
    (vs ≠ [] → q ≤ Z.of_nat (length vs)) ∧
    ∀ xs ys, NoDup xs → NoDup ys → xs ⊆ poa_spec.addresses vs → ys ⊆ poa_spec.addresses vs →
      q ≤ Z.of_nat (length xs) → q ≤ Z.of_nat (length ys) → ∃ a, a ∈ xs ∧ a ∈ ys.
Proof.
  intros Hh. set (n := Z.of_nat (length vs)). pose proof (ph_small _ _ Hh) as Hsm. fold n in Hsm.
  assert (0 ≤ n) as Hn0 by (unfold n; lia). pose proof (Z.div_mod n 2 ltac:(lia)) as Hd. pose proof (Z.mod_pos_bound n 2 ltac:(lia)) as Hm.
  exists (n / 2 + 1). split; [|split; [lia|split]].
  - unfold GetEnoughConfirmations. rw keeper_method_self (M_bind_Ok _ _ _ _ _ _ (GetValidatorAmount_run c _ (ph_count _ _ Hh))).
    fold n. rw uint16_small; [done|lia].
  - intros Hne. assert (1 ≤ n) by (unfold n; destruct vs; [done|simpl; lia]). lia.
  - intros xs ys Hx Hy Hsx Hsy Hlx Hly. destruct (decide (Exists (λ a, a ∈ ys) xs)) as [(a & Ha & Hb)%Exists_exists|Hno]; [by exists a|].
    exfalso. assert (xs ++ ys ⊆+ poa_spec.addresses vs) as Hsub.
    { apply NoDup_submseteq.
      - apply NoDup_app. split; [done|]. split; [|done]. intros a Ha Hb. apply Hno, Exists_exists. by exists a.
      - intros a [Ha|Ha]%elem_of_app; [by apply Hsx|by apply Hsy]. }
    apply submseteq_length in Hsub. unfold poa_spec.addresses in Hsub. rw length_app length_fmap in Hsub. unfold n in *. lia.
Qed.

(** *** Genesis *)
Lemma Validate_validators_inv vs seen seen' : foldM Validate_validator seen vs = Ok seen' →
  ∀ v, v ∈ vs → Validator_Validate v = Ok tt.
Proof.
  revert seen. induction vs as [|x vs IH]; intros seen Hf v Hv; [by apply elem_of_nil in Hv|].
  simpl in Hf. apply outcome_bind_inv in Hf as (seen1 & Hx & Hf). apply elem_of_cons in Hv as [->|Hv]; [|by eapply IH].
  unfold Validate_validator in Hx. by apply outcome_bind_inv in Hx as ([] & ? & _).
Qed.

Lemma setParams_run p caller c : 0 ≤ p_MinValidators p < 2 ^ 16 → 0 ≤ p_MaxValidators p < 2 ^ 16 - 1 →
  ∃ c', setParams p caller c = (Ok tt, c') ∧ params_at c' p ∧ (∀ k, k ≠ params_store DefaultParamspace → ctx_stores c' k = ctx_stores c k).
Proof.
  intros Hmin Hmax. eexists. split; [reflexivity|]. split; [|intros k Hk; simpl; by rw !decide_False].
  split; [|split; [|done]]; simpl; [rw store_Get_Set_ne; [|done]|]; by rw store_Get_Set_eq.
Qed.

Lemma genesis_loop p vs pre c :
  poa_holds (poa_store c) pre → params_at c p → NoDup (poa_spec.addresses (pre ++ vs)) →
  Z.of_nat (length (pre ++ vs)) ≤ p_MaxValidators p → (∀ v, v ∈ vs → is_address (v_Address v) ∧ Validator_Validate v = Ok tt) →
  ∃ c', forM vs (λ v, r ← attempt (AddValidator modulePerms (v_Address v) (v_EthAddress v));
                      match r with Ok _ => mret tt | _ => panic end) self c = (Ok tt, c') ∧
    poa_holds (poa_store c') (pre ++ vs) ∧ params_at c' p.
Proof.
  revert pre c. induction vs as [|v vs IH]; intros pre c Hh Hp Hnd Hlen Hvs.
  { exists c. by rw app_nil_r. }
  destruct (Hvs v) as [Ha Hval]; [left|]. rw length_app length_cons in Hlen.
  pose proof (addValidator_refines c pre p (v_Address v) (v_EthAddress v) true Hh Hp Ha ltac:(done)) as Hr.
  assert (poa_spec.add (Some (p_MaxValidators p)) pre (NewValidator (v_Address v) (v_EthAddress v)) = Ok (pre ++ [v])) as E.
  { unfold poa_spec.add. assert (NewValidator (v_Address v) (v_EthAddress v) = v) as -> by (by destruct v).
    rw Hval bool_decide_false; [by rw (proj2 (Z.ltb_ge _ _)); [|lia]|].
    unfold poa_spec.addresses in Hnd |- *. rw fmap_app in Hnd. apply NoDup_app in Hnd as (_ & Hn & _).
    intros Hin. apply (Hn _ Hin). left. }
  unfold result_of in Hr. rw E in Hr. destruct Hr as ([] & c1 & Hrun & Hh1 & Hf).
  rw (cons_middle v pre vs) (app_assoc pre) in Hnd. rw (cons_middle v pre vs) (app_assoc pre).
  destruct (IH (pre ++ [v]) c1 Hh1 (params_frame _ _ _ Hp Hf) Hnd) as (c' & Hrun' & Hres).
  { rw !length_app. simpl. lia. } { intros x Hx. apply Hvs. by right. }
  exists c'. split; [|done]. cbn [forM]. rw (M_bind_Ok _ _ _ _ tt c1); [done|].
  rw (M_bind_Ok _ _ _ _ (Ok tt) c1); [done|]. apply attempt_Ok. unfold AddValidator. by rw keeper_method_self.
Qed.

(** Exporting the validators and importing the valid export into an empty module
    gives the same validators and parameters; exporting again gives the same state. *)
Theorem poa_genesis_roundtrip c c0 vs p u :
  poa_holds (poa_store c) vs → params_at c p → GenesisState_Validate (MkGenesisState p vs) false = Ok u →
  (∀ k, store_Get (poa_store c0) k = None) →
  ∃ c1, ExportGenesis modulePerms self c = (Ok (MkGenesisState p vs), c) ∧
    InitGenesis modulePerms (MkGenesisState p vs) self c0 = (Ok tt, c1) ∧
    poa_holds (poa_store c1) vs ∧ params_at c1 p ∧
    ExportGenesis modulePerms self c1 = (Ok (MkGenesisState p vs), c1).
Proof.
  intros Hh Hp Hval Hempty.
  assert (∀ c, poa_holds (poa_store c) vs → params_at c p → ExportGenesis modulePerms self c = (Ok (MkGenesisState p vs), c)) as Hexp.
  { intros cx Hx Hpx. unfold ExportGenesis, GetParams. rw keeper_method_self.
    rw (M_bind_Ok (keeper_method _ _ _) _ _ cx (NewParams (p_MaxValidators p) (p_MinValidators p)) cx).
    - rw (M_bind_Ok _ _ _ _ _ _ (GetValidators_run cx vs (ph_list _ _ Hx))). by destruct p.
    - rw keeper_method_self. rw (M_bind_Ok _ _ _ _ _ _ (GetMinValidators_run cx p Hpx)).
      by rw (M_bind_Ok _ _ _ _ _ _ (GetMaxValidators_run cx p Hpx)). }
  pose proof Hp as (_ & _ & Hmin & Hmax). destruct (setParams_run p self c0 Hmin Hmax) as (c1 & Hset & Hp1 & Hst).
  unfold GenesisState_Validate in Hval. simpl in Hval. ok_inv. apply Z.ltb_ge in Hval.
  destruct (genesis_loop p vs [] c1) as (c2 & Hloop & Hh2 & Hp2).
  - apply empty_holds. intros k. by rw Hst.
  - done.
  - apply (ph_NoDup _ _ Hh).
  - done.
  - intros w Hw. split; [apply (ph_entry _ _ Hh w Hw)|]. by eapply Validate_validators_inv.
  - exists c2. split; [by apply Hexp|]. split; [|split; [done|split; [done|by apply Hexp]]].
    unfold InitGenesis. rw keeper_method_self. by rw (M_bind_Ok _ _ _ _ _ _ Hset).
Qed.
End poa.
