(* ===== verification/MsModule.v ===== *)
(** * Multi signature routing ([x/core/msmodule])

    Modules that accept multi signature messages register a handler under their
    route; a call is executed by the handler of its message's route. *)
From S2P Require Import Prelude Bytes Sdk DnTypes Perms Chain.
Local Open Scope string_scope.
Local Open Scope Z_scope.

(** [MsMsg]: what a multi signature message promises. *)
Class MsMsgs := {
  MsMsg : Type;
  MsMsg_Route : MsMsg → string;
  MsMsg_Type : MsMsg → string;
  MsMsg_ValidateBasic : MsMsg → outcome unit;
}.

Definition is_alnum (c : ascii) : bool := is_letter c || ((48 <=? byte_val c) && (byte_val c <=? 57)).
Fixpoint all_bytes (f : ascii → bool) (s : string) : bool :=
  match s with EmptyString => true | String c s' => f c && all_bytes f s' end.

(** The regular expression [^[a-zA-Z0-9]+$]. *)
Definition isAlphaNumeric (s : string) : bool := negb (bool_decide (s = "")) && all_bytes is_alnum s.

Section router.
Context `{KV : KVStore} `{LG : Ledger} `{MS : MsMsgs}.

Definition MsHandler : Type := MsMsg → M unit.

(** ** The router: handlers are never nil, a route is in the map or not *)
Record msRouter := MkMsRouter { rtr_routes : gmap string MsHandler; rtr_sealed : bool }.

Definition NewMsRouter : msRouter := MkMsRouter ∅ false.

Definition Seal (rtr : msRouter) : outcome msRouter :=
  panic_if (rtr_sealed rtr);; Ok (MkMsRouter (rtr_routes rtr) true).

Definition HasRoute (rtr : msRouter) (path : string) : bool := bool_decide (is_Some (rtr_routes rtr !! path)).

Definition AddRoute (rtr : msRouter) (path : string) (h : MsHandler) : outcome msRouter :=
  panic_if (rtr_sealed rtr);;
  panic_if (negb (isAlphaNumeric path));;
  panic_if (HasRoute rtr path);;
  Ok (MkMsRouter (<[path := h]> (rtr_routes rtr)) (rtr_sealed rtr)).

Definition GetRoute (rtr : msRouter) (path : string) : outcome MsHandler :=
  match rtr_routes rtr !! path with Some h => Ok h | None => Panic end.

(** ** The module manager

    A module of the application; [ir] is the SDK's invariant registry.  A module
    with a multi signature handler is an [AppMsModule]. *)
Section manager.
Variable ir : Type.

Record AppModule := MkAppModule {
  am_Name : string;
  am_Route : string;
  am_RegisterInvariants : ir → ir;
  am_NewMsHandler : option MsHandler;
}.
Record AppMsModule := MkAppMsModule { ams_Route : string; ams_NewMsHandler : MsHandler }.

(** [interface{}]: a module, or something else. *)
Inductive instance := Instance_module (m : AppModule) | Instance_other.

Record MsManager := MkMsManager {
  mgr_Modules : gmap string AppModule;
  mgr_Order : list string;
  mgr_MsModules : gmap string AppMsModule;
}.

(** One instance: the maps are keyed by the module's name. *)
Definition add_instance (m : MsManager) (i : instance) : outcome MsManager :=
  match i with
  | Instance_other => Panic
  | Instance_module realModule =>
      Ok (MkMsManager (<[am_Name realModule := realModule]> (mgr_Modules m))
            (mgr_Order m ++ [am_Name realModule])%list
            (match am_NewMsHandler realModule with
             | Some h => <[am_Name realModule := MkAppMsModule (am_Route realModule) h]> (mgr_MsModules m)
             | None => mgr_MsModules m
             end))
  end.
Definition NewMsManager (modules : list instance) : outcome MsManager :=
  foldM add_instance (MkMsManager ∅ [] ∅) modules.

(** [modules] is the order the map of modules is ranged over. *)
Definition register_route (router : msRouter) (m : AppMsModule) : outcome msRouter :=
  if bool_decide (ams_Route m = "") then Ok router else AddRoute router (ams_Route m) (ams_NewMsHandler m).
Definition RegisterMsRoutes (modules : list AppMsModule) (router : msRouter) : outcome msRouter :=
  router ← foldM register_route router modules;
  Seal router.

Definition RegisterInvariants (modules : list AppModule) (registry : ir) (blackList : list string) : ir :=
  foldl (λ registry m, if bool_decide (am_Name m ∈ blackList) then registry else am_RegisterInvariants m registry)
    registry modules.

(** ** Theorems *)

Lemma foldM_Panic_free {A B} (f : A → B → outcome A) l acc : (∀ a b e, f a b ≠ Err e) → ∀ e, foldM f acc l ≠ Err e.
Proof.
  intros Hf. revert acc. induction l as [|b l IH]; intros acc e; [done|]. simpl.
  destruct (f acc b) as [a|e'|] eqn:E; [apply IH|by destruct (Hf acc b e')|done].
Qed.

Lemma AddRoute_Ok rtr path h rtr' : AddRoute rtr path h = Ok rtr' →
  rtr_sealed rtr = false ∧ isAlphaNumeric path = true ∧ rtr_routes rtr !! path = None ∧
  rtr' = MkMsRouter (<[path := h]> (rtr_routes rtr)) false.
Proof.
  unfold AddRoute, HasRoute. intros Ha. ok_inv. repeat match goal with Hp : panic_if _ = Ok _ |- _ => apply panic_if_inv in Hp end.
  destruct (rtr_sealed rtr); [done|]. destruct (isAlphaNumeric path); [|done]. case_bool_decide as Hh; [done|].
  split; [done|]. split; [done|]. split; [by apply eq_None_not_Some|done].
Qed.

Lemma AddRoute_run rtr path h : rtr_sealed rtr = false → isAlphaNumeric path = true → rtr_routes rtr !! path = None →
  AddRoute rtr path h = Ok (MkMsRouter (<[path := h]> (rtr_routes rtr)) false).
Proof. intros Hs Ha Hn. unfold AddRoute, HasRoute. rw Hs Ha Hn. done. Qed.

Lemma register_route_not_Err rtr m e : register_route rtr m ≠ Err e.
Proof.
  unfold register_route, AddRoute, panic_if. case_bool_decide; [done|].
  by destruct (rtr_sealed rtr), (isAlphaNumeric (ams_Route m)), (HasRoute rtr (ams_Route m)).
Qed.

(** Two registrations commute: they clash in both orders or in none. *)
Lemma register_route_comm rtr m1 m2 :
  (r ← register_route rtr m1; register_route r m2) = (r ← register_route rtr m2; register_route r m1).
Proof.
  assert (∀ r r' m m', (x ← register_route r m; register_route x m') = Ok r' →
    (x ← register_route r m'; register_route x m) = Ok r') as Hok.
  { intros r r' m m' (x & Hm & Hm')%outcome_bind_inv. unfold register_route in *.
    destruct (decide (ams_Route m = "")) as [E|E]; destruct (decide (ams_Route m' = "")) as [E'|E'].
    - rw bool_decide_true in Hm; [|done]. rw bool_decide_true in Hm'; [|done]. ok_inv. by rw !bool_decide_true.
    - rw bool_decide_true in Hm; [|done]. injection Hm as <-. rw (bool_decide_false (ams_Route m' = "")) in Hm' |- *; [|done..].
      rw Hm' outcome_bind_ok. by rw bool_decide_true.
    - rw bool_decide_true in Hm'; [|done]. rw (bool_decide_false (ams_Route m = "")) in Hm |- *; [|done..]. injection Hm' as <-.
      rw bool_decide_true; [|done]. by rw outcome_bind_ok Hm.
    - rw bool_decide_false in Hm; [|done]. rw bool_decide_false in Hm'; [|done]. rw !bool_decide_false; [|done..].
      apply AddRoute_Ok in Hm as (Hs & Ha & Hn & ->). apply AddRoute_Ok in Hm' as (_ & Ha' & Hn' & ->). simpl in *.
      apply lookup_insert_None in Hn' as [Hn' Hne]. rw AddRoute_run; [|done..]. rw outcome_bind_ok.
      rw AddRoute_run; [|done|done|by rw lookup_insert_ne]. simpl. do 2 f_equal. by apply insert_insert_ne. }
  assert (∀ r m m' e, (x ← register_route r m; register_route x m') ≠ Err e) as Hne.
  { intros r m m' e. destruct (register_route r m) as [x|e'|] eqn:E; [|by destruct (register_route_not_Err r m e')|done].
    apply register_route_not_Err. }
  destruct (r ← register_route rtr m1; register_route r m2) as [r'|e|] eqn:E1; [by symmetry; apply Hok|by destruct (Hne rtr m1 m2 e)|].
  destruct (r ← register_route rtr m2; register_route r m1) as [r'|e|] eqn:E2; [|by destruct (Hne rtr m2 m1 e)|done].
  apply Hok in E2. congruence.
Qed.

Lemma foldM_register_perm l1 l2 : l1 ≡ₚ l2 → ∀ rtr, foldM register_route rtr l1 = foldM register_route rtr l2.
Proof.
  induction 1 as [|m l1 l2 _ IH|m1 m2 l|l1 l2 l3 _ IH1 _ IH2]; intros rtr; [done|..].
  - simpl. destruct (register_route rtr m); [apply IH|done..].
  - simpl. pose proof (register_route_comm rtr m2 m1) as Hc.
    destruct (register_route rtr m2) as [r1|e1|] eqn:E1, (register_route rtr m1) as [r2|e2|] eqn:E2; simpl in *; try done.
    + by rw Hc.
    + by rw Hc.
    + by rw Hc.
    + by rw -Hc.
    + by rw -Hc.
  - by rw IH1.
Qed.

(** Registering distinct valid routes in a new router: every one is found afterwards, and nothing else. *)
Lemma foldM_register_run l rtr : rtr_sealed rtr = false →
  NoDup (ams_Route <$> l) → (∀ m, m ∈ l → isAlphaNumeric (ams_Route m) = true ∧ rtr_routes rtr !! ams_Route m = None) →
  ∃ rtr', foldM register_route rtr l = Ok rtr' ∧ rtr_sealed rtr' = false ∧
    ∀ path h, rtr_routes rtr' !! path = Some h ↔
      rtr_routes rtr !! path = Some h ∨ ∃ m, m ∈ l ∧ ams_Route m = path ∧ ams_NewMsHandler m = h.
Proof.
  revert rtr. induction l as [|m l IH]; intros rtr Hs Hnd Hl.
  { exists rtr. split; [done|]. split; [done|]. intros path h. split; [by left|]. intros [?|(m & Hm%elem_of_nil & _)]; done. }
  rw fmap_cons in Hnd. apply NoDup_cons in Hnd as [Hn Hnd]. destruct (Hl m) as [Ha Hf]; [left|].
  set (rtr1 := MkMsRouter (<[ams_Route m := ams_NewMsHandler m]> (rtr_routes rtr)) false).
  assert (register_route rtr m = Ok rtr1) as Em.
  { unfold register_route. rw bool_decide_false; [by rw AddRoute_run|]. intros E. by rw E in Ha. }
  destruct (IH rtr1) as (rtr' & Hrun & Hs' & Hr); [done|done|..].
  { intros m' Hm'. destruct (Hl m') as [Ha' Hf']; [by right|]. split; [done|]. simpl. rw lookup_insert_ne; [done|].
    intros E. apply Hn. rw E. by apply list_elem_of_fmap_2. }
  exists rtr'. split; [simpl; by rw Em|]. split; [done|]. intros path h. rw Hr. simpl.
  destruct (decide (ams_Route m = path)) as [<-|Hne].
  - rw lookup_insert_eq. split.
    + intros [[= <-]|(m' & Hm' & E & <-)]; right; [exists m; split; [left|done]|exists m'; split; [by right|done]].
    + intros [E|(m' & [->|Hm']%elem_of_cons & E & <-)]; [congruence|by left|right; by exists m'].
  - rw lookup_insert_ne; [|done]. split.
    + intros [?|(m' & Hm' & E & <-)]; [by left|right; exists m'; split; [by right|done]].
    + intros [?|(m' & [->|Hm']%elem_of_cons & E & <-)]; [by left|done|right; by exists m'].
Qed.
(** The router does not depend on the order the map of modules is ranged over: every
    order gives the same router or the same panic.  With distinct, alphanumeric
    routes it is sealed and gives each module's handler under its route, nothing else. *)
Theorem RegisterMsRoutes_any_order l1 l2 : l1 ≡ₚ l2 →
  RegisterMsRoutes l1 NewMsRouter = RegisterMsRoutes l2 NewMsRouter ∧
  (NoDup (ams_Route <$> l1) → (∀ m, m ∈ l1 → isAlphaNumeric (ams_Route m) = true) →
   ∃ rtr, RegisterMsRoutes l1 NewMsRouter = Ok rtr ∧ rtr_sealed rtr = true ∧
     (∀ m, m ∈ l1 → GetRoute rtr (ams_Route m) = Ok (ams_NewMsHandler m)) ∧
     (∀ path, HasRoute rtr path = true ↔ path ∈ ams_Route <$> l1)).
Proof.
  intros Hp. unfold RegisterMsRoutes. split; [by rw (foldM_register_perm _ _ Hp)|]. intros Hnd Hl.
  destruct (foldM_register_run l1 NewMsRouter) as (rtr & Hrun & Hs & Hr); [done|done|by intros m Hm; split; [apply Hl|]|].
  exists (MkMsRouter (rtr_routes rtr) true). split; [rw Hrun outcome_bind_ok; unfold Seal; by rw Hs|]. split; [done|]. split.
  - intros m Hm. unfold GetRoute. simpl. rw (proj2 (Hr (ams_Route m) (ams_NewMsHandler m))); [done|]. right. by exists m.
  - intros path. unfold HasRoute. rw bool_decide_eq_true. simpl. split.
    + intros (h & [Hx|(m & Hm & <- & _)]%Hr); [done|]. by apply list_elem_of_fmap_2.
    + intros (m & -> & Hm)%list_elem_of_fmap. exists (ams_NewMsHandler m). apply Hr. right. by exists m.
Qed.
End manager.
End router.
