(* ===== verification/Multisig.v ===== *)
(** * Multi signature calls ([x/multisig])

    A validator submits a message as a call; validators confirm it, and the end
    blocker executes the calls that have enough confirmations and rejects those
    that waited too long.  A call lives in the store under its ID, with its voters,
    the match of its unique ID and, while it is pending, an entry of the queue. *)
From S2P Require Import Prelude Bytes Sdk SdkRef SdkFacts DnTypes Perms Chain Poa MsModule.
Local Open Scope string_scope.
Local Open Scope Z_scope.

(** ** What the module uses of the validators ([x/poa]) *)
Class ValidatorSet `{KV : KVStore} `{LG : Ledger} := {
  vs_HasValidator : AccAddress → M bool;
  vs_GetEnoughConfirmations : M Z;
}.

(** The promise: reading changes nothing. *)
Class ValidatorSetLaws `{VS : ValidatorSet} : Prop := {
  vs_HasValidator_reads a : reads (vs_HasValidator a);
  vs_GetEnoughConfirmations_reads : reads vs_GetEnoughConfirmations;
}.

Module multisig.

Definition ModuleName := "multisig".
Definition StoreKey := ModuleName.
Definition DefaultParamspace := ModuleName.
Definition PermInit := ModuleName +:+ "PermInit".
Definition PermRead := ModuleName +:+ "PermRead".
Definition PermWrite := ModuleName +:+ "PermWrite".
Definition AvailablePermissions : list string := [PermInit; PermRead; PermWrite].
Definition NewModulePerms : ModulePermissions := NewModulePermissions ModuleName AvailablePermissions.
Definition RequestPoaPerms : RequestModulePermissions := (ModuleName, [poa.PermRead]).

Definition ErrInternal := Registered ModuleName 100.
Definition ErrWrongCallId := Registered ModuleName 200.
Definition ErrWrongCallUniqueId := Registered ModuleName 201.
Definition ErrWrongMsg := Registered ModuleName 300.
Definition ErrWrongMsgRoute := Registered ModuleName 301.
Definition ErrWrongMsgType := Registered ModuleName 302.
Definition ErrVoteAlreadyApproved := Registered ModuleName 400.
Definition ErrVoteAlreadyConfirmed := Registered ModuleName 401.
Definition ErrVoteAlreadyRejected := Registered ModuleName 402.
Definition ErrVoteNoVotes := Registered ModuleName 403.
Definition ErrVoteNotApproved := Registered ModuleName 404.
Definition ErrPoaNotValidator := Registered ModuleName 500.

(** ** Parameters *)
Definition DefIntervalToExecute : Z := 86400.
Definition MinIntervalToExecute : Z := 10.
Definition ParamStoreKeyIntervalToExecute := "intervalToExecute".
Record Params := MkParams { p_IntervalToExecute : Z }.
Definition NewParams (intervalToExecute : Z) : Params := MkParams intervalToExecute.
Definition Params_Validate (p : Params) : outcome unit :=
  fail_if (p_IntervalToExecute p <? MinIntervalToExecute) (Plain "interval to execute calls should be GTE").

Notation Votes := (list AccAddress) (only parsing).

Section types.
Context `{ST : SdkTypes} `{MS : MsMsgs}.

(** ** Calls: a nil message is [None] *)
Record Call := MkCall {
  call_ID : ID;
  call_UniqueID : string;
  call_Creator : AccAddress;
  call_Approved : bool;
  call_Executed : bool;
  call_Failed : bool;
  call_Rejected : bool;
  call_Error : string;
  call_Msg : option MsMsg;
  call_MsgRoute : string;
  call_MsgType : string;
  call_Height : Z;
}.

Definition Call_Valid (c : Call) (curBlockHeight : Z) : outcome unit :=
  ID_Valid (Some (call_ID c));;
  fail_if (bool_decide (call_UniqueID c = "")) (Plain "unique_id: empty");;
  fail_if (bool_decide (call_Creator c = "")) (Plain "creator: empty");;
  fail_if (call_Approved c && negb (call_Executed c || call_Failed c)) (Plain "approved, but not executed/failed");;
  fail_if (call_Rejected c && (call_Approved c || call_Executed c || call_Failed c)) (Plain "rejected, but also approved/executed/failed");;
  fail_if (negb (bool_decide (is_Some (call_Msg c)))) (Plain "msg: nil");;
  fail_if (bool_decide (call_MsgRoute c = "")) (Plain "msg_route: empty");;
  fail_if (bool_decide (call_MsgType c = "")) (Plain "msg_type: empty");;
  fail_if (call_Height c <? 0) (Plain "height: LT 0");;
  fail_if (negb (curBlockHeight =? -1) && (curBlockHeight <? call_Height c)) (Plain "height: GT current blockHeight").

Definition CanBeVoted (c : Call) : outcome unit :=
  fail_if (call_Approved c) ErrVoteAlreadyApproved;;
  fail_if (call_Rejected c) ErrVoteAlreadyRejected.

Definition NewCall (id : ID) (uniqueID : string) (msg : option MsMsg) (blockHeight : Z) (creatorAddr : AccAddress) : outcome Call :=
  match msg with
  | None => Err ErrWrongMsg
  | Some m =>
      fail_if (bool_decide (MsMsg_Route m = "")) ErrWrongMsgRoute;;
      fail_if (bool_decide (MsMsg_Type m = "")) ErrWrongMsgType;;
      match ID_Valid (Some id) with
      | Err _ => Err ErrWrongCallId
      | Panic => Panic
      | Ok _ =>
          fail_if (bool_decide (uniqueID = "")) ErrWrongCallUniqueId;;
          fail_if (bool_decide (creatorAddr = "")) ErrInvalidAddress;;
          Ok (MkCall id uniqueID creatorAddr false false false false "" msg (MsMsg_Route m) (MsMsg_Type m) blockHeight)
      end
  end.

(** The fields the code assigns. *)
Definition with_Approved (c : Call) : Call :=
  MkCall (call_ID c) (call_UniqueID c) (call_Creator c) true (call_Executed c) (call_Failed c) (call_Rejected c)
    (call_Error c) (call_Msg c) (call_MsgRoute c) (call_MsgType c) (call_Height c).
Definition with_Executed (c : Call) : Call :=
  MkCall (call_ID c) (call_UniqueID c) (call_Creator c) (call_Approved c) true (call_Failed c) (call_Rejected c)
    (call_Error c) (call_Msg c) (call_MsgRoute c) (call_MsgType c) (call_Height c).
Definition with_Failed (c : Call) (err : string) : Call :=
  MkCall (call_ID c) (call_UniqueID c) (call_Creator c) (call_Approved c) (call_Executed c) true (call_Rejected c)
    err (call_Msg c) (call_MsgRoute c) (call_MsgType c) (call_Height c).
Definition with_Rejected (c : Call) : Call :=
  MkCall (call_ID c) (call_UniqueID c) (call_Creator c) (call_Approved c) (call_Executed c) (call_Failed c) true
    (call_Error c) (call_Msg c) (call_MsgRoute c) (call_MsgType c) (call_Height c).
Definition with_Height (c : Call) (height : Z) : Call :=
  MkCall (call_ID c) (call_UniqueID c) (call_Creator c) (call_Approved c) (call_Executed c) (call_Failed c)
    (call_Rejected c) (call_Error c) (call_Msg c) (call_MsgRoute c) (call_MsgType c) height.

(** ** Keys *)
Definition KeyDelimiter := ":".
Definition CallPrefix := "call".
Definition QueuePrefix := "queue".
Definition LastCallIdKey := "lastCallId".
Definition GetCallKey (callID : ID) : string := Join KeyDelimiter [CallPrefix; ID_String callID].
Definition GetCallKeyPrefix : string := CallPrefix +:+ KeyDelimiter.
Definition GetUniqueIDKey (callUniqueID : string) : string := Join KeyDelimiter ["uniqueId"; callUniqueID].
Definition GetVotesKey (callID : ID) : string := Join KeyDelimiter ["callVotes"; ID_String callID].
Definition GetQueueKey (callID : ID) (blockHeight : Z) : string :=
  Join KeyDelimiter [QueuePrefix; Uint64ToBigEndian (wrap64 blockHeight); ID_String callID].
Definition GetPrefixQueueKey (blockHeight : Z) : string :=
  Join KeyDelimiter [QueuePrefix; Uint64ToBigEndian (wrap64 blockHeight)].

(** [bytes.Split(key, KeyDelimiter)], three values expected; every failure panics. *)
Definition MustParseQueueKey (key : string) : outcome (ID * Z) :=
  match Split ":" key with
  | [v0; v1; v2] =>
      panic_if (negb (bool_decide (v0 = QueuePrefix)));;
      h ← BigEndian_Uint64 v1;
      match NewIDFromString v2 with
      | Ok id => Ok (id, int64 h)
      | _ => Panic
      end
  | _ => Panic
  end.

(** ** Events *)
Definition NewCallSubmittedEvent (call : Call) : Event :=
  MkEvent (ModuleName +:+ ".submit_call")
    [("msg_type", call_MsgType call); ("msg_route", call_MsgRoute call); ("call_id", ID_String (call_ID call));
     ("unique_id", call_UniqueID call); ("sender", AccAddress_String (call_Creator call))].
Definition NewCallRemovedEvent (callID : ID) : Event :=
  MkEvent (ModuleName +:+ ".remove_call") [("call_id", ID_String callID)].
Definition NewCallStateChangedEvent (callID : ID) (state : string) : Event :=
  MkEvent (ModuleName +:+ ".update_call") [("call_id", ID_String callID); ("call_state", state)].
Definition NewConfirmVoteEvent (callID : ID) (sender : AccAddress) : Event :=
  MkEvent (ModuleName +:+ ".confirm_vote") [("call_id", ID_String callID); ("sender", AccAddress_String sender)].
Definition NewRevokeVoteEvent (callID : ID) (sender : AccAddress) : Event :=
  MkEvent (ModuleName +:+ ".revoke_vote") [("call_id", ID_String callID); ("sender", AccAddress_String sender)].
Definition AttributeValueApproved := "approved".
Definition AttributeValueRejected := "rejected".
Definition AttributeValueFailed := "failed".
Definition AttributeValueExecuted := "executed".

(** ** Messages *)
Record MsgSubmitCall := MkMsgSubmitCall { msc_Msg : option MsMsg; msc_UniqueID : string; msc_Creator : AccAddress }.
Record MsgConfirmCall := MkMsgConfirmCall { mcc_CallID : ID; mcc_Sender : AccAddress }.
Record MsgRevokeConfirm := MkMsgRevokeConfirm { mrc_CallID : ID; mrc_Sender : AccAddress }.

(** A nil message is dereferenced. *)
Definition MsgSubmitCall_ValidateBasic (msg : MsgSubmitCall) : outcome unit :=
  fail_if (bool_decide (msc_UniqueID msg = "")) ErrWrongCallUniqueId;;
  fail_if (bool_decide (msc_Creator msg = "")) ErrInvalidAddress;;
  match msc_Msg msg with
  | None => Panic
  | Some m => match MsMsg_ValidateBasic m with Err _ => Err ErrWrongMsg | r => r end
  end.
Definition MsgConfirmCall_ValidateBasic (msg : MsgConfirmCall) : outcome unit :=
  match ID_Valid (Some (mcc_CallID msg)) with Err _ => Err ErrWrongCallId | r => r end;;
  fail_if (bool_decide (mcc_Sender msg = "")) ErrInvalidAddress.
Definition MsgRevokeConfirm_ValidateBasic (msg : MsgRevokeConfirm) : outcome unit :=
  match ID_Valid (Some (mrc_CallID msg)) with Err _ => Err ErrWrongCallId | r => r end;;
  fail_if (bool_decide (mrc_Sender msg = "")) ErrInvalidAddress.

Definition MsgSubmitCall_GetSigners (msg : MsgSubmitCall) : list AccAddress := [msc_Creator msg].
Definition MsgConfirmCall_GetSigners (msg : MsgConfirmCall) : list AccAddress := [mcc_Sender msg].
Definition MsgRevokeConfirm_GetSigners (msg : MsgRevokeConfirm) : list AccAddress := [mrc_Sender msg].

(** ** Genesis *)
Record GenesisCallItem := MkGenesisCallItem { gci_Call : Call; gci_Votes : Votes }.
Record GenesisQueueItem := MkGenesisQueueItem { gqi_CallID : ID; gqi_BlockHeight : Z }.
Record GenesisState := MkGenesisState {
  gs_Parameters : Params; gs_LastCallID : option ID; gs_CallItems : list GenesisCallItem; gs_QueueItems : list GenesisQueueItem }.
Definition DefaultGenesisState : GenesisState := MkGenesisState (NewParams DefIntervalToExecute) None [] [].

Definition Validate_call (curBlockHeight : Z) (acc : gset string * ID) (item : GenesisCallItem) : outcome (gset string * ID) :=
  let call := gci_Call item in
  fail_if (bool_decide (ID_String (call_ID call) ∈ acc.1)) (Plain "duplicated");;
  Call_Valid call curBlockHeight;;
  Ok ({[ID_String (call_ID call)]} ∪ acc.1, if ID_GT (call_ID call) acc.2 then call_ID call else acc.2).

Definition Validate_queue (curBlockHeight : Z) (callsSet : gset string) (item : GenesisQueueItem) : outcome unit :=
  ID_Valid (Some (gqi_CallID item));;
  fail_if (gqi_BlockHeight item <? 0) (Plain "block_height: LT 0");;
  fail_if (negb (curBlockHeight =? -1) && (curBlockHeight <? gqi_BlockHeight item)) (Plain "block_height: GT current blockHeight");;
  fail_if (bool_decide (ID_String (gqi_CallID item) ∉ callsSet)) (Plain "not found in the genesisState").

Definition GenesisState_Validate (s : GenesisState) (curBlockHeight : Z) : outcome unit :=
  Params_Validate (gs_Parameters s);;
  calls ← foldM (Validate_call curBlockHeight) (∅, NewZeroID) (gs_CallItems s);
  foldM (λ _ item, Validate_queue curBlockHeight calls.1 item) tt (gs_QueueItems s);;
  match gs_LastCallID s with
  | None => fail_if (negb (length (gs_CallItems s) =? 0)%nat) (Plain "last_call_id: nil with existing calls")
  | Some id =>
      fail_if (length (gs_CallItems s) =? 0)%nat (Plain "last_call_id: not nil without existing calls");;
      ID_Valid (Some id);;
      fail_if (negb (ID_Equal id calls.2)) (Plain "last_call_id: not equal to max call ID")
  end.

(** ** Queries *)
Record CallReq := MkCallReq { cr_CallID : ID }.
Record CallByUniqueIdReq := MkCallByUniqueIdReq { cur_UniqueID : string }.
Record LastCallIdResp := MkLastCallIdResp { lcr_LastID : ID }.
Record CallResp := MkCallResp { cresp_Call : Call; cresp_Votes : Votes }.
Notation CallsResp := (list CallResp) (only parsing).
End types.

Section keeper.
Context `{ST : SdkTypes} `{KV : KVStore} `{LG : Ledger} `{MS : MsMsgs} `{VS : !ValidatorSet}.
Context `{CI : !Codec Z} `{CC : !Codec Call} `{CV : !Codec Votes}.
(** The text of an error ([err.Error()]), kept in a failed call. *)
Variable error_Error : error → string.
Variable modulePerms : ModulePermissions.
Variable router : msRouter.

(** ** Parameters *)
Definition GetIntervalToExecute : M Z :=
  keeper_method modulePerms PermRead (param_Get DefaultParamspace ParamStoreKeyIntervalToExecute).
Definition SetIntervalToExecute (value : Z) : M unit :=
  keeper_method modulePerms PermWrite (param_Set DefaultParamspace ParamStoreKeyIntervalToExecute value).

Definition GetRouteHandler (route : string) : M MsHandler :=
  keeper_method modulePerms PermRead (lift (GetRoute router route)).

(** ** The queue *)
Definition RemoveCallFromQueue (id : ID) (height : Z) : M unit :=
  keeper_method modulePerms PermWrite (
    kv_Delete StoreKey (GetQueueKey id height);;
    EmitEvent (NewCallRemovedEvent id)).

(** Iterators are the entries they return. *)
Definition GetQueueIteratorStartEnd (startHeight endHeight : Z) : M (list (string * string)) :=
  keeper_method modulePerms PermRead (
    kv_Iterator StoreKey (GetPrefixQueueKey startHeight) (PrefixEndBytes (GetPrefixQueueKey endHeight))).
Definition GetQueueIteratorTill (endHeight : Z) : M (list (string * string)) :=
  keeper_method modulePerms PermRead (
    kv_Iterator StoreKey QueuePrefix (PrefixEndBytes (GetPrefixQueueKey endHeight))).

Definition addCallToQueue (id : ID) (height : Z) : M unit :=
  kv_Set StoreKey (GetQueueKey id height) (Marshal LengthPrefixed id).

(** ** Calls *)
Definition HasCall (id : ID) : M bool :=
  keeper_method modulePerms PermRead (kv_Has StoreKey (GetCallKey id)).
Definition HasCallByUniqueID (uniqueID : string) : M bool :=
  keeper_method modulePerms PermRead (kv_Has StoreKey (GetUniqueIDKey uniqueID)).

Definition getCall (id : ID) : M Call :=
  bz ← kv_Get StoreKey (GetCallKey id);
  MustUnmarshal Bare (default "" bz).

Definition GetCall (id : ID) : M Call :=
  keeper_method modulePerms PermRead (
    has ← HasCall id;
    if negb has then throw ErrWrongCallId else getCall id).

Definition GetCallIDByUniqueID (uniqueID : string) : M ID :=
  keeper_method modulePerms PermRead (
    has ← HasCallByUniqueID uniqueID;
    if negb has then throw ErrWrongCallUniqueId
    else
      bz ← kv_Get StoreKey (GetUniqueIDKey uniqueID);
      MustUnmarshal LengthPrefixed (default "" bz)).

(** The nil pointer is [None]. *)
Definition getLastCallID : M (option ID) :=
  has ← kv_Has StoreKey LastCallIdKey;
  if negb has then mret None
  else
    bz ← kv_Get StoreKey LastCallIdKey;
    id ← MustUnmarshal LengthPrefixed (default "" bz);
    mret (Some id).

Definition GetLastCallID : M ID :=
  keeper_method modulePerms PermRead (
    has ← kv_Has StoreKey LastCallIdKey;
    if negb has then mret (NewIDFromUint64 0)
    else
      bz ← kv_Get StoreKey LastCallIdKey;
      MustUnmarshal LengthPrefixed (default "" bz)).

Definition StoreCall (call : Call) : M unit :=
  keeper_method modulePerms PermWrite (kv_Set StoreKey (GetCallKey (call_ID call)) (Marshal Bare call)).

Definition getCalls : M (list Call) :=
  kvs ← kv_PrefixIterator StoreKey GetCallKeyPrefix;
  mapM_ (λ kv, MustUnmarshal Bare kv.2) kvs.

Definition setCallUniqueIDMatch (uniqueID : string) (callID : ID) : M unit :=
  kv_Set StoreKey (GetUniqueIDKey uniqueID) (Marshal LengthPrefixed callID).
Definition setLastCallID (id : ID) : M unit := kv_Set StoreKey LastCallIdKey (Marshal LengthPrefixed id).

Definition createCall (call : Call) : M unit :=
  setLastCallID (call_ID call);;
  setCallUniqueIDMatch (call_UniqueID call) (call_ID call);;
  StoreCall call;;
  addCallToQueue (call_ID call) (call_Height call);;
  EmitEvent (NewCallSubmittedEvent call).

Definition nextCallID : M ID :=
  id ← getLastCallID;
  match id with None => mret NewZeroID | Some id => lift (ID_Incr id) end.

(** ** Votes *)
Definition HasVote (callID : ID) (address : AccAddress) : M bool :=
  keeper_method modulePerms PermRead (
    has ← kv_Has StoreKey (GetVotesKey callID);
    if negb has then throw ErrVoteNoVotes
    else
      bz ← kv_Get StoreKey (GetVotesKey callID);
      votes ← MustUnmarshal (A:=Votes) Bare (default "" bz);
      mret (bool_decide (address ∈ votes))).

Definition GetVotes (id : ID) : M Votes :=
  keeper_method modulePerms PermRead (
    has ← HasCall id;
    if negb has then throw ErrWrongCallId
    else
      has ← kv_Has StoreKey (GetVotesKey id);
      if negb has then mret []
      else
        bz ← kv_Get StoreKey (GetVotesKey id);
        MustUnmarshal Bare (default "" bz)).

(** [votes, _ := GetVotes(id)]: an error leaves no votes. *)
Definition GetVotes_ (id : ID) : M Votes :=
  r ← attempt (GetVotes id);
  mret (match r with Ok votes => votes | _ => [] end).

Definition GetConfirmationsCount (id : ID) : M Z :=
  keeper_method modulePerms PermRead (votes ← GetVotes id; mret (Z.of_nat (length votes))).

Definition setVotes (callID : ID) (votes : Votes) : M unit := kv_Set StoreKey (GetVotesKey callID) (Marshal Bare votes).
Definition removeVotes (callID : ID) : M unit := kv_Delete StoreKey (GetVotesKey callID).

(** The deferred function emits the event when there was no error. *)
Definition storeVote (call : Call) (address : AccAddress) : M unit :=
  (lift (CanBeVoted call);;
   voteExists ← attempt (HasVote (call_ID call) address);
   match voteExists with
   | Ok true => throw ErrVoteAlreadyConfirmed
   | Err e =>
       if decide (e = ErrVoteNoVotes) then setVotes (call_ID call) [address]
       else votes ← GetVotes_ (call_ID call); setVotes (call_ID call) (votes ++ [address])%list
   | _ => votes ← GetVotes_ (call_ID call); setVotes (call_ID call) (votes ++ [address])%list
   end);;
  EmitEvent (NewConfirmVoteEvent (call_ID call) address).

(** An index that was not found would be [-1]: [votes[:-1]] panics. *)
Definition revokeVote (call : Call) (address : AccAddress) : M unit :=
  (lift (CanBeVoted call);;
   voteExists ← attempt (HasVote (call_ID call) address);
   match voteExists with
   | Ok true =>
       votes ← GetVotes_ (call_ID call);
       if (length votes =? 1)%nat then
         removeVotes (call_ID call);;
         RemoveCallFromQueue (call_ID call) (call_Height call)
       else
         match list_find (λ vote, vote = address) votes with
         | Some (voteIdx, _) => setVotes (call_ID call) (take voteIdx votes ++ drop (S voteIdx) votes)%list
         | None => panic
         end
   | _ => throw ErrVoteNotApproved
   end);;
  EmitEvent (NewRevokeVoteEvent (call_ID call) address).

Definition ConfirmCall (id : ID) (address : AccAddress) : M unit :=
  keeper_method modulePerms PermWrite (call ← GetCall id; storeVote call address).
Definition RevokeConfirmation (id : ID) (address : AccAddress) : M unit :=
  keeper_method modulePerms PermWrite (call ← GetCall id; revokeVote call address).

(** ** Submitting: the message's handler is run on a copy of the state first *)
Definition SubmitCall (msg : option MsMsg) (uniqueID : string) (sender : AccAddress) : M unit :=
  keeper_method modulePerms PermWrite (
    has ← HasCallByUniqueID uniqueID;
    if (has : bool) then id ← GetCallIDByUniqueID uniqueID; ConfirmCall id sender
    else
      id ← nextCallID; blockHeight ← BlockHeight;
      call ← lift (NewCall id uniqueID msg blockHeight sender);
      match msg with
      | None => panic
      | Some msg =>
          if negb (HasRoute router (MsMsg_Route msg)) then throw ErrWrongMsgRoute
          else
            handler ← lift (GetRoute router (MsMsg_Route msg));
            r ← cached (handler msg);
            match r.1 with
            | Ok _ => createCall call;; ConfirmCall (call_ID call) sender
            | Err e => throw e
            | Panic => panic
            end
      end).

(** ** The message handler *)
Inductive Msg :=
  | Msg_SubmitCall (msg : MsgSubmitCall) | Msg_ConfirmCall (msg : MsgConfirmCall)
  | Msg_RevokeConfirm (msg : MsgRevokeConfirm) | Msg_other.

Definition handled : M Result :=
  EmitEvent (NewModuleNameEvent ModuleName);; events ← Events; mret (MkResult "" events).

Definition handleMsgSubmitCall (msg : MsgSubmitCall) : M Result :=
  has ← vs_HasValidator (msc_Creator msg);
  if negb has then throw ErrPoaNotValidator
  else SubmitCall (msc_Msg msg) (msc_UniqueID msg) (msc_Creator msg);; handled.
Definition handleMsgConfirmCall (msg : MsgConfirmCall) : M Result :=
  has ← vs_HasValidator (mcc_Sender msg);
  if negb has then throw ErrPoaNotValidator
  else ConfirmCall (mcc_CallID msg) (mcc_Sender msg);; handled.
Definition handleMsgRevokeConfirm (msg : MsgRevokeConfirm) : M Result :=
  RevokeConfirmation (mrc_CallID msg) (mrc_Sender msg);; handled.

Definition NewHandler (msg : Msg) : M Result :=
  in_module ModuleName (WithEventManager
    match msg with
    | Msg_SubmitCall msg => handleMsgSubmitCall msg
    | Msg_ConfirmCall msg => handleMsgConfirmCall msg
    | Msg_RevokeConfirm msg => handleMsgRevokeConfirm msg
    | Msg_other => throw ErrUnknownRequest
    end).

(** ** The end blocker *)

(** An active call: executed on a copy of the state once it has enough votes. *)
Definition EndBlocker_active (kv : string * string) : M unit :=
  callID ← MustUnmarshal (A:=ID) LengthPrefixed kv.2;
  r ← attempt (GetConfirmationsCount callID);
  match r with
  | Ok confirmations =>
      enough ← vs_GetEnoughConfirmations;
      if enough <=? uint16 confirmations then
        r ← attempt (GetCall callID);
        match r with
        | Ok call =>
            let call := with_Approved call in
            EmitEvent (NewCallStateChangedEvent callID AttributeValueApproved);;
            match call_Msg call with
            | None => panic
            | Some msg =>
                handler ← GetRouteHandler (MsMsg_Route msg);
                res ← cached (handler msg);
                call ← match res.1 with
                       | Ok _ =>
                           EmitEvents (ctx_events res.2);;
                           writeCache res.2;;
                           EmitEvent (NewCallStateChangedEvent callID AttributeValueExecuted);;
                           mret (with_Executed call)
                       | Err e =>
                           EmitEvent (NewCallStateChangedEvent callID AttributeValueFailed);;
                           mret (with_Failed call (error_Error e))
                       | Panic => panic
                       end;
                StoreCall call;;
                RemoveCallFromQueue callID (call_Height call)
            end
        | _ => panic
        end
      else mret tt
  | _ => panic
  end.

(** A call that was not confirmed in time. *)
Definition EndBlocker_rejected (kv : string * string) : M unit :=
  callID ← MustUnmarshal (A:=ID) LengthPrefixed kv.2;
  r ← attempt (GetCall callID);
  match r with
  | Ok call =>
      let call := with_Rejected call in
      StoreCall call;;
      RemoveCallFromQueue callID (call_Height call);;
      EmitEvent (NewCallStateChangedEvent callID AttributeValueRejected)
  | _ => panic
  end.

Definition EndBlocker : M unit :=
  in_module ModuleName (
    prevEvents ← Events;
    height ← BlockHeight; interval ← GetIntervalToExecute;
    let start := int64 (height - interval) in
    let start := if start <? 0 then 0 else start in
    activeIterator ← GetQueueIteratorStartEnd start height;
    forM activeIterator EndBlocker_active;;
    interval ← GetIntervalToExecute;
    (if interval <? start then
       rejectedIterator ← GetQueueIteratorTill start;
       forM rejectedIterator EndBlocker_rejected
     else mret tt);;
    curEvents ← Events;
    if negb (length curEvents =? length prevEvents)%nat then EmitEvent (NewModuleNameEvent ModuleName) else mret tt).

(** ** Genesis and the zero-height squash *)
Definition InitGenesis_call (item : GenesisCallItem) : M unit :=
  match call_Msg (gci_Call item) with
  | None => panic
  | Some msg =>
      if negb (HasRoute router (MsMsg_Route msg)) then panic
      else
        setCallUniqueIDMatch (call_UniqueID (gci_Call item)) (call_ID (gci_Call item));;
        StoreCall (gci_Call item);;
        if (0 <? length (gci_Votes item))%nat then setVotes (call_ID (gci_Call item)) (gci_Votes item) else mret tt
  end.

Definition InitGenesis (state : GenesisState) : M unit :=
  keeper_method modulePerms PermInit (
    height ← BlockHeight;
    match GenesisState_Validate state height with
    | Ok _ =>
        SetIntervalToExecute (p_IntervalToExecute (gs_Parameters state));;
        match gs_LastCallID state with Some id => setLastCallID id | None => mret tt end;;
        forM (gs_CallItems state) InitGenesis_call;;
        forM (gs_QueueItems state) (λ queueItem, addCallToQueue (gqi_CallID queueItem) (gqi_BlockHeight queueItem))
    | _ => panic
    end).

Definition ExportGenesis : M GenesisState :=
  keeper_method modulePerms PermRead (
    interval ← GetIntervalToExecute;
    lastCallID ← getLastCallID;
    calls ← getCalls;
    callItems ← mapM_ (λ call, votes ← GetVotes_ (call_ID call); mret (MkGenesisCallItem call votes)) calls;
    height ← BlockHeight;
    queueIterator ← GetQueueIteratorTill height;
    queueItems ← mapM_ (λ kv, item ← lift (MustParseQueueKey kv.1); mret (MkGenesisQueueItem item.1 item.2)) queueIterator;
    mret (MkGenesisState (MkParams interval) lastCallID callItems queueItems)).

Definition PrepareForZeroHeight : M unit :=
  in_module ModuleName (
    calls ← getCalls;
    forM calls (λ call,
      (match CanBeVoted call with
       | Ok _ => RemoveCallFromQueue (call_ID call) (call_Height call);; addCallToQueue (call_ID call) 0
       | _ => mret tt
       end);;
      StoreCall (with_Height call 0))).

(** ** Queries *)
Context `{JR : !Codec CallReq} `{JU : !Codec CallByUniqueIdReq} `{JL : !Codec LastCallIdResp}.
Context `{JC : !Codec CallResp} `{JS : !Codec (list CallResp)}.

Definition get_response (id : ID) : M CallResp :=
  call ← GetCall id; votes ← GetVotes id; mret (MkCallResp call votes).

Definition queryGetCalls : M string :=
  height ← BlockHeight; interval ← GetIntervalToExecute;
  let start := int64 (height - interval) in
  let start := if start <? 0 then 0 else start in
  iterator ← GetQueueIteratorStartEnd start height;
  resps ← mapM_ (B:=CallResp) (λ kv, match Unmarshal LengthPrefixed kv.2 : option Z with
                                          | None => throw ErrInternal
                                          | Some callID => get_response callID
                                          end) iterator;
  mret (Marshal JSON resps).

Definition queryGetCall (data : string) : M string :=
  match Unmarshal JSON data with
  | None => throw ErrInternal
  | Some params => resp ← get_response (cr_CallID params); mret (Marshal JSON resp)
  end.

Definition queryGetUnique (data : string) : M string :=
  match Unmarshal JSON data with
  | None => throw ErrInternal
  | Some params =>
      id ← GetCallIDByUniqueID (cur_UniqueID params);
      resp ← get_response id;
      mret (Marshal JSON resp)
  end.

Definition queryGetLastID : M string := id ← GetLastCallID; mret (Marshal JSON (MkLastCallIdResp id)).

Definition NewQuerier (path : list string) (data : string) : M string :=
  in_module ModuleName
    match path with
    | [] => panic
    | p :: _ =>
        if decide (p = "calls") then queryGetCalls
        else if decide (p = "call") then queryGetCall data
        else if decide (p = "callByUnique") then queryGetUnique data
        else if decide (p = "lastId") then queryGetLastID
        else throw ErrUnknownRequest
    end.
End keeper.

Definition NewKeeper (permsRequesters : list RequestModulePermissions) : outcome ModulePermissions :=
  foldM AutoAddRequester NewModulePerms permsRequesters.
End multisig.
