(* ===== verification/MultisigFacts.v ===== *)
(** * Calls: the store as maps

    [mstate] is what the module's store holds: calls, votes, unique IDs and queue
    heights by ID.  [ms_holds] relates it to the store's keys; the lemmas say what
    each write does to it.  [ms_inv] is the invariant of the maps: IDs are bounded by
    the last one, the queue holds open calls that somebody confirmed. *)
From S2P Require Import Prelude Bytes Sdk SdkRef SdkFacts DnTypes Perms Chain Poa MsModule Multisig.
Local Open Scope string_scope.
Local Open Scope Z_scope.
Local Open Scope list_scope.

(** ** Keys *)
Section keys.
Context `{SdkTypesLaws}.
Import multisig.

Lemma GetCallKey_inj a b : 0 ≤ a → 0 ≤ b → GetCallKey a = GetCallKey b → a = b.
Proof. intros Ha Hb E. injection E as E. by apply Uint_String_inj. Qed.
Lemma GetVotesKey_inj a b : 0 ≤ a → 0 ≤ b → GetVotesKey a = GetVotesKey b → a = b.
Proof. intros Ha Hb E. injection E as E. by apply Uint_String_inj. Qed.
Lemma GetUniqueIDKey_inj a b : GetUniqueIDKey a = GetUniqueIDKey b → a = b.
Proof. intros E. by injection E. Qed.

Lemma GetQueueKey_app id h : GetQueueKey id h = GetPrefixQueueKey h +:+ (":" +:+ ID_String id).
Proof.
  change (GetQueueKey id h) with ("queue:" +:+ (Uint64ToBigEndian (wrap64 h) +:+ (":" +:+ ID_String id))).
  change (GetPrefixQueueKey h) with ("queue:" +:+ Uint64ToBigEndian (wrap64 h)). by rw string_app_assoc.
Qed.

Lemma height_wrap h : 0 ≤ h < 2 ^ 63 → wrap64 h = h.
Proof. intros. apply Z.mod_small. lia. Qed.

Lemma GetPrefixQueueKey_lt h h' : 0 ≤ h < 2 ^ 63 → 0 ≤ h' < 2 ^ 63 →
  bytes_lt (GetPrefixQueueKey h) (GetPrefixQueueKey h') ↔ h < h'.
Proof.
  intros Hh Hh'. change (GetPrefixQueueKey h) with ("queue:" +:+ Uint64ToBigEndian (wrap64 h)).
  change (GetPrefixQueueKey h') with ("queue:" +:+ Uint64ToBigEndian (wrap64 h')).
  rw bytes_lt_app !height_wrap; [|done..]. apply (be_bytes_lt 8); simpl; lia.
Qed.

Lemma length_prefix_key h : String.length (GetPrefixQueueKey h) = 14%nat.
Proof. change (GetPrefixQueueKey h) with ("queue:" +:+ Uint64ToBigEndian (wrap64 h)). by rw string_length_app length_be_bytes. Qed.

Lemma GetPrefixQueueKey_inj h h' : 0 ≤ h < 2 ^ 63 → 0 ≤ h' < 2 ^ 63 → GetPrefixQueueKey h = GetPrefixQueueKey h' → h = h'.
Proof.
  intros Hh Hh' E. pose proof (GetPrefixQueueKey_lt h h' Hh Hh') as L1. pose proof (GetPrefixQueueKey_lt h' h Hh' Hh) as L2.
  rw E in L1. rw E in L2. pose proof (bytes_lt_irrefl (GetPrefixQueueKey h')).
  destruct (Z.lt_trichotomy h h') as [?|[?|?]]; [tauto|done|tauto].
Qed.

Lemma GetQueueKey_inj id h id' h' : 0 ≤ id → 0 ≤ id' → 0 ≤ h < 2 ^ 63 → 0 ≤ h' < 2 ^ 63 →
  GetQueueKey id h = GetQueueKey id' h' → id = id' ∧ h = h'.
Proof.
  intros Hi Hi' Hh Hh' E. rw !GetQueueKey_app in E. apply string_app_inj_len in E as [Ep E]; [|by rw !length_prefix_key].
  injection E as E. split; [by apply Uint_String_inj|by apply GetPrefixQueueKey_inj].
Qed.

(** An entry compares with a height's prefix as its own height does. *)
Lemma GetQueueKey_lt id h h' : 0 ≤ h < 2 ^ 63 → 0 ≤ h' < 2 ^ 63 →
  bytes_lt (GetQueueKey id h) (GetPrefixQueueKey h') ↔ h < h'.
Proof.
  intros Hh Hh'. rw GetQueueKey_app -{1}(string_app_nil_r (GetPrefixQueueKey h')) bytes_lt_app_len; [|by rw !length_prefix_key].
  rw GetPrefixQueueKey_lt; [|done..]. split; [|by left]. intros [?|[_ Hlt]]; done.
Qed.

Lemma GetQueueKey_prefix id h h' : 0 ≤ h < 2 ^ 63 → 0 ≤ h' < 2 ^ 63 →
  has_prefix (GetPrefixQueueKey h') (GetQueueKey id h) ↔ h = h'.
Proof.
  intros Hh Hh'. split.
  - intros [s E]. rw GetQueueKey_app in E. apply string_app_inj_len in E as [E _]; [|by rw !length_prefix_key].
    by apply GetPrefixQueueKey_inj.
  - intros ->. eexists. apply GetQueueKey_app.
Qed.
End keys.

(** The keys of different kinds differ within their first bytes. *)
Ltac other_keys := repeat match goal with
  | |- context [store_Get (store_Set _ _ _) _] => rewrite store_Get_Set_ne; [|let E := fresh in intros E; discriminate E]
  | |- context [store_Get (store_Delete _ _) _] => rewrite store_Get_Delete_ne; [|let E := fresh in intros E; discriminate E]
  end.

(** ** What the store holds *)
Record mstate `{MS : MsMsgs} := MkMstate {
  ms_calls : gmap Z multisig.Call;
  ms_votes : gmap Z (list AccAddress);
  ms_unique : gmap string Z;
  ms_queue : gmap Z Z;
  ms_last : option Z;
}.
Arguments MkMstate {MS} _ _ _ _ _.

Section facts.
Context `{SdkTypesLaws} `{KVStoreLaws} `{LG : Ledger} `{MS : MsMsgs}.
Context `{CI : !Codec Z} `{CC : !Codec multisig.Call} `{CV : !Codec (list AccAddress)}.
Variable router : msRouter.
(** The messages the handlers are prepared for. *)
Variable fine : MsMsg → Prop.
Import multisig.
Implicit Types (s : store) (st : mstate) (c : Ctx) (id h : Z) (call : Call) (a : AccAddress).

Record ms_holds s st : Prop := {
  mh_call id : 0 ≤ id → store_Get s (GetCallKey id) = Marshal Bare <$> ms_calls st !! id;
  mh_votes id : 0 ≤ id → store_Get s (GetVotesKey id) = Marshal Bare <$> ms_votes st !! id;
  mh_unique u : store_Get s (GetUniqueIDKey u) = Marshal LengthPrefixed <$> ms_unique st !! u;
  mh_queue id h : 0 ≤ id → 0 ≤ h < 2 ^ 63 →
    store_Get s (GetQueueKey id h) = if decide (ms_queue st !! id = Some h) then Some (Marshal LengthPrefixed id) else None;
  mh_last : store_Get s LastCallIdKey = Marshal LengthPrefixed <$> ms_last st;
  mh_queue_only k v : has_prefix QueuePrefix k → store_Get s k = Some v → ∃ id h, 0 ≤ id ∧ 0 ≤ h < 2 ^ 63 ∧ k = GetQueueKey id h;
  mh_call_only k v : has_prefix GetCallKeyPrefix k → store_Get s k = Some v → ∃ id, 0 ≤ id ∧ k = GetCallKey id;
}.

Definition is_open call : Prop := CanBeVoted call = Ok tt.

(** A call the module made: a 64-bit height and a message the router knows. *)
Record call_ok id call : Prop := {
  co_ID : call_ID call = id;
  co_id : 0 ≤ id < maxUint;
  co_height : 0 ≤ call_Height call < 2 ^ 63;
  co_msg : ∃ msg (handler : MsHandler), call_Msg call = Some msg ∧ GetRoute router (MsMsg_Route msg) = Ok handler ∧ fine msg;
}.

Record ms_inv st : Prop := {
  mi_call id call : ms_calls st !! id = Some call → call_ok id call ∧ ∃ l, ms_last st = Some l ∧ id ≤ l;
  mi_last l : ms_last st = Some l → 0 ≤ l < maxUint;
  mi_unique u id : ms_unique st !! u = Some id ↔ ∃ call, ms_calls st !! id = Some call ∧ call_UniqueID call = u;
  mi_votes id votes : ms_votes st !! id = Some votes → votes ≠ [] ∧ NoDup votes ∧ is_Some (ms_calls st !! id);
  mi_queue id h : ms_queue st !! id = Some h →
    ∃ call, ms_calls st !! id = Some call ∧ call_Height call = h ∧ is_open call ∧ is_Some (ms_votes st !! id);
}.

Definition empty_mstate : mstate := MkMstate ∅ ∅ ∅ ∅ None.
Lemma empty_ms_holds s : (∀ k, store_Get s k = None) → ms_holds s empty_mstate.
Proof.
  intros Hs. split; [intros *; rw Hs; try done..| |]; intros k v _ Hk; by rw Hs in Hk.
Qed.
Lemma empty_ms_inv : ms_inv empty_mstate.
Proof.
  split; simpl; try done. intros u id. split; [done|]. intros (call & E & _). done.
Qed.

(** ** Writes *)
Ltac unchanged Hs := other_keys; first [apply (mh_call _ _ Hs) | apply (mh_votes _ _ Hs) | apply (mh_unique _ _ Hs) | apply (mh_queue _ _ Hs) | apply (mh_last _ _ Hs)].
Ltac other_queue Hs := intros [?t ->]; other_keys; apply (mh_queue_only _ _ Hs); by eexists.
Ltac other_call Hs := intros [?t ->]; other_keys; apply (mh_call_only _ _ Hs); by eexists.

Definition set_call st call : mstate := MkMstate (<[call_ID call := call]> (ms_calls st)) (ms_votes st) (ms_unique st) (ms_queue st) (ms_last st).
Definition set_votes st id (votes : list AccAddress) : mstate :=
  MkMstate (ms_calls st) (<[id := votes]> (ms_votes st)) (ms_unique st) (ms_queue st) (ms_last st).
Definition del_votes st id : mstate := MkMstate (ms_calls st) (delete id (ms_votes st)) (ms_unique st) (ms_queue st) (ms_last st).
Definition set_unique st u id : mstate := MkMstate (ms_calls st) (ms_votes st) (<[u := id]> (ms_unique st)) (ms_queue st) (ms_last st).
Definition enqueue st id h : mstate := MkMstate (ms_calls st) (ms_votes st) (ms_unique st) (<[id := h]> (ms_queue st)) (ms_last st).
Definition dequeue st id : mstate := MkMstate (ms_calls st) (ms_votes st) (ms_unique st) (delete id (ms_queue st)) (ms_last st).
Definition set_last st id : mstate := MkMstate (ms_calls st) (ms_votes st) (ms_unique st) (ms_queue st) (Some id).

Lemma holds_set_call s st call : ms_holds s st → 0 ≤ call_ID call →
  ms_holds (store_Set s (GetCallKey (call_ID call)) (Marshal Bare call)) (set_call st call).
Proof.
  intros Hs Hid. split; intros *; simpl.
  - intros Hi. destruct (decide (call_ID call = id)) as [<-|Hne].
    + by rw store_Get_Set_eq lookup_insert_eq.
    + rw store_Get_Set_ne; [|by intros E; apply Hne, GetCallKey_inj]. rw lookup_insert_ne; [|done]. by first [apply (mh_call _ _ Hs) | apply (mh_votes _ _ Hs) | apply (mh_unique _ _ Hs) | apply (mh_queue _ _ Hs)].
  - unchanged Hs.
  - unchanged Hs.
  - unchanged Hs.
  - unchanged Hs.
  - other_queue Hs.
  - intros Hk. rw store_Get_Set. case_decide as E; [intros _; by exists (call_ID call)|by apply (mh_call_only _ _ Hs)].
Qed.

Lemma holds_set_votes s st id votes : ms_holds s st → 0 ≤ id →
  ms_holds (store_Set s (GetVotesKey id) (Marshal Bare votes)) (set_votes st id votes).
Proof.
  intros Hs Hid. split; intros *; simpl.
  - unchanged Hs.
  - intros Hi. destruct (decide (id = id0)) as [<-|Hne].
    + by rw store_Get_Set_eq lookup_insert_eq.
    + rw store_Get_Set_ne; [|by intros E; apply Hne, GetVotesKey_inj]. rw lookup_insert_ne; [|done]. by first [apply (mh_call _ _ Hs) | apply (mh_votes _ _ Hs) | apply (mh_unique _ _ Hs) | apply (mh_queue _ _ Hs)].
  - unchanged Hs.
  - unchanged Hs.
  - unchanged Hs.
  - other_queue Hs.
  - other_call Hs.
Qed.

Lemma holds_del_votes s st id : ms_holds s st → 0 ≤ id →
  ms_holds (store_Delete s (GetVotesKey id)) (del_votes st id).
Proof.
  intros Hs Hid. split; intros *; simpl.
  - unchanged Hs.
  - intros Hi. destruct (decide (id = id0)) as [<-|Hne].
    + by rw store_Get_Delete_eq lookup_delete_eq.
    + rw store_Get_Delete_ne; [|by intros E; apply Hne, GetVotesKey_inj]. rw lookup_delete_ne; [|done]. by first [apply (mh_call _ _ Hs) | apply (mh_votes _ _ Hs) | apply (mh_unique _ _ Hs) | apply (mh_queue _ _ Hs)].
  - unchanged Hs.
  - unchanged Hs.
  - unchanged Hs.
  - other_queue Hs.
  - other_call Hs.
Qed.

Lemma holds_set_unique s st u id : ms_holds s st →
  ms_holds (store_Set s (GetUniqueIDKey u) (Marshal LengthPrefixed id)) (set_unique st u id).
Proof.
  intros Hs. split; intros *; simpl.
  - unchanged Hs.
  - unchanged Hs.
  - destruct (decide (u = u0)) as [<-|Hne].
    + by rw store_Get_Set_eq lookup_insert_eq.
    + rw store_Get_Set_ne; [|by intros E; apply Hne, GetUniqueIDKey_inj]. rw lookup_insert_ne; [|done]. by first [apply (mh_call _ _ Hs) | apply (mh_votes _ _ Hs) | apply (mh_unique _ _ Hs) | apply (mh_queue _ _ Hs)].
  - unchanged Hs.
  - unchanged Hs.
  - other_queue Hs.
  - other_call Hs.
Qed.

Lemma holds_set_last s st id : ms_holds s st →
  ms_holds (store_Set s LastCallIdKey (Marshal LengthPrefixed id)) (set_last st id).
Proof.
  intros Hs. split; intros *; simpl; [unchanged Hs..| | |].
  - by rw store_Get_Set_eq.
  - other_queue Hs.
  - other_call Hs.
Qed.

Lemma holds_enqueue s st id h : ms_holds s st → 0 ≤ id → 0 ≤ h < 2 ^ 63 → ms_queue st !! id = None →
  ms_holds (store_Set s (GetQueueKey id h) (Marshal LengthPrefixed id)) (enqueue st id h).
Proof.
  intros Hs Hid Hh Hn. split; intros *; simpl.
  - unchanged Hs.
  - unchanged Hs.
  - unchanged Hs.
  - intros Hi Hh0. destruct (decide (id = id0)) as [<-|Hne].
    + rw lookup_insert_eq. destruct (decide (h = h0)) as [<-|Hneh].
      * rw store_Get_Set_eq. by rw decide_True.
      * rw store_Get_Set_ne; [|by intros E; apply GetQueueKey_inj in E as [_ ?]]. rw (mh_queue _ _ Hs); [|done..].
        rw Hn. by rw !decide_False; [|congruence].
    + rw store_Get_Set_ne; [|by intros E; apply GetQueueKey_inj in E as [? _]]. rw lookup_insert_ne; [|done]. by first [apply (mh_call _ _ Hs) | apply (mh_votes _ _ Hs) | apply (mh_unique _ _ Hs) | apply (mh_queue _ _ Hs)].
  - unchanged Hs.
  - intros Hk. rw store_Get_Set. case_decide as E; [intros _; by exists id, h|by apply (mh_queue_only _ _ Hs)].
  - other_call Hs.
Qed.

Lemma holds_dequeue s st id h : ms_holds s st → 0 ≤ id → 0 ≤ h < 2 ^ 63 → (∀ h', ms_queue st !! id = Some h' → h' = h) →
  ms_holds (store_Delete s (GetQueueKey id h)) (dequeue st id).
Proof.
  intros Hs Hid Hh Hn. split; intros *; simpl.
  - unchanged Hs.
  - unchanged Hs.
  - unchanged Hs.
  - intros Hi Hh0. destruct (decide (id = id0)) as [<-|Hne].
    + rw lookup_delete_eq. destruct (decide (h = h0)) as [<-|Hneh].
      * by rw store_Get_Delete_eq.
      * rw store_Get_Delete_ne; [|by intros E; apply GetQueueKey_inj in E as [_ ?]]. rw (mh_queue _ _ Hs); [|done..].
        rw !decide_False; [done..|]. intros E%Hn. congruence.
    + rw store_Get_Delete_ne; [|by intros E; apply GetQueueKey_inj in E as [? _]]. rw lookup_delete_ne; [|done]. by first [apply (mh_call _ _ Hs) | apply (mh_votes _ _ Hs) | apply (mh_unique _ _ Hs) | apply (mh_queue _ _ Hs)].
  - unchanged Hs.
  - intros Hk. rw store_Get_Delete. case_decide as E; [done|by apply (mh_queue_only _ _ Hs)].
  - other_call Hs.
Qed.
End facts.
