(* ===== verification/MultisigCalls.v ===== *)
(** * Calls: submitting, confirming and revoking

    The messages as functions on [mstate], and the refinement: the handler of a
    message does to the store what the function does to the maps, and changes
    nothing on an error. *)
From S2P Require Import Prelude Bytes Sdk SdkRef SdkFacts DnTypes Perms Chain Poa MsModule Multisig MultisigFacts.
Local Open Scope string_scope.
Local Open Scope Z_scope.
Local Open Scope list_scope.

(** ** The abstract operations *)
Module multisig_spec.
Import multisig.
Section spec.
Context `{ST : SdkTypes} `{KV : KVStore} `{LG : Ledger} `{MS : MsMsgs}.
Variable router : msRouter.
Implicit Types (st : mstate) (id : Z) (a : AccAddress).

Definition confirm st id a : outcome mstate :=
  match ms_calls st !! id with
  | None => Err ErrWrongCallId
  | Some call =>
      CanBeVoted call;;
      match ms_votes st !! id with
      | None => Ok (set_votes st id [a])
      | Some votes => if decide (a ∈ votes) then Err ErrVoteAlreadyConfirmed else Ok (set_votes st id (votes ++ [a]))
      end
  end.

(** With its last vote a call leaves the queue. *)
Definition revoke st id a : outcome mstate :=
  match ms_calls st !! id with
  | None => Err ErrWrongCallId
  | Some call =>
      CanBeVoted call;;
      match ms_votes st !! id with
      | None => Err ErrVoteNotApproved
      | Some votes =>
          if decide (a ∈ votes)
          then Ok (if decide (votes = [a]) then dequeue (del_votes st id) id else set_votes st id (filter (λ b, b ≠ a) votes))
          else Err ErrVoteNotApproved
      end
  end.

Definition next_id st : outcome Z := match ms_last st with None => Ok 0 | Some l => ID_Incr l end.

Definition created st (call : Call) a : mstate :=
  let st := set_call (set_unique (set_last st (call_ID call)) (call_UniqueID call) (call_ID call)) call in
  set_votes (enqueue st (call_ID call) (call_Height call)) (call_ID call) [a].

(** [dry] is the outcome of the message's handler on a copy of the state. *)
Definition submit (dry : MsMsg → outcome unit) st (msg : option MsMsg) (u : string) (height : Z) a : outcome mstate :=
  match ms_unique st !! u with
  | Some id => confirm st id a
  | None =>
      id ← next_id st;
      call ← NewCall id u msg height a;
      match msg with
      | None => Panic
      | Some m => fail_if (negb (HasRoute router (MsMsg_Route m))) ErrWrongMsgRoute;; dry m;; Ok (created st call a)
      end
  end.

Definition step (validator : AccAddress → bool) (dry : MsMsg → outcome unit) (height : Z) st (msg : Msg) : outcome mstate :=
  match msg with
  | Msg_SubmitCall m =>
      fail_if (negb (validator (msc_Creator m))) ErrPoaNotValidator;;
      submit dry st (msc_Msg m) (msc_UniqueID m) height (msc_Creator m)
  | Msg_ConfirmCall m =>
      fail_if (negb (validator (mcc_Sender m))) ErrPoaNotValidator;; confirm st (mcc_CallID m) (mcc_Sender m)
  | Msg_RevokeConfirm m => revoke st (mrc_CallID m) (mrc_Sender m)
  | Msg_other => Err ErrUnknownRequest
  end.

(** IDs are unsigned, and the message of a call is one its handler is prepared for. *)
Definition msg_ok (fine : MsMsg → Prop) (msg : Msg) : Prop :=
  match msg with
  | Msg_SubmitCall m => ∀ x, msc_Msg m = Some x → fine x
  | Msg_ConfirmCall m => 0 ≤ mcc_CallID m
  | Msg_RevokeConfirm m => 0 ≤ mrc_CallID m
  | _ => True
  end.
End spec.
End multisig_spec.

Section calls.
Context `{SdkTypesLaws} `{KVStoreLaws} `{LG : Ledger} `{MS : MsMsgs} `{VS : !ValidatorSet}.
Context `{CI : !Codec Z} `{CC : !Codec multisig.Call} `{CV : !Codec (list AccAddress)}.
Variable modulePerms : ModulePermissions.
Hypothesis own_perms : mp_name modulePerms = multisig.ModuleName.
Variable router : msRouter.
Variable fine : MsMsg → Prop.
Import multisig.
Implicit Types (st : mstate) (c : Ctx) (id h : Z) (call : Call) (a : AccAddress).
Notation ms_store c := (ctx_stores c StoreKey).
Notation self := ModuleName.

Lemma own_method perm {A} (body : M A) c : keeper_method modulePerms perm body self c = body self c.
Proof. pose proof (keeper_method_self modulePerms perm body c) as E. by rw own_perms in E. Qed.

(** Only the module's store and the events changed. *)
Definition agree c c' : Prop := frame [StoreKey] c c' ∧ ctx_bank c' = ctx_bank c.

Lemma agree_refl c : agree c c.
Proof. done. Qed.
Lemma agree_trans c1 c2 c3 : agree c1 c2 → agree c2 c3 → agree c1 c3.
Proof. intros [Ha Hb] [Ha' Hb']. split; [by eapply frame_trans|congruence]. Qed.
Lemma agree_set c s : agree c (set_store c StoreKey s).
Proof. split; [|done]. split; [|done]. intros k Hk. simpl. rw decide_False; [done|]. intros ->. apply Hk. left. Qed.
Lemma agree_events c es : agree c (set_events c es).
Proof. done. Qed.

(** *** Reading *)
Lemma has_Some {A} (x : A) : negb (bool_decide (is_Some (Some x))) = false.
Proof. done. Qed.

Lemma get_run {A} `{Codec A} e k (o : option A) c :
  store_Get (ms_store c) k = Marshal e <$> o →
  kv_Has StoreKey k self c = (Ok (bool_decide (is_Some o)), c) ∧
  ∀ x : A, o = Some x → ∃ bz, kv_Get StoreKey k self c = (Ok bz, c) ∧ MustUnmarshal (A:=A) e (default "" bz) self c = (Ok x, c).
Proof.
  intros E. split.
  - unfold kv_Has, store_Has. rw E. do 2 f_equal. apply bool_decide_ext. by rewrite fmap_is_Some.
  - intros x ->. exists (Some (Marshal e x)). unfold kv_Get. rw E. split; [done|]. unfold MustUnmarshal. simpl. by rw Unmarshal_Marshal.
Qed.

Lemma HasCall_run c st id : ms_holds (ms_store c) st → 0 ≤ id →
  HasCall modulePerms id self c = (Ok (bool_decide (is_Some (ms_calls st !! id))), c).
Proof. intros Hs Hid. unfold HasCall. rw own_method. apply (get_run _ _ _ _ (mh_call _ _ Hs id Hid)). Qed.

Lemma GetCall_run c st id : ms_holds (ms_store c) st → 0 ≤ id →
  GetCall modulePerms id self c = (match ms_calls st !! id with Some call => Ok call | None => Err ErrWrongCallId end, c).
Proof.
  intros Hs Hid. unfold GetCall. rw own_method (M_bind_Ok _ _ _ _ _ _ (HasCall_run c st id Hs Hid)).
  destruct (get_run _ _ _ _ (mh_call _ _ Hs id Hid)) as [_ Hget]. destruct (ms_calls st !! id) as [call|]; [|done].
  destruct (Hget call) as (bz & Hb & Hu); [done|]. unfold getCall. rw has_Some. by rw (M_bind_Ok _ _ _ _ _ _ Hb).
Qed.

Lemma HasCallByUniqueID_run c st u : ms_holds (ms_store c) st →
  HasCallByUniqueID modulePerms u self c = (Ok (bool_decide (is_Some (ms_unique st !! u))), c).
Proof. intros Hs. unfold HasCallByUniqueID. rw own_method. apply (get_run _ _ _ _ (mh_unique _ _ Hs u)). Qed.

Lemma GetCallIDByUniqueID_run c st u id : ms_holds (ms_store c) st → ms_unique st !! u = Some id →
  GetCallIDByUniqueID modulePerms u self c = (Ok id, c).
Proof.
  intros Hs Hu. unfold GetCallIDByUniqueID. rw own_method (M_bind_Ok _ _ _ _ _ _ (HasCallByUniqueID_run c st u Hs)).
  destruct (get_run _ _ _ _ (mh_unique _ _ Hs u)) as [_ Hget]. destruct (Hget id Hu) as (bz & Hb & Hz). rw Hu. rw has_Some.
  by rw (M_bind_Ok _ _ _ _ _ _ Hb).
Qed.

Lemma nextCallID_run c st : ms_holds (ms_store c) st → nextCallID self c = (multisig_spec.next_id st, c).
Proof.
  intros Hs. unfold nextCallID, getLastCallID, multisig_spec.next_id. destruct (get_run _ _ _ _ (mh_last _ _ Hs)) as [Hh Hget].
  destruct (ms_last st) as [l|].
  - destruct (Hget l) as (bz & Hb & Hz); [done|]. rw (M_bind_Ok _ _ _ c (Some l) c); [done|]. rw (M_bind_Ok _ _ _ _ _ _ Hh). rw has_Some.
    rw (M_bind_Ok _ _ _ _ _ _ Hb). by rw (M_bind_Ok _ _ _ _ _ _ Hz).
  - rw (M_bind_Ok _ _ _ c None c); [done|]. by rw (M_bind_Ok _ _ _ _ _ _ Hh).
Qed.

Lemma HasVote_run c st id a : ms_holds (ms_store c) st → 0 ≤ id →
  HasVote modulePerms id a self c =
    (match ms_votes st !! id with Some votes => Ok (bool_decide (a ∈ votes)) | None => Err ErrVoteNoVotes end, c).
Proof.
  intros Hs Hid. unfold HasVote. rw own_method. destruct (get_run _ _ _ _ (mh_votes _ _ Hs id Hid)) as [Hh Hget].
  rw (M_bind_Ok _ _ _ _ _ _ Hh). destruct (ms_votes st !! id) as [votes|]; [|done].
  destruct (Hget votes) as (bz & Hb & Hz); [done|]. rw has_Some. rw (M_bind_Ok _ _ _ _ _ _ Hb). by rw (M_bind_Ok _ _ _ _ _ _ Hz).
Qed.

Lemma GetVotes_run c st id call : ms_holds (ms_store c) st → 0 ≤ id → ms_calls st !! id = Some call →
  GetVotes modulePerms id self c = (Ok (default [] (ms_votes st !! id)), c).
Proof.
  intros Hs Hid Hc. unfold GetVotes. rw own_method (M_bind_Ok _ _ _ _ _ _ (HasCall_run c st id Hs Hid)). rw Hc. rw has_Some.
  destruct (get_run _ _ _ _ (mh_votes _ _ Hs id Hid)) as [Hh Hget].
  rw (M_bind_Ok _ _ _ _ _ _ Hh). destruct (ms_votes st !! id) as [votes|]; [|done].
  destruct (Hget votes) as (bz & Hb & Hz); [done|]. rw has_Some. by rw (M_bind_Ok _ _ _ _ _ _ Hb).
Qed.

Lemma GetVotes__run c st id call : ms_holds (ms_store c) st → 0 ≤ id → ms_calls st !! id = Some call →
  GetVotes_ modulePerms id self c = (Ok (default [] (ms_votes st !! id)), c).
Proof.
  intros Hs Hid Hc. unfold GetVotes_. by rw (M_bind_Ok _ _ _ _ _ _ (attempt_Ok _ _ _ _ _ (GetVotes_run c st id call Hs Hid Hc))).
Qed.

(** *** Writing *)
Definition runs (m : M unit) c (spec : outcome mstate) : Prop :=
  match spec with
  | Ok st' => ∃ c', m self c = (Ok tt, c') ∧ ms_holds (ms_store c') st' ∧ agree c c'
  | Err e => m self c = (Err e, c)
  | Panic => (m self c).1 = Panic
  end.

Lemma runs_bind {A} (m : M A) f c x o : m self c = (Ok x, c) → runs (f x) c o → runs (m ≫= f) c o.
Proof. intros Hm Hr. unfold runs. by rw (M_bind_Ok _ _ _ _ _ _ Hm). Qed.
Lemma runs_Err {A} (m : M A) f c e : m self c = (Err e, c) → runs (m ≫= f) c (Err e).
Proof. apply M_bind_Err. Qed.
Lemma runs_own perm (m : M unit) c o : runs m c o → runs (keeper_method modulePerms perm m) c o.
Proof. unfold runs. by rw own_method. Qed.
Lemma runs_throw e c : runs (throw e) c (Err e).
Proof. done. Qed.
Lemma runs_seq (m m' : M unit) c st1 st2 : runs m c (Ok st1) →
  (∀ c1, ms_holds (ms_store c1) st1 → ctx_height c1 = ctx_height c → runs m' c1 (Ok st2)) → runs (m;; m') c (Ok st2).
Proof.
  intros (c1 & Hm & Hs1 & Ha1) Hm'. destruct (Hm' c1) as (c2 & Hr & Hs2 & Ha2); [done|apply Ha1|].
  exists c2. split; [by rw (M_bind_Ok _ _ _ _ _ _ Hm)|]. split; [done|by eapply agree_trans].
Qed.
Lemma runs_emit (m : M unit) e c o : runs m c o → runs (m;; EmitEvent e) c o.
Proof.
  destruct o as [st'|err|]; simpl.
  - intros (c' & Hm & Hs & Ha). eexists. split; [by rw (M_bind_Ok _ _ _ _ _ _ Hm)|]. split; [done|].
    eapply agree_trans; [done|apply agree_events].
  - apply M_bind_Err.
  - unfold mbind, M_bind. destruct (m self c) as [[] ?]; done.
Qed.
Lemma setVotes_runs c st id votes : ms_holds (ms_store c) st → 0 ≤ id → runs (setVotes id votes) c (Ok (set_votes st id votes)).
Proof. intros Hs Hid. eexists. split; [reflexivity|]. split; [by apply holds_set_votes|apply agree_set]. Qed.
Lemma removeVotes_runs c st id : ms_holds (ms_store c) st → 0 ≤ id → runs (removeVotes id) c (Ok (del_votes st id)).
Proof. intros Hs Hid. eexists. split; [reflexivity|]. split; [by apply holds_del_votes|apply agree_set]. Qed.
Lemma StoreCall_runs c st call : ms_holds (ms_store c) st → 0 ≤ call_ID call → runs (StoreCall modulePerms call) c (Ok (set_call st call)).
Proof. intros Hs Hid. apply runs_own. eexists. split; [reflexivity|]. split; [by apply holds_set_call|apply agree_set]. Qed.
Lemma RemoveCallFromQueue_runs c st id h : ms_holds (ms_store c) st → 0 ≤ id → 0 ≤ h < 2 ^ 63 →
  (∀ h', ms_queue st !! id = Some h' → h' = h) → runs (RemoveCallFromQueue modulePerms id h) c (Ok (dequeue st id)).
Proof.
  intros Hs Hid Hh Hq. apply runs_own, runs_emit. eexists. split; [reflexivity|]. split; [by apply holds_dequeue|apply agree_set].
Qed.
Lemma addCallToQueue_runs c st id h : ms_holds (ms_store c) st → 0 ≤ id → 0 ≤ h < 2 ^ 63 → ms_queue st !! id = None →
  runs (addCallToQueue id h) c (Ok (enqueue st id h)).
Proof. intros Hs Hid Hh Hq. eexists. split; [reflexivity|]. split; [by apply holds_enqueue|apply agree_set]. Qed.
Lemma setLastCallID_runs c st id : ms_holds (ms_store c) st → runs (setLastCallID id) c (Ok (set_last st id)).
Proof. intros Hs. eexists. split; [reflexivity|]. split; [by apply holds_set_last|apply agree_set]. Qed.
Lemma setCallUniqueIDMatch_runs c st u id : ms_holds (ms_store c) st → runs (setCallUniqueIDMatch u id) c (Ok (set_unique st u id)).
Proof. intros Hs. eexists. split; [reflexivity|]. split; [by apply holds_set_unique|apply agree_set]. Qed.

Lemma CanBeVoted_cases call : CanBeVoted call = Ok tt ∨ ∃ e, CanBeVoted call = Err e.
Proof. unfold CanBeVoted, fail_if. destruct (call_Approved call), (call_Rejected call); eauto. Qed.

Lemma ConfirmCall_runs c st id a : ms_holds (ms_store c) st → 0 ≤ id → (∀ call, ms_calls st !! id = Some call → call_ID call = id) →
  runs (ConfirmCall modulePerms id a) c (multisig_spec.confirm st id a).
Proof.
  intros Hs Hid Hc. unfold multisig_spec.confirm. apply runs_own. pose proof (GetCall_run c st id Hs Hid) as Hget.
  destruct (ms_calls st !! id) as [call|] eqn:Ec; [|by apply runs_Err]. specialize (Hc call eq_refl).
  apply (runs_bind _ _ _ _ _ Hget). unfold storeVote. rw Hc. apply runs_emit.
  destruct (CanBeVoted_cases call) as [Ev|[e Ev]]; rw Ev; [|by apply runs_Err]. rw outcome_bind_ok.
  apply (runs_bind _ _ _ tt); [done|]. pose proof (HasVote_run c st id a Hs Hid) as Hv.
  pose proof (GetVotes__run c st id call Hs Hid Ec) as Hvs.
  destruct (ms_votes st !! id) as [votes|] eqn:Evotes.
  - apply (runs_bind _ _ _ _ _ (attempt_Ok _ _ _ _ _ Hv)). case_decide as Ha; [by rw bool_decide_true|].
    rw bool_decide_false; [|done]. apply (runs_bind _ _ _ _ _ Hvs). by apply setVotes_runs.
  - apply (runs_bind _ _ _ _ _ (attempt_Err _ _ _ _ _ Hv)). by apply setVotes_runs.
Qed.

(** Removing the first occurrence from a list without duplicates. *)
Lemma remove_first votes a i x : NoDup votes → list_find (λ vote, vote = a) votes = Some (i, x) →
  take i votes ++ drop (S i) votes = filter (λ b : AccAddress, b ≠ a) votes.
Proof.
  intros Hnd (Hl & -> & Hbefore)%list_find_Some. rw -(take_drop_middle votes i a Hl) in Hnd.
  rw -{3}(take_drop_middle votes i a Hl) filter_app filter_cons_False; [|naive_solver].
  apply NoDup_app in Hnd as (_ & Hd & [Hn _]%NoDup_cons). rw !filter_all; [done|..].
  - by intros b Hb ->.
  - intros b Hb ->. apply (Hd a Hb). left.
Qed.

Lemma RevokeConfirmation_runs c st id a : ms_holds (ms_store c) st → ms_inv router fine st → 0 ≤ id →
  runs (RevokeConfirmation modulePerms id a) c (multisig_spec.revoke st id a).
Proof.
  intros Hs Hi Hid. unfold multisig_spec.revoke. apply runs_own. pose proof (GetCall_run c st id Hs Hid) as Hget.
  destruct (ms_calls st !! id) as [call|] eqn:Ec; [|by apply runs_Err].
  destruct (mi_call _ _ _ Hi id call Ec) as [[Hc _ Hh _] _].
  apply (runs_bind _ _ _ _ _ Hget). unfold revokeVote. rw Hc. apply runs_emit.
  destruct (CanBeVoted_cases call) as [Ev|[e Ev]]; rw Ev; [|by apply runs_Err]. rw outcome_bind_ok.
  apply (runs_bind _ _ _ tt); [done|]. pose proof (HasVote_run c st id a Hs Hid) as Hv.
  pose proof (GetVotes__run c st id call Hs Hid Ec) as Hvs.
  destruct (ms_votes st !! id) as [votes|] eqn:Evotes; [|by apply (runs_bind _ _ _ _ _ (attempt_Err _ _ _ _ _ Hv))].
  apply (runs_bind _ _ _ _ _ (attempt_Ok _ _ _ _ _ Hv)). destruct (mi_votes _ _ _ Hi id votes Evotes) as (Hne & Hnd & _).
  case_decide as Ha; [|by rw bool_decide_false]. rw bool_decide_true; [|done]. apply (runs_bind _ _ _ _ _ Hvs). simpl default.
  destruct (decide (votes = [a])) as [->|Hn].
  - simpl Nat.eqb. eapply runs_seq; [by apply removeVotes_runs|]. intros c1 Hs1 _. apply RemoveCallFromQueue_runs; [done..|].
    intros h' Hq. simpl in Hq. destruct (mi_queue _ _ _ Hi id h' Hq) as (call' & Ec' & <- & _). congruence.
  - destruct (Nat.eqb_spec (length votes) 1) as [Hl|Hl].
    + exfalso. apply Hn. destruct votes as [|b [|]]; [done| |done]. clear Hv. by apply elem_of_cons in Ha as [->|Ha%elem_of_nil].
    + destruct (list_find_elem_of (λ vote, vote = a) votes a) as [[i x] Hf]; [done..|]. rw Hf.
      rw (remove_first votes a i x Hnd Hf). by apply setVotes_runs.
Qed.

Lemma runs_Panic {A} (m : M A) f c : (m self c).1 = Panic → runs (m ≫= f) c Panic.
Proof. unfold runs, mbind, M_bind. intros Hm. destruct (m self c) as [o ?]. simpl in Hm. by subst o. Qed.

Lemma runs_lift {A} (o : outcome A) (f : A → M unit) c (spec : A → outcome mstate) :
  (∀ x, o = Ok x → runs (f x) c (spec x)) → runs (lift o ≫= f) c (o ≫= spec).
Proof.
  intros Hf. destruct o as [x|e|].
  - rw outcome_bind_ok. apply (runs_bind _ _ _ x); [done|]. by apply Hf.
  - by apply runs_Err.
  - by apply runs_Panic.
Qed.

Lemma NewCall_Ok id u msg h a call : NewCall id u msg h a = Ok call →
  ∃ m, msg = Some m ∧ call = MkCall id u a false false false false "" (Some m) (MsMsg_Route m) (MsMsg_Type m) h.
Proof. unfold NewCall. destruct msg as [m|]; [|done]. simpl. intros Hc. ok_inv. by exists m. Qed.

(** A fresh ID. *)
Lemma next_id_fresh st id : ms_inv router fine st → multisig_spec.next_id st = Ok id →
  0 ≤ id < maxUint ∧ (∀ l, ms_last st = Some l → l < id) ∧ ms_calls st !! id = None ∧ ms_votes st !! id = None ∧ ms_queue st !! id = None.
Proof.
  intros Hi Hn. assert (0 ≤ id < maxUint ∧ ∀ l, ms_last st = Some l → l < id) as [Hid Hl].
  { unfold multisig_spec.next_id, ID_Incr in Hn. destruct (ms_last st) as [l|] eqn:El; [|injection Hn as <-; done].
    pose proof (mi_last _ _ _ Hi l El). destruct (decide (l + 1 < maxUint)).
    - rw Uint_Add_ok in Hn; [|lia..]. injection Hn as <-. split; [lia|]. intros ? [= <-]. lia.
    - rw Uint_Add_overflow in Hn; [done|lia]. }
  assert (ms_calls st !! id = None) as Hc.
  { apply eq_None_not_Some. intros [call Hc]. destruct (mi_call _ _ _ Hi id call Hc) as (_ & l & E & ?). specialize (Hl l E). lia. }
  split; [done|]. split; [done|]. split; [done|]. split; apply eq_None_not_Some.
  - intros [votes Hv]. destruct (mi_votes _ _ _ Hi id votes Hv) as (_ & _ & [call E]). congruence.
  - intros [h Hq]. destruct (mi_queue _ _ _ Hi id h Hq) as (call & E & _). congruence.
Qed.

Lemma createCall_runs c st call : ms_holds (ms_store c) st → 0 ≤ call_ID call → 0 ≤ call_Height call < 2 ^ 63 →
  ms_queue st !! call_ID call = None →
  runs (createCall modulePerms call) c (Ok (enqueue (set_call (set_unique (set_last st (call_ID call)) (call_UniqueID call) (call_ID call)) call)
    (call_ID call) (call_Height call))).
Proof.
  intros Hs Hid Hh Hq. unfold createCall.
  eapply runs_seq; [by apply setLastCallID_runs|]. intros c1 Hs1 _.
  eapply runs_seq; [by apply setCallUniqueIDMatch_runs|]. intros c2 Hs2 _.
  eapply runs_seq; [by apply StoreCall_runs|]. intros c3 Hs3 _.
  apply runs_emit. by apply addCallToQueue_runs.
Qed.

(** A run on a copy of the state. *)
Lemma cached_cases {A} (m : M A) c :
  match (m self (set_events c [])).1 with
  | Panic => (cached m self c).1 = Panic
  | o => ∃ cx, m self (set_events c []) = (o, cx) ∧ cached m self c = (Ok (o, cx), c)
  end.
Proof.
  unfold cached. change (MkCtx (ctx_stores c) (ctx_bank c) [] (ctx_height c) (ctx_time c)) with (set_events c []).
  destruct (m self (set_events c [])) as [[x|e|] cx]; simpl; [by exists cx..|done].
Qed.

(** The outcome of a message's handler on a copy of the state. *)
Definition dry_run c (m : MsMsg) : outcome unit :=
  match GetRoute router (MsMsg_Route m) with Ok handler => (handler m self (set_events c [])).1 | _ => Panic end.

Lemma SubmitCall_runs c st msg u a : ms_holds (ms_store c) st → ms_inv router fine st → 0 ≤ ctx_height c < 2 ^ 63 →
  runs (SubmitCall modulePerms router msg u a) c (multisig_spec.submit router (dry_run c) st msg u (ctx_height c) a).
Proof.
  intros Hs Hi Hh. unfold multisig_spec.submit. apply runs_own. apply (runs_bind _ _ _ _ _ (HasCallByUniqueID_run c st u Hs)).
  destruct (ms_unique st !! u) as [id|] eqn:Eu.
  { rw bool_decide_true; [|done]. apply (runs_bind _ _ _ _ _ (GetCallIDByUniqueID_run c st u id Hs Eu)).
    destruct (proj1 (mi_unique _ _ _ Hi u id) Eu) as (call & Ec & _). destruct (mi_call _ _ _ Hi id call Ec) as [[Hc Hid _ _] _].
    apply ConfirmCall_runs; [done|lia|]. intros call' Ec'. by assert (call' = call) as -> by congruence. }
  rw bool_decide_false; [|by intros []]. pose proof (nextCallID_run c st Hs) as Hn.
  destruct (multisig_spec.next_id st) as [id|e|] eqn:En; [|by apply runs_Err|by apply runs_Panic; rw Hn].
  apply (runs_bind _ _ _ _ _ Hn). apply (runs_bind _ _ _ (ctx_height c)); [done|]. rw outcome_bind_ok.
  apply runs_lift. intros call (m & -> & Ecall)%NewCall_Ok.
  destruct (next_id_fresh st id Hi En) as (Hid & Hl & Hfc & Hfv & Hfq).
  destruct (HasRoute router (MsMsg_Route m)) eqn:Er; [|done]. simpl negb. cbv iota. unfold dry_run.
  assert (∃ handler, GetRoute router (MsMsg_Route m) = Ok handler) as [handler Eh].
  { unfold HasRoute in Er. apply bool_decide_eq_true in Er as [handler Eh]. exists handler. unfold GetRoute. by rw Eh. }
  rw Eh. apply (runs_bind _ _ _ handler); [done|]. pose proof (cached_cases (handler m) c) as Hr.
  destruct (handler m self (set_events c [])).1 as [x|e|]; [| |by apply runs_Panic].
  - destruct Hr as (cx & _ & Hr). apply (runs_bind _ _ _ _ _ Hr). rw outcome_bind_ok. rw Ecall. cbn beta iota.
    eapply runs_seq; [apply createCall_runs; simpl; [done|lia|done|done]|]. intros c1 Hs1 _.
    pose proof (ConfirmCall_runs c1 _ id a Hs1 ltac:(lia)) as Hc. unfold multisig_spec.confirm in Hc. simpl in Hc.
    rw lookup_insert_eq in Hc. rw Hfv in Hc. apply Hc. by intros call' [= <-].
  - destruct Hr as (cx & _ & Hr). by apply (runs_bind _ _ _ _ _ Hr).
Qed.

(** *** The invariant *)
Lemma inv_set_votes st id votes : ms_inv router fine st → is_Some (ms_calls st !! id) → votes ≠ [] → NoDup votes →
  ms_inv router fine (set_votes st id votes).
Proof.
  intros Hi Hc Hne Hnd. split; simpl; [apply Hi..| |].
  - intros id' votes'. rw lookup_insert. case_decide as E; [|apply Hi]. intros [= <-]. by subst.
  - intros id' h Hq. destruct (mi_queue _ _ _ Hi id' h Hq) as (call & ? & ? & ? & ?). exists call. split; [done|]. split; [done|].
    split; [done|]. rw lookup_insert. by case_decide.
Qed.

Lemma inv_dequeue st id : ms_inv router fine st → ms_inv router fine (dequeue st id).
Proof. intros Hi. split; simpl; [apply Hi..|]. intros id' h [_ Hq]%lookup_delete_Some. by apply Hi. Qed.

Lemma confirm_inv st st' id a : ms_inv router fine st → multisig_spec.confirm st id a = Ok st' → ms_inv router fine st'.
Proof.
  intros Hi. unfold multisig_spec.confirm. destruct (ms_calls st !! id) as [call|] eqn:Ec; [|done].
  intros (u & _ & Hr)%outcome_bind_inv. destruct (ms_votes st !! id) as [votes|] eqn:Ev.
  - case_decide as Ha; [done|]. injection Hr as <-. apply inv_set_votes; [done|by rw Ec|by destruct votes|].
    destruct (mi_votes _ _ _ Hi id votes Ev) as (_ & Hnd & _). apply NoDup_app. split; [done|]. split; [|apply NoDup_singleton].
    intros b Hb Hba. apply elem_of_cons in Hba as [->|Hba%elem_of_nil]; done.
  - injection Hr as <-. apply inv_set_votes; [done|by rw Ec|done|apply NoDup_singleton].
Qed.

Lemma revoke_inv st st' id a : ms_inv router fine st → multisig_spec.revoke st id a = Ok st' → ms_inv router fine st'.
Proof.
  intros Hi. unfold multisig_spec.revoke. destruct (ms_calls st !! id) as [call|] eqn:Ec; [|done].
  intros (u & _ & Hr)%outcome_bind_inv. destruct (ms_votes st !! id) as [votes|] eqn:Ev; [|done].
  case_decide as Ha; [|done]. destruct (mi_votes _ _ _ Hi id votes Ev) as (_ & Hnd & _). injection Hr as <-.
  case_decide as Hv.
  - split; simpl; [apply Hi..| |].
    + intros id' votes' [_ Hl]%lookup_delete_Some. by apply Hi.
    + intros id' h [Hne Hq]%lookup_delete_Some. destruct (mi_queue _ _ _ Hi id' h Hq) as (call' & ? & ? & ? & ?). exists call'.
      by rw lookup_delete_ne.
  - apply inv_set_votes; [done|by rw Ec| |by apply NoDup_filter]. intros Hf. apply Hv.
    assert (∀ b, b ∈ votes → b = a) as Hall.
    { intros b Hb. destruct (decide (b = a)); [done|]. assert (b ∈ filter (λ b, b ≠ a) votes) as Hbf by by apply list_elem_of_filter.
      rw Hf in Hbf. by apply elem_of_nil in Hbf. }
    destruct votes as [|b [|b' votes]]; [by apply elem_of_nil in Ha| |].
    + by rw (Hall b ltac:(left)).
    + exfalso. apply NoDup_cons in Hnd as [Hb _]. apply Hb. rw (Hall b ltac:(left)) -(Hall b' ltac:(right; left)). left.
Qed.

Lemma created_inv st id u m h a handler : ms_inv router fine st → multisig_spec.next_id st = Ok id → ms_unique st !! u = None →
  0 ≤ h < 2 ^ 63 → GetRoute router (MsMsg_Route m) = Ok handler → fine m →
  ms_inv router fine (multisig_spec.created st (MkCall id u a false false false false "" (Some m) (MsMsg_Route m) (MsMsg_Type m) h) a).
Proof.
  intros Hi Hn Hu Hh Hr Hf. destruct (next_id_fresh st id Hi Hn) as (Hid & Hl & Hfc & Hfv & Hfq).
  unfold multisig_spec.created. split; simpl.
  - intros id' call'. rw lookup_insert. case_decide as E.
    + intros [= <-]. subst id'. split; [|by exists id; split]. split; simpl; [done..|]. by exists m, handler.
    + intros Hc. destruct (mi_call _ _ _ Hi id' call' Hc) as (? & l & El & ?). split; [done|]. exists id. split; [done|].
      specialize (Hl l El). lia.
  - by intros l [= <-].
  - intros u' id'. rw !lookup_insert. case_decide as E; case_decide as E'; subst.
    + split; [by eexists|]. done.
    + split; [congruence|]. intros (call & Ec & Eu). assert (ms_unique st !! u' = Some id'); [|congruence]. apply Hi. by exists call.
    + split.
      * intros Hu'. destruct (proj1 (mi_unique _ _ _ Hi u' id') Hu') as (call & Ec & _). congruence.
      * intros (call & [= <-] & Eu). simpl in Eu. done.
    + apply Hi.
  - intros id' votes'. rw !lookup_insert. case_decide as E; [|apply Hi]. intros [= <-]. split; [done|]. split; [apply NoDup_singleton|done].
  - intros id' h'. rw !lookup_insert. case_decide as E.
    + intros [= <-]. by eexists.
    + intros Hq. destruct (mi_queue _ _ _ Hi id' h' Hq) as (call & ? & ? & ? & ?). by exists call.
Qed.

Lemma submit_inv st st' dry msg u h a : ms_inv router fine st → 0 ≤ h < 2 ^ 63 → (∀ x, msg = Some x → fine x) →
  multisig_spec.submit router dry st msg u h a = Ok st' → ms_inv router fine st'.
Proof.
  intros Hi Hh Hfine. unfold multisig_spec.submit. destruct (ms_unique st !! u) as [id|] eqn:Eu; [by apply confirm_inv|].
  intros (id & Hn & Hr)%outcome_bind_inv. apply outcome_bind_inv in Hr as (call & (m & -> & ->)%NewCall_Ok & Hr).
  unfold HasRoute, fail_if in Hr. case_bool_decide as Hroute; [|done]. simpl in Hr. apply outcome_bind_inv in Hr as (? & _ & [= <-]).
  destruct Hroute as [handler Hroute]. eapply (created_inv _ _ _ _ _ _ handler); [done..| |by apply Hfine]. unfold GetRoute. by rw Hroute.
Qed.

Lemma step_inv st st' validator dry h msg : ms_inv router fine st → 0 ≤ h < 2 ^ 63 → multisig_spec.msg_ok fine msg →
  multisig_spec.step router validator dry h st msg = Ok st' → ms_inv router fine st'.
Proof.
  intros Hi Hh Hm. destruct msg as [m|m|m|]; simpl; [..|done].
  - intros (? & _ & Hr)%outcome_bind_inv. by eapply submit_inv.
  - intros (? & _ & Hr)%outcome_bind_inv. by eapply confirm_inv.
  - by apply revoke_inv.
Qed.

(** *** What is out of the queue stays as it is *)
Definition keeps st st' : Prop :=
  (∀ id call, ms_calls st !! id = Some call → ms_queue st !! id = None →
    ms_calls st' !! id = Some call ∧ ms_queue st' !! id = None) ∧
  (∀ u id, ms_unique st !! u = Some id → ms_unique st' !! u = Some id).

Lemma keeps_refl st : keeps st st.
Proof. done. Qed.
Lemma keeps_trans st1 st2 st3 : keeps st1 st2 → keeps st2 st3 → keeps st1 st3.
Proof.
  intros [Hc Hu] [Hc' Hu']. split; [|naive_solver]. intros id call Hi Hq. destruct (Hc id call Hi Hq). by apply Hc'.
Qed.

Lemma confirm_keeps st st' id a : multisig_spec.confirm st id a = Ok st' → keeps st st'.
Proof.
  unfold multisig_spec.confirm. destruct (ms_calls st !! id); [|done]. intros (u & _ & Hr)%outcome_bind_inv.
  destruct (ms_votes st !! id); [case_decide; [done|]|]; by injection Hr as <-.
Qed.

Lemma revoke_keeps st st' id a : multisig_spec.revoke st id a = Ok st' → keeps st st'.
Proof.
  unfold multisig_spec.revoke. destruct (ms_calls st !! id); [|done]. intros (u & _ & Hr)%outcome_bind_inv.
  destruct (ms_votes st !! id); [|done]. case_decide; [|done]. injection Hr as <-. case_decide; [|done].
  split; [|done]. simpl. intros id' call' Hc Hq. split; [done|]. apply lookup_delete_None. by right.
Qed.

Lemma submit_keeps st st' dry msg u h a : ms_inv router fine st → multisig_spec.submit router dry st msg u h a = Ok st' → keeps st st'.
Proof.
  intros Hi. unfold multisig_spec.submit. destruct (ms_unique st !! u) as [id|] eqn:Eu; [by apply confirm_keeps|].
  intros (id & Hn & Hr)%outcome_bind_inv. apply outcome_bind_inv in Hr as (call & (m & -> & ->)%NewCall_Ok & Hr).
  apply outcome_bind_inv in Hr as (? & _ & Hr). apply outcome_bind_inv in Hr as (? & _ & [= <-]).
  destruct (next_id_fresh st id Hi Hn) as (_ & _ & Hfc & _). unfold multisig_spec.created. split; simpl.
  - intros id' call' Hc Hq. rw !lookup_insert_ne; [done|congruence..].
  - intros u' id' Hu'. rw lookup_insert_ne; [done|congruence].
Qed.

Lemma step_keeps st st' validator dry h msg : ms_inv router fine st →
  multisig_spec.step router validator dry h st msg = Ok st' → keeps st st'.
Proof.
  intros Hi. destruct msg as [m|m|m|]; simpl; [..|done].
  - intros (? & _ & Hr)%outcome_bind_inv. by eapply submit_keeps.
  - intros (? & _ & Hr)%outcome_bind_inv. by eapply confirm_keeps.
  - by apply revoke_keeps.
Qed.

(** *** The message handler *)
Lemma set_events_own c : set_events (set_events c []) (ctx_events c) = c.
Proof. by destruct c. Qed.

(** What the handler of a message does to the state. *)
Definition handles (m : M Result) c (spec : outcome mstate) : Prop :=
  match spec with
  | Ok st' => ∃ r c', m self c = (Ok r, c') ∧ ms_holds (ms_store c') st' ∧ agree c c'
  | Err e => m self c = (Err e, c)
  | Panic => (m self c).1 = Panic
  end.

Lemma handles_events (m : M unit) c o : runs m (set_events c []) o → handles (WithEventManager (m;; handled)) c o.
Proof.
  unfold runs, handles, WithEventManager. destruct o as [st'|e|].
  - intros (c' & Hm & Hs & Ha). eexists _, _. rw (M_bind_Ok _ _ _ _ _ _ Hm). split; [reflexivity|]. split; [done|].
    eapply agree_trans; [apply (agree_events c [])|]. eapply agree_trans; [exact Ha|]. by repeat split.
  - intros Hm. rw (M_bind_Err _ _ _ _ _ _ Hm). simpl. by rw set_events_own.
  - intros Hm. unfold mbind, M_bind. by destruct (m self (set_events c [])) as [[] ?].
Qed.

Lemma handles_validator (has : M bool) (b : bool) (m : M unit) c spec :
  has self (set_events c []) = (Ok b, set_events c []) → runs m (set_events c []) spec →
  handles (WithEventManager (has ≫= λ b, if negb b then throw ErrPoaNotValidator else m;; handled)) c
    (fail_if (negb b) ErrPoaNotValidator;; spec).
Proof.
  intros Hb Hm. assert (∀ m' : M Result, (if negb b then throw ErrPoaNotValidator else m;; handled) = m' →
    handles (WithEventManager m') c (fail_if (negb b) ErrPoaNotValidator;; spec) →
    handles (WithEventManager (has ≫= λ b, if negb b then throw ErrPoaNotValidator else m;; handled)) c
      (fail_if (negb b) ErrPoaNotValidator;; spec)) as Hext.
  { intros m' <- Hh. unfold handles, WithEventManager in *. by rw (M_bind_Ok _ _ _ _ _ _ Hb). }
  eapply Hext; [reflexivity|]. destruct b; simpl.
  - by apply handles_events.
  - unfold WithEventManager. simpl. by rw set_events_own.
Qed.

Lemma NewHandler_handles c st msg (validator : AccAddress → bool) caller :
  ms_holds (ms_store c) st → ms_inv router fine st → 0 ≤ ctx_height c < 2 ^ 63 → multisig_spec.msg_ok fine msg →
  (∀ a, vs_HasValidator a self (set_events c []) = (Ok (validator a), set_events c [])) →
  handles (λ _, NewHandler modulePerms router msg caller) c (multisig_spec.step router validator (dry_run c) (ctx_height c) st msg).
Proof.
  intros Hs Hi Hh Hm Hv. destruct msg as [m|m|m|]; simpl.
  - apply (handles_validator (vs_HasValidator (msc_Creator m)) _ _ c _ (Hv _)).
    by apply (SubmitCall_runs (set_events c []) st).
  - apply (handles_validator (vs_HasValidator (mcc_Sender m)) _ _ c _ (Hv _)).
    apply ConfirmCall_runs; [done..|]. intros call Ec. by destruct (mi_call _ _ _ Hi _ call Ec) as [[] _].
  - apply (handles_events (RevokeConfirmation modulePerms (mrc_CallID m) (mrc_Sender m))). by apply RevokeConfirmation_runs.
  - unfold NewHandler, in_module, WithEventManager. simpl. by rw set_events_own.
Qed.

(** C17: a message to the module does to the stored calls, votes, unique IDs and queue
    exactly what the abstract operation does: only validators submit and confirm, one
    vote per address and only on open calls; a new call is stored under the next ID,
    queued, with its creator's vote, after a dry run of its message that leaves no
    trace.  An error changes nothing. *)
Theorem NewHandler_refines_calls c st msg (validator : AccAddress → bool) caller :
  ms_holds (ms_store c) st → ms_inv router fine st → 0 ≤ ctx_height c < 2 ^ 63 → multisig_spec.msg_ok fine msg →
  (∀ a, vs_HasValidator a self (set_events c []) = (Ok (validator a), set_events c [])) →
  match multisig_spec.step router validator (dry_run c) (ctx_height c) st msg with
  | Ok st' => ∃ r c', NewHandler modulePerms router msg caller c = (Ok r, c') ∧
      ms_holds (ms_store c') st' ∧ ms_inv router fine st' ∧ agree c c'
  | Err e => NewHandler modulePerms router msg caller c = (Err e, c)
  | Panic => (NewHandler modulePerms router msg caller c).1 = Panic
  end.
Proof.
  intros Hs Hi Hh Hm Hv. pose proof (NewHandler_handles c st msg validator caller Hs Hi Hh Hm Hv) as Hr. unfold handles in Hr.
  destruct (multisig_spec.step router validator (dry_run c) (ctx_height c) st msg) as [st'|e|] eqn:E; [|done..].
  destruct Hr as (r & c' & Hrun & Hs' & Ha). exists r, c'. split; [done|]. split; [done|]. split; [by eapply step_inv|done].
Qed.
End calls.
