(* ===== verification/MultisigBlock.v ===== *)
(** * Calls: the end blocker

    [block_step] says what becomes of one call of the queue: it waits for votes, or
    its message is executed, or the execution fails; a call that waited too long is
    rejected.  The end blocker makes exactly these steps for the calls of its window. *)
From S2P Require Import Prelude Bytes Sdk SdkRef SdkFacts DnTypes Perms Chain Poa PoaTheorems MsModule Multisig MultisigFacts MultisigCalls.
Local Open Scope string_scope.
Local Open Scope Z_scope.
Local Open Scope list_scope.

(** A range up to the end of a prefix holds what is before the prefix and what has it. *)
Section range.
Context `{KVStoreLaws}.

Lemma before_prefix_end p k : p ≠ ""%string →
  match PrefixEndBytes p with Some e => bytes_lt k e | None => True end ↔ bytes_lt k p ∨ has_prefix p k.
Proof.
  intros Hp. pose proof (PrefixEndBytes_spec p k Hp) as Hk. pose proof (PrefixEndBytes_spec p p Hp) as Hpp.
  destruct Hpp as [_ [_ Hpe]]; [by exists ""%string; rw string_app_nil_r|]. unfold in_range in *. split.
  - intros He. destruct (bytes_lt_total k p) as [Hlt|[->|Hlt]]; [by left|..]; right; apply Hk; (split; [apply bytes_le_lteq|done]).
    + by right.
    + by left.
  - intros [Hlt|Hpre]; [|by apply Hk]. destruct (PrefixEndBytes p); [|done]. by eapply bytes_lt_trans.
Qed.
End range.

Section block.
Context `{SdkTypesLaws} `{KVStoreLaws} `{LG : Ledger} `{MS : MsMsgs} `{VS : !ValidatorSet}.
Context `{CI : !Codec Z} `{CC : !Codec multisig.Call} `{CV : !Codec (list AccAddress)}.
Variable error_Error : error → string.
Variable modulePerms : ModulePermissions.
Hypothesis own_perms : mp_name modulePerms = multisig.ModuleName.
Variable router : msRouter.
Variable fine : MsMsg → Prop.
Import multisig.
Implicit Types (s : store) (st : mstate) (c : Ctx) (id h : Z) (call : Call) (a : AccAddress).
Notation ms_store c := (ctx_stores c StoreKey).
Notation self := ModuleName.
Notation ms_inv := (ms_inv router fine).

(** *** The iterators *)
Lemma queue_prefix_lt h : bytes_lt QueuePrefix (GetPrefixQueueKey h).
Proof. change (GetPrefixQueueKey h) with (QueuePrefix +:+ (":" +:+ Uint64ToBigEndian (wrap64 h))). rw -{1}(string_app_nil_r QueuePrefix). by apply bytes_lt_app. Qed.

Lemma queue_prefix_of h k : has_prefix (GetPrefixQueueKey h) k → has_prefix QueuePrefix k.
Proof.
  intros [t ->]. exists (":" +:+ (Uint64ToBigEndian (wrap64 h) +:+ t))%string.
  change (GetPrefixQueueKey h) with ("queue:" +:+ Uint64ToBigEndian (wrap64 h)). by rw string_app_assoc.
Qed.

(** A key between the queue's prefix and the end of a height's prefix is in the queue. *)
Lemma in_queue hi k : bytes_le QueuePrefix k → bytes_lt k (GetPrefixQueueKey hi) ∨ has_prefix (GetPrefixQueueKey hi) k →
  has_prefix QueuePrefix k.
Proof.
  intros Hle [Hlt|Hp]; [|by eapply queue_prefix_of]. apply (PrefixEndBytes_spec QueuePrefix k); [done|]. split; [done|].
  apply before_prefix_end; [done|]. pose proof (before_prefix_end QueuePrefix (GetPrefixQueueKey hi) ltac:(done)) as Hb.
  pose proof (before_prefix_end QueuePrefix k ltac:(done)) as Hk. apply Hk. destruct Hb as [_ Hb].
  destruct (PrefixEndBytes QueuePrefix); [|done]. eapply bytes_lt_trans; [done|]. apply Hb. right. eapply queue_prefix_of.
  exists ""%string. by rw string_app_nil_r.
Qed.

Definition queue_entry id h : string * string := (GetQueueKey id h, Marshal LengthPrefixed id).

Lemma queue_iterator s st start hi kv : ms_holds s st → ms_inv st → 0 ≤ hi < 2 ^ 63 → bytes_le QueuePrefix start →
  kv ∈ store_Iterator s start (PrefixEndBytes (GetPrefixQueueKey hi)) ↔
  ∃ id h, ms_queue st !! id = Some h ∧ h ≤ hi ∧ bytes_le start (GetQueueKey id h) ∧ kv = queue_entry id h.
Proof.
  intros Hs Hi Hhi Hstart. destruct kv as [k v]. rw store_Iterator_elem. unfold in_range.
  pose proof (before_prefix_end (GetPrefixQueueKey hi) k ltac:(done)) as Hb. split.
  - intros (Hg & Hle & Hlt%Hb). assert (has_prefix QueuePrefix k) as Hq.
    { eapply in_queue; [|done]. apply bytes_le_lteq. apply bytes_le_lteq in Hstart. apply bytes_le_lteq in Hle.
      destruct Hstart as [?|<-]; [|done]. destruct Hle as [?|<-]; left; [by eapply bytes_lt_trans|done]. }
    destruct (mh_queue_only _ _ Hs k v Hq Hg) as (id & h & Hid & Hh & ->). rw (mh_queue _ _ Hs) in Hg; [|done..].
    case_decide as E; [|done]. injection Hg as <-. exists id, h. split; [done|]. split; [|done].
    destruct Hlt as [Hlt|Hp]; [apply GetQueueKey_lt in Hlt; [lia|done..]|apply GetQueueKey_prefix in Hp; [lia|done..]].
  - intros (id & h & Hq & Hle & Hst & [= -> ->]). destruct (mi_queue _ _ _ Hi id h Hq) as (call & Ec & <- & _).
    destruct (mi_call _ _ _ Hi id call Ec) as [[_ Hid Hh _] _]. split; [rw (mh_queue _ _ Hs); [by rw decide_True|lia|done]|].
    split; [done|]. apply before_prefix_end; [done|]. destruct (decide (call_Height call = hi)) as [<-|Hne].
    + right. by apply GetQueueKey_prefix.
    + left. apply GetQueueKey_lt; [done..|lia].
Qed.

(** The IDs of the entries an iterator returns. *)
Definition entry_ids (kvs : list (string * string)) : list Z := omap (λ kv, Unmarshal LengthPrefixed kv.2) kvs.

Lemma entry_ids_elem kvs id : (∀ kv, kv ∈ kvs → ∃ id h, kv = queue_entry id h) →
  id ∈ entry_ids kvs ↔ ∃ h, queue_entry id h ∈ kvs.
Proof.
  intros Hall. unfold entry_ids. rw list_elem_of_omap. split.
  - intros (kv & Hkv & Hu). destruct (Hall kv Hkv) as (id' & h & ->). simpl in Hu. rw Unmarshal_Marshal in Hu. injection Hu as ->. by exists h.
  - intros (h & Hkv). exists (queue_entry id h). split; [done|]. simpl. apply Unmarshal_Marshal.
Qed.

Lemma entry_ids_NoDup kvs (queue : gmap Z Z) : (∀ kv, kv ∈ kvs → ∃ id h, queue !! id = Some h ∧ kv = queue_entry id h) → NoDup kvs →
  NoDup (entry_ids kvs).
Proof.
  induction kvs as [|kv kvs IH]; intros Hall Hnd; [constructor|]. apply NoDup_cons in Hnd as [Hn Hnd].
  destruct (Hall kv) as (id & h & Hq & ->); [left|]. unfold entry_ids. simpl. rw Unmarshal_Marshal. constructor.
  - intros (h' & Hkv)%(entry_ids_elem kvs id).
    + destruct (Hall (queue_entry id h')) as (id' & h0 & Hq' & E); [by right|]. apply Hn. apply pair_eq in E as [Ek Ev].
      assert (Some id = Some id') as [= <-] by (by rw -(Unmarshal_Marshal LengthPrefixed id) -(Unmarshal_Marshal LengthPrefixed id') Ev).
      assert (h0 = h) as -> by congruence. unfold queue_entry in *. by rw Ek in Hkv.
    + intros kv Hkv. destruct (Hall kv) as (? & ? & _ & ->); [by right|]. by eexists _, _.
  - apply IH; [|done]. intros kv Hkv. apply Hall. by right.
Qed.

(** ** Deciding a call *)
Definition closed st call : mstate := dequeue (set_call st call) (call_ID call).
Definition votes_of st id : list AccAddress := default [] (ms_votes st !! id).

(** One call of the queue, [call_Height] blocks old or less: the contexts give the
    state of the other modules, which an execution changes. *)
Inductive block_step : Ctx * mstate → Z → Ctx * mstate → Prop :=
  | step_waits c st id q c' :
      vs_GetEnoughConfirmations self c = (Ok q, c) → uint16 (Z.of_nat (length (votes_of st id))) < q →
      agree c c' → block_step (c, st) id (c', st)
  | step_executed c st id q call msg (handler : MsHandler) cx c' :
      vs_GetEnoughConfirmations self c = (Ok q, c) → q ≤ uint16 (Z.of_nat (length (votes_of st id))) →
      ms_calls st !! id = Some call → call_Msg call = Some msg → GetRoute router (MsMsg_Route msg) = Ok handler →
      handler msg self (set_events c []) = (Ok tt, cx) →
      agree cx c' → block_step (c, st) id (c', closed st (with_Executed (with_Approved call)))
  | step_failed c st id q call msg (handler : MsHandler) e cx c' :
      vs_GetEnoughConfirmations self c = (Ok q, c) → q ≤ uint16 (Z.of_nat (length (votes_of st id))) →
      ms_calls st !! id = Some call → call_Msg call = Some msg → GetRoute router (MsMsg_Route msg) = Ok handler →
      handler msg self (set_events c []) = (Err e, cx) →
      agree c c' → block_step (c, st) id (c', closed st (with_Failed (with_Approved call) (error_Error e))).

Inductive block_steps : Ctx * mstate → list Z → Ctx * mstate → Prop :=
  | steps_nil x : block_steps x [] x
  | steps_cons x id ids y z : block_step x id y → block_steps y ids z → block_steps x (id :: ids) z.

Definition reject st id : mstate :=
  match ms_calls st !! id with Some call => closed st (with_Rejected call) | None => st end.

(** ** The handlers and the rest of the state

    [world] is an invariant of the other modules under which the quorum can be read
    and no handler panics; a handler leaves the module's own store and parameters
    alone. *)
Record world_ok (world : Ctx → Prop) : Prop := {
  wo_validator c a : world c → ∃ b, vs_HasValidator a self c = (Ok b, c);
  wo_agree c c' : world c → agree c c' → world c';
  wo_quorum c : world c → ∃ q, vs_GetEnoughConfirmations self c = (Ok q, c);
  wo_handler c msg (handler : MsHandler) o cx :
    world c → fine msg → GetRoute router (MsMsg_Route msg) = Ok handler → handler msg self c = (o, cx) →
    o ≠ Panic ∧ (∀ k, k ∈ [StoreKey; params_store DefaultParamspace] → ctx_stores cx k = ctx_stores c k) ∧
    ctx_height cx = ctx_height c ∧ ctx_time cx = ctx_time c ∧ (o = Ok tt → world cx);
}.

Lemma closed_inv st id call call' : ms_inv st → ms_calls st !! id = Some call →
  call_ID call' = call_ID call → call_UniqueID call' = call_UniqueID call → call_Height call' = call_Height call →
  call_Msg call' = call_Msg call → ms_inv (closed st call').
Proof.
  intros Hi Hc E1 E2 E3 E4. destruct (mi_call _ _ _ Hi id call Hc) as [[Hid Hr Hh Hm] Hl]. rw Hid in E1. split; simpl.
  - intros id' c'. rw lookup_insert. case_decide as E; [|apply Hi]. intros [= <-]. subst id'. rw E1. split; [|done]. split; [done|done|by rw E3|by rw E4].
  - apply Hi.
  - intros u id'. rw lookup_insert. rw (mi_unique _ _ _ Hi). case_decide as E; [|done]. rw E1 in E. subst id'. split.
    + intros (c0 & E0 & <-). exists call'. split; [done|]. congruence.
    + intros (c0 & [= <-] & <-). exists call. by rw E2.
  - intros id' votes Hv. rw lookup_insert. destruct (mi_votes _ _ _ Hi id' votes Hv) as (? & ? & ?). case_decide; done.
  - intros id' h [Hne Hq]%lookup_delete_Some. rw lookup_insert_ne; [|done]. by apply Hi.
Qed.

Lemma closed_keeps st call' h : ms_queue st !! call_ID call' = Some h → keeps st (closed st call').
Proof.
  intros Hq. split; [|done]. simpl. intros id call Hc Hn. rw lookup_insert_ne; [|congruence]. split; [done|].
  apply lookup_delete_None. by right.
Qed.

Lemma close_runs c st id call call' h : ms_holds (ms_store c) st → ms_inv st → ms_calls st !! id = Some call → ms_queue st !! id = Some h →
  call_ID call' = call_ID call → call_Height call' = call_Height call →
  runs (StoreCall modulePerms call';; RemoveCallFromQueue modulePerms id (call_Height call')) c (Ok (closed st call')).
Proof.
  intros Hs Hi Hc Hq E1 E3. destruct (mi_call _ _ _ Hi id call Hc) as [[Hid Hr Hh _] _]. rw Hid in E1.
  destruct (mi_queue _ _ _ Hi id h Hq) as (call0 & Hc0 & Hh0 & _). assert (call0 = call) as -> by congruence.
  eapply runs_seq; [by apply (StoreCall_runs _ own_perms _ st); [done|lia]|]. intros c1 Hs1 _. unfold closed. rw E1.
  apply RemoveCallFromQueue_runs; [done|done|lia|by rw E3|]. simpl. intros h' Hq'. congruence.
Qed.

Context (world : Ctx → Prop) (Hworld : world_ok world).

(** What the loop keeps of a context. *)
Definition same_params c c' : Prop :=
  ctx_stores c' (params_store DefaultParamspace) = ctx_stores c (params_store DefaultParamspace) ∧
  ctx_height c' = ctx_height c ∧ ctx_time c' = ctx_time c.

Lemma agree_params c c' : agree c c' → same_params c c'.
Proof. intros [(Hs & Hh & Ht) _]. split; [|done]. apply Hs. by intros ?%list_elem_of_singleton. Qed.

Lemma same_params_trans c1 c2 c3 : same_params c1 c2 → same_params c2 c3 → same_params c1 c3.
Proof. intros (H1 & H2 & H3) (K1 & K2 & K3). split; [|split]; congruence. Qed.

Lemma GetConfirmationsCount_run c st id call : ms_holds (ms_store c) st → 0 ≤ id → ms_calls st !! id = Some call →
  GetConfirmationsCount modulePerms id self c = (Ok (Z.of_nat (length (votes_of st id))), c).
Proof.
  intros Hs Hid Hc. unfold GetConfirmationsCount. rw (own_method _ own_perms).
  by rw (M_bind_Ok _ _ _ _ _ _ (GetVotes_run _ own_perms c st id call Hs Hid Hc)).
Qed.

Lemma active_run c st id h kv : world c → ms_holds (ms_store c) st → ms_inv st →
  ms_queue st !! id = Some h → kv.2 = Marshal LengthPrefixed id →
  ∃ c' st', EndBlocker_active error_Error modulePerms router kv self c = (Ok tt, c') ∧ block_step (c, st) id (c', st') ∧
    world c' ∧ ms_holds (ms_store c') st' ∧ ms_inv st' ∧ same_params c c' ∧ keeps st st' ∧
    (∀ id', id' ≠ id → ms_queue st' !! id' = ms_queue st !! id').
Proof.
  intros Hw Hs Hi Hq Ekv. destruct (mi_queue _ _ _ Hi id h Hq) as (call & Hc & Hh & Hopen & Hv).
  destruct (mi_call _ _ _ Hi id call Hc) as [[Hid Hr Hhr (msg & handler & Hm & Hroute & Hfine)] _].
  unfold EndBlocker_active. rw (M_bind_Ok (MustUnmarshal _ _) _ _ c id c); [|unfold MustUnmarshal; by rw Ekv Unmarshal_Marshal].
  rw (M_bind_Ok _ _ _ _ _ _ (attempt_Ok _ _ _ _ _ (GetConfirmationsCount_run c st id call Hs ltac:(lia) Hc))). cbn beta iota.
  destruct (wo_quorum _ Hworld c Hw) as [q Eq]. rw (M_bind_Ok _ _ _ _ _ _ Eq).
  destruct (Z.leb_spec q (uint16 (Z.of_nat (length (votes_of st id))))) as [Hle|Hlt].
  2:{ exists c, st. split; [done|]. split; [by eapply step_waits|]. by split_and!. }
  rw (M_bind_Ok _ _ _ c (Ok call) c); [|apply attempt_Ok; rw (GetCall_run _ own_perms c st id Hs); [by rw Hc|lia]]. cbn beta iota zeta.
  set (c1 := (EmitEvent (NewCallStateChangedEvent id AttributeValueApproved) self c).2).
  rw (M_bind_Ok (EmitEvent _) _ _ c tt c1); [|done]. change (call_Msg (with_Approved call)) with (call_Msg call). rw Hm.
  rw (M_bind_Ok (GetRouteHandler _ _ _) _ _ c1 handler c1); [|unfold GetRouteHandler; by rw (own_method _ own_perms) Hroute].
  destruct (handler msg self (set_events c [])) as [o cx] eqn:Eh.
  destruct (wo_handler _ Hworld (set_events c []) msg handler o cx) as (Hnp & Hst & Hht & Htm & Hw'); [|done..|].
  { eapply wo_agree; [done|done|apply agree_events]. }
  pose proof (cached_cases (handler msg) c1) as Hr1. change (set_events c1 []) with (set_events c []) in Hr1. rw Eh in Hr1. simpl in Hr1.
  assert (∀ cy call', runs (StoreCall modulePerms call';; RemoveCallFromQueue modulePerms id (call_Height call')) cy (Ok (closed st call')) →
    ∃ c', (StoreCall modulePerms call';; RemoveCallFromQueue modulePerms id (call_Height call')) self cy = (Ok tt, c') ∧
      ms_holds (ms_store c') (closed st call') ∧ agree cy c') as Hclose by done.
  destruct o as [[]|e|]; [| |done].
  - destruct Hr1 as (? & [= <-] & Hr1). rw (M_bind_Ok _ _ _ _ _ _ Hr1). cbn beta iota.
    set (c2 := MkCtx (ctx_stores cx) (ctx_bank cx) ((ctx_events c1 ++ ctx_events cx) ++ [NewCallStateChangedEvent id AttributeValueExecuted]) (ctx_height c) (ctx_time c)).
    rw (M_bind_Ok _ _ _ c1 (with_Executed (with_Approved call)) c2); [|done].
    destruct (close_runs c2 st id call (with_Executed (with_Approved call)) h) as (c' & Hrun & Hs' & Ha'); [|done..|].
    { change (ms_store c2) with (ctx_stores cx StoreKey). rw Hst; [done|left]. }
    assert (agree cx c') as Hac. { eapply agree_trans; [|exact Ha']. split; [|done]. split; [done|]. by rw Hht Htm. }
    exists c', (closed st (with_Executed (with_Approved call))). split; [exact Hrun|]. split; [by eapply step_executed|].
    split; [eapply wo_agree; [done|by apply Hw'|done]|]. split; [done|]. split; [by eapply closed_inv|].
    split.
    { eapply same_params_trans; [|by apply agree_params]. split; [|done]. apply Hst. right. left. }
    split; [apply (closed_keeps _ _ h); simpl; by rw Hid|]. simpl. rw Hid. intros id' Hne. by rw lookup_delete_ne.
  - destruct Hr1 as (? & [= <-] & Hr1). rw (M_bind_Ok _ _ _ _ _ _ Hr1). cbn beta iota.
    set (c2 := set_events c1 (ctx_events c1 ++ [NewCallStateChangedEvent id AttributeValueFailed])).
    rw (M_bind_Ok _ _ _ c1 (with_Failed (with_Approved call) (error_Error e)) c2); [|done].
    destruct (close_runs c2 st id call (with_Failed (with_Approved call) (error_Error e)) h) as (c' & Hrun & Hs' & Ha'); [done..|].
    assert (agree c c') as Hac. { eapply agree_trans; [|exact Ha']. done. }
    exists c', (closed st (with_Failed (with_Approved call) (error_Error e))). split; [exact Hrun|]. split; [by eapply step_failed|].
    split; [by eapply wo_agree|]. split; [done|]. split; [by eapply closed_inv|]. split; [by apply agree_params|].
    split; [apply (closed_keeps _ _ h); simpl; by rw Hid|]. simpl. rw Hid. intros id' Hne. by rw lookup_delete_ne.
Qed.

Lemma active_loop kvs c st : world c → ms_holds (ms_store c) st → ms_inv st →
  (∀ kv, kv ∈ kvs → ∃ id h, ms_queue st !! id = Some h ∧ kv = queue_entry id h) → NoDup (entry_ids kvs) →
  ∃ c' st', forM kvs (EndBlocker_active error_Error modulePerms router) self c = (Ok tt, c') ∧
    block_steps (c, st) (entry_ids kvs) (c', st') ∧ world c' ∧ ms_holds (ms_store c') st' ∧ ms_inv st' ∧ same_params c c' ∧ keeps st st'.
Proof.
  revert c st. induction kvs as [|kv kvs IH]; intros c st Hw Hs Hi Hall Hnd.
  { exists c, st. split; [done|]. split; [constructor|]. by split_and!. }
  destruct (Hall kv) as (id & h & Hq & ->); [left|]. unfold entry_ids in Hnd |- *. simpl omap in Hnd |- *. rw Unmarshal_Marshal in Hnd |- *.
  apply NoDup_cons in Hnd as [Hn Hnd].
  destruct (active_run c st id h (queue_entry id h)) as (c1 & st1 & Hrun1 & Hstep & Hw1 & Hs1 & Hi1 & Hp1 & Hk1 & Hq1); [done..|].
  destruct (IH c1 st1) as (c2 & st2 & Hrun2 & Hsteps & Hw2 & Hs2 & Hi2 & Hp2 & Hk2); [done..| |done|].
  { intros kv Hkv. destruct (Hall kv) as (id' & h' & Hq' & ->); [by right|]. exists id', h'. split; [|done]. rw Hq1; [done|].
    intros ->. apply Hn. apply list_elem_of_omap. exists (queue_entry id h'). split; [done|]. simpl. apply Unmarshal_Marshal. }
  exists c2, st2. split; [cbn [forM]; by rw (M_bind_Ok _ _ _ _ _ _ Hrun1)|]. split; [by econstructor|].
  split_and!; [done..|by eapply same_params_trans|by eapply keeps_trans].
Qed.

Lemma reject_run c st id h kv : ms_holds (ms_store c) st → ms_inv st → ms_queue st !! id = Some h → kv.2 = Marshal LengthPrefixed id →
  runs (EndBlocker_rejected modulePerms kv) c (Ok (reject st id)) ∧ ms_inv (reject st id) ∧ keeps st (reject st id) ∧
  (∀ id', id' ≠ id → ms_queue (reject st id) !! id' = ms_queue st !! id').
Proof.
  intros Hs Hi Hq Ekv. destruct (mi_queue _ _ _ Hi id h Hq) as (call & Hc & Hh & Hopen & Hv).
  destruct (mi_call _ _ _ Hi id call Hc) as [[Hid Hr Hhr _] _]. unfold reject. rw Hc. split.
  - unfold EndBlocker_rejected. apply (runs_bind _ _ _ id); [unfold MustUnmarshal; by rw Ekv Unmarshal_Marshal|].
    apply (runs_bind _ _ _ (Ok call)); [apply attempt_Ok; rw (GetCall_run _ own_perms c st id Hs); [by rw Hc|lia]|]. cbn beta iota zeta.
    destruct (close_runs c st id call (with_Rejected call) h) as (c1 & Hrun & Hs1 & Ha1); [done..|].
    apply M_bind_inv in Hrun as ([] & c0 & Hrun0 & Hrun). eexists. split.
    + rw (M_bind_Ok _ _ _ _ _ _ Hrun0). rw (M_bind_Ok _ _ _ _ _ _ Hrun). reflexivity.
    + split; [done|]. eapply agree_trans; [done|]. done.
  - split; [by eapply closed_inv|]. split; [apply (closed_keeps _ _ h); simpl; by rw Hid|].
    intros id' Hne. simpl. rw Hid. by rw lookup_delete_ne.
Qed.

Lemma reject_loop kvs c st : ms_holds (ms_store c) st → ms_inv st →
  (∀ kv, kv ∈ kvs → ∃ id h, ms_queue st !! id = Some h ∧ kv = queue_entry id h) → NoDup (entry_ids kvs) →
  runs (forM kvs (EndBlocker_rejected modulePerms)) c (Ok (foldl reject st (entry_ids kvs))) ∧
  ms_inv (foldl reject st (entry_ids kvs)) ∧ keeps st (foldl reject st (entry_ids kvs)).
Proof.
  revert c st. induction kvs as [|kv kvs IH]; intros c st Hs Hi Hall Hnd.
  { split; [|done]. exists c. by split. }
  destruct (Hall kv) as (id & h & Hq & ->); [left|]. unfold entry_ids in Hnd |- *. simpl omap in Hnd |- *. rw Unmarshal_Marshal in Hnd |- *.
  apply NoDup_cons in Hnd as [Hn Hnd]. simpl foldl.
  destruct (reject_run c st id h (queue_entry id h)) as ((c1 & Hrun1 & Hs1 & Ha1) & Hi1 & Hk1 & Hq1); [done..|].
  destruct (IH c1 (reject st id)) as ((c2 & Hrun2 & Hs2 & Ha2) & Hi2 & Hk2); [done..| |done|].
  { intros kv Hkv. destruct (Hall kv) as (id' & h' & Hq' & ->); [by right|]. exists id', h'. split; [|done]. rw Hq1; [done|].
    intros ->. apply Hn. apply list_elem_of_omap. exists (queue_entry id h'). split; [done|]. simpl. apply Unmarshal_Marshal. }
  split; [|split; [done|by eapply keeps_trans]]. exists c2. split; [cbn [forM]; by rw (M_bind_Ok _ _ _ _ _ _ Hrun1)|].
  split; [done|by eapply agree_trans].
Qed.

Definition interval_is c (i : Z) : Prop :=
  store_Get (ctx_stores c (params_store DefaultParamspace)) ParamStoreKeyIntervalToExecute = Some (Marshal JSON i).

Lemma GetIntervalToExecute_run c i : interval_is c i → GetIntervalToExecute modulePerms self c = (Ok i, c).
Proof. intros E. unfold GetIntervalToExecute. rw (own_method _ own_perms). by apply param_run. Qed.

Lemma start_height height i : 0 ≤ height < 2 ^ 63 → 0 ≤ i < 2 ^ 63 →
  (if int64 (height - i) <? 0 then 0 else int64 (height - i)) = Z.max 0 (height - i).
Proof. intros Hh Hi. assert (int64 (height - i) = height - i) as -> by (unfold int64; rw Z.mod_small; lia). case_match eqn:E; lia. Qed.

(** The entries of the two iterators. *)
Lemma iterator_entries s st start hi : ms_holds s st → ms_inv st → 0 ≤ hi < 2 ^ 63 → bytes_le QueuePrefix start →
  let kvs := store_Iterator s start (PrefixEndBytes (GetPrefixQueueKey hi)) in
  (∀ kv, kv ∈ kvs → ∃ id h, ms_queue st !! id = Some h ∧ kv = queue_entry id h) ∧ NoDup (entry_ids kvs) ∧
  (∀ id, id ∈ entry_ids kvs ↔ ∃ h, ms_queue st !! id = Some h ∧ h ≤ hi ∧ bytes_le start (GetQueueKey id h)).
Proof.
  intros Hs Hi Hhi Hst kvs. assert (∀ kv, kv ∈ kvs → ∃ id h, ms_queue st !! id = Some h ∧ kv = queue_entry id h) as Hall.
  { intros kv (id & h & Hq & _ & _ & ->)%(queue_iterator s st); [by exists id, h|done..]. }
  split; [done|]. split; [apply (entry_ids_NoDup _ (ms_queue st)); [done|apply iterator_NoDup]|].
  intros id. rw entry_ids_elem; [|intros kv Hkv; destruct (Hall kv Hkv) as (id' & h & _ & ->); by eexists _, _]. split.
  - intros (h & (id' & h' & Hq & Hle & Hb & E)%(queue_iterator s st)); [|done..]. apply pair_eq in E as [Ek Ev].
    assert (Some id = Some id') as [= <-] by (by rw -(Unmarshal_Marshal LengthPrefixed id) -(Unmarshal_Marshal LengthPrefixed id') Ev).
    by exists h'.
  - intros (h & Hq & Hle & Hb). exists h. apply (queue_iterator s st); [done..|]. by exists id, h.
Qed.

Lemma queue_le st id h start : ms_inv st → ms_queue st !! id = Some h → 0 ≤ start < 2 ^ 63 →
  0 ≤ h ∧ (bytes_le (GetPrefixQueueKey start) (GetQueueKey id h) ↔ start ≤ h) ∧ bytes_le QueuePrefix (GetQueueKey id h).
Proof.
  intros Hi Hq Hst. destruct (mi_queue _ _ _ Hi id h Hq) as (call & Hc & <- & _).
  destruct (mi_call _ _ _ Hi id call Hc) as [[_ _ Hh _] _]. split; [lia|]. split.
  - pose proof (GetQueueKey_lt id (call_Height call) start Hh Hst) as Hlt. unfold bytes_le, bytes_lt in *.
    destruct (bytes_ltb _ _); split; intros; try done; [destruct Hlt as [Hlt _]; specialize (Hlt eq_refl); lia|].
    destruct (decide (start ≤ call_Height call)); [done|]. destruct Hlt as [_ Hlt]. by discriminate Hlt; lia.
  - apply bytes_le_lteq. left. rw GetQueueKey_app. pose proof (queue_prefix_lt (call_Height call)) as Hp.
    change (GetPrefixQueueKey (call_Height call)) with (QueuePrefix +:+ (":" +:+ Uint64ToBigEndian (wrap64 (call_Height call)))).
    rw string_app_assoc -{1}(string_app_nil_r QueuePrefix). by apply bytes_lt_app.
Qed.

(** The module's state is well-formed, and so is what it uses. *)
Definition ready c st (i : Z) : Prop :=
  world c ∧ ms_holds (ms_store c) st ∧ ms_inv st ∧ 0 ≤ ctx_height c < 2 ^ 63 ∧ 0 ≤ i < 2 ^ 63 ∧ interval_is c i.

Lemma EndBlocker_run c st i caller : ready c st i →
  let start := Z.max 0 (ctx_height c - i) in
  ∃ ids1 c1 st1 ids2 c',
    EndBlocker error_Error modulePerms router caller c = (Ok tt, c') ∧
    (NoDup ids1 ∧ ∀ id, id ∈ ids1 ↔ ∃ h, ms_queue st !! id = Some h ∧ start ≤ h ≤ ctx_height c) ∧
    block_steps (c, st) ids1 (c1, st1) ∧
    (NoDup ids2 ∧ ∀ id, id ∈ ids2 ↔ i < start ∧ ∃ h, ms_queue st1 !! id = Some h ∧ h ≤ start) ∧
    agree c1 c' ∧ keeps st (foldl reject st1 ids2) ∧ ready c' (foldl reject st1 ids2) i.
Proof.
  intros (Hw & Hs & Hi & Hh & Hir & Hiv) start. assert (0 ≤ start < 2 ^ 63) as Hst by lia.
  destruct (iterator_entries (ms_store c) st (GetPrefixQueueKey start) (ctx_height c) Hs Hi Hh) as (Hall & Hnd & Hids).
  { apply bytes_le_lteq. left. apply queue_prefix_lt. }
  set (kvs := store_Iterator (ms_store c) (GetPrefixQueueKey start) (PrefixEndBytes (GetPrefixQueueKey (ctx_height c)))) in *.
  destruct (active_loop kvs c st Hw Hs Hi Hall Hnd) as (c1 & st1 & Hrun1 & Hsteps & Hw1 & Hs1 & Hi1 & Hp1 & Hk1).
  assert (interval_is c1 i) as Hiv1 by (unfold interval_is; by rw (proj1 Hp1)).
  destruct (iterator_entries (ms_store c1) st1 QueuePrefix start Hs1 Hi1 Hst (bytes_le_refl _)) as (Hall2 & Hnd2 & Hids2).
  set (kvs2 := store_Iterator (ms_store c1) QueuePrefix (PrefixEndBytes (GetPrefixQueueKey start))) in *.
  set (ids2 := if i <? start then entry_ids kvs2 else []).
  assert (∃ c2, (if i <? start then rejectedIterator ← GetQueueIteratorTill modulePerms start; forM rejectedIterator (EndBlocker_rejected modulePerms)
      else mret tt) self c1 = (Ok tt, c2) ∧ ms_holds (ms_store c2) (foldl reject st1 ids2) ∧ agree c1 c2 ∧
      ms_inv (foldl reject st1 ids2) ∧ keeps st1 (foldl reject st1 ids2)) as (c2 & Hrun2 & Hs2 & Ha2 & Hi2 & Hk2).
  { unfold ids2. destruct (i <? start); [|by exists c1].
    destruct (reject_loop kvs2 c1 st1 Hs1 Hi1 Hall2 Hnd2) as ((c2 & Hr & ? & ?) & ? & ?). exists c2. split; [|done].
    rw (M_bind_Ok _ _ _ c1 kvs2 c1); [done|]. unfold GetQueueIteratorTill. by rw (own_method _ own_perms). }
  set (c3 := if negb (length (ctx_events c2) =? length (ctx_events c))%nat
    then (EmitEvent (NewModuleNameEvent ModuleName) self c2).2 else c2).
  assert (agree c2 c3) as Ha3 by (unfold c3; by destruct (negb _)).
  exists (entry_ids kvs), c1, st1, ids2, c3. split; [|split; [|split; [done|split; [|split; [by eapply agree_trans|split]]]]].
  - unfold EndBlocker, in_module. rw (M_bind_Ok Events _ _ c (ctx_events c) c); [|done]. rw (M_bind_Ok BlockHeight _ _ c (ctx_height c) c); [|done].
    rw (M_bind_Ok _ _ _ _ _ _ (GetIntervalToExecute_run c i Hiv)). cbn beta zeta. rw start_height; [|done..]. fold start.
    rw (M_bind_Ok _ _ _ c kvs c); [|unfold GetQueueIteratorStartEnd; by rw (own_method _ own_perms)].
    rw (M_bind_Ok _ _ _ _ _ _ Hrun1). rw (M_bind_Ok _ _ _ _ _ _ (GetIntervalToExecute_run c1 i Hiv1)).
    rw (M_bind_Ok _ _ _ _ _ _ Hrun2). rw (M_bind_Ok Events _ _ c2 (ctx_events c2) c2); [|done]. unfold c3. by destruct (negb _).
  - split; [done|]. intros id. rw Hids. split; intros (h & Hq & Hb); exists h; split; try done;
      destruct (queue_le st id h start Hi Hq Hst) as (_ & Hle & _); tauto.
  - unfold ids2. split; [case_match; [done|constructor]|]. intros id. destruct (Z.ltb_spec i start) as [Hlt|Hge].
    + rw Hids2. split; [intros (h & Hq & Hle & _); split; [done|by exists h]|]. intros (_ & h & Hq & Hle). exists h.
      split; [done|]. split; [done|]. by destruct (queue_le st1 id h start Hi1 Hq Hst) as (_ & _ & ?).
    + split; [by intros ?%elem_of_nil|]. intros [? _]. lia.
  - by eapply keeps_trans.
  - assert (agree c1 c3) as Ha13 by by eapply agree_trans.
    split; [by eapply wo_agree|]. split; [unfold c3; by destruct (negb _)|]. split; [done|].
    destruct (same_params_trans _ _ _ Hp1 (agree_params _ _ Ha13)) as (Hps & Hph & _).
    split; [by rw Hph|]. split; [done|]. unfold interval_is. by rw Hps.
Qed.
End block.
