(* ===== verification/MultisigTheorems.v ===== *)
(** * Calls: what holds over time

    [ms_step] is a step of the chain as the module sees it: one of its messages, its
    end blocker, or anything else that leaves its store alone.  A call that is not
    queued never changes again: decisions are final, and a call that lost its last
    confirmation is never decided at all.  At the end the calls of [x/poa] are put
    through [x/multisig]. *)
From S2P Require Import Prelude Bytes Sdk SdkRef SdkFacts DnTypes Perms Chain Poa PoaTheorems MsModule Multisig MultisigFacts MultisigCalls MultisigBlock.
Local Open Scope string_scope.
Local Open Scope Z_scope.
Local Open Scope list_scope.

Section theorems.
Context `{SdkTypesLaws} `{KVStoreLaws} `{LG : Ledger} `{MS : MsMsgs} `{VS : !ValidatorSet}.
Context `{CI : !Codec Z} `{CC : !Codec multisig.Call} `{CV : !Codec (list AccAddress)}.
Variable error_Error : error → string.
Variable modulePerms : ModulePermissions.
Hypothesis own_perms : mp_name modulePerms = multisig.ModuleName.
Variable router : msRouter.
Variable fine : MsMsg → Prop.
Import multisig.
Context (world : Ctx → Prop) (Hworld : world_ok router fine world).
Implicit Types (s : store) (st : mstate) (c : Ctx) (id h : Z) (call : Call) (a : AccAddress).
Notation ms_store c := (ctx_stores c StoreKey).
Notation self := ModuleName.
Notation ready := (ready router fine world).

(** C15: the end blocker never panics.  It makes one step of [block_step] for every call
    queued in the last [i] blocks, and for no other: it waits, or its message is
    executed with enough confirmations and the changes are committed, or it fails and
    nothing of it remains; then, from twice the interval on, it rejects what is older. *)
Theorem EndBlocker_decides c st i caller : ready c st i →
  let start := Z.max 0 (ctx_height c - i) in
  ∃ ids1 c1 st1 ids2 c',
    EndBlocker error_Error modulePerms router caller c = (Ok tt, c') ∧
    (NoDup ids1 ∧ ∀ id, id ∈ ids1 ↔ ∃ h, ms_queue st !! id = Some h ∧ start ≤ h ≤ ctx_height c) ∧
    block_steps error_Error router (c, st) ids1 (c1, st1) ∧
    (NoDup ids2 ∧ ∀ id, id ∈ ids2 ↔ i < start ∧ ∃ h, ms_queue st1 !! id = Some h ∧ h ≤ start) ∧
    agree c1 c' ∧ ready c' (foldl reject st1 ids2) i.
Proof.
  intros Hr start. destruct (EndBlocker_run error_Error modulePerms own_perms router fine world Hworld c st i caller Hr)
    as (ids1 & c1 & st1 & ids2 & c' & ? & ? & ? & ? & ? & _ & ?).
  by exists ids1, c1, st1, ids2, c'.
Qed.

Inductive ms_step : Ctx → Ctx → Prop :=
  | ms_message c msg caller r c' :
      multisig_spec.msg_ok fine msg → NewHandler modulePerms router msg caller c = (Ok r, c') → ms_step c c'
  | ms_end_block c caller c' : EndBlocker error_Error modulePerms router caller c = (Ok tt, c') → ms_step c c'
  | ms_others c c' i : ms_store c' = ms_store c → world c' → 0 ≤ ctx_height c' < 2 ^ 63 → 0 ≤ i < 2 ^ 63 → interval_is c' i →
      ms_step c c'.

Lemma message_ready c st i msg caller r c' : ready c st i → multisig_spec.msg_ok fine msg →
  NewHandler modulePerms router msg caller c = (Ok r, c') →
  ∃ st' (validator : AccAddress → bool), multisig_spec.step router validator (dry_run router c) (ctx_height c) st msg = Ok st' ∧
    ready c' st' i ∧ keeps st st'.
Proof.
  intros (Hw & Hs & Hi & Hh & Hir & Hiv) Hm Hrun.
  assert (∀ a, ∃ b, vs_HasValidator a self (set_events c []) = (Ok b, set_events c [])) as Hval.
  { intros a. apply (wo_validator _ _ _ Hworld). apply (wo_agree _ _ _ Hworld c); [done|apply agree_events]. }
  set (validator a := match (vs_HasValidator a self (set_events c [])).1 with Ok b => b | _ => false end).
  assert (∀ a, vs_HasValidator a self (set_events c []) = (Ok (validator a), set_events c [])) as Hv.
  { intros a. unfold validator. destruct (Hval a) as [b E]. by rw E. }
  pose proof (NewHandler_handles modulePerms own_perms router fine c st msg validator caller Hs Hi Hh Hm Hv) as Hr. unfold handles in Hr.
  destruct (multisig_spec.step router validator (dry_run router c) (ctx_height c) st msg) as [st'|e|] eqn:E.
  - destruct Hr as (r' & c1 & Hrun' & Hs' & Ha). assert (c1 = c') as -> by congruence. exists st', validator. split; [done|].
    split; [|by eapply step_keeps]. destruct (agree_params _ _ Ha) as (Hps & Hph & _).
    split; [by apply (wo_agree _ _ _ Hworld c)|]. split; [done|]. split; [by apply (step_inv router fine st _ validator (dry_run router c) (ctx_height c) msg)|]. split; [by rw Hph|]. split; [done|].
    unfold interval_is. by rw Hps.
  - congruence.
  - by rw Hrun in Hr.
Qed.

Lemma step_ready c st i c' : ready c st i → ms_step c c' → ∃ st' i', ready c' st' i' ∧ keeps st st'.
Proof.
  intros Hr Hstep. destruct Hstep as [c msg caller r c' Hm Hrun|c caller c' Hrun|c c' i' Hst Hw' Hh' Hi' Hiv'].
  - destruct (message_ready c st i msg caller r c' Hr Hm Hrun) as (st' & validator & _ & ? & ?). by exists st', i.
  - destruct (EndBlocker_run error_Error modulePerms own_perms router fine world Hworld c st i caller Hr)
      as (ids1 & c1 & st1 & ids2 & c2 & Hrun' & _ & _ & _ & _ & Hk & Hr').
    assert (c2 = c') as -> by congruence. by exists (foldl reject st1 ids2), i.
  - exists st, i'. split; [|apply keeps_refl]. destruct Hr as (_ & Hs & Hi & _). split; [done|]. split; [by rw Hst|]. by split; [|split; [|split]].
Qed.

Lemma run_ready c c' : rtc ms_step c c' → ∀ st i, ready c st i → ∃ st' i', ready c' st' i' ∧ keeps st st'.
Proof.
  induction 1 as [c|c1 c2 c3 Hstep _ IH]; intros st i Hr; [by exists st, i|].
  destruct (step_ready c1 st i c2 Hr Hstep) as (st2 & i2 & Hr2 & Hk2). destruct (IH st2 i2 Hr2) as (st3 & i3 & Hr3 & Hk3).
  exists st3, i3. split; [done|by eapply keeps_trans].
Qed.

(** C16: decisions are final: once a call is approved (executed or failed) or rejected,
    no message and no block changes it, and it is never queued again, so that its
    message is executed at most once. *)
Theorem decisions_are_final c c' st i id call :
  ready c st i → rtc ms_step c c' → ms_calls st !! id = Some call → call_Approved call || call_Rejected call = true →
  ∃ st' i', ready c' st' i' ∧ ms_calls st' !! id = Some call ∧ ms_queue st' !! id = None.
Proof.
  intros Hr Hrun Hc Hclosed. destruct (run_ready c c' Hrun st i Hr) as (st' & i' & Hr' & Hk & _). exists st', i'. split; [done|].
  apply Hk; [done|]. apply eq_None_not_Some. intros [h Hq]. destruct Hr as (_ & _ & Hi & _).
  destruct (mi_queue _ _ _ Hi id h Hq) as (call' & Hc' & _ & Hopen & _). assert (call' = call) as -> by congruence.
  unfold is_open, CanBeVoted in Hopen. by destruct (call_Approved call), (call_Rejected call).
Qed.

(** When the last confirmation of an open call is revoked the call leaves the queue
    for good: whatever happens later, new confirmations included, it is neither
    executed nor rejected, and its unique ID stays taken by it. *)
Theorem revoked_call_is_stuck c c1 c' st i id call a caller r :
  ready c st i → ms_calls st !! id = Some call → ms_votes st !! id = Some [a] →
  NewHandler modulePerms router (Msg_RevokeConfirm (MkMsgRevokeConfirm id a)) caller c = (Ok r, c1) →
  rtc ms_step c1 c' →
  ∃ st' i', ready c' st' i' ∧ ms_calls st' !! id = Some call ∧ is_open call ∧ ms_queue st' !! id = None ∧
    ms_unique st' !! call_UniqueID call = Some id.
Proof.
  intros Hr Hc Hv Hrev Hrun. pose proof Hr as (_ & _ & Hi & _). destruct (mi_call _ _ _ Hi id call Hc) as [[Hid Hidr _ _] _].
  destruct (message_ready c st i (Msg_RevokeConfirm (MkMsgRevokeConfirm id a)) caller r c1 Hr) as (st1 & validator & Hstep & Hr1 & _ & Hk1);
    [simpl; lia|done|].
  unfold multisig_spec.step, multisig_spec.revoke in Hstep. simpl in Hstep. rw Hc Hv in Hstep.
  apply outcome_bind_inv in Hstep as ([] & Hopen & Hstep). rw decide_True in Hstep; [|left]. rw decide_True in Hstep; [|done].
  injection Hstep as <-. destruct (run_ready c1 c' Hrun _ i Hr1) as (st' & i' & Hr' & Hk & Hu). exists st', i'. split; [done|].
  destruct (Hk id call) as [Hc' Hq']; [done|by simpl; rw lookup_delete_eq|]. split; [done|]. split; [done|]. split; [done|].
  apply Hu. simpl. apply Hi. by exists call.
Qed.

(** ** Exporting the queue *)
Lemma MustParseQueueKey_colon id h : 0 ≤ h < 2 ^ 63 → lacks ":" (Uint64ToBigEndian h) = false → MustParseQueueKey (GetQueueKey id h) = Panic.
Proof.
  intros Hh Hl. assert (count_byte ":" (Uint64ToBigEndian h) ≠ 0)%nat as Hn by (intros E; apply lacks_count in E; congruence).
  pose proof (length_Split ":" (GetQueueKey id h)) as Hlen.
  change (GetQueueKey id h) with ("queue:" +:+ (Uint64ToBigEndian (wrap64 h) +:+ (":" +:+ ID_String id))) in Hlen.
  rw height_wrap in Hlen; [|done]. rw !count_byte_app in Hlen. change (count_byte ":" "queue:") with 1%nat in Hlen.
  change (count_byte ":" ":") with 1%nat in Hlen. unfold MustParseQueueKey.
  change (GetQueueKey id h) with ("queue:" +:+ (Uint64ToBigEndian (wrap64 h) +:+ (":" +:+ ID_String id))). rw height_wrap; [|done].
  destruct (Split ":" _) as [|? [|? [|? [|? ?]]]]; try done. cbn [length] in Hlen. lia.
Qed.

Lemma MustParseQueueKey_not_Err k e : MustParseQueueKey k ≠ Err e.
Proof.
  unfold MustParseQueueKey. destruct (Split ":" k) as [|? [|v1 [|? [|? ?]]]]; try done. unfold panic_if. case_bool_decide; [|done].
  simpl. unfold BigEndian_Uint64. destruct (_ : bool) at 1; [done|]. simpl. by case_match.
Qed.

(** A loop of reads that panics or succeeds panics when one of its steps does. *)
Lemma mapM_panics {A B} (f : A → M B) l x caller c : (∀ y, (f y caller c).2 = c) → (∀ y e, (f y caller c).1 ≠ Err e) →
  x ∈ l → (f x caller c).1 = Panic → (mapM_ f l caller c).1 = Panic.
Proof.
  intros Hr He Hx Hp. induction l as [|y l IH]; [by apply elem_of_nil in Hx|]. cbn [mapM_].
  unfold mbind, M_bind. specialize (Hr y). destruct (f y caller c) as [o c1] eqn:Ey. simpl in Hr. subst c1.
  destruct o as [b|e|]; [|by destruct (He y e); rw Ey|done].
  apply elem_of_cons in Hx as [->|Hx]; [by rw Ey in Hp|]. specialize (IH Hx). destruct (mapM_ f l caller c) as [[] ?]; done.
Qed.

Lemma mapM_not_Err {A B} (f : A → M B) l caller c : (∀ y, (f y caller c).2 = c) → (∀ y e, (f y caller c).1 ≠ Err e) →
  ∀ e, (mapM_ f l caller c).1 ≠ Err e.
Proof.
  intros Hr He. induction l as [|y l IH]; intros e; [done|]. cbn [mapM_]. unfold mbind, M_bind. specialize (Hr y). specialize (He y).
  destruct (f y caller c) as [o c1]. simpl in Hr, He. subst c1. destruct o as [b|e'|]; [|by destruct (He e')|done].
  destruct (mapM_ f l caller c) as [[]?]; simpl in *; [done|by intros _; eapply IH|done].
Qed.

Lemma bind_panics {A B} (m : M A) (f : A → M B) caller c : reads m → (∀ e, (m caller c).1 ≠ Err e) →
  (∀ x, (f x caller c).1 = Panic) → ((m ≫= f) caller c).1 = Panic.
Proof.
  intros Hr He Hf. specialize (Hr caller c). unfold mbind, M_bind. destruct (m caller c) as [[x|e|] c1]; simpl in *; subst; [done|by destruct (He e)|done].
Qed.

Lemma attempt_not_Err {A} (m : M A) caller c e : (attempt m caller c).1 ≠ Err e.
Proof. unfold attempt. by destruct (m caller c) as [[] ?]. Qed.

Lemma GetVotes__reads id : reads (GetVotes_ modulePerms id).
Proof.
  apply reads_bind; [|intros ?; apply reads_ret]. apply reads_attempt, reads_keeper_method. apply reads_bind; [apply reads_keeper_method, reads_kv_Has|].
  intros []; simpl; [|apply reads_throw]. apply reads_bind; [apply reads_kv_Has|]. intros []; simpl; [|apply reads_ret].
  apply reads_bind; [apply reads_kv_Get|]. intros ?. apply reads_MustUnmarshal.
Qed.

(** The queue's keys hold the height as eight raw bytes between colons and are
    parsed by splitting at colons, so that while a call is queued at a height one of
    whose bytes is 0x3A, as 58, exporting the state panics. *)
Theorem ExportGenesis_panics_at_colon c st i id h : ready c st i → ms_queue st !! id = Some h → h ≤ ctx_height c →
  lacks ":" (Uint64ToBigEndian h) = false → (ExportGenesis modulePerms self c).1 = Panic.
Proof.
  intros (Hw & Hs & Hi & Hh & Hir & Hiv) Hq Hle Hl.
  assert (0 ≤ h < 2 ^ 63) as Hhr by (destruct (queue_le router fine st id h 0 Hi Hq) as [? _]; lia).
  unfold ExportGenesis. rw (own_method _ own_perms). rw (M_bind_Ok _ _ _ _ _ _ (GetIntervalToExecute_run _ own_perms c i Hiv)).
  apply bind_panics.
  { unfold getLastCallID. apply reads_bind; [apply reads_kv_Has|]. intros []; simpl; [|apply reads_ret].
    apply reads_bind; [apply reads_kv_Get|]. intros ?. apply reads_bind; [apply reads_MustUnmarshal|intros ?; apply reads_ret]. }
  { intros e. unfold getLastCallID, kv_Has, mbind, M_bind, MustUnmarshal. simpl.
    destruct (store_Has _ _); [|done]. simpl. by destruct (Unmarshal _ _ : option Z). }
  intros lastCallID. apply bind_panics.
  { apply reads_bind; [apply reads_kv_PrefixIterator|]. intros kvs. apply reads_mapM. intros kv. apply reads_MustUnmarshal. }
  { intros e. unfold getCalls. apply mapM_not_Err; intros *; unfold MustUnmarshal; by case_match. }
  intros calls. apply bind_panics.
  { apply reads_mapM. intros call. apply reads_bind; [apply GetVotes__reads|intros ?; apply reads_ret]. }
  { intros e. apply mapM_not_Err.
    - intros call. apply (reads_bind (GetVotes_ modulePerms (call_ID call))); [apply GetVotes__reads|intros ?; apply reads_ret].
    - intros call e'. unfold GetVotes_, mbind, M_bind. pose proof (attempt_not_Err (GetVotes modulePerms (call_ID call)) self c) as Ha.
      destruct (attempt _ self c) as [[x|e0|] c1]; [done|by destruct (Ha e0)|done]. }
  intros callItems. rw (M_bind_Ok BlockHeight _ _ c (ctx_height c) c); [|done].
  set (kvs := store_Iterator (ms_store c) QueuePrefix (PrefixEndBytes (GetPrefixQueueKey (ctx_height c)))).
  rw (M_bind_Ok _ _ _ c kvs c); [|unfold GetQueueIteratorTill; by rw (own_method _ own_perms)].
  enough ((mapM_ (λ kv, item ← lift (MustParseQueueKey kv.1); mret (MkGenesisQueueItem item.1 item.2)) kvs self c).1 = Panic) as Hp.
  { unfold mbind, M_bind. unfold mbind, M_bind in Hp. by destruct (mapM_ _ kvs self c) as [[] ?]. }
  apply (mapM_panics _ _ (queue_entry id h)).
  - intros kv. apply (reads_bind (lift (MustParseQueueKey kv.1))); [apply reads_lift|intros ?; apply reads_ret].
  - intros kv e. unfold mbind, M_bind, lift. pose proof (MustParseQueueKey_not_Err kv.1) as Hne.
    destruct (MustParseQueueKey kv.1) as [x|e'|]; [done|by destruct (Hne e')|done].
  - apply (queue_iterator router fine (ms_store c) st); [done..|apply bytes_le_refl|]. exists id, h. split; [done|]. split; [done|]. split; [|done].
    by destruct (queue_le router fine st id h 0 Hi Hq) as (_ & _ & ?).
  - unfold mbind, M_bind, lift. simpl. by rw MustParseQueueKey_colon.
Qed.
End theorems.

(** ** Validators decide on validators: [x/multisig] over [x/poa]

    The validator list is what [x/multisig] asks for confirmations, and its messages
    are multi signature messages: the instances of the two interfaces, and the proof
    that they keep what the module relies on. *)
Local Open Scope string_scope.
Local Open Scope Z_scope.

Module poa_calls.
Import poa.

(** The messages' [Route], [Type] and [ValidateBasic]; [MsMsg_other] is a message of
    the route that the handler does not know. *)
Definition Route (msg : poa.MsMsg) : string := ModuleName.
Definition Type_ (msg : poa.MsMsg) : string :=
  match msg with
  | MsMsg_AddValidator _ => "add_validator"
  | MsMsg_RemoveValidator _ => "remove_validator"
  | MsMsg_ReplaceValidator _ => "replace_validator"
  | MsMsg_other => "other"
  end.
Definition ValidateBasic (msg : poa.MsMsg) : outcome unit :=
  match msg with
  | MsMsg_AddValidator m => MsgAddValidator_ValidateBasic m
  | MsMsg_RemoveValidator m => MsgRemoveValidator_ValidateBasic m
  | MsMsg_ReplaceValidator m => MsgReplaceValidator_ValidateBasic m
  | MsMsg_other => Ok tt
  end.
End poa_calls.

#[export] Instance poa_messages : MsMsgs := {|
  MsMsg := poa.MsMsg;
  MsMsg_Route := poa_calls.Route;
  MsMsg_Type := poa_calls.Type_;
  MsMsg_ValidateBasic := poa_calls.ValidateBasic;
|}.

Section composition.
Context `{SdkTypesLaws} `{KVStoreLaws} `{LG : Ledger}.
Context `{CI : !Codec Z} `{CV : !Codec Validator} `{CL : !Codec (list Validator)}.
Variable poa_perms : ModulePermissions.
Hypothesis poa_name : mp_name poa_perms = poa.ModuleName.
Hypothesis granted : Check poa_perms multisig.ModuleName poa.PermRead = Ok tt.

Definition poa_validators : ValidatorSet := {|
  vs_HasValidator := poa.HasValidator poa_perms;
  vs_GetEnoughConfirmations := poa.GetEnoughConfirmations poa_perms;
|}.

Lemma poa_validators_laws : ValidatorSetLaws (VS := poa_validators).
Proof.
  assert (reads (poa.GetValidatorAmount poa_perms)) as Ha.
  { apply reads_keeper_method, reads_bind; [apply reads_kv_Has|]. intros []; simpl; [|apply reads_ret].
    apply reads_bind; [apply reads_kv_Get|]. intros ?. apply reads_MustUnmarshal. }
  split.
  - intros a. apply reads_keeper_method, reads_kv_Has.
  - apply reads_keeper_method, reads_bind; [done|]. intros ?. apply reads_ret.
Qed.

(** One route: the handler of [x/poa]. *)
Definition poa_router : msRouter := MkMsRouter {[ poa.ModuleName := poa.NewMsHandler poa_perms ]} true.

(** The rest of the state: some validators, within some parameters. *)
Definition poa_world (c : Ctx) : Prop := ∃ vs p, poa_holds (ctx_stores c poa.StoreKey) vs ∧ params_at c p.

Lemma poa_world_agree c c' : poa_world c → agree c c' → poa_world c'.
Proof.
  intros (vs & p & Hh & Hp) [(Hs & _) _]. exists vs, p.
  assert (∀ k, k ∈ [poa.StoreKey; params_store poa.DefaultParamspace] → ctx_stores c' k = ctx_stores c k) as Hk.
  { intros k Hk. apply Hs. intros ->%list_elem_of_singleton. apply elem_of_cons in Hk as [Hk|Hk]; [discriminate Hk|].
    apply elem_of_cons in Hk as [Hk|Hk%elem_of_nil]; [discriminate Hk|done]. }
  split; [rw Hk; [done|left]|]. unfold params_at. rw Hk; [done|]. right. left.
Qed.

(** The validators' quorum is a majority of them. *)
Lemma poa_quorum c vs : poa_holds (ctx_stores c poa.StoreKey) vs →
  poa.GetEnoughConfirmations poa_perms multisig.ModuleName c = (Ok (uint16 (Z.of_nat (length vs) / 2 + 1)), c).
Proof.
  intros Hh. unfold poa.GetEnoughConfirmations. rw keeper_method_granted; [|done].
  by rw (M_bind_Ok _ _ _ _ _ _ (GetValidatorAmount_run poa_perms c _ (ph_count _ _ Hh))).
Qed.

Lemma poa_world_ok : world_ok (VS := poa_validators) poa_router poa_spec.well_addressed poa_world.
Proof.
  split.
  - intros c a (vs & p & Hh & _). simpl. unfold poa.HasValidator. rw keeper_method_granted; [|done]. by eexists.
  - apply poa_world_agree.
  - intros c (vs & p & Hh & _). eexists. simpl. by apply poa_quorum.
  - intros c msg handler o cx (vs & p & Hh & Hp) Hfine Hroute Hrun.
    assert (handler = poa.NewMsHandler poa_perms) as ->.
    { unfold GetRoute in Hroute. simpl in Hroute. unfold poa_calls.Route in Hroute. rw lookup_singleton_eq in Hroute. by injection Hroute as <-. }
    pose proof (NewMsHandler_step poa_perms poa_name c vs p msg multisig.ModuleName Hh Hp Hfine) as Hs.
    assert (∀ k, k ∈ [multisig.StoreKey; params_store multisig.DefaultParamspace] → k ∉ [poa.StoreKey]) as Hk.
    { intros k Hk ->%list_elem_of_singleton. apply elem_of_cons in Hk as [Hk|Hk]; [discriminate Hk|].
      apply elem_of_cons in Hk as [Hk|Hk%elem_of_nil]; [discriminate Hk|done]. }
    destruct (poa_spec.step p vs msg) as [vs'|e|]; [..|done].
    + destruct Hs as (c' & Hrun' & Hh' & Hp' & (Hs & Hht & Htm)). assert (o = Ok tt ∧ cx = c') as [-> ->] by (split; congruence).
      split; [done|]. split; [intros k Hin; by apply Hs, Hk|]. split; [done|]. split; [done|]. intros _. by exists vs', p.
    + destruct Hs as (c' & Hrun' & _ & (Hs & Hht & Htm)). assert (o = Err e ∧ cx = c') as [-> ->] by (split; congruence).
      split; [done|]. split; [intros k Hin; by apply Hs, Hk|]. done.
Qed.
End composition.
