(* ===== verification/MultisigWitnesses.v ===== *)
(** * Validators and calls: the theorems on a concrete chain *)
From S2P Require Import Prelude Bytes Sdk SdkRef SdkFacts DnTypes Perms Chain Scenario Poa PoaTheorems MsModule Multisig MultisigFacts MultisigCalls MultisigBlock MultisigTheorems.
Local Open Scope string_scope.
Local Open Scope Z_scope.

#[export] Instance validator_countable : Countable Validator.
Proof.
  refine (inj_countable' (λ v, (v_Address v, v_EthAddress v)) (λ x, MkValidator x.1 x.2) _). abstract (by intros []).
Defined.
#[export] Instance codec_Validator : Codec Validator := codec_of_countable Validator.
#[export] Instance codec_Validators : Codec (list Validator) := codec_of_countable (list Validator).

Definition poa_perms : ModulePermissions := poa.NewModulePerms.

(** ** Two validators, and a third to come *)
Definition eth_address (d : string) : string := "0x29D7d1dd5B6f9C864d9db560D72a247c178aE86" +:+ d.
Definition val1 : Validator := MkValidator "validator-address-01" (eth_address "A").
Definition val2 : Validator := MkValidator "validator-address-02" (eth_address "B").
Definition val3 : Validator := MkValidator "validator-address-03" (eth_address "C").

Definition put_validator (vs : list Validator) (v : Validator) (s : store (KVStore := KVStore_ref)) : store :=
  store_Set (store_Set (store_Set s (v_Address v) (Marshal Bare v)) poa.ValidatorsListKey (Marshal Bare (vs ++ [v])%list))
    poa.ValidatorsCountKey (Marshal LengthPrefixed (Z.of_nat (length vs) + 1)).
Definition two_validators : store (KVStore := KVStore_ref) := put_validator [val1] val2 (put_validator [] val1 empty_store).

Definition three_max : poa.Params := poa.MkParams 3 1.
Definition three_max_store : store (KVStore := KVStore_ref) :=
  store_Set (store_Set empty_store poa.ParamStoreKeyMaxValidators (Marshal JSON 3)) poa.ParamStoreKeyMinValidators (Marshal JSON 1).

(** The chain with the two validators. *)
Definition with_validators : Ctx :=
  set_store (set_store start (params_store poa.DefaultParamspace) three_max_store) poa.StoreKey two_validators.

Lemma two_validators_hold : poa_holds two_validators [val1; val2].
Proof.
  apply (holds_add _ [val1] val2); [apply (holds_add _ [] val1)|..]; try done.
  - by apply empty_holds.
  - intros ?%elem_of_nil. done.
  - intros ?%list_elem_of_singleton. done.
Qed.
Lemma with_validators_hold : poa_holds (ctx_stores with_validators poa.StoreKey) [val1; val2].
Proof. exact two_validators_hold. Qed.

Lemma with_validators_params : params_at with_validators three_max.
Proof.
  unfold params_at. change (ctx_stores with_validators (params_store poa.DefaultParamspace)) with three_max_store.
  split; [|split; [|done]]; unfold three_max_store; [rw store_Get_Set_ne; [|done]|]; by rw store_Get_Set_eq.
Qed.

Definition add_val3 : poa.MsMsg :=
  poa.MsMsg_AddValidator (poa.MkMsgAddValidator (v_Address val3) (v_EthAddress val3) alice).

Lemma step_add_val3 : poa_spec.step three_max [val1; val2] add_val3 = Ok [val1; val2; val3].
Proof. vm_compute. reflexivity. Qed.

(** A third validator is added. *)
Lemma NewMsHandler_refines_witness :
  ∃ c', poa.NewMsHandler poa_perms add_val3 "multisig" with_validators = (Ok tt, c') ∧
    poa_holds (ctx_stores c' poa.StoreKey) [val1; val2; val3].
Proof.
  pose proof (NewMsHandler_refines poa_perms eq_refl with_validators [val1; val2] three_max add_val3 "multisig"
    with_validators_hold with_validators_params eq_refl) as Hr.
  rewrite step_add_val3 in Hr. destruct Hr as (c' & Hrun & Hh & _). exists c'. split; [exact Hrun|exact Hh].
Defined.

(** Three is the maximum: the limits still hold. *)
Lemma NewMsHandler_keeps_limits_witness :
  ∃ c' vs', poa.NewMsHandler poa_perms add_val3 "multisig" with_validators = (Ok tt, c') ∧ within_limits three_max vs' ∧
    poa.GetValidatorAmount poa_perms "poa" c' = (Ok (Z.of_nat (length vs')), c').
Proof.
  pose proof (NewMsHandler_step poa_perms eq_refl with_validators [val1; val2] three_max add_val3 "multisig"
    with_validators_hold with_validators_params eq_refl) as Hr.
  rewrite step_add_val3 in Hr. destruct Hr as (c' & Hrun & _). exists c'.
  destruct (NewMsHandler_keeps_limits poa_perms eq_refl with_validators [val1; val2] three_max add_val3 "multisig" tt c'
    with_validators_hold with_validators_params) as (vs' & _ & _ & Hl & Hc).
  - split; discriminate.
  - reflexivity.
  - exact Hrun.
  - exists vs'. split; [exact Hrun|]. split; [exact Hl|exact Hc].
Defined.

(** Of two validators, both must confirm. *)
Lemma GetEnoughConfirmations_majority_witness :
  ∃ q, poa.GetEnoughConfirmations poa_perms "poa" with_validators = (Ok q, with_validators) ∧ 2 < 2 * q ≤ 4.
Proof.
  destruct (GetEnoughConfirmations_majority poa_perms with_validators [val1; val2] with_validators_hold) as (q & Hrun & Hlo & Hhi & _).
  exists q. split; [exact Hrun|]. simpl in Hlo. specialize (Hhi ltac:(discriminate)). simpl in Hhi. lia.
Defined.

Lemma poa_genesis_roundtrip_witness :
  ∃ c1, poa.InitGenesis poa_perms (poa.MkGenesisState three_max [val1; val2]) "poa" start = (Ok tt, c1) ∧
    poa.ExportGenesis poa_perms "poa" c1 = (Ok (poa.MkGenesisState three_max [val1; val2]), c1).
Proof.
  destruct (poa_genesis_roundtrip poa_perms with_validators start [val1; val2] three_max tt) as (c1 & _ & Hinit & _ & _ & Hexp).
  - exact with_validators_hold.
  - exact with_validators_params.
  - vm_compute. reflexivity.
  - intros k. reflexivity.
  - exists c1. split; [exact Hinit|exact Hexp].
Defined.

(** ** Calls: the theorems on a concrete chain

    Two validators; the first submits the addition of a third at height 58. *)
Local Open Scope string_scope.
Local Open Scope Z_scope.
Import multisig.

(** ** Codecs *)
#[export] Instance add_eq_dec : EqDecision poa.MsgAddValidator.
Proof. solve_decision. Defined.
#[export] Instance remove_eq_dec : EqDecision poa.MsgRemoveValidator.
Proof. solve_decision. Defined.
#[export] Instance replace_eq_dec : EqDecision poa.MsgReplaceValidator.
Proof. solve_decision. Defined.
#[export] Instance poa_msg_eq_dec : EqDecision poa.MsMsg.
Proof. solve_decision. Defined.
#[export] Instance poa_msg_countable : Countable poa.MsMsg.
Proof.
  refine (inj_countable
    (λ m, match m with
     | poa.MsMsg_AddValidator m => (1%N, (poa.mav_Address m, poa.mav_EthAddress m, poa.mav_Sender m, ""))
     | poa.MsMsg_RemoveValidator m => (2%N, (poa.mrv_Address m, poa.mrv_Sender m, "", ""))
     | poa.MsMsg_ReplaceValidator m => (3%N, (poa.mpv_OldValidator m, poa.mpv_NewValidator m, poa.mpv_EthAddress m, poa.mpv_Sender m))
     | poa.MsMsg_other => (4%N, ("", "", "", ""))
     end)
    (λ x, match x with
     | (1%N, (a, b, c, _)) => Some (poa.MsMsg_AddValidator (poa.MkMsgAddValidator a b c))
     | (2%N, (a, b, _, _)) => Some (poa.MsMsg_RemoveValidator (poa.MkMsgRemoveValidator a b))
     | (3%N, (a, b, c, d)) => Some (poa.MsMsg_ReplaceValidator (poa.MkMsgReplaceValidator a b c d))
     | (4%N, _) => Some poa.MsMsg_other
     | _ => None
     end) _).
  abstract (by intros [[]|[]|[]|]).
Defined.
#[export] Instance call_eq_dec : EqDecision Call.
Proof. intros [] []. solve_decision. Defined.
#[export] Instance call_countable : Countable Call.
Proof.
  refine (inj_countable'
    (λ c : Call, ((call_ID c, call_UniqueID c, call_Creator c), (call_Approved c, call_Executed c, call_Failed c, call_Rejected c),
            (call_Error c, call_Msg c : option poa.MsMsg, call_MsgRoute c, call_MsgType c, call_Height c)))
    (λ x, let '((i, u, cr), (a, e, f, r), (er, m, mr, mt, h)) := x in MkCall i u cr a e f r er m mr mt h) _).
  abstract (by intros []).
Defined.
#[export] Instance codec_Call : Codec Call := codec_of_countable Call.
#[export] Instance codec_Votes : Codec (list string) := codec_of_countable (list string).

(** ** The chain *)
Definition poa_granted_perms : ModulePermissions :=
  match poa.NewKeeper [multisig.RequestPoaPerms] with Ok p => p | _ => poa.NewModulePerms end.
Definition multisig_perms : ModulePermissions := multisig.NewModulePerms.

Lemma poa_granted_name : mp_name poa_granted_perms = poa.ModuleName.
Proof. vm_compute. reflexivity. Qed.
Lemma poa_granted : Check poa_granted_perms multisig.ModuleName poa.PermRead = Ok tt.
Proof. vm_compute. reflexivity. Qed.

#[export] Instance the_validators : ValidatorSet := poa_validators poa_granted_perms.
Definition the_router : msRouter := poa_router poa_granted_perms.

(** No text is kept of an error here. *)
Definition no_text (e : error) : string := "failed".

Definition interval_store : store (KVStore := KVStore_ref) :=
  store_Set empty_store ParamStoreKeyIntervalToExecute (Marshal JSON 100).

(** [with_validators] at height 58, calls live for 100 blocks. *)
Definition ms_start : Ctx :=
  let c := set_store with_validators (params_store multisig.DefaultParamspace) interval_store in
  MkCtx (ctx_stores c) (ctx_bank c) (ctx_events c) 58 (ctx_time c).

Notation ms_ready c st i := (ready the_router poa_spec.well_addressed poa_world c st i) (only parsing).

Lemma ms_start_poa : ctx_stores ms_start poa.StoreKey = two_validators.
Proof. reflexivity. Qed.
Lemma ms_start_params : params_at ms_start three_max.
Proof. exact with_validators_params. Qed.

Lemma ms_start_ready : ms_ready ms_start empty_mstate 100.
Proof.
  split; [exists [val1; val2], three_max; split; [rewrite ms_start_poa; exact two_validators_hold|exact ms_start_params]|].
  split; [apply empty_ms_holds; by intros k|]. split; [apply empty_ms_inv|]. split; [split; [discriminate|reflexivity]|].
  split; [split; [discriminate|reflexivity]|]. unfold interval_is.
  change (ctx_stores ms_start (params_store multisig.DefaultParamspace)) with interval_store. apply store_Get_Set_eq.
Qed.

(** The first validator submits [add_val3]. *)
Definition submit_add_val3 : Msg := Msg_SubmitCall (MkMsgSubmitCall (Some add_val3) "add-3" (v_Address val1)).
Definition call0 (h : Z) : Call := MkCall 0 "add-3" (v_Address val1) false false false false "" (Some add_val3) "poa" "add_validator" h.

Definition is_validator (a : string) : bool := store_Has two_validators a.
Lemma is_validator_run a : vs_HasValidator a multisig.ModuleName (set_events ms_start []) = (Ok (is_validator a), set_events ms_start []).
Proof.
  unfold vs_HasValidator, the_validators, poa_validators, poa.HasValidator. rw keeper_method_granted; [|exact poa_granted]. reflexivity.
Qed.

Lemma dry_add_val3 : dry_run the_router ms_start add_val3 = Ok tt.
Proof.
  unfold dry_run, the_router, poa_router, GetRoute. simpl rtr_routes. rw lookup_singleton_eq.
  pose proof (NewMsHandler_step poa_granted_perms poa_granted_name (set_events ms_start []) [val1; val2] three_max add_val3 multisig.ModuleName
    two_validators_hold ms_start_params eq_refl) as Hr.
  rewrite step_add_val3 in Hr. destruct Hr as (c' & Hrun & _). by rw Hrun.
Qed.

Definition submitted : mstate := multisig_spec.created empty_mstate (call0 58) (v_Address val1).

Lemma submit_step :
  multisig_spec.step the_router is_validator (dry_run the_router ms_start) 58 empty_mstate submit_add_val3 = Ok submitted.
Proof.
  unfold multisig_spec.step, submit_add_val3. assert (is_validator (msc_Creator (MkMsgSubmitCall (Some add_val3) "add-3" (v_Address val1))) = true) as ->.
  { vm_compute. reflexivity. }
  unfold multisig_spec.submit. simpl ms_unique. rw lookup_empty. cbn [negb fail_if]. rw !outcome_bind_ok.
  simpl msc_Msg. cbn iota.
  assert (HasRoute the_router (MsMsg_Route (add_val3 : MsMsg)) = true) as ->. { vm_compute. reflexivity. }
  cbn [negb fail_if]. rw outcome_bind_ok. rewrite dry_add_val3. rw outcome_bind_ok. reflexivity.
Qed.

Lemma submit_ok : multisig_spec.msg_ok poa_spec.well_addressed submit_add_val3.
Proof. intros x [= <-]. reflexivity. Qed.

Lemma NewHandler_refines_calls_witness :
  ∃ r c', NewHandler multisig_perms the_router submit_add_val3 "app" ms_start = (Ok r, c') ∧
    ms_holds (ctx_stores c' multisig.StoreKey) submitted.
Proof.
  pose proof ms_start_ready as (Hw & Hs & Hi & Hh & _).
  pose proof (NewHandler_refines_calls multisig_perms eq_refl the_router poa_spec.well_addressed ms_start empty_mstate submit_add_val3
    is_validator "app" Hs Hi Hh submit_ok is_validator_run) as Hr.
  change (ctx_height ms_start) with 58 in Hr. rewrite submit_step in Hr. destruct Hr as (r & c' & Hrun & Hs' & _).
  exists r, c'. split; [exact Hrun|exact Hs'].
Defined.

(** The chain after the submission. *)
Lemma submitted_exists : ∃ r c', NewHandler multisig_perms the_router submit_add_val3 "app" ms_start = (Ok r, c') ∧
  ctx_height c' = 58 ∧ ms_ready c' submitted 100.
Proof.
  pose proof ms_start_ready as (Hw & Hs & Hi & Hh & Hir & Hiv).
  pose proof (NewHandler_handles multisig_perms eq_refl the_router poa_spec.well_addressed ms_start empty_mstate submit_add_val3
    is_validator "app" Hs Hi Hh submit_ok is_validator_run) as Hr.
  change (ctx_height ms_start) with 58 in Hr. unfold handles in Hr. rewrite submit_step in Hr. destruct Hr as (r & c' & Hrun & Hs' & Ha).
  exists r, c'. split; [exact Hrun|]. destruct (agree_params _ _ Ha) as (Hps & Hph & _). split; [exact Hph|].
  split; [eapply poa_world_agree; [exact Hw|exact Ha]|]. split; [exact Hs'|].
  split; [eapply step_inv; [exact Hi|exact Hh|exact submit_ok|exact submit_step]|]. split; [rewrite Hph; exact Hh|]. split; [exact Hir|].
  unfold interval_is. rewrite Hps. exact Hiv.
Qed.

Lemma the_world : world_ok the_router poa_spec.well_addressed poa_world.
Proof. exact (poa_world_ok poa_granted_perms poa_granted_name poa_granted). Qed.

(** One of two votes is not enough: the end of block 58 decides nothing. *)
Lemma EndBlocker_decides_witness :
  ∃ c c' ids1 c1 st1, ms_ready c submitted 100 ∧ EndBlocker no_text multisig_perms the_router "app" c = (Ok tt, c') ∧
    block_steps no_text the_router (c, submitted) ids1 (c1, st1) ∧ 0 ∈ ids1.
Proof.
  destruct submitted_exists as (r & c & _ & Hh & Hr).
  destruct (EndBlocker_decides no_text multisig_perms eq_refl the_router poa_spec.well_addressed poa_world the_world c submitted 100 "app" Hr)
    as (ids1 & c1 & st1 & ids2 & c' & Hrun & [_ Hids] & Hsteps & _).
  exists c, c', ids1, c1, st1. split; [exact Hr|]. split; [exact Hrun|]. split; [exact Hsteps|].
  apply Hids. exists 58. rewrite Hh. split; [reflexivity|]. lia.
Defined.

(** The call after it was rejected. *)
Lemma rejected_exists : ∃ c, ms_ready c (reject submitted 0) 100.
Proof.
  destruct submitted_exists as (r & c & _ & _ & (Hw & Hs & Hi & Hh & Hir & Hiv)).
  destruct (reject_run multisig_perms eq_refl the_router poa_spec.well_addressed c submitted 0 58
    ("", _) Hs Hi eq_refl eq_refl) as ((c' & _ & Hs' & Ha) & Hi' & _).
  exists c'. destruct (agree_params _ _ Ha) as (Hps & Hph & _).
  split; [eapply poa_world_agree; [exact Hw|exact Ha]|]. split; [exact Hs'|]. split; [exact Hi'|]. split; [rewrite Hph; exact Hh|].
  split; [exact Hir|]. unfold interval_is. rewrite Hps. exact Hiv.
Qed.

Lemma decisions_are_final_witness :
  ∃ c st', ms_ready c (reject submitted 0) 100 ∧ ms_calls st' !! 0 = Some (with_Rejected (call0 58)) ∧ ms_queue st' !! 0 = None.
Proof.
  destruct rejected_exists as (c & Hr).
  destruct (decisions_are_final no_text multisig_perms eq_refl the_router poa_spec.well_addressed poa_world the_world
    c c (reject submitted 0) 100 0 (with_Rejected (call0 58)) Hr (rtc_refl _ _) eq_refl eq_refl) as (st' & i' & _ & Hc & Hq).
  exists c, st'. split; [exact Hr|]. split; [exact Hc|exact Hq].
Defined.

(** The creator takes its vote back. *)
Lemma revoked_exists : ∃ r c c1, ms_ready c submitted 100 ∧
  NewHandler multisig_perms the_router (Msg_RevokeConfirm (MkMsgRevokeConfirm 0 (v_Address val1))) "app" c = (Ok r, c1).
Proof.
  destruct submitted_exists as (r0 & c & _ & _ & Hr). pose proof Hr as (Hw & Hs & Hi & Hh & _).
  assert (∀ a, vs_HasValidator a multisig.ModuleName (set_events c []) =
    (Ok (store_Has (ctx_stores c poa.StoreKey) a), set_events c [])) as Hv.
  { intros a. unfold vs_HasValidator, the_validators, poa_validators, poa.HasValidator. rw keeper_method_granted; [|exact poa_granted]. reflexivity. }
  pose proof (NewHandler_handles multisig_perms eq_refl the_router poa_spec.well_addressed c submitted
    (Msg_RevokeConfirm (MkMsgRevokeConfirm 0 (v_Address val1))) _ "app" Hs Hi Hh (Z.le_refl 0) Hv) as Hh'.
  unfold handles, multisig_spec.step in Hh'.
  assert (∃ st, multisig_spec.revoke submitted 0 (v_Address val1) = Ok st) as [st E].
  { assert (match multisig_spec.revoke submitted 0 (v_Address val1) with Ok _ => true | _ => false end = true) as Hok by (vm_compute; reflexivity).
    destruct (multisig_spec.revoke submitted 0 (v_Address val1)) as [st| |]; [by exists st|discriminate Hok..]. }
  change (mrc_CallID (MkMsgRevokeConfirm 0 (v_Address val1))) with 0 in Hh'.
  change (mrc_Sender (MkMsgRevokeConfirm 0 (v_Address val1))) with (v_Address val1) in Hh'.
  rewrite E in Hh'. destruct Hh' as (r & c1 & Hrun & _). exists r, c, c1. split; [exact Hr|exact Hrun].
Qed.

Lemma revoked_call_is_stuck_witness :
  ∃ c st' i', ms_ready c st' i' ∧ ms_calls st' !! 0 = Some (call0 58) ∧ ms_queue st' !! 0 = None ∧ ms_unique st' !! "add-3" = Some 0.
Proof.
  destruct revoked_exists as (r & c & c1 & Hr & Hrun).
  destruct (revoked_call_is_stuck no_text multisig_perms eq_refl the_router poa_spec.well_addressed poa_world the_world
    c c1 c1 submitted 100 0 (call0 58) (v_Address val1) "app" r Hr eq_refl eq_refl Hrun (rtc_refl _ _)) as (st' & i' & Hr' & Hc & _ & Hq & Hu).
  exists c1, st', i'. split; [exact Hr'|]. split; [exact Hc|]. split; [exact Hq|exact Hu].
Defined.

(** Height 58 is the byte 0x3A. *)
Lemma ExportGenesis_panics_witness :
  ∃ c, ms_ready c submitted 100 ∧ (ExportGenesis multisig_perms multisig.ModuleName c).1 = Panic.
Proof.
  destruct submitted_exists as (r & c & _ & Hh & Hr). exists c. split; [exact Hr|].
  apply (ExportGenesis_panics_at_colon multisig_perms eq_refl the_router poa_spec.well_addressed poa_world c submitted 100 0 58 Hr).
  - reflexivity.
  - rewrite Hh. discriminate.
  - vm_compute. reflexivity.
Defined.

(** Two modules with multi signature handlers, ranged over in both orders. *)
Definition poa_module : AppMsModule := MkAppMsModule "poa" (poa.NewMsHandler poa_granted_perms).
Definition other_module : AppMsModule := MkAppMsModule "oracle" (λ _, throw ErrUnknownRequest).

Lemma RegisterMsRoutes_any_order_witness :
  RegisterMsRoutes [poa_module; other_module] NewMsRouter = RegisterMsRoutes [other_module; poa_module] NewMsRouter ∧
  ∃ rtr, RegisterMsRoutes [poa_module; other_module] NewMsRouter = Ok rtr ∧ HasRoute rtr "poa" = true.
Proof.
  destruct (RegisterMsRoutes_any_order [poa_module; other_module] [other_module; poa_module]) as [He Hr].
  - apply perm_swap.
  - split; [exact He|]. destruct Hr as (rtr & Hrun & _ & _ & Hhas).
    + apply NoDup_cons; split; [intros Hin; apply list_elem_of_singleton in Hin; discriminate Hin|apply NoDup_singleton].
    + intros m Hm. apply elem_of_cons in Hm as [->|Hm]; [vm_compute; reflexivity|].
      apply list_elem_of_singleton in Hm as ->. vm_compute. reflexivity.
    + exists rtr. split; [exact Hrun|]. apply Hhas. left.
Defined.
