(* ===== verification/CCStorageFacts.v ===== *)
(** * Currency storage: the store refines a map mirrored in the VM

    [ccs_holds] relates the module's store to a map from denominations to
    currencies, every one of them mirrored in the VM storage as its info resource.
    Creating a currency and changing its supply do to that map what their names say.
    The keeper is an instance of [CurrencyStorage], the interface [x/markets] uses. *)
From S2P Require Import Prelude Bytes Sdk SdkRef SdkFacts DnTypes Perms Chain Currency VMStorage CCStorage.
Local Open Scope string_scope.
Local Open Scope Z_scope.
Local Open Scope list_scope.

(** The currency info the VM sees. *)
Definition info_of (cur : Currency) : ccstorage.ResCurrencyInfo :=
  ccstorage.MkResCurrencyInfo (cur_Denom cur) (cur_Decimals cur) false common_vm.StdLibAddress (cur_Supply cur).

(** ** The operations on the map *)
Module ccs_spec.
Inductive op := Create (params : CurrencyParams) | Increase (coin : Coin) | Decrease (coin : Coin).

Definition add_supply (m : gmap string Currency) (d : string) (z : Z) : outcome (gmap string Currency) :=
  match m !! d with
  | Some cur => Ok (<[d := ccstorage.with_Supply cur (cur_Supply cur + z)]> m)
  | None => Err ccstorage.ErrWrongDenom
  end.

Definition step (m : gmap string Currency) (o : op) : outcome (gmap string Currency) :=
  match o with
  | Create p =>
      fail_if (bool_decide (is_Some (m !! cp_Denom p))) ccstorage.ErrWrongDenom;;
      Ok (<[cp_Denom p := NewCurrency p 0]> m)
  | Increase coin => add_supply m (coin_Denom coin) (coin_Amount coin)
  | Decrease coin => add_supply m (coin_Denom coin) (- coin_Amount coin)
  end.

(** The VM's supplies are 128-bit unsigned integers, the decimals a byte. *)
Definition supply_fits (m : gmap string Currency) (d : string) (z : Z) : Prop :=
  ∀ cur, m !! d = Some cur → 0 ≤ cur_Supply cur + z < 2 ^ 128.
Definition op_fits (m : gmap string Currency) (o : op) : Prop :=
  match o with
  | Create p => 0 ≤ cp_Decimals p < 256
  | Increase coin => supply_fits m (coin_Denom coin) (coin_Amount coin)
  | Decrease coin => supply_fits m (coin_Denom coin) (- coin_Amount coin)
  end.
End ccs_spec.

Section facts.
Context `{SdkTypesLaws} `{KVStoreLaws} `{LG : Ledger} `{VS : !VMStorage}.
Context (clients : string → Prop) (vm_store : string) `{VSL : !VMStorageLaws clients vm_store}.
Context `{GL : Glav} `{LI : !Lcs ccstorage.ResCurrencyInfo} `{CC : !Codec Currency}.
Variable modulePerms : ModulePermissions.
Hypothesis own_perms : mp_name modulePerms = ccstorage.ModuleName.
(** The VM storage admits the module. *)
Hypothesis admitted : clients ccstorage.ModuleName.
Hypothesis other_store : vm_store ≠ ccstorage.StoreKey.
(** [lcs] encodes supplies of up to 128 bits. *)
Hypothesis lcs_info : ∀ i : ccstorage.ResCurrencyInfo, 0 ≤ ccstorage.rci_TotalSupply i < 2 ^ 128 → ∃ bz, lcs_Marshal i = Ok bz.
Import ccstorage.
Implicit Types (s : store) (c : Ctx) (m : gmap string Currency) (d : string) (cur : Currency).
Notation ccs_store c := (ctx_stores c StoreKey).

Definition info_path d : VMAccessPath := MkVMAccessPath common_vm.StdLibAddress (CurrencyInfoVector d).

Lemma info_path_ok d : common_vm.path_ok (info_path d).
Proof. unfold common_vm.path_ok, info_path, common_vm.StdLibAddress. cbn [vp_Address]. apply length_be_bytes. Qed.
Lemma info_path_inj d d' : info_path d = info_path d' → d = d'.
Proof. intros E. apply CurrencyInfoVector_inj. by injection E. Qed.

Lemma GetCurrencyKey_inj d d' : GetCurrencyKey d = GetCurrencyKey d' → d = d'.
Proof. intros E. by apply (string_app_inj_len "currency:" "currency:") in E as [_ E]. Qed.

Record ccs_holds c m : Prop := {
  ch_currency d : store_Get (ccs_store c) (GetCurrencyKey d) = Marshal Bare <$> m !! d;
  ch_denom d cur : m !! d = Some cur → cur_Denom cur = d ∧ 0 ≤ cur_Decimals cur < 256;
  ch_info d cur : m !! d = Some cur →
    ∃ bz, lcs_Marshal (info_of cur) = Ok bz ∧ vm_read (ctx_stores c vm_store) (info_path d) = Some bz;
}.

(** What the operations leave alone. *)
Record ccs_frame c c' : Prop := {
  cf_frame : frame [StoreKey; vm_store] c c';
  cf_bank : ctx_bank c' = ctx_bank c;
}.

Lemma ccs_frame_refl c : ccs_frame c c.
Proof. by split. Qed.
Lemma ccs_frame_trans c1 c2 c3 : ccs_frame c1 c2 → ccs_frame c2 c3 → ccs_frame c1 c3.
Proof. intros [F1 B1] [F2 B2]. split; [by eapply frame_trans|congruence]. Qed.
Lemma ccs_frame_store c c' k : ccs_frame c c' → k ≠ StoreKey → k ≠ vm_store → ctx_stores c' k = ctx_stores c k.
Proof. intros [(Hs & _) _] H1 H2. apply Hs. by rw !elem_of_cons elem_of_nil; intros [?|[?|?]]. Qed.

Lemma ccs_holds_frame c c' m : ctx_stores c' StoreKey = ccs_store c → ctx_stores c' vm_store = ctx_stores c vm_store →
  ccs_holds c m → ccs_holds c' m.
Proof.
  intros Es Ev [Hc Hd Hi]. split.
  - intros d. by rw Es Hc.
  - done.
  - intros d cur Hm. rw Ev. by apply Hi.
Qed.

Lemma empty_ccs_holds c : (∀ k, store_Get (ccs_store c) k = None) → ccs_holds c ∅.
Proof. intros Hs. split; [intros d; by rw Hs lookup_empty|done..]. Qed.

(** The callers a method admits. *)
Definition allowed (perm caller : string) : Prop := caller = ModuleName ∨ Check modulePerms caller perm = Ok tt.

Lemma ccs_allowed_self perm : allowed perm ModuleName.
Proof. by left. Qed.
Lemma allowed_run perm {A} (body : M A) caller c : allowed perm caller → keeper_method modulePerms perm body caller c = body ModuleName c.
Proof.
  intros [->|Hg]; [rw -own_perms; apply keeper_method_self|rw keeper_method_granted; [by rw own_perms|done]].
Qed.

(** *** Reading *)
Lemma HasCurrency_run caller c m d : allowed PermRead caller → ccs_holds c m →
  HasCurrency modulePerms d caller c = (Ok (bool_decide (is_Some (m !! d))), c).
Proof.
  intros Hcaller Hs. unfold HasCurrency. rw allowed_run; [|done].
  unfold kv_Has, store_Has. rw (ch_currency _ _ Hs). do 2 f_equal. apply bool_decide_ext. apply fmap_is_Some.
Qed.

Lemma GetCurrency_run caller c m d : allowed PermRead caller → ccs_holds c m →
  GetCurrency modulePerms d caller c = (match m !! d with Some cur => Ok cur | None => Err ErrWrongDenom end, c).
Proof.
  intros Hcaller Hs. unfold GetCurrency. rw allowed_run; [|done].
  rw (M_bind_Ok _ _ _ _ _ _ (HasCurrency_run ModuleName c m d (ccs_allowed_self _) Hs)). destruct (m !! d) as [cur|] eqn:E.
  - rw bool_decide_true; [|done]. simpl. unfold getCurrency, mbind, M_bind, kv_Get. rw (ch_currency _ _ Hs) E. simpl.
    unfold MustUnmarshal. by rw Unmarshal_Marshal.
  - by rw bool_decide_false; [|intros []].
Qed.

Lemma GetCurrencies_run caller c m : allowed PermRead caller → ccs_holds c m →
  ∃ l, GetCurrencies modulePerms caller c = (Ok l, c) ∧ l ≡ₚ (map_to_list m).*2.
Proof.
  intros Hcaller Hs. unfold GetCurrencies. rw allowed_run; [|done].
  set (kvs := KVStorePrefixIterator (ccs_store c) GetCurrencyKeyPrefix).
  rw (M_bind_Ok _ _ _ c kvs c); [|done]. exists (omap (λ kv : string * string, Unmarshal Bare kv.2) kvs). split.
  { apply mapM_run. intros [k v] Hkv. apply at_prefix_elem in Hkv as [Hg [t ->]]; [|done].
    change (GetCurrencyKeyPrefix +:+ t) with (GetCurrencyKey t) in Hg. rw (ch_currency _ _ Hs) in Hg.
    destruct (m !! t) as [cur|]; [|done]. simpl in Hg. injection Hg as <-. exists cur. unfold MustUnmarshal. simpl. by rw Unmarshal_Marshal. }
  trans (omap (λ kv : string * string, Unmarshal Bare kv.2 : option Currency) ((λ p : string * Currency, (GetCurrencyKey p.1, Marshal Bare p.2)) <$> map_to_list m)).
  - apply omap_Permutation. apply NoDup_Permutation; [apply iterator_NoDup|..].
    + apply NoDup_fmap_2_strong; [|apply NoDup_map_to_list]. intros [d1 c1] [d2 c2] H1 H2 E. apply pair_eq in E as [E%GetCurrencyKey_inj _]. simpl in E. subst d2.
      apply elem_of_map_to_list in H1, H2. congruence.
    + intros [k v]. unfold kvs. rw at_prefix_elem; [|done]. rw list_elem_of_fmap. split.
      * intros [Hg [t ->]]. change (GetCurrencyKeyPrefix +:+ t) with (GetCurrencyKey t) in *. rw (ch_currency _ _ Hs) in Hg.
        destruct (m !! t) as [cur|] eqn:E; [|done]. injection Hg as <-. exists (t, cur). split; [done|]. by apply elem_of_map_to_list.
      * intros ([t cur] & E & Hin%elem_of_map_to_list). apply pair_eq in E as [-> ->]. simpl. rw (ch_currency _ _ Hs) Hin. split; [done|]. by exists t.
  - clear. induction (map_to_list m) as [|[d cur] l IH]; [done|]. simpl. rw Unmarshal_Marshal. by constructor.
Qed.

(** *** Writing a currency and its VM resource *)
Lemma NewResCurrencyInfo_std cur : NewResCurrencyInfo cur common_vm.StdLibAddress = Ok (info_of cur).
Proof. done. Qed.

Definition store_both cur : M unit := storeCurrency cur;; storeResStdCurrencyInfo cur.

Lemma store_both_run c m cur : ccs_holds c m → 0 ≤ cur_Decimals cur < 256 → 0 ≤ cur_Supply cur < 2 ^ 128 →
  ∃ c', store_both cur ModuleName c = (Ok tt, c') ∧ ccs_holds c' (<[cur_Denom cur := cur]> m) ∧ ccs_frame c c' ∧
    ctx_events c' = ctx_events c.
Proof.
  intros Hs Hdec Hsup. destruct (lcs_info (info_of cur)) as [bz Hbz]; [done|].
  set (c1 := set_store c StoreKey (store_Set (ccs_store c) (GetCurrencyKey (cur_Denom cur)) (Marshal Bare cur))).
  destruct (SetValue_ok ModuleName c1 (info_path (cur_Denom cur)) bz) as (sv & Hrun & Hread); [done|apply info_path_ok|].
  set (c2 := set_store c1 vm_store sv) in *. assert (ctx_stores c1 vm_store = ctx_stores c vm_store) as E1.
  { simpl. by rw decide_False. }
  assert (ccs_store c2 = store_Set (ccs_store c) (GetCurrencyKey (cur_Denom cur)) (Marshal Bare cur)) as E2.
  { simpl. by rw decide_False; [|congruence]. }
  assert (ctx_stores c2 vm_store = sv) as E3 by (simpl; by rw decide_True).
  exists c2. split.
  { unfold store_both. rw (M_bind_Ok _ _ _ c tt c1); [|done]. unfold storeResStdCurrencyInfo. by rw NewResCurrencyInfo_std Hbz. }
  split; [|split; [split; [split; [|done]|done]|done]].
  - split.
    + intros d. rw E2. destruct (decide (cur_Denom cur = d)) as [<-|Hne].
      * by rw store_Get_Set_eq lookup_insert_eq.
      * rw store_Get_Set_ne; [|by intros E%GetCurrencyKey_inj]. rw lookup_insert_ne; [|done]. by apply Hs.
    + intros d cur' Hm. destruct (decide (cur_Denom cur = d)) as [<-|Hne].
      * rw lookup_insert_eq in Hm. by injection Hm as <-.
      * rw lookup_insert_ne in Hm; [|done]. by apply Hs.
    + intros d cur' Hm. rw E3. rw Hread; [|apply info_path_ok]. destruct (decide (cur_Denom cur = d)) as [<-|Hne].
      * rw lookup_insert_eq in Hm. injection Hm as <-. rw decide_True; [|done]. by exists bz.
      * rw lookup_insert_ne in Hm; [|done]. rw decide_False; [|by intros E%info_path_inj]. rw E1. by apply Hs.
  - intros k Hk. simpl. rw decide_False; [|intros ->; apply Hk; right; left]. rw decide_False; [done|intros ->; apply Hk; left].
Qed.

(** *** The operations *)
Definition run (o : ccs_spec.op) : M unit :=
  match o with
  | ccs_spec.Create p => CreateCurrency modulePerms p
  | ccs_spec.Increase coin => IncreaseCurrencySupply modulePerms coin
  | ccs_spec.Decrease coin => DecreaseCurrencySupply modulePerms coin
  end.
Definition op_perm (o : ccs_spec.op) : string :=
  match o with ccs_spec.Create _ => PermCreate | _ => PermUpdate end.

(** An operation does what [step] says: the map changes so, or nothing does. *)
Definition refines (o : ccs_spec.op) caller c m : Prop :=
  match ccs_spec.step m o with
  | Ok m' => ∃ c', run o caller c = (Ok tt, c') ∧ ccs_holds c' m' ∧ ccs_frame c c'
  | Err e => run o caller c = (Err e, c)
  | Panic => False
  end.

Lemma change_run c m d z : ccs_holds c m → ccs_spec.supply_fits m d z →
  match ccs_spec.add_supply m d z with
  | Ok m' => ∃ cur c', m !! d = Some cur ∧ GetCurrency modulePerms d ModuleName c = (Ok cur, c) ∧
      store_both (with_Supply cur (cur_Supply cur + z)) ModuleName c = (Ok tt, c') ∧ ccs_holds c' m' ∧ ccs_frame c c' ∧
      ctx_events c' = ctx_events c
  | Err e => GetCurrency modulePerms d ModuleName c = (Err e, c)
  | Panic => False
  end.
Proof.
  intros Hs Hfits. pose proof (GetCurrency_run ModuleName c m d (ccs_allowed_self _) Hs) as Hget. unfold ccs_spec.add_supply.
  destruct (m !! d) as [cur|] eqn:E; [|done]. destruct (ch_denom _ _ Hs d cur E) as [Ed Hdec].
  destruct (store_both_run c m (with_Supply cur (cur_Supply cur + z)) Hs) as (c' & Hrun & Hs' & Hf & He); [done|by apply Hfits|].
  exists cur, c'. simpl in Hs'. rw Ed in Hs'. done.
Qed.

Lemma fits_int z : 0 ≤ z < 2 ^ 128 → - maxInt < z < maxInt.
Proof. intros Hz. assert (2 ^ 128 < maxInt) by done. lia. Qed.

Lemma increase_run caller c m coin : allowed PermUpdate caller → ccs_holds c m →
  ccs_spec.supply_fits m (coin_Denom coin) (coin_Amount coin) →
  match ccs_spec.add_supply m (coin_Denom coin) (coin_Amount coin) with
  | Ok m' => ∃ c', IncreaseCurrencySupply modulePerms coin caller c = (Ok tt, c') ∧ ccs_holds c' m' ∧ ccs_frame c c' ∧ ctx_events c' = ctx_events c
  | Err e => IncreaseCurrencySupply modulePerms coin caller c = (Err e, c)
  | Panic => False
  end.
Proof.
  intros Hcaller Hs Hfits. pose proof (change_run c m _ _ Hs Hfits) as Hc. unfold IncreaseCurrencySupply. rw allowed_run; [|done].
  destruct (ccs_spec.add_supply _ _ _) as [m'|e|] eqn:E; [|by rw (M_bind_Err _ _ _ _ _ _ Hc)|done].
  destruct Hc as (cur & c' & Em & Hget & Hrun & Hrest). exists c'. split; [|done]. rw (M_bind_Ok _ _ _ _ _ _ Hget).
  rw (M_bind_Ok _ _ _ c (cur_Supply cur + coin_Amount coin) c); [done|]. apply lift_Ok, Int_Add_ok, fits_int. by apply Hfits.
Qed.

Lemma decrease_run caller c m coin : allowed PermUpdate caller → ccs_holds c m →
  ccs_spec.supply_fits m (coin_Denom coin) (- coin_Amount coin) →
  match ccs_spec.add_supply m (coin_Denom coin) (- coin_Amount coin) with
  | Ok m' => ∃ c', DecreaseCurrencySupply modulePerms coin caller c = (Ok tt, c') ∧ ccs_holds c' m' ∧ ccs_frame c c' ∧ ctx_events c' = ctx_events c
  | Err e => DecreaseCurrencySupply modulePerms coin caller c = (Err e, c)
  | Panic => False
  end.
Proof.
  intros Hcaller Hs Hfits. pose proof (change_run c m _ _ Hs Hfits) as Hc. unfold DecreaseCurrencySupply. rw allowed_run; [|done].
  destruct (ccs_spec.add_supply _ _ _) as [m'|e|] eqn:E; [|by rw (M_bind_Err _ _ _ _ _ _ Hc)|done].
  destruct Hc as (cur & c' & Em & Hget & Hrun & Hrest). exists c'. split; [|done]. rw (M_bind_Ok _ _ _ _ _ _ Hget).
  rw (M_bind_Ok _ _ _ c (cur_Supply cur + - coin_Amount coin) c); [done|]. apply lift_Ok. rw Z.add_opp_r. apply Int_Sub_ok, fits_int. by apply Hfits.
Qed.

Lemma create_run caller c m p : allowed PermCreate caller → ccs_holds c m → 0 ≤ cp_Decimals p < 256 →
  refines (ccs_spec.Create p) caller c m.
Proof.
  intros Hcaller Hs Hdec. unfold refines, ccs_spec.step, run, CreateCurrency. rw allowed_run; [|done].
  rw (M_bind_Ok _ _ _ _ _ _ (HasCurrency_run ModuleName c m (cp_Denom p) (ccs_allowed_self _) Hs)).
  destruct (bool_decide (is_Some (m !! cp_Denom p))); [done|]. cbn beta iota zeta. rw NewResCurrencyInfo_std. cbn beta iota zeta.
  destruct (store_both_run c m (NewCurrency p 0) Hs) as (c' & Hrun & Hs' & Hf & He); [done|done|].
  unfold store_both in Hrun. apply M_bind_inv in Hrun as ([] & c1 & H1 & H2).
  exists (MkCtx (ctx_stores c') (ctx_bank c') (ctx_events c' ++ [NewCCCreatedEvent (NewCurrency p 0)]) (ctx_height c') (ctx_time c')).
  split; [rw (M_bind_Ok _ _ _ _ _ _ H1) (M_bind_Ok _ _ _ _ _ _ H2); done|]. split.
  - apply (ccs_holds_frame c'); done.
  - apply (ccs_frame_trans c c'); [done|]. by split.
Qed.

Lemma ccs_run o caller c m : allowed (op_perm o) caller → ccs_holds c m → ccs_spec.op_fits m o → refines o caller c m.
Proof.
  intros Hcaller Hs Hfits. destruct o as [p|coin|coin]; [by apply create_run|unfold refines; simpl..].
  - pose proof (increase_run caller c m coin Hcaller Hs Hfits) as Hr. destruct (ccs_spec.add_supply _ _ _); [|done..].
    destruct Hr as (c' & ? & ? & ? & _). by exists c'.
  - pose proof (decrease_run caller c m coin Hcaller Hs Hfits) as Hr. destruct (ccs_spec.add_supply _ _ _); [|done..].
    destruct Hr as (c' & ? & ? & ? & _). by exists c'.
Qed.

(** Creating a currency and changing a supply do to the stored currencies, and to
    the info resources the VM reads, what the operation does to a map; on an error, an
    unknown or an existing denomination, nothing changes. *)
Theorem ccstorage_refines_map o caller c m :
  allowed (op_perm o) caller → ccs_holds c m → ccs_spec.op_fits m o →
  match ccs_spec.step m o with
  | Ok m' => ∃ c', run o caller c = (Ok tt, c') ∧ ccs_holds c' m' ∧ ctx_bank c' = ctx_bank c ∧
      ∀ k, k ≠ StoreKey → k ≠ vm_store → ctx_stores c' k = ctx_stores c k
  | Err e => run o caller c = (Err e, c)
  | Panic => False
  end.
Proof.
  intros Hcaller Hs Hfits. pose proof (ccs_run o caller c m Hcaller Hs Hfits) as Hr. unfold refines in Hr.
  destruct (ccs_spec.step m o); [|done..]. destruct Hr as (c' & ? & ? & Hf). exists c'. split; [done|]. split; [done|]. split; [apply Hf|].
  intros k. by apply ccs_frame_store.
Qed.
End facts.

(** ** The keeper implements [CurrencyStorage] *)
Section implementation.
Context `{KVStoreLaws} `{LG : Ledger} `{CC : !Codec Currency}.
Variable modulePerms : ModulePermissions.
Hypothesis own_perms : mp_name modulePerms = ccstorage.ModuleName.
Import ccstorage.

Definition ccstorage_keeper : CurrencyStorage := {|
  ccs_HasCurrency := HasCurrency modulePerms;
  ccs_GetCurrency := GetCurrency modulePerms;
|}.

(** Every entry is the currency of its key. *)
Definition stored_currencies (s : store) : Prop :=
  ∀ d v, store_Get s (GetCurrencyKey d) = Some v → ∃ cur, v = Marshal Bare cur ∧ cur_Denom cur = d ∧ 0 ≤ cur_Decimals cur < 256.
Definition read_currency (s : store) (d : string) : option Currency := store_Get s (GetCurrencyKey d) ≫= Unmarshal Bare.

Lemma read_currency_Some s d cur : stored_currencies s → read_currency s d = Some cur →
  store_Get s (GetCurrencyKey d) = Some (Marshal Bare cur) ∧ cur_Denom cur = d ∧ 0 ≤ cur_Decimals cur < 256.
Proof.
  unfold read_currency. intros Hs. destruct (store_Get s (GetCurrencyKey d)) as [v|] eqn:E; [|done].
  destruct (Hs d v E) as (cur' & -> & ? & ?). simpl. rw Unmarshal_Marshal. by intros [= <-].
Qed.
Lemma read_currency_None s d : stored_currencies s → read_currency s d = None → store_Get s (GetCurrencyKey d) = None.
Proof.
  unfold read_currency. intros Hs. destruct (store_Get s (GetCurrencyKey d)) as [v|] eqn:E; [|done].
  destruct (Hs d v E) as (cur' & -> & ? & ?). simpl. by rw Unmarshal_Marshal.
Qed.

Definition read_clients (m : string) : Prop := Check modulePerms m PermRead = Ok tt.

Lemma HasCurrency_body caller c d : read_clients caller ∨ caller = mp_name modulePerms →
  HasCurrency modulePerms d caller c = (Ok (store_Has (ctx_stores c StoreKey) (GetCurrencyKey d)), c).
Proof. unfold HasCurrency. intros [Hg| ->]; [by rw keeper_method_granted|by rw keeper_method_self]. Qed.

Lemma ccstorage_keeper_laws : CurrencyStorageLaws (CS := ccstorage_keeper) read_clients StoreKey.
Proof.
  refine {| ccs_wf := stored_currencies; cur_read := read_currency |}; simpl.
  - intros m c d Hm Hs. rw HasCurrency_body; [|by left]. do 2 f_equal. unfold store_Has. apply bool_decide_ext.
    destruct (read_currency _ d) as [cur|] eqn:E.
    + apply read_currency_Some in E as [-> _]; [|done]. split; by eexists.
    + apply read_currency_None in E; [|done]. by rw E.
  - intros m c d cur Hm Hs Hc. apply read_currency_Some in Hc as (Hg & _); [|done]. unfold GetCurrency.
    rw keeper_method_granted; [|done]. rw (M_bind_Ok _ _ _ c true c).
    + simpl. unfold getCurrency, mbind, M_bind, kv_Get. rw Hg. unfold MustUnmarshal. by rw Unmarshal_Marshal.
    + rw HasCurrency_body; [|by right]. unfold store_Has. by rw Hg bool_decide_true.
  - intros m c d Hm Hs Hc. apply read_currency_None in Hc; [|done]. exists ErrWrongDenom. unfold GetCurrency.
    rw keeper_method_granted; [|done]. rw (M_bind_Ok _ _ _ c false c); [done|].
    rw HasCurrency_body; [|by right]. unfold store_Has. by rw Hc bool_decide_false; [|intros []].
  - intros s d cur Hs Hc. by apply read_currency_Some in Hc as (_ & ? & _).
  - intros s d cur Hs Hc. by apply read_currency_Some in Hc as (_ & _ & ?).
  - intros d. apply reads_keeper_method, reads_kv_Has.
  - intros d. apply reads_keeper_method, reads_bind; [apply reads_keeper_method, reads_kv_Has|]. intros []; simpl; [|apply reads_throw].
    apply reads_bind; [apply reads_kv_Get|]. intros [bz|]; [apply reads_MustUnmarshal|apply reads_panic].
Defined.
End implementation.
