(* ===== verification/Oracle.v ===== *)
(** * Oracle ([x/oracle])

    Nominees register assets and their oracles in the module's parameters; oracles
    post ask and bid prices; the end blocker makes the medians of the block's posts the
    current prices, and writes them, and those of the reversed asset, to the VM. *)
From Stdlib Require Import QArith Qround.
From S2P Require Import Prelude Bytes Sdk SdkRef SdkFacts DnTypes Perms Chain VMStorage CCStorage.
Local Open Scope string_scope.
Local Open Scope Z_scope.

(** ** Code outside the repository *)

(** [github.com/shopspring/decimal]. *)
Class Decimal := {
  decimal : Type;
  decimal_NewFromBigInt : Z → Z → decimal;
  decimal_NewFromInt : Z → decimal;
  decimal_Div : decimal → decimal → outcome decimal;
  decimal_Mul : decimal → decimal → decimal;
  decimal_Pow : decimal → decimal → decimal;
  decimal_BigInt : decimal → Z;
}.

(** Documented behaviour: a decimal is a rational number; only [Div] rounds, to the
    nearest multiple of [10^-16], and panics on zero; [BigInt] is the integer part. *)
Class DecimalLaws `{D : Decimal} := {
  d_val : decimal → Q;
  NewFromBigInt_val z n : 0 ≤ n → (d_val (decimal_NewFromBigInt z (- n)) == inject_Z z / inject_Z (10 ^ n))%Q;
  NewFromInt_val z : (d_val (decimal_NewFromInt z) == inject_Z z)%Q;
  Div_val a b : ¬ (d_val b == 0)%Q → ∃ d, decimal_Div a b = Ok d ∧
    (- (1 # 2) <= (d_val d - d_val a / d_val b) * inject_Z (10 ^ 16) <= 1 # 2)%Q;
  Div_zero a b : (d_val b == 0)%Q → decimal_Div a b = Panic;
  Mul_val a b : (d_val (decimal_Mul a b) == d_val a * d_val b)%Q;
  Pow_val a z n : 0 ≤ z → 0 ≤ n → (d_val a == inject_Z z)%Q →
    (d_val (decimal_Pow a (decimal_NewFromInt n)) == inject_Z (z ^ n))%Q;
  BigInt_val a : (0 <= d_val a)%Q → decimal_BigInt a = Qfloor (d_val a);
}.

(** [glav.OracleAccessVector] and the quotient of [sdk.Int]s. *)
Class OracleVector := {
  OracleAccessVector : string → string → string;
  OracleAccessVector_inj a b c d : OracleAccessVector a b = OracleAccessVector c d → a = c ∧ b = d;
}.
Class SdkInts := { Int_Quo : Int → Int → outcome Int }.
Class SdkIntsLaws `{SdkInts} : Prop := {
  Int_Quo_ok a b : b ≠ 0 → Int_Quo a b = Ok (Z.quot a b);
  Int_Quo_zero a : Int_Quo a 0 = Panic;
}.

(** Go's [big.Int.BitLen], [strconv.FormatInt] and [ParseInt] in base 10. *)
Definition BitLen (z : Z) : Z := if z =? 0 then 0 else Z.log2 (Z.abs z) + 1.
Definition FormatInt (z : Z) : string := pretty z.
Definition ParseInt (s : string) : option Z :=
  let parse (neg : bool) (digits : string) :=
    if decide (digits = "") then None
    else match digits_value 0 digits with
         | Some n => let z := if neg then - n else n in
             if (- 2 ^ 63 <=? z) && (z <? 2 ^ 63) then Some z else None
         | None => None
         end in
  match s with
  | String "+" s' => parse false s'
  | String "-" s' => parse true s'
  | _ => parse false s
  end.

Module oracle.

Definition ModuleName := "oracle".
Definition StoreKey := ModuleName.
Definition DefaultParamspace := ModuleName.
Definition PermInit := ModuleName +:+ "PermInit".
Definition PermRead := ModuleName +:+ "PermRead".
Definition PermWrite := ModuleName +:+ "PermWrite".
Definition AvailablePermissions : list string := [PermInit; PermRead; PermWrite].
Definition NewModulePerms : ModulePermissions := NewModulePermissions ModuleName AvailablePermissions.
Definition RequestVMStoragePerms : RequestModulePermissions := (ModuleName, [vm.PermStorageRead; vm.PermStorageWrite]).

Definition ErrInternal := Registered ModuleName 0.
Definition ErrInvalidAsset := Registered ModuleName 4.
Definition ErrInvalidOracle := Registered ModuleName 5.
Definition ErrInvalidReceivedAt := Registered ModuleName 6.
Definition ErrExistingAsset := Registered ModuleName 7.

(** ** Keys *)
Definition KeyDelimiter := ":".
Definition ModuleKey := ModuleName.
Definition RawPriceKey := "raw".
Definition CurrentPriceKey := "currentprice".
Definition GetRawPricesKey (assetCode : string) (blockHeight : Z) : string :=
  Join KeyDelimiter [ModuleKey; RawPriceKey; assetCode; FormatInt blockHeight].
Definition GetCurrentPricePrefix : string := Join KeyDelimiter [ModuleKey; CurrentPriceKey].
Definition GetCurrentPriceKey (assetCode : string) : string := Join KeyDelimiter [GetCurrentPricePrefix; assetCode].

(** ** Assets, parameters and prices *)
Record Oracle := MkOracle { or_Address : AccAddress }.
Record Asset := MkAsset { as_AssetCode : string; as_Oracles : list Oracle; as_Active : bool }.
Record PostPriceParams := MkPostPriceParams { pp_ReceivedAtDiffInS : Z }.
Record Params := MkParams { p_Assets : list Asset; p_Nominees : list string; p_PostPrice : PostPriceParams }.
Record CurrentPrice := MkCurrentPrice { cp_AssetCode : string; cp_AskPrice : Int; cp_BidPrice : Int; cp_ReceivedAt : Z }.
Record PostedPrice := MkPostedPrice {
  po_AssetCode : string; po_OracleAddress : AccAddress; po_AskPrice : Int; po_BidPrice : Int; po_ReceivedAt : Z }.
(** The VM's price resource. *)
Record ResPrice := MkResPrice { rp_Value : Z }.

Definition KeyAssets := "oracleassets".
Definition KeyNominees := "oraclenominees".
Definition KeyPostPrice := "oraclepostprice".
Definition PriceBytesLimit : Z := 8.
Definition PricePrecision : Z := 8.

Definition NewOracle (address : AccAddress) : Oracle := MkOracle address.
Definition NewAsset (assetCode : string) (oracles : list Oracle) (active : bool) : Asset := MkAsset assetCode oracles active.
Definition NewParams (assets : list Asset) (nominees : list string) (postPrice : PostPriceParams) : Params :=
  MkParams assets nominees postPrice.
Definition DefaultParams : Params := NewParams [] [] (MkPostPriceParams (60 * 60)).
(** [CurrentPrice{}]; its prices are nil, which nothing reads. *)
Definition no_price : CurrentPrice := MkCurrentPrice "" 0 0 zero_time.

(** [sdkErrors.Wrap]. *)
Definition wrap_as (e : error) (o : outcome unit) : outcome unit := match o with Err _ => Err e | r => r end.

Definition Asset_ValidateBasic (a : Asset) : outcome unit :=
  wrap_as ErrInternal (AssetCode_Validate (as_AssetCode a));;
  fail_if (length (as_Oracles a) =? 0)%nat ErrInternal.

Definition Params_Validate (p : Params) : outcome unit :=
  foldM (λ _ asset, AssetCode_Validate (as_AssetCode asset)) tt (p_Assets p);;
  foldM (λ _ nominee, fail_if (bool_decide (nominee = "")) (Plain "invalid nominee: empty")) tt (p_Nominees p).

Definition CurrentPrice_Valid (cp : CurrentPrice) : outcome unit :=
  AssetCode_Validate (cp_AssetCode cp);;
  fail_if (cp_AskPrice cp =? 0) (Plain "askPrice: is zero");;
  fail_if (cp_AskPrice cp <? 0) (Plain "askPrice: is negative");;
  fail_if (cp_BidPrice cp =? 0) (Plain "bidPrice: is zero");;
  fail_if (cp_BidPrice cp <? 0) (Plain "bidPrice: is negative");;
  fail_if (cp_ReceivedAt cp =? zero_time) (Plain "received_at: is zero").

(** ** Messages *)
Record MsgPostPrice := MkMsgPostPrice {
  mpp_From : AccAddress; mpp_AssetCode : string; mpp_AskPrice : Int; mpp_BidPrice : Int; mpp_ReceivedAt : Z }.
Record MsgAddOracle := MkMsgAddOracle { mao_Oracle : AccAddress; mao_Nominee : AccAddress; mao_AssetCode : string }.
Record MsgSetOracles := MkMsgSetOracles { mso_Oracles : list Oracle; mso_Nominee : AccAddress; mso_AssetCode : string }.
Record MsgAddAsset := MkMsgAddAsset { maa_Nominee : AccAddress; maa_Asset : Asset }.
Record MsgSetAsset := MkMsgSetAsset { msa_Nominee : AccAddress; msa_Asset : Asset }.
Inductive Msg :=
  | Msg_PostPrice (msg : MsgPostPrice)
  | Msg_AddOracle (msg : MsgAddOracle)
  | Msg_SetOracles (msg : MsgSetOracles)
  | Msg_SetAsset (msg : MsgSetAsset)
  | Msg_AddAsset (msg : MsgAddAsset)
  | Msg_other.

Definition MsgPostPrice_ValidateBasic (msg : MsgPostPrice) : outcome unit :=
  fail_if (bool_decide (mpp_From msg = "")) ErrInternal;;
  wrap_as ErrInternal (AssetCode_Validate (mpp_AssetCode msg));;
  fail_if (mpp_AskPrice msg <? 0) ErrInternal;;
  fail_if (PriceBytesLimit * 8 <? BitLen (mpp_AskPrice msg)) ErrInternal;;
  fail_if (mpp_BidPrice msg <? 0) ErrInternal;;
  fail_if (PriceBytesLimit * 8 <? BitLen (mpp_BidPrice msg)) ErrInternal.
Definition MsgAddOracle_ValidateBasic (msg : MsgAddOracle) : outcome unit :=
  fail_if (bool_decide (mao_Oracle msg = "")) ErrInvalidAddress;;
  wrap_as ErrInternal (AssetCode_Validate (mao_AssetCode msg));;
  fail_if (bool_decide (mao_Nominee msg = "")) ErrInvalidAddress.
Definition MsgSetOracles_ValidateBasic (msg : MsgSetOracles) : outcome unit :=
  fail_if (length (mso_Oracles msg) =? 0)%nat ErrInvalidAddress;;
  wrap_as ErrInternal (AssetCode_Validate (mso_AssetCode msg));;
  fail_if (bool_decide (mso_Nominee msg = "")) ErrInvalidAddress.
Definition MsgAddAsset_ValidateBasic (msg : MsgAddAsset) : outcome unit :=
  Asset_ValidateBasic (maa_Asset msg);;
  fail_if (bool_decide (maa_Nominee msg = "")) ErrInvalidAddress.
Definition MsgSetAsset_ValidateBasic (msg : MsgSetAsset) : outcome unit :=
  Asset_ValidateBasic (msa_Asset msg);;
  fail_if (bool_decide (msa_Nominee msg = "")) ErrInvalidAddress.

Definition MsgPostPrice_GetSigners (msg : MsgPostPrice) : list AccAddress := [mpp_From msg].
Definition MsgAddOracle_GetSigners (msg : MsgAddOracle) : list AccAddress := [mao_Nominee msg].
Definition MsgSetOracles_GetSigners (msg : MsgSetOracles) : list AccAddress := [mso_Nominee msg].
Definition MsgAddAsset_GetSigners (msg : MsgAddAsset) : list AccAddress := [maa_Nominee msg].
Definition MsgSetAsset_GetSigners (msg : MsgSetAsset) : list AccAddress := [msa_Nominee msg].

(** ** Genesis *)
Record GenesisState := MkGenesisState { gs_Params : Params; gs_CurrentPrices : list CurrentPrice }.
Definition DefaultGenesisState : GenesisState := MkGenesisState DefaultParams [].

Definition Validate_price (blockTime : Z) (assets : gset string) (cPrice : CurrentPrice) : outcome (gset string) :=
  CurrentPrice_Valid cPrice;;
  fail_if (negb (blockTime =? zero_time) && (blockTime <? cp_ReceivedAt cPrice)) (Plain "received_at after block time");;
  fail_if (bool_decide (cp_AssetCode cPrice ∈ assets)) (Plain "duplicated");;
  Ok ({[cp_AssetCode cPrice]} ∪ assets).
Definition GenesisState_Validate (gs : GenesisState) (blockTime : Z) : outcome unit :=
  Params_Validate (gs_Params gs);;
  foldM (Validate_price blockTime) ∅ (gs_CurrentPrices gs);;
  Ok tt.

(** ** Events *)
Definition NewAssetAddedEvent (asset : Asset) : Event :=
  MkEvent (ModuleName +:+ ".add_asset") [("asset_code", as_AssetCode asset)].
Definition NewPriceEvent (price : CurrentPrice) : Event :=
  MkEvent (ModuleName +:+ ".price")
    [("asset_code", cp_AssetCode price); ("ask_price", pretty (cp_AskPrice price)); ("bid_price", pretty (cp_BidPrice price));
     ("received_at", FormatInt (Unix (cp_ReceivedAt price)))].

(** ** Prices for the VM *)
Section prices.
Context `{ST : SdkTypes} `{SI : SdkInts} `{D : Decimal} `{OV : OracleVector} `{LP : !Lcs ResPrice} `{GoSort}.

(** The price of the base in the quote currency from that of the quote in the base. *)
Definition reverseInt (p : Int) : outcome Int :=
  let decP := decimal_NewFromBigInt p (- PricePrecision) in
  decP ← decimal_Div (decimal_NewFromInt 1) decP;
  let decP := decimal_Mul decP (decimal_Pow (decimal_NewFromInt 10) (decimal_NewFromInt PricePrecision)) in
  NewIntFromBigInt (decimal_BigInt decP).

Definition GetReversedAssetCurrentPrice (cp : CurrentPrice) : outcome CurrentPrice :=
  code ← AssetCode_ReverseCode (cp_AssetCode cp);
  ask ← reverseInt (cp_BidPrice cp);
  bid ← reverseInt (cp_AskPrice cp);
  Ok (MkCurrentPrice code ask bid (cp_ReceivedAt cp)).

Definition GetAssetCodePath (assetCode : string) : outcome VMAccessPath :=
  match Split AssetCodeDelimiter assetCode with
  | [a0; a1] => Ok (MkVMAccessPath common_vm.StdLibAddress (OracleAccessVector a0 a1))
  | _ => Err (Plain "invalid AssetCode")
  end.

Definition NewResPriceStorageValuesPanic (assetCode : string) (price : Int) : outcome (VMAccessPath * string) :=
  match GetAssetCodePath assetCode with
  | Ok key => match lcs_Marshal (MkResPrice price) with Ok value => Ok (key, value) | _ => Panic end
  | _ => Panic
  end.

(** ** Medians

    [rawPrices] and [askRawPrices] are one slice: sorting by the ask price sorts it. *)
Definition ask_less (a b : PostedPrice) : bool := po_AskPrice a <? po_AskPrice b.
Definition bid_less (a b : PostedPrice) : bool := po_BidPrice a <? po_BidPrice b.

(** [prices[i]]. *)
Definition at_index (prices : list PostedPrice) (i : nat) : outcome PostedPrice :=
  match prices !! i with Some p => Ok p | None => Panic end.

Definition medians (blockTime : Z) (rawPrices : list PostedPrice) : outcome (Int * Int * Z) :=
  let l := length rawPrices in
  if (l =? 0)%nat then Ok (0, 0, zero_time)
  else if (l =? 1)%nat then
    p ← at_index rawPrices 0; Ok (po_AskPrice p, po_BidPrice p, po_ReceivedAt p)
  else
    let askRawPrices := sort_Sort ask_less rawPrices in
    let bidRawPrices := sort_Sort bid_less rawPrices in
    if (l mod 2 =? 0)%nat then
      a1 ← at_index askRawPrices (l / 2 - 1); a2 ← at_index askRawPrices (l / 2);
      sumA ← Int_Add (po_AskPrice a1) (po_AskPrice a2);
      b1 ← at_index bidRawPrices (l / 2 - 1); b2 ← at_index bidRawPrices (l / 2);
      sumB ← Int_Add (po_BidPrice b1) (po_BidPrice b2);
      ask ← Int_Quo sumA 2; bid ← Int_Quo sumB 2;
      Ok (ask, bid, blockTime)
    else
      a ← at_index askRawPrices (l / 2); b ← at_index bidRawPrices (l / 2);
      Ok (po_AskPrice a, po_BidPrice b, po_ReceivedAt a).
End prices.

Section keeper.
Context `{ST : SdkTypes} `{SI : SdkInts} `{D : Decimal} `{OV : OracleVector} `{LP : !Lcs ResPrice} `{GS : GoSort}.
Context `{KV : KVStore} `{LG : Ledger} `{VS : !VMStorage}.
Context `{CA : !Codec (list Asset)} `{CN : !Codec (list string)} `{CP : !Codec PostPriceParams}.
Context `{CC : !Codec CurrentPrice} `{CR : !Codec (list PostedPrice)}.
Variable modulePerms : ModulePermissions.

(** ** Parameters *)
Definition GetAssetParams : M (list Asset) := keeper_method modulePerms PermRead (param_Get DefaultParamspace KeyAssets).
Definition GetNomineeParams : M (list string) := keeper_method modulePerms PermRead (param_Get DefaultParamspace KeyNominees).
Definition GetPostPriceParams : M PostPriceParams := keeper_method modulePerms PermRead (param_Get DefaultParamspace KeyPostPrice).
Definition GetParams : M Params :=
  keeper_method modulePerms PermRead (
    assets ← GetAssetParams; nominees ← GetNomineeParams; postPrice ← GetPostPriceParams;
    mret (NewParams assets nominees postPrice)).
Definition SetParams (params : Params) : M unit :=
  keeper_method modulePerms PermWrite (
    param_Set DefaultParamspace KeyAssets (p_Assets params);;
    param_Set DefaultParamspace KeyNominees (p_Nominees params);;
    param_Set DefaultParamspace KeyPostPrice (p_PostPrice params)).
(** [params.Assets = assets]. *)
Definition with_Assets (params : Params) (assets : list Asset) : Params :=
  MkParams assets (p_Nominees params) (p_PostPrice params).

Definition IsNominee (address : string) : M unit :=
  keeper_method modulePerms PermRead (
    p ← GetParams;
    if bool_decide (address ∈ p_Nominees p) then mret tt else throw (Plain "is not a nominee")).

(** ** Assets *)
Definition find_asset (assets : list Asset) (assetCode : string) : option Asset :=
  snd <$> list_find (λ a, as_AssetCode a = assetCode) assets.

Definition GetAsset (assetCode : string) : M (option Asset) :=
  keeper_method modulePerms PermRead (
    assets ← GetAssetParams; mret (find_asset assets assetCode)).

(** The loop that rebuilds the list: every asset of that code goes through [f]. *)
Definition update_assets (assetCode : string) (f : Asset → Asset) (assets : list Asset) : list Asset :=
  (λ a, if decide (assetCode = as_AssetCode a) then f a else a) <$> assets.
Definition store_updated (assetCode : string) (f : Asset → Asset) : M unit :=
  assets ← GetAssetParams;
  if bool_decide (assetCode ∈ as_AssetCode <$> assets) then
    params ← GetParams; SetParams (with_Assets params (update_assets assetCode f assets))
  else throw (Plain "asset: not found").

Definition SetAsset (nominee : string) (asset : Asset) : M unit :=
  keeper_method modulePerms PermWrite (
    IsNominee nominee;;
    store_updated (as_AssetCode asset) (λ _, asset)).
Definition AddAsset (nominee : string) (asset : Asset) : M unit :=
  keeper_method modulePerms PermWrite (
    IsNominee nominee;;
    found ← GetAsset (as_AssetCode asset);
    if bool_decide (is_Some found) then throw (Plain "asset: already exists")
    else
      assets ← GetAssetParams;
      params ← GetParams;
      SetParams (with_Assets params (assets ++ [asset])%list)).

(** ** Oracles *)
Definition GetOracles (assetCode : string) : M (list Oracle) :=
  keeper_method modulePerms PermRead (
    assets ← GetAssetParams;
    match find_asset assets assetCode with
    | Some a => mret (as_Oracles a)
    | None => throw (Plain "oracles: not found")
    end).
Definition GetOracle (assetCode : string) (address : AccAddress) : M Oracle :=
  keeper_method modulePerms PermRead (
    oracles ← GetOracles assetCode;
    match list_find (λ o, address = or_Address o) oracles with
    | Some (_, o) => mret o
    | None => throw (Plain "oracle: not found")
    end).
(** [a.Oracles = oracles]. *)
Definition with_Oracles (a : Asset) (oracles : list Oracle) : Asset := MkAsset (as_AssetCode a) oracles (as_Active a).

Definition AddOracle (nominee assetCode : string) (address : AccAddress) : M unit :=
  keeper_method modulePerms PermWrite (
    IsNominee nominee;;
    r ← attempt (GetOracle assetCode address);
    match r with
    | Ok _ => throw (Plain "oracle: already exists")
    | _ => store_updated assetCode (λ a, with_Oracles a (as_Oracles a ++ [NewOracle address])%list)
    end).
Definition SetOracles (nominee assetCode : string) (addresses : list Oracle) : M unit :=
  keeper_method modulePerms PermWrite (
    IsNominee nominee;;
    store_updated assetCode (λ a, with_Oracles a addresses)).

(** ** Posted prices *)
Definition GetRawPrices (assetCode : string) (blockHeight : Z) : M (list PostedPrice) :=
  keeper_method modulePerms PermRead (
    bz ← kv_Get StoreKey (GetRawPricesKey assetCode blockHeight); MustUnmarshal Bare (default "" bz)).

(** [time.Duration(...) * time.Second], an [int64]. *)
Definition absDuration (dur : Z) : Z := if dur <? 0 then int64 (- dur) else dur.
Definition checkPriceReceivedAtTimestamp (receivedAt : Z) : M unit :=
  cfg ← GetPostPriceParams;
  if 0 <? pp_ReceivedAtDiffInS cfg then
    let thresholdDur := int64 (pp_ReceivedAtDiffInS cfg * 10 ^ 9) in
    blockTime ← BlockTime;
    let diffDur := Time_Sub blockTime receivedAt in
    if thresholdDur <? absDuration diffDur then throw ErrInvalidReceivedAt else mret tt
  else mret tt.

(** The oracle's own post is replaced, another one appended. *)
Definition put_price (prices : list PostedPrice) (price : PostedPrice) : list PostedPrice * nat :=
  match list_find (λ p, po_OracleAddress p = po_OracleAddress price) prices with
  | Some (index, _) => (<[index := price]> prices, index)
  | None => ((prices ++ [price])%list, length prices)
  end.

Definition SetPrice (oracle : AccAddress) (assetCode : string) (askPrice bidPrice : Int) (receivedAt : Z) : M PostedPrice :=
  keeper_method modulePerms PermWrite (
    checkPriceReceivedAtTimestamp receivedAt;;
    height ← BlockHeight;
    prices ← GetRawPrices assetCode height;
    let r := put_price prices (MkPostedPrice assetCode oracle askPrice bidPrice receivedAt) in
    kv_Set StoreKey (GetRawPricesKey assetCode height) (Marshal Bare r.1);;
    lift (at_index r.1 r.2)).

Definition ValidatePostPrice (msg : MsgPostPrice) : M unit :=
  found ← GetAsset (mpp_AssetCode msg);
  match found with
  | None => throw ErrInvalidAsset
  | Some _ =>
      r ← attempt (GetOracle (mpp_AssetCode msg) (mpp_From msg));
      match r with Ok _ => mret tt | _ => throw ErrInvalidOracle end
  end.

(** ** Current prices *)
Definition GetCurrentPrice (assetCode : string) : M CurrentPrice :=
  keeper_method modulePerms PermRead (
    bz ← kv_Get StoreKey (GetCurrentPriceKey assetCode); MustUnmarshal Bare (default "" bz)).
Definition GetCurrentPricesList : M (list CurrentPrice) :=
  keeper_method modulePerms PermRead (
    kvs ← kv_PrefixIterator StoreKey GetCurrentPricePrefix;
    mapM_ (λ kv : string * string,
      match Unmarshal Bare kv.2 with Some cPrice => mret cPrice | None => throw (Plain "order unmarshal") end) kvs).
Definition addCurrentPrice (currentPrice : CurrentPrice) : M unit :=
  keeper_method modulePerms PermWrite (
    kv_Set StoreKey (GetCurrentPriceKey (cp_AssetCode currentPrice)) (Marshal Bare currentPrice)).

Definition store_vm_price (price : CurrentPrice) : M unit :=
  kv ← lift (NewResPriceStorageValuesPanic (cp_AssetCode price) (cp_AskPrice price));
  SetValue kv.1 kv.2.

Definition SetCurrentPrices_asset (updatesCnt : Z) (v : Asset) : M Z :=
  let assetCode := as_AssetCode v in
  height ← BlockHeight;
  rawPrices ← GetRawPrices assetCode height;
  blockTime ← BlockTime;
  median ← lift (medians blockTime rawPrices);
  let '(medianAskPrice, medianBidPrice, medianReceivedAt) := median in
  if (medianAskPrice =? 0) || (medianBidPrice =? 0) then mret updatesCnt
  else
    oldPrice ← GetCurrentPrice assetCode;
    if negb (bool_decide (cp_AssetCode oldPrice = "")) && (cp_AskPrice oldPrice =? medianAskPrice) &&
       (cp_BidPrice oldPrice =? medianBidPrice) then mret updatesCnt
    else
      let newPrice := MkCurrentPrice assetCode medianAskPrice medianBidPrice medianReceivedAt in
      addCurrentPrice newPrice;;
      store_vm_price newPrice;;
      newPriceReversed ← lift (GetReversedAssetCurrentPrice newPrice);
      store_vm_price newPriceReversed;;
      EmitEvent (NewPriceEvent newPrice);;
      mret (updatesCnt + 1).

Fixpoint SetCurrentPrices_loop (updatesCnt : Z) (assets : list Asset) : M Z :=
  match assets with
  | [] => mret updatesCnt
  | v :: assets' => n ← SetCurrentPrices_asset updatesCnt v; SetCurrentPrices_loop n assets'
  end.

Definition SetCurrentPrices : M unit :=
  keeper_method modulePerms PermWrite (
    assets ← GetAssetParams;
    updatesCnt ← SetCurrentPrices_loop 0 assets;
    if 0 <? updatesCnt then EmitEvent (NewModuleNameEvent ModuleName) else mret tt).

(** An error of [SetCurrentPrices] would be a panic. *)
Definition EndBlocker : M unit :=
  in_module ModuleName (
    r ← attempt SetCurrentPrices;
    match r with Ok _ => mret tt | _ => panic end).

(** ** Handlers *)
Definition result : M Result := events ← Events; mret (MkResult "" events).
(** [sdkErrors.Wrap(ErrInternal, err.Error())]. *)
Definition internal (m : M unit) : M unit :=
  r ← attempt m; match r with Ok _ => mret tt | _ => throw ErrInternal end.

Definition handleMsgPostPrice (msg : MsgPostPrice) : M Result :=
  ValidatePostPrice msg;;
  r ← attempt (GetOracle (mpp_AssetCode msg) (mpp_From msg));
  match r with
  | Ok _ => SetPrice (mpp_From msg) (mpp_AssetCode msg) (mpp_AskPrice msg) (mpp_BidPrice msg) (mpp_ReceivedAt msg);; result
  | _ => throw ErrInvalidOracle
  end.
Definition handleMsgAddOracle (msg : MsgAddOracle) : M Result :=
  lift (MsgAddOracle_ValidateBasic msg);;
  r ← attempt (GetOracle (mao_AssetCode msg) (mao_Oracle msg));
  match r with
  | Ok _ => throw ErrInvalidOracle
  | _ => internal (AddOracle (AccAddress_String (mao_Nominee msg)) (mao_AssetCode msg) (mao_Oracle msg));; result
  end.
Definition handleMsgSetOracles (msg : MsgSetOracles) : M Result :=
  lift (MsgSetOracles_ValidateBasic msg);;
  found ← GetAsset (mso_AssetCode msg);
  match found with
  | None => throw ErrInvalidAsset
  | Some _ => internal (SetOracles (AccAddress_String (mso_Nominee msg)) (mso_AssetCode msg) (mso_Oracles msg));; result
  end.
Definition handleMsgSetAsset (msg : MsgSetAsset) : M Result :=
  lift (MsgSetAsset_ValidateBasic msg);;
  found ← GetAsset (as_AssetCode (msa_Asset msg));
  match found with
  | None => throw ErrInvalidAsset
  | Some _ =>
      internal (SetAsset (AccAddress_String (msa_Nominee msg)) (msa_Asset msg));;
      EmitEvent (NewAssetAddedEvent (msa_Asset msg));;
      EmitEvent (NewModuleNameEvent ModuleName);;
      result
  end.
Definition handleMsgAddAsset (msg : MsgAddAsset) : M Result :=
  lift (MsgAddAsset_ValidateBasic msg);;
  found ← GetAsset (as_AssetCode (maa_Asset msg));
  match found with
  | Some _ => throw ErrExistingAsset
  | None => internal (AddAsset (AccAddress_String (maa_Nominee msg)) (maa_Asset msg));; result
  end.
Definition NewHandler (msg : Msg) : M Result :=
  in_module ModuleName (WithEventManager
    match msg with
    | Msg_PostPrice msg => handleMsgPostPrice msg
    | Msg_AddOracle msg => handleMsgAddOracle msg
    | Msg_SetOracles msg => handleMsgSetOracles msg
    | Msg_SetAsset msg => handleMsgSetAsset msg
    | Msg_AddAsset msg => handleMsgAddAsset msg
    | Msg_other => throw ErrUnknownRequest
    end).

(** ** Genesis *)
Definition InitGenesis (state : GenesisState) : M unit :=
  keeper_method modulePerms PermInit (
    blockTime ← BlockTime;
    match GenesisState_Validate state blockTime with
    | Ok _ =>
        SetParams (gs_Params state);;
        forM (gs_CurrentPrices state) (λ cPrice,
          found ← GetAsset (cp_AssetCode cPrice);
          if bool_decide (is_Some found) then addCurrentPrice cPrice else panic)
    | _ => panic
    end).
Definition ExportGenesis : M GenesisState :=
  keeper_method modulePerms PermRead (
    r ← attempt GetCurrentPricesList;
    match r with
    | Ok currentPrices => params ← GetParams; mret (MkGenesisState params currentPrices)
    | _ => panic
    end).

(** ** Queries *)
Record CurrentAssetPrice := MkCurrentAssetPrice { cap_AssetCode : string; cap_Price : Int; cap_ReceivedAt : Z }.
Context `{CQ : !Codec CurrentAssetPrice}.

Definition queryCurrentPrice (path : list string) : M string :=
  match path with
  | [] => panic
  | assetCode :: _ =>
      found ← GetAsset assetCode;
      r ← (if bool_decide (is_Some found) then mret (assetCode, false)
           else
             reversedAssetCode ← lift (AssetCode_ReverseCode assetCode);
             found ← GetAsset reversedAssetCode;
             if bool_decide (is_Some found) then mret (reversedAssetCode, true) else throw ErrUnknownRequest);
      currentPrice ← GetCurrentPrice r.1;
      currentPrice ← (if r.2 && negb (bool_decide (cp_AssetCode currentPrice = ""))
                      then lift (GetReversedAssetCurrentPrice currentPrice) else mret currentPrice);
      mret (Marshal JSON (MkCurrentAssetPrice (cp_AssetCode currentPrice) (cp_AskPrice currentPrice) (cp_ReceivedAt currentPrice)))
  end.
Definition queryRawPrices (path : list string) : M string :=
  match path with
  | [] => panic
  | assetCode :: path' =>
      found ← GetAsset assetCode;
      if bool_decide (is_Some found) then
        match path' with
        | [] => panic
        | h :: _ =>
            match ParseInt h with
            | None => throw ErrUnknownRequest
            | Some blockHeight => priceList ← GetRawPrices assetCode blockHeight; mret (Marshal JSON priceList)
            end
        end
      else throw ErrUnknownRequest
  end.
Definition queryAssets : M string := assets ← GetAssetParams; mret (Marshal JSON assets).
Definition NewQuerier (path : list string) : M string :=
  in_module ModuleName
    match path with
    | [] => panic
    | p :: path' =>
        if decide (p = "price") then queryCurrentPrice path'
        else if decide (p = "rawprices") then queryRawPrices path'
        else if decide (p = "assets") then queryAssets
        else throw ErrUnknownRequest
    end.
End keeper.

Definition NewKeeper (permsRequesters : list RequestModulePermissions) : outcome ModulePermissions :=
  foldM AutoAddRequester NewModulePerms permsRequesters.
End oracle.
