(* ===== verification/OracleFacts.v ===== *)
(** * Oracle: medians and reversed prices

    The medians computed from the sorted posts are those of a reference definition,
    whatever order the sort leaves equal prices in; they lie where the majority of the
    posts lies.  The reversed price is the reciprocal up to two units of its last
    place.  The state is parameters and maps of posts. *)
From Stdlib Require Import QArith Qround Qfield Lqa.
From S2P Require Import Prelude Bytes Sdk SdkRef SdkFacts DnTypes Perms Chain VMStorage CCStorage Oracle.
Local Open Scope Z_scope.
Import oracle.

(** ** The reference median: of the sorted list *)
Definition sorted_list (xs : list Z) : list Z := merge_sort Z.le xs.
Definition median_of (xs : list Z) : Z :=
  let s := sorted_list xs in
  let l := length xs in
  if (l mod 2 =? 0)%nat then Z.quot (nth (l / 2 - 1) s 0 + nth (l / 2) s 0) 2 else nth (l / 2) s 0.

Lemma sorted_list_perm xs : sorted_list xs ≡ₚ xs.
Proof. apply merge_sort_Permutation. Qed.
Lemma sorted_list_sorted xs : StronglySorted Z.le (sorted_list xs).
Proof. apply (StronglySorted_merge_sort Z.le). Qed.
Lemma length_sorted_list xs : length (sorted_list xs) = length xs.
Proof. by rw sorted_list_perm. Qed.

(** Sorting by a key and projecting is sorting the keys. *)
Lemma sort_by_key `{GoSortLaws} {A} (key : A → Z) (l : list A) :
  key <$> sort_Sort (λ a b, key a <? key b) l = sorted_list (key <$> l).
Proof.
  assert (weak_order (λ a b : A, key a <? key b)) as Hw.
  { split; intros *; rewrite ?Z.ltb_lt ?Z.ltb_ge; lia. }
  apply (StronglySorted_unique Z.le).
  - pose proof (sort_Sort_sorted A _ l Hw) as Hs. induction Hs as [|x s Hs IH Hx]; [constructor|]. rw fmap_cons. constructor; [done|].
    apply Forall_fmap. eapply Forall_impl; [exact Hx|]. intros y Hy%Z.ltb_ge. done.
  - apply sorted_list_sorted.
  - rw sorted_list_perm. by rw sort_Sort_perm.
Qed.

Section medians.
Context `{SdkTypesLaws} `{SdkIntsLaws} `{GoSortLaws}.
Implicit Types (ps : list PostedPrice).

Lemma at_index_key (key : PostedPrice → Z) ps i :
  (i < length ps)%nat → ∃ p, at_index (sort_Sort (λ a b, key a <? key b) ps) i = Ok p ∧ p ∈ ps ∧
    key p = nth i (sorted_list (key <$> ps)) 0.
Proof.
  intros Hi. assert (i < length (sort_Sort (λ a b, (key a <? key b)%Z) ps))%nat as Hi' by (by rw sort_Sort_perm).
  apply lookup_lt_is_Some in Hi' as [p Hp]. exists p. unfold at_index. rw Hp. split; [done|]. split.
  - rw -(sort_Sort_perm PostedPrice (λ a b, key a <? key b) ps). by eapply list_elem_of_lookup_2.
  - symmetry. apply nth_lookup_Some. rw -(sort_by_key key). by rw list_lookup_fmap Hp.
Qed.

Lemma ask_at ps i : (i < length ps)%nat → ∃ p, at_index (sort_Sort ask_less ps) i = Ok p ∧ p ∈ ps ∧
  po_AskPrice p = nth i (sorted_list (po_AskPrice <$> ps)) 0.
Proof. apply (at_index_key po_AskPrice). Qed.
Lemma bid_at ps i : (i < length ps)%nat → ∃ p, at_index (sort_Sort bid_less ps) i = Ok p ∧ p ∈ ps ∧
  po_BidPrice p = nth i (sorted_list (po_BidPrice <$> ps)) 0.
Proof. apply (at_index_key po_BidPrice). Qed.

(** Posts within the limits of a post: 64 bits. *)
Definition price_ok (z : Z) : Prop := 0 ≤ z < 2 ^ 64.
Definition post_ok (p : PostedPrice) : Prop := price_ok (po_AskPrice p) ∧ price_ok (po_BidPrice p).

(** When the price of the middle post is taken, so is the time of that post. *)
Definition median_time (blockTime : Z) ps (t : Z) : Prop :=
  if (length ps mod 2 =? 0)%nat then t = blockTime
  else ∃ p, p ∈ ps ∧ t = po_ReceivedAt p ∧ po_AskPrice p = median_of (po_AskPrice <$> ps).

Lemma medians_even blockTime ps : ps ≠ [] → Forall post_ok ps → (length ps mod 2 =? 0)%nat = true →
  medians blockTime ps = Ok (median_of (po_AskPrice <$> ps), median_of (po_BidPrice <$> ps), blockTime).
Proof.
  intros Hne Hok Heven. pose proof (Nat.div_mod_eq (length ps) 2) as Hdiv. apply Nat.eqb_eq in Heven as Heven'. unfold medians.
  destruct (length ps =? 0)%nat eqn:E0; [apply Nat.eqb_eq in E0; by destruct ps|]. apply Nat.eqb_neq in E0.
  destruct (length ps =? 1)%nat eqn:E1; [apply Nat.eqb_eq in E1; by rw E1 in Heven|]. rw Heven.
  assert (length ps / 2 - 1 < length ps)%nat as Hi1 by lia. assert (length ps / 2 < length ps)%nat as Hi2 by lia.
  destruct (ask_at ps _ Hi1) as (a1 & -> & Ha1 & Ea1), (ask_at ps _ Hi2) as (a2 & -> & Ha2 & Ea2).
  destruct (bid_at ps _ Hi1) as (b1 & -> & Hb1 & Eb1), (bid_at ps _ Hi2) as (b2 & -> & Hb2 & Eb2).
  rewrite Forall_forall in Hok.
  destruct (Hok _ Ha1) as [A1 _], (Hok _ Ha2) as [A2 _], (Hok _ Hb1) as [_ B1], (Hok _ Hb2) as [_ B2]. unfold price_ok in *.
  assert (2 ^ 65 < maxInt) by done. rw !outcome_bind_ok. rw Int_Add_ok; [|lia]. rw !outcome_bind_ok. rw Int_Add_ok; [|lia].
  rw !outcome_bind_ok !Int_Quo_ok; [|done..]. rw !outcome_bind_ok. unfold median_of. by rw !length_fmap Heven Ea1 Ea2 Eb1 Eb2.
Qed.

Lemma medians_spec blockTime ps : ps ≠ [] → Forall post_ok ps →
  ∃ t, medians blockTime ps = Ok (median_of (po_AskPrice <$> ps), median_of (po_BidPrice <$> ps), t) ∧ median_time blockTime ps t.
Proof.
  intros Hne Hok. unfold median_time. destruct (length ps mod 2 =? 0)%nat eqn:Heven.
  { exists blockTime. split; [by apply medians_even|done]. }
  destruct (decide (length ps = 1%nat)) as [E1|Hne1].
  { destruct ps as [|p [|? ?]]; try done. exists (po_ReceivedAt p). split; [done|]. exists p. split; [left|done]. }
  pose proof (Nat.div_mod_eq (length ps) 2) as Hdiv. pose proof (Nat.mod_upper_bound (length ps) 2 ltac:(lia)).
  assert (length ps ≠ 0)%nat by (by destruct ps). assert (length ps / 2 < length ps)%nat as Hi by lia.
  destruct (ask_at ps _ Hi) as (a & Ea & Ha & Ka), (bid_at ps _ Hi) as (b & Eb & Hb & Kb).
  exists (po_ReceivedAt a). unfold medians, median_of. rw !length_fmap Heven -Ka -Kb.
  rw (proj2 (Nat.eqb_neq _ _)); [|done]. rw (proj2 (Nat.eqb_neq (length ps) 1)); [|done].
  rw Ea Eb. split; [done|]. by exists a.
Qed.
End medians.

(** ** Where the majority is, the median is *)
Definition within (lo hi x : Z) : Prop := lo ≤ x ≤ hi.
#[export] Instance within_dec lo hi x : Decision (within lo hi x).
Proof. unfold within. apply _. Defined.
Definition count_within (lo hi : Z) (xs : list Z) : nat := length (filter (within lo hi) xs).

Lemma count_within_perm lo hi xs ys : xs ≡ₚ ys → count_within lo hi xs = count_within lo hi ys.
Proof. intros Hp. unfold count_within. by rw Hp. Qed.

Lemma count_within_split lo hi s k : count_within lo hi s = (count_within lo hi (take k s) + count_within lo hi (drop k s))%nat.
Proof. unfold count_within. by rw -{1}(take_drop k s) filter_app length_app. Qed.

Lemma count_within_le lo hi s : (count_within lo hi s ≤ length s)%nat.
Proof. apply length_filter. Qed.

Lemma sorted_nth_le s i j : StronglySorted Z.le s → (i ≤ j < length s)%nat → nth i s 0 ≤ nth j s 0.
Proof.
  intros Hs. revert i j. induction Hs as [|x s Hs IH Hx]; intros i j [Hij Hj]; simpl in Hj; [lia|].
  destruct i as [|i], j as [|j]; simpl; try lia.
  - rewrite Forall_forall in Hx. apply Hx. apply list_elem_of_In, nth_In. lia.
  - apply IH. lia.
Qed.

(** Everything before a small element, or after a large one, is outside. *)
Lemma nth_below lo hi s k : StronglySorted Z.le s → (k < length s)%nat → nth k s 0 < lo → (count_within lo hi s ≤ length s - S k)%nat.
Proof.
  intros Hs Hk Hlt. rw (count_within_split lo hi s (S k)). assert (count_within lo hi (take (S k) s) = 0)%nat as ->.
  { unfold count_within. rw filter_none; [done|]. intros x (i & Hi)%list_elem_of_lookup_1 [Hlo _].
    apply lookup_take_Some in Hi as [Hi Hik]. apply (nth_lookup_Some _ _ 0) in Hi. pose proof (sorted_nth_le s i k Hs ltac:(lia)). lia. }
  pose proof (count_within_le lo hi (drop (S k) s)) as Hl. rw length_drop in Hl. lia.
Qed.
Lemma nth_above lo hi s k : StronglySorted Z.le s → (k < length s)%nat → hi < nth k s 0 → (count_within lo hi s ≤ k)%nat.
Proof.
  intros Hs Hk Hlt. rw (count_within_split lo hi s k). assert (count_within lo hi (drop k s) = 0)%nat as ->.
  { unfold count_within. rw filter_none; [done|]. intros x (i & Hi)%list_elem_of_lookup_1 [_ Hhi].
    rw lookup_drop in Hi. pose proof (lookup_lt_Some _ _ _ Hi). apply (nth_lookup_Some _ _ 0) in Hi. pose proof (sorted_nth_le s k (k + i) Hs ltac:(lia)). lia. }
  pose proof (count_within_le lo hi (take k s)) as Hl. rw length_take in Hl. lia.
Qed.

Lemma median_majority lo hi xs : (length xs < 2 * count_within lo hi xs)%nat → lo ≤ median_of xs ≤ hi.
Proof.
  intros Hmaj. pose proof (sorted_list_sorted xs) as Hs. pose proof (length_sorted_list xs) as Hl.
  rw -(count_within_perm lo hi _ _ (sorted_list_perm xs)) in Hmaj. pose proof (Nat.div_mod_eq (length xs) 2) as Hdiv.
  pose proof (Nat.mod_upper_bound (length xs) 2 ltac:(lia)). pose proof (count_within_le lo hi (sorted_list xs)) as Hle. rw Hl in Hle.
  assert (∀ k, k = (length xs / 2)%nat ∨ (length xs mod 2 = 0 ∧ k = length xs / 2 - 1)%nat → lo ≤ nth k (sorted_list xs) 0 ≤ hi) as Hin.
  { intros k Hk. assert (k < length (sorted_list xs))%nat as Hk' by lia. split.
    - destruct (Z.le_gt_cases lo (nth k (sorted_list xs) 0)) as [|Hlt]; [done|]. pose proof (nth_below lo hi _ k Hs Hk' Hlt). lia.
    - destruct (Z.le_gt_cases (nth k (sorted_list xs) 0) hi) as [|Hlt]; [done|]. pose proof (nth_above lo hi _ k Hs Hk' Hlt). lia. }
  unfold median_of. destruct (length xs mod 2 =? 0)%nat eqn:E; [apply Nat.eqb_eq in E|by apply Hin; left].
  pose proof (Hin _ (or_introl eq_refl)). pose proof (Hin _ (or_intror (conj E eq_refl))). split.
  - rw -(Z.quot_mul lo 2); [|done]. apply Z.quot_le_mono; lia.
  - rw -(Z.quot_mul hi 2); [|done]. apply Z.quot_le_mono; lia.
Qed.

(** ** The reversed price *)
Section reversed.
Context `{SdkTypesLaws} `{DecimalLaws}.
Local Open Scope Q_scope.

(** What rounding the reciprocal, scaling it and dropping the fraction leave. *)
Lemma reciprocal_bounds (P x v : Q) (r : Z) : 0 < P → v == x * inject_Z (10 ^ 8) → inject_Z r <= v → v < inject_Z (r + 1) →
  - (1 # 2) <= (x - 1 / (P / inject_Z (10 ^ 8))) * inject_Z (10 ^ 16) <= 1 # 2 →
  inject_Z (10 ^ 16) - inject_Z 2 * P < inject_Z r * P /\ inject_Z r * P <= inject_Z (10 ^ 16) + P.
Proof.
  intros HP Hv Hr1 Hr2 [Hd1 Hd2]. rewrite inject_Z_plus in Hr2.
  assert (1 / (P / inject_Z (10 ^ 8)) * P == inject_Z (10 ^ 8)) as Hrec by (field; split; [discriminate|lra]).
  apply (Qmult_le_compat_r _ _ P) in Hd1, Hd2; [|lra..]. set (y := 1 / (P / inject_Z (10 ^ 8))) in *.
  change (inject_Z (10 ^ 16)) with (10000000000000000 # 1) in *. change (inject_Z (10 ^ 8)) with (100000000 # 1) in *.
  change (inject_Z 1) with (1 # 1) in *. change (inject_Z 2) with (2 # 1) in *.
  assert ((x - y) * (10000000000000000 # 1) * P == (x * P - y * P) * (10000000000000000 # 1)) as E by ring.
  rewrite E Hrec in Hd1. rewrite E Hrec in Hd2.
  assert (v * P == x * P * (100000000 # 1)) as Evp by (rewrite Hv; ring).
  apply (Qmult_le_compat_r _ _ P) in Hr1; [|lra]. assert (v * P < (inject_Z r + (1 # 1)) * P) as Hr2' by (apply Qmult_lt_compat_r; lra).
  split; lra.
Qed.

Lemma reciprocal_pos (P x : Q) : 0 < P → P <= inject_Z (2 ^ 64) →
  - (1 # 2) <= (x - 1 / (P / inject_Z (10 ^ 8))) * inject_Z (10 ^ 16) → 0 <= x.
Proof.
  intros HP Hle Hd. assert (1 / (P / inject_Z (10 ^ 8)) * P == inject_Z (10 ^ 8)) as Hrec by (field; split; [discriminate|lra]).
  apply (Qmult_le_compat_r _ _ P) in Hd; [|lra]. set (y := 1 / (P / inject_Z (10 ^ 8))) in *.
  change (inject_Z (10 ^ 16)) with (10000000000000000 # 1) in *. change (inject_Z (10 ^ 8)) with (100000000 # 1) in *.
  change (inject_Z (2 ^ 64)) with (18446744073709551616 # 1) in *.
  assert ((x - y) * (10000000000000000 # 1) * P == (x * P - y * P) * (10000000000000000 # 1)) as E by ring.
  rewrite E Hrec in Hd. assert (0 <= x * P) as Hx by lra.
  destruct (Qlt_le_dec x 0) as [Hneg|]; [|done]. exfalso. assert (x * P < 0 * P) by (by apply Qmult_lt_compat_r). lra.
Qed.

Lemma reverseInt_ok p : (0 < p < 2 ^ 64)%Z →
  ∃ r, reverseInt p = Ok r ∧ (0 ≤ r ∧ 10 ^ 16 - 2 * p < r * p ≤ 10 ^ 16 + p)%Z.
Proof.
  intros [Hp Hlt]. unfold reverseInt. set (decP := decimal_NewFromBigInt p (- PricePrecision)).
  assert (0 < inject_Z p) as HP by (change 0 with (inject_Z 0); by rewrite -Zlt_Qlt).
  assert (d_val decP == inject_Z p / inject_Z (10 ^ 8)) as HdecP by (by apply NewFromBigInt_val).
  assert (¬ d_val decP == 0) as Hne.
  { rewrite HdecP. intros E. assert (inject_Z p == 0) as Ep; [|lra]. rewrite -(Qmult_div_r (inject_Z p) (inject_Z (10 ^ 8))); [|discriminate].
    rewrite E. ring. }
  destruct (Div_val (decimal_NewFromInt 1) decP Hne) as (d & -> & Hd). rw outcome_bind_ok.
  rewrite NewFromInt_val HdecP in Hd. change (inject_Z 1) with 1 in Hd.
  set (m := decimal_Mul d _). assert (d_val m == d_val d * inject_Z (10 ^ 8)) as Hm.
  { unfold m. rewrite Mul_val. by rewrite (Pow_val _ 10 8); [|done|done|apply NewFromInt_val]. }
  assert (0 <= d_val d) as Hpos. { apply (reciprocal_pos (inject_Z p)); [done| |apply Hd]. rewrite -Zle_Qle. lia. }
  assert (0 <= d_val m) as Hmpos. { rewrite Hm. apply Qmult_le_0_compat; [done|discriminate]. }
  rw (BigInt_val m Hmpos). set (r := Qfloor (d_val m)).
  destruct (reciprocal_bounds (inject_Z p) (d_val d) (d_val m) r HP Hm (Qfloor_le _) (Qlt_floor _) Hd) as [Hlo Hhi].
  assert (0 ≤ r)%Z as Hr. { change 0%Z with (Qfloor 0). by apply Qfloor_resp_le. }
  rewrite -!inject_Z_mult in Hlo, Hhi. rewrite -inject_Z_plus -Zle_Qle in Hhi.
  rewrite /Qminus -inject_Z_opp -inject_Z_plus -Zlt_Qlt in Hlo.
  exists r. split; [|lia]. apply NewIntFromBigInt_ok. assert (r ≤ 10 ^ 16 + 1)%Z by nia.
  assert (10 ^ 16 + 1 < maxInt)%Z by done. lia.
Qed.
End reversed.

(** ** Oracle: the state as parameters and maps

    [o_holds] relates the module's store and its parameters to an [ostate]: the
    parameters, the posts of every asset and height, the current prices.  [oracle_spec]
    is what the messages and the end blocker do to it. *)
Local Open Scope string_scope.
Local Open Scope Z_scope.
Local Open Scope list_scope.
Import oracle.

(** ** Keys and asset codes *)
Lemma app_sep_inj (sep : ascii) a b x y : lacks sep x = true → lacks sep y = true →
  a +:+ String sep x = b +:+ String sep y → a = b ∧ x = y.
Proof.
  intros Hx Hy. revert b. induction a as [|d a IH]; intros [|e b] E; simpl in E.
  - by injection E.
  - injection E as -> ->. change (lacks e (b +:+ String e y) = true) in Hx. rw lacks_app in Hx. simpl in Hx. rw Ascii.eqb_refl andb_false_r in Hx. done.
  - injection E as -> <-. rw lacks_app in Hy. simpl in Hy. rw Ascii.eqb_refl andb_false_r in Hy. done.
  - injection E as -> E. destruct (IH b E) as [-> ->]. done.
Qed.

Lemma lacks_FormatInt h : lacks ":" (FormatInt h) = true.
Proof. unfold FormatInt. destruct h as [|p|p]; [done|apply (lacks_pretty (N.pos p))|]. simpl. apply (lacks_pretty (N.pos p)). Qed.
Lemma FormatInt_inj h h' : FormatInt h = FormatInt h' → h = h'.
Proof. apply (inj pretty). Qed.

Lemma GetRawPricesKey_inj a h b h' : GetRawPricesKey a h = GetRawPricesKey b h' → a = b ∧ h = h'.
Proof.
  intros E. apply (string_app_inj_len "oracle:raw:" "oracle:raw:") in E as [_ E]; [|done].
  apply app_sep_inj in E as [-> E%FormatInt_inj]; [done|apply lacks_FormatInt..].
Qed.
Lemma GetCurrentPriceKey_inj a b : GetCurrentPriceKey a = GetCurrentPriceKey b → a = b.
Proof. intros E. by apply (string_app_inj_len "oracle:currentprice:" "oracle:currentprice:") in E as [_ E]. Qed.

(** A valid asset code is two codes around one delimiter. *)
Definition asset_parts (code a b : string) : Prop :=
  code = a +:+ "_" +:+ b ∧ lacks "_" a = true ∧ lacks "_" b = true.

Lemma count_one c s : count_byte c s = 1%nat → ∃ a b, s = a +:+ String c b ∧ lacks c a = true ∧ lacks c b = true.
Proof.
  induction s as [|d s IH]; [done|]. simpl. destruct (Ascii.eqb d c) eqn:E.
  - intros [= Hs]. apply lacks_count in Hs. apply Ascii.eqb_eq in E as ->. by exists "", s.
  - intros Hs. destruct IH as (a & b & -> & Ha & Hb); [done|]. exists (String d a), b. simpl. by rw E.
Qed.

Lemma AssetCode_parts code : AssetCode_Validate code = Ok tt → ∃ a b, asset_parts code a b.
Proof.
  unfold AssetCode_Validate, AssetCodeFilter, stringFilter, run_opts. cbn [foldM]. intros Hv.
  apply outcome_bind_inv in Hv as ([] & Hv & _). apply outcome_bind_inv in Hv as ([] & _ & Hv). apply outcome_bind_inv in Hv as ([] & Hv & _).
  unfold newDelimiterStrFilterOpt in Hv. destruct (starts_with _ code); [done|]. destruct (ends_with _ code); [done|].
  set (n := count_byte AssetCodeDelimiter code) in *. destruct (n =? 0)%nat eqn:E0; [done|]. destruct (1 <? n)%nat eqn:E1; [done|].
  apply Nat.eqb_neq in E0. apply Nat.ltb_ge in E1. destruct (count_one "_" code) as (a & b & Hs); [unfold n, AssetCodeDelimiter in *; lia|].
  by exists a, b.
Qed.
Lemma AssetCode_nonempty code : AssetCode_Validate code = Ok tt → code ≠ "".
Proof. intros Hv ->. done. Qed.

Lemma parts_Split code a b : asset_parts code a b → Split "_" code = [a; b].
Proof.
  intros (-> & Ha & Hb). change (a +:+ "_" +:+ b) with (a +:+ String "_" b). rw Split_app; [|done]. by rw Split_lacks.
Qed.
Definition reversed (a b : string) : string := b +:+ "_" +:+ a.
Lemma parts_reversed code a b : asset_parts code a b → asset_parts (reversed a b) b a.
Proof. intros (_ & Ha & Hb). done. Qed.
Lemma ReverseCode_parts code a b : asset_parts code a b → AssetCode_ReverseCode code = Ok (reversed a b).
Proof. intros Hp. unfold AssetCode_ReverseCode, AssetCodeDelimiter. by rw (parts_Split code a b Hp). Qed.

(** ** The state *)
Record ostate := MkOstate {
  os_params : Params;
  os_raw : gmap (string * Z) (list PostedPrice);
  os_current : gmap string CurrentPrice;
}.
Definition raw_at (st : ostate) (code : string) (h : Z) : list PostedPrice := default [] (os_raw st !! (code, h)).
Definition codes (st : ostate) : list string := as_AssetCode <$> p_Assets (os_params st).

(** *** What types promise: assets have distinct valid codes and an oracle each, an
    oracle has at most one post per asset and height, prices fit 64 bits *)
Definition asset_ok (a : Asset) : Prop := AssetCode_Validate (as_AssetCode a) = Ok tt ∧ as_Oracles a ≠ [].
Record posts_ok (code : string) (ps : list PostedPrice) : Prop := {
  ps_prices : Forall post_ok ps;
  ps_oracles : NoDup (po_OracleAddress <$> ps);
  ps_asset : Forall (λ p, po_AssetCode p = code) ps;
  ps_some : ps ≠ [];
}.
Record current_ok (code : string) (cp : CurrentPrice) : Prop := {
  cu_asset : cp_AssetCode cp = code;
  cu_code : AssetCode_Validate code = Ok tt;
  cu_ask : 0 < cp_AskPrice cp < 2 ^ 64;
  cu_bid : 0 < cp_BidPrice cp < 2 ^ 64;
}.
Record o_inv (st : ostate) : Prop := {
  oi_assets : Forall asset_ok (p_Assets (os_params st));
  oi_distinct : NoDup (codes st);
  oi_posts code h ps : os_raw st !! (code, h) = Some ps → posts_ok code ps;
  oi_current code cp : os_current st !! code = Some cp → current_ok code cp;
}.

(** ** What the operations do *)
Module oracle_spec.
Definition set_assets (st : ostate) (assets : list Asset) : ostate :=
  MkOstate (with_Assets (os_params st) assets) (os_raw st) (os_current st).
Definition set_raw (st : ostate) (code : string) (h : Z) (ps : list PostedPrice) : ostate :=
  MkOstate (os_params st) (<[(code, h) := ps]> (os_raw st)) (os_current st).
Definition set_current (st : ostate) (m : gmap string CurrentPrice) : ostate :=
  MkOstate (os_params st) (os_raw st) m.

Definition asset_of (st : ostate) (code : string) : option Asset := find_asset (p_Assets (os_params st)) code.
Definition is_oracle (a : Asset) (address : AccAddress) : bool := bool_decide (address ∈ or_Address <$> as_Oracles a).
Definition nominee_check `{SdkTypes} (st : ostate) (address : AccAddress) : outcome unit :=
  fail_if (negb (bool_decide (AccAddress_String address ∈ p_Nominees (os_params st)))) ErrInternal.
Definition update (st : ostate) (code : string) (f : Asset → Asset) : ostate :=
  set_assets st (update_assets code f (p_Assets (os_params st))).

(** Posts with a time too far from the block's are refused. *)
Definition too_far (params : PostPriceParams) (blockTime receivedAt : Z) : bool :=
  (0 <? pp_ReceivedAtDiffInS params) &&
  (int64 (pp_ReceivedAtDiffInS params * 10 ^ 9) <? absDuration (Time_Sub blockTime receivedAt)).

Definition post (st : ostate) (h blockTime : Z) (msg : MsgPostPrice) : outcome ostate :=
  match asset_of st (mpp_AssetCode msg) with
  | None => Err ErrInvalidAsset
  | Some a =>
      fail_if (negb (is_oracle a (mpp_From msg))) ErrInvalidOracle;;
      fail_if (too_far (p_PostPrice (os_params st)) blockTime (mpp_ReceivedAt msg)) ErrInvalidReceivedAt;;
      Ok (set_raw st (mpp_AssetCode msg) h (put_price (raw_at st (mpp_AssetCode msg) h)
        (MkPostedPrice (mpp_AssetCode msg) (mpp_From msg) (mpp_AskPrice msg) (mpp_BidPrice msg) (mpp_ReceivedAt msg))).1)
  end.

Section messages.
Context `{SdkTypes}.
Definition add_oracle (st : ostate) (msg : MsgAddOracle) : outcome ostate :=
  MsgAddOracle_ValidateBasic msg;;
  fail_if (match asset_of st (mao_AssetCode msg) with Some a => is_oracle a (mao_Oracle msg) | None => false end) ErrInvalidOracle;;
  nominee_check st (mao_Nominee msg);;
  match asset_of st (mao_AssetCode msg) with
  | None => Err ErrInternal
  | Some _ => Ok (update st (mao_AssetCode msg) (λ a, with_Oracles a (as_Oracles a ++ [NewOracle (mao_Oracle msg)])))
  end.
Definition set_oracles (st : ostate) (msg : MsgSetOracles) : outcome ostate :=
  MsgSetOracles_ValidateBasic msg;;
  match asset_of st (mso_AssetCode msg) with
  | None => Err ErrInvalidAsset
  | Some _ => nominee_check st (mso_Nominee msg);; Ok (update st (mso_AssetCode msg) (λ a, with_Oracles a (mso_Oracles msg)))
  end.
Definition set_asset (st : ostate) (msg : MsgSetAsset) : outcome ostate :=
  MsgSetAsset_ValidateBasic msg;;
  match asset_of st (as_AssetCode (msa_Asset msg)) with
  | None => Err ErrInvalidAsset
  | Some _ => nominee_check st (msa_Nominee msg);; Ok (update st (as_AssetCode (msa_Asset msg)) (λ _, msa_Asset msg))
  end.
Definition add_asset (st : ostate) (msg : MsgAddAsset) : outcome ostate :=
  MsgAddAsset_ValidateBasic msg;;
  match asset_of st (as_AssetCode (maa_Asset msg)) with
  | Some _ => Err ErrExistingAsset
  | None => nominee_check st (maa_Nominee msg);; Ok (set_assets st (p_Assets (os_params st) ++ [maa_Asset msg]))
  end.

Definition step (st : ostate) (h blockTime : Z) (msg : Msg) : outcome ostate :=
  match msg with
  | Msg_PostPrice msg => post st h blockTime msg
  | Msg_AddOracle msg => add_oracle st msg
  | Msg_SetOracles msg => set_oracles st msg
  | Msg_SetAsset msg => set_asset st msg
  | Msg_AddAsset msg => add_asset st msg
  | Msg_other => Err ErrUnknownRequest
  end.
End messages.

(** The price a block makes current for an asset: the medians of its posts, unless
    there are none, one is zero, or they are the current ones. *)
Section block.
Context `{SdkTypes} `{SdkInts} `{GoSort}.
Definition updated (st : ostate) (h blockTime : Z) (code : string) : option CurrentPrice :=
  match medians blockTime (raw_at st code h) with
  | Ok (ask, bid, t) =>
      if (ask =? 0) || (bid =? 0) then None
      else match os_current st !! code with
           | Some old =>
               if (cp_AskPrice old =? ask) && (cp_BidPrice old =? bid) then None else Some (MkCurrentPrice code ask bid t)
           | None => Some (MkCurrentPrice code ask bid t)
           end
  | _ => None
  end.
Definition block_asset (h blockTime : Z) (st : ostate) (code : string) : ostate :=
  match updated st h blockTime code with
  | Some cp => set_current st (<[code := cp]> (os_current st))
  | None => st
  end.
Definition block (st : ostate) (h blockTime : Z) : ostate := foldl (block_asset h blockTime) st (codes st).
End block.
End oracle_spec.

Section facts.
Context `{SdkTypesLaws} `{SI : SdkInts} `{D : Decimal} `{OV : OracleVector} `{LP : !Lcs ResPrice} `{GS : GoSort}.
Context `{KVStoreLaws} `{LG : Ledger}.
Context `{CA : !Codec (list Asset)} `{CN : !Codec (list string)} `{CP : !Codec PostPriceParams}.
Context `{CC : !Codec CurrentPrice} `{CR : !Codec (list PostedPrice)}.
Variable modulePerms : ModulePermissions.
Hypothesis own_perms : mp_name modulePerms = ModuleName.
(** Amino decodes no bytes to the zero value. *)
Hypothesis no_posts : Unmarshal Bare "" = Some ([] : list PostedPrice).
Hypothesis no_current : Unmarshal Bare "" = Some no_price.
Implicit Types (c : Ctx) (st : ostate) (code : string).
Notation self := ModuleName.
Notation oracle_store c := (ctx_stores c StoreKey).
Notation param_space := (params_store DefaultParamspace).

Record o_holds c st : Prop := {
  oh_raw code h : store_Get (oracle_store c) (GetRawPricesKey code h) = Marshal Bare <$> os_raw st !! (code, h);
  oh_current code : store_Get (oracle_store c) (GetCurrentPriceKey code) = Marshal Bare <$> os_current st !! code;
  oh_current_only k v : has_prefix GetCurrentPricePrefix k → store_Get (oracle_store c) k = Some v → ∃ code, k = GetCurrentPriceKey code;
  oh_assets : store_Get (ctx_stores c param_space) KeyAssets = Some (Marshal JSON (p_Assets (os_params st)));
  oh_nominees : store_Get (ctx_stores c param_space) KeyNominees = Some (Marshal JSON (p_Nominees (os_params st)));
  oh_postprice : store_Get (ctx_stores c param_space) KeyPostPrice = Some (Marshal JSON (p_PostPrice (os_params st)));
}.

Definition own_stores : list string := [StoreKey; param_space].

Lemma own_run perm {A} (body : M A) c : keeper_method modulePerms perm body self c = body self c.
Proof. rw -{1 2}own_perms. apply keeper_method_self. Qed.

Lemma o_holds_stores c c' st : oracle_store c' = oracle_store c → ctx_stores c' param_space = ctx_stores c param_space →
  o_holds c st → o_holds c' st.
Proof. intros E1 E2 []. by split; rewrite ?E1 ?E2. Qed.

(** *** Reading *)
Lemma param_read {A} `{Codec A} key (x : A) c : store_Get (ctx_stores c param_space) key = Some (Marshal JSON x) →
  param_Get DefaultParamspace key self c = (Ok x, c).
Proof. intros Hx. unfold param_Get, mbind, M_bind, kv_Get. rw Hx. unfold MustUnmarshal. by rw Unmarshal_Marshal. Qed.

Lemma GetAssetParams_run c st : o_holds c st → GetAssetParams modulePerms self c = (Ok (p_Assets (os_params st)), c).
Proof. intros Hs. unfold GetAssetParams. rw own_run. apply param_read, Hs. Qed.
Lemma GetNomineeParams_run c st : o_holds c st → GetNomineeParams modulePerms self c = (Ok (p_Nominees (os_params st)), c).
Proof. intros Hs. unfold GetNomineeParams. rw own_run. apply param_read, Hs. Qed.
Lemma GetPostPriceParams_run c st : o_holds c st → GetPostPriceParams modulePerms self c = (Ok (p_PostPrice (os_params st)), c).
Proof. intros Hs. unfold GetPostPriceParams. rw own_run. apply param_read, Hs. Qed.
Lemma GetParams_run c st : o_holds c st → GetParams modulePerms self c = (Ok (os_params st), c).
Proof.
  intros Hs. unfold GetParams. rw own_run (M_bind_Ok _ _ _ _ _ _ (GetAssetParams_run c st Hs)) (M_bind_Ok _ _ _ _ _ _ (GetNomineeParams_run c st Hs)).
  rw (M_bind_Ok _ _ _ _ _ _ (GetPostPriceParams_run c st Hs)). by destruct (os_params st).
Qed.

Lemma IsNominee_run c st address : o_holds c st →
  IsNominee modulePerms address self c =
    (fail_if (negb (bool_decide (address ∈ p_Nominees (os_params st)))) (Plain "is not a nominee"), c).
Proof.
  intros Hs. unfold IsNominee. rw own_run (M_bind_Ok _ _ _ _ _ _ (GetParams_run c st Hs)). by destruct (bool_decide _).
Qed.

Lemma GetAsset_run c st code : o_holds c st → GetAsset modulePerms code self c = (Ok (oracle_spec.asset_of st code), c).
Proof. intros Hs. unfold GetAsset. by rw own_run (M_bind_Ok _ _ _ _ _ _ (GetAssetParams_run c st Hs)). Qed.

Lemma GetOracle_run c st code address : o_holds c st →
  match oracle_spec.asset_of st code with
  | Some a => if oracle_spec.is_oracle a address then GetOracle modulePerms code address self c = (Ok (MkOracle address), c)
              else ∃ e, GetOracle modulePerms code address self c = (Err e, c)
  | None => ∃ e, GetOracle modulePerms code address self c = (Err e, c)
  end.
Proof.
  intros Hs. unfold GetOracle. rw own_run. unfold oracle_spec.asset_of. destruct (find_asset _ code) as [a|] eqn:E.
  - assert (GetOracles modulePerms code self c = (Ok (as_Oracles a), c)) as Ho.
    { unfold GetOracles. by rw own_run (M_bind_Ok _ _ _ _ _ _ (GetAssetParams_run c st Hs)) E. }
    rw (M_bind_Ok _ _ _ _ _ _ Ho). unfold oracle_spec.is_oracle. case_bool_decide as Hin.
    + apply list_elem_of_fmap in Hin as (o & -> & Ho'). destruct (list_find_elem_of (λ o', or_Address o = or_Address o') (as_Oracles a) o) as [[i o'] Hf]; [done|done|].
      rw Hf. apply list_find_Some in Hf as (_ & Heq & _). rw Heq. by destruct o'.
    + rw (proj2 (list_find_None _ _)); [by eexists|]. apply Forall_forall. intros o Ho' ->. apply Hin. by apply list_elem_of_fmap_2.
  - assert (∃ e, GetOracles modulePerms code self c = (Err e, c)) as [e He].
    { unfold GetOracles. rw own_run (M_bind_Ok _ _ _ _ _ _ (GetAssetParams_run c st Hs)) E. by eexists. }
    exists e. by apply M_bind_Err.
Qed.

Lemma GetRawPrices_run c st code h : o_holds c st → GetRawPrices modulePerms code h self c = (Ok (raw_at st code h), c).
Proof.
  intros Hs. unfold GetRawPrices. rw own_run. unfold mbind, M_bind, kv_Get. rw (oh_raw _ _ Hs). unfold raw_at, MustUnmarshal.
  destruct (os_raw st !! (code, h)) as [ps|]; simpl; [by rw Unmarshal_Marshal|by rw no_posts].
Qed.

Lemma GetCurrentPrice_run c st code : o_holds c st → GetCurrentPrice modulePerms code self c = (Ok (default no_price (os_current st !! code)), c).
Proof.
  intros Hs. unfold GetCurrentPrice. rw own_run. unfold mbind, M_bind, kv_Get. rw (oh_current _ _ Hs). unfold MustUnmarshal.
  destruct (os_current st !! code) as [cp|]; simpl; [by rw Unmarshal_Marshal|by rw no_current].
Qed.

(** *** Writing *)
Lemma holds_set_raw c st code h ps : o_holds c st →
  o_holds (set_store c StoreKey (store_Set (oracle_store c) (GetRawPricesKey code h) (Marshal Bare ps))) (oracle_spec.set_raw st code h ps).
Proof.
  intros [Hraw Hcur Honly Ha Hn Hp]. split; simpl; try done.
  - intros code' h'. destruct (decide ((code, h) = (code', h'))) as [E|Hne].
    + injection E as <- <-. by rw store_Get_Set_eq lookup_insert_eq.
    + rw store_Get_Set_ne; [|by intros [-> ->]%GetRawPricesKey_inj]. by rw lookup_insert_ne.
  - intros code'. rw store_Get_Set_ne; [|intros E; discriminate E]. done.
  - intros k v Hk. rw store_Get_Set_ne; [by apply Honly|]. intros <-. destruct Hk as [t E]. discriminate E.
Qed.

Lemma holds_add_current c st cp : o_holds c st →
  o_holds (set_store c StoreKey (store_Set (oracle_store c) (GetCurrentPriceKey (cp_AssetCode cp)) (Marshal Bare cp)))
    (oracle_spec.set_current st (<[cp_AssetCode cp := cp]> (os_current st))).
Proof.
  intros [Hraw Hcur Honly Ha Hn Hp]. split; simpl; try done.
  - intros code' h'. rw store_Get_Set_ne; [|intros E; discriminate E]. done.
  - intros code'. destruct (decide (cp_AssetCode cp = code')) as [<-|Hne]; [by rw store_Get_Set_eq lookup_insert_eq|].
    rw store_Get_Set_ne; [|by intros E%GetCurrentPriceKey_inj]. by rw lookup_insert_ne.
  - intros k v Hk. destruct (decide (GetCurrentPriceKey (cp_AssetCode cp) = k)) as [<-|Hne]; [by eexists|].
    rw store_Get_Set_ne; [by apply Honly|done].
Qed.

Lemma SetParams_run c st p : o_holds c st →
  ∃ c', SetParams modulePerms p self c = (Ok tt, c') ∧ o_holds c' (MkOstate p (os_raw st) (os_current st)) ∧
    frame own_stores c c' ∧ ctx_bank c' = ctx_bank c ∧ ctx_events c' = ctx_events c.
Proof.
  intros [Hraw Hcur Honly Ha Hn Hp]. eexists. split; [unfold SetParams; rw own_run; reflexivity|].
  split; [|split; [|done]].
  - split; simpl; try done.
    + do 2 (rw store_Get_Set_ne; [|done]). by rw store_Get_Set_eq.
    + rw store_Get_Set_ne; [|done]. by rw store_Get_Set_eq.
    + by rw store_Get_Set_eq.
  - split; [|done]. intros k Hk. simpl. rw !decide_False; [done|..]; intros ->; apply Hk; right; left.
Qed.
End facts.
