(* ===== verification/OracleTheorems.v ===== *)
(** * Oracle: messages

    What a message does to parameters and posts, as relations on lists and maps
    ([accepts], [refuses]); the operations and the handler do that, errors change
    nothing, and the types' promises are kept. *)
From S2P Require Import Prelude Bytes Sdk SdkRef SdkFacts DnTypes Perms Chain VMStorage CCStorage Oracle OracleFacts.
Local Open Scope string_scope.
Local Open Scope Z_scope.
Local Open Scope list_scope.
Import oracle.

(** ** Assets in a list *)
Lemma find_asset_Some l code a : find_asset l code = Some a → a ∈ l ∧ as_AssetCode a = code.
Proof.
  unfold find_asset. destruct (list_find _ l) as [[i a']|] eqn:E; [|done]. intros [= <-].
  apply list_find_Some in E as (Hi & Hc & _). split; [|done]. by eapply list_elem_of_lookup_2.
Qed.
Lemma find_asset_None l code : find_asset l code = None ↔ code ∉ as_AssetCode <$> l.
Proof.
  unfold find_asset. rw fmap_None list_find_None Forall_forall. split.
  - intros Hn (a & -> & Ha)%list_elem_of_fmap. by apply (Hn a).
  - intros Hn a Ha <-. apply Hn. by apply list_elem_of_fmap_2.
Qed.

Lemma update_assets_codes code f l : (∀ a, as_AssetCode a = code → as_AssetCode (f a) = code) →
  as_AssetCode <$> update_assets code f l = as_AssetCode <$> l.
Proof.
  intros Hf. unfold update_assets. rw -list_fmap_compose. apply list_fmap_ext. intros i a _. simpl. case_decide as E; [|done].
  rewrite -E. by apply Hf.
Qed.

(** ** Posts *)
Lemma put_price_at ps p : at_index (put_price ps p).1 (put_price ps p).2 = Ok p.
Proof.
  unfold put_price, at_index. destruct (list_find _ ps) as [[i q]|] eqn:E; simpl.
  - apply list_find_Some in E as (Hi & _ & _). rw list_lookup_insert_eq; [done|by eapply lookup_lt_Some].
  - by rw list_lookup_middle.
Qed.

Lemma put_price_ok code ps p : ps = [] ∨ posts_ok code ps → post_ok p → po_AssetCode p = code → posts_ok code (put_price ps p).1.
Proof.
  intros Hps Hp Hc. assert (Forall post_ok ps ∧ NoDup (po_OracleAddress <$> ps) ∧ Forall (λ p, po_AssetCode p = code) ps) as (H1 & H2 & H3).
  { destruct Hps as [->|[]]; [|done]. by split; [constructor|split; constructor]. }
  unfold put_price. destruct (list_find _ ps) as [[i q]|] eqn:E; simpl.
  - apply list_find_Some in E as (Hi & Hq & _). pose proof (lookup_lt_Some _ _ _ Hi) as Hlt. split.
    + by apply Forall_insert.
    + rw list_fmap_insert list_insert_id; [done|]. by rw list_lookup_fmap Hi -Hq.
    + by apply Forall_insert.
    + intros En. apply (f_equal length) in En. rw length_insert in En. simpl in En. lia.
  - apply list_find_None in E. split.
    + apply Forall_app. by split; [|constructor].
    + rw fmap_app. apply NoDup_app. split; [done|]. split; [|apply NoDup_singleton]. intros x Hx ->%list_elem_of_singleton.
      apply list_elem_of_fmap in Hx as (q & Hq & Hin). rewrite Forall_forall in E. by apply (E q).
    + apply Forall_app. by split; [|constructor].
    + by destruct ps.
Qed.

(** ** What a message does, independently of the code *)
Section effects.
Context `{SdkTypes}.
Implicit Types (st : ostate) (a : Asset) (code : string).

Definition has_asset st code a : Prop := a ∈ p_Assets (os_params st) ∧ as_AssetCode a = code.
Definition no_asset st code : Prop := ∀ a, a ∈ p_Assets (os_params st) → as_AssetCode a ≠ code.
Definition oracle_in a (address : AccAddress) : Prop := ∃ o, o ∈ as_Oracles a ∧ or_Address o = address.
Definition nominated st (address : AccAddress) : Prop := AccAddress_String address ∈ p_Nominees (os_params st).

(** A post dated too far from the block; a difference that does not fit a duration on
    the negative side is not found. *)
Definition far (params : PostPriceParams) (blockTime receivedAt : Z) : Prop :=
  0 < pp_ReceivedAtDiffInS params ∧ pp_ReceivedAtDiffInS params * 10 ^ 9 < Z.abs (blockTime - receivedAt) ∧
  - 2 ^ 63 < blockTime - receivedAt.

(** The posts with [p] among them: in the place of the oracle's own, or at the end. *)
Inductive posted_into (ps : list PostedPrice) (p : PostedPrice) : list PostedPrice → Prop :=
  | posted_again l1 q l2 : ps = l1 ++ q :: l2 → po_OracleAddress q = po_OracleAddress p →
      (∀ q', q' ∈ l1 ++ l2 → po_OracleAddress q' ≠ po_OracleAddress p) → posted_into ps p (l1 ++ p :: l2)
  | posted_first : (∀ q, q ∈ ps → po_OracleAddress q ≠ po_OracleAddress p) → posted_into ps p (ps ++ [p]).

Definition assets_become st (assets : list Asset) : ostate :=
  MkOstate (MkParams assets (p_Nominees (os_params st)) (p_PostPrice (os_params st))) (os_raw st) (os_current st).

Inductive accepts st (h t : Z) : Msg → ostate → Prop :=
  | accepts_post msg a ps' :
      has_asset st (mpp_AssetCode msg) a → oracle_in a (mpp_From msg) →
      ¬ far (p_PostPrice (os_params st)) t (mpp_ReceivedAt msg) →
      posted_into (raw_at st (mpp_AssetCode msg) h)
        (MkPostedPrice (mpp_AssetCode msg) (mpp_From msg) (mpp_AskPrice msg) (mpp_BidPrice msg) (mpp_ReceivedAt msg)) ps' →
      accepts st h t (Msg_PostPrice msg)
        (MkOstate (os_params st) (<[(mpp_AssetCode msg, h) := ps']> (os_raw st)) (os_current st))
  | accepts_add_oracle msg l1 a l2 : MsgAddOracle_ValidateBasic msg = Ok tt → nominated st (mao_Nominee msg) →
      p_Assets (os_params st) = l1 ++ a :: l2 → as_AssetCode a = mao_AssetCode msg → ¬ oracle_in a (mao_Oracle msg) →
      accepts st h t (Msg_AddOracle msg)
        (assets_become st (l1 ++ MkAsset (as_AssetCode a) (as_Oracles a ++ [MkOracle (mao_Oracle msg)]) (as_Active a) :: l2))
  | accepts_set_oracles msg l1 a l2 : MsgSetOracles_ValidateBasic msg = Ok tt → nominated st (mso_Nominee msg) →
      p_Assets (os_params st) = l1 ++ a :: l2 → as_AssetCode a = mso_AssetCode msg →
      accepts st h t (Msg_SetOracles msg)
        (assets_become st (l1 ++ MkAsset (as_AssetCode a) (mso_Oracles msg) (as_Active a) :: l2))
  | accepts_set_asset msg l1 a l2 : MsgSetAsset_ValidateBasic msg = Ok tt → nominated st (msa_Nominee msg) →
      p_Assets (os_params st) = l1 ++ a :: l2 → as_AssetCode a = as_AssetCode (msa_Asset msg) →
      accepts st h t (Msg_SetAsset msg) (assets_become st (l1 ++ msa_Asset msg :: l2))
  | accepts_add_asset msg : MsgAddAsset_ValidateBasic msg = Ok tt → nominated st (maa_Nominee msg) →
      no_asset st (as_AssetCode (maa_Asset msg)) →
      accepts st h t (Msg_AddAsset msg) (assets_become st (p_Assets (os_params st) ++ [maa_Asset msg])).

Definition basic_check (msg : Msg) : outcome unit :=
  match msg with
  | Msg_AddOracle msg => MsgAddOracle_ValidateBasic msg
  | Msg_SetOracles msg => MsgSetOracles_ValidateBasic msg
  | Msg_SetAsset msg => MsgSetAsset_ValidateBasic msg
  | Msg_AddAsset msg => MsgAddAsset_ValidateBasic msg
  | _ => Ok tt
  end.

Inductive refuses st (t : Z) : Msg → error → Prop :=
  | refuses_invalid msg e : basic_check msg = Err e → refuses st t msg e
  | refuses_post_asset msg : no_asset st (mpp_AssetCode msg) → refuses st t (Msg_PostPrice msg) ErrInvalidAsset
  | refuses_post_oracle msg a : has_asset st (mpp_AssetCode msg) a → ¬ oracle_in a (mpp_From msg) →
      refuses st t (Msg_PostPrice msg) ErrInvalidOracle
  | refuses_post_time msg a : has_asset st (mpp_AssetCode msg) a → oracle_in a (mpp_From msg) →
      far (p_PostPrice (os_params st)) t (mpp_ReceivedAt msg) → refuses st t (Msg_PostPrice msg) ErrInvalidReceivedAt
  | refuses_oracle_known msg a : basic_check (Msg_AddOracle msg) = Ok tt →
      has_asset st (mao_AssetCode msg) a → oracle_in a (mao_Oracle msg) → refuses st t (Msg_AddOracle msg) ErrInvalidOracle
  | refuses_add_oracle msg : basic_check (Msg_AddOracle msg) = Ok tt →
      (∀ a, has_asset st (mao_AssetCode msg) a → ¬ oracle_in a (mao_Oracle msg)) →
      ¬ nominated st (mao_Nominee msg) ∨ no_asset st (mao_AssetCode msg) → refuses st t (Msg_AddOracle msg) ErrInternal
  | refuses_oracles_asset msg : basic_check (Msg_SetOracles msg) = Ok tt →
      no_asset st (mso_AssetCode msg) → refuses st t (Msg_SetOracles msg) ErrInvalidAsset
  | refuses_oracles_nominee msg a : basic_check (Msg_SetOracles msg) = Ok tt →
      has_asset st (mso_AssetCode msg) a → ¬ nominated st (mso_Nominee msg) → refuses st t (Msg_SetOracles msg) ErrInternal
  | refuses_asset_missing msg : basic_check (Msg_SetAsset msg) = Ok tt →
      no_asset st (as_AssetCode (msa_Asset msg)) → refuses st t (Msg_SetAsset msg) ErrInvalidAsset
  | refuses_asset_nominee msg a : basic_check (Msg_SetAsset msg) = Ok tt →
      has_asset st (as_AssetCode (msa_Asset msg)) a → ¬ nominated st (msa_Nominee msg) → refuses st t (Msg_SetAsset msg) ErrInternal
  | refuses_asset_known msg a : basic_check (Msg_AddAsset msg) = Ok tt →
      has_asset st (as_AssetCode (maa_Asset msg)) a → refuses st t (Msg_AddAsset msg) ErrExistingAsset
  | refuses_add_asset msg : basic_check (Msg_AddAsset msg) = Ok tt →
      no_asset st (as_AssetCode (maa_Asset msg)) → ¬ nominated st (maa_Nominee msg) → refuses st t (Msg_AddAsset msg) ErrInternal
  | refuses_other : refuses st t Msg_other ErrUnknownRequest.

(** *** The operations on lists do that *)
Lemma asset_of_Some st code a : oracle_spec.asset_of st code = Some a → has_asset st code a.
Proof. apply find_asset_Some. Qed.
Lemma asset_of_None st code : oracle_spec.asset_of st code = None → no_asset st code.
Proof. intros Hn%find_asset_None a Ha <-. apply Hn. by apply list_elem_of_fmap_2. Qed.

Lemma is_oracle_spec a address : reflect (oracle_in a address) (oracle_spec.is_oracle a address).
Proof.
  unfold oracle_spec.is_oracle. case_bool_decide as E; constructor.
  - apply list_elem_of_fmap in E as (o & -> & Ho). by exists o.
  - intros (o & Ho & <-). apply E. by apply list_elem_of_fmap_2.
Qed.

Lemma int64_small z : - 2 ^ 63 ≤ z < 2 ^ 63 → int64 z = z.
Proof. intros Hz. unfold int64. rw Z.mod_small; lia. Qed.

Lemma far_spec params t r : 0 ≤ pp_ReceivedAtDiffInS params < 2 ^ 32 →
  (oracle_spec.too_far params t r = true ∧ far params t r) ∨ (oracle_spec.too_far params t r = false ∧ ¬ far params t r).
Proof.
  intros Hp. unfold oracle_spec.too_far, far. set (d := pp_ReceivedAtDiffInS params) in *. rw int64_small; [|lia].
  destruct (Z.ltb_spec 0 d); [|right; split; [done|lia]]. simpl. unfold absDuration.
  destruct (decide (t - r ≤ - 2 ^ 63)) as [Hlow|Hlow].
  - assert (Time_Sub t r = - 2 ^ 63) as -> by (unfold Time_Sub; lia).
    rw Z.ltb_antisym. rw (proj2 (Z.leb_le _ _)); [right; split; [done|lia]|]. apply (Z.le_trans _ 0); [done|lia].
  - assert (- 2 ^ 63 < Time_Sub t r < 2 ^ 63 ∧ (Z.abs (t - r) < 2 ^ 63 → Time_Sub t r = t - r) ∧
      (2 ^ 63 ≤ t - r → Time_Sub t r = 2 ^ 63 - 1)) as (Hb & Hs & Ht) by (unfold Time_Sub; lia).
    assert ((if Time_Sub t r <? 0 then int64 (- Time_Sub t r) else Time_Sub t r) = Z.abs (Time_Sub t r)) as ->.
    { destruct (Z.ltb_spec (Time_Sub t r) 0); [rw int64_small; lia|lia]. }
    destruct (Z.ltb_spec (d * 10 ^ 9) (Z.abs (Time_Sub t r))); [left|right]; (split; [done|lia]).
Qed.

Lemma put_price_spec ps p : NoDup (po_OracleAddress <$> ps) → posted_into ps p (put_price ps p).1.
Proof.
  intros Hnd. unfold put_price. destruct (list_find _ ps) as [[i q]|] eqn:E; simpl.
  - apply list_find_Some in E as (Hi & Hq & _). pose proof (list_elem_of_split_length _ _ _ Hi) as (l1 & l2 & -> & ->).
    rw insert_app_r_alt; [|done]. rw Nat.sub_diag. simpl. apply (posted_again _ _ l1 q l2); [done|done|].
    rw fmap_app fmap_cons in Hnd. apply NoDup_app in Hnd as (_ & Hdis & Hnd). apply NoDup_cons in Hnd as [Hnq _].
    intros q' [Hin|Hin]%elem_of_app E; rewrite -Hq in E.
    + apply (Hdis (po_OracleAddress q')); [by apply list_elem_of_fmap_2|]. rw E. left.
    + apply Hnq. rw -E. by apply list_elem_of_fmap_2.
  - apply list_find_None in E. apply posted_first. intros q Hin. rewrite Forall_forall in E. by apply E.
Qed.

Lemma update_split st code f a : NoDup (codes st) → oracle_spec.asset_of st code = Some a →
  ∃ l1 l2, p_Assets (os_params st) = l1 ++ a :: l2 ∧ as_AssetCode a = code ∧
    oracle_spec.update st code f = assets_become st (l1 ++ f a :: l2).
Proof.
  intros Hnd [Hin Hc]%asset_of_Some. apply list_elem_of_split in Hin as (l1 & l2 & El). exists l1, l2. split; [done|]. split; [done|].
  unfold oracle_spec.update, oracle_spec.set_assets, assets_become, with_Assets. f_equal. f_equal. unfold codes in Hnd. rw El in Hnd |- *.
  rw fmap_app fmap_cons in Hnd. apply NoDup_app in Hnd as (_ & Hdis & Hnd). apply NoDup_cons in Hnd as [Hn _].
  assert (∀ l, (∀ b, b ∈ l → as_AssetCode b ≠ code) → update_assets code f l = l) as Hid.
  { intros l Hl. unfold update_assets. rw -{2}(list_fmap_id l). apply list_fmap_ext. intros i b Hb. rw decide_False; [done|].
    intros E. apply (Hl b); [by eapply list_elem_of_lookup_2|done]. }
  change (update_assets code f (l1 ++ a :: l2)) with ((λ a, if decide (code = as_AssetCode a) then f a else a) <$> (l1 ++ a :: l2)).
  rw fmap_app fmap_cons. rw decide_True; [|done]. f_equal; [|f_equal]; apply Hid.
  - intros b Hb E. apply (Hdis (as_AssetCode b)); [by apply list_elem_of_fmap_2|]. rw E -Hc. left.
  - intros b Hb E. apply Hn. rw Hc -E. by apply list_elem_of_fmap_2.
Qed.

Lemma nominee_check_spec st address : oracle_spec.nominee_check st address = Ok tt ∧ nominated st address ∨
  oracle_spec.nominee_check st address = Err ErrInternal ∧ ¬ nominated st address.
Proof. unfold oracle_spec.nominee_check, nominated. case_bool_decide; [by left|by right]. Qed.
End effects.

Section messages.
Context `{SdkTypesLaws} `{KVStoreLaws} `{LG : Ledger}.
Context `{CA : !Codec (list Asset)} `{CN : !Codec (list string)} `{CP : !Codec PostPriceParams}.
Context `{CC : !Codec CurrentPrice} `{CR : !Codec (list PostedPrice)}.
Variable modulePerms : ModulePermissions.
Hypothesis own_perms : mp_name modulePerms = ModuleName.
Hypothesis no_posts : Unmarshal Bare "" = Some ([] : list PostedPrice).
Implicit Types (c : Ctx) (st : ostate) (code : string).
Notation self := ModuleName.

(** [m] run by the module does to the state what [o] says; an error changes nothing. *)
Definition runs {A} (m : M A) c (o : outcome ostate) : Prop :=
  match o with
  | Ok st' => ∃ r c', m self c = (Ok r, c') ∧ o_holds c' st' ∧ frame own_stores c c' ∧ ctx_bank c' = ctx_bank c
  | Err e => m self c = (Err e, c)
  | Panic => False
  end.

#[local] Arguments runs : simpl never.

Lemma runs_Ok {A} (m : M A) c st' r c' : m self c = (Ok r, c') → o_holds c' st' → frame own_stores c c' → ctx_bank c' = ctx_bank c → runs m c (Ok st').
Proof. intros. by exists r, c'. Qed.

Lemma bind_runs {A B} (m : M A) (f : A → M B) a c o : m self c = (Ok a, c) → runs (f a) c o → runs (m ≫= f) c o.
Proof. unfold runs. intros Hm. by rw (M_bind_Ok _ _ _ _ _ _ Hm). Qed.

(** A check that reads, then the rest. *)
Lemma check_runs {A B} (m : M A) (f : A → M B) (chk : outcome unit) c o a :
  (∀ e, chk = Err e → m self c = (Err e, c)) → (chk = Ok tt → m self c = (Ok a, c)) → chk ≠ Panic →
  (chk = Ok tt → runs (f a) c o) → runs (m ≫= f) c (chk;; o).
Proof.
  intros He Ho Hp Hf. destruct chk as [[]|e|]; simpl.
  - by eapply bind_runs; [apply Ho|apply Hf].
  - apply M_bind_Err. by apply He.
  - done.
Qed.
Lemma lift_runs {B} (f : unit → M B) (chk : outcome unit) c o : chk ≠ Panic →
  (chk = Ok tt → runs (f tt) c o) → runs (lift chk ≫= f) c (chk;; o).
Proof. intros Hp. apply (check_runs (lift chk)); [by intros e ->|by intros ->|done]. Qed.

Lemma runs_then {A B} (m : M A) (f : A → M B) c o :
  runs m c o → (∀ a c1, ∃ b c2, f a self c1 = (Ok b, c2) ∧ (∀ k, ctx_stores c2 k = ctx_stores c1 k) ∧ ctx_bank c2 = ctx_bank c1 ∧
    ctx_height c2 = ctx_height c1 ∧ ctx_time c2 = ctx_time c1) → runs (m ≫= f) c o.
Proof.
  unfold runs. destruct o as [st'|e|]; [|intros Hm _; by apply M_bind_Err|done]. intros (a & c1 & Hm & Hs & Hf & Hb) Hnext.
  destruct (Hnext a c1) as (b & c2 & Hrun & Hk & Hbk & Hh & Ht). exists b, c2. rw (M_bind_Ok _ _ _ _ _ _ Hm). split; [done|]. split; [|split].
  - by apply (o_holds_stores c1).
  - destruct Hf as (Hfs & Hfh & Hft). split; [|split; congruence]. intros k Hk'. by rw Hk Hfs.
  - congruence.
Qed.

Definition as_internal (o : outcome ostate) : outcome ostate := match o with Err _ => Err ErrInternal | _ => o end.
Lemma internal_runs (m : M unit) c o : runs m c o → runs (internal m) c (as_internal o).
Proof.
  unfold runs, internal. destruct o as [st'|e|]; [|intros Hm|done].
  - intros (r & c' & Hm & Hrest). exists tt, c'. by rw (M_bind_Ok _ _ _ _ _ _ (attempt_Ok _ _ _ _ _ Hm)).
  - by rw (M_bind_Ok _ _ _ _ _ _ (attempt_Err _ _ _ _ _ Hm)).
Qed.
Lemma result_runs c1 : ∃ b c2, result self c1 = (Ok b, c2) ∧ (∀ k, ctx_stores c2 k = ctx_stores c1 k) ∧ ctx_bank c2 = ctx_bank c1 ∧
    ctx_height c2 = ctx_height c1 ∧ ctx_time c2 = ctx_time c1.
Proof. by eexists _, _. Qed.

(** *** The keeper's writes *)
Lemma store_updated_runs c st code f : o_holds c st →
  runs (store_updated modulePerms code f) c
    (match oracle_spec.asset_of st code with Some _ => Ok (oracle_spec.update st code f) | None => Err (Plain "asset: not found") end).
Proof.
  intros Hs. eapply bind_runs; [by apply GetAssetParams_run|]. unfold oracle_spec.asset_of. destruct (find_asset _ code) as [a|] eqn:E.
  - rw bool_decide_true; [|destruct (decide (code ∈ as_AssetCode <$> p_Assets (os_params st))) as [|Hn]; [done|]; apply find_asset_None in Hn; congruence].
    eapply bind_runs; [by apply GetParams_run|].
    destruct (SetParams_run modulePerms own_perms c st (with_Assets (os_params st) (update_assets code f (p_Assets (os_params st)))) Hs)
      as (c' & Hrun & Hs' & Hf & Hb & _). by eapply runs_Ok.
  - rw bool_decide_false; [done|]. by apply find_asset_None.
Qed.

Definition nominee_plain st (nominee : string) : outcome unit :=
  fail_if (negb (bool_decide (nominee ∈ p_Nominees (os_params st)))) (Plain "is not a nominee").
Lemma nominee_runs {B} (f : unit → M B) c st nominee o : o_holds c st → runs (f tt) c o →
  runs (IsNominee modulePerms nominee ≫= f) c (nominee_plain st nominee;; o).
Proof.
  intros Hs Hf. unfold nominee_plain. pose proof (IsNominee_run modulePerms own_perms c st nominee Hs) as Hn. destruct (negb _); simpl in *.
  - by apply M_bind_Err.
  - by eapply bind_runs.
Qed.

Lemma SetAsset_runs c st nominee asset : o_holds c st →
  runs (SetAsset modulePerms nominee asset) c (nominee_plain st nominee;;
    match oracle_spec.asset_of st (as_AssetCode asset) with
    | Some _ => Ok (oracle_spec.update st (as_AssetCode asset) (λ _, asset)) | None => Err (Plain "asset: not found") end).
Proof. intros Hs. unfold SetAsset, runs. rw (own_run modulePerms own_perms). by apply nominee_runs; [|apply store_updated_runs]. Qed.

Lemma SetOracles_runs c st nominee code addresses : o_holds c st →
  runs (SetOracles modulePerms nominee code addresses) c (nominee_plain st nominee;;
    match oracle_spec.asset_of st code with
    | Some _ => Ok (oracle_spec.update st code (λ a, with_Oracles a addresses)) | None => Err (Plain "asset: not found") end).
Proof. intros Hs. unfold SetOracles, runs. rw (own_run modulePerms own_perms). by apply nominee_runs; [|apply store_updated_runs]. Qed.

Lemma AddOracle_runs c st nominee code address : o_holds c st →
  (∀ a, oracle_spec.asset_of st code = Some a → oracle_spec.is_oracle a address = false) →
  runs (AddOracle modulePerms nominee code address) c (nominee_plain st nominee;;
    match oracle_spec.asset_of st code with
    | Some _ => Ok (oracle_spec.update st code (λ a, with_Oracles a (as_Oracles a ++ [NewOracle address])))
    | None => Err (Plain "asset: not found") end).
Proof.
  intros Hs Hnot. unfold AddOracle, runs. rw (own_run modulePerms own_perms). apply nominee_runs; [done|].
  pose proof (GetOracle_run modulePerms own_perms c st code address Hs) as Hg. pose proof (store_updated_runs c st code) as Hu.
  destruct (oracle_spec.asset_of st code) as [a|].
  - rw (Hnot a eq_refl) in Hg. destruct Hg as [e He]. eapply bind_runs; [by apply attempt_Err|]. by apply Hu.
  - destruct Hg as [e He]. eapply bind_runs; [by apply attempt_Err|]. by apply Hu.
Qed.

Lemma AddAsset_runs c st nominee asset : o_holds c st → oracle_spec.asset_of st (as_AssetCode asset) = None →
  runs (AddAsset modulePerms nominee asset) c (nominee_plain st nominee;;
    Ok (oracle_spec.set_assets st (p_Assets (os_params st) ++ [asset]))).
Proof.
  intros Hs Hnone. unfold AddAsset, runs. rw (own_run modulePerms own_perms). apply nominee_runs; [done|].
  eapply bind_runs; [by apply GetAsset_run|]. rw Hnone bool_decide_false; [|by intros []].
  eapply bind_runs; [by apply GetAssetParams_run|]. eapply bind_runs; [by apply GetParams_run|].
  destruct (SetParams_run modulePerms own_perms c st (with_Assets (os_params st) (p_Assets (os_params st) ++ [asset])) Hs)
    as (c' & Hrun & Hs' & Hf & Hb & _). by eapply runs_Ok.
Qed.

Lemma SetPrice_runs c st address code ask bid receivedAt : o_holds c st →
  runs (SetPrice modulePerms address code ask bid receivedAt) c (
    fail_if (oracle_spec.too_far (p_PostPrice (os_params st)) (ctx_time c) receivedAt) ErrInvalidReceivedAt;;
    Ok (oracle_spec.set_raw st code (ctx_height c)
      (put_price (raw_at st code (ctx_height c)) (MkPostedPrice code address ask bid receivedAt)).1)).
Proof.
  intros Hs. unfold SetPrice, runs. rw (own_run modulePerms own_perms). pose proof (GetPostPriceParams_run modulePerms own_perms c st Hs) as Hp.
  apply (check_runs (checkPriceReceivedAtTimestamp modulePerms receivedAt) _ _ c _ tt).
  - unfold checkPriceReceivedAtTimestamp, oracle_spec.too_far. rw (M_bind_Ok _ _ _ _ _ _ Hp).
    destruct (0 <? _); [|done]. rw (M_bind_Ok _ _ _ c (ctx_time c) c); [|done]. simpl. by destruct (_ <? _); simpl; [intros e [= <-]|].
  - unfold checkPriceReceivedAtTimestamp, oracle_spec.too_far. rw (M_bind_Ok _ _ _ _ _ _ Hp).
    destruct (0 <? _); [|done]. rw (M_bind_Ok _ _ _ c (ctx_time c) c); [|done]. simpl. by destruct (_ <? _).
  - by destruct (oracle_spec.too_far _ _ _).
  - intros _. eapply bind_runs; [done|]. eapply bind_runs; [by apply (GetRawPrices_run modulePerms own_perms no_posts)|].
    set (p := MkPostedPrice _ _ _ _ _). eexists p, _. split; [|split; [by apply holds_set_raw|split; [|done]]].
    + rw (M_bind_Ok _ _ _ c tt (set_store c StoreKey (store_Set (ctx_stores c StoreKey) (GetRawPricesKey code (ctx_height c))
        (Marshal Bare (put_price (raw_at st code (ctx_height c)) p).1)))); [|done]. apply lift_Ok, put_price_at.
    + split; [|done]. intros k Hk. simpl. rw decide_False; [done|]. intros ->. apply Hk. left.
Qed.

(** *** Handlers *)
Lemma events_own c : set_events (set_events c []) (ctx_events c) = c.
Proof. by destruct c. Qed.
Lemma o_holds_events c st es : o_holds c st → o_holds (set_events c es) st.
Proof. by apply o_holds_stores. Qed.

(** A handler runs with its own event manager. *)
Lemma handler_runs (m : M Result) c o : runs m (set_events c []) o → runs (WithEventManager m) c o.
Proof.
  unfold runs, WithEventManager. destruct o as [st'|e|]; [|intros ->; simpl; by rw events_own|done].
  intros (r & c' & -> & Hs & (Hk & Hh & Ht) & Hb). exists r, (set_events c' (ctx_events c)). split; [done|]. split; [by apply o_holds_events|].
  by split; [split|].
Qed.

Lemma AssetCode_Validate_not_panic code : AssetCode_Validate code ≠ Panic.
Proof.
  unfold AssetCode_Validate, AssetCodeFilter, stringFilter.
  assert (∀ s, filter_runes [runeIsASCII; newIsLowerCasedLetterOrDelimiter AssetCodeDelimiter] s ≠ Panic) as Hr.
  { intros s. induction s as [|d s IH]; [done|]. simpl. unfold runeIsASCII, newIsLowerCasedLetterOrDelimiter, runeIsLowerCasedLetter, run_opts. simpl.
    destruct (127 <? byte_val d); simpl; [done|]. destruct (Ascii.eqb d _); simpl; [done|]. by destruct (negb _ || negb _). }
  unfold run_opts, stringNotEmpty, newDelimiterStrFilterOpt. simpl. destruct (bool_decide _); simpl; [done|].
  destruct (starts_with _ code); simpl; [done|]. destruct (ends_with _ code); simpl; [done|]. destruct (_ =? 0)%nat; simpl; [done|].
  destruct (1 <? _)%nat; simpl; [done|apply Hr].
Qed.
Lemma wrap_not_panic e o : o ≠ Panic → wrap_as e o ≠ Panic.
Proof. by destruct o. Qed.
Lemma bind_not_panic {A B} (o : outcome A) (f : A → outcome B) : o ≠ Panic → (∀ a, f a ≠ Panic) → (o ≫= f) ≠ Panic.
Proof. destruct o; simpl; auto. Qed.
Lemma fail_if_not_panic b e : fail_if b e ≠ Panic.
Proof. by destruct b. Qed.
Hint Resolve AssetCode_Validate_not_panic wrap_not_panic bind_not_panic fail_if_not_panic : core.

Lemma ValidateBasic_not_panic (m1 : MsgAddOracle) (m2 : MsgSetOracles) (m3 : MsgSetAsset) (m4 : MsgAddAsset) :
  MsgAddOracle_ValidateBasic m1 ≠ Panic ∧ MsgSetOracles_ValidateBasic m2 ≠ Panic ∧ MsgSetAsset_ValidateBasic m3 ≠ Panic ∧ MsgAddAsset_ValidateBasic m4 ≠ Panic.
Proof.
  unfold MsgAddOracle_ValidateBasic, MsgSetOracles_ValidateBasic, MsgSetAsset_ValidateBasic, MsgAddAsset_ValidateBasic, Asset_ValidateBasic.
  split_and!; repeat (apply bind_not_panic; [|intros _]); auto.
Qed.

Lemma nominee_internal st address (o : outcome ostate) :
  as_internal (nominee_plain st (AccAddress_String address);; o) = (oracle_spec.nominee_check st address;; as_internal o).
Proof. unfold nominee_plain, oracle_spec.nominee_check. by destruct (negb _). Qed.

Lemma then_result_runs (m : M unit) c o : runs m c o → runs (m;; result) c o.
Proof. intros Hm. apply runs_then; [done|]. intros _ c1. apply result_runs. Qed.

Lemma handleMsgAddOracle_runs c st msg : o_holds c st → runs (handleMsgAddOracle modulePerms msg) c (oracle_spec.add_oracle st msg).
Proof.
  intros Hs. unfold handleMsgAddOracle, oracle_spec.add_oracle. apply lift_runs; [apply (ValidateBasic_not_panic msg (MkMsgSetOracles [] "" "") (MkMsgSetAsset "" (MkAsset "" [] true)) (MkMsgAddAsset "" (MkAsset "" [] true)))|].
  intros _. pose proof (GetOracle_run modulePerms own_perms c st (mao_AssetCode msg) (mao_Oracle msg) Hs) as Hg.
  destruct (oracle_spec.asset_of st (mao_AssetCode msg)) as [a|] eqn:Ea; [destruct (oracle_spec.is_oracle a _) eqn:Eo|]; simpl.
  - by eapply bind_runs; [by apply attempt_Ok|].
  - destruct Hg as [e He]. eapply bind_runs; [by apply attempt_Err|]. apply then_result_runs.
    pose proof (AddOracle_runs c st (AccAddress_String (mao_Nominee msg)) (mao_AssetCode msg) (mao_Oracle msg) Hs) as Hr. rw Ea in Hr.
    apply internal_runs in Hr; [|by intros a' [= <-]]. by rw nominee_internal in Hr.
  - destruct Hg as [e He]. eapply bind_runs; [by apply attempt_Err|]. apply then_result_runs.
    pose proof (AddOracle_runs c st (AccAddress_String (mao_Nominee msg)) (mao_AssetCode msg) (mao_Oracle msg) Hs) as Hr. rw Ea in Hr.
    apply internal_runs in Hr; [|done]. by rw nominee_internal in Hr.
Qed.

Lemma handleMsgSetOracles_runs c st msg : o_holds c st → runs (handleMsgSetOracles modulePerms msg) c (oracle_spec.set_oracles st msg).
Proof.
  intros Hs. unfold handleMsgSetOracles, oracle_spec.set_oracles. apply lift_runs; [by apply (ValidateBasic_not_panic (MkMsgAddOracle "" "" "") msg (MkMsgSetAsset "" (MkAsset "" [] true)) (MkMsgAddAsset "" (MkAsset "" [] true)))|].
  intros _. eapply bind_runs; [by apply GetAsset_run|]. destruct (oracle_spec.asset_of st (mso_AssetCode msg)) as [a|] eqn:Ea; [|done].
  apply then_result_runs. pose proof (SetOracles_runs c st (AccAddress_String (mso_Nominee msg)) (mso_AssetCode msg) (mso_Oracles msg) Hs) as Hr. rw Ea in Hr.
  apply internal_runs in Hr. by rw nominee_internal in Hr.
Qed.

Lemma handleMsgSetAsset_runs c st msg : o_holds c st → runs (handleMsgSetAsset modulePerms msg) c (oracle_spec.set_asset st msg).
Proof.
  intros Hs. unfold handleMsgSetAsset, oracle_spec.set_asset. apply lift_runs; [by apply (ValidateBasic_not_panic (MkMsgAddOracle "" "" "") (MkMsgSetOracles [] "" "") msg (MkMsgAddAsset "" (MkAsset "" [] true)))|].
  intros _. eapply bind_runs; [by apply GetAsset_run|]. destruct (oracle_spec.asset_of st _) as [a|] eqn:Ea; [|done].
  pose proof (SetAsset_runs c st (AccAddress_String (msa_Nominee msg)) (msa_Asset msg) Hs) as Hr. rw Ea in Hr.
  apply internal_runs in Hr. rw nominee_internal in Hr. eapply runs_then; [exact Hr|]. intros _ c1. by eexists _, _.
Qed.

Lemma handleMsgAddAsset_runs c st msg : o_holds c st → runs (handleMsgAddAsset modulePerms msg) c (oracle_spec.add_asset st msg).
Proof.
  intros Hs. unfold handleMsgAddAsset, oracle_spec.add_asset. apply lift_runs; [by apply (ValidateBasic_not_panic (MkMsgAddOracle "" "" "") (MkMsgSetOracles [] "" "") (MkMsgSetAsset "" (MkAsset "" [] true)) msg)|].
  intros _. eapply bind_runs; [by apply GetAsset_run|]. destruct (oracle_spec.asset_of st _) as [a|] eqn:Ea; [done|].
  apply then_result_runs. pose proof (AddAsset_runs c st (AccAddress_String (maa_Nominee msg)) (maa_Asset msg) Hs Ea) as Hr.
  apply internal_runs in Hr. by rw nominee_internal in Hr.
Qed.

Lemma handleMsgPostPrice_runs c st msg : o_holds c st →
  runs (handleMsgPostPrice modulePerms msg) c (oracle_spec.post st (ctx_height c) (ctx_time c) msg).
Proof.
  intros Hs. unfold handleMsgPostPrice, ValidatePostPrice, oracle_spec.post.
  pose proof (GetOracle_run modulePerms own_perms c st (mpp_AssetCode msg) (mpp_From msg) Hs) as Hg.
  pose proof (GetAsset_run modulePerms own_perms c st (mpp_AssetCode msg) Hs) as Ha.
  destruct (oracle_spec.asset_of st (mpp_AssetCode msg)) as [a|] eqn:Ea; [destruct (oracle_spec.is_oracle a _) eqn:Eo|]; simpl.
  - eapply (bind_runs _ _ tt).
    { rw (M_bind_Ok _ _ _ _ _ _ Ha). by rw (M_bind_Ok _ _ _ _ _ _ (attempt_Ok _ _ _ _ _ Hg)). }
    eapply bind_runs; [by apply attempt_Ok|]. apply runs_then; [by apply SetPrice_runs|]. intros _ c1. apply result_runs.
  - destruct Hg as [e He]. apply M_bind_Err. rw (M_bind_Ok _ _ _ _ _ _ Ha). by rw (M_bind_Ok _ _ _ _ _ _ (attempt_Err _ _ _ _ _ He)).
  - apply M_bind_Err. by rw (M_bind_Ok _ _ _ _ _ _ Ha).
Qed.

Lemma NewHandler_runs c st msg : o_holds c st →
  runs (NewHandler modulePerms msg) c (oracle_spec.step st (ctx_height c) (ctx_time c) msg).
Proof.
  intros Hs. change (runs (WithEventManager (match msg with
    | Msg_PostPrice msg => handleMsgPostPrice modulePerms msg
    | Msg_AddOracle msg => handleMsgAddOracle modulePerms msg
    | Msg_SetOracles msg => handleMsgSetOracles modulePerms msg
    | Msg_SetAsset msg => handleMsgSetAsset modulePerms msg
    | Msg_AddAsset msg => handleMsgAddAsset modulePerms msg
    | Msg_other => throw ErrUnknownRequest
    end)) c (oracle_spec.step st (ctx_height c) (ctx_time c) msg)).
  apply handler_runs. pose proof (o_holds_events c st [] Hs) as Hs'.
  destruct msg; simpl; [by apply (handleMsgPostPrice_runs (set_events c []))|by apply handleMsgAddOracle_runs|by apply handleMsgSetOracles_runs|
    by apply handleMsgSetAsset_runs|by apply handleMsgAddAsset_runs|done].
Qed.

Lemma raw_NoDup st code h : o_inv st → NoDup (po_OracleAddress <$> raw_at st code h).
Proof.
  intros Hi. unfold raw_at. destruct (os_raw st !! (code, h)) as [ps|] eqn:E; [|constructor].
  by apply (oi_posts st Hi) in E as [].
Qed.

Lemma basic_check_cases msg : (∃ e, basic_check msg = Err e) ∨ basic_check msg = Ok tt.
Proof.
  pose proof ValidateBasic_not_panic as Hv.
  assert (basic_check msg ≠ Panic).
  { destruct msg as [m|m|m|m|m|]; simpl; try done;
      [apply (Hv m (MkMsgSetOracles [] "" "") (MkMsgSetAsset "" (MkAsset "" [] true)) (MkMsgAddAsset "" (MkAsset "" [] true)))|
       by apply (Hv (MkMsgAddOracle "" "" "") m (MkMsgSetAsset "" (MkAsset "" [] true)) (MkMsgAddAsset "" (MkAsset "" [] true)))|
       by apply (Hv (MkMsgAddOracle "" "" "") (MkMsgSetOracles [] "" "") m (MkMsgAddAsset "" (MkAsset "" [] true)))|
       by apply (Hv (MkMsgAddOracle "" "" "") (MkMsgSetOracles [] "" "") (MkMsgSetAsset "" (MkAsset "" [] true)) m)]. }
  destruct (basic_check msg) as [[]|e|]; [by right|left; by exists e|done].
Qed.

Definition step_says st h t msg (o : outcome ostate) : Prop :=
  match o with Ok st' => accepts st h t msg st' | Err e => refuses st t msg e | Panic => False end.

Lemma post_says st h t msg : o_inv st → 0 ≤ pp_ReceivedAtDiffInS (p_PostPrice (os_params st)) < 2 ^ 32 →
  step_says st h t (Msg_PostPrice msg) (oracle_spec.post st h t msg).
Proof.
  intros Hi Hd. unfold oracle_spec.post. destruct (oracle_spec.asset_of st _) as [a|] eqn:Ea; [|by apply refuses_post_asset, asset_of_None].
  apply asset_of_Some in Ea. destruct (is_oracle_spec a (mpp_From msg)); simpl; [|by apply (refuses_post_oracle _ _ _ a)].
  destruct (far_spec (p_PostPrice (os_params st)) t (mpp_ReceivedAt msg) Hd) as [[-> ?]|[-> ?]]; simpl; [by apply (refuses_post_time _ _ _ a)|].
  by apply (accepts_post _ _ _ _ a), put_price_spec, raw_NoDup.
Qed.

Lemma add_oracle_says st h t msg : o_inv st → step_says st h t (Msg_AddOracle msg) (oracle_spec.add_oracle st msg).
Proof.
  intros Hi. unfold oracle_spec.add_oracle. destruct (basic_check_cases (Msg_AddOracle msg)) as [[e E]|E]; simpl in E; rw E; simpl; [by apply refuses_invalid|].
  destruct (oracle_spec.asset_of st _) as [a|] eqn:Ea.
  - pose proof (asset_of_Some _ _ _ Ea) as Ha. destruct (is_oracle_spec a (mao_Oracle msg)) as [Ho|Ho]; simpl; [by apply (refuses_oracle_known _ _ _ a)|].
    destruct (update_split st (mao_AssetCode msg) (λ a, with_Oracles a (as_Oracles a ++ [NewOracle (mao_Oracle msg)])) a (oi_distinct _ Hi) Ea)
      as (l1 & l2 & El & Hc & ->).
    destruct (nominee_check_spec st (mao_Nominee msg)) as [[-> Hn]|[-> Hn]]; simpl; [by apply accepts_add_oracle|].
    apply refuses_add_oracle; [done| |by left]. intros a' [Hin' Hc']. assert (a' = a) as ->; [|done].
    apply asset_of_Some in Ea as [Hin _]. pose proof (oi_distinct _ Hi) as Hnd. unfold codes in Hnd.
    apply list_elem_of_lookup in Hin as [n Hn1], Hin' as [n' Hn2].
    assert (n' = n) as ->; [|congruence]. eapply (NoDup_lookup (as_AssetCode <$> p_Assets (os_params st))); [done|by rw list_lookup_fmap Hn2|by rw list_lookup_fmap Hn1 /= Hc Hc'].
  - simpl. apply asset_of_None in Ea. assert (∀ a, has_asset st (mao_AssetCode msg) a → ¬ oracle_in a (mao_Oracle msg)) as Hno by (intros a [Hin Hc]; by destruct (Ea a)).
    destruct (nominee_check_spec st (mao_Nominee msg)) as [[-> Hn]|[-> Hn]]; simpl; apply refuses_add_oracle; auto.
Qed.

Lemma set_oracles_says st h t msg : o_inv st → step_says st h t (Msg_SetOracles msg) (oracle_spec.set_oracles st msg).
Proof.
  intros Hi. unfold oracle_spec.set_oracles. destruct (basic_check_cases (Msg_SetOracles msg)) as [[e E]|E]; simpl in E; rw E; simpl; [by apply refuses_invalid|].
  destruct (oracle_spec.asset_of st _) as [a|] eqn:Ea; [|by apply refuses_oracles_asset, asset_of_None].
  destruct (update_split st (mso_AssetCode msg) (λ a, with_Oracles a (mso_Oracles msg)) a (oi_distinct _ Hi) Ea) as (l1 & l2 & El & Hc & ->).
  destruct (nominee_check_spec st (mso_Nominee msg)) as [[-> Hn]|[-> Hn]]; simpl; [by apply accepts_set_oracles|].
  by apply (refuses_oracles_nominee _ _ _ a); [..|done]; [|apply asset_of_Some].
Qed.

Lemma set_asset_says st h t msg : o_inv st → step_says st h t (Msg_SetAsset msg) (oracle_spec.set_asset st msg).
Proof.
  intros Hi. unfold oracle_spec.set_asset. destruct (basic_check_cases (Msg_SetAsset msg)) as [[e E]|E]; simpl in E; rw E; simpl; [by apply refuses_invalid|].
  destruct (oracle_spec.asset_of st _) as [a|] eqn:Ea; [|by apply refuses_asset_missing, asset_of_None].
  destruct (update_split st (as_AssetCode (msa_Asset msg)) (λ _, msa_Asset msg) a (oi_distinct _ Hi) Ea) as (l1 & l2 & El & Hc & ->).
  destruct (nominee_check_spec st (msa_Nominee msg)) as [[-> Hn]|[-> Hn]]; simpl; [by eapply accepts_set_asset|].
  by apply (refuses_asset_nominee _ _ _ a); [..|done]; [|apply asset_of_Some].
Qed.

Lemma add_asset_says st h t msg : step_says st h t (Msg_AddAsset msg) (oracle_spec.add_asset st msg).
Proof.
  unfold oracle_spec.add_asset. destruct (basic_check_cases (Msg_AddAsset msg)) as [[e E]|E]; simpl in E; rw E; simpl; [by apply refuses_invalid|].
  destruct (oracle_spec.asset_of st _) as [a|] eqn:Ea; [by apply (refuses_asset_known _ _ _ a), asset_of_Some|].
  apply asset_of_None in Ea. destruct (nominee_check_spec st (maa_Nominee msg)) as [[-> Hn]|[-> Hn]]; simpl; [by apply accepts_add_asset|by apply refuses_add_asset].
Qed.

Lemma step_spec st h t msg : o_inv st → 0 ≤ pp_ReceivedAtDiffInS (p_PostPrice (os_params st)) < 2 ^ 32 →
  step_says st h t msg (oracle_spec.step st h t msg).
Proof.
  intros Hi Hd. destruct msg; [by apply post_says|by apply add_oracle_says|by apply set_oracles_says|by apply set_asset_says|
    by apply add_asset_says|apply refuses_other].
Qed.

(** C21: a message of x/oracle is accepted or refused as [accepts] and [refuses] say.  Only
    nominees change assets; an asset is added once, at the end of the list, and replaced
    or given oracles only when it exists, in its place and without touching another; an
    oracle of the asset posts a price, in the place of its own post of the block when it
    has one and after the others when it has none.  Nothing else changes, and a refused
    message changes nothing.  (A post dated more than [2 ^ 63] nanoseconds after the block
    is not refused: the difference saturates, and its absolute value is negative.) *)
Theorem NewHandler_refines_oracle caller c st msg : o_holds c st → o_inv st →
  0 ≤ pp_ReceivedAtDiffInS (p_PostPrice (os_params st)) < 2 ^ 32 →
  (∃ st' r c', accepts st (ctx_height c) (ctx_time c) msg st' ∧ NewHandler modulePerms msg caller c = (Ok r, c') ∧
     o_holds c' st' ∧ ctx_bank c' = ctx_bank c ∧
     ∀ k, k ≠ StoreKey → k ≠ params_store DefaultParamspace → ctx_stores c' k = ctx_stores c k) ∨
  (∃ e, refuses st (ctx_time c) msg e ∧ NewHandler modulePerms msg caller c = (Err e, c)).
Proof.
  intros Hs Hi Hd. pose proof (NewHandler_runs c st msg Hs) as Hr. unfold runs in Hr.
  pose proof (step_spec st (ctx_height c) (ctx_time c) msg Hi Hd) as Hspec. unfold step_says in Hspec.
  destruct (oracle_spec.step _ _ _ _) as [st'|e|]; [left|right|done]; [|by exists e].
  destruct Hr as (r & c' & Hrun & Hs' & (Hk & _) & Hb). exists st', r, c'. do 4 (split; [done|]).
  intros k H1' H2'. apply Hk. by rw !elem_of_cons elem_of_nil; intros [?|[?|?]].
Qed.
End messages.

(** ** The types' promises are kept *)
Lemma BitLen_bound z : 0 ≤ z → BitLen z ≤ 64 → z < 2 ^ 64.
Proof.
  unfold BitLen. intros Hz. destruct (Z.eqb_spec z 0) as [->|Hne]; [done|]. intros Hb. rw Z.abs_eq in Hb; [|done].
  apply Z.log2_lt_pow2; lia.
Qed.

Lemma wrap_as_Ok e o u : wrap_as e o = Ok u → o = Ok tt.
Proof. destruct o as [[]| |]; [by intros _|done..]. Qed.

(** The messages the application delivers were validated. *)
Definition validated (msg : Msg) : Prop :=
  match msg with Msg_PostPrice msg => MsgPostPrice_ValidateBasic msg = Ok tt | _ => True end.

Lemma validated_post msg : MsgPostPrice_ValidateBasic msg = Ok tt →
  post_ok (MkPostedPrice (mpp_AssetCode msg) (mpp_From msg) (mpp_AskPrice msg) (mpp_BidPrice msg) (mpp_ReceivedAt msg)).
Proof.
  unfold MsgPostPrice_ValidateBasic. intros Hv. ok_inv.
  repeat match goal with Hz : (_ <? _) = false |- _ => apply Z.ltb_ge in Hz end. unfold post_ok, price_ok. simpl.
  change (PriceBytesLimit * 8) with 64 in *. split; (split; [done|by apply BitLen_bound]).
Qed.

Lemma Asset_ValidateBasic_ok a u : Asset_ValidateBasic a = Ok u → asset_ok a.
Proof.
  unfold Asset_ValidateBasic. intros Hv. apply outcome_bind_inv in Hv as (u1 & Hc%wrap_as_Ok & Hv). apply fail_if_inv in Hv.
  split; [done|]. by destruct (as_Oracles a).
Qed.

Section types.
Context `{SdkTypes}.
Implicit Types (st : ostate) (code : string).

Lemma inv_set_assets st assets : o_inv st → Forall asset_ok assets → NoDup (as_AssetCode <$> assets) → o_inv (oracle_spec.set_assets st assets).
Proof. by intros [Ha Hd Hp Hc] Ha' Hd'. Qed.

Lemma inv_update st code f : o_inv st → (∀ a, asset_ok a → as_AssetCode a = code → asset_ok (f a) ∧ as_AssetCode (f a) = code) →
  o_inv (oracle_spec.update st code f).
Proof.
  intros Hi Hf. pose proof (oi_assets _ Hi) as Ha. apply inv_set_assets; [done|..].
  - unfold update_assets. apply Forall_fmap. eapply Forall_impl; [exact Ha|]. intros a Hok. simpl. case_decide as E; [|done]. by apply Hf.
  - pose proof (oi_distinct _ Hi) as Hd. unfold codes in Hd. revert Hd Ha. generalize (p_Assets (os_params st)) as l. intros l Hd Ha.
    assert (as_AssetCode <$> update_assets code f l = as_AssetCode <$> l) as ->; [|done].
    unfold update_assets. rw -list_fmap_compose. apply list_fmap_ext. intros i a Hi'. simpl. case_decide as E; [|done].
    rewrite -E. apply Hf; [|done]. rewrite Forall_forall in Ha. apply Ha. by eapply list_elem_of_lookup_2.
Qed.

Lemma inv_set_raw st code h ps : o_inv st → posts_ok code ps → o_inv (oracle_spec.set_raw st code h ps).
Proof.
  intros [Ha Hd Hp Hc] Hps. split; simpl; [done..| |done]. intros code' h' ps'. rw lookup_insert. case_decide as E; [|apply Hp].
  apply pair_eq in E as [<- <-]. by intros [= <-].
Qed.

Lemma raw_at_ok st code h : o_inv st → raw_at st code h = [] ∨ posts_ok code (raw_at st code h).
Proof. intros Hi. unfold raw_at. destruct (os_raw st !! (code, h)) as [ps|] eqn:E; [right; by eapply oi_posts|by left]. Qed.

Lemma oracle_step_inv st h t msg st' : o_inv st → validated msg → oracle_spec.step st h t msg = Ok st' →
  o_inv st' ∧ p_Nominees (os_params st') = p_Nominees (os_params st) ∧ p_PostPrice (os_params st') = p_PostPrice (os_params st).
Proof.
  intros Hi Hv. destruct msg as [msg|msg|msg|msg|msg|]; simpl.
  - unfold oracle_spec.post. destruct (oracle_spec.asset_of st _) as [a|]; [|done]. intros Hs. ok_inv. split; [|done].
    apply inv_set_raw; [done|]. apply put_price_ok; [by apply raw_at_ok|by apply validated_post|done].
  - unfold oracle_spec.add_oracle. intros Hs. apply outcome_bind_inv in Hs as (u & _ & Hs). apply outcome_bind_inv in Hs as (u2 & _ & Hs).
    apply outcome_bind_inv in Hs as (u3 & _ & Hs). destruct (oracle_spec.asset_of st _); [|done]. injection Hs as <-. split; [|done].
    apply inv_update; [done|]. intros a' [Hac Hao] Hc. split; [|done]. split; [done|]. simpl. by destruct (as_Oracles a').
  - unfold oracle_spec.set_oracles. intros Hs. apply outcome_bind_inv in Hs as (u & Hval & Hs). destruct (oracle_spec.asset_of st _); [|done].
    apply outcome_bind_inv in Hs as (u2 & _ & [= <-]). split; [|done]. apply inv_update; [done|]. intros a' [Hac Hao] Hc. split; [|done].
    split; [done|]. simpl. unfold MsgSetOracles_ValidateBasic in Hval. apply outcome_bind_inv in Hval as (u3 & Hlen%fail_if_inv & _). by destruct (mso_Oracles msg).
  - unfold oracle_spec.set_asset. intros Hs. apply outcome_bind_inv in Hs as (u & Hval & Hs). destruct (oracle_spec.asset_of st _); [|done].
    apply outcome_bind_inv in Hs as (u2 & _ & [= <-]). split; [|done]. apply inv_update; [done|]. intros a' _ Hc. split; [|done].
    unfold MsgSetAsset_ValidateBasic in Hval. apply outcome_bind_inv in Hval as (u3 & Hval & _). by eapply Asset_ValidateBasic_ok.
  - unfold oracle_spec.add_asset. intros Hs. apply outcome_bind_inv in Hs as (u & Hval & Hs). destruct (oracle_spec.asset_of st _) eqn:Ea; [done|].
    apply outcome_bind_inv in Hs as (u2 & _ & [= <-]). split; [|done]. destruct Hi as [Ha Hd Hp Hc]. apply inv_set_assets; [done|..].
    + apply Forall_app. split; [done|]. constructor; [|done]. unfold MsgAddAsset_ValidateBasic in Hval. apply outcome_bind_inv in Hval as (u3 & Hval & _).
      by eapply Asset_ValidateBasic_ok.
    + rw fmap_app. apply NoDup_app. split; [done|]. split; [|apply NoDup_singleton]. intros x Hx ->%list_elem_of_singleton.
      by apply find_asset_None in Ea.
  - done.
Qed.
End types.
