(* ===== verification/OracleBlock.v ===== *)
(** * Oracle: the end blocker

    The loop over the assets makes the medians of the block's posts the current prices
    and mirrors them in the VM storage; with posts within their limits nothing in it
    panics. *)
From S2P Require Import Prelude Bytes Sdk SdkRef SdkFacts DnTypes Perms Chain VMStorage CCStorage Oracle OracleFacts OracleTheorems.
Local Open Scope string_scope.
Local Open Scope Z_scope.
Local Open Scope list_scope.
Import oracle.

#[export] Instance current_price_eq_dec : EqDecision CurrentPrice.
Proof. solve_decision. Defined.

(** ** The block on the state *)
Section spec.
Context `{SdkTypesLaws} `{SdkIntsLaws} `{GoSortLaws}.
Implicit Types (st : ostate) (code : string).
Import oracle_spec.

Lemma updated_code st h t code cp : updated st h t code = Some cp → cp_AssetCode cp = code.
Proof.
  unfold updated. destruct (medians _ _) as [[[ask bid] tm]|e|]; [|done..]. destruct (_ || _); [done|].
  destruct (os_current st !! code) as [old|]; [destruct (_ && _); [done|]|]; by intros [= <-].
Qed.

(** A price just made current is not made current again. *)
Lemma updated_again st h t code cp : updated st h t code = Some cp → updated (block_asset h t st code) h t code = None.
Proof.
  intros Hu. unfold block_asset. rw Hu. unfold updated in *. change (raw_at (set_current st _) code h) with (raw_at st code h).
  destruct (medians _ _) as [[[ask bid] tm]|e|]; [|done..]. destruct (_ || _); [done|]. simpl. rw lookup_insert_eq.
  assert (cp_AskPrice cp = ask ∧ cp_BidPrice cp = bid) as [-> ->].
  { destruct (os_current st !! code) as [old|]; [destruct (_ && _); [done|]|]; by injection Hu as <-. }
  by rw !Z.eqb_refl.
Qed.

Lemma updated_other st h t code code' : code ≠ code' → updated (block_asset h t st code) h t code' = updated st h t code'.
Proof.
  intros Hne. unfold block_asset. destruct (updated st h t code) as [cp|]; [|done]. unfold updated.
  change (raw_at (set_current st _) code' h) with (raw_at st code' h). simpl. by rw lookup_insert_ne.
Qed.

Lemma block_asset_current st h t code code' : os_current (block_asset h t st code) !! code' =
  if decide (code = code') then match updated st h t code with Some cp => Some cp | None => os_current st !! code end
  else os_current st !! code'.
Proof.
  unfold block_asset. destruct (updated st h t code) as [cp|] eqn:Hu; simpl.
  - rw lookup_insert. by case_decide.
  - case_decide as E; [by subst|done].
Qed.

(** The whole loop, asset by asset. *)
Lemma block_current st h t l code : os_current (foldl (block_asset h t) st l) !! code =
  if decide (code ∈ l) then match updated st h t code with Some cp => Some cp | None => os_current st !! code end
  else os_current st !! code.
Proof.
  revert st. induction l as [|x l IH]; intros st; [done|].
  change (foldl (block_asset h t) st (x :: l)) with (foldl (block_asset h t) (block_asset h t st x) l).
  rw IH block_asset_current. destruct (decide (x = code)) as [->|Hne].
  - rw (decide_True (P := code ∈ code :: l)); [|left]. destruct (updated st h t code) as [cp|] eqn:Hu.
    + rw (updated_again st h t code cp Hu). by case_decide.
    + assert (block_asset h t st code = st) as -> by (unfold block_asset; by rw Hu). rw Hu. by case_decide.
  - rw updated_other; [|done]. destruct (decide (code ∈ l)) as [Hin|Hnin].
    + by rw decide_True; [|right].
    + rw decide_False; [done|]. by intros [->|?]%elem_of_cons.
Qed.
Lemma block_params st h t l : os_params (foldl (block_asset h t) st l) = os_params st.
Proof. revert st. induction l as [|x l IH]; intros st; [done|]. simpl. rw IH. unfold block_asset. by destruct (updated _ _ _ _). Qed.
Lemma block_raw st h t l : os_raw (foldl (block_asset h t) st l) = os_raw st.
Proof. revert st. induction l as [|x l IH]; intros st; [done|]. simpl. rw IH. unfold block_asset. by destruct (updated _ _ _ _). Qed.

(** The medians of posts within their limits. *)
Lemma medians_ok t code ps : ps = [] ∨ posts_ok code ps →
  ∃ ask bid tm, medians t ps = Ok (ask, bid, tm) ∧ price_ok ask ∧ price_ok bid ∧
    (ps ≠ [] → ask = median_of (po_AskPrice <$> ps) ∧ bid = median_of (po_BidPrice <$> ps) ∧ median_time t ps tm).
Proof.
  intros Hps. destruct (decide (ps = [])) as [->|Hne]; [by exists 0, 0, zero_time|]. destruct Hps as [|[Hok _ _ _]]; [done|].
  destruct (medians_spec t ps Hne Hok) as (tm & Hm & Ht). eexists _, _, tm. split; [exact Hm|].
  assert (∀ key : PostedPrice → Z, (∀ p, p ∈ ps → price_ok (key p)) → price_ok (median_of (key <$> ps))) as Hin.
  { intros key Hkey. assert (0 ≤ median_of (key <$> ps) ≤ 2 ^ 64 - 1) as []; [|unfold price_ok; lia]. apply median_majority.
    unfold count_within. rw filter_all; [|intros z (p & -> & Hp)%list_elem_of_fmap; unfold within; pose proof (Hkey p Hp); unfold price_ok in *; lia].
    rw length_fmap. destruct ps; [done|]. simpl. lia. }
  rewrite Forall_forall in Hok. split; [apply Hin; intros p Hp; by apply Hok|]. split; [apply Hin; intros p Hp; by apply Hok|done].
Qed.

Lemma updated_spec st h t code : o_inv st → AssetCode_Validate code = Ok tt →
  match updated st h t code with Some cp => current_ok code cp | None => True end.
Proof.
  intros Hi Hc. unfold updated. destruct (medians_ok t code (raw_at st code h) (raw_at_ok st code h Hi)) as (ask & bid & tm & -> & Ha & Hb & _).
  destruct ((ask =? 0) || (bid =? 0)) eqn:E0; [done|]. apply orb_false_iff in E0 as [Ea%Z.eqb_neq Eb%Z.eqb_neq]. unfold price_ok in *.
  assert (current_ok code (MkCurrentPrice code ask bid tm)) as Hok by (split; simpl; try done; lia).
  destruct (os_current st !! code) as [old|]; [by destruct (_ && _)|done].
Qed.

Lemma block_asset_inv st h t code : o_inv st → AssetCode_Validate code = Ok tt → o_inv (block_asset h t st code).
Proof.
  intros Hi Hc. pose proof (updated_spec st h t code Hi Hc) as Hu. unfold block_asset. destruct (updated st h t code) as [cp|]; [|done].
  destruct Hi as [Ha Hd Hp Hcur]. split; simpl; [done..|]. intros code' cp'. rw lookup_insert. case_decide as E; [subst; by intros [= <-]|apply Hcur].
Qed.
Lemma block_inv st h t l : o_inv st → Forall (λ code, AssetCode_Validate code = Ok tt) l → o_inv (foldl (block_asset h t) st l).
Proof.
  intros Hi Hl. revert st Hi. induction Hl as [|x l Hx _ IH]; intros st Hi; [done|]. simpl. by apply IH, block_asset_inv.
Qed.
Lemma inv_codes st : o_inv st → Forall (λ code, AssetCode_Validate code = Ok tt) (codes st).
Proof. intros Hi. unfold codes. apply Forall_fmap. eapply Forall_impl; [apply Hi|]. by intros a []. Qed.
End spec.

Section block.
Context `{SdkTypesLaws} `{SdkIntsLaws} `{GoSortLaws} `{DecimalLaws} `{OV : OracleVector} `{LP : !Lcs ResPrice}.
Context `{KVStoreLaws} `{LG : Ledger} `{VS : !VMStorage}.
Context (clients : string → Prop) (vm_store : string) `{VSL : !VMStorageLaws clients vm_store}.
Context `{CA : !Codec (list Asset)} `{CN : !Codec (list string)} `{CP : !Codec PostPriceParams}.
Context `{CC : !Codec CurrentPrice} `{CR : !Codec (list PostedPrice)}.
Variable modulePerms : ModulePermissions.
Hypothesis own_perms : mp_name modulePerms = ModuleName.
Hypothesis no_posts : Unmarshal Bare "" = Some ([] : list PostedPrice).
Hypothesis no_current : Unmarshal Bare "" = Some no_price.
(** The VM storage admits the module and keeps a store of its own. *)
Hypothesis admitted : clients ModuleName.
Hypothesis vm_store_other : vm_store ∉ own_stores.
(** [lcs] encodes 128-bit values. *)
Hypothesis lcs_price : ∀ z, 0 ≤ z < 2 ^ 128 → ∃ bz, lcs_Marshal (MkResPrice z) = Ok bz.
Implicit Types (c : Ctx) (st : ostate) (code x y : string).
Notation self := ModuleName.
Notation vm_at c p := (vm_read (ctx_stores c vm_store) p).

Definition price_path x y : VMAccessPath := MkVMAccessPath common_vm.StdLibAddress (OracleAccessVector x y).
Lemma price_path_ok x y : common_vm.path_ok (price_path x y).
Proof. unfold common_vm.path_ok, price_path, common_vm.StdLibAddress. cbn [vp_Address]. apply length_be_bytes. Qed.
Lemma price_path_inj x y x' y' : price_path x y = price_path x' y' → x = x' ∧ y = y'.
Proof. intros E. apply OracleAccessVector_inj. by injection E. Qed.

(** The VM reads the price [z] of [x] in [y]. *)
Definition vm_price c x y (z : Z) : Prop := ∃ bz, lcs_Marshal (MkResPrice z) = Ok bz ∧ vm_at c (price_path x y) = Some bz.

(** The end blocker writes this module's store and the VM's. *)
Definition written_stores : list string := [StoreKey; vm_store].

Lemma vm_store_ne k : k ∈ own_stores → vm_store ≠ k.
Proof. intros Hk ->. by apply vm_store_other. Qed.

Lemma store_vm_price_run c cp x y : asset_parts (cp_AssetCode cp) x y → 0 ≤ cp_AskPrice cp < 2 ^ 128 →
  ∃ s, store_vm_price cp self c = (Ok tt, set_store c vm_store s) ∧ vm_price (set_store c vm_store s) x y (cp_AskPrice cp) ∧
    ∀ p, common_vm.path_ok p → p ≠ price_path x y → vm_at (set_store c vm_store s) p = vm_at c p.
Proof.
  intros Hp Hask. destruct (lcs_price (cp_AskPrice cp) Hask) as [bz Hbz].
  destruct (SetValue_ok self c (price_path x y) bz admitted (price_path_ok x y)) as (s & Hrun & Hread). exists s.
  assert (NewResPriceStorageValuesPanic (cp_AssetCode cp) (cp_AskPrice cp) = Ok (price_path x y, bz)) as Hv.
  { unfold NewResPriceStorageValuesPanic, GetAssetCodePath, AssetCodeDelimiter. by rw (parts_Split _ x y Hp) Hbz. }
  split; [|split].
  - unfold store_vm_price. by rw (M_bind_Ok _ _ _ _ _ _ (lift_Ok _ _ self c Hv)).
  - exists bz. split; [done|]. rw ctx_stores_set_store decide_True; [|done]. rw Hread; [|apply price_path_ok]. by rw decide_True.
  - intros p Hpo Hne. rw ctx_stores_set_store decide_True; [|done]. rw Hread; [|done]. by rw decide_False.
Qed.

(** Only the prices of the asset, in both directions, are touched. *)
Definition vm_same c c' x y : Prop := vm_at c' (price_path x y) = vm_at c (price_path x y).
Definition only_prices c c' x y : Prop :=
  ∀ p, common_vm.path_ok p → p ≠ price_path x y → p ≠ price_path y x → vm_at c' p = vm_at c p.

Definition mirrored c' x y (cp : CurrentPrice) : Prop :=
  vm_price c' x y (cp_AskPrice cp) ∧ ∃ r, reverseInt (cp_BidPrice cp) = Ok r ∧ vm_price c' y x r.

Lemma prices_set_run c st cp x y : o_holds c st → asset_parts (cp_AssetCode cp) x y → current_ok (cp_AssetCode cp) cp → ∃ c',
  (addCurrentPrice modulePerms cp;; store_vm_price cp;;
   newPriceReversed ← lift (GetReversedAssetCurrentPrice cp); store_vm_price newPriceReversed;; EmitEvent (NewPriceEvent cp)) self c = (Ok tt, c') ∧
  o_holds c' (oracle_spec.set_current st (<[cp_AssetCode cp := cp]> (os_current st))) ∧ frame written_stores c c' ∧
  ctx_bank c' = ctx_bank c ∧ only_prices c c' x y ∧ (x ≠ y → mirrored c' x y cp).
Proof.
  intros Hs Hp [_ _ Hask Hbid]. set (c1 := set_store c StoreKey (store_Set (ctx_stores c StoreKey) (GetCurrentPriceKey (cp_AssetCode cp)) (Marshal Bare cp))).
  pose proof (holds_add_current c st cp Hs) as Hs1. fold c1 in Hs1.
  destruct (store_vm_price_run c1 cp x y Hp) as (s2 & Hrun2 & Hpr2 & Hsame2); [lia|]. set (c2 := set_store c1 vm_store s2) in *.
  destruct (reverseInt_ok (cp_BidPrice cp)) as (r & Hr & Hr0 & Hrb); [lia|]. destruct (reverseInt_ok (cp_AskPrice cp)) as (r' & Hr' & _); [lia|].
  set (rev := MkCurrentPrice (reversed x y) r r' (cp_ReceivedAt cp)).
  assert (GetReversedAssetCurrentPrice cp = Ok rev) as Hrev. { unfold GetReversedAssetCurrentPrice. by rw (ReverseCode_parts _ x y Hp) Hr Hr'. }
  assert (r < 2 ^ 128) as Hr128. { assert (r ≤ 10 ^ 16 + 1) by nia. lia. }
  destruct (store_vm_price_run c2 rev y x) as (s3 & Hrun3 & Hpr3 & Hsame3); [by apply (parts_reversed (cp_AssetCode cp))|done|].
  set (c3 := set_store c2 vm_store s3) in *. exists (set_events c3 (ctx_events c3 ++ [NewPriceEvent cp])).
  assert (∀ k, k ∈ own_stores → ctx_stores c3 k = ctx_stores c1 k) as Hk.
  { intros k Hk. pose proof (vm_store_ne k Hk). unfold c3, c2. rw !ctx_stores_set_store. destruct (decide (k = vm_store)); [congruence|done]. }
  assert (∀ p, vm_at c1 p = vm_at c p) as Hc1.
  { intros p. unfold c1. simpl. rw decide_False; [done|]. apply vm_store_ne. left. }
  split; [|split; [|split; [|split; [done|split]]]].
  - rw (M_bind_Ok _ _ _ c tt c1); [|unfold addCurrentPrice; by rw (own_run modulePerms own_perms)].
    rw (M_bind_Ok _ _ _ _ _ _ Hrun2) (M_bind_Ok _ _ _ _ _ _ (lift_Ok _ _ self c2 Hrev)). by rw (M_bind_Ok _ _ _ _ _ _ Hrun3).
  - apply (o_holds_stores c1); [apply (Hk StoreKey); left|apply (Hk (params_store DefaultParamspace)); right; left|done].
  - split; [|done]. intros k Hk'. simpl. rw !decide_False; [done|..]; intros ->; apply Hk'; [left|right; left..].
  - intros p Hpo Hn1 Hn2. change (vm_at c3 p = vm_at c p). by rw Hsame3; [|done..]; rw Hsame2; [|done..].
  - intros Hne. split.
    + destruct Hpr2 as (bz & Hbz & Hat). exists bz. split; [done|]. change (vm_at c3 (price_path x y) = Some bz).
      rw Hsame3; [done|apply price_path_ok|]. by intros [? ?]%price_path_inj.
    + exists r. split; [done|]. exact Hpr3.
Qed.

(** One asset. *)
Lemma asset_run n c st a x y : o_holds c st → o_inv st → AssetCode_Validate (as_AssetCode a) = Ok tt → asset_parts (as_AssetCode a) x y →
  ∃ n' c', SetCurrentPrices_asset modulePerms n a self c = (Ok n', c') ∧
    o_holds c' (oracle_spec.block_asset (ctx_height c) (ctx_time c) st (as_AssetCode a)) ∧ frame written_stores c c' ∧ ctx_bank c' = ctx_bank c ∧
    match oracle_spec.updated st (ctx_height c) (ctx_time c) (as_AssetCode a) with
    | Some cp => only_prices c c' x y ∧ (x ≠ y → mirrored c' x y cp)
    | None => ∀ p, vm_at c' p = vm_at c p
    end.
Proof.
  intros Hs Hi Hv Hp. set (code := as_AssetCode a) in *. unfold SetCurrentPrices_asset. fold code. cbv zeta.
  rw (M_bind_Ok _ _ _ c (ctx_height c) c); [|done].
  rw (M_bind_Ok _ _ _ _ _ _ (GetRawPrices_run modulePerms own_perms no_posts c st code (ctx_height c) Hs)) (M_bind_Ok _ _ _ c (ctx_time c) c); [|done].
  destruct (medians_ok (ctx_time c) code (raw_at st code (ctx_height c)) (raw_at_ok st code (ctx_height c) Hi)) as (ask & bid & tm & Hm & _ & _ & _).
  rw (M_bind_Ok _ _ _ _ _ _ (lift_Ok _ _ self c Hm)). cbv beta iota.
  pose proof (updated_spec st (ctx_height c) (ctx_time c) code Hi Hv) as Hok. unfold oracle_spec.block_asset. unfold oracle_spec.updated in *. rw Hm. rw Hm in Hok.
  assert (∀ n', ∃ n'' c', (mret n' : M Z) self c = (Ok n'', c') ∧ o_holds c' st ∧ frame written_stores c c' ∧ ctx_bank c' = ctx_bank c ∧ ∀ p, vm_at c' p = vm_at c p) as Hskip.
  { intros n'. by exists n', c. }
  destruct ((ask =? 0) || (bid =? 0)) eqn:E0; [apply Hskip|].
  rw (M_bind_Ok _ _ _ _ _ _ (GetCurrentPrice_run modulePerms own_perms no_current c st code Hs)).
  assert (∀ n', cp_AssetCode (MkCurrentPrice code ask bid tm) = code → current_ok code (MkCurrentPrice code ask bid tm) →
    ∃ (n'' : Z) c', (addCurrentPrice modulePerms (MkCurrentPrice code ask bid tm);; store_vm_price (MkCurrentPrice code ask bid tm);;
      newPriceReversed ← lift (GetReversedAssetCurrentPrice (MkCurrentPrice code ask bid tm)); store_vm_price newPriceReversed;;
      EmitEvent (NewPriceEvent (MkCurrentPrice code ask bid tm));; mret n' : M Z) self c = (Ok n'', c') ∧
    o_holds c' (oracle_spec.set_current st (<[code := MkCurrentPrice code ask bid tm]> (os_current st))) ∧ frame written_stores c c' ∧
    ctx_bank c' = ctx_bank c ∧ only_prices c c' x y ∧ (x ≠ y → mirrored c' x y (MkCurrentPrice code ask bid tm))) as Hset.
  { intros n' _ Hcok. destruct (prices_set_run c st (MkCurrentPrice code ask bid tm) x y Hs Hp Hcok) as (c' & Hrun & Hrest). exists n', c'. split; [|done].
    unfold mbind, M_bind in Hrun |- *. repeat case_match; simplify_eq; done. }
  destruct (os_current st !! code) as [old|] eqn:Eold; simpl.
  - rw (bool_decide_false (cp_AssetCode old = "")); [|rw (cu_asset _ _ (oi_current _ Hi code old Eold)); by apply AssetCode_nonempty]. simpl.
    destruct ((cp_AskPrice old =? ask) && (cp_BidPrice old =? bid)); [apply Hskip|]. by apply Hset.
  - by apply Hset.
Qed.

(** The loop: an asset whose reverse is not an asset too shows its price. *)
Definition shows st h t (l : list string) c c' : Prop := ∀ code x y, asset_parts code x y → reversed x y ∉ l →
  match (if decide (code ∈ l) then oracle_spec.updated st h t code else None) with
  | Some cp => mirrored c' x y cp
  | None => vm_same c c' x y ∧ vm_same c c' y x
  end.

(** Only the prices of assets that the block updates are written, in both directions. *)
Definition written_only st h t (l : list string) c c' : Prop := ∀ p, common_vm.path_ok p → vm_at c' p ≠ vm_at c p →
  ∃ code x y cp, code ∈ l ∧ asset_parts code x y ∧ oracle_spec.updated st h t code = Some cp ∧
    (p = price_path x y ∨ p = price_path y x).

Lemma written_cons c c1 c2 st h t k l x y : asset_parts k x y →
  match oracle_spec.updated st h t k with Some cp => only_prices c c1 x y ∧ (x ≠ y → mirrored c1 x y cp) | None => ∀ p, vm_at c1 p = vm_at c p end →
  written_only (oracle_spec.block_asset h t st k) h t l c1 c2 → written_only st h t (k :: l) c c2.
Proof.
  intros Hk Hhead Htail p Hp Hne. destruct (decide (vm_at c2 p = vm_at c1 p)) as [E|Hd].
  - rw E in Hne. destruct (oracle_spec.updated st h t k) as [cp|] eqn:Hu; [|by destruct Hne].
    exists k, x, y, cp. split; [left|]. split; [done|]. split; [done|]. destruct Hhead as [Ho _].
    destruct (decide (p = price_path x y)); [by left|]. destruct (decide (p = price_path y x)); [by right|].
    by destruct Hne; apply Ho.
  - destruct (Htail p Hp Hd) as (code & x' & y' & cp & Hin & Hparts & Hu & Hpp). exists code, x', y', cp.
    split; [by right|]. split; [done|]. split; [|done]. destruct (decide (k = code)) as [->|Hkc].
    + destruct (oracle_spec.updated st h t code) as [cp0|] eqn:Hu0; [by rw (updated_again st h t code cp0 Hu0) in Hu|].
      assert (oracle_spec.block_asset h t st code = st) as E by (unfold oracle_spec.block_asset; by rw Hu0). by rw E Hu0 in Hu.
    + by rw updated_other in Hu.
Qed.

Lemma parts_eq code x y x' y' : asset_parts code x y → asset_parts code x' y' → x = x' ∧ y = y'.
Proof. intros Ha Hb. pose proof (parts_Split _ _ _ Ha) as E. rw (parts_Split _ _ _ Hb) in E. by injection E as -> ->. Qed.

Lemma mirrored_same c c' x y cp : vm_same c c' x y → vm_same c c' y x → mirrored c x y cp → mirrored c' x y cp.
Proof.
  unfold vm_same. intros E1 E2 ((bz & Hbz & Hat) & r & Hr & bz2 & Hbz2 & Hat2). split; [exists bz; by rw E1|].
  exists r. split; [done|]. exists bz2. by rw E2.
Qed.

Lemma shows_cons c c1 c2 st h t k l x0 y0 : asset_parts k x0 y0 →
  match oracle_spec.updated st h t k with Some cp => only_prices c c1 x0 y0 ∧ (x0 ≠ y0 → mirrored c1 x0 y0 cp) | None => ∀ p, vm_at c1 p = vm_at c p end →
  shows (oracle_spec.block_asset h t st k) h t l c1 c2 → shows st h t (k :: l) c c2.
Proof.
  intros Hk Hhead Htail code x y Hp Hrev. apply not_elem_of_cons in Hrev as [Hrk Hrl]. specialize (Htail code x y Hp Hrl).
  destruct (decide (code = k)) as [->|Hne].
  - destruct (parts_eq k x y x0 y0 Hp Hk) as [-> ->]. rw decide_True; [|left]. destruct (oracle_spec.updated st h t k) as [cp|] eqn:Hu.
    + rw (updated_again st h t k cp Hu) in Htail. destruct Hhead as [_ Hm].
      assert (vm_same c1 c2 x0 y0 ∧ vm_same c1 c2 y0 x0) as [] by (by destruct (decide (k ∈ l))).
      apply (mirrored_same c1); [done..|]. apply Hm. intros ->. apply Hrk. by destruct Hk as (-> & _).
    + assert (oracle_spec.block_asset h t st k = st) as E by (unfold oracle_spec.block_asset; by rw Hu). rw E Hu in Htail.
      assert (vm_same c1 c2 x0 y0 ∧ vm_same c1 c2 y0 x0) as [] by (by destruct (decide (k ∈ l))). unfold vm_same in *. by rw -!Hhead.
  - assert (price_path x y ≠ price_path x0 y0) as H1'.
    { intros [-> ->]%price_path_inj. apply Hne. destruct Hp as (-> & _), Hk as (-> & _). done. }
    assert (price_path x y ≠ price_path y0 x0) as H2'.
    { intros [-> ->]%price_path_inj. apply Hrk. by destruct Hk as (-> & _). }
    assert (price_path y x ≠ price_path x0 y0) as H3' by (intros [-> ->]%price_path_inj; by apply H2').
    assert (price_path y x ≠ price_path y0 x0) as H4' by (intros [-> ->]%price_path_inj; by apply H1').
    assert (vm_same c c1 x y ∧ vm_same c c1 y x) as [S1' S2'].
    { destruct (oracle_spec.updated st h t k) as [cp|]; [destruct Hhead as [Ho _]|by split; apply Hhead].
      by split; apply Ho; [apply price_path_ok|..]. }
    rw updated_other in Htail; [|done]. destruct (decide (code ∈ l)) as [Hin|Hnin].
    + rw decide_True; [|by right]. destruct (oracle_spec.updated st h t code); [done|]. unfold vm_same in *. by rw -S1' -S2'.
    + rw decide_False; [|by intros [->|?]%elem_of_cons]. unfold vm_same in *. by rw -S1' -S2'.
Qed.

Lemma loop_run l n c st : o_holds c st → o_inv st → Forall (λ a, AssetCode_Validate (as_AssetCode a) = Ok tt) l →
  ∃ n' c', SetCurrentPrices_loop modulePerms n l self c = (Ok n', c') ∧
    o_holds c' (foldl (oracle_spec.block_asset (ctx_height c) (ctx_time c)) st (as_AssetCode <$> l)) ∧
    frame written_stores c c' ∧ ctx_bank c' = ctx_bank c ∧ shows st (ctx_height c) (ctx_time c) (as_AssetCode <$> l) c c' ∧
    written_only st (ctx_height c) (ctx_time c) (as_AssetCode <$> l) c c'.
Proof.
  intros Hs Hi Hl. revert n c st Hs Hi. induction Hl as [|a l Ha _ IH]; intros n c st Hs Hi.
  { exists n, c. split; [done|]. split; [done|]. split; [apply frame_refl|]. split; [done|].
    split; [by intros code x y _ _|by intros p _ []]. }
  destruct (AssetCode_parts _ Ha) as (x & y & Hp). destruct (asset_run n c st a x y Hs Hi Ha Hp) as (n1 & c1 & Hrun1 & Hs1 & Hf1 & Hb1 & Hhead).
  destruct (IH n1 c1 _ Hs1 (block_asset_inv st _ _ _ Hi Ha)) as (n2 & c2 & Hrun2 & Hs2 & Hf2 & Hb2 & Htail & Hw). pose proof Hf1 as (_ & Eh & Et).
  rw Eh Et in Hs2, Htail, Hw. exists n2, c2. split; [|split; [done|split; [by eapply frame_trans|split; [congruence|]]]].
  - cbn [SetCurrentPrices_loop]. by rw (M_bind_Ok _ _ _ _ _ _ Hrun1).
  - rw fmap_cons. split; [by apply (shows_cons c c1 c2 st _ _ (as_AssetCode a) _ x y Hp)|by apply (written_cons c c1 c2 st _ _ (as_AssetCode a) _ x y Hp)].
Qed.

Lemma oracle_EndBlocker_run caller c st : o_holds c st → o_inv st →
  ∃ c', EndBlocker modulePerms caller c = (Ok tt, c') ∧ o_holds c' (oracle_spec.block st (ctx_height c) (ctx_time c)) ∧
    frame written_stores c c' ∧ ctx_bank c' = ctx_bank c ∧ shows st (ctx_height c) (ctx_time c) (codes st) c c' ∧
    written_only st (ctx_height c) (ctx_time c) (codes st) c c'.
Proof.
  intros Hs Hi. destruct (loop_run (p_Assets (os_params st)) 0 c st Hs Hi) as (n & c1 & Hrun & Hs1 & Hf & Hb & Hsh & Hw).
  { eapply Forall_impl; [apply Hi|]. by intros a []. }
  set (c2 := if 0 <? n then set_events c1 (ctx_events c1 ++ [NewModuleNameEvent ModuleName]) else c1).
  assert (∀ k, ctx_stores c2 k = ctx_stores c1 k) as Hk by (intros k; unfold c2; by destruct (0 <? n)).
  assert (SetCurrentPrices modulePerms self c = (Ok tt, c2)) as Hset.
  { unfold SetCurrentPrices. rw (own_run modulePerms own_perms) (M_bind_Ok _ _ _ _ _ _ (GetAssetParams_run modulePerms own_perms c st Hs)).
    rw (M_bind_Ok _ _ _ _ _ _ Hrun). unfold c2. by destruct (0 <? n). }
  exists c2. split; [|split; [|split; [|split; [|split]]]].
  - unfold EndBlocker, in_module. by rw (M_bind_Ok _ _ _ _ _ _ (attempt_Ok _ _ _ _ _ Hset)).
  - by apply (o_holds_stores c1).
  - destruct Hf as (Hfs & Hfh & Hft). split; [intros k Hk'; by rw Hk Hfs|]. unfold c2. by destruct (0 <? n).
  - unfold c2. by destruct (0 <? n).
  - intros code x y Hp Hrev. specialize (Hsh code x y Hp Hrev). unfold mirrored, vm_price, vm_same in *. by rw !Hk.
  - intros p Hp. rw Hk. by apply Hw.
Qed.

(** The price the block leaves current. *)
Lemma block_price st h t code : o_inv st → let ps := raw_at st code h in
  let ask := median_of (po_AskPrice <$> ps) in let bid := median_of (po_BidPrice <$> ps) in
  if decide (code ∈ codes st ∧ ps ≠ [] ∧ ask ≠ 0 ∧ bid ≠ 0) then
    ∃ cp, os_current (oracle_spec.block st h t) !! code = Some cp ∧ cp_AssetCode cp = code ∧ cp_AskPrice cp = ask ∧ cp_BidPrice cp = bid
  else os_current (oracle_spec.block st h t) !! code = os_current st !! code.
Proof.
  intros Hi ps ask bid. unfold oracle_spec.block. pose proof (block_current st h t (codes st) code) as Hb.
  destruct (medians_ok t code ps (raw_at_ok st code h Hi)) as (a & b & tm & Hm & _ & _ & Hspec).
  assert (oracle_spec.updated st h t code = if (a =? 0) || (b =? 0) then None else match os_current st !! code with
    | Some old => if (cp_AskPrice old =? a) && (cp_BidPrice old =? b) then None else Some (MkCurrentPrice code a b tm)
    | None => Some (MkCurrentPrice code a b tm) end) as Hu by (unfold oracle_spec.updated; fold ps; by rw Hm).
  destruct (decide (code ∈ codes st ∧ ps ≠ [] ∧ ask ≠ 0 ∧ bid ≠ 0)) as [Hc|Hc].
  - destruct Hc as (Hin & Hne & Ha & Hbd). destruct (Hspec Hne) as (Ea & Eb & _). fold ask in Ea. fold bid in Eb. subst a b.
    rw Hb. rw (decide_True (P := code ∈ codes st)); [|done]. rw Hu. rw (proj2 (Z.eqb_neq ask 0)); [|done]. rw (proj2 (Z.eqb_neq bid 0)); [|done].
    simpl. destruct (os_current st !! code) as [old|] eqn:Eold; [|by eexists].
    destruct ((cp_AskPrice old =? ask) && (cp_BidPrice old =? bid)) eqn:E; [|by eexists].
    apply andb_true_iff in E as [E1%Z.eqb_eq E2%Z.eqb_eq]. exists old. split; [done|]. by destruct (oi_current _ Hi code old Eold).
  - rw Hb. destruct (decide (code ∈ codes st)) as [Hin|]; [|done]. rw Hu. destruct ((a =? 0) || (b =? 0)) eqn:E0; [done|].
    apply orb_false_iff in E0 as [Ea0%Z.eqb_neq Eb0%Z.eqb_neq]. exfalso. destruct (decide (ps = [])) as [Eps|Hne].
    + unfold medians in Hm. rw Eps in Hm. injection Hm as <- <- <-. done.
    + destruct (Hspec Hne) as (Ea & Eb & _). apply Hc. split; [done|]. split; [done|]. unfold ask, bid. by rw -Ea -Eb.
Qed.

(** ** Theorems *)

(** An update changes the current price. *)
Lemma updated_changes st h t code cp : code ∈ codes st → oracle_spec.updated st h t code = Some cp →
  os_current (oracle_spec.block st h t) !! code = Some cp ∧ os_current (oracle_spec.block st h t) !! code ≠ os_current st !! code.
Proof.
  intros Hin Hu. assert (os_current (oracle_spec.block st h t) !! code = Some cp) as E.
  { unfold oracle_spec.block. rw block_current decide_True; [|done]. by rw Hu. }
  split; [done|]. rw E. intros Eold. unfold oracle_spec.updated in Hu. rw -Eold in Hu.
  destruct (medians _ _) as [[[ask bid] tm]|e|]; [|done..]. destruct (_ || _); [done|].
  destruct (Z.eqb_spec (cp_AskPrice cp) ask), (Z.eqb_spec (cp_BidPrice cp) bid); simpl in Hu; [done|..];
    injection Hu as Ecp; rw -Ecp in n; by destruct n.
Qed.

(** An asset whose price became current and whose reverse is not an asset too: the VM
    reads the ask, and for the reverse the reciprocal of the bid (8 decimals each). *)
Definition vm_shows c' x y (cp : CurrentPrice) : Prop := vm_price c' x y (cp_AskPrice cp) ∧
  ∃ r, vm_price c' y x r ∧ 10 ^ 16 - 2 * cp_BidPrice cp < r * cp_BidPrice cp ≤ 10 ^ 16 + cp_BidPrice cp.

Lemma shows_changed st c c' code x y cp : o_inv st → shows st (ctx_height c) (ctx_time c) (codes st) c c' →
  asset_parts code x y → reversed x y ∉ codes st → os_current (oracle_spec.block st (ctx_height c) (ctx_time c)) !! code = Some cp →
  os_current st !! code ≠ Some cp → vm_shows c' x y cp.
Proof.
  intros Hi Hsh Hp Hrev Hcp Hne. specialize (Hsh code x y Hp Hrev).
  pose proof (block_current st (ctx_height c) (ctx_time c) (codes st) code) as Hb. unfold oracle_spec.block in Hcp. rw Hcp in Hb.
  destruct (decide (code ∈ codes st)) as [Hcode|]; [|by destruct Hne].
  assert (AssetCode_Validate code = Ok tt) as Hv by (pose proof (inv_codes st Hi) as Hc; rewrite Forall_forall in Hc; by apply Hc).
  pose proof (updated_spec st (ctx_height c) (ctx_time c) code Hi Hv) as Hok.
  destruct (oracle_spec.updated st _ _ code) as [cp'|]; [|by destruct Hne]. injection Hb as <-.
  destruct Hsh as (Hask & r & Hr & Hvr). split; [done|]. exists r. split; [done|]. destruct Hok as [_ _ _ Hbid].
  destruct (reverseInt_ok (cp_BidPrice cp)) as (r' & Hr' & _ & Hbd); [lia|]. rw Hr in Hr'. by injection Hr' as <-.
Qed.

(** C20: the end blocker never fails; afterwards the current price of an asset with posts
    of this block is the median of their asks and of their bids, unless one is zero, and
    every other current price, the posts (old ones included) and the parameters are what
    they were.  It writes this module's store and the VM's only, and no balance.  In the
    VM it writes the prices of assets whose current price changed, for the asset and its
    reverse, and nothing else: when the reverse is not an asset too, they are the ask
    and the reciprocal of the bid. *)
Theorem EndBlocker_sets_medians caller c st : o_holds c st → o_inv st →
  ∃ c' st', EndBlocker modulePerms caller c = (Ok tt, c') ∧ o_holds c' st' ∧ o_inv st' ∧
    os_params st' = os_params st ∧ os_raw st' = os_raw st ∧
    (∀ code, let ps := raw_at st code (ctx_height c) in
      let ask := median_of (po_AskPrice <$> ps) in let bid := median_of (po_BidPrice <$> ps) in
      if decide (code ∈ codes st ∧ ps ≠ [] ∧ ask ≠ 0 ∧ bid ≠ 0)
      then ∃ cp, os_current st' !! code = Some cp ∧ cp_AssetCode cp = code ∧ cp_AskPrice cp = ask ∧ cp_BidPrice cp = bid
      else os_current st' !! code = os_current st !! code) ∧
    ctx_bank c' = ctx_bank c ∧ (∀ k, k ≠ StoreKey → k ≠ vm_store → ctx_stores c' k = ctx_stores c k) ∧
    (∀ p, common_vm.path_ok p → vm_at c' p ≠ vm_at c p →
      ∃ code x y, code ∈ codes st ∧ asset_parts code x y ∧ os_current st' !! code ≠ os_current st !! code ∧
        (p = price_path x y ∨ p = price_path y x)) ∧
    (∀ code x y cp, asset_parts code x y → reversed x y ∉ codes st →
      os_current st' !! code = Some cp → os_current st !! code ≠ Some cp → vm_shows c' x y cp).
Proof.
  intros Hs Hi. destruct (oracle_EndBlocker_run caller c st Hs Hi) as (c' & Hrun & Hs' & (Hk & _) & Hb & Hsh & Hw).
  exists c', (oracle_spec.block st (ctx_height c) (ctx_time c)).
  split; [done|]. split; [done|]. split; [by apply block_inv, inv_codes|]. split; [apply block_params|]. split; [apply block_raw|].
  split; [intros code; by apply block_price|]. split; [done|].
  split; [intros k H1' H2'; apply Hk; by rw !elem_of_cons elem_of_nil; intros [?|[?|?]]|]. split.
  - intros p Hp Hne. destruct (Hw p Hp Hne) as (code & x & y & cp & Hin & Hparts & Hu & Hpp). exists code, x, y.
    split; [done|]. split; [done|]. split; [by eapply updated_changes|done].
  - intros code x y cp. by apply shows_changed.
Qed.

(** When more than half of the asks posted for an asset are between two bounds, and
    more than half of the bids, so is the price the end blocker makes current: a minority
    of oracles cannot move it outside. *)
Theorem EndBlocker_follows_majority caller c st code lo hi lo' hi' : o_holds c st → o_inv st → code ∈ codes st →
  let ps := raw_at st code (ctx_height c) in
  (length ps < 2 * count_within lo hi (po_AskPrice <$> ps))%nat → 0 < lo →
  (length ps < 2 * count_within lo' hi' (po_BidPrice <$> ps))%nat → 0 < lo' →
  ∃ c' st' cp, EndBlocker modulePerms caller c = (Ok tt, c') ∧ o_holds c' st' ∧ os_current st' !! code = Some cp ∧
    lo ≤ cp_AskPrice cp ≤ hi ∧ lo' ≤ cp_BidPrice cp ≤ hi'.
Proof.
  intros Hs Hi Hcode ps Hmaj Hlo Hmaj' Hlo'. destruct (oracle_EndBlocker_run caller c st Hs Hi) as (c' & Hrun & Hs' & _).
  pose proof (block_price st (ctx_height c) (ctx_time c) code Hi) as Hp. cbv zeta in Hp. fold ps in Hp.
  pose proof (median_majority lo hi (po_AskPrice <$> ps)) as Ha. rw length_fmap in Ha. specialize (Ha Hmaj).
  pose proof (median_majority lo' hi' (po_BidPrice <$> ps)) as Hb. rw length_fmap in Hb. specialize (Hb Hmaj').
  rw decide_True in Hp.
  2:{ split; [done|]. split; [|lia]. intros E. rw E in Hmaj. simpl in Hmaj. unfold count_within in Hmaj. simpl in Hmaj. lia. }
  destruct Hp as (cp & Hcp & _ & Eask & Ebid). exists c', (oracle_spec.block st (ctx_height c) (ctx_time c)), cp.
  split; [done|]. split; [done|]. split; [done|]. by rw Eask Ebid.
Qed.

(** Of an asset whose reverse is not an asset too, the VM reads the ask that became
    current, and for the reverse the reciprocal of the bid: with 8 decimals each, their
    product is one up to twice the bid. *)
Theorem EndBlocker_mirrors_prices caller c st code x y : o_holds c st → o_inv st →
  code ∈ codes st → asset_parts code x y → reversed x y ∉ codes st →
  ∃ c' st', EndBlocker modulePerms caller c = (Ok tt, c') ∧ o_holds c' st' ∧
    (os_current st' !! code = os_current st !! code ∨
    ∃ cp r, os_current st' !! code = Some cp ∧ vm_price c' x y (cp_AskPrice cp) ∧ vm_price c' y x r ∧
      10 ^ 16 - 2 * cp_BidPrice cp < r * cp_BidPrice cp ≤ 10 ^ 16 + cp_BidPrice cp).
Proof.
  intros Hs Hi Hcode Hp Hrev. destruct (oracle_EndBlocker_run caller c st Hs Hi) as (c' & Hrun & Hs' & _ & _ & Hsh & _).
  exists c', (oracle_spec.block st (ctx_height c) (ctx_time c)). split; [done|]. split; [done|].
  destruct (decide (os_current (oracle_spec.block st (ctx_height c) (ctx_time c)) !! code = os_current st !! code)) as [|Hne]; [by left|right].
  destruct (os_current (oracle_spec.block st _ _) !! code) as [cp|] eqn:Ecp.
  - destruct (shows_changed st c c' code x y cp Hi Hsh Hp Hrev Ecp) as (Hask & r & Hr & Hbd); [by intros E|]. by exists cp, r.
  - destruct Hne. unfold oracle_spec.block in Ecp. rw block_current decide_True in Ecp; [|done].
    destruct (oracle_spec.updated st _ _ code); [done|]. by rw Ecp.
Qed.

(** Delivered messages, blocks, and whatever leaves the module's stores alone. *)
Inductive o_step : Ctx → Ctx → Prop :=
  | os_msg c msg caller r c' : validated msg → NewHandler modulePerms msg caller c = (Ok r, c') → o_step c c'
  | os_block c caller c' : EndBlocker modulePerms caller c = (Ok tt, c') → o_step c c'
  | os_others c c' : (∀ k, k ∈ own_stores → ctx_stores c' k = ctx_stores c k) → o_step c c'.

Lemma o_step_typed c c' st : o_holds c st → o_inv st → o_step c c' →
  ∃ st', o_holds c' st' ∧ o_inv st' ∧ p_Nominees (os_params st') = p_Nominees (os_params st) ∧ p_PostPrice (os_params st') = p_PostPrice (os_params st).
Proof.
  intros Hs Hi Hstep. revert Hs. destruct Hstep as [c1 msg caller r c2 Hv Hrun|c1 caller c2 Hrun|c1 c2 Hk]; intros Hs.
  - pose proof (NewHandler_runs modulePerms own_perms no_posts c1 st msg Hs) as Hr. unfold runs in Hr.
    destruct (oracle_spec.step st _ _ msg) as [st'|e|] eqn:E; [|change (NewHandler modulePerms msg self c1 = (Ok r, c2)) in Hrun; congruence|done].
    destruct Hr as (r' & c3 & Hrun' & Hs' & _). change (NewHandler modulePerms msg self c1 = (Ok r, c2)) in Hrun. assert (c3 = c2) as -> by congruence.
    exists st'. split; [done|]. by eapply oracle_step_inv.
  - destruct (oracle_EndBlocker_run caller c1 st Hs Hi) as (c3 & Hrun' & Hs' & _). assert (c3 = c2) as -> by congruence.
    eexists. split; [exact Hs'|]. split; [by apply block_inv, inv_codes|]. unfold oracle_spec.block. by rw block_params.
  - exists st. split; [|done]. apply (o_holds_stores c1); [apply Hk; left|apply Hk; right; left|done].
Qed.

(** C22: whatever messages and blocks follow, the state keeps the promises of its types:
    assets have valid, distinct codes and an oracle each, an oracle has at most one post
    per asset and height, prices are 64-bit and current ones positive; the nominees and
    the posting parameters never change. *)
Theorem oracle_stays_typed c c' st : o_holds c st → o_inv st → rtc o_step c c' →
  ∃ st', o_holds c' st' ∧ o_inv st' ∧ p_Nominees (os_params st') = p_Nominees (os_params st) ∧ p_PostPrice (os_params st') = p_PostPrice (os_params st).
Proof.
  intros Hs Hi Hrun. revert st Hs Hi. induction Hrun as [c|c1 c2 c3 Hstep _ IH]; intros st Hs Hi; [by exists st|].
  destruct (o_step_typed c1 c2 st Hs Hi Hstep) as (st2 & Hs2 & Hi2 & En & Ep). destruct (IH st2 Hs2 Hi2) as (st3 & Hs3 & Hi3 & En3 & Ep3).
  exists st3. split; [done|]. split; [done|]. split; congruence.
Qed.
End block.
