(* ===== verification/OracleWitnesses.v ===== *)
(** * Oracle: the theorems on a concrete chain

    One asset with three oracles at height 5: two of them post close prices, the third
    a far one. *)
From Stdlib Require Import QArith Qround Qpower Lqa.
From S2P Require Import Prelude Bytes Sdk SdkRef SdkFacts DnTypes Perms Chain VMStorage CCStorage Scenario Oracle OracleFacts OracleTheorems OracleBlock.
Local Open Scope string_scope.
Local Open Scope Z_scope.
Import oracle.

(** ** Decimals as rational numbers *)
Section decimals.
Local Open Scope Q_scope.
Definition ref_Div (a b : Q) : outcome Q :=
  if Qeq_bool b 0 then Panic else Ok (inject_Z (Qfloor (a / b * inject_Z (10 ^ 16) + (1 # 2))) / inject_Z (10 ^ 16)).

#[export] Instance Decimal_ref : Decimal := {|
  decimal := Q;
  decimal_NewFromBigInt z e := if (e <=? 0)%Z then inject_Z z / inject_Z (10 ^ (- e)) else inject_Z (z * 10 ^ e);
  decimal_NewFromInt z := inject_Z z;
  decimal_Div := ref_Div;
  decimal_Mul := Qmult;
  decimal_Pow a b := Qpower a (Qfloor b);
  decimal_BigInt a := if Qle_bool 0 a then Qfloor a else (- Qfloor (- a))%Z;
|}.

#[export] Program Instance DecimalLaws_ref : DecimalLaws := {| d_val (a : decimal (Decimal := Decimal_ref)) := (a : Q) |}.
Next Obligation. intros z n Hn. simpl. rw (proj2 (Z.leb_le (- n) 0)); [|lia]. by rw Z.opp_involutive. Qed.
Next Obligation. intros z. reflexivity. Qed.
Next Obligation.
  intros a b Hb. simpl. unfold ref_Div. destruct (Qeq_bool b 0) eqn:E; [by apply Qeq_bool_eq in E|]. eexists. split; [done|].
  set (q := a / b * inject_Z (10 ^ 16)). set (k := Qfloor (q + (1 # 2))).
  assert ((inject_Z k / inject_Z (10 ^ 16) - a / b) * inject_Z (10 ^ 16) == inject_Z k - q) as ->.
  { unfold q. field. split; [exact Hb|discriminate]. }
  pose proof (Qfloor_le (q + (1 # 2))) as H1. pose proof (Qlt_floor (q + (1 # 2))) as H2. fold k in H1, H2.
  rewrite inject_Z_plus in H2. change (inject_Z 1) with (1 # 1) in H2. split; lra.
Qed.
Next Obligation. intros a b Hb. simpl. unfold ref_Div. by rw (proj2 (Qeq_bool_iff b 0) Hb). Qed.
Next Obligation. intros a b. reflexivity. Qed.
Next Obligation. intros a z n Hz Hn Ha. change (Qpower a (Qfloor (inject_Z n)) == inject_Z (z ^ n)). rewrite Qfloor_Z Zpower_Qpower; [|done]. by rewrite Ha. Qed.
Next Obligation. intros a Ha. simpl. by rw (proj2 (Qle_bool_iff 0 a) Ha). Qed.
End decimals.

#[export] Instance SdkInts_ref : SdkInts := {| Int_Quo a b := if b =? 0 then Panic else Ok (Z.quot a b) |}.
#[export] Instance SdkIntsLaws_ref : SdkIntsLaws.
Proof. split; [|done]. intros a b Hb. simpl. by rw (proj2 (Z.eqb_neq b 0)). Qed.

(** ** Codecs *)
#[export] Instance oracle_eq_dec : EqDecision Oracle.
Proof. solve_decision. Defined.
#[export] Instance oracle_countable : Countable Oracle.
Proof. refine (inj_countable' or_Address MkOracle _). abstract (by intros []). Defined.
#[export] Instance asset_eq_dec : EqDecision Asset.
Proof. solve_decision. Defined.
#[export] Instance asset_countable : Countable Asset.
Proof. refine (inj_countable' (λ a, (as_AssetCode a, as_Oracles a, as_Active a)) (λ x, MkAsset x.1.1 x.1.2 x.2) _). abstract (by intros []). Defined.
#[export] Instance ppp_eq_dec : EqDecision PostPriceParams.
Proof. solve_decision. Defined.
#[export] Instance ppp_countable : Countable PostPriceParams.
Proof. refine (inj_countable' pp_ReceivedAtDiffInS MkPostPriceParams _). abstract (by intros []). Defined.
#[export] Instance posted_eq_dec : EqDecision PostedPrice.
Proof. solve_decision. Defined.
#[export] Instance posted_countable : Countable PostedPrice.
Proof.
  refine (inj_countable' (λ p, ((po_AssetCode p, po_OracleAddress p), (po_AskPrice p, po_BidPrice p, po_ReceivedAt p)))
    (λ x, MkPostedPrice x.1.1 x.1.2 x.2.1.1 x.2.1.2 x.2.2) _). abstract (by intros []).
Defined.
#[export] Instance current_eq_dec : EqDecision CurrentPrice.
Proof. solve_decision. Defined.
#[export] Instance current_countable : Countable CurrentPrice.
Proof.
  refine (inj_countable' (λ p, (cp_AssetCode p, cp_AskPrice p, cp_BidPrice p, cp_ReceivedAt p)) (λ x, MkCurrentPrice x.1.1.1 x.1.1.2 x.1.2 x.2) _).
  abstract (by intros []).
Defined.

(** No bytes encode the zero value. *)
Program Definition codec_zero {A} `{EqDecision A} (zero : A) (C : Codec A) : Codec A := {|
  Marshal e a := if decide (a = zero) then "" else String "x" (Marshal e a);
  Unmarshal e s := match s with "" => Some zero | String _ s' => Unmarshal e s' end;
|}.
Next Obligation. intros A ? zero C e a. simpl. case_decide as E; [by subst|apply Unmarshal_Marshal]. Qed.

#[export] Instance codec_Assets : Codec (list Asset) := codec_of_countable (list Asset).
#[export] Instance codec_Nominees : Codec (list string) := codec_of_countable (list string).
#[export] Instance codec_PostPrice : Codec PostPriceParams := codec_of_countable PostPriceParams.
#[export] Instance codec_Current : Codec CurrentPrice := codec_zero no_price (codec_of_countable CurrentPrice).
#[export] Instance codec_Posts : Codec (list PostedPrice) := codec_zero [] (codec_of_countable (list PostedPrice)).

Lemma zero_posts : Unmarshal Bare "" = Some ([] : list PostedPrice).
Proof. reflexivity. Qed.
Lemma zero_current : Unmarshal Bare "" = Some no_price.
Proof. reflexivity. Qed.

#[export] Instance lcs_Price : Lcs ResPrice.
Proof.
  refine {|
    lcs_Marshal i := if (0 <=? rp_Value i) && (rp_Value i <? 2 ^ 128) then Ok (Marshal (Codec := codec_of_countable Z) Bare (rp_Value i)) else Err (Plain "u128");
    lcs_Unmarshal bz := match Unmarshal (Codec := codec_of_countable Z) Bare bz with Some z => Ok (MkResPrice z) | None => Err (Plain "lcs") end;
  |}.
  abstract (intros i bz; destruct (_ && _); [|done]; intros [= <-]; rw Unmarshal_Marshal; by destruct i).
Defined.
Lemma lcs_Price_ok z : 0 ≤ z < 2 ^ 128 → ∃ bz, lcs_Marshal (MkResPrice z) = Ok bz.
Proof. intros [Hlo Hhi]. simpl. rw (proj2 (Z.leb_le _ _) Hlo) (proj2 (Z.ltb_lt _ _) Hhi). by eexists. Qed.

#[export] Program Instance OracleVector_ref : OracleVector := {|
  OracleAccessVector a b := Marshal (Codec := codec_of_countable (string * string)) Bare (a, b);
|}.
Next Obligation.
  intros a b c d E. apply (f_equal (Unmarshal (Codec := codec_of_countable (string * string)) Bare)) in E. rw !Unmarshal_Marshal in E.
  apply Some_inj, pair_eq in E. done.
Qed.

(** ** The chain *)
Definition oracle_perms : ModulePermissions := NewModulePerms.
Definition vm_for_oracle : ModulePermissions :=
  match vm.NewKeeper [RequestVMStoragePerms] with Ok p => p | _ => vm.NewModulePerms end.
#[local] Instance the_oracle_vm : VMStorage := vm.vm_storage vm_for_oracle.
#[local] Instance the_oracle_vm_laws : VMStorageLaws (vm.storage_clients vm_for_oracle) vm.StoreKey := vm.vm_storage_laws vm_for_oracle.
Lemma oracle_admitted : vm.storage_clients vm_for_oracle ModuleName.
Proof. split; vm_compute; reflexivity. Qed.
Lemma oracle_vm_differs : vm.StoreKey ∉ own_stores.
Proof. apply (bool_decide_unpack _). vm_compute. exact I. Qed.

Definition nominee : string := "nominee-account-addr".
Definition source (n : string) : string := "oracle-address-no-" +:+ n.
Definition btc_asset : Asset := MkAsset "btc_usdt" [MkOracle (source "01"); MkOracle (source "02"); MkOracle (source "03")] true.
Definition the_params : Params := MkParams [btc_asset] [AccAddress_String nominee] (MkPostPriceParams 3600).
Definition quiet : ostate := MkOstate the_params ∅ ∅.

Definition param_entries : store (KVStore := KVStore_ref) :=
  store_Set (store_Set (store_Set empty_store KeyAssets (Marshal JSON (p_Assets the_params)))
    KeyNominees (Marshal JSON (p_Nominees the_params))) KeyPostPrice (Marshal JSON (p_PostPrice the_params)).
Definition quiet_chain : Ctx :=
  MkCtx (λ k, if decide (k = params_store DefaultParamspace) then param_entries else empty_store) ∅ [] 5 genesis_time.

Lemma quiet_holds : o_holds quiet_chain quiet.
Proof.
  split.
  - intros code h. reflexivity.
  - intros code. reflexivity.
  - intros k v _ E. done.
  - do 2 (etrans; [by apply store_Get_Set_ne|]). by apply store_Get_Set_eq.
  - etrans; [by apply store_Get_Set_ne|]. by apply store_Get_Set_eq.
  - by apply store_Get_Set_eq.
Qed.
Lemma quiet_inv : o_inv quiet.
Proof.
  split; try done.
  - repeat constructor. done.
  - apply NoDup_singleton.
Qed.

(** The first oracle posts. *)
Definition post1 : MsgPostPrice := MkMsgPostPrice (source "01") "btc_usdt" 900000000001 899999999999 genesis_time.
Definition after_post : ostate := oracle_spec.set_raw quiet "btc_usdt" 5
  [MkPostedPrice "btc_usdt" (source "01") 900000000001 899999999999 genesis_time].
Lemma post_step : oracle_spec.step quiet 5 genesis_time (Msg_PostPrice post1) = Ok after_post.
Proof. vm_compute. reflexivity. Qed.

Lemma post1_accepted : ∀ e, ¬ refuses quiet genesis_time (Msg_PostPrice post1) e.
Proof.
  intros e Hr. inversion Hr as [msg e' E|msg Hno|msg a [Hin _] Hnot|msg a _ _ Hfar| | | | | | | | |]; subst.
  - discriminate E.
  - apply (Hno btc_asset); [left|reflexivity].
  - apply list_elem_of_singleton in Hin as ->. apply Hnot. exists (MkOracle (source "01")). split; [left|reflexivity].
  - destruct Hfar as (_ & Hlt & _). vm_compute in Hlt. discriminate Hlt.
Qed.

Lemma post1_effect st' : accepts quiet 5 genesis_time (Msg_PostPrice post1) st' → st' = after_post.
Proof.
  intros Hacc. inversion Hacc as [msg a ps' Ha Ho Hf Hps Em Est| | | |]; subst. unfold after_post, oracle_spec.set_raw.
  replace ps' with ([MkPostedPrice "btc_usdt" (source "01") 900000000001 899999999999 genesis_time]); [reflexivity|].
  inversion Hps as [l1 q l2 E Hq Hoth Eps|Hno Eps]; [by destruct l1|reflexivity].
Qed.

Lemma NewHandler_refines_oracle_witness : ∃ r c', NewHandler oracle_perms (Msg_PostPrice post1) "app" quiet_chain = (Ok r, c') ∧ o_holds c' after_post.
Proof.
  destruct (NewHandler_refines_oracle oracle_perms eq_refl zero_posts "app" quiet_chain quiet (Msg_PostPrice post1) quiet_holds quiet_inv)
    as [(st' & r & c' & Hacc & Hrun & Hs & _)|(e & Hr & _)].
  - split; [discriminate|reflexivity].
  - exists r, c'. split; [exact Hrun|]. rewrite -(post1_effect st' Hacc). exact Hs.
  - by destruct (post1_accepted e).
Defined.

(** All three have posted. *)
Definition posted (n : string) (ask bid : Z) : PostedPrice := MkPostedPrice "btc_usdt" (source n) ask bid genesis_time.
Definition three_posts : list PostedPrice :=
  [posted "01" 900000000001 899999999999; posted "02" 5 3; posted "03" 900000000100 899999999000].
Definition busy : ostate := oracle_spec.set_raw quiet "btc_usdt" 5 three_posts.
Definition busy_chain : Ctx :=
  set_store quiet_chain StoreKey (store_Set (ctx_stores quiet_chain StoreKey) (GetRawPricesKey "btc_usdt" 5) (Marshal Bare three_posts)).

Lemma busy_holds : o_holds busy_chain busy.
Proof. apply (holds_set_raw quiet_chain quiet). apply quiet_holds. Qed.
Lemma busy_inv : o_inv busy.
Proof.
  apply inv_set_raw; [apply quiet_inv|]. split.
  - repeat constructor; done.
  - apply (bool_decide_unpack _). vm_compute. exact I.
  - repeat constructor.
  - done.
Qed.

Lemma EndBlocker_sets_medians_witness : ∃ c' st' cp, EndBlocker oracle_perms "app" busy_chain = (Ok tt, c') ∧ o_holds c' st' ∧
  os_current st' !! "btc_usdt" = Some cp ∧ cp_AskPrice cp = 900000000001 ∧ cp_BidPrice cp = 899999999000.
Proof.
  destruct (EndBlocker_sets_medians (vm.storage_clients vm_for_oracle) vm.StoreKey oracle_perms eq_refl zero_posts zero_current oracle_admitted oracle_vm_differs
    lcs_Price_ok "app" busy_chain busy busy_holds busy_inv) as (c' & st' & Hrun & Hs & _ & _ & _ & Hp & _).
  specialize (Hp "btc_usdt"). cbv zeta in Hp.
  assert (raw_at busy "btc_usdt" (ctx_height busy_chain) = three_posts) as E by (vm_compute; reflexivity). rewrite E in Hp.
  assert (median_of (po_AskPrice <$> three_posts) = 900000000001) as Ea by (vm_compute; reflexivity).
  assert (median_of (po_BidPrice <$> three_posts) = 899999999000) as Eb by (vm_compute; reflexivity). rewrite Ea Eb in Hp.
  case_decide as Hd.
  - destruct Hp as (cp & Hcp & _ & Hask & Hbid). exists c', st', cp. split; [exact Hrun|]. split; [exact Hs|]. split; [exact Hcp|]. split; [exact Hask|exact Hbid].
  - destruct Hd. split; [left|]. split; [discriminate|]. split; discriminate.
Defined.

Lemma EndBlocker_follows_majority_witness : ∃ c' st' cp, EndBlocker oracle_perms "app" busy_chain = (Ok tt, c') ∧ o_holds c' st' ∧
  os_current st' !! "btc_usdt" = Some cp ∧ 900000000000 ≤ cp_AskPrice cp ≤ 900000000200.
Proof.
  destruct (EndBlocker_follows_majority (vm.storage_clients vm_for_oracle) vm.StoreKey oracle_perms eq_refl zero_posts zero_current oracle_admitted oracle_vm_differs
    lcs_Price_ok "app" busy_chain busy "btc_usdt" 900000000000 900000000200 899999990000 900000000000 busy_holds busy_inv)
    as (c' & st' & cp & Hrun & Hs & Hcp & Hask & _).
  - left.
  - vm_compute. lia.
  - reflexivity.
  - vm_compute. lia.
  - reflexivity.
  - exists c', st', cp. split; [exact Hrun|]. split; [exact Hs|]. split; [exact Hcp|exact Hask].
Defined.

Lemma busy_parts : asset_parts "btc_usdt" "btc" "usdt".
Proof. split; [|split]; reflexivity. Qed.
Lemma EndBlocker_mirrors_prices_witness : ∃ c' st', EndBlocker oracle_perms "app" busy_chain = (Ok tt, c') ∧ o_holds c' st' ∧
  (os_current st' !! "btc_usdt" = os_current busy !! "btc_usdt" ∨
   ∃ cp r, os_current st' !! "btc_usdt" = Some cp ∧ vm_price (vm.storage_clients vm_for_oracle) vm.StoreKey c' "btc" "usdt" (cp_AskPrice cp) ∧
     vm_price (vm.storage_clients vm_for_oracle) vm.StoreKey c' "usdt" "btc" r).
Proof.
  destruct (EndBlocker_mirrors_prices (vm.storage_clients vm_for_oracle) vm.StoreKey oracle_perms eq_refl zero_posts zero_current oracle_admitted oracle_vm_differs
    lcs_Price_ok "app" busy_chain busy "btc_usdt" "btc" "usdt" busy_holds busy_inv) as (c' & st' & Hrun & Hs & Hp).
  - left.
  - exact busy_parts.
  - apply (bool_decide_unpack _). vm_compute. exact I.
  - exists c', st'. split; [exact Hrun|]. split; [exact Hs|]. destruct Hp as [Hp|(cp & r & Hcp & H1 & H2 & _)]; [left; exact Hp|right].
    exists cp, r. split; [exact Hcp|]. split; [exact H1|exact H2].
Defined.

Lemma post_exists : ∃ r c', NewHandler oracle_perms (Msg_PostPrice post1) "app" quiet_chain = (Ok r, c').
Proof.
  pose proof (NewHandler_runs oracle_perms eq_refl zero_posts quiet_chain quiet (Msg_PostPrice post1) quiet_holds) as Hr.
  change (ctx_height quiet_chain) with 5 in Hr. change (ctx_time quiet_chain) with genesis_time in Hr. rewrite post_step in Hr.
  destruct Hr as (r & c' & Hrun & _). exists r, c'. exact Hrun.
Qed.
Lemma oracle_stays_typed_witness : ∃ c' st', rtc (o_step oracle_perms) quiet_chain c' ∧ o_holds c' st' ∧ o_inv st' ∧
  p_Nominees (os_params st') = [AccAddress_String nominee].
Proof.
  destruct post_exists as (r & c1 & Hrun). exists c1.
  destruct (oracle_stays_typed (vm.storage_clients vm_for_oracle) vm.StoreKey oracle_perms eq_refl zero_posts zero_current oracle_admitted oracle_vm_differs
    lcs_Price_ok quiet_chain c1 quiet quiet_holds quiet_inv (rtc_once _ _ (os_msg oracle_perms quiet_chain (Msg_PostPrice post1) "app" r c1 eq_refl Hrun)))
    as (st' & Hs & Hi & Hn & _).
  exists st'. split; [exact (rtc_once _ _ (os_msg oracle_perms quiet_chain (Msg_PostPrice post1) "app" r c1 eq_refl Hrun))|].
  split; [exact Hs|]. split; [exact Hi|exact Hn].
Defined.
