(* ===== verification/VmEvents.v ===== *)
(** * Results of the Move VM ([x/vm/internal/types])

    What the VM answers to an execution request, the events the chain makes of it, the
    gas charged for printing the type of a Move event, and the way back from the events
    of a transaction to the status codes a client sees; and what holds of them. *)
From S2P Require Import Prelude Bytes Sdk DnTypes Chain VMStorage.
Local Open Scope string_scope.
Local Open Scope Z_scope.

(** ** The messages of the VM ([vm_grpc])

    A Go pointer that may be nil is an option. *)
Inductive LcsType :=
  | LcsType_LcsBool | LcsType_LcsU8 | LcsType_LcsU64 | LcsType_LcsU128 | LcsType_LcsSigner | LcsType_LcsVector
  | LcsType_LcsStruct | LcsType_other (n : Z).

#[export] Instance lcs_type_eq_dec : EqDecision LcsType.
Proof. solve_decision. Defined.

Inductive LcsTag := MkLcsTag {
  tag_TypeTag : LcsType;
  tag_VectorType : option LcsTag;
  tag_StructIdent : option LcsStructIdent;
}
with LcsStructIdent := MkLcsStructIdent {
  si_Address : string;
  si_Module : string;
  si_Name : string;
  si_TypeParams : list (option LcsTag);
}.

Record AbortLocation := MkAbortLocation { al_Address : option string; al_Module : string }.
Record Abort := MkAbort { ab_AbortLocation : option AbortLocation; ab_AbortCode : Z }.
Record Failure := MkFailure { fa_StatusCode : Z; fa_AbortLocation : option AbortLocation }.
Record MoveError := MkMoveError { me_StatusCode : Z }.
Inductive VMStatusError :=
  | VMStatus_Abort (e : option Abort)
  | VMStatus_ExecutionFailure (e : option Failure)
  | VMStatus_MoveError (e : option MoveError).
(** The message is the text in it. *)
Record VMStatus := MkVMStatus { vs_Error : option VMStatusError; vs_Message : option string }.

Record ModuleIdent := MkModuleIdent { mi_Address : string; mi_Name : string }.
Record VMEvent := MkVMEvent {
  ve_SenderAddress : string;
  ve_SenderModule : option ModuleIdent;
  ve_EventType : option LcsTag;
  ve_EventData : string;
}.
Record VMExecuteResponse := MkVMExecuteResponse {
  ex_WriteSet : list vm.VMValue;
  ex_Events : list VMEvent;
  ex_GasUsed : Z;
  ex_Status : option VMStatus;
}.

(** The names protobuf gives to the types this code does not know, and to the types of
    script arguments. *)
Class VmGrpc := {
  LcsType_name : Z → string;
  VMTypeTag_name : Z → option string;
  VMTypeTag_value : string → option Z;
}.

(** ** Gas meters ([sdk.GasMeter]) *)
Class GasMeter (G : Type) := {
  gm_GasConsumed : G → Z;
  gm_Limit : G → Z;
  gm_ConsumeGas : G → Z → outcome G;
}.

(** A meter panics exactly when what is left of its limit, or of 64 bits, does not
    cover the charge. *)
Class GasMeterLaws (G : Type) `{GasMeter G} := {
  gas_left : G → Z;
  gas_left_range g : 0 ≤ gas_left g < 2 ^ 64;
  ConsumeGas_ok g n : 0 ≤ n ≤ gas_left g →
    ∃ g', gm_ConsumeGas g n = Ok g' ∧ gas_left g' = gas_left g - n ∧
      gm_GasConsumed g' = gm_GasConsumed g + n ∧ gm_Limit g' = gm_Limit g;
  ConsumeGas_out g n : gas_left g < n → gm_ConsumeGas g n = Panic;
}.

Module vm_types.

Definition VmGasPrice : Z := 1.
Definition EventTypeProcessingGas : Z := 10000.
Definition EventTypeNoGasLevels : Z := 2.
Definition StdLibAddressShortStr := "0x1".

Definition ErrInternal := Registered vm.ModuleName 100.
Definition ErrEmptyContract := Registered vm.ModuleName 101.
Definition ErrVMCrashed := Registered vm.ModuleName 102.
Definition ErrNotFound := Registered vm.ModuleName 103.
Definition ErrWrongArgTypeTag := Registered vm.ModuleName 200.
Definition ErrWrongArgValue := Registered vm.ModuleName 201.
Definition ErrWrongExecutionResponse := Registered vm.ModuleName 202.
Definition ErrGovInvalidProposal := Registered vm.ModuleName 500.

(** [DumbGasMeter]: the meter of the data source, which counts nothing. *)
Inductive DumbGasMeter := NewDumbGasMeter.
#[export] Instance dumb_meter : GasMeter DumbGasMeter := {|
  gm_GasConsumed _ := 0;
  gm_Limit _ := 0;
  gm_ConsumeGas g _ := Ok g;
|}.

(** ** Status codes *)
Definition VMErrUnknown := "unknown".
Definition VMExecutedCode : Z := 4001.
Definition VMAbortedCode : Z := 4016.

(** The JSON table; its codes are distinct. *)
Definition jsonErrorCodes : list (string * string) := [
  ("3001", "MALFORMED"); ("4016", "ABORTED"); ("7", "SENDING_ACCOUNT_DOES_NOT_EXIST");
  ("18", "SENDING_ACCOUNT_FROZEN"); ("1027", "STLOC_TYPE_MISMATCH_ERROR"); ("1077", "LOOP_IN_INSTANTIATION_GRAPH");
  ("2011", "UNREACHABLE"); ("1025", "BR_TYPE_MISMATCH_ERROR"); ("1095", "DUPLICATE_MODULE_NAME");
  ("1038", "COPYLOC_RESOURCE_ERROR"); ("2014", "INVALID_CODE_CACHE"); ("3004", "UNKNOWN_TABLE_TYPE");
  ("3017", "BAD_U16"); ("1074", "GLOBAL_REFERENCE_ERROR"); ("1029", "UNSAFE_RET_LOCAL_OR_RESOURCE_STILL_BORROWED");
  ("1049", "READREF_TYPE_MISMATCH_ERROR"); ("1022", "POP_REFERENCE_ERROR");
  ("1052", "WRITEREF_TYPE_MISMATCH_ERROR"); ("1040", "MOVELOC_UNAVAILABLE_ERROR");
  ("1005", "RECURSIVE_STRUCT_DEFINITION"); ("1050", "READREF_RESOURCE_ERROR"); ("1030", "RET_TYPE_MISMATCH_ERROR");
  ("4025", "VM_MAX_VALUE_DEPTH_REACHED"); ("21", "INVALID_MODULE_PUBLISHER");
  ("1070", "MISSING_ACQUIRES_RESOURCE_ANNOTATION_ERROR"); ("3006", "UNKNOWN_SERIALIZED_TYPE");
  ("16", "GAS_UNIT_PRICE_ABOVE_MAX_BOUND"); ("1053", "WRITEREF_RESOURCE_ERROR");
  ("1046", "CALL_BORROWED_MUTABLE_REFERENCE_ERROR"); ("1011", "INVALID_MAIN_FUNCTION_SIGNATURE");
  ("1028", "STLOC_UNSAFE_TO_DESTROY_ERROR"); ("1065", "MOVETO_NO_RESOURCE_ERROR"); ("1", "INVALID_SIGNATURE");
  ("1013", "INVALID_MODULE_HANDLE"); ("3007", "UNKNOWN_OPCODE"); ("3010", "DUPLICATE_TABLE");
  ("3014", "UNKNOWN_NATIVE_STRUCT_FLAG"); ("1084", "EMPTY_CODE_UNIT"); ("3018", "BAD_U32");
  ("1009", "NEGATIVE_STACK_SIZE_WITHIN_BLOCK"); ("1004", "INVALID_FIELD_DEF"); ("4", "SEQUENCE_NUMBER_TOO_NEW");
  ("12", "UNKNOWN_MODULE"); ("0", "UNKNOWN_VALIDATION_STATUS"); ("1037", "COPYLOC_UNAVAILABLE_ERROR");
  ("1047", "PACK_TYPE_MISMATCH_ERROR"); ("1055", "WRITEREF_NO_MUTABLE_REFERENCE_ERROR");
  ("1091", "FUNCTION_RESOLUTION_FAILURE"); ("1094", "INVALID_OPERATION_IN_SCRIPT"); ("4001", "EXECUTED");
  ("1026", "ABORT_TYPE_MISMATCH_ERROR"); ("1057", "BOOLEAN_OP_TYPE_MISMATCH_ERROR");
  ("1069", "POSITIVE_STACK_SIZE_AT_BLOCK_END"); ("4007", "TYPE_ERROR"); ("4012", "CANNOT_WRITE_EXISTING_RESOURCE");
  ("14", "MAX_GAS_UNITS_BELOW_MIN_TRANSACTION_GAS_UNITS"); ("1068", "NO_MODULE_HANDLES");
  ("4009", "DATA_FORMAT_ERROR"); ("2000", "UNKNOWN_INVARIANT_VIOLATION_ERROR");
  ("1024", "RELEASEREF_TYPE_MISMATCH_ERROR"); ("3005", "UNKNOWN_SIGNATURE_TYPE");
  ("5", "INSUFFICIENT_BALANCE_FOR_TRANSACTION_FEE"); ("4003", "RESOURCE_DOES_NOT_EXIST"); ("1008", "JOIN_FAILURE");
  ("1066", "CREATEACCOUNT_TYPE_MISMATCH_ERROR"); ("2006", "VERIFICATION_ERROR"); ("4021", "CALL_STACK_OVERFLOW");
  ("1042", "BORROWLOC_REFERENCE_ERROR"); ("1061", "BORROWGLOBAL_NO_RESOURCE_ERROR");
  ("1071", "EXTRANEOUS_ACQUIRES_RESOURCE_ANNOTATION_ERROR"); ("1002", "RANGE_OUT_OF_BOUNDS");
  ("4004", "RESOURCE_ALREADY_EXISTS"); ("4018", "DYNAMIC_REFERENCE_ERROR"); ("3012", "UNKNOWN_NOMINAL_RESOURCE");
  ("1056", "INTEGER_OP_TYPE_MISMATCH_ERROR"); ("3023", "VALUE_DESERIALIZATION_ERROR");
  ("1072", "DUPLICATE_ACQUIRES_RESOURCE_ANNOTATION_ERROR"); ("1018", "VISIBILITY_MISMATCH");
  ("3021", "BAD_ULEB_U8"); ("19", "UNABLE_TO_DESERIALIZE_ACCOUNT"); ("1064", "MOVETO_TYPE_MISMATCH_ERROR");
  ("23", "BAD_CHAIN_ID"); ("1062", "MOVEFROM_TYPE_MISMATCH_ERROR"); ("3003", "UNKNOWN_VERSION");
  ("2005", "PC_OVERFLOW"); ("3019", "BAD_U64"); ("1015", "INCONSISTENT_FIELDS");
  ("1060", "BORROWGLOBAL_TYPE_MISMATCH_ERROR"); ("1054", "WRITEREF_EXISTS_BORROW_ERROR"); ("2", "INVALID_AUTH_KEY");
  ("1059", "EXISTS_RESOURCE_TYPE_MISMATCH_ERROR"); ("1078", "UNUSED_LOCALS_SIGNATURE");
  ("4000", "UNKNOWN_RUNTIME_STATUS"); ("10", "EXCEEDED_MAX_TRANSACTION_SIZE");
  ("1031", "RET_BORROWED_MUTABLE_REFERENCE_ERROR"); ("2009", "INTERNAL_TYPE_ERROR");
  ("2001", "OUT_OF_BOUNDS_INDEX"); ("3015", "BAD_ULEB_U16"); ("1020", "TYPE_MISMATCH");
  ("1067", "MODULE_ADDRESS_DOES_NOT_MATCH_SENDER"); ("1016", "UNUSED_FIELD"); ("3009", "UNEXPECTED_SIGNATURE_TYPE");
  ("1044", "BORROWLOC_EXISTS_BORROW_ERROR"); ("2002", "OUT_OF_BOUNDS_RANGE"); ("1012", "DUPLICATE_ELEMENT");
  ("1080", "ZERO_SIZED_STRUCT"); ("4008", "MISSING_DATA"); ("1021", "MISSING_DEPENDENCY");
  ("15", "GAS_UNIT_PRICE_BELOW_MIN_BOUND"); ("3000", "UNKNOWN_BINARY_ERROR"); ("4017", "ARITHMETIC_ERROR");
  ("1083", "MALFORMED_CONSTANT_DATA"); ("3022", "VALUE_SERIALIZATION_ERROR"); ("1001", "INDEX_OUT_OF_BOUNDS");
  ("2008", "STORAGE_ERROR"); ("1048", "UNPACK_TYPE_MISMATCH_ERROR"); ("2004", "EMPTY_CALL_STACK");
  ("13", "MAX_GAS_UNITS_EXCEEDS_MAX_GAS_UNITS_BOUND"); ("1003", "INVALID_SIGNATURE_TOKEN");
  ("1079", "UNUSED_TYPE_SIGNATURE"); ("1088", "UNSAFE_RET_UNUSED_RESOURCES"); ("1081", "LINKER_ERROR");
  ("11", "UNKNOWN_SCRIPT"); ("1058", "EQUALITY_OP_TYPE_MISMATCH_ERROR"); ("20", "CURRENCY_INFO_DOES_NOT_EXIST");
  ("1086", "INVALID_LOOP_BREAK"); ("1023", "POP_RESOURCE_ERROR"); ("1082", "INVALID_CONSTANT_TYPE");
  ("3", "SEQUENCE_NUMBER_TOO_OLD"); ("1014", "UNIMPLEMENTED_HANDLE"); ("1045", "CALL_TYPE_MISMATCH_ERROR");
  ("2012", "VM_STARTUP_FAILURE"); ("4011", "REMOTE_DATA_ERROR"); ("22", "NO_ACCOUNT_ROLE");
  ("1089", "TOO_MANY_LOCALS"); ("1085", "INVALID_LOOP_SPLIT"); ("1033", "FREEZEREF_EXISTS_MUTABLE_BORROW_ERROR");
  ("1010", "UNBALANCED_STACK"); ("1035", "BORROWFIELD_BAD_FIELD_ERROR"); ("1017", "LOOKUP_FAILED");
  ("1075", "CONSTRAINT_KIND_MISMATCH"); ("1000", "UNKNOWN_VERIFICATION_ERROR");
  ("1043", "BORROWLOC_UNAVAILABLE_ERROR"); ("1073", "INVALID_ACQUIRES_RESOURCE_ANNOTATION_ERROR");
  ("4024", "VM_MAX_TYPE_DEPTH_REACHED"); ("9", "INVALID_WRITE_SET"); ("4005", "EVICTED_ACCOUNT_ACCESS");
  ("3020", "BAD_U128"); ("2003", "EMPTY_VALUE_STACK"); ("4006", "ACCOUNT_ADDRESS_ALREADY_EXISTS");
  ("1041", "MOVELOC_EXISTS_BORROW_ERROR"); ("1051", "READREF_EXISTS_MUTABLE_BORROW_ERROR");
  ("4010", "INVALID_DATA"); ("3016", "BAD_ULEB_U32"); ("1007", "INVALID_FALL_THROUGH");
  ("1087", "INVALID_LOOP_CONTINUE"); ("1090", "GENERIC_MEMBER_OPCODE_MISMATCH"); ("4023", "GAS_SCHEDULE_ERROR");
  ("2013", "NATIVE_FUNCTION_INTERNAL_INCONSISTENCY"); ("1036", "BORROWFIELD_EXISTS_MUTABLE_BORROW_ERROR");
  ("8", "REJECTED_WRITE_SET"); ("3011", "VERIFIER_INVARIANT_VIOLATION"); ("18446744073709551615", "UNKNOWN_STATUS");
  ("2010", "EVENT_KEY_MISMATCH"); ("3008", "BAD_HEADER_TABLE"); ("17", "INVALID_GAS_SPECIFIER");
  ("3024", "CODE_DESERIALIZATION_ERROR"); ("1019", "TYPE_RESOLUTION_FAILURE");
  ("1063", "MOVEFROM_NO_RESOURCE_ERROR"); ("1006", "INVALID_RESOURCE_FIELD"); ("2007", "LOCAL_REFERENCE_ERROR");
  ("1076", "NUMBER_OF_TYPE_ARGUMENTS_MISMATCH"); ("3002", "BAD_MAGIC"); ("4020", "EXECUTION_STACK_OVERFLOW");
  ("4002", "OUT_OF_GAS"); ("6", "TRANSACTION_EXPIRED"); ("1032", "FREEZEREF_TYPE_MISMATCH_ERROR");
  ("1034", "BORROWFIELD_TYPE_MISMATCH_ERROR"); ("1039", "COPYLOC_EXISTS_BORROW_ERROR"); ("3013", "UNKNOWN_KIND")].
Definition errorCodes : gmap string string := list_to_map jsonErrorCodes.
Definition GetStrCode (majorCode : string) : string := default VMErrUnknown (errorCodes !! majorCode).

(** Major code, sub code and abort location. *)
Definition GetStatusCodesFromVMStatus (status : VMStatus) : outcome (Z * Z * option AbortLocation) :=
  match vs_Error status with
  | Some (VMStatus_Abort None) => Panic
  | Some (VMStatus_Abort (Some e)) => Ok (VMAbortedCode, ab_AbortCode e, ab_AbortLocation e)
  | Some (VMStatus_ExecutionFailure None) => Panic
  | Some (VMStatus_ExecutionFailure (Some e)) => Ok (fa_StatusCode e, 0, fa_AbortLocation e)
  | Some (VMStatus_MoveError None) => Panic
  | Some (VMStatus_MoveError (Some e)) => Ok (me_StatusCode e, 0, None)
  | None => Ok (VMExecutedCode, 0, None)
  end.

(** ** Events *)
Definition EventTypeContractStatus := vm.ModuleName +:+ ".contract_status".
Definition EventTypeMoveEvent := vm.ModuleName +:+ ".contract_events".
Definition AttributeStatus := "status".
Definition AttributeErrMajorStatus := "major_status".
Definition AttributeErrSubStatus := "sub_status".
Definition AttributeErrMessage := "message".
Definition AttributeErrLocationAddress := "location_address".
Definition AttributeErrLocationModule := "location_module".
Definition AttributeVmEventSender := "sender_address".
Definition AttributeVmEventSource := "source".
Definition AttributeVmEventType := "type".
Definition AttributeVmEventData := "data".
Definition AttributeValueStatusKeep := "keep".
Definition AttributeValueStatusDiscard := "discard".
Definition AttributeValueStatusError := "error".
Definition AttributeValueSourceScript := "script".

(** The optional attributes of a discarded execution. *)
Definition location_attributes (abortLocation : option AbortLocation) : list (string * string) :=
  match abortLocation with
  | None => []
  | Some l =>
      (match al_Address l with Some address => [(AttributeErrLocationAddress, address)] | None => [] end ++
       (if decide (al_Module l = "") then [] else [(AttributeErrLocationModule, al_Module l)]))%list
  end.

Definition NewContractEvents (exec : option VMExecuteResponse) : outcome (list Event) :=
  match exec with
  | None => Panic
  | Some exec =>
      match ex_Status exec with
      | None => Panic
      | Some status =>
          match vs_Error status with
          | None => Ok [MkEvent EventTypeContractStatus [(AttributeStatus, AttributeValueStatusKeep)]]
          | Some _ =>
              codes ← GetStatusCodesFromVMStatus status;
              let '(majorStatus, subStatus, abortLocation) := codes in
              Ok [MkEvent EventTypeContractStatus
                    ([(AttributeStatus, AttributeValueStatusDiscard)] ++ location_attributes abortLocation ++
                     [(AttributeErrMajorStatus, pretty majorStatus); (AttributeErrSubStatus, pretty subStatus)] ++
                     match vs_Message status with Some text => [(AttributeErrMessage, text)] | None => [] end)%list]
          end
      end
  end.

Section events.
Context `{ST : SdkTypes} `{VG : VmGrpc} `{GM : GasMeter G}.

Definition StringifySenderAddress (addr : string) : string :=
  if decide (addr = common_vm.StdLibAddress) then StdLibAddressShortStr else AccAddress_String addr.

Definition lcsTypeToString (lcsType : LcsType) : string :=
  match lcsType with
  | LcsType_LcsBool => "bool"
  | LcsType_LcsU8 => "u8"
  | LcsType_LcsU64 => "u64"
  | LcsType_LcsU128 => "u128"
  | LcsType_LcsSigner => "signer"
  | LcsType_LcsVector => "vector"
  | LcsType_LcsStruct => "struct"
  | LcsType_other n => LcsType_name n
  end.

(** The gas and depth are [uint64]s. *)
Definition charge_gas (gasMeter : G) (gas depth : Z) : outcome (G * Z) :=
  if EventTypeNoGasLevels <? depth then
    let gas := wrap64 (gas + wrap64 (EventTypeProcessingGas * (depth - EventTypeNoGasLevels - 1))) in
    g ← gm_ConsumeGas gasMeter gas; Ok (g, gas)
  else Ok (gasMeter, gas).

(** The loop over the type parameters of a struct. *)
Definition each_param {A} (visit : G → A → outcome (string * G)) : G → list A → outcome (list string * G) :=
  fix params gasMeter l :=
    match l with
    | [] => Ok ([], gasMeter)
    | paramTag :: l' =>
        r ← visit gasMeter paramTag;
        let '(structParam, gasMeter) := r : string * G in
        r ← params gasMeter l';
        let '(structParams, gasMeter) := r : list string * G in
        Ok (structParam :: structParams, gasMeter)
    end.

(** Go's recursion on a nil or non-nil tag: a nil one is charged and printed as nothing. *)
Fixpoint processEventTag (gasMeter : G) (tag : LcsTag) (gas depth : Z) {struct tag} : outcome (string * G) :=
  r ← charge_gas gasMeter gas depth;
  let '(gasMeter, gas) := r : G * Z in
  fail_if (bool_decide (tag_TypeTag tag = LcsType_LcsVector) && negb (bool_decide (is_Some (tag_VectorType tag))))
    (Plain "VectorType is nil");;
  fail_if (bool_decide (tag_TypeTag tag = LcsType_LcsStruct) && match tag_StructIdent tag with None => true | _ => false end)
    (Plain "StructIdent is nil");;
  match tag_VectorType tag with
  | Some vectorTag =>
      r ← processEventTag gasMeter vectorTag gas (wrap64 (depth + 1));
      let '(vectorType, gasMeter) := r : string * G in
      Ok (lcsTypeToString LcsType_LcsVector +:+ "<" +:+ vectorType +:+ ">", gasMeter)
  | None =>
      match tag_StructIdent tag with
      | Some ident =>
          let structType := StringifySenderAddress (si_Address ident) +:+ "::" +:+ si_Module ident +:+ "::" +:+ si_Name ident in
          if (length (si_TypeParams ident) =? 0)%nat then Ok (structType, gasMeter)
          else
            r ← each_param (λ gasMeter paramTag,
                  match paramTag with
                  | Some tag' => processEventTag gasMeter tag' gas (wrap64 (depth + 1))
                  | None => r ← charge_gas gasMeter gas (wrap64 (depth + 1)); Ok ("", fst r)
                  end) gasMeter (si_TypeParams ident);
            let '(structParams, gasMeter) := r : list string * G in
            Ok (structType +:+ "<" +:+ Join ", " structParams +:+ ">", gasMeter)
      | None => Ok (lcsTypeToString (tag_TypeTag tag), gasMeter)
      end
  end.
Definition processEventType (gasMeter : G) (tag : option LcsTag) (gas depth : Z) : outcome (string * G) :=
  match tag with
  | Some tag => processEventTag gasMeter tag gas depth
  | None => r ← charge_gas gasMeter gas depth; Ok ("", fst r)
  end.

Definition StringifyEventType (gasMeter : G) (tag : option LcsTag) : outcome (string * G) :=
  processEventType gasMeter tag EventTypeProcessingGas 1.
Definition StringifyEventTypePanic (gasMeter : G) (tag : option LcsTag) : outcome (string * G) :=
  match StringifyEventType gasMeter tag with Ok r => Ok r | _ => Panic end.

Definition GetEventSourceAttribute (senderModule : option ModuleIdent) : string :=
  match senderModule with
  | None => AttributeValueSourceScript
  | Some m => StringifySenderAddress (mi_Address m) +:+ "::" +:+ mi_Name m
  end.

Definition NewMoveEvent (gasMeter : G) (vmEvent : VMEvent) : outcome (Event * G) :=
  r ← StringifyEventTypePanic gasMeter (ve_EventType vmEvent);
  let '(eventType, gasMeter) := r : string * G in
  Ok (MkEvent EventTypeMoveEvent
        [(AttributeVmEventSender, StringifySenderAddress (ve_SenderAddress vmEvent));
         (AttributeVmEventSource, GetEventSourceAttribute (ve_SenderModule vmEvent));
         (AttributeVmEventType, eventType);
         (AttributeVmEventData, hex_EncodeToString (ve_EventData vmEvent))], gasMeter).
End events.

(** ** The statuses a client reads back from a transaction *)
Record ClientStatus := MkClientStatus {
  cs_Status : string; cs_MajorCode : string; cs_SubCode : string; cs_StrCode : string; cs_Message : string }.
Record TxVMStatus := MkTxVMStatus { tx_Hash : string; tx_VMStatuses : list ClientStatus }.

Definition NewVMStatus (status majorCode subCode message : string) : ClientStatus :=
  let strCode := if decide (status = AttributeValueStatusKeep) then "" else GetStrCode majorCode in
  MkClientStatus status majorCode subCode strCode message.
Definition NewTxVMStatus (hash : string) (statuses : list ClientStatus) : TxVMStatus := MkTxVMStatus hash statuses.

(** The loop that looks for a status: the last one seen, and whether it is a failure,
    where the loop stops. *)
Fixpoint find_status (status : string) (attributes : list (string * string)) : string * bool :=
  match attributes with
  | [] => (status, false)
  | (k, v) :: attributes' =>
      if decide (k = AttributeStatus) then
        if decide (v = AttributeValueStatusDiscard) then (v, true)
        else if decide (v = AttributeValueStatusError) then (v, true)
        else find_status v attributes'
      else find_status status attributes'
  end.
(** Major code, sub code and message: the last attribute of each key. *)
Definition read_codes (acc : string * string * string) (attr : string * string) : string * string * string :=
  let '(majorCode, subCode, message) := acc in
  let '(k, v) := attr in
  if decide (k = AttributeErrMajorStatus) then (v, subCode, message)
  else if decide (k = AttributeErrSubStatus) then (majorCode, v, message)
  else if decide (k = AttributeErrMessage) then (majorCode, subCode, v)
  else acc.
Definition event_status (event : Event) : list ClientStatus :=
  if decide (ev_Type event = EventTypeContractStatus) then
    let '(status, isFound) := find_status "" (ev_Attributes event) in
    let '(majorCode, subCode, message) :=
      (if isFound then fold_left read_codes (ev_Attributes event) ("", "", "") else ("", "", "")) : string * string * string in
    [NewVMStatus status majorCode subCode message]
  else [].
(** A transaction's hash and the events of its logs. *)
Definition NewVMStatusFromABCILogs (hash : string) (logs : list (list Event)) : TxVMStatus :=
  NewTxVMStatus hash (flat_map (flat_map event_status) logs).
End vm_types.

(** ** Facts about the results of the Move VM

    The type of a Move event is printed like its tag, without gas; the gas is a sum over
    the tags nested deeper than the free levels; a client reads from the events of a
    failed execution the codes the VM answered. *)
Import vm_types.
Local Open Scope string_scope.
Local Open Scope Z_scope.

(** ** Tags *)
Section tag_ind.
Variable P : LcsTag → Prop.
Hypothesis Hstep : ∀ tt vec ident,
  (∀ t, vec = Some t → P t) →
  (∀ i t, ident = Some i → Some t ∈ si_TypeParams i → P t) → P (MkLcsTag tt vec ident).

Fixpoint LcsTag_nested_ind (tag : LcsTag) : P tag.
Proof.
  destruct tag as [ty vec ident]. apply Hstep.
  - intros t E. destruct vec as [t'|]; [|discriminate E]. injection E as <-. apply LcsTag_nested_ind.
  - intros i t E. destruct ident as [[a m n ps]|]; [|discriminate E]. injection E as <-. simpl.
    induction ps as [|p ps IH]; intros Hin; [exfalso; clear -Hin; by apply elem_of_nil in Hin|].
    destruct p as [t'|].
    + apply elem_of_cons in Hin as [E|Hin]; [injection E as ->; apply LcsTag_nested_ind|apply IH, Hin].
    + apply elem_of_cons in Hin as [E|Hin]; [discriminate E|apply IH, Hin].
Defined.
End tag_ind.

Section show.
Context `{ST : SdkTypes} `{VG : VmGrpc}.

(** A vector tag names its element type, a struct tag its struct. *)
Definition consistent (tag : LcsTag) : bool :=
  negb (bool_decide (tag_TypeTag tag = LcsType_LcsVector) && negb (bool_decide (is_Some (tag_VectorType tag)))) &&
  negb (bool_decide (tag_TypeTag tag = LcsType_LcsStruct) && match tag_StructIdent tag with None => true | _ => false end).

(** The tags that are visited: a vector's element, or a struct's parameters. *)
Definition children (tag : LcsTag) : list (option LcsTag) :=
  match tag_VectorType tag with
  | Some t => [Some t]
  | None => match tag_StructIdent tag with Some i => si_TypeParams i | None => [] end
  end.

Definition struct_name (i : LcsStructIdent) : string :=
  StringifySenderAddress (si_Address i) +:+ "::" +:+ si_Module i +:+ "::" +:+ si_Name i.

(** The text of a tag whose children have these texts. *)
Definition show_with (tag : LcsTag) (cs : list string) : string :=
  match tag_VectorType tag with
  | Some _ => "vector<" +:+ Join ", " cs +:+ ">"
  | None =>
      match tag_StructIdent tag with
      | Some i => if decide (cs = []) then struct_name i else struct_name i +:+ "<" +:+ Join ", " cs +:+ ">"
      | None => lcsTypeToString (tag_TypeTag tag)
      end
  end.

(** The Move type of a tag, without gas: none when a tag in it is not consistent. *)
Fixpoint show (tag : LcsTag) {struct tag} : option string :=
  if consistent tag then
    match tag_VectorType tag with
    | Some t => s ← show t; Some (show_with tag [s])
    | None =>
        match tag_StructIdent tag with
        | Some i =>
            let fix go (l : list (option LcsTag)) : option (list string) :=
              match l with
              | [] => Some []
              | p :: l' => s ← match p with Some t => show t | None => Some "" end; ss ← go l'; Some (s :: ss)
              end in
            ss ← go (si_TypeParams i); Some (show_with tag ss)
        | None => Some (show_with tag [])
        end
    end
  else None.
Definition show_opt (tag : option LcsTag) : option string := match tag with Some t => show t | None => Some "" end.

Lemma show_eq tag : show tag = if consistent tag then ss ← mapM show_opt (children tag); Some (show_with tag ss) else None.
Proof.
  destruct tag as [ty [t|] [[a m n ps]|]]; unfold children; simpl; destruct (consistent _); try done.
  1-2: by destruct (show t).
Qed.
End show.

(** The charge of a tag at a depth: nothing at the free levels, then 10000 more for each
    of the levels below them, one more at every level. *)
Definition gas_at (depth : Z) : Z :=
  if depth <=? 3 then EventTypeProcessingGas else EventTypeProcessingGas * (1 + (depth - 3) * (depth - 2) / 2).
Definition level_gas (depth : Z) : Z := if depth <=? 2 then 0 else gas_at depth.

Fixpoint tag_gas (depth : Z) (tag : LcsTag) {struct tag} : Z :=
  level_gas depth +
  match tag_VectorType tag with
  | Some t => tag_gas (depth + 1) t
  | None =>
      match tag_StructIdent tag with
      | Some i =>
          (fix go (l : list (option LcsTag)) : Z :=
             match l with
             | [] => 0
             | p :: l' => match p with Some t => tag_gas (depth + 1) t | None => level_gas (depth + 1) end + go l'
             end) (si_TypeParams i)
      | None => 0
      end
  end.
Definition opt_gas (depth : Z) (tag : option LcsTag) : Z :=
  match tag with Some t => tag_gas depth t | None => level_gas depth end.

Lemma tag_gas_eq depth tag : tag_gas depth tag = level_gas depth + sumZ (opt_gas (depth + 1)) (children tag).
Proof.
  destruct tag as [ty [t|] [[a m n ps]|]]; unfold children; simpl; try lia.
  f_equal.
Qed.

Lemma gas_at_step d : 3 ≤ d → gas_at (d + 1) = gas_at d + EventTypeProcessingGas * (d - 2).
Proof.
  intros Hd. unfold gas_at, EventTypeProcessingGas. destruct (Z.leb_spec (d + 1) 3); [lia|].
  assert ((d + 1 - 3) * (d + 1 - 2) / 2 = (d - 3) * (d - 2) / 2 + (d - 2)) as E.
  { replace ((d + 1 - 3) * (d + 1 - 2)) with ((d - 3) * (d - 2) + (d - 2) * 2) by lia. rw Z.div_add; lia. }
  rw E. destruct (Z.leb_spec d 3); [|lia]. replace d with 3 by lia. done.
Qed.
Lemma gas_at_ge d : EventTypeProcessingGas * (1 + (d - 3)) ≤ gas_at d ∧ EventTypeProcessingGas ≤ gas_at d.
Proof.
  unfold gas_at, EventTypeProcessingGas. destruct (Z.leb_spec d 3); [lia|].
  assert ((d - 3) * 2 / 2 ≤ (d - 3) * (d - 2) / 2) as Hle by (apply Z.div_le_mono; nia).
  rw Z.div_mul in Hle; lia.
Qed.
Lemma level_gas_nonneg d : 0 ≤ level_gas d.
Proof. unfold level_gas. destruct (_ <=? _); [done|]. pose proof (gas_at_ge d). unfold EventTypeProcessingGas in *. lia. Qed.

Lemma tag_gas_nonneg tag : ∀ d, 0 ≤ tag_gas d tag.
Proof.
  induction tag as [ty vec ident IHv IHs] using LcsTag_nested_ind. intros d. rw tag_gas_eq.
  assert (0 ≤ sumZ (opt_gas (d + 1)) (children (MkLcsTag ty vec ident))); [|pose proof (level_gas_nonneg d); lia].
  apply sumZ_nonneg. intros [t|] Hin; [|apply level_gas_nonneg]. unfold children in Hin. simpl in Hin.
  destruct vec as [v|]; [apply list_elem_of_singleton in Hin as [= ->]; by apply IHv|].
  destruct ident as [i|]; [by eapply IHs|by apply elem_of_nil in Hin].
Qed.
Lemma opt_gas_nonneg d tag : 0 ≤ opt_gas d tag.
Proof. destruct tag; [apply tag_gas_nonneg|apply level_gas_nonneg]. Qed.

(** ** Printing *)
Section process.
Context `{ST : SdkTypes} `{VG : VmGrpc} `{GL : GasMeterLaws G}.
Implicit Types (g : G).

Definition process_params g (l : list (option LcsTag)) (gas depth : Z) : outcome (list string * G) :=
  each_param (λ g p, processEventType g p gas depth) g l.

Definition charged (r : outcome (G * Z)) g (depth : Z) : Prop :=
  match r with
  | Ok (g', gas) => level_gas depth ≤ gas_left g ∧ gas_left g' = gas_left g - level_gas depth ∧ gas = gas_at depth
  | Err _ => False
  | Panic => gas_left g < level_gas depth
  end.

Lemma charge_gas_spec g depth : 1 ≤ depth → gas_at depth < 2 ^ 64 →
  charged (charge_gas g (gas_at (depth - 1)) depth) g depth.
Proof.
  intros H1 Hsmall. unfold charge_gas, level_gas, EventTypeNoGasLevels.
  destruct (Z.ltb_spec 2 depth) as [Hd|Hd].
  2:{ unfold charged, level_gas. destruct (Z.leb_spec depth 2); [|lia]. pose proof (gas_left_range g). split_and!; [lia..|].
      unfold gas_at. destruct (Z.leb_spec depth 3), (Z.leb_spec (depth - 1) 3); [done|lia..]. }
  assert (wrap64 (gas_at (depth - 1) + wrap64 (EventTypeProcessingGas * (depth - 2 - 1))) = gas_at depth) as ->.
  { assert (gas_at depth = gas_at (depth - 1) + EventTypeProcessingGas * (depth - 2 - 1)) as E.
    { destruct (decide (depth = 3)) as [->|]; [done|]. replace depth with (depth - 1 + 1) at 1 by lia.
      rw gas_at_step; [|lia]. unfold EventTypeProcessingGas. lia. }
    pose proof (gas_at_ge (depth - 1)) as [_ Hge]. unfold EventTypeProcessingGas in *.
    unfold wrap64. rw (Z.mod_small (10000 * (depth - 2 - 1))); [|lia]. rw Z.mod_small; lia. }
  unfold charged, level_gas. destruct (Z.leb_spec depth 2); [lia|].
  pose proof (gas_at_ge depth) as [_ Hge]. unfold EventTypeProcessingGas in Hge.
  destruct (Z.le_gt_cases (gas_at depth) (gas_left g)) as [Hle|Hgt].
  - destruct (ConsumeGas_ok g (gas_at depth)) as (g' & -> & Hl & _); [lia|]. simpl. done.
  - rw ConsumeGas_out; [|done]. simpl. done.
Qed.

(** One visit: the charge, then the children one level deeper. *)
Lemma processEventTag_eq g tag gas depth :
  match charge_gas g gas depth with
  | Ok (g', gas') =>
      if consistent tag then
        processEventTag g tag gas depth =
          (r ← process_params g' (children tag) gas' (wrap64 (depth + 1)); Ok (show_with tag (fst r), snd r))
      else ∃ e, processEventTag g tag gas depth = Err e
  | r => ∀ p, processEventTag g tag gas depth ≠ Ok p
  end.
Proof.
  destruct tag as [ty vec ident]. cbn [processEventTag]. destruct (charge_gas g gas depth) as [[g' gas']| |]; [|done..].
  cbn. unfold consistent. simpl.
  destruct (bool_decide (ty = LcsType_LcsVector) && _) eqn:E1; cbn; [by eexists|].
  destruct (bool_decide (ty = LcsType_LcsStruct) && _) eqn:E2; cbn; [by eexists|].
  destruct vec as [t|]; unfold children; cbn.
  - destruct (processEventTag g' t gas' _) as [[s g1]| |]; done.
  - destruct ident as [i|]; [|done]. destruct (si_TypeParams i) as [|p ps] eqn:Ep; [done|].
    rw -Ep. clear E1 E2. replace (length (si_TypeParams i) =? 0)%nat with false by (by rw Ep).
    unfold show_with; simpl. unfold process_params.
    destruct (each_param _ g' (si_TypeParams i)) as [[ss g1]| |] eqn:Er; [|done..]. cbn.
    rw Ep in Er. cbn in Er. destruct p as [t|]; [destruct (processEventTag _ _ _ _) as [[s1 g2]| |]|destruct (charge_gas _ _ _) as [[s1 g2]| |]]; try done.
    all: cbn in Er; destruct (each_param _ _ ps) as [[]| |]; [|done..]; injection Er as <- <-; by case_decide.
Qed.

(** The text, and exactly the charge of the tag; or a tag that is not consistent, or too
    little gas. *)
Definition processed {A} (r : outcome (A * G)) g (total : Z) (text : option A) : Prop :=
  match r with
  | Ok (s, g') => text = Some s ∧ total ≤ gas_left g ∧ gas_left g' = gas_left g - total
  | _ => text = None ∨ gas_left g < total
  end.

(** What is left with the last charge bounds the depth that is reached: 64 bits are
    enough for the next charge. *)
Definition small g (depth : Z) : Prop :=
  1 ≤ depth ∧ gas_at depth < 2 ^ 64 ∧ (depth ≤ 3 ∨ gas_left g + gas_at (depth - 1) < 2 ^ 64).

Lemma gas_at_half d : 6 ≤ d → EventTypeProcessingGas * (d - 2) ≤ gas_at (d - 1).
Proof.
  intros Hd. unfold gas_at, EventTypeProcessingGas. destruct (Z.leb_spec (d - 1) 3); [lia|].
  assert ((d - 3) * 2 / 2 ≤ (d - 1 - 3) * (d - 1 - 2) / 2) as Hle by (apply Z.div_le_mono; nia).
  rw Z.div_mul in Hle; lia.
Qed.

Lemma small_deeper g g' depth : small g depth → level_gas depth ≤ gas_left g → gas_left g' = gas_left g - level_gas depth →
  small g' (depth + 1) ∧ wrap64 (depth + 1) = depth + 1.
Proof.
  intros (H1 & Hmax & Hd) Hle Hg'. pose proof (gas_at_ge depth) as [Hge _]. pose proof (gas_left_range g).
  assert (wrap64 (depth + 1) = depth + 1) as ->.
  { unfold EventTypeProcessingGas in Hge. unfold wrap64. rw Z.mod_small; lia. }
  split; [|done]. split; [lia|]. replace (depth + 1 - 1) with depth by lia.
  destruct (decide (depth ≤ 5)) as [H5|H5].
  - assert (depth = 1 ∨ depth = 2 ∨ depth = 3 ∨ depth = 4 ∨ depth = 5) as Hcase by lia. split.
    + by destruct Hcase as [->|[->|[->|[->| ->]]]].
    + destruct (decide (depth ≤ 2)) as [|H2]; [left; lia|right]. unfold level_gas in *. destruct (Z.leb_spec depth 2); lia.
  - unfold level_gas in *. destruct (Z.leb_spec depth 2); [lia|]. pose proof (gas_at_half depth). pose proof (gas_at_step depth). lia.
Qed.

Lemma process_params_spec l gas depth g : gas = gas_at (depth - 1) → small g depth →
  (∀ p g, p ∈ l → small g depth → processed (processEventType g p gas depth) g (opt_gas depth p) (show_opt p)) →
  processed (process_params g l gas depth) g (sumZ (opt_gas depth) l) (mapM show_opt l).
Proof.
  intros Egas. unfold process_params. revert g. induction l as [|p l IH]; intros g Hs Hl; cbn [each_param mapM].
  { rw sumZ_nil. pose proof (gas_left_range g). split_and!; [done|lia..]. }
  pose proof (Hl p g ltac:(left) Hs) as Hp. rw sumZ_cons.
  assert (0 ≤ sumZ (opt_gas depth) l) as Hnn by (apply sumZ_nonneg; intros; apply opt_gas_nonneg).
  pose proof (opt_gas_nonneg depth p).
  destruct (processEventType g p gas depth) as [[s g1]| |]; cbn in Hp |- *.
  2-3: destruct Hp as [Hp|Hp]; [left; by rw Hp|right; lia].
  destruct Hp as (Et & Hle & Hg1). rw Et.
  assert (small g1 depth) as Hs1 by (destruct Hs as (? & ? & ?); split_and!; [done..|lia]).
  specialize (IH g1 Hs1 ltac:(intros; apply Hl; [by right|done])).
  cbn. destruct (each_param _ g1 l) as [[ss g2]| |]; cbn in IH |- *.
  - destruct IH as (-> & Hle2 & ->). split_and!; [done|lia..].
  - destruct IH as [->|IH]; [by left|right; lia].
  - destruct IH as [->|IH]; [by left|right; lia].
Qed.

Lemma processEventTag_spec tag : ∀ g depth, small g depth →
  processed (processEventTag g tag (gas_at (depth - 1)) depth) g (tag_gas depth tag) (show tag).
Proof.
  induction tag as [ty vec ident IHv IHs] using LcsTag_nested_ind. intros g depth Hs.
  set (tag := MkLcsTag ty vec ident) in *. rw tag_gas_eq. rw show_eq.
  assert (0 ≤ sumZ (opt_gas (depth + 1)) (children tag)) as Hnn by (apply sumZ_nonneg; intros; apply opt_gas_nonneg).
  pose proof (charge_gas_spec g depth ltac:(apply Hs) ltac:(apply Hs)) as Hc.
  pose proof (processEventTag_eq g tag (gas_at (depth - 1)) depth) as He.
  destruct (charge_gas g (gas_at (depth - 1)) depth) as [[g1 gas1]| |]; simpl in Hc; [|done|].
  2:{ destruct (processEventTag _ _ _ _) as [p| |]; [by destruct (He p)|right; lia..]. }
  destruct Hc as (Hle & Hg1 & ->). destruct (consistent tag); [|destruct He as [e ->]; by left].
  rw He. destruct (small_deeper _ _ _ Hs Hle Hg1) as [Hs1 ->].
  assert (∀ p g, p ∈ children tag → small g (depth + 1) →
    processed (processEventType g p (gas_at depth) (depth + 1)) g (opt_gas (depth + 1) p) (show_opt p)) as Hkids.
  { intros p g' Hin Hs'. replace (gas_at depth) with (gas_at (depth + 1 - 1)) by (f_equal; lia).
    destruct p as [t|].
    - unfold children, tag in Hin. simpl in Hin.
      destruct vec as [v|]; [apply list_elem_of_singleton in Hin as [= ->]; by apply IHv|].
      destruct ident as [i|]; [by eapply IHs|by apply elem_of_nil in Hin].
    - pose proof (charge_gas_spec g' (depth + 1) ltac:(apply Hs') ltac:(apply Hs')) as Hc. simpl.
      destruct (charge_gas g' _ _) as [[g2 ?]| |]; simpl in Hc |- *; [naive_solver|done|by right]. }
  pose proof (process_params_spec (children tag) (gas_at depth) (depth + 1) g1 ltac:(f_equal; lia) Hs1 Hkids) as Hp.
  destruct (process_params g1 (children tag) (gas_at depth) (depth + 1)) as [[ss g2]| |]; simpl in Hp |- *.
  - destruct Hp as (-> & Hle2 & ->). simpl. split_and!; [done|lia..].
  - destruct Hp as [->|Hp]; [by left|right; lia].
  - destruct Hp as [->|Hp]; [by left|right; lia].
Qed.

Lemma StringifyEventType_spec g tag : processed (StringifyEventType g tag) g (opt_gas 1 tag) (show_opt tag).
Proof.
  assert (small g 1) as Hs by (split_and!; [done..|left; lia]). destruct tag as [t|].
  - apply (processEventTag_spec t g 1 Hs).
  - pose proof (gas_left_range g). split_and!; [done|simpl; unfold level_gas; simpl; lia..].
Qed.

(** Every tag nested deeper than the free levels costs 10000 at least. *)
Fixpoint deep_tags (depth : Z) (tag : LcsTag) {struct tag} : Z :=
  (if 2 <? depth then 1 else 0) +
  match tag_VectorType tag with
  | Some t => deep_tags (depth + 1) t
  | None =>
      match tag_StructIdent tag with
      | Some i =>
          (fix go (l : list (option LcsTag)) : Z :=
             match l with
             | [] => 0
             | p :: l' => match p with Some t => deep_tags (depth + 1) t | None => 0 end + go l'
             end) (si_TypeParams i)
      | None => 0
      end
  end.
Definition opt_deep (depth : Z) (tag : option LcsTag) : Z := match tag with Some t => deep_tags depth t | None => 0 end.

Lemma deep_tags_eq depth tag :
  deep_tags depth tag = (if 2 <? depth then 1 else 0) + sumZ (opt_deep (depth + 1)) (children tag).
Proof.
  destruct tag as [ty [t|] [[a m n ps]|]]; unfold children; simpl; try lia.
  f_equal.
Qed.

Lemma deep_tags_gas tag : ∀ d, EventTypeProcessingGas * deep_tags d tag ≤ tag_gas d tag.
Proof.
  induction tag as [ty vec ident IHv IHs] using LcsTag_nested_ind. intros d.
  set (tag := MkLcsTag ty vec ident) in *. rw tag_gas_eq. rw deep_tags_eq.
  assert (EventTypeProcessingGas * (if 2 <? d then 1 else 0) ≤ level_gas d).
  { pose proof (gas_at_ge d) as [_ ?]. unfold level_gas. destruct (Z.ltb_spec 2 d), (Z.leb_spec d 2); lia. }
  assert (EventTypeProcessingGas * sumZ (opt_deep (d + 1)) (children tag) ≤ sumZ (opt_gas (d + 1)) (children tag)); [|lia].
  assert (∀ p, p ∈ children tag → EventTypeProcessingGas * opt_deep (d + 1) p ≤ opt_gas (d + 1) p) as Hle.
  { intros [t|] Hin; [|simpl; pose proof (level_gas_nonneg (d + 1)); lia]. unfold children, tag in Hin. simpl in Hin.
    destruct vec as [v|]; [apply list_elem_of_singleton in Hin as [= ->]; by apply IHv|].
    destruct ident as [i|]; [by eapply IHs|by apply elem_of_nil in Hin]. }
  induction (children tag) as [|p l IHl]; [done|]. rw !sumZ_cons.
  pose proof (Hle p ltac:(left)). pose proof (IHl ltac:(intros; apply Hle; by right)). lia.
Qed.
End process.

(** ** Status codes *)
Lemma errorCodes_distinct : NoDup jsonErrorCodes.*1.
Proof. apply (bool_decide_unpack _). vm_compute. exact I. Qed.

(** Every code of the table is read back by its name. *)
Lemma GetStrCode_listed code name : (code, name) ∈ jsonErrorCodes → GetStrCode code = name.
Proof.
  intros Hin. unfold GetStrCode, errorCodes.
  by rw (elem_of_list_to_map_1 jsonErrorCodes code name errorCodes_distinct Hin).
Qed.

Lemma event_status_other e : ev_Type e ≠ EventTypeContractStatus → event_status e = [].
Proof. intros Hne. unfold event_status. by case_decide. Qed.

(** The status a client sees of an execution. *)
Definition client_status (status : VMStatus) (majorStatus subStatus : Z) : ClientStatus :=
  match vs_Error status with
  | None => MkClientStatus "keep" "" "" "" ""
  | Some _ => MkClientStatus "discard" (pretty majorStatus) (pretty subStatus) (GetStrCode (pretty majorStatus))
                (default "" (vs_Message status))
  end.

Lemma contract_events_status exec status major sub loc : ex_Status exec = Some status →
  GetStatusCodesFromVMStatus status = Ok (major, sub, loc) →
  ∃ e, NewContractEvents (Some exec) = Ok [e] ∧ event_status e = [client_status status major sub].
Proof.
  intros Hs Hc. unfold NewContractEvents, client_status. rw Hs. destruct (vs_Error status) as [err|] eqn:Ee; [|by eexists].
  rw Hc. eexists. split; [done|].
  destruct loc as [[[a|] m]|], (vs_Message status) as [text|]; unfold location_attributes; cbn [al_Address al_Module];
    try (destruct (decide (m = ""))); done.
Qed.
