(* ===== verification/VmKeeper.v ===== *)
(** * Execution by the Move VM ([x/vm])

    Scripts and modules are sent to the VM, a process of its own, over gRPC; while it
    executes, the VM reads the state through the data source server.  Its answer is a
    write set, events and a status, which the keeper turns into store writes, chain
    events and gas.  Governance schedules updates of the standard library, which the
    begin blocker executes.

    A data source context of [None] is the context the keeper is running in: it shares
    its stores, so the VM sees every write made before the request.  The gas charged by
    store accesses is not modelled; the meter is an argument and a result. *)
From S2P Require Import Prelude Bytes Sdk DnTypes Perms Chain VMStorage CCStorage VmEvents.
Import vm_types.
Local Open Scope string_scope.
Local Open Scope Z_scope.

(** ** Requests and the VM ([vm_grpc]) *)
Record VMPublishModule := MkVMPublishModule {
  pm_Sender : string; pm_MaxGasAmount : Z; pm_GasUnitPrice : Z; pm_Code : string }.
Record VMArgs := MkVMArgs { va_Type : Z; va_Value : string }.
Record VMExecuteScript := MkVMExecuteScript {
  es_Senders : list string; es_MaxGasAmount : Z; es_GasUnitPrice : Z; es_Code : string; es_Args : list VMArgs }.

(** The VM: what it answers to the n-th attempt of a request, given the answers of the
    data source; none is a failed or timed out attempt. *)
Class DVM := {
  dvm_PublishModule : nat → (VMAccessPath → option string) → VMPublishModule → option VMExecuteResponse;
  dvm_ExecuteScript : nat → (VMAccessPath → option string) → VMExecuteScript → option VMExecuteResponse;
}.

(** [glav]'s paths of the block header and of the time. *)
Class GlavMetadata := {
  BlockMetadataVector : string;
  TimeMetadataVector : string;
  metadata_distinct : BlockMetadataVector ≠ TimeMetadataVector;
}.

(** [net/url]'s parser. *)
Class NetUrl := { url_Parse : string → bool }.

(** [sdkErrors.ErrInvalidRequest]. *)
Definition ErrInvalidRequest : error := Registered "sdk" 18.

Module vm_keeper.

(** ** Messages *)
Record ScriptArg := MkScriptArg { sa_Type : Z; sa_Value : string }.
Record MsgDeployModule := MkMsgDeployModule { mdm_Signer : AccAddress; mdm_Module : list string }.
Record MsgExecuteScript := MkMsgExecuteScript {
  mes_Signer : AccAddress; mes_Script : string; mes_Args : list ScriptArg }.
Inductive Msg :=
  | Msg_DeployModule (msg : MsgDeployModule)
  | Msg_ExecuteScript (msg : MsgExecuteScript)
  | Msg_other.

Definition NewScriptArg (typeTag : Z) (value : string) : ScriptArg := MkScriptArg typeTag value.
Definition NewMsgDeployModule (signer : AccAddress) (modules : list string) : MsgDeployModule :=
  MkMsgDeployModule signer modules.
Definition NewMsgExecuteScript (signer : AccAddress) (script : string) (args : list ScriptArg) : MsgExecuteScript :=
  MkMsgExecuteScript signer script args.
Definition MsgDeployModule_ValidateBasic (msg : MsgDeployModule) : outcome unit :=
  fail_if (bool_decide (mdm_Signer msg = "")) ErrInvalidAddress;;
  fail_if (length (mdm_Module msg) =? 0)%nat ErrEmptyContract.
Definition MsgDeployModule_GetSigners (msg : MsgDeployModule) : list AccAddress := [mdm_Signer msg].
Definition MsgExecuteScript_GetSigners (msg : MsgExecuteScript) : list AccAddress := [mes_Signer msg].

(** ** Proposals *)
Record Plan := MkPlan { pl_Height : Z }.
Record StdlibUpdateProposal := MkStdlibUpdateProposal {
  sp_Url : string; sp_UpdateDescription : string; sp_Plan : Plan; sp_Code : string }.
Record TestProposal := MkTestProposal { tp_Plan : Plan; tp_Value : Z }.
Inductive PlannedProposal :=
  | Planned_StdlibUpdate (p : StdlibUpdateProposal)
  | Planned_Test (p : TestProposal).
(** [gov.Content]: a proposal of this module or one with another route or type. *)
Inductive Content :=
  | Content_StdlibUpdate (p : StdlibUpdateProposal)
  | Content_other (route : string).

Definition GovRouterKey := vm.ModuleName.
Definition NewPlan (blockHeight : Z) : Plan := MkPlan blockHeight.
Definition GetPlan (p : PlannedProposal) : Plan :=
  match p with Planned_StdlibUpdate p => sp_Plan p | Planned_Test p => tp_Plan p end.
Definition ProposalRoute (c : Content) : string :=
  match c with Content_StdlibUpdate _ => GovRouterKey | Content_other route => route end.

Definition Plan_ValidateBasic (p : Plan) : outcome unit := fail_if (pl_Height p <=? 0) ErrInvalidRequest.
Definition StdlibUpdateProposal_ValidateBasic `{NetUrl} (p : StdlibUpdateProposal) : outcome unit :=
  match Plan_ValidateBasic (sp_Plan p) with
  | Ok _ =>
      fail_if (bool_decide (sp_Url p = "")) ErrGovInvalidProposal;;
      fail_if (negb (url_Parse (sp_Url p))) ErrGovInvalidProposal;;
      fail_if (bool_decide (sp_UpdateDescription p = "")) ErrGovInvalidProposal;;
      fail_if (bool_decide (sp_Code p = "")) ErrGovInvalidProposal
  | _ => Err ErrGovInvalidProposal
  end.
Definition NewStdlibUpdateProposal (plan : Plan) (url updateDescription byteCode : string) : Content :=
  Content_StdlibUpdate (MkStdlibUpdateProposal url updateDescription plan byteCode).

Definition KeyDelimiter := ":".
Definition ProposalIDKey := "proposal_id".
Definition ProposalQueuePrefix := "proposal_queue".
Definition GetProposalQueueKey (id : Z) : string := Join KeyDelimiter [ProposalQueuePrefix; Uint64ToBigEndian id].
Definition SplitProposalQueueKey (key : string) : outcome Z :=
  let start := (String.length ProposalQueuePrefix + String.length KeyDelimiter)%nat in
  panic_if (String.length key <? start)%nat;;
  BigEndian_Uint64 (string_drop start key).

(** ** Requests *)
Definition VMMaxGasLimit : Z := (2 ^ 64 - 1) / 1000 - 1.
Definition getVMLimitedGas (gas : Z) : Z := if VMMaxGasLimit <? gas then VMMaxGasLimit else gas.
Definition NewDeployContract (address : AccAddress) (maxGas : Z) (code : string) : VMPublishModule :=
  MkVMPublishModule (common_vm.Bech32ToLibra address) (getVMLimitedGas maxGas) VmGasPrice code.
Definition NewExecuteContract (address : AccAddress) (maxGas : Z) (code : string) (args : list ScriptArg) : VMExecuteScript :=
  MkVMExecuteScript [common_vm.Bech32ToLibra address] (getVMLimitedGas maxGas) VmGasPrice code
    (map (λ arg, MkVMArgs (sa_Type arg) (sa_Value arg)) args).

Record VMConfig := MkVMConfig { MaxAttempts : nat; ReqTimeoutInMs : nat }.
(** [RetryExecReq]: one of the two requests, and the settings. *)
Inductive RawRequest := RawModule (req : VMPublishModule) | RawScript (req : VMExecuteScript).
Record RetryExecReq := MkRetryExecReq { rr_Request : RawRequest; rr_MaxAttempts : nat; rr_ReqTimeoutInMs : nat }.

(** The goroutine's loop: it ends with an answer, or with the error of the last attempt
    allowed; with no limit it goes on.  Without fuel left it has not ended. *)
Fixpoint retry_loop {R} (fuel : nat) (request : nat → option R) (maxAttempts curAttempt : nat) : option (outcome R) :=
  match fuel with
  | O => None
  | S fuel' =>
      let curAttempt := S curAttempt in
      match request curAttempt with
      | Some resp => Some (Ok resp)
      | None =>
          if negb (maxAttempts =? 0)%nat && (curAttempt =? maxAttempts)%nat then Some (Err (Plain "grpc error"))
          else retry_loop fuel' request maxAttempts curAttempt
      end
  end.

(** ** The data source *)
Record BlockHeader := MkBlockHeader { bh_Height : Z }.
Record CurrentTimestamp := MkCurrentTimestamp { ct_Seconds : Z }.
(** A value request from the VM to the querier. *)
Record ValueReq := MkValueReq { vr_Address : string; vr_Path : string }.

Section keeper.
Context `{ST : SdkTypes} `{VG : VmGrpc} `{GM : GasMeter G} `{KV : KVStore} `{LG : Ledger}.
Context `{VM : DVM} `{MD : GlavMetadata} `{LH : !Lcs BlockHeader} `{LT : !Lcs CurrentTimestamp}.
Context `{CS : !Codec StdlibUpdateProposal} `{CT : !Codec TestProposal} `{CZ : !Codec Z} `{CV : !Codec ValueReq}.
Variable modulePerms : ModulePermissions.
Variable config : VMConfig.
(** Attempts after which an unlimited retry loop counts as never ending. *)
Variable fuel : nat.

Definition DSContext : Type := option Ctx.
Definition DSDataMiddleware : Type := Ctx → VMAccessPath → outcome (option string).

Definition NewBlockMiddleware : DSDataMiddleware := λ ctx path,
  if decide (vp_Address path = common_vm.StdLibAddress ∧ vp_Path path = BlockMetadataVector)
  then bz ← lcs_Marshal (MkBlockHeader (wrap64 (ctx_height ctx))); Ok (Some bz)
  else Ok None.
Definition NewTimeMiddleware : DSDataMiddleware := λ ctx path,
  if decide (vp_Address path = common_vm.StdLibAddress ∧ vp_Path path = TimeMetadataVector)
  then bz ← lcs_Marshal (MkCurrentTimestamp (wrap64 (Unix (ctx_time ctx)))); Ok (Some bz)
  else Ok None.
(** [NewKeeper] registers them in this order. *)
Definition dataMiddlewares : list DSDataMiddleware := [NewBlockMiddleware; NewTimeMiddleware].

Fixpoint processMiddlewares (mds : list DSDataMiddleware) (ctx : Ctx) (path : VMAccessPath) : outcome (option string) :=
  match mds with
  | [] => Ok None
  | f :: mds' => match f ctx path with Ok None => processMiddlewares mds' ctx path | r => r end
  end.

(** The answer to the VM; none is [NO_DATA]. *)
Definition GetRaw (ctx : Ctx) (path : VMAccessPath) : option string :=
  match processMiddlewares dataMiddlewares ctx path with
  | Ok (Some blob) => Some blob
  | Ok None =>
      match fst (vm.hasValue path vm.ModuleName ctx) with
      | Ok true => match fst (vm.getValue path vm.ModuleName ctx) with Ok blob => blob | _ => None end
      | _ => None
      end
  | _ => None
  end.

Definition SetDSContext : M DSContext := keeper_method modulePerms vm.PermDsAdmin (mret None).
(** Whether the server is started. *)
Definition StartDSServer (isStarted : bool) : M bool :=
  keeper_method modulePerms vm.PermDsAdmin (
    has ← kv_Has vm.StoreKey vm.KeyGenesisInit;
    mret (if (has : bool) && negb isStarted then true else isStarted)).

Fixpoint value_with_middlewares (mds : list DSDataMiddleware) (path : VMAccessPath) : M (option string) :=
  match mds with
  | [] => vm.keeper_GetValue modulePerms path
  | f :: mds' => λ caller ctx,
      match f ctx path with
      | Ok (Some data) => (Ok (Some data), ctx)
      | Ok None => value_with_middlewares mds' path caller ctx
      | Err _ => (Ok None, ctx)
      | Panic => (Panic, ctx)
      end
  end.
Definition GetValueWithMiddlewares (accessPath : VMAccessPath) : M (option string) :=
  keeper_method modulePerms vm.PermStorageRead (value_with_middlewares dataMiddlewares accessPath).

(** ** Sending a request *)
Definition retryExecReq (ds : DSContext) (req : RetryExecReq) : M VMExecuteResponse := λ _ ctx,
  let source := GetRaw (default ctx ds) in
  let request n :=
    match rr_Request req with
    | RawModule m => dvm_PublishModule n source m
    | RawScript s => dvm_ExecuteScript n source s
    end in
  match retry_loop fuel request (rr_MaxAttempts req) 0 with
  | Some r => (r, ctx)
  | None => (Panic, ctx)
  end.

Definition sendExecuteReq (ds : DSContext) (moduleReq : option VMPublishModule) (scriptReq : option VMExecuteScript) :
    M VMExecuteResponse :=
  match moduleReq, scriptReq with
  | None, None => throw (Plain "request (module / script) not specified")
  | Some _, Some _ => throw (Plain "only single request (module / script) is supported")
  | Some m, None => retryExecReq ds (MkRetryExecReq (RawModule m) (MaxAttempts config) (ReqTimeoutInMs config))
  | None, Some s => retryExecReq ds (MkRetryExecReq (RawScript s) (MaxAttempts config) (ReqTimeoutInMs config))
  end.

(** [uint64]s. *)
Definition GetFreeGas (g : G) : Z := wrap64 (gm_Limit g - gm_GasConsumed g).
Definition NewDeployRequest (g : G) (signer : AccAddress) (contract : string) : VMPublishModule :=
  NewDeployContract signer (GetFreeGas g) contract.
Definition NewExecuteRequest (g : G) (msg : MsgExecuteScript) : VMExecuteScript :=
  NewExecuteContract (mes_Signer msg) (GetFreeGas g) (mes_Script msg) (mes_Args msg).

(** ** Processing an answer *)
Fixpoint emit_move_events (g : G) (events : list VMEvent) : M G :=
  match events with
  | [] => mret g
  | vmEvent :: events' =>
      r ← lift (NewMoveEvent g vmEvent); EmitEvent (fst r);; emit_move_events (snd r) events'
  end.

Definition processExecution (g : G) (exec : VMExecuteResponse) : M G :=
  g ← lift (gm_ConsumeGas g (ex_GasUsed exec));
  EmitEvent (NewModuleNameEvent vm.ModuleName);;
  events ← lift (NewContractEvents (Some exec));
  EmitEvents events;;
  match ex_Status exec with
  | Some (MkVMStatus None _) => vm.processWriteSet (ex_WriteSet exec);; emit_move_events g (ex_Events exec)
  | _ => mret g
  end.

Fixpoint process_all (g : G) (execList : list VMExecuteResponse) : M G :=
  match execList with
  | [] => mret g
  | exec :: execList' => g ← processExecution g exec; process_all g execList'
  end.

(** An unreachable VM is a panic: it would break the consensus. *)
Definition or_crash (m : M VMExecuteResponse) : M VMExecuteResponse :=
  r ← attempt m; match r with Ok exec => mret exec | _ => panic end.

Definition ExecuteScript (g : G) (ds : DSContext) (msg : MsgExecuteScript) : M G :=
  keeper_method modulePerms vm.PermVmExec (
    exec ← or_crash (sendExecuteReq ds None (Some (NewExecuteRequest g msg)));
    processExecution g exec).
Definition ExecuteScriptNoProcessing (g : G) (ds : DSContext) (msg : MsgExecuteScript) : M VMExecuteResponse :=
  keeper_method modulePerms vm.PermVmExec (
    sendExecuteReq ds None (Some (NewExecuteRequest g msg))).
Definition DeployContract (g : G) (ds : DSContext) (msg : MsgDeployModule) : M G :=
  keeper_method modulePerms vm.PermVmExec (
    execList ← mapM_ (λ contract,
      or_crash (sendExecuteReq ds (Some (NewDeployRequest g (mdm_Signer msg) contract)) None)) (mdm_Module msg);
    process_all g execList).
Definition DeployContractDryRun (g : G) (ds : DSContext) (msg : MsgDeployModule) : M unit :=
  keeper_method modulePerms vm.PermVmExec (
    forM (mdm_Module msg) (λ contract,
      r ← attempt (sendExecuteReq ds (Some (NewDeployRequest g (mdm_Signer msg) contract)) None);
      match r with
      | Ok exec =>
          match ex_Status exec with
          | Some (MkVMStatus (Some _) _) => throw ErrWrongExecutionResponse
          | _ => mret tt
          end
      | _ => throw ErrVMCrashed
      end)).

(** ** Planned proposals *)
Definition unmarshalPlannedProposal (bz : string) : outcome PlannedProposal :=
  match Unmarshal (A := StdlibUpdateProposal) LengthPrefixed bz with
  | Some p => Ok (Planned_StdlibUpdate p)
  | None =>
      match Unmarshal (A := TestProposal) LengthPrefixed bz with
      | Some p => Ok (Planned_Test p)
      | None => Err ErrInternal
      end
  end.
(** Marshalling the interface value marshals its concrete type. *)
Definition marshalPlannedProposal (p : PlannedProposal) : string :=
  match p with
  | Planned_StdlibUpdate p => Marshal LengthPrefixed p
  | Planned_Test p => Marshal LengthPrefixed p
  end.

Definition ShouldExecute (p : Plan) : M bool :=
  height ← BlockHeight; mret (if 0 <? pl_Height p then pl_Height p <=? height else false).

Definition getNextProposalID : M Z :=
  bz ← kv_Get vm.StoreKey ProposalIDKey;
  match bz with
  | None => mret 0
  | Some bz => id ← MustUnmarshal LengthPrefixed bz; mret (wrap64 (id + 1))
  end.
Definition setProposalID (id : Z) : M unit := kv_Set vm.StoreKey ProposalIDKey (Marshal LengthPrefixed id).
Definition addProposalToQueue (pProposal : PlannedProposal) : M unit :=
  id ← getNextProposalID;
  kv_Set vm.StoreKey (GetProposalQueueKey id) (marshalPlannedProposal pProposal);;
  setProposalID id.

Definition ScheduleProposal (pProposal : PlannedProposal) : M unit :=
  keeper_method modulePerms vm.PermInit (
    height ← BlockHeight;
    if pl_Height (GetPlan pProposal) <=? height then throw ErrInvalidRequest
    else addProposalToQueue pProposal).
Definition RemoveProposalFromQueue (id : Z) : M unit :=
  keeper_method modulePerms vm.PermInit (kv_Delete vm.StoreKey (GetProposalQueueKey id)).

(** The queue, walked with a handler that carries the gas meter. *)
Fixpoint iterate_proposals (g : G) (handler : G → Z → PlannedProposal → M G) (kvs : list (string * string)) : M G :=
  match kvs with
  | [] => mret g
  | kv :: kvs' =>
      id ← lift (SplitProposalQueueKey (fst kv));
      p ← match unmarshalPlannedProposal (snd kv) with Ok p => mret p | _ => panic end;
      g ← handler g id p;
      iterate_proposals g handler kvs'
  end.
Definition IterateProposalsQueue (g : G) (handler : G → Z → PlannedProposal → M G) : M G :=
  keeper_method modulePerms vm.PermInit (
    kvs ← kv_PrefixIterator vm.StoreKey ProposalQueuePrefix;
    iterate_proposals g handler kvs).

Definition getStdlibUpdateMsg (proposal : StdlibUpdateProposal) : outcome MsgDeployModule :=
  let msg := NewMsgDeployModule common_vm.StdLibAddress [sp_Code proposal] in
  match MsgDeployModule_ValidateBasic msg with
  | Ok _ => Ok msg
  | _ => Err (Plain "deploy message validation failed")
  end.

Definition handleUpdateStdlibProposalDryRun (g : G) (ds : DSContext) (proposal : StdlibUpdateProposal) : M unit :=
  msg ← lift (getStdlibUpdateMsg proposal);
  DeployContractDryRun g ds msg;;
  ScheduleProposal (Planned_StdlibUpdate proposal).
Definition NewGovHandler (g : G) (ds : DSContext) (c : Content) : M unit :=
  in_module vm.ModuleName (
    if decide (ProposalRoute c = GovRouterKey) then
      match c with
      | Content_StdlibUpdate p => handleUpdateStdlibProposalDryRun g ds p
      | Content_other _ => throw (Plain "unsupported proposal content type")
      end
    else throw (Plain "invalid proposal route")).

(** The message's error is dropped: it is the empty message then. *)
Definition handleStdlibUpdateProposalExecution (g : G) (ds : DSContext) (proposal : StdlibUpdateProposal) : M G :=
  let msg := match getStdlibUpdateMsg proposal with Ok msg => msg | _ => MkMsgDeployModule "" [] end in
  DeployContract g ds msg.

Definition BeginBlocker_proposal (ds : DSContext) (g : G) (id : Z) (pProposal : PlannedProposal) : M G :=
  due ← ShouldExecute (GetPlan pProposal);
  if negb due then mret g
  else
    g' ← match pProposal with
         | Planned_StdlibUpdate proposal =>
             r ← attempt (handleStdlibUpdateProposalExecution g ds proposal);
             match r with Ok g' => SetDSContext;; mret g' | _ => mret g end
         | Planned_Test _ => panic
         end;
    RemoveProposalFromQueue id;;
    mret g'.
Definition BeginBlocker (g : G) : M G :=
  in_module vm.ModuleName (
    ds ← SetDSContext;
    IterateProposalsQueue g (BeginBlocker_proposal ds)).

(** ** Handler and queries *)
Definition handleMsgScript (g : G) (ds : DSContext) (msg : MsgExecuteScript) : M (Result * G) :=
  g ← ExecuteScript g ds msg; events ← Events; mret (MkResult "" events, g).
Definition handleMsgDeploy (g : G) (ds : DSContext) (msg : MsgDeployModule) : M (Result * G) :=
  g ← DeployContract g ds msg; events ← Events; mret (MkResult "" events, g).
Definition NewHandler (g : G) (msg : Msg) : M (Result * G) :=
  in_module vm.ModuleName (WithEventManager (
    ds ← SetDSContext;
    match msg with
    | Msg_DeployModule msg => handleMsgDeploy g ds msg
    | Msg_ExecuteScript msg => handleMsgScript g ds msg
    | Msg_other => throw ErrUnknownRequest
    end)).

Definition queryGetValue (data : string) : M (option string) :=
  match Unmarshal (A := ValueReq) JSON data with
  | None => throw ErrInternal
  | Some req => GetValueWithMiddlewares (MkVMAccessPath (vr_Address req) (vr_Path req))
  end.
End keeper.

Definition StringifyVMTypeTag `{VmGrpc} (tag : Z) : outcome string :=
  match VMTypeTag_name tag with Some val => Ok val | None => Err (Plain "can't find string representation") end.
Definition GetVMTypeByString `{VmGrpc} (typeTag : string) : outcome Z :=
  match VMTypeTag_value typeTag with Some val => Ok val | None => Err (Plain "can't find tag VMTypeTag") end.
Definition validate_arg `{VmGrpc} (arg : ScriptArg) : outcome unit :=
  match StringifyVMTypeTag (sa_Type arg) with
  | Ok _ => fail_if (bool_decide (sa_Value arg = "")) ErrWrongArgValue
  | _ => Err ErrWrongArgTypeTag
  end.
Definition MsgExecuteScript_ValidateBasic `{VmGrpc} (msg : MsgExecuteScript) : outcome unit :=
  fail_if (bool_decide (mes_Signer msg = "")) ErrInvalidAddress;;
  fail_if (bool_decide (mes_Script msg = "")) ErrEmptyContract;;
  foldM (λ _ arg, validate_arg arg) tt (mes_Args msg).
End vm_keeper.
