(* ===== verification/VmTheorems.v ===== *)
(** * Execution: its parts, and what it guarantees

    What a write set does to the store, what processing an answer does to the context,
    the answers of the data source, and the retry loop. *)
From S2P Require Import Prelude Bytes Sdk SdkFacts DnTypes Perms Chain VMStorage CCStorage VmEvents VmKeeper.
Import vm_types vm_keeper.
Local Open Scope string_scope.
Local Open Scope Z_scope.

(** ** The retry loop *)
Section retry.
Context {R : Type}.
Implicit Types (request : nat → option R).

Lemma retry_loop_success fuel request max n r : (0 < n)%nat → (n ≤ fuel)%nat → (max = 0 ∨ n ≤ max)%nat →
  (∀ k, 0 < k < n → request k = None)%nat → request n = Some r → retry_loop fuel request max 0 = Some (Ok r).
Proof.
  intros Hn Hf Hm Hfail Hr.
  assert (∀ fuel cur, (cur < n)%nat → (n - cur ≤ fuel)%nat → retry_loop fuel request max cur = Some (Ok r)) as Hgen.
  { clear Hf fuel. induction fuel as [|fuel IH]; intros cur Hcur Hf; [lia|]. cbn [retry_loop].
    destruct (decide (S cur = n)) as [->|Hne]; [by rw Hr|]. rw Hfail; [|lia].
    replace (negb (max =? 0)%nat && (S cur =? max)%nat) with false; [apply IH; lia|].
    symmetry. apply andb_false_iff. destruct (Nat.eqb_spec max 0); [by left|right; apply Nat.eqb_neq; lia]. }
  apply Hgen; lia.
Qed.

Lemma retry_loop_failure fuel request max : (0 < max ≤ fuel)%nat → (∀ k, 0 < k ≤ max → request k = None)%nat →
  retry_loop fuel request max 0 = Some (Err (Plain "grpc error")).
Proof.
  intros Hm Hfail.
  assert (∀ fuel cur, (cur < max)%nat → (max - cur ≤ fuel)%nat → retry_loop fuel request max cur = Some (Err (Plain "grpc error"))) as Hgen.
  { clear Hm fuel. induction fuel as [|fuel IH]; intros cur Hcur Hf; [lia|]. cbn [retry_loop]. rw Hfail; [|lia].
    destruct (Nat.eqb_spec max 0) as [->|_]; [lia|]. destruct (Nat.eqb_spec (S cur) max); [done|]. apply IH; lia. }
  apply Hgen; lia.
Qed.

(** An unlimited loop whose attempts all fail has not ended, whatever the fuel. *)
Lemma retry_loop_forever fuel request : (∀ k, request k = None) → retry_loop fuel request 0 0 = None.
Proof.
  intros Hfail. assert (∀ cur, retry_loop fuel request 0 cur = None) as Hgen; [|apply Hgen].
  induction fuel as [|fuel IH]; intros cur; [done|]. cbn. by rw Hfail.
Qed.

(** The least successful attempt, if there is one among the first [n]. *)
Lemma first_success request n :
  (∀ k, 0 < k ≤ n → request k = None)%nat ∨
  ∃ m r, (0 < m ≤ n)%nat ∧ request m = Some r ∧ (∀ k, 0 < k < m → request k = None)%nat.
Proof.
  induction n as [|n IH]; [left; lia|]. destruct IH as [Hall|(m & r & Hm & Hr & Hb)].
  - destruct (request (S n)) as [r|] eqn:E.
    + right. exists (S n), r. split; [lia|]. split; [done|]. intros k Hk. apply Hall. lia.
    + left. intros k Hk. destruct (decide (k = S n)) as [->|]; [done|]. apply Hall. lia.
  - right. exists m, r. split; [lia|]. done.
Qed.
End retry.

(** ** Write sets *)
Definition apply_write (f : VMAccessPath → option string) (v : vm.VMValue) : VMAccessPath → option string := λ p,
  if decide (p = vm.vv_Path v) then match vm.vv_Type v with vm.VmWriteOp_Deletion => None | _ => Some (vm.vv_Value v) end
  else f p.
Definition apply_writes (f : VMAccessPath → option string) (ws : list vm.VMValue) : VMAccessPath → option string :=
  foldl apply_write f ws.

(** Addresses of the VM's length, and operations this code knows. *)
Definition write_ok (v : vm.VMValue) : Prop := common_vm.path_ok (vm.vv_Path v) ∧ vm.vv_Type v ≠ vm.VmWriteOp_other.

Section facts.
Context `{ST : SdkTypes} `{VG : VmGrpc} `{GL : GasMeterLaws G} `{KVL : KVStoreLaws} `{LG : Ledger}.
Implicit Types (c : Ctx) (g : G).

(** What the VM's storage holds at a path. *)
Definition vm_view c (p : VMAccessPath) : option string := store_Get (ctx_stores c vm.StoreKey) (common_vm.GetPathKey p).

(** From [c] to [c']: only the VM's storage changes, by these writes, and these events
    are emitted. *)
Record executed c c' (ws : list vm.VMValue) (es : list Event) : Prop := {
  ex_view p : common_vm.path_ok p → vm_view c' p = apply_writes (vm_view c) ws p;
  ex_other k : ¬ has_prefix common_vm.GetPathPrefixKey k →
    store_Get (ctx_stores c' vm.StoreKey) k = store_Get (ctx_stores c vm.StoreKey) k;
  ex_frame : frame [vm.StoreKey] c c';
  ex_bank : ctx_bank c' = ctx_bank c;
  ex_events : ctx_events c' = (ctx_events c ++ es)%list;
}.

Lemma executed_refl c : executed c c [] [].
Proof. split; try done. by rw app_nil_r. Qed.

Lemma apply_writes_ext f f' ws p : (∀ p, common_vm.path_ok p → f p = f' p) → common_vm.path_ok p →
  apply_writes f ws p = apply_writes f' ws p.
Proof.
  revert f f'. induction ws as [|v ws IH]; intros f f' Hf Hp; simpl; [by apply Hf|]. apply IH; [|done].
  intros q Hq. unfold apply_write. case_decide; [done|]. by apply Hf.
Qed.

Lemma executed_trans c c1 c2 ws ws' es es' :
  executed c c1 ws es → executed c1 c2 ws' es' → executed c c2 (ws ++ ws') (es ++ es').
Proof.
  intros [V1 O1 F1 B1 E1] [V2 O2 F2 B2 E2]. split.
  - intros p Hp. rw V2; [|done]. unfold apply_writes. rw foldl_app. apply apply_writes_ext; [|done]. intros q Hq. by rw V1.
  - intros k Hk. by rw O2 ?O1.
  - by eapply frame_trans.
  - by rw B2.
  - by rw E2 E1 app_assoc.
Qed.

Lemma executed_write c v : write_ok v →
  ∃ c', (match vm.vv_Type v with
         | vm.VmWriteOp_Deletion => vm.delValue (vm.vv_Path v)
         | vm.VmWriteOp_Value => vm.setValue (vm.vv_Path v) (vm.vv_Value v)
         | vm.VmWriteOp_other => panic
         end) vm.ModuleName c = (Ok tt, c') ∧ executed c c' [v] [].
Proof.
  intros [Hp Ht]. destruct v as [ty path val]; cbn [vm.vv_Path vm.vv_Type vm.vv_Value] in *.
  destruct ty; [|..|done]; eexists; (split; [done|]); split; try done; cbn; try by rw app_nil_r.
  - intros q Hq. unfold vm_view, apply_write. cbn. rw store_Get_Set. repeat case_decide; subst; try done.
    exfalso. by apply (common_vm.GetPathKey_inj path q) in H0 as ->.
  - intros k Hk. rw store_Get_Set_ne; [done|]. intros <-. apply Hk, common_vm.has_prefix_GetPathKey.
  - split; [|done]. intros k Hk. cbn. rw decide_False; [done|]. intros ->. apply Hk. left.
  - intros q Hq. unfold vm_view, apply_write. cbn. rw store_Get_Delete. repeat case_decide; subst; try done.
    exfalso. by apply (common_vm.GetPathKey_inj path q) in H0 as ->.
  - intros k Hk. rw store_Get_Delete_ne; [done|]. intros <-. apply Hk, common_vm.has_prefix_GetPathKey.
  - split; [|done]. intros k Hk. cbn. rw decide_False; [done|]. intros ->. apply Hk. left.
Qed.

Lemma executed_emit c es : executed c (EmitEvents es vm.ModuleName c).2 [] es.
Proof. by split. Qed.

Lemma processWriteSet_executed ws c : (∀ v, v ∈ ws → write_ok v) →
  ∃ c', vm.processWriteSet ws vm.ModuleName c = (Ok tt, c') ∧ executed c c' ws [].
Proof.
  revert c. induction ws as [|v ws IH]; intros c Hok; [by exists c; split; [|apply executed_refl]|].
  destruct (executed_write c v) as (c1 & Hrun & H1); [apply Hok; left|].
  destruct (IH c1) as (c2 & Hrun2 & H2); [intros w Hw; apply Hok; by right|].
  exists c2. split; [|by apply (executed_trans _ _ _ [v] ws [] [] H1 H2)].
  unfold vm.processWriteSet in *. cbn [forM]. by rw (M_bind_Ok _ _ _ _ tt c1).
Qed.

(** ** Processing an answer *)

(** The event of a Move event, its type printed. *)
Definition move_event (e : VMEvent) : Event :=
  MkEvent EventTypeMoveEvent
    [(AttributeVmEventSender, StringifySenderAddress (ve_SenderAddress e));
     (AttributeVmEventSource, GetEventSourceAttribute (ve_SenderModule e));
     (AttributeVmEventType, default "" (show_opt (ve_EventType e)));
     (AttributeVmEventData, hex_EncodeToString (ve_EventData e))].
Definition events_gas (es : list VMEvent) : Z := sumZ (λ e, opt_gas 1 (ve_EventType e)) es.

Lemma NewMoveEvent_run g e : is_Some (show_opt (ve_EventType e)) → opt_gas 1 (ve_EventType e) ≤ gas_left g →
  ∃ g', NewMoveEvent g e = Ok (move_event e, g') ∧ gas_left g' = gas_left g - opt_gas 1 (ve_EventType e).
Proof.
  intros [s Hs] Hle. unfold NewMoveEvent, StringifyEventTypePanic, move_event. pose proof (StringifyEventType_spec g (ve_EventType e)) as Hp.
  destruct (StringifyEventType g (ve_EventType e)) as [[s' g']| |]; cbn in Hp |- *.
  - destruct Hp as (Et & _ & Hg'). exists g'. rw Et. done.
  - destruct Hp as [Hp|Hp]; [by rw Hs in Hp|lia].
  - destruct Hp as [Hp|Hp]; [by rw Hs in Hp|lia].
Qed.

Lemma emit_move_events_run es g c : (∀ e, e ∈ es → is_Some (show_opt (ve_EventType e))) →
  events_gas es ≤ gas_left g →
  ∃ g' c', emit_move_events g es vm.ModuleName c = (Ok g', c') ∧ gas_left g' = gas_left g - events_gas es ∧
    executed c c' [] (move_event <$> es).
Proof.
  revert g c. induction es as [|e es IH]; intros g c Hok Hle.
  { exists g, c. split_and!; [done|unfold events_gas; rw sumZ_nil; lia|apply executed_refl]. }
  unfold events_gas in *. rw sumZ_cons in Hle |- *. pose proof (opt_gas_nonneg 1 (ve_EventType e)).
  assert (0 ≤ sumZ (λ e, opt_gas 1 (ve_EventType e)) es) by (apply sumZ_nonneg; intros; apply opt_gas_nonneg).
  destruct (NewMoveEvent_run g e) as (g1 & Hrun & Hg1); [apply Hok; left|lia|].
  destruct (IH g1 (EmitEvent (move_event e) vm.ModuleName c).2) as (g2 & c2 & Hrun2 & Hg2 & He); [intros; apply Hok; by right|lia|].
  exists g2, c2. split; [|split; [lia|]].
  - cbn [emit_move_events]. rw (M_bind_Ok _ _ _ _ (move_event e, g1) c); [|by apply lift_Ok]. cbn [fst snd].
    etrans; [by apply (M_bind_Ok _ _ _ _ tt (EmitEvent (move_event e) vm.ModuleName c).2)|done].
  - rw fmap_cons. exact (executed_trans c _ c2 [] [] [move_event e] (move_event <$> es) (executed_emit c _) He).
Qed.

Lemma emit_move_events_out es g c : gas_left g < events_gas es →
  fst (emit_move_events g es vm.ModuleName c) = Panic.
Proof.
  revert g c. induction es as [|e es IH]; intros g c Hlt; unfold events_gas in *.
  { rw sumZ_nil in Hlt. pose proof (gas_left_range g). lia. }
  rw sumZ_cons in Hlt. cbn [emit_move_events]. unfold NewMoveEvent, StringifyEventTypePanic.
  pose proof (StringifyEventType_spec g (ve_EventType e)) as Hp. pose proof (opt_gas_nonneg 1 (ve_EventType e)).
  destruct (StringifyEventType g (ve_EventType e)) as [[s' g']| |]; [|done..].
  destruct Hp as (_ & Hle & Hg'). apply IH; cbn [snd]; lia.
Qed.

(** An execution that the VM kept; what it writes, emits and costs. *)
Definition succeeded (exec : VMExecuteResponse) : bool :=
  match ex_Status exec with Some (MkVMStatus None _) => true | _ => false end.
Definition answer_writes (exec : VMExecuteResponse) : list vm.VMValue := if succeeded exec then ex_WriteSet exec else [].
Definition answer_moves (exec : VMExecuteResponse) : list VMEvent := if succeeded exec then ex_Events exec else [].
Definition answer_gas (exec : VMExecuteResponse) : Z := ex_GasUsed exec + events_gas (answer_moves exec).
Definition answer_events (exec : VMExecuteResponse) : list Event :=
  (NewModuleNameEvent vm.ModuleName ::
   match NewContractEvents (Some exec) with Ok es => es | _ => [] end ++ (move_event <$> answer_moves exec))%list.

(** A well-formed answer: a status, whose error names its cause; known writes, at
    addresses of the VM's length; consistent types. *)
Record answer_ok (exec : VMExecuteResponse) : Prop := {
  ao_gas : 0 ≤ ex_GasUsed exec;
  ao_status : ∃ status codes, ex_Status exec = Some status ∧ GetStatusCodesFromVMStatus status = Ok codes;
  ao_writes v : v ∈ answer_writes exec → write_ok v;
  ao_types e : e ∈ answer_moves exec → is_Some (show_opt (ve_EventType e));
}.

Lemma answer_gas_nonneg exec : answer_ok exec → 0 ≤ answer_gas exec.
Proof.
  intros Ho. unfold answer_gas, events_gas. pose proof (ao_gas _ Ho).
  assert (0 ≤ sumZ (λ e, opt_gas 1 (ve_EventType e)) (answer_moves exec)) by (apply sumZ_nonneg; intros; apply opt_gas_nonneg). lia.
Qed.

Lemma processExecution_run g c exec : answer_ok exec → answer_gas exec ≤ gas_left g →
  ∃ g' c', processExecution g exec vm.ModuleName c = (Ok g', c') ∧ gas_left g' = gas_left g - answer_gas exec ∧
    executed c c' (answer_writes exec) (answer_events exec).
Proof.
  intros [Hgas (status & [[major sub] loc] & Hs & Hc) Hw Ht] Hle. unfold answer_gas, answer_events, events_gas in *.
  assert (0 ≤ sumZ (λ e, opt_gas 1 (ve_EventType e)) (answer_moves exec)) by (apply sumZ_nonneg; intros; apply opt_gas_nonneg).
  destruct (ConsumeGas_ok g (ex_GasUsed exec)) as (g1 & Hg1 & Hl1 & _); [lia|].
  destruct (contract_events_status exec status major sub loc Hs Hc) as (e & He & _).
  set (c1 := (EmitEvents [NewModuleNameEvent vm.ModuleName] vm.ModuleName c).2).
  set (c2 := (EmitEvents [e] vm.ModuleName c1).2).
  assert (executed c c2 [] ([NewModuleNameEvent vm.ModuleName] ++ [e])) as H2.
  { exact (executed_trans c c1 c2 [] [] _ _ (executed_emit c _) (executed_emit c1 _)). }
  assert (processExecution g exec vm.ModuleName c =
    (if succeeded exec then (vm.processWriteSet (ex_WriteSet exec);; emit_move_events g1 (ex_Events exec)) vm.ModuleName c2
     else (Ok g1, c2))) as ->.
  { unfold processExecution, succeeded. rw (M_bind_Ok _ _ _ _ g1 c); [|by apply lift_Ok].
    rw (M_bind_Ok _ _ _ _ tt c1); [|done]. rw (M_bind_Ok _ _ _ _ [e] c1); [|by apply lift_Ok].
    rw (M_bind_Ok _ _ _ _ tt c2); [|done]. rw Hs. by destruct status as [[err|] msg]. }
  rw He. unfold answer_writes, answer_moves in *. destruct (succeeded exec).
  - destruct (processWriteSet_executed (ex_WriteSet exec) c2 Hw) as (c3 & Hrun3 & H3).
    destruct (emit_move_events_run (ex_Events exec) g1 c3) as (g4 & c4 & Hrun4 & Hg4 & H4); [done|unfold events_gas; lia|].
    exists g4, c4. rw (M_bind_Ok _ _ _ _ tt c3); [|done]. split; [done|]. split; [unfold events_gas in *; lia|].
    pose proof (executed_trans _ _ _ _ _ _ _ H2 (executed_trans _ _ _ _ _ _ _ H3 H4)) as H5. by rw app_nil_r in H5.
  - exists g1, c2. rw sumZ_nil in Hle |- *. split; [done|]. split; [lia|]. by rw app_nil_r.
Qed.

Lemma processExecution_out_of_gas g c exec : gas_left g < answer_gas exec →
  0 ≤ ex_GasUsed exec → fst (processExecution g exec vm.ModuleName c) = Panic.
Proof.
  intros Hlt Hnn. unfold answer_gas in Hlt. unfold processExecution.
  destruct (Z.le_gt_cases (ex_GasUsed exec) (gas_left g)) as [Hle|Hgt].
  2:{ unfold mbind, M_bind, lift. by rw ConsumeGas_out. }
  destruct (ConsumeGas_ok g (ex_GasUsed exec)) as (g1 & Hg1 & Hl1 & _); [lia|].
  rw (M_bind_Ok _ _ _ _ g1 c); [|by apply lift_Ok].
  set (c1 := (EmitEvents [NewModuleNameEvent vm.ModuleName] vm.ModuleName c).2). rw (M_bind_Ok _ _ _ _ tt c1); [|done].
  unfold answer_moves, succeeded in Hlt. unfold NewContractEvents.
  destruct (ex_Status exec) as [[[err|] msg]|]; try done; [unfold events_gas in Hlt; rw sumZ_nil in Hlt; lia|].
  { set (c2 := (EmitEvents [MkEvent EventTypeContractStatus [(AttributeStatus, AttributeValueStatusKeep)]] vm.ModuleName c1).2).
    cbn [vs_Error]. rw (M_bind_Ok _ _ _ _ [MkEvent EventTypeContractStatus [(AttributeStatus, AttributeValueStatusKeep)]] c1); [|done].
    rw (M_bind_Ok _ _ _ _ tt c2); [|done].
    unfold mbind at 1, M_bind at 1. destruct (vm.processWriteSet (ex_WriteSet exec) vm.ModuleName c2) as [[[]|e|] c3] eqn:Ew.
    + apply emit_move_events_out; lia.
    + exfalso. revert Ew. clear. generalize c2. unfold vm.processWriteSet. induction (ex_WriteSet exec) as [|v ws IH]; intros cc; [done|].
      cbn [forM]. destruct v as [[] path val]; unfold mbind, M_bind; cbn; [apply IH|apply IH|done].
    + done. }
Qed.

(** ** What the data source answers *)
Context `{MD : GlavMetadata} `{LH : !Lcs BlockHeader} `{LT : !Lcs CurrentTimestamp}.

Definition header_path : VMAccessPath := MkVMAccessPath common_vm.StdLibAddress BlockMetadataVector.
Definition time_path : VMAccessPath := MkVMAccessPath common_vm.StdLibAddress TimeMetadataVector.

(** The block's height and time in seconds, as 64-bit values, for two paths of the
    standard library, and what the storage holds for every other path. *)
Definition ds_answer c (p : VMAccessPath) : option string :=
  let ok (o : outcome string) := match o with Ok bz => Some bz | _ => None end in
  if decide (p = header_path) then ok (lcs_Marshal (MkBlockHeader (wrap64 (ctx_height c))))
  else if decide (p = time_path) then ok (lcs_Marshal (MkCurrentTimestamp (wrap64 (Unix (ctx_time c)))))
  else vm_view c p.

Lemma path_eq p a v : vp_Address p = a ∧ vp_Path p = v ↔ p = MkVMAccessPath a v.
Proof. destruct p; simpl; naive_solver. Qed.

Lemma GetRaw_answer c p : GetRaw c p = ds_answer c p.
Proof.
  unfold GetRaw, ds_answer, dataMiddlewares. cbn [processMiddlewares]. unfold NewBlockMiddleware, NewTimeMiddleware.
  destruct (decide (p = header_path)) as [->|Hh].
  { rw decide_True; [|done]. by destruct (lcs_Marshal _). }
  rw decide_False; [|by intros E%path_eq].
  destruct (decide (p = time_path)) as [->|Ht].
  { rw decide_True; [|done]. by destruct (lcs_Marshal _). }
  rw decide_False; [|by intros E%path_eq].
  unfold vm.hasValue, vm.getValue, kv_Has, kv_Get, store_Has, vm_view. cbn.
  destruct (store_Get _ _); [by rw bool_decide_true|by rw bool_decide_false; [|intros [? ?]]].
Qed.

Lemma GetValueWithMiddlewares_answer mp p caller c : Check mp caller vm.PermStorageRead = Ok tt →
  (∀ h, ∃ bz, lcs_Marshal (MkBlockHeader h) = Ok bz) → (∀ s, ∃ bz, lcs_Marshal (MkCurrentTimestamp s) = Ok bz) →
  GetValueWithMiddlewares mp p caller c = (Ok (ds_answer c p), c).
Proof.
  intros Hc Hh Ht. unfold GetValueWithMiddlewares. rw keeper_method_granted; [|done].
  unfold ds_answer, dataMiddlewares. cbn [value_with_middlewares]. unfold NewBlockMiddleware, NewTimeMiddleware.
  destruct (decide (p = header_path)) as [->|Hp1].
  { rw decide_True; [|done]. by destruct (Hh (wrap64 (ctx_height c))) as [bz ->]. }
  rw decide_False; [|by intros E%path_eq].
  destruct (decide (p = time_path)) as [->|Hp2].
  { rw decide_True; [|done]. by destruct (Ht (wrap64 (Unix (ctx_time c)))) as [bz ->]. }
  rw decide_False; [|by intros E%path_eq].
  unfold vm.keeper_GetValue. by rw keeper_method_self.
Qed.
End facts.

(** ** What execution guarantees

    Requests come to an end; the data source answers like the querier; a handled message
    changes the VM's storage by the write sets the VM answered, and nothing else; a
    client reads back the codes of a failure; the type of an event costs what it shows. *)
Import vm_types vm_keeper.
Local Open Scope string_scope.
Local Open Scope Z_scope.

Section theorems.
Context `{ST : SdkTypes} `{VG : VmGrpc} `{GL : GasMeterLaws G} `{KVL : KVStoreLaws} `{LG : Ledger}.
Context `{VM : DVM} `{MD : GlavMetadata} `{LH : !Lcs BlockHeader} `{LT : !Lcs CurrentTimestamp}.
Implicit Types (c : Ctx) (g : G).

(** ** Requests *)
Definition attempt_of (source : VMAccessPath → option string) (req : RawRequest) (n : nat) : option VMExecuteResponse :=
  match req with
  | RawModule m => dvm_PublishModule n source m
  | RawScript s => dvm_ExecuteScript n source s
  end.

(** The VM answers one of the attempts that are made. *)
Definition answered (maxAttempts fuel : nat) (source : VMAccessPath → option string) (req : RawRequest) (exec : VMExecuteResponse) : Prop :=
  ∃ n, (0 < n ≤ fuel)%nat ∧ (maxAttempts = 0 ∨ n ≤ maxAttempts)%nat ∧
    (∀ k, 0 < k < n → attempt_of source req k = None)%nat ∧ attempt_of source req n = Some exec.

Lemma retryExecReq_answered fuel ds req max timeout exec caller c :
  answered max fuel (GetRaw (default c ds)) req exec →
  retryExecReq fuel ds (MkRetryExecReq req max timeout) caller c = (Ok exec, c).
Proof.
  intros (n & Hn & Hm & Hfail & Hr). unfold retryExecReq. cbn [rr_Request rr_MaxAttempts].
  rw (retry_loop_success fuel _ max n exec); [done|lia|lia|done|exact Hfail|exact Hr].
Qed.

(** A request always comes to an end when the number of attempts is limited: with the
    answer of the first attempt that has one, or with an error after the last one.
    Without a limit it ends exactly when the VM answers some attempt.  The state is not
    touched either way. *)
Theorem retryExecReq_terminates ds req max timeout caller c :
  let run fuel := retryExecReq fuel ds (MkRetryExecReq req max timeout) caller c in
  let answers n := attempt_of (GetRaw (default c ds)) req n in
  ((0 < max)%nat → ∀ fuel, (max ≤ fuel)%nat →
     (∃ exec, run fuel = (Ok exec, c) ∧ answered max fuel (GetRaw (default c ds)) req exec) ∨
     (∃ e, run fuel = (Err e, c) ∧ ∀ n, (0 < n ≤ max)%nat → answers n = None)) ∧
  (max = 0%nat →
     (∀ n, (0 < n)%nat → is_Some (answers n) → ∀ fuel, (n ≤ fuel)%nat → ∃ exec, run fuel = (Ok exec, c) ∧ answered max fuel (GetRaw (default c ds)) req exec) ∧
     ((∀ n, answers n = None) → ∀ fuel, run fuel = (Panic, c))).
Proof.
  intros run answers. split; [intros Hmax fuel Hf|intros ->; split].
  - destruct (first_success answers max) as [Hall|(m & r & Hm & Hr & Hb)].
    + right. exists (Plain "grpc error"). split; [|done]. unfold run, retryExecReq. cbn [rr_Request rr_MaxAttempts].
      by rw (retry_loop_failure fuel _ max); [|lia|exact Hall].
    + left. exists r. assert (answered max fuel (GetRaw (default c ds)) req r) as Ha by (exists m; split_and!; [lia|lia|lia|done|done]).
      split; [|done]. by apply retryExecReq_answered.
  - intros n Hn [r Hr] fuel Hf. destruct (first_success answers n) as [Hall|(m & r' & Hm & Hr' & Hb)].
    { rw Hall in Hr; [done|lia]. }
    exists r'. assert (answered 0 fuel (GetRaw (default c ds)) req r') as Ha by (exists m; split_and!; [lia|lia|lia|done|done]).
    split; [|done]. by apply retryExecReq_answered.
  - intros Hall fuel. unfold run, retryExecReq. cbn [rr_Request rr_MaxAttempts]. by rw retry_loop_forever; [|exact Hall].
Qed.

(** The data source answers the VM exactly what the querier answers a client: the
    height and the time of the block for their two paths of the standard library, and
    for every other path what the storage holds. *)
Theorem GetRaw_agrees_with_query mp caller c p :
  Check mp caller vm.PermStorageRead = Ok tt →
  (∀ h, ∃ bz, lcs_Marshal (MkBlockHeader h) = Ok bz) → (∀ s, ∃ bz, lcs_Marshal (MkCurrentTimestamp s) = Ok bz) →
  GetValueWithMiddlewares mp p caller c = (Ok (GetRaw c p), c) ∧
  (lcs_Marshal (MkBlockHeader (wrap64 (ctx_height c))) = Ok (default "" (GetRaw c header_path))) ∧
  (lcs_Marshal (MkCurrentTimestamp (wrap64 (Unix (ctx_time c)))) = Ok (default "" (GetRaw c time_path))) ∧
  (p ≠ header_path → p ≠ time_path → GetRaw c p = vm_view c p).
Proof.
  intros Hc Hh Ht. rw !GetRaw_answer. rw GetValueWithMiddlewares_answer; [|done..]. unfold ds_answer. split; [done|]. split_and!.
  - rw decide_True; [|done]. by destruct (Hh (wrap64 (ctx_height c))) as [bz ->].
  - rw decide_False; [|by intros [= E]; apply metadata_distinct]. rw decide_True; [|done].
    by destruct (Ht (wrap64 (Unix (ctx_time c)))) as [bz ->].
  - intros Hp1 Hp2. by rw !decide_False.
Qed.

(** ** Handling messages *)
Context `{CS : !Codec StdlibUpdateProposal} `{CT : !Codec TestProposal} `{CZ : !Codec Z}.
Variables (mp : ModulePermissions) (config : VMConfig) (fuel : nat).
Hypothesis self : mp_name mp = vm.ModuleName.

Lemma as_self perm {A} (body : M A) c : keeper_method mp perm body vm.ModuleName c = body vm.ModuleName c.
Proof. unfold keeper_method, AutoCheck. rw self. by rw bool_decide_true. Qed.

Lemma M_bind_eq {A B} (m m' : M A) (f : A → M B) caller c : m caller c = m' caller c → (m ≫= f) caller c = (m' ≫= f) caller c.
Proof. unfold mbind, M_bind. by intros ->. Qed.

(** The requests a message makes, all with the gas that is left when it is handled. *)
Definition requests g (msg : Msg) : list RawRequest :=
  match msg with
  | Msg_DeployModule msg => (λ contract, RawModule (NewDeployRequest g (mdm_Signer msg) contract)) <$> mdm_Module msg
  | Msg_ExecuteScript msg => [RawScript (NewExecuteRequest g msg)]
  | Msg_other => []
  end.

Definition total_gas (execs : list VMExecuteResponse) : Z := sumZ answer_gas execs.
Definition total_writes (execs : list VMExecuteResponse) : list vm.VMValue := concat (answer_writes <$> execs).
Definition total_events (execs : list VMExecuteResponse) : list Event := concat (answer_events <$> execs).

Lemma total_gas_nonneg execs : (∀ e, e ∈ execs → answer_ok e) → 0 ≤ total_gas execs.
Proof. intros Ho. apply sumZ_nonneg. intros e He. by apply answer_gas_nonneg, Ho. Qed.

Lemma process_all_run execs g c : (∀ e, e ∈ execs → answer_ok e) → total_gas execs ≤ gas_left g →
  ∃ g' c', process_all g execs vm.ModuleName c = (Ok g', c') ∧ gas_left g' = gas_left g - total_gas execs ∧
    executed c c' (total_writes execs) (total_events execs).
Proof.
  revert g c. induction execs as [|e execs IH]; intros g c Ho Hle.
  { exists g, c. split; [done|]. unfold total_gas. rw sumZ_nil. split; [lia|apply executed_refl]. }
  assert (0 ≤ total_gas execs) by (apply total_gas_nonneg; intros; apply Ho; by right).
  unfold total_gas in *. rw sumZ_cons in Hle |- *.
  destruct (processExecution_run g c e) as (g1 & c1 & Hrun & Hg1 & H1); [apply Ho; left|lia|].
  destruct (IH g1 c1) as (g2 & c2 & Hrun2 & Hg2 & H2); [intros; apply Ho; by right|lia|].
  exists g2, c2. cbn [process_all]. rw (M_bind_Ok _ _ _ _ g1 c1); [|done]. split; [done|]. split; [lia|].
  apply (executed_trans _ _ _ _ _ _ _ H1 H2).
Qed.

Lemma process_all_out execs g c : (∀ e, e ∈ execs → answer_ok e) → gas_left g < total_gas execs →
  fst (process_all g execs vm.ModuleName c) = Panic.
Proof.
  revert g c. induction execs as [|e execs IH]; intros g c Ho Hlt; unfold total_gas in *.
  { rw sumZ_nil in Hlt. pose proof (gas_left_range g). lia. }
  rw sumZ_cons in Hlt. cbn [process_all]. unfold mbind, M_bind.
  destruct (Z.le_gt_cases (answer_gas e) (gas_left g)) as [Hle|Hgt].
  - destruct (processExecution_run g c e) as (g1 & c1 & Hrun & Hg1 & _); [apply Ho; left|done|]. rw Hrun.
    apply IH; [intros; apply Ho; by right|lia].
  - pose proof (processExecution_out_of_gas g c e Hgt ltac:(apply ao_gas, Ho; left)) as Hp.
    by destruct (processExecution g e vm.ModuleName c) as [[] ?].
Qed.

Lemma or_crash_answered ds g req exec c :
  answered (MaxAttempts config) fuel (GetRaw (default c ds)) req exec →
  or_crash (match req with
            | RawModule m => sendExecuteReq config fuel ds (Some m) None
            | RawScript s => sendExecuteReq config fuel ds None (Some s)
            end) vm.ModuleName c = (Ok exec, c).
Proof.
  intros Ha. unfold or_crash. rw (M_bind_Ok _ _ _ _ (Ok exec) c); [done|]. apply attempt_Ok.
  destruct req; by apply retryExecReq_answered.
Qed.

(** A module is deployed and a script executed by the keeper like this. *)
Lemma DeployContract_eq g ds msg execs c :
  Forall2 (answered (MaxAttempts config) fuel (GetRaw (default c ds))) (requests g (Msg_DeployModule msg)) execs →
  DeployContract mp config fuel g ds msg vm.ModuleName c = process_all g execs vm.ModuleName c.
Proof.
  intros Ha. unfold DeployContract. rw as_self.
  rw (M_bind_Ok _ _ _ _ execs c); [done|]. unfold requests in Ha.
  revert execs Ha. induction (mdm_Module msg) as [|contract l IH]; intros execs Ha.
  { apply Forall2_nil_inv_l in Ha as ->. done. }
  rw fmap_cons in Ha. apply Forall2_cons_inv_l in Ha as (exec & execs' & Ha & Hl & ->).
  cbn [mapM_]. rw (M_bind_Ok _ _ _ _ exec c); [|by apply (or_crash_answered ds g (RawModule _))].
  by rw (M_bind_Ok _ _ _ _ execs' c); [|apply IH].
Qed.
Lemma ExecuteScript_eq g ds msg exec c :
  answered (MaxAttempts config) fuel (GetRaw (default c ds)) (RawScript (NewExecuteRequest g msg)) exec →
  ExecuteScript mp config fuel g ds msg vm.ModuleName c = processExecution g exec vm.ModuleName c.
Proof.
  intros Ha. unfold ExecuteScript. rw as_self.
  by rw (M_bind_Ok _ _ _ _ exec c); [|by apply (or_crash_answered ds g (RawScript _))].
Qed.

(** C23: when the VM answers, with well-formed answers, the requests of a message, all of
    them made on the state the message found, so that a module does not see the ones
    deployed with it, then the message is handled exactly when the gas covers them: the
    storage becomes what the write sets of the successful ones make of it, in order,
    nothing else of the state changes, and the result has their events.  Otherwise the
    handler panics. *)
Theorem NewHandler_executes g msg execs caller c : msg ≠ Msg_other →
  Forall2 (answered (MaxAttempts config) fuel (GetRaw c)) (requests g msg) execs → (∀ e, e ∈ execs → answer_ok e) →
  if decide (total_gas execs ≤ gas_left g) then
    ∃ r g' c', NewHandler mp config fuel g msg caller c = (Ok (r, g'), c') ∧
      gas_left g' = gas_left g - total_gas execs ∧ res_Events r = total_events execs ∧
      executed c c' (total_writes execs) []
  else fst (NewHandler mp config fuel g msg caller c) = Panic.
Proof.
  intros Hmsg Ha Ho. set (c0 := set_events c []).
  assert (NewHandler mp config fuel g msg caller c =
    (let r := (process_all g execs ≫= λ g', Events ≫= λ es, mret (MkResult "" es, g')) vm.ModuleName c0 in
     (r.1, set_events r.2 (ctx_events c)))) as ->.
  { unfold NewHandler, in_module, WithEventManager. fold c0.
    rw (M_bind_Ok _ _ _ _ None c0); [|unfold SetDSContext; by rw as_self].
    destruct msg as [msg|msg|]; [| |done].
    - unfold handleMsgDeploy. by rw (M_bind_eq _ (process_all g execs)); [|by apply DeployContract_eq].
    - cbn [requests] in Ha. apply Forall2_cons_inv_l in Ha as (exec & execs' & Ha & Hl & ->). apply Forall2_nil_inv_l in Hl as ->.
      unfold handleMsgScript. rw (M_bind_eq _ (process_all g [exec])); [done|].
      rw (ExecuteScript_eq g None msg exec c0 Ha). cbn [process_all]. unfold mbind, M_bind.
      by destruct (processExecution g exec vm.ModuleName c0) as [[] ?]. }
  case_decide as Hg.
  - destruct (process_all_run execs g c0 Ho Hg) as (g' & c1 & Hrun & Hg' & He).
    exists (MkResult "" (ctx_events c1)), g', (set_events c1 (ctx_events c)).
    rw (M_bind_Ok _ _ _ _ g' c1); [|done]. split; [done|]. split; [done|]. destruct He as [Hv Hk Hf Hb Hes].
    split; [by cbn; rw Hes|]. split; try done. cbn. by rw app_nil_r.
  - pose proof (process_all_out execs g c0 Ho ltac:(lia)) as Hp. unfold mbind, M_bind.
    by destruct (process_all g execs vm.ModuleName c0) as [[] ?].
Qed.

(** ** What a client reads *)
Definition status_of (exec : VMExecuteResponse) : list ClientStatus :=
  match ex_Status exec with
  | Some status =>
      match GetStatusCodesFromVMStatus status with
      | Ok (majorStatus, subStatus, _) => [client_status status majorStatus subStatus]
      | _ => []
      end
  | None => []
  end.

Lemma moves_status es : flat_map event_status (move_event <$> es) = [].
Proof. induction es as [|e es IH]; [done|]. rw fmap_cons. cbn [flat_map]. by rw (event_status_other (move_event e)). Qed.

Lemma answer_status exec : answer_ok exec → flat_map event_status (answer_events exec) = status_of exec.
Proof.
  intros [_ (status & [[major sub] loc] & Hs & Hc) _ _]. unfold answer_events, status_of. rw Hs Hc.
  destruct (contract_events_status exec status major sub loc Hs Hc) as (e & -> & He).
  cbn [flat_map app]. by rw (event_status_other (NewModuleNameEvent _)) // He moves_status.
Qed.

(** From the events of a handled message a client reads, in order, the status of
    every execution: kept, or discarded with the major and sub codes and the message the
    VM gave, and the name of the major code. *)
Theorem statuses_roundtrip hash execs : (∀ e, e ∈ execs → answer_ok e) →
  NewVMStatusFromABCILogs hash [total_events execs] = NewTxVMStatus hash (concat (status_of <$> execs)).
Proof.
  intros Ho. unfold NewVMStatusFromABCILogs. f_equal. cbn [flat_map]. rw app_nil_r. unfold total_events.
  induction execs as [|e execs IH]; [done|]. rw !fmap_cons. cbn [concat]. rw flat_map_app.
  rw IH; [|intros; apply Ho; by right]. by rw answer_status; [|apply Ho; left].
Qed.

(** Printing the type of a Move event gives its text exactly when the tags in it are
    consistent and the gas covers it, and consumes 10000 at least for every tag nested
    deeper than two levels; otherwise it fails. *)
Theorem event_type_costs g tag :
  match StringifyEventType g tag with
  | Ok (text, g') => show_opt tag = Some text ∧ opt_gas 1 tag ≤ gas_left g ∧ gas_left g' = gas_left g - opt_gas 1 tag ∧
      EventTypeProcessingGas * opt_deep 1 tag ≤ opt_gas 1 tag
  | _ => show_opt tag = None ∨ gas_left g < opt_gas 1 tag
  end.
Proof.
  pose proof (StringifyEventType_spec g tag) as Hp. destruct (StringifyEventType g tag) as [[text g']| |]; [|done..].
  destruct Hp as (Ht & Hle & Hg'). split_and!; try done. destruct tag as [t|]; [apply deep_tags_gas|done].
Qed.
End theorems.
