(* ===== verification/VmGov.v ===== *)
(** * Planned updates of the standard library

    The queue of proposals as a list of numbered proposals: governance appends to it, the
    begin blocker executes and removes the ones whose height has come. *)
From S2P Require Import Prelude Bytes Sdk SdkFacts DnTypes Perms Chain VMStorage CCStorage VmEvents VmKeeper VmTheorems.
Import vm_types vm_keeper.
Local Open Scope string_scope.
Local Open Scope Z_scope.
Local Open Scope list_scope.

(** ** Keys *)
Lemma GetProposalQueueKey_app id : GetProposalQueueKey id = "proposal_queue:" +:+ Uint64ToBigEndian id.
Proof. done. Qed.
Lemma queue_key_inj a b : 0 ≤ a < 2 ^ 64 → 0 ≤ b < 2 ^ 64 → GetProposalQueueKey a = GetProposalQueueKey b → a = b.
Proof.
  intros Ha Hb E. rw !GetProposalQueueKey_app in E. apply string_app_inj_len in E as [_ E]; [|done].
  by apply be_bytes_inj in E.
Qed.
Lemma queue_key_lt a b : 0 ≤ a < 2 ^ 64 → 0 ≤ b < 2 ^ 64 → a < b → bytes_lt (GetProposalQueueKey a) (GetProposalQueueKey b).
Proof.
  intros Ha Hb Hlt. rw !GetProposalQueueKey_app. apply bytes_lt_app. by apply be_bytes_lt.
Qed.
Lemma Split_queue_key id : 0 ≤ id < 2 ^ 64 → SplitProposalQueueKey (GetProposalQueueKey id) = Ok id.
Proof.
  intros Hid. unfold SplitProposalQueueKey. rw GetProposalQueueKey_app.
  change (String.length ProposalQueuePrefix + String.length KeyDelimiter)%nat with (String.length "proposal_queue:").
  rw string_drop_app. rw string_length_app. destruct (Nat.ltb_spec (String.length "proposal_queue:" + String.length (Uint64ToBigEndian id)) (String.length "proposal_queue:")); [lia|].
  change (BigEndian_Uint64 (Uint64ToBigEndian id) = Ok id). rw -(string_app_nil_r (Uint64ToBigEndian id)). by apply BigEndian_Uint64_bytes.
Qed.
Lemma queue_key_prefix id : has_prefix ProposalQueuePrefix (GetProposalQueueKey id).
Proof. by exists (":" +:+ Uint64ToBigEndian id). Qed.
Lemma vm_key_not_queue k : has_prefix ProposalQueuePrefix k → ¬ has_prefix common_vm.GetPathPrefixKey k.
Proof. intros [t ->] [u E]. done. Qed.

Section gov.
Context `{ST : SdkTypes} `{VG : VmGrpc} `{GL : GasMeterLaws G} `{KVL : KVStoreLaws} `{LG : Ledger}.
Context `{VM : DVM} `{MD : GlavMetadata} `{LH : !Lcs BlockHeader} `{LT : !Lcs CurrentTimestamp}.
Context `{CS : !Codec StdlibUpdateProposal} `{CT : !Codec TestProposal} `{CZ : !Codec Z}.
(** The two concrete types have different amino prefixes. *)
Hypothesis test_prefix : ∀ p : TestProposal, Unmarshal (A := StdlibUpdateProposal) LengthPrefixed (Marshal LengthPrefixed p) = None.
Implicit Types (c : Ctx) (g : G) (q : list (Z * PlannedProposal)).

Lemma unmarshal_marshal p : unmarshalPlannedProposal (marshalPlannedProposal p) = Ok p.
Proof. unfold unmarshalPlannedProposal, marshalPlannedProposal. destruct p; [by rw Unmarshal_Marshal|by rw test_prefix Unmarshal_Marshal]. Qed.

(** The store holds exactly the queue [q], its numbers increasing below [next]. *)
Record queue_holds (s : store) q (next : Z) : Prop := {
  qh_next : 0 ≤ next < 2 ^ 64;
  qh_last : store_Get s ProposalIDKey = if decide (next = 0) then None else Some (Marshal LengthPrefixed (next - 1));
  qh_ids id p : (id, p) ∈ q → 0 ≤ id < next;
  qh_sorted : StronglySorted Z.lt q.*1;
  qh_entry k v : has_prefix ProposalQueuePrefix k →
    store_Get s k = Some v ↔ ∃ id p, (id, p) ∈ q ∧ k = GetProposalQueueKey id ∧ v = marshalPlannedProposal p;
}.

Definition queue_entry (x : Z * PlannedProposal) : string * string := (GetProposalQueueKey x.1, marshalPlannedProposal x.2).

Lemma proposal_iterator s q next : queue_holds s q next → KVStorePrefixIterator s ProposalQueuePrefix = queue_entry <$> q.
Proof.
  intros [Hn Hl Hids Hs He]. eapply sorted_ext with (R := λ a b, bytes_lt a.1 b.1).
  - intros x. apply bytes_lt_irrefl.
  - intros x y z. apply bytes_lt_trans.
  - apply store_Iterator_sorted.
  - clear He. induction q as [|[id p] q IH]; [constructor|]. rw fmap_cons in Hs. apply StronglySorted_inv in Hs as [Hs Hid].
    rw fmap_cons. constructor; [apply IH; [intros; eapply Hids; by right|done]|]. rewrite Forall_forall. intros x ([id' p'] & -> & Hin)%list_elem_of_fmap.
    assert (0 ≤ id < next) by (eapply Hids; left). assert (0 ≤ id' < next) by (eapply Hids; by right).
    cbn [queue_entry fst]. apply queue_key_lt; cbn [fst]; [lia..|]. rewrite Forall_forall in Hid. apply Hid. apply list_elem_of_fmap. by exists (id', p').
  - intros [k v]. rw at_prefix_elem; [|done]. split.
    + intros [Hg Hk]. apply He in Hg as (id & p & Hin & -> & ->); [|done]. apply list_elem_of_fmap. by exists (id, p).
    + intros ([id p] & [= -> ->] & Hin)%list_elem_of_fmap. split; [|apply queue_key_prefix].
      apply He; [apply queue_key_prefix|]. by exists id, p.
Qed.

(** Nothing else of the store matters. *)
Lemma queue_holds_ext s s' q next : queue_holds s q next →
  (∀ k, ¬ has_prefix common_vm.GetPathPrefixKey k → store_Get s' k = store_Get s k) → queue_holds s' q next.
Proof.
  intros [Hn Hl Hids Hs He] Hext. split; try done.
  - rw Hext; [done|]. by intros [? ?].
  - intros k v Hk. rw Hext; [by apply He|by apply vm_key_not_queue].
Qed.

Lemma queue_add s q next p : queue_holds s q next → next + 1 < 2 ^ 64 →
  queue_holds (store_Set (store_Set s (GetProposalQueueKey next) (marshalPlannedProposal p)) ProposalIDKey (Marshal LengthPrefixed next))
    (q ++ [(next, p)])%list (next + 1).
Proof.
  intros [Hn Hl Hids Hs He] Hmax. split.
  - lia.
  - rw store_Get_Set_eq. rw decide_False; [|lia]. by replace (next + 1 - 1) with next by lia.
  - intros id p' [Hin|[= -> ->]%list_elem_of_singleton]%elem_of_app; [|lia]. apply Hids in Hin. lia.
  - rw fmap_app. clear -Hs Hids. induction q as [|[id p'] q IH]; [repeat constructor|].
    rw fmap_cons in Hs |- *. apply StronglySorted_inv in Hs as [Hs Hid]. cbn [app]. constructor; [apply IH; [intros; eapply Hids; by right|done]|].
    rewrite Forall_forall. intros x [Hin|Hin%list_elem_of_singleton]%elem_of_app.
    + rewrite Forall_forall in Hid. by apply Hid.
    + subst. assert (0 ≤ id < next) by (eapply Hids; left). simpl. lia.
  - intros k v Hk. rw store_Get_Set_ne; [|intros <-; by destruct Hk]. rw store_Get_Set. destruct (decide (GetProposalQueueKey next = k)) as [<-|Hd].
    + split.
      * intros [= <-]. exists next, p. split_and!; [|done..]. apply elem_of_app. right. left.
      * intros (id & p' & [Hin|[= -> ->]%list_elem_of_singleton]%elem_of_app & E & ->); [|done].
        pose proof (Hids _ _ Hin). apply queue_key_inj in E; lia.
    + rw He; [|done]. split.
      * intros (id & p' & Hin & -> & ->). exists id, p'. split_and!; [|done..]. apply elem_of_app. by left.
      * intros (id & p' & [Hin|[= -> ->]%list_elem_of_singleton]%elem_of_app & -> & ->); [by exists id, p'|done].
Qed.

Lemma queue_remove s q next id : queue_holds s q next → 0 ≤ id < next →
  queue_holds (store_Delete s (GetProposalQueueKey id)) (filter (λ x, x.1 ≠ id) q) next.
Proof.
  intros [Hn Hl Hids Hs He] Hid. split; [done|..].
  - rw store_Get_Delete_ne; [done|]. rw GetProposalQueueKey_app. done.
  - intros id' p' [_ Hin]%list_elem_of_filter. by eapply Hids.
  - clear -Hs. induction q as [|[id' p'] q IH]; [constructor|]. rw fmap_cons in Hs. apply StronglySorted_inv in Hs as [Hs Hlt].
    rewrite filter_cons. case_decide; [|by apply IH]. rw fmap_cons. constructor; [by apply IH|].
    rewrite Forall_forall in Hlt. rewrite Forall_forall. intros x (y & -> & [_ Hin]%list_elem_of_filter)%list_elem_of_fmap. apply Hlt.
    apply list_elem_of_fmap. by exists y.
  - intros k v Hk. rw store_Get_Delete. destruct (decide (GetProposalQueueKey id = k)) as [<-|Hd].
    + split; [done|]. intros (id' & p' & [Hne Hin]%list_elem_of_filter & E & _). apply Hids in Hin. apply queue_key_inj in E; [|lia..]. done.
    + rw He; [|done]. split; intros (id' & p' & Hin & -> & ->); exists id', p'; split_and!; try done.
      * apply list_elem_of_filter. split; [|done]. simpl. by intros ->.
      * by apply list_elem_of_filter in Hin as [_ ?].
Qed.

(** ** Blocks *)
Variables (mp : ModulePermissions) (config : VMConfig) (fuel : nat).
Hypothesis self : mp_name mp = vm.ModuleName.

(** The VM's storage changes by these writes; the queue may change too. *)
Record changed c c' (ws : list vm.VMValue) (es : list Event) : Prop := {
  ch_view p : common_vm.path_ok p → vm_view c' p = apply_writes (vm_view c) ws p;
  ch_frame : frame [vm.StoreKey] c c';
  ch_bank : ctx_bank c' = ctx_bank c;
  ch_events : ctx_events c' = (ctx_events c ++ es)%list;
}.
Lemma executed_changed c c' ws es : executed c c' ws es → changed c c' ws es.
Proof. by intros []. Qed.
Lemma changed_trans c c1 c2 ws ws' es es' : changed c c1 ws es → changed c1 c2 ws' es' → changed c c2 (ws ++ ws') (es ++ es').
Proof.
  intros [V1 F1 B1 E1] [V2 F2 B2 E2]. split.
  - intros p Hp. rw V2; [|done]. unfold apply_writes. rw foldl_app. apply apply_writes_ext; [|done]. intros q Hq. by rw V1.
  - by eapply frame_trans.
  - by rw B2.
  - by rw E2 E1 app_assoc.
Qed.
Lemma path_key_not_queue p id : GetProposalQueueKey id ≠ common_vm.GetPathKey p.
Proof. rw common_vm.GetPathKey_eq. done. Qed.

(** The proposals whose height has come at [height]. *)
Definition due (height : Z) (x : Z * PlannedProposal) : Prop := 0 < pl_Height (GetPlan x.2) ∧ pl_Height (GetPlan x.2) ≤ height.
#[global] Instance due_dec height x : Decision (due height x).
Proof. unfold due. apply _. Defined.

Lemma ShouldExecute_run x c : ShouldExecute (GetPlan x.2) vm.ModuleName c = (Ok (bool_decide (due (ctx_height c) x)), c).
Proof.
  set (h := pl_Height (GetPlan x.2)).
  transitivity ((Ok (if 0 <? h then h <=? ctx_height c else false), c) : outcome bool * Ctx); [done|]. do 2 f_equal. unfold due. fold h.
  destruct (Z.ltb_spec 0 h), (Z.leb_spec h (ctx_height c)); symmetry; first [by apply bool_decide_true|apply bool_decide_false; lia].
Qed.

(** The VM answers every request to publish a module, within [B] gas. *)
Definition vm_serves (B : Z) : Prop := ∀ source m,
  ∃ exec, answered (MaxAttempts config) fuel source (RawModule m) exec ∧ answer_ok exec ∧ answer_gas exec ≤ B.

(** The request an update makes when it is executed. *)
Definition update_request g (p : PlannedProposal) : RawRequest :=
  match p with
  | Planned_StdlibUpdate p => RawModule (NewDeployRequest g common_vm.StdLibAddress (sp_Code p))
  | Planned_Test _ => RawModule (NewDeployRequest g common_vm.StdLibAddress "")
  end.

Lemma BeginBlocker_skips x g c : ¬ due (ctx_height c) x →
  BeginBlocker_proposal mp config fuel None g x.1 x.2 vm.ModuleName c = (Ok g, c).
Proof.
  intros Hd. unfold BeginBlocker_proposal. rw (M_bind_Ok _ _ _ _ false c); [done|].
  rw ShouldExecute_run. by rw bool_decide_false.
Qed.

Lemma BeginBlocker_updates B id p g c q next : vm_serves B → queue_holds (ctx_stores c vm.StoreKey) q next →
  (id, Planned_StdlibUpdate p) ∈ q → due (ctx_height c) (id, Planned_StdlibUpdate p) → B ≤ gas_left g →
  ∃ exec g' c', BeginBlocker_proposal mp config fuel None g id (Planned_StdlibUpdate p) vm.ModuleName c = (Ok g', c') ∧
    answered (MaxAttempts config) fuel (GetRaw c) (update_request g (Planned_StdlibUpdate p)) exec ∧ answer_ok exec ∧
    gas_left g - B ≤ gas_left g' ∧ changed c c' (answer_writes exec) (answer_events exec) ∧
    queue_holds (ctx_stores c' vm.StoreKey) (filter (λ x, x.1 ≠ id) q) next.
Proof.
  intros Hserve Hq Hin Hd HB.
  destruct (Hserve (GetRaw c) (NewDeployRequest g common_vm.StdLibAddress (sp_Code p))) as (exec & Ha & Ho & HgB).
  destruct (processExecution_run g c exec Ho (Z.le_trans _ _ _ HgB HB)) as (g' & c1 & Hrun & Hg' & He).
  set (msg := NewMsgDeployModule common_vm.StdLibAddress [sp_Code p]).
  assert (DeployContract mp config fuel g None msg vm.ModuleName c = (Ok g', c1)) as Hdep.
  { rw (DeployContract_eq mp config fuel self g None msg [exec] c); [|by constructor].
    cbn [process_all]. by rw (M_bind_Ok _ _ _ _ g' c1). }
  exists exec, g', (set_store c1 vm.StoreKey (store_Delete (ctx_stores c1 vm.StoreKey) (GetProposalQueueKey id))).
  split.
  { unfold BeginBlocker_proposal. rw (M_bind_Ok _ _ _ _ true c); [|rw (ShouldExecute_run (id, Planned_StdlibUpdate p)); by rw bool_decide_true].
    cbn [negb]. rw (M_bind_Ok _ _ _ _ g' c1).
    2:{ rw (M_bind_Ok _ _ _ _ (Ok g') c1); [|by apply attempt_Ok]. cbn. unfold SetDSContext. by rw (M_bind_Ok _ _ _ _ None c1); [|rw (as_self mp self)]. }
    unfold RemoveProposalFromQueue. by rw (M_bind_Ok _ _ _ _ tt _ (as_self mp self _ _ _)). }
  pose proof (qh_ids _ _ _ Hq _ _ Hin) as Hid.
  split; [done|]. split; [done|]. split; [lia|]. split.
  - destruct He as [Hv Hk Hf Hb Hes]. split; try done.
    + intros path Hp. rw -Hv; [|done]. unfold vm_view. cbn. rw store_Get_Delete_ne; [done|apply path_key_not_queue].
    + destruct Hf as (Hf & Hh & Ht). split; [|done]. intros k Hk'. cbn. rw decide_False; [by apply Hf|]. intros ->. apply Hk'. left.
  - cbn. apply queue_remove; [|done]. eapply queue_holds_ext; [done|]. by apply ex_other with (1 := He).
Qed.

Lemma sorted_distinct (l : list Z) : StronglySorted Z.lt l → NoDup l.
Proof.
  induction 1 as [|x l Hs IH Hx]; constructor; [|done]. intros Hin. rewrite Forall_forall in Hx. apply Hx in Hin. lia.
Qed.

Lemma queue_without q1 id p q2 : NoDup (q1 ++ (id, p) :: q2).*1 →
  filter (λ x : Z * PlannedProposal, x.1 ≠ id) (q1 ++ (id, p) :: q2)%list = (q1 ++ q2)%list.
Proof.
  rewrite fmap_app fmap_cons. intros (_ & Hd & Hn)%NoDup_app. apply NoDup_cons in Hn as [Hn _].
  rewrite filter_app filter_cons. rewrite decide_False; [|by intros []].
  rw (filter_all _ q1); [rw (filter_all _ q2); [done|]|].
  - intros x Hx <-. apply Hn, list_elem_of_fmap. by exists x.
  - intros x Hx E. apply (Hd x.1); [apply list_elem_of_fmap; by exists x|]. rewrite E. left.
Qed.

(** Each update runs on the state the earlier ones left. *)
Definition updates_answered c (xs : list (Z * PlannedProposal)) (execs : list VMExecuteResponse) : Prop :=
  length execs = length xs ∧
  ∀ i x exec, xs !! i = Some x → execs !! i = Some exec → answer_ok exec ∧
    ∃ ci gi, answered (MaxAttempts config) fuel (GetRaw ci) (update_request gi x.2) exec ∧
      ∀ path, common_vm.path_ok path → vm_view ci path = apply_writes (vm_view c) (total_writes (take i execs)) path.

Lemma updates_answered_cons c c1 g x xs exec execs es :
  answered (MaxAttempts config) fuel (GetRaw c) (update_request g x.2) exec → answer_ok exec →
  changed c c1 (answer_writes exec) es → updates_answered c1 xs execs → updates_answered c (x :: xs) (exec :: execs).
Proof.
  intros Ha Ho Hch [Hlen Hall]. split; [simpl; lia|]. intros [|i] y e Hx He; simpl in Hx, He.
  - injection Hx as <-. injection He as <-. split; [done|]. by exists c, g.
  - destruct (Hall i y e Hx He) as (Hok & ci & gi & Hai & Hv). split; [done|]. exists ci, gi. split; [done|].
    intros path Hp. rw Hv; [|done]. unfold total_writes. cbn. unfold apply_writes. rw foldl_app.
    apply apply_writes_ext; [|done]. intros q Hq. by apply (ch_view _ _ _ _ Hch).
Qed.

Lemma iterate_updates B next : vm_serves B → ∀ rest kept g c,
  queue_holds (ctx_stores c vm.StoreKey) (kept ++ rest) next →
  (∀ id p, (id, Planned_Test p) ∈ rest → ¬ due (ctx_height c) (id, Planned_Test p)) →
  Z.of_nat (length (filter (due (ctx_height c)) rest)) * B ≤ gas_left g →
  ∃ execs g' c', iterate_proposals g (BeginBlocker_proposal mp config fuel None) (queue_entry <$> rest) vm.ModuleName c = (Ok g', c') ∧
    updates_answered c (filter (due (ctx_height c)) rest) execs ∧ changed c c' (total_writes execs) (total_events execs) ∧
    queue_holds (ctx_stores c' vm.StoreKey) (kept ++ filter (λ x, ¬ due (ctx_height c) x) rest) next.
Proof.
  intros Hserve rest. induction rest as [|[id p] rest IH]; intros kept g c Hq Htest Hgas.
  { exists [], g, c. split; [done|]. split; [by split|]. split; [|by rewrite app_nil_r in Hq |- *].
    apply executed_changed, executed_refl. }
  assert (0 ≤ B) as HB0.
  { destruct (Hserve (GetRaw c) (NewDeployRequest g "" "")) as (e & _ & Ho & Hle). pose proof (answer_gas_nonneg e Ho). lia. }
  assert ((id, p) ∈ (kept ++ (id, p) :: rest)%list) as Hin by (apply elem_of_app; right; left).
  pose proof (qh_ids _ _ _ Hq _ _ Hin) as Hid. pose proof (qh_next _ _ _ Hq) as Hn.
  rewrite fmap_cons. cbn [iterate_proposals]. rw (M_bind_Ok _ _ _ _ id c); [|apply lift_Ok, Split_queue_key; lia].
  rw (M_bind_Ok _ _ _ _ p c); [|cbn [queue_entry snd]; by rw unmarshal_marshal].
  rewrite !filter_cons. destruct (decide (due (ctx_height c) (id, p))) as [Hd|Hd].
  - destruct p as [p|p]; [|by destruct (Htest id p ltac:(left))].
    rewrite filter_cons decide_True in Hgas; [|done]. cbn [length] in Hgas.
    destruct (BeginBlocker_updates B id p g c _ next Hserve Hq Hin Hd ltac:(nia)) as (exec & g1 & c1 & Hrun & Ha & Ho & Hg1 & Hch & Hq1).
    rewrite queue_without in Hq1; [|apply sorted_distinct, (qh_sorted _ _ _ Hq)].
    assert (ctx_height c1 = ctx_height c) as Eh by apply (ch_frame _ _ _ _ Hch).
    destruct (IH kept g1 c1 Hq1) as (execs & g' & c' & Hrun' & Hu & Hch' & Hq').
    { rewrite Eh. intros i t Ht. apply Htest. by right. }
    { rewrite Eh. nia. }
    rewrite Eh in Hu, Hq'. exists (exec :: execs), g', c'. rw (M_bind_Ok _ _ _ _ g1 c1); [|done].
    rewrite decide_False; [|by intros []].
    split; [done|]. split; [by apply (updates_answered_cons c c1 g (id, Planned_StdlibUpdate p) _ _ _ _ Ha Ho Hch)|]. split; [|done].
    apply (changed_trans _ _ _ _ _ _ _ Hch Hch').
  - rewrite filter_cons decide_False in Hgas; [|done].
    destruct (IH (kept ++ [(id, p)])%list g c) as (execs & g' & c' & Hrun' & Hu & Hch' & Hq'); [by rewrite -app_assoc| |done|].
    { intros i t Ht. apply Htest. by right. }
    exists execs, g', c'. rw (M_bind_Ok _ _ _ _ g c); [|by apply (BeginBlocker_skips (id, p))].
    rewrite decide_True; [|done]. rewrite -app_assoc in Hq'. done.
Qed.

(** C24: while the VM answers, the begin blocker never fails: it executes exactly the
    updates whose height has come, each on the state the earlier ones left, and takes
    exactly them out of the queue; the others stay as they are, so that a scheduled
    update is executed in the first block of its height or later, once. *)
Theorem BeginBlocker_executes_due B q next caller g c : vm_serves B →
  queue_holds (ctx_stores c vm.StoreKey) q next →
  (∀ id p, (id, Planned_Test p) ∈ q → ¬ due (ctx_height c) (id, Planned_Test p)) →
  Z.of_nat (length (filter (due (ctx_height c)) q)) * B ≤ gas_left g →
  ∃ execs g' c', BeginBlocker mp config fuel g caller c = (Ok g', c') ∧
    updates_answered c (filter (due (ctx_height c)) q) execs ∧
    changed c c' (total_writes execs) (total_events execs) ∧
    queue_holds (ctx_stores c' vm.StoreKey) (filter (λ x, ¬ due (ctx_height c) x) q) next.
Proof.
  intros Hserve Hq Htest Hgas. destruct (iterate_updates B next Hserve q [] g c Hq Htest Hgas) as (execs & g' & c' & Hrun & Hu & Hch & Hq').
  exists execs, g', c'. split; [|done]. unfold BeginBlocker, in_module.
  rw (M_bind_Ok _ _ _ _ None c); [|unfold SetDSContext; by rw (as_self mp self)].
  unfold IterateProposalsQueue. rw (as_self mp self).
  rw (M_bind_Ok _ _ _ _ (queue_entry <$> q) c); [done|]. change (kv_PrefixIterator vm.StoreKey ProposalQueuePrefix vm.ModuleName c) with
    ((Ok (KVStorePrefixIterator (ctx_stores c vm.StoreKey) ProposalQueuePrefix), c) : outcome (list (string * string)) * Ctx).
  by rw (proposal_iterator _ q next).
Qed.

(** *** Scheduling *)
(** Governance schedules an update only after a dry run: when the VM refuses the code,
    or the height is not in the future, it is an error that changes nothing; otherwise the
    update is appended to the queue under the next number, and the VM's storage stays. *)
Theorem NewGovHandler_schedules g ds p exec caller c q next :
  answered (MaxAttempts config) fuel (GetRaw (default c ds)) (update_request g (Planned_StdlibUpdate p)) exec →
  queue_holds (ctx_stores c vm.StoreKey) q next → next + 1 < 2 ^ 64 →
  let refused := match ex_Status exec with Some (MkVMStatus (Some _) _) => true | _ => false end in
  if refused || (pl_Height (sp_Plan p) <=? ctx_height c) then
    ∃ e, NewGovHandler mp config fuel g ds (Content_StdlibUpdate p) caller c = (Err e, c)
  else
    ∃ c', NewGovHandler mp config fuel g ds (Content_StdlibUpdate p) caller c = (Ok tt, c') ∧
      queue_holds (ctx_stores c' vm.StoreKey) (q ++ [(next, Planned_StdlibUpdate p)]) (next + 1) ∧
      (∀ path, vm_view c' path = vm_view c path) ∧ changed c c' [] [].
Proof.
  intros Ha Hq Hmax refused. change (NewGovHandler mp config fuel g ds (Content_StdlibUpdate p) caller c) with
    (handleUpdateStdlibProposalDryRun mp config fuel g ds p vm.ModuleName c).
  unfold handleUpdateStdlibProposalDryRun. set (msg := NewMsgDeployModule common_vm.StdLibAddress [sp_Code p]).
  rw (M_bind_Ok _ _ _ _ msg c); [|done].
  assert (DeployContractDryRun mp config fuel g ds msg vm.ModuleName c = if refused then (Err ErrWrongExecutionResponse, c) else (Ok tt, c)) as Hdry.
  { unfold DeployContractDryRun. rw (as_self mp self). cbn [mdm_Module msg NewMsgDeployModule forM].
    unfold mbind at 1, M_bind at 1. rw (M_bind_Ok _ _ _ _ (Ok exec) c); [|by apply attempt_Ok, retryExecReq_answered].
    unfold refused. by destruct (ex_Status exec) as [[[err|] text]|]. }
  destruct refused; cbn [orb].
  { exists ErrWrongExecutionResponse. by apply M_bind_Err. }
  rw (M_bind_Ok _ _ _ _ tt c); [|done]. unfold ScheduleProposal. rw (as_self mp self). cbn [GetPlan].
  rw (M_bind_Ok _ _ _ _ (ctx_height c) c); [|done].
  destruct (pl_Height (sp_Plan p) <=? ctx_height c) eqn:Eh; [by eexists|].
  assert (getNextProposalID vm.ModuleName c = (Ok next, c)) as Hnext.
  { unfold getNextProposalID. rw (M_bind_Ok _ _ _ _ (store_Get (ctx_stores c vm.StoreKey) ProposalIDKey) c); [|done].
    rw (qh_last _ _ _ Hq). pose proof (qh_next _ _ _ Hq). destruct (decide (next = 0)) as [->|]; [done|].
    rw (M_bind_Ok _ _ _ _ (next - 1) c); [|unfold MustUnmarshal; by rw Unmarshal_Marshal].
    unfold mret, M_ret. do 2 f_equal. unfold wrap64. rw Z.mod_small; lia. }
  unfold addProposalToQueue. rw (M_bind_Ok _ _ _ _ next c); [|done].
  set (s1 := store_Set (ctx_stores c vm.StoreKey) (GetProposalQueueKey next) (marshalPlannedProposal (Planned_StdlibUpdate p))).
  set (c1 := set_store c vm.StoreKey s1). set (s2 := store_Set s1 ProposalIDKey (Marshal LengthPrefixed next)).
  set (c2 := set_store c1 vm.StoreKey s2). exists c2. split; [done|].
  assert (ctx_stores c2 vm.StoreKey = s2) as Es by done.
  assert (∀ path, vm_view c2 path = vm_view c path) as Hv.
  { intros path. unfold vm_view. rewrite Es. unfold s2, s1. rw store_Get_Set_ne; [|by rw common_vm.GetPathKey_eq].
    by rw store_Get_Set_ne; [|apply path_key_not_queue]. }
  rewrite Es. split; [by apply queue_add|]. split; [exact Hv|].
  split; try done; [|by rw app_nil_r].
  split; [|done]. intros k Hk. unfold c2, c1. rw !ctx_stores_set_store. rewrite !decide_False //; intros ->; apply Hk; left.
Qed.
End gov.
