(* ===== verification/VmWitnesses.v ===== *)
(** * Execution: the theorems on a concrete chain

    A VM that answers its second attempt: it stores modules under the standard library,
    a script stores the height it reads from the data source, and one code is refused. *)
From S2P Require Import Prelude Bytes Sdk SdkRef SdkFacts DnTypes Perms Chain VMStorage CCStorage Scenario VmEvents VmKeeper VmTheorems VmGov.
Import vm_types vm_keeper.
Local Open Scope string_scope.
Local Open Scope Z_scope.

(** ** A gas meter: limit and consumed gas *)
Record BasicMeter := MkBasicMeter { bm_limit : Z; bm_consumed : Z }.
Definition meter_left (g : BasicMeter) : Z :=
  if (0 <=? bm_consumed g) && (bm_consumed g <=? bm_limit g) && (bm_limit g <? 2 ^ 64) then bm_limit g - bm_consumed g else 0.
#[export] Instance basic_meter : GasMeter BasicMeter := {|
  gm_GasConsumed := bm_consumed;
  gm_Limit := bm_limit;
  gm_ConsumeGas g n := if n <=? meter_left g then Ok (MkBasicMeter (bm_limit g) (bm_consumed g + n)) else Panic;
|}.
#[export] Program Instance basic_meter_laws : GasMeterLaws BasicMeter := {| gas_left := meter_left |}.
Next Obligation.
  intros g. unfold meter_left. destruct (Z.leb_spec 0 (bm_consumed g)), (Z.leb_spec (bm_consumed g) (bm_limit g)), (Z.ltb_spec (bm_limit g) (2 ^ 64)); simpl; lia.
Qed.
Next Obligation.
  intros g n [Hn Hle]. cbn. rw (proj2 (Z.leb_le _ _) Hle). eexists. split; [done|]. split; [|done].
  unfold meter_left in *. cbn. destruct (Z.leb_spec 0 (bm_consumed g)), (Z.leb_spec (bm_consumed g) (bm_limit g)), (Z.ltb_spec (bm_limit g) (2 ^ 64)); simpl in *;
    destruct (Z.leb_spec 0 (bm_consumed g + n)), (Z.leb_spec (bm_consumed g + n) (bm_limit g)); simpl; lia.
Qed.
Next Obligation. intros g n Hlt. cbn. by rw (proj2 (Z.leb_gt _ _) Hlt). Qed.

(** ** Formats *)
#[export] Instance VmGrpc_ref : VmGrpc := {|
  LcsType_name n := if n =? 3 then "LcsAddress" else "";
  VMTypeTag_name n := if n =? 1 then Some "U64" else None;
  VMTypeTag_value s := if decide (s = "U64") then Some 1 else None;
|}.
#[export] Program Instance GlavMetadata_ref : GlavMetadata := {| BlockMetadataVector := "block"; TimeMetadataVector := "time" |}.
Next Obligation. done. Qed.
#[export] Program Instance lcs_header : Lcs BlockHeader := {|
  lcs_Marshal h := Ok (Marshal (Codec := codec_of_countable Z) Bare (bh_Height h));
  lcs_Unmarshal bz := match Unmarshal (Codec := codec_of_countable Z) Bare bz with Some z => Ok (MkBlockHeader z) | None => Panic end;
|}.
Next Obligation. intros [h] bz [= <-]. by rw Unmarshal_Marshal. Qed.
#[export] Program Instance lcs_time : Lcs CurrentTimestamp := {|
  lcs_Marshal h := Ok (Marshal (Codec := codec_of_countable Z) Bare (ct_Seconds h));
  lcs_Unmarshal bz := match Unmarshal (Codec := codec_of_countable Z) Bare bz with Some z => Ok (MkCurrentTimestamp z) | None => Panic end;
|}.
Next Obligation. intros [h] bz [= <-]. by rw Unmarshal_Marshal. Qed.

#[export] Instance plan_eq_dec : EqDecision Plan.
Proof. solve_decision. Defined.
#[export] Instance plan_countable : Countable Plan.
Proof. refine (inj_countable' pl_Height MkPlan _). abstract (by intros []). Defined.
#[export] Instance stdlib_eq_dec : EqDecision StdlibUpdateProposal.
Proof. solve_decision. Defined.
#[export] Instance stdlib_countable : Countable StdlibUpdateProposal.
Proof.
  refine (inj_countable' (λ p, (sp_Url p, sp_UpdateDescription p, sp_Plan p, sp_Code p)) (λ x, MkStdlibUpdateProposal x.1.1.1 x.1.1.2 x.1.2 x.2) _).
  abstract (by intros []).
Defined.
#[export] Instance test_eq_dec : EqDecision TestProposal.
Proof. solve_decision. Defined.
#[export] Instance test_countable : Countable TestProposal.
Proof. refine (inj_countable' (λ p, (tp_Plan p, tp_Value p)) (λ x, MkTestProposal x.1 x.2) _). abstract (by intros []). Defined.

(** The prefix of a concrete type. *)
Program Definition codec_prefixed {A} (c : ascii) (C : Codec A) : Codec A := {|
  Marshal e a := String c (Marshal e a);
  Unmarshal e s := match s with String d s' => if decide (d = c) then Unmarshal e s' else None | "" => None end;
|}.
Next Obligation. intros A c C e a. simpl. rw decide_True; [|done]. apply Unmarshal_Marshal. Qed.
#[export] Instance codec_Stdlib : Codec StdlibUpdateProposal := codec_prefixed "s" (codec_of_countable StdlibUpdateProposal).
#[export] Instance codec_Test : Codec TestProposal := codec_prefixed "t" (codec_of_countable TestProposal).
#[export] Instance codec_ID : Codec Z := codec_of_countable Z.
Lemma prefixes_differ (p : TestProposal) : Unmarshal (A := StdlibUpdateProposal) LengthPrefixed (Marshal LengthPrefixed p) = None.
Proof. done. Qed.

(** ** The VM *)
Definition stored (path value : string) : vm.VMValue :=
  vm.MkVMValue vm.VmWriteOp_Value (MkVMAccessPath common_vm.StdLibAddress path) value.
(** [vector<0x1::Coins::Coin<u64>>]. *)
Definition coin_type : LcsTag :=
  MkLcsTag LcsType_LcsVector
    (Some (MkLcsTag LcsType_LcsStruct None
      (Some (MkLcsStructIdent common_vm.StdLibAddress "Coins" "Coin" [Some (MkLcsTag LcsType_LcsU64 None None)]))))
    None.
Definition kept (path value : string) : VMExecuteResponse :=
  MkVMExecuteResponse [stored path value] [MkVMEvent common_vm.StdLibAddress None (Some coin_type) "abc"] 1000 (Some (MkVMStatus None None)).
Definition refused : VMExecuteResponse :=
  MkVMExecuteResponse [stored "x" "y"] [] 700 (Some (MkVMStatus (Some (VMStatus_MoveError (Some (MkMoveError 3001)))) (Some "no code"))).

#[export] Instance the_vm : DVM := {|
  dvm_PublishModule n source m :=
    if (n =? 1)%nat then None
    else if decide (pm_Code m = "bad") then Some refused else Some (kept ("module/" +:+ pm_Sender m) (pm_Code m));
  dvm_ExecuteScript n source s :=
    if (n =? 1)%nat then None
    else Some (kept "height" (default "" (source (MkVMAccessPath common_vm.StdLibAddress "block"))));
|}.

Definition the_config : VMConfig := MkVMConfig 3 100.
Definition meter : BasicMeter := MkBasicMeter 100000 0.
Definition perms_for_client : ModulePermissions :=
  match vm.NewKeeper [("client", [vm.PermStorageRead])] with Ok p => p | _ => vm.NewModulePerms end.

Lemma kept_ok path value : answer_ok (kept path value).
Proof.
  split; [done| | |].
  - by do 2 eexists.
  - intros v [->|[]%elem_of_nil]%elem_of_cons. by split.
  - intros e [->|[]%elem_of_nil]%elem_of_cons. by eexists.
Qed.
Lemma refused_ok : answer_ok refused.
Proof. split; [done| |by intros v []%elem_of_nil|by intros e []%elem_of_nil]. by do 2 eexists. Qed.
Lemma second_attempt source req exec : attempt_of source req 1 = None → attempt_of source req 2 = Some exec → answered 3 5 source req exec.
Proof. intros H1 H2. exists 2%nat. split_and!; [lia..| |done]. intros k Hk. by replace k with 1%nat by lia. Qed.

Definition empty_chain : Ctx := MkCtx (λ _, empty_store) ∅ [] 7 genesis_time.

Lemma retryExecReq_terminates_witness :
  (0 < 3)%nat ∧ ∃ exec, retryExecReq 5 None (MkRetryExecReq (RawModule (MkVMPublishModule "a" 1 1 "good")) 3 100) "vm" empty_chain = (Ok exec, empty_chain).
Proof.
  split; [lia|].
  destruct (proj1 (retryExecReq_terminates None (RawModule (MkVMPublishModule "a" 1 1 "good")) 3 100 "vm" empty_chain) ltac:(lia) 5%nat ltac:(lia))
    as [(exec & Hrun & _)|(e & _ & Hall)]; [by exists exec|].
  exfalso. specialize (Hall 2%nat ltac:(lia)). discriminate Hall.
Defined.

Lemma GetRaw_agrees_with_query_witness :
  GetValueWithMiddlewares perms_for_client header_path "client" empty_chain = (Ok (GetRaw empty_chain header_path), empty_chain) ∧
  lcs_Marshal (MkBlockHeader 7) = Ok (default "" (GetRaw empty_chain header_path)).
Proof.
  destruct (GetRaw_agrees_with_query perms_for_client "client" empty_chain header_path) as (H1 & H2 & _);
    [vm_compute; reflexivity|intros h; by eexists|intros s; by eexists|].
  split; [exact H1|exact H2].
Defined.

(** Two modules, the second one refused. *)
Definition deploy : Msg := Msg_DeployModule (MkMsgDeployModule "sender-address-20byt" ["code"; "bad"]).
Definition deployed : list VMExecuteResponse := [kept "module/sender-address-20byt" "code"; refused].
Lemma deployed_ok e : e ∈ deployed → answer_ok e.
Proof. intros [->|[->|[]%elem_of_nil]%elem_of_cons]%elem_of_cons; [apply kept_ok|apply refused_ok]. Qed.

Lemma NewHandler_executes_witness :
  ∃ r g' c', NewHandler vm.NewModulePerms the_config 5 meter deploy "vm" empty_chain = (Ok (r, g'), c') ∧
    gas_left g' = 88300 ∧ res_Events r = total_events deployed ∧
    vm_view c' (MkVMAccessPath common_vm.StdLibAddress "module/sender-address-20byt") = Some "code" ∧
    vm_view c' (MkVMAccessPath common_vm.StdLibAddress "x") = None.
Proof.
  assert (Forall2 (answered (MaxAttempts the_config) 5 (GetRaw empty_chain)) (requests meter deploy) deployed) as Ha
    by (repeat constructor; apply second_attempt; reflexivity).
  pose proof (NewHandler_executes vm.NewModulePerms the_config 5 eq_refl meter deploy deployed "vm" empty_chain ltac:(done) Ha deployed_ok) as Hn.
  destruct (decide (total_gas deployed ≤ gas_left meter)) as [_|Hgas]; [|exfalso; by apply Hgas].
  destruct Hn as (r & g' & c' & Hrun & Hg & He & Hex).
  exists r, g', c'. split; [exact Hrun|]. split; [exact Hg|]. split; [exact He|].
  split; (etransitivity; [by apply (ex_view _ _ _ _ Hex)|reflexivity]).
Defined.

Lemma statuses_roundtrip_witness :
  NewVMStatusFromABCILogs "hash" [total_events deployed] =
  NewTxVMStatus "hash" [MkClientStatus "keep" "" "" "" ""; MkClientStatus "discard" "3001" "0" "MALFORMED" "no code"].
Proof. etransitivity; [exact (statuses_roundtrip "hash" deployed deployed_ok)|]. vm_compute. reflexivity. Defined.

(** ** An update scheduled for height 9, on a chain at height 7 *)
Definition update : StdlibUpdateProposal := MkStdlibUpdateProposal "https://x" "new stdlib" (MkPlan 9) "code".
Lemma empty_queue : queue_holds (ctx_stores empty_chain vm.StoreKey) [] 0.
Proof. split; [lia|done|by intros ? ? []%elem_of_nil|constructor|]. intros k v _. split; [done|]. by intros (? & ? & []%elem_of_nil & _). Qed.

Lemma NewGovHandler_schedules_witness :
  ∃ c', NewGovHandler vm.NewModulePerms the_config 5 meter None (Content_StdlibUpdate update) "gov" empty_chain = (Ok tt, c') ∧
    queue_holds (ctx_stores c' vm.StoreKey) [(0, Planned_StdlibUpdate update)] 1.
Proof.
  destruct (NewGovHandler_schedules vm.NewModulePerms the_config 5 eq_refl meter None update
    (kept ("module/" +:+ common_vm.StdLibAddress) "code") "gov" empty_chain [] 0)
    as (c' & Hrun & Hq & _); [apply second_attempt; reflexivity|exact empty_queue|lia|].
  exists c'. split; [exact Hrun|exact Hq].
Defined.

(** Ten blocks later. *)
Definition scheduled_store : store (KVStore := KVStore_ref) :=
  store_Set (store_Set empty_store (GetProposalQueueKey 0) (marshalPlannedProposal (Planned_StdlibUpdate update)))
    ProposalIDKey (Marshal LengthPrefixed 0).
Definition later_chain : Ctx := MkCtx (λ k, if decide (k = vm.StoreKey) then scheduled_store else empty_store) ∅ [] 17 genesis_time.
Lemma later_queue : queue_holds (ctx_stores later_chain vm.StoreKey) [(0, Planned_StdlibUpdate update)] 1.
Proof. exact (queue_add _ [] 0 (Planned_StdlibUpdate update) empty_queue ltac:(lia)). Qed.
Lemma the_vm_serves : vm_serves the_config 5 11000.
Proof.
  intros source m. destruct (decide (pm_Code m = "bad")) as [E|E].
  - exists refused. split; [apply second_attempt; [reflexivity|]|split; [apply refused_ok|by vm_compute]]. cbn. by rewrite decide_True.
  - exists (kept ("module/" +:+ pm_Sender m) (pm_Code m)).
    split; [apply second_attempt; [reflexivity|]|split; [apply kept_ok|]]. { cbn. by rewrite decide_False. }
    change (1000 + opt_gas 1 (Some coin_type) + 0 ≤ 11000). by vm_compute.
Qed.

Lemma BeginBlocker_executes_due_witness :
  ∃ execs g' c', BeginBlocker vm.NewModulePerms the_config 5 meter "app" later_chain = (Ok g', c') ∧ length execs = 1%nat ∧
    changed later_chain c' (total_writes execs) (total_events execs) ∧ queue_holds (ctx_stores c' vm.StoreKey) [] 1.
Proof.
  destruct (BeginBlocker_executes_due prefixes_differ vm.NewModulePerms the_config 5 eq_refl 11000 [(0, Planned_StdlibUpdate update)] 1 "app" meter later_chain)
    as (execs & g' & c' & Hrun & [Hlen _] & Hch & Hq);
    [exact the_vm_serves|exact later_queue|by intros id p [[=]|[]%elem_of_nil]%elem_of_cons|by vm_compute|].
  exists execs, g', c'. split; [exact Hrun|]. split; [exact Hlen|]. split; [exact Hch|exact Hq].
Defined.
