(* ===== verification/SdkAuth.v ===== *)
(** * More of the SDK: accounts and the account keeper

    What [x/vmauth], [x/genaccounts] and the ante handler of [x/core] ask of the SDK's
    [x/auth] and [x/supply]: the two types of accounts, their setters, the keeper of
    the accounts store, and the parsers of addresses and coins.  [AccountKeeper_ref] is
    an executable instance with the proofs of the laws. *)
From S2P Require Import Prelude Bytes Sdk SdkRef SdkFacts DnTypes Perms Chain SdkBank.
Local Open Scope string_scope.
Local Open Scope Z_scope.

(** ** Accounts ([auth.BaseAccount], [supply.ModuleAccount])

    A public key is the bytes of it. *)
Notation PubKey := string (only parsing).

Record BaseAccount := MkBaseAccount {
  ba_Address : AccAddress;
  ba_Coins : list Coin;
  ba_PubKey : option PubKey;
  ba_AccountNumber : Z;
  ba_Sequence : Z;
}.
Inductive Account :=
  | Account_base (b : BaseAccount)
  | Account_module (b : BaseAccount) (name : string) (permissions : list string).

#[export] Instance base_account_eq_dec : EqDecision BaseAccount.
Proof. solve_decision. Defined.
#[export] Instance account_eq_dec : EqDecision Account.
Proof. solve_decision. Defined.

(** The getters of [exported.Account]. *)
Definition acc_base (acc : Account) : BaseAccount :=
  match acc with Account_base b => b | Account_module b _ _ => b end.
Definition acc_GetAddress (acc : Account) : AccAddress := ba_Address (acc_base acc).
Definition acc_GetCoins (acc : Account) : list Coin := ba_Coins (acc_base acc).
Definition acc_GetPubKey (acc : Account) : option PubKey := ba_PubKey (acc_base acc).
Definition acc_GetAccountNumber (acc : Account) : Z := ba_AccountNumber (acc_base acc).
Definition acc_GetSequence (acc : Account) : Z := ba_Sequence (acc_base acc).

(** Accounts that differ in one field. *)
Definition with_base (f : BaseAccount → BaseAccount) (acc : Account) : Account :=
  match acc with Account_base b => Account_base (f b) | Account_module b n ps => Account_module (f b) n ps end.
Definition with_Coins (cs : list Coin) : Account → Account :=
  with_base (λ b, MkBaseAccount (ba_Address b) cs (ba_PubKey b) (ba_AccountNumber b) (ba_Sequence b)).
Definition with_PubKey (pk : option PubKey) : Account → Account :=
  with_base (λ b, MkBaseAccount (ba_Address b) (ba_Coins b) pk (ba_AccountNumber b) (ba_Sequence b)).
Definition with_AccountNumber (n : Z) : Account → Account :=
  with_base (λ b, MkBaseAccount (ba_Address b) (ba_Coins b) (ba_PubKey b) n (ba_Sequence b)).
Definition with_Sequence (n : Z) : Account → Account :=
  with_base (λ b, MkBaseAccount (ba_Address b) (ba_Coins b) (ba_PubKey b) (ba_AccountNumber b) n).

Lemma with_Coins_Address cs acc : acc_GetAddress (with_Coins cs acc) = acc_GetAddress acc.
Proof. by destruct acc. Qed.
Lemma with_Coins_Coins cs acc : acc_GetCoins (with_Coins cs acc) = cs.
Proof. by destruct acc. Qed.
Lemma with_Coins_twice cs cs' acc : with_Coins cs (with_Coins cs' acc) = with_Coins cs acc.
Proof. by destruct acc. Qed.
Lemma with_Coins_same acc : with_Coins (acc_GetCoins acc) acc = acc.
Proof. by destruct acc as [[]|[] ? ?]. Qed.

Class AuthAccounts := {
  acc_SetCoins : Account → list Coin → outcome Account;
  acc_SetPubKey : Account → PubKey → outcome Account;
  acc_SetSequence : Account → Z → outcome Account;
  ba_Validate : BaseAccount → outcome unit;
  (** [supply.NewModuleAccount]: panics on a blank permission. *)
  NewModuleAccount : BaseAccount → string → list string → outcome Account;
}.

(** Documented behaviour: a setter changes its field; a module account has neither a
    public key nor a sequence to set; an account without a public key is valid. *)
Class AuthAccountsLaws `{A : AuthAccounts} : Prop := {
  SetCoins_ok acc cs : acc_SetCoins acc cs = Ok (with_Coins cs acc);
  SetPubKey_base b pk : acc_SetPubKey (Account_base b) pk = Ok (with_PubKey (Some pk) (Account_base b));
  SetPubKey_module b n ps pk : ∃ e, acc_SetPubKey (Account_module b n ps) pk = Err e;
  SetSequence_base b n : acc_SetSequence (Account_base b) n = Ok (with_Sequence n (Account_base b));
  SetSequence_module b n ps q : ∃ e, acc_SetSequence (Account_module b n ps) q = Err e;
  Validate_without_key b : ba_PubKey b = None → ba_Validate b = Ok tt;
  NewModuleAccount_ok b n ps : Forall (λ p, ∃ c s, p = String c s ∧ is_letter c = true) ps →
    NewModuleAccount b n ps = Ok (Account_module b n ps);
}.

(** More documented behaviour of [sdk.Coins]: lists of different lengths are not equal,
    lists of the same denominations are equal when the amounts are (nothing is said of
    other lists, where comparing coins panics); subtracting nothing changes nothing. *)
Class CoinsEqualLaws `{C : SdkCoins} : Prop := {
  IsEqual_same_denoms a b : coins_valid a → coins_valid b → coin_Denom <$> a ≡ₚ coin_Denom <$> b →
    Coins_IsEqual a b = Ok (bool_decide (a ≡ₚ b));
  IsEqual_lengths a b : coins_valid a → coins_valid b → length a ≠ length b → Coins_IsEqual a b = Ok false;
  Coins_Sub_nil a : coins_valid a → ∃ r, Coins_Sub a [] = Ok r ∧ coins_valid r ∧ ∀ d, amount_of r d = amount_of a d;
}.

(** [sdk.AccAddressFromBech32], [sdk.ParseCoins]. *)
Class SdkParse := {
  AccAddressFromBech32 : string → outcome AccAddress;
  ParseCoins : string → outcome (list Coin);
}.

(** [sdkErrors] of the root codespace. *)
Definition ErrUnauthorized : error := Registered "sdk" 4.
Definition ErrInvalidPubKey : error := Registered "sdk" 8.
Definition ErrUnknownAddress : error := Registered "sdk" 9.

(** ** The account keeper ([auth.AccountKeeper]) *)
Class AccountKeeper `{KV : KVStore} `{LG : Ledger} := {
  ak_GetAccount : AccAddress → M (option Account);
  ak_SetAccount : Account → M unit;
  ak_RemoveAccount : Account → M unit;
  ak_NewAccountWithAddress : AccAddress → M Account;
  (** The account under the next account number. *)
  ak_NewAccount : Account → M Account;
  ak_GetAllAccounts : M (list Account);
}.

(** It is a map from addresses to accounts and a counter, in one store. *)
Class AccountKeeperLaws `{AK : AccountKeeper} (acc_store : string) := {
  acc_wf : store → Prop;
  acc_read : store → AccAddress → option Account;
  acc_next : store → Z;
  acc_read_address s a acc : acc_wf s → acc_read s a = Some acc → acc_GetAddress acc = a;
  GetAccount_ok a m c : acc_wf (ctx_stores c acc_store) →
    ak_GetAccount a m c = (Ok (acc_read (ctx_stores c acc_store) a), c);
  SetAccount_ok acc m c : acc_wf (ctx_stores c acc_store) →
    ∃ s, ak_SetAccount acc m c = (Ok tt, set_store c acc_store s) ∧ acc_wf s ∧ acc_next s = acc_next (ctx_stores c acc_store) ∧
      ∀ x, acc_read s x = if decide (x = acc_GetAddress acc) then Some acc else acc_read (ctx_stores c acc_store) x;
  RemoveAccount_ok acc m c : acc_wf (ctx_stores c acc_store) →
    ∃ s, ak_RemoveAccount acc m c = (Ok tt, set_store c acc_store s) ∧ acc_wf s ∧ acc_next s = acc_next (ctx_stores c acc_store) ∧
      ∀ x, acc_read s x = if decide (x = acc_GetAddress acc) then None else acc_read (ctx_stores c acc_store) x;
  NewAccount_ok acc m c : acc_wf (ctx_stores c acc_store) →
    ∃ s, ak_NewAccount acc m c = (Ok (with_AccountNumber (acc_next (ctx_stores c acc_store)) acc), set_store c acc_store s) ∧
      acc_wf s ∧ acc_next s = wrap64 (acc_next (ctx_stores c acc_store) + 1) ∧
      ∀ x, acc_read s x = acc_read (ctx_stores c acc_store) x;
  NewAccountWithAddress_ok a m c : acc_wf (ctx_stores c acc_store) →
    ∃ s, ak_NewAccountWithAddress a m c =
        (Ok (Account_base (MkBaseAccount a [] None (acc_next (ctx_stores c acc_store)) 0)), set_store c acc_store s) ∧
      acc_wf s ∧ acc_next s = wrap64 (acc_next (ctx_stores c acc_store) + 1) ∧
      ∀ x, acc_read s x = acc_read (ctx_stores c acc_store) x;
  GetAllAccounts_ok m c : acc_wf (ctx_stores c acc_store) →
    ∃ l, ak_GetAllAccounts m c = (Ok l, c) ∧ NoDup (acc_GetAddress <$> l) ∧
      ∀ acc, acc ∈ l ↔ acc_read (ctx_stores c acc_store) (acc_GetAddress acc) = Some acc;
}.

(** ** Coins by their amounts *)
Lemma coin_amount cs (coin : Coin) : NoDup (coin_Denom <$> cs) → coin ∈ cs → amount_of cs (coin_Denom coin) = coin_Amount coin.
Proof.
  induction cs as [|c' cs IH]; intros Hnd Hin; [by apply elem_of_nil in Hin|]. rewrite fmap_cons in Hnd. apply NoDup_cons in Hnd as [Hn Hnd].
  rw amount_of_cons. apply elem_of_cons in Hin as [->|Hin].
  - rw decide_True; [|done]. rw amount_of_absent; [lia|done].
  - rw decide_False; [by rw IH|]. intros E. apply Hn. rw E. apply list_elem_of_fmap. by exists coin.
Qed.

Lemma coins_amounts_perm a b : coins_valid a → coins_valid b → a ≡ₚ b ↔ ∀ d, amount_of a d = amount_of b d.
Proof.
  intros [Hna Hpa] [Hnb Hpb]. split.
  - intros Hp d. unfold amount_of. by rewrite Hp.
  - intros Heq. apply NoDup_Permutation; [by eapply NoDup_fmap_1|by eapply NoDup_fmap_1|]. intros c.
    assert (∀ a b, NoDup (coin_Denom <$> a) → Forall (λ c, 0 < coin_Amount c) a → NoDup (coin_Denom <$> b) →
      (∀ d, amount_of a d = amount_of b d) → c ∈ a → c ∈ b) as Hone; [|by split; apply Hone].
    clear. intros a b Hna Hpa Hnb Heq Hin. rewrite Forall_forall in Hpa. pose proof (Hpa _ Hin) as Hc.
    destruct (decide (coin_Denom c ∈ coin_Denom <$> b)) as [Hd|Hd].
    + apply list_elem_of_fmap in Hd as (c' & E & Hin'). pose proof (coin_amount b c' Hnb Hin') as Hb.
      rw -E -Heq (coin_amount a c Hna Hin) in Hb. destruct c, c'. simpl in *. by subst.
    + pose proof (amount_of_absent b _ Hd) as Hb. rw -Heq (coin_amount a c Hna Hin) in Hb. lia.
Qed.

(** ** Reference instances *)
#[export] Instance Accounts_ref : AuthAccounts := {|
  acc_SetCoins acc cs := Ok (with_Coins cs acc);
  acc_SetPubKey acc pk := match acc with Account_base _ => Ok (with_PubKey (Some pk) acc) | _ => Err (Plain "not supported") end;
  acc_SetSequence acc n := match acc with Account_base _ => Ok (with_Sequence n acc) | _ => Err (Plain "not supported") end;
  ba_Validate b := Ok tt;
  NewModuleAccount b n ps := if forallb (λ p, negb (bool_decide (p = ""))) ps then Ok (Account_module b n ps) else Panic;
|}.
Lemma coins_map_is_Some cs d : is_Some (coins_map cs !! d) ↔ d ∈ coin_Denom <$> cs.
Proof.
  induction cs as [|c cs IH]; [by rewrite elem_of_nil; split; [intros []|]|]. rewrite fmap_cons elem_of_cons.
  change (coins_map (c :: cs)) with (<[coin_Denom c := default 0 (coins_map cs !! coin_Denom c) + coin_Amount c]> (coins_map cs)).
  rewrite lookup_insert_is_Some IH. split; [intros [<-|[_ ?]]; auto|]. intros [->|Hd]; [by left|].
  destruct (decide (coin_Denom c = d)); auto.
Qed.

(** Lists with one entry per denomination are equal as maps when they are permutations. *)
Lemma coins_map_eq a b : coins_valid a → coins_valid b → coins_map a = coins_map b ↔ a ≡ₚ b.
Proof.
  intros Ha Hb. rw (coins_amounts_perm a b Ha Hb). split.
  - intros E d. by rw -!coins_map_amount E.
  - intros E. apply map_eq. intros d. pose proof (E d) as Ed. rw -!coins_map_amount in Ed.
    assert (a ≡ₚ b) as Hp by (by apply coins_amounts_perm). assert (is_Some (coins_map a !! d) ↔ is_Some (coins_map b !! d)) as Hi.
    { rewrite !coins_map_is_Some. by rewrite Hp. }
    destruct (coins_map a !! d), (coins_map b !! d); try done; [by f_equal|by destruct (proj1 Hi (mk_is_Some _ _ eq_refl))|by destruct (proj2 Hi (mk_is_Some _ _ eq_refl))].
Qed.

#[export] Instance CoinsEqualLaws_ref : CoinsEqualLaws.
Proof.
  split; simpl.
  - intros a b Ha Hb _. f_equal. apply bool_decide_ext. by apply coins_map_eq.
  - intros a b Ha Hb Hl. rw bool_decide_false; [done|]. intros Hp%coins_map_eq; [|done..]. by apply Hl, Permutation_length.
  - intros a Ha. eexists. split; [done|]. split; [apply map_coins_valid|]. intros d. rw app_nil_r map_coins_amount; [apply coins_map_amount|].
    intros d' z E. pose proof (amount_of_nonneg a d' Ha) as Hn. by rw -coins_map_amount E in Hn.
Qed.

#[export] Instance AccountsLaws_ref : AuthAccountsLaws.
Proof.
  split; try done; simpl.
  - intros b n ps pk. by eexists.
  - intros b n ps q. by eexists.
  - intros b n ps Hps. replace (forallb _ ps) with true; [done|]. symmetry. apply forallb_forall. intros p Hp%list_elem_of_In.
    rewrite Forall_forall in Hps. by destruct (Hps p Hp) as (ch & s & -> & _).
Qed.

Section reference.
Context `{KVStoreLaws} `{LG : Ledger} `{CA : !Codec Account} `{CZ : !Codec Z}.
Variable acc_store : string.

Definition account_key (a : AccAddress) : string := "a" +:+ a.
Definition number_key : string := "n".
Lemma account_key_inj a b : account_key a = account_key b → a = b.
Proof. unfold account_key. simpl. by intros [=]. Qed.
Definition ref_next (s : store) : Z := default 0 (store_Get s number_key ≫= Unmarshal Bare).
Definition ref_new (acc : Account) : M Account := λ m c,
  let s := ctx_stores c acc_store in
  (Ok (with_AccountNumber (ref_next s) acc),
   set_store c acc_store (store_Set s number_key (Marshal Bare (wrap64 (ref_next s + 1))))).

Definition AccountKeeper_ref : AccountKeeper := {|
  ak_GetAccount a m c := (Ok (store_Get (ctx_stores c acc_store) (account_key a) ≫= Unmarshal Bare), c);
  ak_SetAccount acc := kv_Set acc_store (account_key (acc_GetAddress acc)) (Marshal Bare acc);
  ak_RemoveAccount acc := kv_Delete acc_store (account_key (acc_GetAddress acc));
  ak_NewAccountWithAddress a := ref_new (Account_base (MkBaseAccount a [] None 0 0));
  ak_NewAccount := ref_new;
  ak_GetAllAccounts m c := (Ok (omap (λ kv, Unmarshal Bare kv.2) (KVStorePrefixIterator (ctx_stores c acc_store) "a")), c);
|}.

(** Every account is stored under its address. *)
Definition ref_wf (s : store) : Prop :=
  ∀ a v, store_Get s (account_key a) = Some v → ∃ acc, v = Marshal Bare acc ∧ acc_GetAddress acc = a.

Lemma ref_wf_Set s acc : ref_wf s → ref_wf (store_Set s (account_key (acc_GetAddress acc)) (Marshal Bare acc)).
Proof.
  intros Hs a v. rw store_Get_Set. case_decide as E; [|by apply Hs]. apply account_key_inj in E as <-. intros [= <-]. by exists acc.
Qed.
Lemma ref_wf_number s v : ref_wf s → ref_wf (store_Set s number_key v).
Proof. intros Hs a w. rw store_Get_Set_ne; [|done]. apply Hs. Qed.
Lemma ref_wf_Delete s k : ref_wf s → ref_wf (store_Delete s k).
Proof. intros Hs a w. rw store_Get_Delete. case_decide; [done|apply Hs]. Qed.

Lemma ref_read_inv s a acc : ref_wf s → store_Get s (account_key a) ≫= Unmarshal Bare = Some acc →
  store_Get s (account_key a) = Some (Marshal Bare acc) ∧ acc_GetAddress acc = a.
Proof.
  intros Hs. destruct (store_Get s (account_key a)) as [v|] eqn:E; [|done]. destruct (Hs a v E) as (acc' & -> & <-).
  simpl. rw Unmarshal_Marshal. by intros [= <-].
Qed.

Lemma ref_all s : ref_wf s →
  let l : list Account := omap (λ kv, Unmarshal Bare kv.2) (KVStorePrefixIterator s "a") in
  NoDup (acc_GetAddress <$> l) ∧ ∀ acc, acc ∈ l ↔ store_Get s (account_key (acc_GetAddress acc)) ≫= Unmarshal Bare = Some acc.
Proof.
  intros Hs l.
  assert (∀ kv, kv ∈ KVStorePrefixIterator s "a" → ∃ acc, kv = (account_key (acc_GetAddress acc), Marshal Bare acc)) as Hkv.
  { intros [k v] [Hg [t ->]]%at_prefix_elem; [|done]. destruct (Hs t v Hg) as (acc & -> & <-). by exists acc. }
  assert (account_key <$> (acc_GetAddress <$> l) = (KVStorePrefixIterator s "a").*1) as Hkeys.
  { unfold l. clear -Hkv CA. induction (KVStorePrefixIterator s "a") as [|kv kvs IH]; [done|].
    destruct (Hkv kv) as [acc ->]; [left|]. cbn [omap list_omap]. cbn [snd]. rw Unmarshal_Marshal.
    rewrite !fmap_cons. f_equal. apply IH. intros kv' Hin. apply Hkv. by right. }
  split.
  - apply (NoDup_fmap_1 account_key). rw Hkeys. apply iterator_NoDup_keys.
  - intros acc. unfold l. rewrite list_elem_of_omap. split.
    + intros ([k v] & Hin & Hu). destruct (Hkv _ Hin) as [acc' [= -> ->]]. simpl in Hu. rw Unmarshal_Marshal in Hu. injection Hu as <-.
      apply at_prefix_elem in Hin as [Hg _]; [|done]. rw Hg. simpl. by rw Unmarshal_Marshal.
    + intros [Hg _]%ref_read_inv; [|done]. exists (account_key (acc_GetAddress acc), Marshal Bare acc). split; [|simpl; by rw Unmarshal_Marshal].
      apply at_prefix_elem; [done|]. split; [done|]. by exists (acc_GetAddress acc).
Qed.

Definition AccountKeeperLaws_ref : AccountKeeperLaws (AK := AccountKeeper_ref) acc_store.
Proof.
  refine {| acc_wf := ref_wf; acc_read s a := store_Get s (account_key a) ≫= Unmarshal Bare; acc_next := ref_next |}.
  - intros s a acc Hs [_ ?]%ref_read_inv; done.
  - done.
  - intros acc m c Hs. eexists. split; [done|]. split; [by apply ref_wf_Set|]. split.
    + unfold ref_next. by rw store_Get_Set_ne.
    + intros x. rw store_Get_Set. destruct (decide (x = acc_GetAddress acc)) as [->|Hne].
      * rw decide_True; [|done]. simpl. by rw Unmarshal_Marshal.
      * rw decide_False; [done|]. by intros <-%account_key_inj.
  - intros acc m c Hs. eexists. split; [done|]. split; [by apply ref_wf_Delete|]. split.
    + unfold ref_next. by rw store_Get_Delete_ne.
    + intros x. rw store_Get_Delete. destruct (decide (x = acc_GetAddress acc)) as [->|Hne].
      * by rw decide_True.
      * rw decide_False; [done|]. by intros <-%account_key_inj.
  - intros acc m c Hs. eexists. split; [done|]. split; [by apply ref_wf_number|]. split.
    + unfold ref_next at 1. rw store_Get_Set_eq. simpl. by rw Unmarshal_Marshal.
    + intros x. by rw store_Get_Set_ne.
  - intros a m c Hs. eexists. split; [done|]. split; [by apply ref_wf_number|]. split.
    + unfold ref_next at 1. rw store_Get_Set_eq. simpl. by rw Unmarshal_Marshal.
    + intros x. by rw store_Get_Set_ne.
  - intros m c Hs. eexists. split; [done|]. by apply ref_all.
Defined.
End reference.
