(* ===== verification/BalanceFacts.v ===== *)
(** * What a successful run yields, and balance resources

    [yields m caller c P]: the operation [m] succeeds and its result and the new
    context satisfy [P].  The rules follow the shape of an operation, so that a proof
    about a keeper's method goes through it line by line. *)
From S2P Require Import Prelude Bytes Sdk SdkFacts DnTypes Perms Chain SdkBank Currency VMStorage CCStorage CCStorageFacts SdkAuth.

Section yields.
Context `{KV : KVStore} `{LG : Ledger}.

Definition yields {A} (m : M A) (caller : string) (c : Ctx) (P : A → Ctx → Prop) : Prop :=
  ∃ a c', m caller c = (Ok a, c') ∧ P a c'.

Lemma yields_ret {A} (a : A) caller c (P : A → Ctx → Prop) : P a c → yields (mret a) caller c P.
Proof. intros HP. by exists a, c. Qed.

Lemma yields_bind {A B} (m : M A) (f : A → M B) caller c (P : A → Ctx → Prop) (Q : B → Ctx → Prop) :
  yields m caller c P → (∀ a c', P a c' → yields (f a) caller c' Q) → yields (m ≫= f) caller c Q.
Proof.
  intros (a & c1 & Hm & HP) Hf. destruct (Hf a c1 HP) as (b & c2 & Hb & HQ). exists b, c2. split; [|done]. by rw (M_bind_Ok _ _ _ _ _ _ Hm).
Qed.

Lemma yields_mono {A} (m : M A) caller c (P Q : A → Ctx → Prop) :
  yields m caller c P → (∀ a c', P a c' → Q a c') → yields m caller c Q.
Proof. intros (a & c1 & Hm & HP) HPQ. exists a, c1. auto. Qed.

(** A step whose run is known. *)
Lemma yields_step {A B} (m : M A) (f : A → M B) caller c a c' (Q : B → Ctx → Prop) :
  m caller c = (Ok a, c') → yields (f a) caller c' Q → yields (m ≫= f) caller c Q.
Proof. intros Hm (b & c2 & Hb & HQ). exists b, c2. split; [|done]. by rw (M_bind_Ok _ _ _ _ _ _ Hm). Qed.

Lemma yields_lift {A} (o : outcome A) a caller c (P : A → Ctx → Prop) : o = Ok a → P a c → yields (lift o) caller c P.
Proof. intros -> HP. by exists a, c. Qed.

Lemma yields_in_module {A} name (m : M A) caller c (P : A → Ctx → Prop) :
  yields m name c P → yields (in_module name m) caller c P.
Proof. intros (a & c' & Hm & HP). by exists a, c'. Qed.

Lemma yields_attempt {A} (m : M A) caller c (P : A → Ctx → Prop) :
  yields m caller c P → yields (attempt m) caller c (λ r c', ∃ a, r = Ok a ∧ P a c').
Proof. intros (a & c' & Hm & HP). exists (Ok a), c'. split; [by apply attempt_Ok|by exists a]. Qed.

(** A loop with an invariant on the elements processed and the context. *)
Lemma yields_forM {A} (l : list A) (f : A → M unit) caller c (I : list A → Ctx → Prop) :
  I [] c → (∀ pre x c1, pre ++ [x] `prefix_of` l → I pre c1 → yields (f x) caller c1 (λ _ c2, I (pre ++ [x]) c2)) →
  yields (forM l f) caller c (λ _ c', I l c').
Proof.
  intros H0 Hstep.
  assert (∀ rest pre c1, pre ++ rest = l → I pre c1 → yields (forM rest f) caller c1 (λ _ c', I l c')) as Hgen.
  { induction rest as [|x rest IH]; intros pre c1 Hl HI; simpl.
    - apply yields_ret. rw app_nil_r in Hl. by subst.
    - assert ((pre ++ [x]) ++ rest = l) as Hl' by (by rw -app_assoc).
      eapply yields_bind; [apply (Hstep pre); [by exists rest|done]|]. intros [] c2 HI2. by apply (IH (pre ++ [x])). }
  by apply (Hgen l [] c).
Qed.

(** The unique result of a run. *)
Lemma yields_run {A} (m : M A) caller c (P : A → Ctx → Prop) a c' : yields m caller c P → m caller c = (Ok a, c') → P a c'.
Proof. intros (a' & c1 & Hm & HP) Hr. rw Hm in Hr. by injection Hr as -> ->. Qed.
End yields.

(** ** Loops whose steps only read, or over mapped lists *)
Section loops.
Context `{KV : KVStore} `{LG : Ledger}.

Lemma mapM_map {A B} (f : A → M B) (g : A → B) l caller c :
  (∀ x, x ∈ l → f x caller c = (Ok (g x), c)) → mapM_ f l caller c = (Ok (g <$> l), c).
Proof.
  induction l as [|x l IH]; intros Hl; [done|]. cbn [mapM_].
  rw (M_bind_Ok _ _ _ _ (g x) c); [|apply Hl; left]. rw (M_bind_Ok _ _ _ _ (g <$> l) c); [done|].
  apply IH. intros y Hy. apply Hl. by right.
Qed.

Lemma forM_fmap {A B} (g : A → B) (l : list A) (f : B → M unit) caller c :
  forM (g <$> l) f caller c = forM l (λ x, f (g x)) caller c.
Proof.
  revert c. induction l as [|x l IH]; intros c; [done|]. rewrite fmap_cons. cbn [forM]. unfold mbind, M_bind.
  destruct (f (g x) caller c) as [[]?]; auto.
Qed.
End loops.

(** ** Currency storage: balance resources

    The balance resources of the accounts are a map from addresses and denominations
    to 128-bit amounts beside the info resources.  Setting, getting and removing the
    resources of an account do to that map what their names say. *)
Local Open Scope string_scope.
Local Open Scope Z_scope.
Local Open Scope list_scope.

(** The addresses of accounts: those of the VM's length, other than the standard library's. *)
Definition addr_ok (a : AccAddress) : Prop :=
  String.length a = common_vm.VMAddressLength ∧ a ≠ common_vm.StdLibAddress.
#[export] Instance addr_ok_dec a : Decision (addr_ok a).
Proof. unfold addr_ok. apply _. Defined.

(** The amounts the VM can hold. *)
Definition fits128 (z : Z) : Prop := 0 ≤ z < 2 ^ 128.
Definition coins_fit (cs : list Coin) : Prop := NoDup (coin_Denom <$> cs) ∧ ∀ c, c ∈ cs → fits128 (coin_Amount c).

(** Denominations a coin can have. *)
Definition denoms_ok `{SdkTypes} (m : gmap string Currency) : Prop :=
  ∀ d cur, m !! d = Some cur → ValidateDenom d = true ∧ d ≠ "".

(** ** The operations on one account's resources *)
Module balance_spec.
Definition resources : Type := string → option Z.

(** Every coin is written; other registered denominations become zero where they have
    a resource. *)
Definition set_coins (m : gmap string Currency) (cs : list Coin) (old : resources) : resources := λ d,
  if decide (d ∈ coin_Denom <$> cs) then Some (amount_of cs d)
  else match m !! d, old d with Some _, Some _ => Some 0 | _, _ => old d end.
Definition remove (m : gmap string Currency) (old : resources) : resources := λ d,
  match m !! d with Some _ => None | None => old d end.
(** The amount of a coin in the resources of the registered denominations. *)
Definition amount (m : gmap string Currency) (r : resources) (d : string) : Z :=
  match m !! d with Some _ => default 0 (r d) | None => 0 end.
(** Whether a registered denomination has a resource. *)
Definition some_resource (m : gmap string Currency) (r : resources) : bool :=
  existsb (λ p, bool_decide (is_Some (r p.1))) (map_to_list m).
End balance_spec.

Definition set_account {A} (V : AccAddress → A) (a : AccAddress) (r : A) : AccAddress → A :=
  λ x, if decide (x = a) then r else V x.

Section facts.
Context `{SdkTypesLaws} `{KVStoreLaws} `{LG : Ledger} `{VS : !VMStorage}.
Context (clients : string → Prop) (vm_store : string) `{VSL : !VMStorageLaws clients vm_store}.
Context `{GL : Glav} `{LI : !Lcs ccstorage.ResCurrencyInfo} `{LB : !Lcs ccstorage.ResBalance} `{CC : !Codec Currency}.
Variable modulePerms : ModulePermissions.
Hypothesis own_perms : mp_name modulePerms = ccstorage.ModuleName.
Hypothesis admitted : clients ccstorage.ModuleName.
Hypothesis other_store : vm_store ≠ ccstorage.StoreKey.
(** [lcs] encodes balances of up to 128 bits. *)
Hypothesis lcs_balance : ∀ b : ccstorage.ResBalance, fits128 (ccstorage.rb_Value b) → ∃ bz, lcs_Marshal b = Ok bz.
Import ccstorage.
Implicit Types (c : Ctx) (m : gmap string Currency) (d : string) (a : AccAddress) (V : AccAddress → balance_spec.resources).

Definition balance_path a d : VMAccessPath := MkVMAccessPath a (BalanceVector d).

Lemma balance_path_ok a d : addr_ok a → common_vm.path_ok (balance_path a d).
Proof. by intros []. Qed.
Lemma balance_path_inj a d a' d' : balance_path a d = balance_path a' d' → a = a' ∧ d = d'.
Proof. intros [= -> E]. split; [done|]. by apply BalanceVector_inj. Qed.
Lemma balance_path_info a d d' : addr_ok a → balance_path a d ≠ info_path d'.
Proof. intros [_ Ha] [= E _]. by apply Ha. Qed.

Definition value_held c a d (v : option Z) : Prop :=
  match v with
  | Some z => fits128 z ∧ ∃ bz, vm_read (ctx_stores c vm_store) (balance_path a d) = Some bz ∧ lcs_Unmarshal bz = Ok (MkResBalance z)
  | None => vm_read (ctx_stores c vm_store) (balance_path a d) = None
  end.

(** The currencies and the balances the state holds. *)
Record mirrored c m V : Prop := {
  mi_currencies : ccs_holds clients vm_store c m;
  mi_balances a d : addr_ok a → value_held c a d (V a d);
}.
(** Only the VM's storage differs. *)
Definition vm_only c c' : Prop := frame [vm_store] c c' ∧ ctx_bank c' = ctx_bank c ∧ ctx_events c' = ctx_events c.

Lemma vm_only_refl c : vm_only c c.
Proof. done. Qed.
Lemma vm_only_trans c1 c2 c3 : vm_only c1 c2 → vm_only c2 c3 → vm_only c1 c3.
Proof. intros (F1 & B1 & E1) (F2 & B2 & E2). split; [by eapply frame_trans|split; congruence]. Qed.
Lemma vm_only_store c c' k : vm_only c c' → k ≠ vm_store → ctx_stores c' k = ctx_stores c k.
Proof. intros [(Hs & _) _] Hk. apply Hs. by rw list_elem_of_singleton. Qed.

Lemma mirrored_ext c m V V' : (∀ a d, addr_ok a → V a d = V' a d) → mirrored c m V → mirrored c m V'.
Proof. intros Hext [Hc Hb]. split; [done|]. intros a d Ha. rw -Hext; [|done]. by apply Hb. Qed.

Lemma mirrored_set c m V s a d v : mirrored c m V → addr_ok a →
  (∀ q, common_vm.path_ok q → vm_read s q = if decide (q = balance_path a d) then v else vm_read (ctx_stores c vm_store) q) →
  (∀ z, value_held (set_store c vm_store s) a d z → ∀ V', (∀ x e, V' x e = if decide (x = a ∧ e = d) then z else V x e) →
   mirrored (set_store c vm_store s) m V').
Proof.
  intros [[Hcur Hden Hinfo] Hb] Ha Hs z Hz V' HV'. split.
  - split.
    + intros e. simpl. rw decide_False; [apply Hcur|congruence].
    + done.
    + intros e cur Hm. simpl. rw decide_True; [|done]. rw Hs; [|apply info_path_ok]. rw decide_False; [by apply Hinfo|].
      intros E. symmetry in E. by apply balance_path_info in E.
  - intros x e Hx. rw HV'. destruct (decide (x = a ∧ e = d)) as [[-> ->]|Hne]; [done|].
    specialize (Hb x e Hx). unfold value_held in *. simpl. rw decide_True; [|done]. rw Hs; [|by apply balance_path_ok].
    rw decide_False; [done|]. intros E%balance_path_inj. by apply Hne.
Qed.

(** *** Writing and deleting one resource *)
Definition put (b : Balance) : M unit := bz ← lift (ResourceBytes b); SetValue (bal_AccessPath b) bz.

Lemma put_run c m V a d z : mirrored c m V → addr_ok a → fits128 z →
  ∃ c', put (newBalance a (MkCoin d z)) ModuleName c = (Ok tt, c') ∧ vm_only c c' ∧
    ∀ V', (∀ x e, V' x e = if decide (x = a ∧ e = d) then Some z else V x e) → mirrored c' m V'.
Proof.
  intros Hmi Ha Hz. destruct (lcs_balance (MkResBalance z) Hz) as [bz Hbz].
  destruct (SetValue_ok ModuleName c (balance_path a d) bz) as (s & Hrun & Hs); [done|by apply balance_path_ok|].
  exists (set_store c vm_store s). split.
  - unfold put, ResourceBytes, newBalance. cbn [bal_Resource coin_Amount bal_AccessPath coin_Denom].
    rw (M_bind_Ok _ _ _ c bz c); [done|]. by rw Hbz.
  - split; [split; [|done]; split; [|done]; intros k Hk; simpl; rw decide_False; [done|]; intros ->; apply Hk; left|].
    intros V'. apply (mirrored_set c m V s a d (Some bz) Hmi Ha Hs (Some z)). split; [done|]. exists bz. simpl. rw decide_True; [|done].
    rw Hs; [|by apply balance_path_ok]. rw decide_True; [|done]. split; [done|]. by apply lcs_Unmarshal_Marshal.
Qed.

Lemma drop_run c m V a d : mirrored c m V → addr_ok a →
  ∃ c', DelValue (balance_path a d) ModuleName c = (Ok tt, c') ∧ vm_only c c' ∧
    ∀ V', (∀ x e, V' x e = if decide (x = a ∧ e = d) then None else V x e) → mirrored c' m V'.
Proof.
  intros Hmi Ha. destruct (DelValue_ok ModuleName c (balance_path a d)) as (s & Hrun & Hs); [done|by apply balance_path_ok|].
  exists (set_store c vm_store s). split; [done|].
  split; [split; [|done]; split; [|done]; intros k Hk; simpl; rw decide_False; [done|]; intros ->; apply Hk; left|].
  intros V'. apply (mirrored_set c m V s a d None Hmi Ha Hs None). unfold value_held. simpl. rw decide_True; [|done].
  rw Hs; [|by apply balance_path_ok]. by rw decide_True.
Qed.

(** What the VM holds, read. *)
Lemma has_run c m V a d : mirrored c m V → addr_ok a →
  HasValue (balance_path a d) ModuleName c = (Ok (bool_decide (is_Some (V a d))), c).
Proof.
  intros Hmi Ha. rw HasValue_ok; [|done]. do 2 f_equal. apply bool_decide_ext. pose proof (mi_balances _ _ _ Hmi a d Ha) as Hv.
  destruct (V a d) as [z|]; simpl in Hv; [|by rw Hv]. destruct Hv as (_ & bz & -> & _). split; by eexists.
Qed.

(** *** The account's resources *)
Implicit Types (cs : list Coin) (curs : list Currency).

(** The registered currencies in the order they are listed. *)
Record lists curs m : Prop := {
  ls_perm : curs ≡ₚ (map_to_list m).*2;
  ls_denom cur : cur ∈ curs ↔ m !! cur_Denom cur = Some cur;
  ls_NoDup : NoDup (cur_Denom <$> curs);
  ls_key d cur : m !! d = Some cur → cur_Denom cur = d;
}.

Lemma currencies_run caller c m V : allowed modulePerms PermRead caller → mirrored c m V →
  ∃ curs, GetCurrencies modulePerms caller c = (Ok curs, c) ∧ lists curs m.
Proof.
  intros Hcaller Hmi. destruct (GetCurrencies_run _ _ _ own_perms caller c m Hcaller (mi_currencies _ _ _ Hmi)) as (curs & Hrun & Hp).
  assert (∀ d cur, m !! d = Some cur → cur_Denom cur = d) as Hden.
  { intros d cur E. by apply (ch_denom _ _ _ _ (mi_currencies _ _ _ Hmi)). }
  exists curs. split; [done|]. split; [done|..].
  - intros cur. rw Hp. rewrite list_elem_of_fmap. split.
    + intros ([d cur'] & -> & Hin%elem_of_map_to_list). simpl. by rw (Hden d).
    + intros E. exists (cur_Denom cur, cur). split; [done|]. by apply elem_of_map_to_list.
  - rw Hp. rewrite -list_fmap_compose. rewrite (list_fmap_ext _ fst).
    + apply NoDup_fst_map_to_list.
    + intros i [d cur] E%list_elem_of_lookup_2. simpl. by apply Hden, elem_of_map_to_list.
  - done.
Qed.

Lemma has_denom curs m d : lists curs m → d ∈ cur_Denom <$> curs ↔ is_Some (m !! d).
Proof.
  intros Hl. rewrite list_elem_of_fmap. split.
  - intros (cur & -> & Hin%(ls_denom _ _ Hl)). by eexists.
  - intros [cur E]. exists cur. pose proof (ls_key _ _ Hl d cur E) as <-. split; [done|]. by apply (ls_denom _ _ Hl).
Qed.

(** A step for each element of a list that sets or drops one resource: the resources
    become what [R] says of the elements so far. *)
Lemma resources_loop {B} a (l : list B) (f : B → M unit) m (R : list B → balance_spec.resources) c V :
  mirrored c m (set_account V a (R [])) →
  (∀ pre x c1, pre ++ [x] `prefix_of` l → mirrored c1 m (set_account V a (R pre)) →
    ∃ c2, f x ModuleName c1 = (Ok tt, c2) ∧ vm_only c1 c2 ∧ mirrored c2 m (set_account V a (R (pre ++ [x])))) →
  ∃ c', forM l f ModuleName c = (Ok tt, c') ∧ vm_only c c' ∧ mirrored c' m (set_account V a (R l)).
Proof.
  intros H0' Hstep.
  destruct (yields_forM l f ModuleName c (λ pre c1, vm_only c c1 ∧ mirrored c1 m (set_account V a (R pre)))) as ([] & c' & Hrun & Ho & Hm).
  - split; [apply vm_only_refl|done].
  - intros pre x c1 Hpre [Ho Hm]. destruct (Hstep pre x c1 Hpre Hm) as (c2 & Hrun & Ho2 & Hm2).
    exists tt, c2. split; [done|]. split; [by eapply vm_only_trans|done].
  - by exists c'.
Qed.

Lemma set_account_point V a r r' d z : (∀ e, r' e = if decide (e = d) then z else r e) →
  ∀ x e, set_account V a r' x e = if decide (x = a ∧ e = d) then z else set_account V a r x e.
Proof.
  intros Hr x e. unfold set_account. destruct (decide (x = a)) as [->|Hne]; [|by rw decide_False; [|intros []]].
  rw Hr. destruct (decide (e = d)) as [->|He]; [by rw decide_True|]. rw decide_False; [done|]. by intros [].
Qed.

Lemma set_account_same V a r : (∀ d, r d = V a d) → ∀ x d, V x d = set_account V a r x d.
Proof. intros Hr x d. unfold set_account. destruct (decide (x = a)) as [->|]; [by rw Hr|done]. Qed.

(** *** Setting the resources *)

(** The coins written so far; the zeroes written so far. *)
Definition after_coins cs (old : balance_spec.resources) (pre : list Coin) : balance_spec.resources := λ d,
  if decide (d ∈ coin_Denom <$> pre) then Some (amount_of cs d) else old d.
Definition after_zeroes (old : balance_spec.resources) (pre : list Currency) : balance_spec.resources := λ d,
  if decide (d ∈ cur_Denom <$> pre) then (λ _, 0) <$> old d else old d.


Lemma write_coins a cs m c V : mirrored c m V → addr_ok a → coins_fit cs →
  ∃ c', forM (newBalance a <$> cs) put ModuleName c = (Ok tt, c') ∧ vm_only c c' ∧
    mirrored c' m (set_account V a (after_coins cs (V a) cs)).
Proof.
  intros Hmi Ha [Hnd Hfit]. rw forM_fmap. apply (resources_loop a cs _ m (after_coins cs (V a))).
  - eapply mirrored_ext; [|done]. intros x d _. by apply set_account_same.
  - intros pre coin c1 [rest Hpre] Hm1. assert (coin ∈ cs) as Hin by (rw Hpre; set_solver).
    destruct coin as [d z]. destruct (put_run c1 m _ a d z Hm1 Ha (Hfit _ Hin)) as (c2 & Hrun & Ho & Hm2).
    exists c2. split; [done|]. split; [done|]. apply Hm2. apply set_account_point. intros e. unfold after_coins.
    rewrite fmap_app. destruct (decide (e = d)) as [->|Hne].
    + rw decide_True; [|set_solver]. by rw (coin_amount cs (MkCoin d z)).
    + destruct (decide (e ∈ coin_Denom <$> pre)); [rw decide_True; [done|set_solver]|rw decide_False; [done|set_solver]].
Qed.

Lemma write_zeroes a curs m c V : mirrored c m V → addr_ok a → NoDup (cur_Denom <$> curs) →
  ∃ c', forM ((λ cur, newBalance a (MkCoin (cur_Denom cur) 0)) <$> curs) (λ balance,
      has ← HasValue (bal_AccessPath balance);
      if (has : bool) then bz ← lift (ResourceBytes balance); SetValue (bal_AccessPath balance) bz
      else mret tt) ModuleName c = (Ok tt, c') ∧ vm_only c c' ∧
    mirrored c' m (set_account V a (after_zeroes (V a) curs)).
Proof.
  intros Hmi Ha Hnd. rw forM_fmap. apply (resources_loop a curs _ m (after_zeroes (V a))).
  - eapply mirrored_ext; [|done]. intros x d _. by apply set_account_same.
  - intros pre cur c1 [rest Hpre] Hm1. set (d := cur_Denom cur).
    assert (d ∉ cur_Denom <$> pre) as Hd.
    { rw Hpre in Hnd. rewrite !fmap_app in Hnd. apply NoDup_app in Hnd as (Hnd & _). apply NoDup_app in Hnd as (_ & Hnd & _).
      intros Hin. apply (Hnd d Hin). by left. }
    set (V1 := set_account V a (after_zeroes (V a) pre)) in *.
    assert (V1 a d = V a d) as HV1 by (unfold V1, set_account, after_zeroes; by rw decide_True; [rw decide_False|]).
    assert (∀ z, z = ((λ _, 0) <$> V a d) → ∀ e, after_zeroes (V a) (pre ++ [cur]) e = if decide (e = d) then z else after_zeroes (V a) pre e) as Hz.
    { intros z -> e. unfold after_zeroes. rewrite fmap_app. destruct (decide (e = d)) as [->|Hne]; [rw decide_True; [done|set_solver]|].
      destruct (decide (e ∈ cur_Denom <$> pre)); [rw decide_True; [done|set_solver]|rw decide_False; [done|set_solver]]. }
    assert (HasValue (balance_path a d) ModuleName c1 = (Ok (bool_decide (is_Some (V a d))), c1)) as Hhas by (rw -HV1; by apply (has_run c1 m)).
    change (bal_AccessPath (newBalance a (MkCoin (cur_Denom cur) 0))) with (balance_path a d). destruct (V a d) as [v|] eqn:E.
    + destruct (put_run c1 m V1 a d 0 Hm1 Ha) as (c2 & Hrun & Ho & Hm2); [done|]. exists c2. split; [|split; [done|]].
      * rw (M_bind_Ok _ _ _ _ _ _ Hhas). rw bool_decide_true; [|by eexists]. exact Hrun.
      * apply Hm2. apply set_account_point. by apply Hz.
    + exists c1. split; [|split; [apply vm_only_refl|]].
      * rw (M_bind_Ok _ _ _ _ _ _ Hhas). by rw bool_decide_false; [|intros []].
      * eapply mirrored_ext; [|exact Hm1]. intros x e _. rewrite (set_account_point V a _ _ d None (Hz None eq_refl) x e).
        case_decide as Exe; [|done]. destruct Exe as [-> ->]. exact HV1.
Qed.

Lemma filled_put (balances : list Balance) caller c :
  forM balances (λ balance, bz ← lift (ResourceBytes balance); SetValue (bal_AccessPath balance) bz) caller c = forM balances put caller c.
Proof. done. Qed.

(** The zeroes go to the currencies the account has no coin of. *)
Lemma zeroed curs m cs old d : lists curs m →
  after_zeroes (after_coins cs old cs) (filter (λ cur, cur_Denom cur ∉@{gset string} list_to_set (coin_Denom <$> cs)) curs) d =
  balance_spec.set_coins m cs old d.
Proof.
  intros Hl. set (others := filter (λ cur, cur_Denom cur ∉@{gset string} list_to_set (coin_Denom <$> cs)) curs).
  assert (∀ d, d ∈ cur_Denom <$> others ↔ d ∉ coin_Denom <$> cs ∧ is_Some (m !! d)) as Hin.
  { intros e. rewrite list_elem_of_fmap. split.
    - intros (cur & -> & [Hn Hc]%list_elem_of_filter). rewrite elem_of_list_to_set in Hn. split; [done|].
      apply (has_denom _ _ _ Hl). apply list_elem_of_fmap. by exists cur.
    - intros [Hn Hs]. apply (has_denom _ _ _ Hl) in Hs. apply list_elem_of_fmap in Hs as (cur & -> & Hc). exists cur. split; [done|].
      apply list_elem_of_filter. by rewrite elem_of_list_to_set. }
  unfold after_zeroes, after_coins, balance_spec.set_coins. destruct (decide (d ∈ coin_Denom <$> cs)) as [Hd|Hd].
  - by rw decide_False; [|intros [??]%Hin].
  - destruct (m !! d) as [cur|] eqn:E.
    + rw decide_True; [by destruct (old d)|]. apply Hin. split; [done|by eexists].
    + rw decide_False; [done|]. intros [_ Hs]%Hin. rw E in Hs. by destruct Hs.
Qed.

Lemma new_balances_run a cs curs m caller c : denoms_ok m → lists curs m → GetCurrencies modulePerms caller c = (Ok curs, c) →
  newBalances modulePerms a cs caller c =
    (Ok (newBalance a <$> cs, (λ cur, newBalance a (MkCoin (cur_Denom cur) 0)) <$>
      filter (λ cur, cur_Denom cur ∉@{gset string} list_to_set (coin_Denom <$> cs)) curs), c).
Proof.
  intros Hden Hl Hrun. unfold newBalances. rw (M_bind_Ok _ _ _ _ _ _ Hrun).
  rw (M_bind_Ok _ _ _ _ ((λ cur, newBalance a (MkCoin (cur_Denom cur) 0)) <$>
      filter (λ cur, cur_Denom cur ∉@{gset string} list_to_set (coin_Denom <$> cs)) curs) c); [done|].
  apply mapM_map. intros cur [_ Hc]%list_elem_of_filter. apply (ls_denom _ _ Hl) in Hc. apply Hden in Hc as [Hv _].
  rw (M_bind_Ok _ _ _ c (MkCoin (cur_Denom cur) 0) c); [done|]. apply lift_Ok. by apply NewCoin_ok.
Qed.

Lemma SetAccountBalanceResources_run a cs caller c m V : allowed modulePerms PermResUpdate caller →
  mirrored c m V → denoms_ok m → addr_ok a → coins_fit cs →
  ∃ c', SetAccountBalanceResources modulePerms a cs caller c = (Ok tt, c') ∧ vm_only c c' ∧
    mirrored c' m (set_account V a (balance_spec.set_coins m cs (V a))).
Proof.
  intros Hcaller Hmi Hden Ha Hfit. unfold SetAccountBalanceResources. rw (allowed_run _ own_perms); [|done].
  destruct (currencies_run ModuleName c m V (ccs_allowed_self _ _) Hmi) as (curs & Hcurs & Hl).
  rw (M_bind_Ok _ _ _ _ _ _ (new_balances_run a cs curs m _ _ Hden Hl Hcurs)). cbn [fst snd].
  destruct (write_coins a cs m c V Hmi Ha Hfit) as (c1 & Hrun1 & Ho1 & Hm1). rw (M_bind_Ok _ _ _ _ _ _ Hrun1).
  destruct (write_zeroes a (filter (λ cur, cur_Denom cur ∉@{gset string} list_to_set (coin_Denom <$> cs)) curs) m c1 _ Hm1 Ha)
    as (c2 & Hrun2 & Ho2 & Hm2).
  { eapply sublist_NoDup; [apply (ls_NoDup _ _ Hl)|]. apply fmap_sublist, sublist_filter. }
  exists c2. split; [exact Hrun2|]. split; [by eapply vm_only_trans|]. eapply mirrored_ext; [|exact Hm2].
  intros x d _. unfold set_account. destruct (decide (x = a)) as [->|]; [|done]. rw decide_True; [|done]. by apply zeroed.
Qed.

(** *** Getting the resources *)
Definition balance_at a (r : balance_spec.resources) (cur : Currency) : option Balance :=
  (λ z, MkBalance (cur_Denom cur) (balance_path a (cur_Denom cur)) (MkResBalance z)) <$> r (cur_Denom cur).
Definition coin_at (r : balance_spec.resources) (cur : Currency) : option Coin :=
  match r (cur_Denom cur) with Some z => if z =? 0 then None else Some (MkCoin (cur_Denom cur) z) | None => None end.

Lemma omap_id_fmap {A B} (f : A → option B) (l : list A) : omap id (f <$> l) = omap f l.
Proof. induction l as [|x l IH]; [done|]. simpl. destruct (f x); simpl; [f_equal|]; exact IH. Qed.

Lemma read_balances_run a caller c m V : allowed modulePerms PermRead caller → mirrored c m V → denoms_ok m → addr_ok a →
  ∃ curs, lists curs m ∧ GetAccountBalanceResources modulePerms a caller c = (Ok (omap (balance_at a (V a)) curs), c).
Proof.
  intros Hcaller Hmi Hden Ha. destruct (currencies_run ModuleName c m V (ccs_allowed_self _ _) Hmi) as (curs & Hcurs & Hl).
  exists curs. split; [done|]. unfold GetAccountBalanceResources. rw (allowed_run _ own_perms); [|done].
  rw (M_bind_Ok _ _ _ _ _ _ Hcurs).
  rw (M_bind_Ok _ _ _ _ (balance_at a (V a) <$> curs) c).
  - unfold mret, M_ret. do 2 f_equal. apply omap_id_fmap.
  - apply mapM_map. intros cur Hc. apply (ls_denom _ _ Hl) in Hc. destruct (Hden _ _ Hc) as [_ Hne].
    pose proof (mi_balances _ _ _ Hmi a (cur_Denom cur) Ha) as Hv. unfold balance_at.
    change (MkVMAccessPath (common_vm.Bech32ToLibra a) (BalancePath cur)) with (balance_path a (cur_Denom cur)).
    rw (M_bind_Ok _ _ _ _ _ _ (GetValue_ok _ c _ admitted)). destruct (V a (cur_Denom cur)) as [z|]; simpl in Hv.
    + destruct Hv as (Hz & bz & -> & Hu). rw (M_bind_Ok _ _ _ c (MkBalance (cur_Denom cur) (balance_path a (cur_Denom cur)) (MkResBalance z)) c); [done|].
      apply lift_Ok. unfold NewBalance. rw bool_decide_false; [|done]. simpl. by rw Hu.
    + by rw Hv.
Qed.

(** The coins of the resources. *)
Definition coins_of (r : balance_spec.resources) (curs : list Currency) : list Coin := omap (coin_at r) curs.

Lemma Coins_run a curs m V c : mirrored c m V → denoms_ok m → addr_ok a → lists curs m →
  Coins (omap (balance_at a (V a)) curs) = Ok (coins_of (V a) curs).
Proof.
  intros Hmi Hden Ha Hl.
  assert (∀ l acc, (∀ cur, cur ∈ l → cur ∈ curs) →
    foldM (λ coins balance, if rb_Value (bal_Resource balance) =? 0 then Ok coins
      else coin ← Balance_Coin balance; Ok (coins ++ [coin])) acc (omap (balance_at a (V a)) l) = Ok (acc ++ coins_of (V a) l)) as Hloop;
    [|by apply (Hloop curs [])].
  induction l as [|cur l IH]; intros acc Hin; [simpl; by rw app_nil_r|].
  assert (∀ x, x ∈ l → x ∈ curs) as Hin' by (intros x Hx; apply Hin; by right).
  assert (m !! cur_Denom cur = Some cur) as Hc by (apply (ls_denom _ _ Hl), Hin; left). destruct (Hden _ _ Hc) as [Hv _].
  pose proof (mi_balances _ _ _ Hmi a (cur_Denom cur) Ha) as Hval. unfold coins_of. cbn [omap list_omap].
  unfold balance_at at 1, coin_at at 1. destruct (V a (cur_Denom cur)) as [z|]; [|by apply IH]. cbn [fmap option_fmap option_map].
  destruct Hval as ((Hz & _) & _). cbn [foldM bal_Resource rb_Value]. destruct (z =? 0) eqn:E; [by apply IH|].
  unfold Balance_Coin. cbn [bal_Denom bal_Resource rb_Value]. rw NewCoin_ok; [|done..].
  etrans; [apply (IH (acc ++ [MkCoin (cur_Denom cur) z]) Hin')|]. unfold coins_of. by rw -app_assoc.
Qed.

Lemma coins_of_elem r curs m d z : lists curs m → MkCoin d z ∈ coins_of r curs ↔ is_Some (m !! d) ∧ r d = Some z ∧ z ≠ 0.
Proof.
  intros Hl. unfold coins_of. rewrite list_elem_of_omap. split.
  - intros (cur & Hc & E). apply (ls_denom _ _ Hl) in Hc. revert E. unfold coin_at. destruct (r (cur_Denom cur)) as [v|] eqn:Er; [|done].
    destruct (Z.eqb_spec v 0); [done|]. intros [= <- <-]. split; [by eexists|done].
  - intros ([cur E] & Er & Hz). exists cur. pose proof (ls_key _ _ Hl d cur E) as <-. split; [by apply (ls_denom _ _ Hl)|].
    unfold coin_at. rw Er. destruct (Z.eqb_spec z 0); done.
Qed.

Lemma coins_of_denoms r curs : coin_Denom <$> coins_of r curs `sublist_of` cur_Denom <$> curs.
Proof.
  unfold coins_of. induction curs as [|cur curs IH]; [constructor|]. cbn [omap list_omap]. rewrite fmap_cons. unfold coin_at at 1.
  destruct (r (cur_Denom cur)) as [z|]; [|by constructor]. destruct (z =? 0); [by constructor|]. rewrite fmap_cons. by constructor.
Qed.

(** They are the amounts of the registered denominations. *)
Lemma coins_of_valid a curs m V c : mirrored c m V → addr_ok a → lists curs m → coins_valid (coins_of (V a) curs).
Proof.
  intros Hmi Ha Hl. split.
  - eapply sublist_NoDup; [apply (ls_NoDup _ _ Hl)|apply coins_of_denoms].
  - apply Forall_forall. intros [d z] (Hs & Hr & Hz)%(coins_of_elem _ _ _ _ _ Hl). simpl.
    pose proof (mi_balances _ _ _ Hmi a d Ha) as Hv. rw Hr in Hv. destruct Hv as ((Hpos & _) & _). lia.
Qed.

Lemma coins_of_amount r curs m d : lists curs m → amount_of (coins_of r curs) d = balance_spec.amount m r d.
Proof.
  intros Hl. assert (NoDup (coin_Denom <$> coins_of r curs)) as Hnd.
  { eapply sublist_NoDup; [apply (ls_NoDup _ _ Hl)|apply coins_of_denoms]. }
  unfold balance_spec.amount. destruct (decide (d ∈ coin_Denom <$> coins_of r curs)) as [Hd|Hd].
  - apply list_elem_of_fmap in Hd as ([d' z] & -> & Hin). rw (coin_amount _ (MkCoin d' z) Hnd Hin). simpl.
    apply (coins_of_elem _ _ _ _ _ Hl) in Hin as ([cur E] & Er & _). by rw E Er.
  - rw amount_of_absent; [|done]. destruct (m !! d) as [cur|] eqn:E; [|done]. destruct (r d) as [z|] eqn:Er; [|done]. simpl.
    destruct (decide (z = 0)) as [->|Hz]; [done|]. exfalso. apply Hd. apply list_elem_of_fmap. exists (MkCoin d z). split; [done|].
    apply (coins_of_elem _ _ _ _ _ Hl). split; [by eexists|done].
Qed.

Lemma some_resource_true m r : balance_spec.some_resource m r = true ↔ ∃ d, is_Some (m !! d) ∧ is_Some (r d).
Proof.
  unfold balance_spec.some_resource. rewrite existsb_exists. split.
  - intros ([d cur] & Hin & Hs). apply list_elem_of_In, elem_of_map_to_list in Hin. exists d. split; [by eexists|]. by apply bool_decide_eq_true in Hs.
  - intros (d & [cur E] & Hs). exists (d, cur). split; [apply list_elem_of_In; by apply elem_of_map_to_list|]. by apply bool_decide_eq_true.
Qed.

Lemma no_balances a curs m r : lists curs m → (0 <? length (omap (balance_at a r) curs))%nat = balance_spec.some_resource m r.
Proof.
  intros Hl. apply eq_true_iff_eq. rewrite some_resource_true. rewrite Nat.ltb_lt. split.
  - intros Hlen. destruct (omap (balance_at a r) curs) as [|b bs] eqn:E; [simpl in Hlen; lia|].
    assert (b ∈ omap (balance_at a r) curs) as Hb by (rw E; left). apply list_elem_of_omap in Hb as (cur & Hc & Eb).
    apply (ls_denom _ _ Hl) in Hc. exists (cur_Denom cur). split; [by eexists|]. unfold balance_at in Eb. by destruct (r (cur_Denom cur)).
  - intros (d & [cur E] & [z Er]). pose proof (ls_key _ _ Hl d cur E) as <-. apply (ls_denom _ _ Hl) in E.
    assert (MkBalance (cur_Denom cur) (balance_path a (cur_Denom cur)) (MkResBalance z) ∈ omap (balance_at a r) curs) as Hb.
    { apply list_elem_of_omap. exists cur. split; [done|]. unfold balance_at. by rw Er. }
    destruct (omap (balance_at a r) curs); [by apply elem_of_nil in Hb|]. simpl. lia.
Qed.

(** *** Removing the resources *)
Lemma RemoveAccountBalanceResources_run a caller c m V : allowed modulePerms PermResUpdate caller → mirrored c m V → addr_ok a →
  ∃ c', RemoveAccountBalanceResources modulePerms a caller c = (Ok tt, c') ∧ vm_only c c' ∧
    mirrored c' m (set_account V a (balance_spec.remove m (V a))).
Proof.
  intros Hcaller Hmi Ha. unfold RemoveAccountBalanceResources. rw (allowed_run _ own_perms); [|done].
  destruct (currencies_run ModuleName c m V (ccs_allowed_self _ _) Hmi) as (curs & Hcurs & Hl). rw (M_bind_Ok _ _ _ _ _ _ Hcurs).
  destruct (resources_loop a curs (λ currency, DelValue (MkVMAccessPath (common_vm.Bech32ToLibra a) (BalancePath currency))) m
    (λ pre d, if decide (d ∈ cur_Denom <$> pre) then None else V a d) c V) as (c' & Hrun & Ho & Hm').
  - eapply mirrored_ext; [|exact Hmi]. intros x d _. by apply set_account_same.
  - intros pre cur c1 _ Hm1. destruct (drop_run c1 m _ a (cur_Denom cur) Hm1 Ha) as (c2 & Hrun & Ho & Hm2).
    exists c2. split; [exact Hrun|]. split; [done|]. apply Hm2, set_account_point. intros e. rewrite fmap_app.
    destruct (decide (e = cur_Denom cur)) as [->|]; [rw decide_True; [done|set_solver]|].
    destruct (decide (e ∈ cur_Denom <$> pre)); [rw decide_True; [done|set_solver]|rw decide_False; [done|set_solver]].
  - exists c'. split; [exact Hrun|]. split; [done|]. eapply mirrored_ext; [|exact Hm']. intros x d _. unfold set_account.
    destruct (decide (x = a)) as [->|]; [|done]. unfold balance_spec.remove. destruct (m !! d) as [cur|] eqn:E.
    + rw decide_True; [done|]. apply (has_denom _ _ _ Hl). by eexists.
    + rw decide_False; [done|]. intros Hs%(has_denom _ _ _ Hl). rw E in Hs. by destruct Hs.
Qed.
End facts.
