(* ===== verification/VMAuth.v ===== *)
(** * Accounts with Move balances ([x/vmauth])

    The account keeper of the chain wraps the SDK's: the coins of an account are also
    resources of the Move VM.  Storing an account writes its coins to the VM storage,
    reading one takes over what the VM made of them.  The zero-height squash adds
    accounts and removes or renames coins of all of them. *)
From S2P Require Import Prelude Bytes Sdk DnTypes Perms Chain SdkBank Currency VMStorage CCStorage SdkAuth.
Local Open Scope string_scope.
Local Open Scope Z_scope.

Module vmauth.

Definition ModuleName := "auth".
Definition ErrInternal := Registered ModuleName 100.
(** The keeper's code is that of module [vmauth]. *)
Definition CallerName := "vmauth".
Definition RequestCCStoragePerms : RequestModulePermissions :=
  (CallerName, [ccstorage.PermUpdate; ccstorage.PermRead; ccstorage.PermResUpdate]).

(** ** Squash options *)
Record addAccountOperation := MkAddAccountOperation { aao_Address : AccAddress; aao_Coins : list Coin }.
Record accountBalanceOperation := MkAccountBalanceOperation {
  abo_Denom : string; abo_Remove : bool; abo_RenameTo : string }.
Record SquashOptions := MkSquashOptions {
  addAccountOps : list addAccountOperation; accountBalanceOps : list accountBalanceOperation }.
Definition NewEmptySquashOptions : SquashOptions := MkSquashOptions [] [].

Definition SetAddAccountOp `{SdkParse} (opts : SquashOptions) (addressRaw coinsRaw : string) : outcome SquashOptions :=
  addr ← AccAddressFromBech32 addressRaw;
  coins ← ParseCoins coinsRaw;
  Ok (MkSquashOptions (addAccountOps opts ++ [MkAddAccountOperation addr coins])%list (accountBalanceOps opts)).

Definition SetAccountBalanceOp `{SdkTypes} (opts : SquashOptions) (denomRaw : string) (remove : bool) (renameToRaw : string) :
    outcome SquashOptions :=
  fail_if (remove && negb (bool_decide (renameToRaw = ""))) (Plain "remove op can not coexist with rename op");;
  fail_if (negb (ValidateDenom denomRaw)) (Plain "denom: invalid");;
  fail_if (negb (bool_decide (renameToRaw = "")) && negb (ValidateDenom renameToRaw)) (Plain "renameTo denom: invalid");;
  Ok (MkSquashOptions (addAccountOps opts)
        (accountBalanceOps opts ++ [MkAccountBalanceOperation denomRaw remove renameToRaw])%list).

(** The query's parameters. *)
Record QueryAccountParams := MkQueryAccountParams { qap_Address : AccAddress }.

Section keeper.
Context `{ST : SdkTypes} `{SC : SdkCoins} `{KV : KVStore} `{LG : Ledger} `{VS : !VMStorage}.
Context `{GL : Glav} `{LI : !Lcs ccstorage.ResCurrencyInfo} `{LB : !Lcs ccstorage.ResBalance} `{CC : !Codec Currency}.
Context `{AA : AuthAccounts} `{AK : !AccountKeeper} `{CA : !Codec Account} `{CQ : !Codec QueryAccountParams}.
(** The permissions of the currency storage. *)
Variable ccsPerms : ModulePermissions.

(** [if err := m(); err != nil { panic(err) }]. *)
Definition or_panic {A} (m : M A) : M A :=
  r ← attempt m; match r with Ok a => mret a | _ => panic end.

Definition SetAccount (acc : Account) : M unit :=
  in_module CallerName (
    stdAcc ← ak_GetAccount (acc_GetAddress acc);
    match stdAcc with
    | None => forM (acc_GetCoins acc) (λ coin, or_panic (ccstorage.IncreaseCurrencySupply ccsPerms coin))
    | Some _ => mret tt
    end;;
    or_panic (ccstorage.SetAccountBalanceResources ccsPerms (acc_GetAddress acc) (acc_GetCoins acc));;
    ak_SetAccount acc).

Definition GetAccount (addr : AccAddress) : M (option Account) :=
  in_module CallerName (
    acc ← ak_GetAccount addr;
    balances ← or_panic (ccstorage.GetAccountBalanceResources ccsPerms addr);
    if (0 <? length balances)%nat then
      realCoins ← lift (ccstorage.Coins balances);
      match acc with
      | Some acc =>
          equal ← lift (Coins_IsEqual realCoins (acc_GetCoins acc));
          if (equal : bool) then mret (Some acc)
          else
            acc ← or_panic (lift (acc_SetCoins acc realCoins));
            SetAccount acc;; mret (Some acc)
      | None =>
          acc ← ak_NewAccountWithAddress addr;
          acc ← or_panic (lift (acc_SetCoins acc realCoins));
          SetAccount acc;; mret (Some acc)
      end
    else mret acc).

Definition GetAllAccounts : M (list Account) := in_module CallerName ak_GetAllAccounts.

Definition RemoveAccount (acc : Account) : M unit :=
  in_module CallerName (
    ak_RemoveAccount acc;;
    ccstorage.RemoveAccountBalanceResources ccsPerms (acc_GetAddress acc)).

(** The handler carries [B] and says whether to stop; it sees every account
    stored when the iteration starts, as [GetAccount] returns it then. *)
Fixpoint iterate_accounts {B} (cb : B → option Account → M (B * bool)) (b : B) (accounts : list Account) : M B :=
  match accounts with
  | [] => mret b
  | account :: accounts' =>
      acc ← GetAccount (acc_GetAddress account);
      r ← cb b acc;
      if (r.2 : bool) then mret r.1 else iterate_accounts cb r.1 accounts'
  end.
Definition IterateAccounts {B} (cb : B → option Account → M (B * bool)) (b : B) : M B :=
  in_module CallerName (accounts ← ak_GetAllAccounts; iterate_accounts cb b accounts).

Definition GetSignerAcc (addr : AccAddress) : M Account :=
  acc ← GetAccount addr;
  match acc with Some acc => mret acc | None => throw ErrUnknownAddress end.

(** ** The squash *)

(** The first coin of the denomination, or a zero coin. *)
Definition coin_of (denom : string) (coins : list Coin) : outcome Coin :=
  zero ← NewCoin denom 0;
  match filter (λ coin, coin_Denom coin = denom) coins with
  | coin :: _ => Ok (MkCoin (coin_Denom zero) (coin_Amount coin))
  | [] => Ok zero
  end.
Definition removed_coins (denom : string) (coins : list Coin) : outcome (list Coin) :=
  coinToDel ← coin_of denom coins;
  toDel ← NewCoins [coinToDel];
  Coins_Sub coins toDel.
Definition renamed_coins (denom renameTo : string) (coins : list Coin) : outcome (list Coin) :=
  oldCoin ← coin_of denom coins;
  newCoin ← NewCoin renameTo (coin_Amount oldCoin);
  old ← NewCoins [oldCoin];
  coins ← Coins_Sub coins old;
  Coins_Add coins [newCoin].

(** One account: the handler's error is what it carries. *)
Definition change_coins (f : list Coin → outcome (list Coin)) (opErr : option error) (acc : option Account) :
    M (option error * bool) :=
  match acc with
  | None => panic
  | Some acc =>
      coins ← lift (f (acc_GetCoins acc));
      r ← attempt (lift (acc_SetCoins acc coins));
      match r with
      | Ok acc => SetAccount acc;; mret (opErr, false)
      | _ => mret (Some (Plain "SetCoins"), true)
      end
  end.
Definition change_all (f : list Coin → outcome (list Coin)) : M unit :=
  opErr ← IterateAccounts (change_coins f) None;
  match opErr with Some e => throw e | None => mret tt end.

Definition add_account (op : addAccountOperation) : M unit :=
  acc ← ak_NewAccountWithAddress (aao_Address op);
  r ← attempt (lift (acc_SetCoins acc (aao_Coins op)));
  match r with Ok acc => SetAccount acc | _ => throw (Plain "SetCoins") end.

Definition PrepareForZeroHeight (opts : SquashOptions) : M unit :=
  in_module CallerName (
    forM (addAccountOps opts) add_account;;
    forM (accountBalanceOps opts) (λ op,
      if negb (abo_Remove op) then mret tt else change_all (removed_coins (abo_Denom op)));;
    forM (accountBalanceOps opts) (λ op,
      if bool_decide (abo_RenameTo op = "") then mret tt
      else change_all (renamed_coins (abo_Denom op) (abo_RenameTo op)))).

(** ** Queries *)
Definition queryAccount (data : string) : M string :=
  match Unmarshal (A := QueryAccountParams) JSON data with
  | None => throw ErrInternal
  | Some params =>
      account ← GetAccount (qap_Address params);
      match account with
      | None => throw ErrUnknownAddress
      | Some account => mret (Marshal JSON account)
      end
  end.
Definition NewQuerier (path : string) (data : string) : M string :=
  if decide (path = "account") then queryAccount data else throw ErrUnknownRequest.
End keeper.
End vmauth.
