(* ===== verification/VMAuthFacts.v ===== *)
(** * Accounts: the keeper refines accounts beside their Move balances

    [auth_holds] relates the state to a map of currencies, a map of accounts and the
    balance resources.  [auth_spec.set_account] says what storing an account does to the
    three, and [SetAccount_run] that the keeper does it. *)
From S2P Require Import Prelude Bytes Sdk SdkFacts DnTypes Perms Chain SdkBank Currency VMStorage CCStorage CCStorageFacts SdkAuth BalanceFacts VMAuth.
Local Open Scope string_scope.
Local Open Scope Z_scope.
Local Open Scope list_scope.

Record auth_state := MkAuthState {
  as_currencies : gmap string Currency;
  as_accounts : gmap string Account;
  as_next : Z;
  as_balances : AccAddress → balance_spec.resources;
}.

(** ** The operations on the state *)
Module auth_spec.

Definition add_supplies (m : gmap string Currency) (cs : list Coin) : outcome (gmap string Currency) :=
  foldM (λ m coin, ccs_spec.add_supply m (coin_Denom coin) (coin_Amount coin)) m cs.

(** The coins of an unknown account are new to the currencies' supplies. *)
Definition set_account (st : auth_state) (acc : Account) : outcome auth_state :=
  m ← match as_accounts st !! acc_GetAddress acc with
      | None => add_supplies (as_currencies st) (acc_GetCoins acc)
      | Some _ => Ok (as_currencies st)
      end;
  Ok (MkAuthState m (<[acc_GetAddress acc := acc]> (as_accounts st)) (as_next st)
        (set_account (as_balances st) (acc_GetAddress acc)
           (balance_spec.set_coins m (acc_GetCoins acc) (as_balances st (acc_GetAddress acc))))).

Definition with_next (st : auth_state) (n : Z) : auth_state :=
  MkAuthState (as_currencies st) (as_accounts st) n (as_balances st).

(** What the VM holds of a denomination for an account. *)
Definition vm_amount (st : auth_state) (a : AccAddress) (d : string) : Z :=
  balance_spec.amount (as_currencies st) (as_balances st a) d.
Definition vm_knows (st : auth_state) (a : AccAddress) : bool :=
  balance_spec.some_resource (as_currencies st) (as_balances st a).
Definition supply (st : auth_state) (d : string) : Z :=
  match as_currencies st !! d with Some cur => cur_Supply cur | None => 0 end.
End auth_spec.

(** There is room in the supplies for the coins. *)
Definition supplies_fit (m : gmap string Currency) (cs : list Coin) : Prop :=
  ∀ c, c ∈ cs → ccs_spec.supply_fits m (coin_Denom c) (coin_Amount c).

(** An account the keeper can store. *)
Record storable (st : auth_state) (acc : Account) : Prop := {
  so_addr : addr_ok (acc_GetAddress acc);
  so_coins : coins_fit (acc_GetCoins acc);
  so_supply : as_accounts st !! acc_GetAddress acc = None → supplies_fit (as_currencies st) (acc_GetCoins acc);
}.

(** *** Supplies *)
Lemma added_supply_inv m d z m' : ccs_spec.add_supply m d z = Ok m' →
  ∃ cur, m !! d = Some cur ∧ m' = <[d := ccstorage.with_Supply cur (cur_Supply cur + z)]> m.
Proof. unfold ccs_spec.add_supply. destruct (m !! d) as [cur|] eqn:E; [|done]. intros [= <-]. by exists cur. Qed.

Lemma add_supplies_fit m d z m' cs : ccs_spec.add_supply m d z = Ok m' → d ∉ coin_Denom <$> cs → supplies_fit m cs → supplies_fit m' cs.
Proof.
  intros (cur & Hm & ->)%added_supply_inv Hd Hf c Hc cur'. rw lookup_insert_ne; [by apply Hf|]. intros ->. apply Hd, list_elem_of_fmap. by exists c.
Qed.

(** The same currencies, with other supplies. *)
Definition same_currencies (m m' : gmap string Currency) : Prop :=
  ∀ d, (λ cur, (cur_Denom cur, cur_Decimals cur, cur_ContractAddress cur)) <$> m' !! d =
       (λ cur, (cur_Denom cur, cur_Decimals cur, cur_ContractAddress cur)) <$> m !! d.

Lemma same_currencies_trans m1 m2 m3 : same_currencies m1 m2 → same_currencies m2 m3 → same_currencies m1 m3.
Proof. intros H1 H2 d. by rw H2 H1. Qed.
Lemma same_currencies_Some m m' d : same_currencies m m' → is_Some (m' !! d) ↔ is_Some (m !! d).
Proof.
  intros Hs. specialize (Hs d). destruct (m' !! d), (m !! d); try done; split; intros []; done.
Qed.
Lemma same_currencies_denoms `{SdkTypes} m m' : same_currencies m m' → denoms_ok m → denoms_ok m'.
Proof.
  intros Hs Hm d cur E. assert (is_Some (m !! d)) as [cur' E'] by (apply (same_currencies_Some _ _ _ Hs); by eexists). by apply (Hm d cur').
Qed.
Lemma same_currencies_set m m' cs old d : same_currencies m m' → balance_spec.set_coins m' cs old d = balance_spec.set_coins m cs old d.
Proof.
  intros Hs. unfold balance_spec.set_coins. case_decide; [done|]. pose proof (same_currencies_Some _ _ d Hs) as Hi.
  destruct (m' !! d), (m !! d); try done; [by destruct (proj1 Hi (mk_is_Some _ _ eq_refl))|by destruct (proj2 Hi (mk_is_Some _ _ eq_refl))].
Qed.
Lemma same_currencies_amount m m' r d : same_currencies m m' → balance_spec.amount m' r d = balance_spec.amount m r d.
Proof.
  intros Hs. unfold balance_spec.amount. pose proof (same_currencies_Some _ _ d Hs) as Hi.
  destruct (m' !! d), (m !! d); try done; [by destruct (proj1 Hi (mk_is_Some _ _ eq_refl))|by destruct (proj2 Hi (mk_is_Some _ _ eq_refl))].
Qed.

Lemma add_supplies_spec m cs m' : NoDup (coin_Denom <$> cs) → auth_spec.add_supplies m cs = Ok m' →
  same_currencies m m' ∧ (∀ c, c ∈ cs → is_Some (m !! coin_Denom c)) ∧
  ∀ d cur, m !! d = Some cur → m' !! d = Some (ccstorage.with_Supply cur (cur_Supply cur + amount_of cs d)).
Proof.
  unfold auth_spec.add_supplies. revert m. induction cs as [|c cs IH]; intros m Hnd Hrun; cbn [foldM] in Hrun.
  { injection Hrun as <-. split; [done|]. split; [by intros c Hc%elem_of_nil|]. intros d cur ->. rw amount_of_nil Z.add_0_r. by destruct cur. }
  rewrite fmap_cons in Hnd. apply NoDup_cons in Hnd as [Hn Hnd]. apply outcome_bind_inv in Hrun as (m1 & Hadd & Hrun).
  destruct (IH m1 Hnd Hrun) as (Hs & Hreg & Hsup). apply added_supply_inv in Hadd as (cur0 & Hm & ->).
  assert (same_currencies m (<[coin_Denom c := ccstorage.with_Supply cur0 (cur_Supply cur0 + coin_Amount c)]> m)) as Hs1.
  { intros d. destruct (decide (coin_Denom c = d)) as [<-|Hne]; [by rw lookup_insert_eq Hm|by rw lookup_insert_ne]. }
  split; [by eapply same_currencies_trans|]. split.
  - intros x [->|Hx]%elem_of_cons; [by eexists|]. apply (same_currencies_Some _ _ _ Hs1), Hreg, Hx.
  - intros d cur E. rw amount_of_cons. destruct (decide (coin_Denom c = d)) as [<-|Hne].
    + assert (cur0 = cur) as -> by congruence. rw (Hsup _ _ (lookup_insert_eq _ _ _)). rw (amount_of_absent cs); [|done].
      unfold ccstorage.with_Supply. simpl. by rw !Z.add_0_r.
    + rw (Hsup d cur); [by rw Z.add_0_l|]. by rw lookup_insert_ne.
Qed.

Lemma add_supplies_ok m cs : NoDup (coin_Denom <$> cs) → (∀ c, c ∈ cs → is_Some (m !! coin_Denom c)) →
  ∃ m', auth_spec.add_supplies m cs = Ok m'.
Proof.
  unfold auth_spec.add_supplies. revert m. induction cs as [|c cs IH]; intros m Hnd Hreg; [by eexists|]. cbn [foldM].
  rewrite fmap_cons in Hnd. apply NoDup_cons in Hnd as [Hn Hnd]. destruct (Hreg c) as [cur E]; [left|]. 
  assert (ccs_spec.add_supply m (coin_Denom c) (coin_Amount c) = Ok (<[coin_Denom c := ccstorage.with_Supply cur (cur_Supply cur + coin_Amount c)]> m)) as ->
    by (unfold ccs_spec.add_supply; by rw E).
  apply IH; [done|]. intros x Hx. destruct (Hreg x) as [cur' E']; [by right|].
  rw lookup_insert_ne; [by eexists|]. intros Ed. apply Hn. rw Ed. apply list_elem_of_fmap. by exists x.
Qed.

Section facts.
Context `{SdkTypesLaws} `{SdkCoinsLaws} `{!CoinsEqualLaws} `{KVStoreLaws} `{LG : Ledger} `{VS : !VMStorage}.
Context (clients : string → Prop) (vm_store : string) `{VSL : !VMStorageLaws clients vm_store}.
Context `{GL : Glav} `{LI : !Lcs ccstorage.ResCurrencyInfo} `{LB : !Lcs ccstorage.ResBalance} `{CC : !Codec Currency}.
Context `{AuthAccountsLaws} `{AK : !AccountKeeper} (acc_store : string) `{AKL : !AccountKeeperLaws acc_store}.
Variable ccsPerms : ModulePermissions.
Hypothesis own_perms : mp_name ccsPerms = ccstorage.ModuleName.
(** The VM storage admits the currency storage, which admits this keeper. *)
Hypothesis admitted : clients ccstorage.ModuleName.
Hypothesis granted : ∀ perm, perm ∈ snd vmauth.RequestCCStoragePerms → Check ccsPerms vmauth.CallerName perm = Ok tt.
Hypothesis other_store : vm_store ≠ ccstorage.StoreKey.
Hypothesis own_store : acc_store ∉ [ccstorage.StoreKey; vm_store].
(** [lcs] encodes numbers of up to 128 bits. *)
Hypothesis lcs_info : ∀ i : ccstorage.ResCurrencyInfo, 0 ≤ ccstorage.rci_TotalSupply i < 2 ^ 128 → ∃ bz, lcs_Marshal i = Ok bz.
Hypothesis lcs_balance : ∀ b : ccstorage.ResBalance, fits128 (ccstorage.rb_Value b) → ∃ bz, lcs_Marshal b = Ok bz.
Import vmauth.
Implicit Types (c : Ctx) (m : gmap string Currency) (d : string) (a : AccAddress) (st : auth_state) (acc : Account) (cs : list Coin).

Notation mirrored := (mirrored clients vm_store).

Record auth_holds c st : Prop := {
  ah_mirrored : mirrored c (as_currencies st) (as_balances st);
  ah_wf : acc_wf (ctx_stores c acc_store);
  ah_accounts a : acc_read (ctx_stores c acc_store) a = as_accounts st !! a;
  ah_next : acc_next (ctx_stores c acc_store) = as_next st;
}.

(** What the keeper leaves alone. *)
Definition auth_frame c c' : Prop :=
  frame [acc_store; ccstorage.StoreKey; vm_store] c c' ∧ ctx_bank c' = ctx_bank c ∧ ctx_events c' = ctx_events c.

Lemma auth_frame_refl c : auth_frame c c.
Proof. done. Qed.
Lemma auth_frame_trans c1 c2 c3 : auth_frame c1 c2 → auth_frame c2 c3 → auth_frame c1 c3.
Proof. intros (F1 & B1 & E1) (F2 & B2 & E2). split; [by eapply frame_trans|split; congruence]. Qed.

Lemma frame_mono ks ks' c c' : ks ⊆ ks' → frame ks c c' → frame ks' c c'.
Proof. intros Hk (Hs & Hrest). split; [|done]. intros k Hn. apply Hs. intros Hin. by apply Hn, Hk. Qed.
Lemma auth_frame_vm c c' : vm_only vm_store c c' → auth_frame c c'.
Proof. intros (F & B). split; [|done]. eapply frame_mono; [|exact F]. set_solver. Qed.
Lemma auth_frame_ccs c c' : ccs_frame vm_store c c' → ctx_events c' = ctx_events c → auth_frame c c'.
Proof. intros [F B] E. split; [|done]. eapply frame_mono; [|exact F]. set_solver. Qed.
Lemma auth_frame_acc c s : auth_frame c (set_store c acc_store s).
Proof. split; [|done]. split; [|done]. intros k Hk. simpl. rw decide_False; [done|]. intros ->. apply Hk. left. Qed.

Lemma grants perm caller : perm ∈ snd RequestCCStoragePerms → caller = CallerName → allowed ccsPerms perm caller.
Proof. intros Hp ->. right. by apply granted. Qed.
Lemma grants_update : allowed ccsPerms ccstorage.PermUpdate CallerName.
Proof. apply grants; [|done]. left. Qed.
Lemma grants_read : allowed ccsPerms ccstorage.PermRead CallerName.
Proof. apply grants; [|done]. right. left. Qed.
Lemma grants_res : allowed ccsPerms ccstorage.PermResUpdate CallerName.
Proof. apply grants; [|done]. do 2 right. left. Qed.

Lemma or_panic_run {B} (m : M B) caller c x c' : m caller c = (Ok x, c') → or_panic m caller c = (Ok x, c').
Proof. intros Hm. unfold or_panic. by rw (M_bind_Ok _ _ _ _ _ _ (attempt_Ok _ _ _ _ _ Hm)). Qed.
Lemma or_panic_Err {B} (m : M B) caller c e c' : m caller c = (Err e, c') → or_panic m caller c = (Panic, c').
Proof. intros Hm. unfold or_panic. by rw (M_bind_Ok _ _ _ _ _ _ (attempt_Err _ _ _ _ _ Hm)). Qed.

(** *** Supplies *)

(** The info resources are those of the standard library. *)
Lemma std_info_quiet cur c c' : ccstorage.storeResStdCurrencyInfo cur ccstorage.ModuleName c = (Ok tt, c') →
  ∀ q, common_vm.path_ok q → vp_Address q ≠ common_vm.StdLibAddress → vm_read (ctx_stores c' vm_store) q = vm_read (ctx_stores c vm_store) q.
Proof.
  intros Hrun q Hq Hne. unfold ccstorage.storeResStdCurrencyInfo in Hrun.
  destruct (ccstorage.NewResCurrencyInfo _ _); [|done..]. destruct (lcs_Marshal _) as [bz| |]; [|done..].
  set (p := MkVMAccessPath _ _) in Hrun.
  destruct (SetValue_ok ccstorage.ModuleName c p bz) as (s & Hrun' & Hread); [done|apply (info_path_ok)|].
  rw Hrun' in Hrun. injection Hrun as <-. simpl. rw decide_True; [|done]. rw Hread; [|done].
  rw decide_False; [done|]. by intros ->.
Qed.

Lemma store_currency_vm cur c c' : ccstorage.storeCurrency cur ccstorage.ModuleName c = (Ok tt, c') → ctx_stores c' vm_store = ctx_stores c vm_store.
Proof. intros [= <-]. simpl. by rw decide_False. Qed.

(** Balances are not touched by a change of the standard library's resources. *)
Lemma mirrored_quiet c c' m m' V : mirrored c m V → ccs_holds clients vm_store c' m' →
  (∀ q, common_vm.path_ok q → vp_Address q ≠ common_vm.StdLibAddress → vm_read (ctx_stores c' vm_store) q = vm_read (ctx_stores c vm_store) q) →
  mirrored c' m' V.
Proof.
  intros [_ Hb] Hc' Hq. split; [done|]. intros a d Ha. specialize (Hb a d Ha).
  assert (vm_read (ctx_stores c' vm_store) (balance_path a d) = vm_read (ctx_stores c vm_store) (balance_path a d)) as E.
  { apply Hq; [by apply balance_path_ok|]. apply Ha. }
  unfold value_held in *. by rw E.
Qed.

(** What both changes of a supply do after the permission is checked. *)
Lemma change_quiet (f : Currency → outcome Z) d c m V c' m' : mirrored c m V →
  (cur ← ccstorage.GetCurrency ccsPerms d; z ← lift (f cur); store_both (ccstorage.with_Supply cur z)) ccstorage.ModuleName c = (Ok tt, c') →
  ccs_holds clients vm_store c' m' → mirrored c' m' V.
Proof.
  intros Hm Hrun Hc'. pose proof (mi_currencies _ _ _ _ _ Hm) as Hc. apply (mirrored_quiet c c' m m' V Hm Hc'). intros q Hq Hne.
  apply M_bind_inv in Hrun as (cur & c1 & Hget & Hrun). rw (GetCurrency_run _ _ _ own_perms _ _ _ _ (ccs_allowed_self _ _) Hc) in Hget.
  injection Hget as _ <-. apply M_bind_inv in Hrun as (z & c1 & Hz & Hrun). apply lift_inv in Hz as [_ ->].
  apply M_bind_inv in Hrun as ([] & c1 & Hst & Hrun). rw (std_info_quiet _ _ _ Hrun q Hq Hne). by rw (store_currency_vm _ _ _ Hst).
Qed.

Lemma increase_mirrored coin caller c m V m' : allowed ccsPerms ccstorage.PermUpdate caller → mirrored c m V →
  ccs_spec.supply_fits m (coin_Denom coin) (coin_Amount coin) →
  ccs_spec.add_supply m (coin_Denom coin) (coin_Amount coin) = Ok m' →
  ∃ c', ccstorage.IncreaseCurrencySupply ccsPerms coin caller c = (Ok tt, c') ∧ mirrored c' m' V ∧
    ccs_frame vm_store c c' ∧ ctx_events c' = ctx_events c.
Proof.
  intros Hcaller Hm Hfit Hadd. pose proof (increase_run clients vm_store ccsPerms own_perms admitted other_store lcs_info
    caller c m coin Hcaller (mi_currencies _ _ _ _ _ Hm) Hfit) as Hr. rw Hadd in Hr. destruct Hr as (c' & Hrun & Hc' & Hf & He).
  exists c'. split; [done|]. split; [|done]. unfold ccstorage.IncreaseCurrencySupply in Hrun. rw (allowed_run _ own_perms) in Hrun; [|done].
  by apply (change_quiet (λ cur, Int_Add (cur_Supply cur) (coin_Amount coin)) (coin_Denom coin) c m V).
Qed.

Lemma decrease_mirrored coin caller c m V m' : allowed ccsPerms ccstorage.PermUpdate caller → mirrored c m V →
  ccs_spec.supply_fits m (coin_Denom coin) (- coin_Amount coin) →
  ccs_spec.add_supply m (coin_Denom coin) (- coin_Amount coin) = Ok m' →
  ∃ c', ccstorage.DecreaseCurrencySupply ccsPerms coin caller c = (Ok tt, c') ∧ mirrored c' m' V ∧
    ccs_frame vm_store c c' ∧ ctx_events c' = ctx_events c.
Proof.
  intros Hcaller Hm Hfit Hadd. pose proof (decrease_run clients vm_store ccsPerms own_perms admitted other_store lcs_info
    caller c m coin Hcaller (mi_currencies _ _ _ _ _ Hm) Hfit) as Hr. rw Hadd in Hr. destruct Hr as (c' & Hrun & Hc' & Hf & He).
  exists c'. split; [done|]. split; [|done]. unfold ccstorage.DecreaseCurrencySupply in Hrun. rw (allowed_run _ own_perms) in Hrun; [|done].
  by apply (change_quiet (λ cur, Int_Sub (cur_Supply cur) (coin_Amount coin)) (coin_Denom coin) c m V).
Qed.

(** A new currency, beside the balances. *)
Lemma create_mirrored p caller c m V : mirrored c m V → allowed ccsPerms ccstorage.PermCreate caller → 0 ≤ cp_Decimals p < 256 →
  m !! cp_Denom p = None →
  ∃ c', ccstorage.CreateCurrency ccsPerms p caller c = (Ok tt, c') ∧ mirrored c' (<[cp_Denom p := NewCurrency p 0]> m) V ∧ ccs_frame vm_store c c'.
Proof.
  intros Hm Hcaller Hdec Hnew. pose proof (mi_currencies _ _ _ _ _ Hm) as Hc.
  pose proof (create_run clients vm_store ccsPerms own_perms admitted other_store lcs_info caller c m p Hcaller Hc Hdec) as Hr.
  unfold refines, ccs_spec.step, run in Hr. rw bool_decide_false in Hr; [|rw Hnew; by intros []]. destruct Hr as (c' & Hrun & Hc' & Hf).
  exists c'. split; [done|]. split; [|done]. apply (mirrored_quiet c c' m _ V Hm Hc'). intros q Hq Hne.
  unfold ccstorage.CreateCurrency in Hrun. rw (allowed_run _ own_perms) in Hrun; [|done].
  rw (M_bind_Ok _ _ _ _ _ _ (HasCurrency_run _ _ _ own_perms ccstorage.ModuleName c m (cp_Denom p) (ccs_allowed_self _ _) Hc)) in Hrun.
  rw Hnew bool_decide_false in Hrun; [|by intros []]. cbn beta iota zeta in Hrun. rw NewResCurrencyInfo_std in Hrun. cbn beta iota zeta in Hrun.
  apply M_bind_inv in Hrun as ([] & c1 & Hst & Hrun). apply M_bind_inv in Hrun as ([] & c2 & Hinfo & Hrun). injection Hrun as <-. simpl.
  rw (std_info_quiet _ _ _ Hinfo q Hq Hne). by rw (store_currency_vm _ _ _ Hst).
Qed.

Lemma increase_all cs c m V : mirrored c m V → NoDup (coin_Denom <$> cs) → supplies_fit m cs →
  match auth_spec.add_supplies m cs with
  | Ok m' => ∃ c', forM cs (λ coin, or_panic (ccstorage.IncreaseCurrencySupply ccsPerms coin)) CallerName c = (Ok tt, c') ∧
      mirrored c' m' V ∧ ccs_frame vm_store c c' ∧ ctx_events c' = ctx_events c
  | Err e => ∃ c', forM cs (λ coin, or_panic (ccstorage.IncreaseCurrencySupply ccsPerms coin)) CallerName c = (Panic, c')
  | Panic => False
  end.
Proof.
  revert c m. induction cs as [|coin cs IH]; intros c m Hm Hnd Hfit.
  { simpl. exists c. split; [done|]. split; [done|]. split; [apply ccs_frame_refl|done]. }
  rewrite fmap_cons in Hnd. apply NoDup_cons in Hnd as [Hn Hnd]. unfold auth_spec.add_supplies. cbn [foldM forM].
  assert (ccs_spec.supply_fits m (coin_Denom coin) (coin_Amount coin)) as Hfit1 by (apply Hfit; left).
  destruct (ccs_spec.add_supply m (coin_Denom coin) (coin_Amount coin)) as [m1|e|] eqn:Hadd.
  - destruct (increase_mirrored coin CallerName c m V m1 grants_update Hm Hfit1 Hadd) as (c1 & Hrun & Hm1 & Hf1 & He1).
    assert (supplies_fit m1 cs) as Hfit' by (eapply add_supplies_fit; [done|done|]; intros x Hx; apply Hfit; by right).
    specialize (IH c1 m1 Hm1 Hnd Hfit'). cbn [mbind outcome_bind]. unfold auth_spec.add_supplies in IH.
    destruct (foldM _ m1 cs) as [m'|e|]; [|..].
    + destruct IH as (c' & Hrun' & Hm' & Hf' & He'). exists c'. rw (M_bind_Ok _ _ _ _ _ _ (or_panic_run _ _ _ _ _ Hrun)).
      split; [done|]. split; [done|]. split; [by eapply ccs_frame_trans|congruence].
    + destruct IH as (c' & Hrun'). exists c'. by rw (M_bind_Ok _ _ _ _ _ _ (or_panic_run _ _ _ _ _ Hrun)).
    + done.
  - cbn. pose proof (increase_run clients vm_store ccsPerms own_perms admitted other_store lcs_info
      CallerName c m coin grants_update (mi_currencies _ _ _ _ _ Hm) Hfit1) as Hr. rw Hadd in Hr. exists c.
    unfold mbind, M_bind. by rw (or_panic_Err _ _ _ _ _ Hr).
  - unfold ccs_spec.add_supply in Hadd. by destruct (m !! coin_Denom coin).
Qed.

(** *** Storing an account *)
Lemma acc_store_ccs c c' : ccs_frame vm_store c c' → ctx_stores c' acc_store = ctx_stores c acc_store.
Proof. intros Hf. apply (ccs_frame_store _ _ _ _ Hf); intros ->; apply own_store; [left|right; left]. Qed.
Lemma acc_store_vm c c' : vm_only vm_store c c' → ctx_stores c' acc_store = ctx_stores c acc_store.
Proof. intros Hf. apply (vm_only_store _ _ _ _ Hf). intros ->. apply own_store. right. left. Qed.

(** A write to the accounts store. *)
Lemma mirrored_acc c s m V : mirrored c m V → mirrored (set_store c acc_store s) m V.
Proof.
  intros [[Hcur Hden Hinfo] Hb].
  assert (ctx_stores (set_store c acc_store s) vm_store = ctx_stores c vm_store) as Ev.
  { simpl. rw decide_False; [done|]. intros E. apply own_store. rw -E. right. left. }
  assert (ctx_stores (set_store c acc_store s) ccstorage.StoreKey = ctx_stores c ccstorage.StoreKey) as Es.
  { simpl. rw decide_False; [done|]. intros E. apply own_store. rw -E. left. }
  split; [split|]; [by rw Es|done|by rw Ev|]. intros a d Ha. specialize (Hb a d Ha). unfold value_held in *. by rw Ev.
Qed.

Lemma SetAccount_run acc caller c st : auth_holds c st → denoms_ok (as_currencies st) → storable st acc →
  match auth_spec.set_account st acc with
  | Ok st' => ∃ c', SetAccount ccsPerms acc caller c = (Ok tt, c') ∧ auth_holds c' st' ∧ auth_frame c c'
  | Err _ => ∃ c', SetAccount ccsPerms acc caller c = (Panic, c')
  | Panic => False
  end.
Proof.
  intros [Hmi Hwf Hacc Hnext] Hden [Ha Hfit Hsup]. set (a := acc_GetAddress acc) in *. unfold auth_spec.set_account. fold a.
  assert (∀ c1 m1, mirrored c1 m1 (as_balances st) → same_currencies (as_currencies st) m1 → auth_frame c c1 →
    ctx_stores c1 acc_store = ctx_stores c acc_store →
    ∃ c', (or_panic (ccstorage.SetAccountBalanceResources ccsPerms a (acc_GetCoins acc));; ak_SetAccount acc) CallerName c1 = (Ok tt, c') ∧
      auth_holds c' (MkAuthState m1 (<[a := acc]> (as_accounts st)) (as_next st)
        (set_account (as_balances st) a (balance_spec.set_coins m1 (acc_GetCoins acc) (as_balances st a)))) ∧ auth_frame c c') as Hrest.
  { intros c1 m1 Hm1 Hs Hf1 Ea.
    destruct (SetAccountBalanceResources_run clients vm_store ccsPerms own_perms admitted other_store lcs_balance a (acc_GetCoins acc)
      CallerName c1 m1 _ grants_res Hm1 (same_currencies_denoms _ _ Hs Hden) Ha Hfit) as (c2 & Hrun2 & Ho & Hm2).
    pose proof (acc_store_vm _ _ Ho) as Ea2. rw Ea in Ea2.
    destruct (SetAccount_ok acc CallerName c2) as (s & Hrun3 & Hwf3 & Hn3 & Hread); [by rw Ea2|].
    exists (set_store c2 acc_store s). rw (M_bind_Ok _ _ _ _ _ _ (or_panic_run _ _ _ _ _ Hrun2)). split; [done|]. split.
    - assert (ctx_stores (set_store c2 acc_store s) acc_store = s) as Es by (simpl; by rw decide_True).
      split; rw ?Es; [by apply mirrored_acc|done|..].
      + intros x. rw Hread Ea2. simpl. destruct (decide (x = acc_GetAddress acc)) as [->|Hne]; [by rw lookup_insert_eq|by rw lookup_insert_ne].
      + by rw Hn3 Ea2.
    - eapply auth_frame_trans; [exact Hf1|]. eapply auth_frame_trans; [by apply auth_frame_vm|apply auth_frame_acc]. }
  unfold SetAccount, in_module. fold a. rw (M_bind_Ok _ _ _ _ _ _ (GetAccount_ok a _ c Hwf)) Hacc.
  destruct (as_accounts st !! a) as [old|] eqn:E.
  - destruct (Hrest c _ Hmi (λ _, eq_refl) (auth_frame_refl c) eq_refl) as (c' & Hrun & Hrest'). exists c'. by rw (M_bind_Ok _ _ _ c tt c).
  - pose proof (increase_all (acc_GetCoins acc) c _ _ Hmi (proj1 Hfit) (Hsup eq_refl)) as Hinc.
    destruct (auth_spec.add_supplies _ _) as [m1|e|] eqn:Hadd; [|..].
    + destruct Hinc as (c1 & Hrun1 & Hm1 & Hf1 & He1). rw (M_bind_Ok _ _ _ _ _ _ Hrun1).
      apply (Hrest c1 m1 Hm1); [by apply (add_supplies_spec _ _ _ (proj1 Hfit) Hadd)|by apply auth_frame_ccs|by apply acc_store_ccs].
    + destruct Hinc as (c' & Hrun1). exists c'. unfold mbind at 1, M_bind at 1. by rw Hrun1.
    + done.
Qed.

(** *** Removing an account *)
Lemma RemoveAccount_run acc caller c st : auth_holds c st → addr_ok (acc_GetAddress acc) →
  ∃ c', RemoveAccount ccsPerms acc caller c = (Ok tt, c') ∧ auth_frame c c' ∧
    auth_holds c' (MkAuthState (as_currencies st) (delete (acc_GetAddress acc) (as_accounts st)) (as_next st)
      (set_account (as_balances st) (acc_GetAddress acc)
        (balance_spec.remove (as_currencies st) (as_balances st (acc_GetAddress acc))))).
Proof.
  intros [Hmi Hwf Hacc Hnext] Ha. unfold RemoveAccount, in_module.
  destruct (RemoveAccount_ok acc CallerName c Hwf) as (s & Hrun & Hwf' & Hn & Hread). rw (M_bind_Ok _ _ _ _ _ _ Hrun).
  destruct (RemoveAccountBalanceResources_run clients vm_store ccsPerms own_perms admitted other_store lcs_balance (acc_GetAddress acc)
    CallerName _ _ _ grants_res (mirrored_acc c s _ _ Hmi) Ha) as (c2 & Hrun2 & Ho & Hm2).
  exists c2. split; [done|]. split; [eapply auth_frame_trans; [apply auth_frame_acc|by apply auth_frame_vm]|].
  pose proof (acc_store_vm _ _ Ho) as E. simpl in E. rw decide_True in E; [|done]. split; [done|by rw E|..].
  - intros x. rw E Hread. simpl. destruct (decide (x = acc_GetAddress acc)) as [->|Hne]; [by rw lookup_delete_eq|by rw lookup_delete_ne].
  - by rw E Hn.
Qed.

(** *** Reading an account *)

(** The coins the VM holds for the account. *)
Definition vm_coins st a cs : Prop := coins_valid cs ∧ ∀ d, amount_of cs d = auth_spec.vm_amount st a d.

(** Lists the SDK compares without a panic: of different lengths, or of the same
    denominations. *)
Definition comparable (cs cs' : list Coin) : Prop :=
  length cs ≠ length cs' ∨ coin_Denom <$> cs ≡ₚ coin_Denom <$> cs'.

(** The keeper can read the account: its coins can be compared with the VM's; an
    account only the VM knows has room in the supplies. *)
Definition readable st a : Prop :=
  match as_accounts st !! a with
  | Some acc => coins_valid (acc_GetCoins acc) ∧ ∀ cs, vm_coins st a cs → comparable cs (acc_GetCoins acc)
  | None => auth_spec.vm_knows st a = true →
      ∀ d cur, as_currencies st !! d = Some cur → 0 ≤ cur_Supply cur + auth_spec.vm_amount st a d < 2 ^ 128
  end.

Lemma IsEqual_comparable cs cs' : coins_valid cs → coins_valid cs' → comparable cs cs' →
  Coins_IsEqual cs cs' = Ok (bool_decide (cs ≡ₚ cs')).
Proof.
  intros Hv Hv' [Hl|Hd]; [|by apply IsEqual_same_denoms]. rw IsEqual_lengths; [|done..]. rw bool_decide_false; [done|].
  intros Hp. by apply Hl, Permutation_length.
Qed.

Lemma vm_coins_elem st a cs coin c : auth_holds c st → addr_ok a → vm_coins st a cs → coin ∈ cs →
  is_Some (as_currencies st !! coin_Denom coin) ∧ fits128 (coin_Amount coin) ∧ coin_Amount coin = auth_spec.vm_amount st a (coin_Denom coin).
Proof.
  intros Hs Ha [Hv Hcs] Hin. pose proof (coin_amount cs coin (proj1 Hv) Hin) as E. rw Hcs in E.
  destruct Hv as [_ Hpos]. rewrite Forall_forall in Hpos. specialize (Hpos _ Hin). rw -E. rw -E in Hpos.
  pose proof (mi_balances _ _ _ _ _ (ah_mirrored _ _ Hs) a (coin_Denom coin) Ha) as Hval.
  unfold auth_spec.vm_amount, balance_spec.amount in *. destruct (as_currencies st !! coin_Denom coin); [|lia]. split; [done|]. split; [|done].
  destruct (as_balances st a (coin_Denom coin)) as [z|]; [|simpl in Hpos; lia]. apply Hval.
Qed.

Lemma vm_coins_fit st a cs c : auth_holds c st → addr_ok a → vm_coins st a cs → coins_fit cs.
Proof.
  intros Hs Ha Hcs. split; [apply Hcs|]. intros coin Hin. by apply (vm_coins_elem _ _ _ _ _ Hs Ha Hcs Hin).
Qed.

(** The account the keeper returns, and stores when it is new or has changed. *)
Definition read_account st a cs : option (auth_state * Account) :=
  match as_accounts st !! a with
  | Some acc => if decide (cs ≡ₚ acc_GetCoins acc) then None else Some (st, with_Coins cs acc)
  | None => Some (auth_spec.with_next st (wrap64 (as_next st + 1)), Account_base (MkBaseAccount a cs None (as_next st) 0))
  end.

Lemma read_account_storable st a cs c st0 acc : auth_holds c st → addr_ok a → vm_coins st a cs → readable st a → auth_spec.vm_knows st a = true →
  read_account st a cs = Some (st0, acc) →
  acc_GetAddress acc = a ∧ acc_GetCoins acc = cs ∧ as_currencies st0 = as_currencies st ∧ as_accounts st0 = as_accounts st ∧
  as_balances st0 = as_balances st ∧ storable st0 acc ∧ ∃ st', auth_spec.set_account st0 acc = Ok st'.
Proof.
  intros Hs Ha Hcs Hr Hk Hread.
  assert (acc_GetAddress acc = a ∧ acc_GetCoins acc = cs ∧ as_currencies st0 = as_currencies st ∧ as_accounts st0 = as_accounts st ∧
    as_balances st0 = as_balances st) as (Ea & Ecs & Em & Eaccs & Eb).
  { unfold read_account in Hread. destruct (as_accounts st !! a) as [acc0|] eqn:E.
    - destruct (decide _); [done|]. injection Hread as <- <-. rw with_Coins_Address with_Coins_Coins. split; [|done].
      rw -(ah_accounts _ _ Hs) in E. by apply (acc_read_address _ _ _ (ah_wf _ _ Hs)) in E.
    - by injection Hread as <- <-. }
  assert (∀ coin, coin ∈ cs → is_Some (as_currencies st !! coin_Denom coin) ∧ _) as Hel by (intros coin; apply (vm_coins_elem st a cs coin c Hs Ha Hcs)).
  split_and!; [done..| |].
  - split; rw ?Ea ?Ecs; [done|by eapply vm_coins_fit|]. rw Eaccs Em. intros E coin Hin cur Ecur. destruct (Hel _ Hin) as (_ & _ & ->).
    unfold readable in Hr. rw E in Hr. by apply (Hr Hk).
  - unfold auth_spec.set_account. rw Ea Ecs Eaccs Em Eb. destruct (as_accounts st !! a); [by eexists|].
    destruct (add_supplies_ok (as_currencies st) cs) as [m' ->]; [apply Hcs|intros coin Hin; by apply Hel|]. by eexists.
Qed.

Lemma GetAccount_run a caller c st : auth_holds c st → denoms_ok (as_currencies st) → addr_ok a → readable st a →
  if auth_spec.vm_knows st a then
    ∃ cs, vm_coins st a cs ∧
      match read_account st a cs with
      | None => GetAccount ccsPerms a caller c = (Ok (as_accounts st !! a), c)
      | Some (st0, acc) => ∃ c' st', auth_spec.set_account st0 acc = Ok st' ∧
          GetAccount ccsPerms a caller c = (Ok (Some acc), c') ∧ auth_holds c' st' ∧ auth_frame c c'
      end
  else GetAccount ccsPerms a caller c = (Ok (as_accounts st !! a), c).
Proof.
  intros Hs Hden Ha Hr. pose proof Hs as [Hmi Hwf Hacc Hnext].
  destruct (read_balances_run clients vm_store ccsPerms own_perms admitted a CallerName c _ _ grants_read Hmi Hden Ha) as (curs & Hl & Hget).
  assert (vm_coins st a (coins_of (as_balances st a) curs)) as Hcs.
  { split; [by eapply coins_of_valid|]. intros d. by apply coins_of_amount. }
  unfold GetAccount, in_module. rw (M_bind_Ok _ _ _ _ _ _ (GetAccount_ok a _ c Hwf)) Hacc.
  rw (M_bind_Ok _ _ _ _ _ _ (or_panic_run _ _ _ _ _ Hget)) (no_balances _ _ _ _ Hl).
  fold (auth_spec.vm_knows st a). destruct (auth_spec.vm_knows st a) eqn:Hk; [|done].
  exists (coins_of (as_balances st a) curs). split; [done|]. set (cs := coins_of (as_balances st a) curs) in *.
  assert (ccstorage.Coins (omap (balance_at a (as_balances st a)) curs) = Ok cs) as HCoins by (by eapply Coins_run).
  rw (M_bind_Ok _ _ _ _ _ _ (lift_Ok _ _ _ c HCoins)).
  pose proof (read_account_storable st a cs c) as Hst. unfold read_account in *.
  destruct (as_accounts st !! a) as [acc0|] eqn:E.
  - unfold readable in Hr. rw E in Hr. destruct Hr as [Hv Hcmp].
    rw (M_bind_Ok _ _ _ _ _ _ (lift_Ok _ _ _ c (IsEqual_comparable _ _ (proj1 Hcs) Hv (Hcmp _ Hcs)))).
    destruct (decide (cs ≡ₚ acc_GetCoins acc0)) as [Hp|Hp]; [by rw bool_decide_true|]. rw bool_decide_false; [|done].
    destruct (Hst st (with_Coins cs acc0) Hs Ha Hcs) as (_ & _ & _ & _ & _ & Hso & st' & Hset); [unfold readable; by rw E|done|done|].
    pose proof (SetAccount_run _ CallerName c st Hs Hden Hso) as Hrun. rw Hset in Hrun. destruct Hrun as (c' & Hrun & Hs' & Hf).
    exists c', st'. split; [done|]. split; [|done].
    rw (M_bind_Ok _ _ _ _ _ _ (or_panic_run _ _ _ _ _ (lift_Ok _ _ _ c (SetCoins_ok acc0 cs)))). by rw (M_bind_Ok _ _ _ _ _ _ Hrun).
  - destruct (NewAccountWithAddress_ok a CallerName c Hwf) as (s & Hnew & Hwf' & Hn & Hread). rw (M_bind_Ok _ _ _ _ _ _ Hnew).
    assert (auth_holds (set_store c acc_store s) (auth_spec.with_next st (wrap64 (as_next st + 1)))) as Hs1.
    { assert (ctx_stores (set_store c acc_store s) acc_store = s) as Es by (simpl; by rw decide_True).
      split; rw ?Es; [by apply mirrored_acc|done|intros x; by rw Hread Hacc|by rw Hn Hnext]. }
    rw Hnext. destruct (Hst _ _ Hs Ha Hcs Hr Hk eq_refl) as (_ & _ & _ & _ & _ & Hso & st' & Hset).
    pose proof (SetAccount_run _ CallerName _ _ Hs1 Hden Hso) as Hrun. rw Hset in Hrun. destruct Hrun as (c' & Hrun & Hs' & Hf).
    exists c', st'. split; [done|]. split; [|split; [done|eapply auth_frame_trans; [apply auth_frame_acc|done]]].
    rw (M_bind_Ok _ _ _ _ _ _ (or_panic_run _ _ _ _ _ (lift_Ok _ _ _ _ (SetCoins_ok _ cs)))).
    change (with_Coins cs (Account_base (MkBaseAccount a [] None (as_next st) 0))) with (Account_base (MkBaseAccount a cs None (as_next st) 0)).
    by rw (M_bind_Ok _ _ _ _ _ _ Hrun).
Qed.
End facts.
