(* ===== verification/VMAuthTheorems.v ===== *)
(** * Accounts: what storing, reading and squashing do

    An account is synced when its coins are what the VM holds for it.  Storing and
    reading leave an account synced; the squash removes and renames coins of all
    accounts at once, in the accounts and in the VM alike. *)
From S2P Require Import Prelude Bytes Sdk SdkFacts DnTypes Perms Chain SdkBank Currency VMStorage CCStorage CCStorageFacts SdkAuth BalanceFacts VMAuth VMAuthFacts.
Local Open Scope string_scope.
Local Open Scope Z_scope.
Local Open Scope list_scope.

(** The account's coins are the VM's. *)
Definition synced (st : auth_state) (a : AccAddress) : Prop :=
  match as_accounts st !! a with
  | Some acc => coins_valid (acc_GetCoins acc) ∧ ∀ d, amount_of (acc_GetCoins acc) d = auth_spec.vm_amount st a d
  | None => auth_spec.vm_knows st a = false
  end.

(** All coins are of registered denominations. *)
Definition registered (m : gmap string Currency) (cs : list Coin) : Prop := ∀ c, c ∈ cs → is_Some (m !! coin_Denom c).

(** ** What storing an account does to the state *)
Lemma set_coins_amount m cs old d : balance_spec.amount m (balance_spec.set_coins m cs old) d = match m !! d with Some _ => amount_of cs d | None => 0 end.
Proof.
  unfold balance_spec.amount, balance_spec.set_coins. destruct (m !! d) as [cur|]; [|done].
  destruct (decide (d ∈ coin_Denom <$> cs)); [done|]. rw amount_of_absent; [|done]. by destruct (old d).
Qed.

(** The effect of [auth_spec.set_account], field by field. *)
Lemma set_account_effect st acc st' : coins_fit (acc_GetCoins acc) → auth_spec.set_account st acc = Ok st' →
  let a := acc_GetAddress acc in
  as_accounts st' = <[a := acc]> (as_accounts st) ∧ as_next st' = as_next st ∧
  same_currencies (as_currencies st) (as_currencies st') ∧
  (∀ x, x ≠ a → as_balances st' x = as_balances st x) ∧
  (∀ x d, auth_spec.vm_amount st' x d =
     if decide (x = a) then match as_currencies st !! d with Some _ => amount_of (acc_GetCoins acc) d | None => 0 end
     else auth_spec.vm_amount st x d) ∧
  (∀ d, auth_spec.supply st' d = auth_spec.supply st d +
     (match as_accounts st !! a with None => amount_of (acc_GetCoins acc) d | Some _ => 0 end)) ∧
  (as_accounts st !! a = None → registered (as_currencies st) (acc_GetCoins acc)).
Proof.
  intros [Hnd Hfit] Hset a. unfold auth_spec.set_account in Hset. fold a in Hset. apply outcome_bind_inv in Hset as (m & Hm & Hset).
  injection Hset as <-. cbn [as_accounts as_next as_currencies as_balances].
  assert (same_currencies (as_currencies st) m ∧ (∀ d cur, as_currencies st !! d = Some cur → m !! d = Some (ccstorage.with_Supply cur
    (cur_Supply cur + (match as_accounts st !! a with None => amount_of (acc_GetCoins acc) d | Some _ => 0 end)))) ∧
    (as_accounts st !! a = None → registered (as_currencies st) (acc_GetCoins acc))) as (Hs & Hsup & Hreg).
  { destruct (as_accounts st !! a) as [old|] eqn:E.
    - injection Hm as <-. split; [done|]. split; [|done]. intros d cur Ed. rw Z.add_0_r Ed. by destruct cur.
    - destruct (add_supplies_spec _ _ _ Hnd Hm) as (Hs & Hr & Hsup). by split; [done|]; split. }
  split_and!; [done..| | | |done].
  - intros x Hx. unfold set_account. by rw decide_False.
  - intros x d. unfold auth_spec.vm_amount. cbn [as_currencies as_balances]. rw (same_currencies_amount _ _ _ _ Hs). unfold set_account.
    destruct (decide (x = a)) as [->|]; [|done]. rw -(same_currencies_amount _ _ _ _ Hs) set_coins_amount.
    pose proof (same_currencies_Some _ _ d Hs) as Hi. destruct (m !! d), (as_currencies st !! d); try done;
      [by destruct (proj1 Hi (mk_is_Some _ _ eq_refl))|by destruct (proj2 Hi (mk_is_Some _ _ eq_refl))].
  - intros d. unfold auth_spec.supply. cbn [as_currencies]. destruct (as_currencies st !! d) as [cur|] eqn:Ed; [by rw (Hsup d cur Ed)|].
    destruct (m !! d) eqn:Em; [exfalso; destruct (proj1 (same_currencies_Some _ _ d Hs)) as [? ?]; [by eexists|congruence]|].
    destruct (as_accounts st !! a) eqn:Ea; [done|]. rw amount_of_absent; [done|]. intros (c & -> & Hc)%list_elem_of_fmap. destruct (Hreg eq_refl c Hc). congruence.
Qed.

Lemma set_account_synced st acc st' : coins_fit (acc_GetCoins acc) → coins_valid (acc_GetCoins acc) →
  registered (as_currencies st) (acc_GetCoins acc) → auth_spec.set_account st acc = Ok st' → synced st' (acc_GetAddress acc).
Proof.
  intros Hfit Hv Hreg Hset. destruct (set_account_effect _ _ _ Hfit Hset) as (Ea & _ & _ & _ & Hvm & _). unfold synced.
  rw Ea lookup_insert_eq. split; [done|]. intros d. rw Hvm decide_True; [|done]. destruct (as_currencies st !! d) as [cur|] eqn:E; [done|].
  apply amount_of_absent. intros (c & -> & Hc)%list_elem_of_fmap. destruct (Hreg c Hc). congruence.
Qed.

Lemma vm_amount_registered st a d : auth_spec.vm_amount st a d ≠ 0 → is_Some (as_currencies st !! d).
Proof. unfold auth_spec.vm_amount, balance_spec.amount. by destruct (as_currencies st !! d). Qed.

Lemma synced_registered st a acc : as_accounts st !! a = Some acc → synced st a → registered (as_currencies st) (acc_GetCoins acc).
Proof.
  intros E. unfold synced. rw E. intros [[Hnd Hpos] Heq] c Hc. apply (vm_amount_registered st a). rw -Heq (coin_amount _ c Hnd Hc).
  rewrite Forall_forall in Hpos. specialize (Hpos _ Hc). lia.
Qed.

(** Accounts other than the stored one stay synced. *)
Lemma set_account_other st acc st' x : coins_fit (acc_GetCoins acc) → auth_spec.set_account st acc = Ok st' → x ≠ acc_GetAddress acc →
  synced st x → synced st' x.
Proof.
  intros Hfit Hset Hx Hsy. destruct (set_account_effect _ _ _ Hfit Hset) as (Ea & _ & Hs & Hb & Hvm & _).
  unfold synced in *. rw Ea lookup_insert_ne; [|done]. destruct (as_accounts st !! x) as [acc'|].
  - split; [apply Hsy|]. intros d. rw Hvm decide_False; [|done]. apply Hsy.
  - unfold auth_spec.vm_knows in *. rw Hb; [|done]. apply not_true_is_false. intros (d & Hd & Hr)%some_resource_true.
    apply (same_currencies_Some _ _ _ Hs) in Hd. assert (balance_spec.some_resource (as_currencies st) (as_balances st x) = true) as Ht
      by (apply some_resource_true; by exists d). congruence.
Qed.

Section theorems.
Context `{SdkTypesLaws} `{SdkCoinsLaws} `{!CoinsEqualLaws} `{KVStoreLaws} `{LG : Ledger} `{VS : !VMStorage}.
Context (clients : string → Prop) (vm_store : string) `{VSL : !VMStorageLaws clients vm_store}.
Context `{GL : Glav} `{LI : !Lcs ccstorage.ResCurrencyInfo} `{LB : !Lcs ccstorage.ResBalance} `{CC : !Codec Currency}.
Context `{AuthAccountsLaws} `{AK : !AccountKeeper} (acc_store : string) `{AKL : !AccountKeeperLaws acc_store}.
Variable ccsPerms : ModulePermissions.
Hypothesis own_perms : mp_name ccsPerms = ccstorage.ModuleName.
Hypothesis admitted : clients ccstorage.ModuleName.
Hypothesis granted : ∀ perm, perm ∈ snd vmauth.RequestCCStoragePerms → Check ccsPerms vmauth.CallerName perm = Ok tt.
Hypothesis other_store : vm_store ≠ ccstorage.StoreKey.
Hypothesis own_store : acc_store ∉ [ccstorage.StoreKey; vm_store].
Hypothesis lcs_info : ∀ i : ccstorage.ResCurrencyInfo, 0 ≤ ccstorage.rci_TotalSupply i < 2 ^ 128 → ∃ bz, lcs_Marshal i = Ok bz.
Hypothesis lcs_balance : ∀ b : ccstorage.ResBalance, fits128 (ccstorage.rb_Value b) → ∃ bz, lcs_Marshal b = Ok bz.
Import vmauth.
Implicit Types (c : Ctx) (m : gmap string Currency) (d : string) (a : AccAddress) (st : auth_state) (acc : Account) (cs : list Coin).

Notation auth_holds := (auth_holds clients vm_store acc_store).
Notation auth_frame := (auth_frame vm_store acc_store).
Notation set_run := (SetAccount_run clients vm_store acc_store ccsPerms own_perms admitted granted other_store own_store lcs_info lcs_balance).
Notation get_run := (GetAccount_run clients vm_store acc_store ccsPerms own_perms admitted granted other_store own_store lcs_info lcs_balance).

(** A stored account, run. *)
Lemma SetAccount_ok_run acc caller c st : auth_holds c st → denoms_ok (as_currencies st) → storable st acc →
  (as_accounts st !! acc_GetAddress acc = None → registered (as_currencies st) (acc_GetCoins acc)) →
  ∃ c' st', SetAccount ccsPerms acc caller c = (Ok tt, c') ∧ auth_spec.set_account st acc = Ok st' ∧ auth_holds c' st' ∧ auth_frame c c'.
Proof.
  intros Hs Hden Hso Hreg. pose proof (set_run acc caller c st Hs Hden Hso) as Hr.
  assert (∃ st', auth_spec.set_account st acc = Ok st') as [st' E].
  { unfold auth_spec.set_account. destruct (as_accounts st !! acc_GetAddress acc); [by eexists|].
    destruct (add_supplies_ok (as_currencies st) (acc_GetCoins acc)) as [m' ->]; [apply (so_coins _ _ Hso)|by apply Hreg|by eexists]. }
  rw E in Hr. destruct Hr as (c' & Hrun & Hs' & Hf). by exists c', st'.
Qed.

(** C25: storing an account makes the VM's resources of it its coins, for every registered
    denomination, and touches no other account; the coins of an account that was not
    known are added to the supplies of their currencies, and it is a panic when one of
    them is not registered. *)
Theorem SetAccount_mirrors acc caller c st :
  auth_holds c st → denoms_ok (as_currencies st) → storable st acc →
  let a := acc_GetAddress acc in
  (as_accounts st !! a ≠ None ∨ registered (as_currencies st) (acc_GetCoins acc) →
    ∃ c' st', SetAccount ccsPerms acc caller c = (Ok tt, c') ∧ auth_holds c' st' ∧ auth_frame c c' ∧
      as_accounts st' = <[a := acc]> (as_accounts st) ∧
      (∀ x d, is_Some (as_currencies st !! d) →
         auth_spec.vm_amount st' x d = if decide (x = a) then amount_of (acc_GetCoins acc) d else auth_spec.vm_amount st x d) ∧
      (∀ d, auth_spec.supply st' d = auth_spec.supply st d +
         match as_accounts st !! a with None => amount_of (acc_GetCoins acc) d | Some _ => 0 end)) ∧
  (as_accounts st !! a = None → ¬ registered (as_currencies st) (acc_GetCoins acc) →
    ∃ c', SetAccount ccsPerms acc caller c = (Panic, c')).
Proof.
  intros Hs Hden Hso a. split.
  - intros Hknown. destruct (SetAccount_ok_run acc caller c st Hs Hden Hso) as (c' & st' & Hrun & Hset & Hs' & Hf).
    { intros E. by destruct Hknown. }
    exists c', st'. destruct (set_account_effect _ _ _ (so_coins _ _ Hso) Hset) as (Ea & _ & _ & _ & Hvm & Hsup & _).
    split_and!; [done..| |done]. intros x d [cur E]. rw Hvm E. done.
  - intros E Hreg. pose proof (set_run acc caller c st Hs Hden Hso) as Hr.
    destruct (auth_spec.set_account st acc) as [st'|e|] eqn:Hset; [|exact Hr|done].
    destruct (set_account_effect _ _ _ (so_coins _ _ Hso) Hset) as (_ & _ & _ & _ & _ & _ & Hr'). by destruct (Hreg (Hr' E)).
Qed.

(** *** Reading *)
Lemma GetAccount_synced a caller c st : auth_holds c st → denoms_ok (as_currencies st) → addr_ok a → synced st a →
  GetAccount ccsPerms a caller c = (Ok (as_accounts st !! a), c).
Proof.
  intros Hs Hden Ha Hsy.
  assert (readable st a) as Hr.
  { unfold readable. unfold synced in Hsy. destruct (as_accounts st !! a) as [acc|]; [|by rw Hsy].
    split; [apply Hsy|]. intros cs [Hv Hcs]. right. assert (cs ≡ₚ acc_GetCoins acc) as Hp; [|by rewrite Hp].
    apply coins_amounts_perm; [done|apply Hsy|]. intros d. by rw Hcs (proj2 Hsy). }
  pose proof (get_run a caller c st Hs Hden Ha Hr) as Hrun. destruct (auth_spec.vm_knows st a) eqn:Hk; [|done].
  destruct Hrun as (cs & [Hv Hcs] & Hrun). unfold read_account in Hrun. unfold synced in Hsy.
  destruct (as_accounts st !! a) as [acc|]; [|congruence]. rw decide_True in Hrun; [done|].
  apply coins_amounts_perm; [done|apply Hsy|]. intros d. by rw Hcs (proj2 Hsy).
Qed.

(** What reading account [a] finds and leaves: the account with the VM's coins in place
    of its own, nothing else changed; a new one when only the VM knows it. *)
Record read_outcome st a (found : option Account) st' : Prop := {
  ro_account : as_accounts st' !! a = found;
  ro_synced : auth_spec.vm_knows st a = true → synced st' a;
  ro_vm x d : auth_spec.vm_amount st' x d = auth_spec.vm_amount st x d;
  ro_others x : x ≠ a → as_accounts st' !! x = as_accounts st !! x;
  ro_currencies : same_currencies (as_currencies st) (as_currencies st');
  ro_next : as_next st' = match as_accounts st !! a, found with None, Some _ => wrap64 (as_next st + 1) | _, _ => as_next st end;
  ro_found : match as_accounts st !! a, found with
    | Some acc, Some acc' => acc' = with_Coins (acc_GetCoins acc') acc ∧ ∀ d, auth_spec.supply st' d = auth_spec.supply st d
    | None, Some acc' => acc' = Account_base (MkBaseAccount a (acc_GetCoins acc') None (as_next st) 0) ∧
        ∀ d, auth_spec.supply st' d = auth_spec.supply st d + auth_spec.vm_amount st a d
    | None, None => auth_spec.vm_knows st a = false
    | Some _, None => False
    end;
}.

(** C26: reading an account of which the VM knows no balances, or whose coins are the VM's,
    returns what is stored, or nothing, and changes nothing.  Otherwise it takes over
    what the VM made of the balances: the account found has the VM's coins in place of
    its own, and is stored so; the VM's amounts and the other accounts stay, and so do
    the supplies and the account numbers.  An account only the VM knows is created with
    the next number, and its coins are added to the supplies although the VM only moved
    them.  Reading again finds the same and changes nothing.  (An account all of whose
    balances the VM deleted is one of which it knows none: it keeps its old coins.) *)
Theorem GetAccount_syncs a caller c st :
  auth_holds c st → denoms_ok (as_currencies st) → addr_ok a → readable st a →
  ∃ found c' st', GetAccount ccsPerms a caller c = (Ok found, c') ∧ auth_holds c' st' ∧ auth_frame c c' ∧
    (auth_spec.vm_knows st a = false ∨ synced st a → found = as_accounts st !! a ∧ c' = c) ∧
    read_outcome st a found st' ∧ GetAccount ccsPerms a caller c' = (Ok found, c').
Proof.
  intros Hs Hden Ha Hr. pose proof (get_run a caller c st Hs Hden Ha Hr) as Hrun.
  assert (GetAccount ccsPerms a caller c = (Ok (as_accounts st !! a), c) → (auth_spec.vm_knows st a = true → synced st a) →
    (as_accounts st !! a = None → auth_spec.vm_knows st a = false) →
    ∃ found c' st', GetAccount ccsPerms a caller c = (Ok found, c') ∧ auth_holds c' st' ∧ auth_frame c c' ∧
      (auth_spec.vm_knows st a = false ∨ synced st a → found = as_accounts st !! a ∧ c' = c) ∧
      read_outcome st a found st' ∧ GetAccount ccsPerms a caller c' = (Ok found, c')) as Hsame.
  { intros Hg Hsy Hnone. exists (as_accounts st !! a), c, st. split; [exact Hg|]. split; [done|]. split; [done|]. split; [done|]. split; [|exact Hg].
    split; [done|exact Hsy|done|done|done|by destruct (as_accounts st !! a)|]. destruct (as_accounts st !! a) as [acc|]; [|by apply Hnone]. by rw with_Coins_same. }
  destruct (auth_spec.vm_knows st a) eqn:Hk; [|by apply Hsame].
  destruct Hrun as (cs & Hcs & Hrun). destruct (read_account st a cs) as [[st0 acc]|] eqn:Hread.
  - destruct (read_account_storable _ _ _ st a cs c st0 acc Hs Ha Hcs Hr Hk Hread) as (Ea & Ecs & Em & Eaccs & Eb & Hso & _).
    destruct Hrun as (c' & st' & Hset & Hg & Hs' & Hf). exists (Some acc), c', st'.
    destruct (set_account_effect _ _ _ (so_coins _ _ Hso) Hset) as (Ea' & En & Hcur & Hb & Hvm & Hsup & _). rw Ea in Ea', Hb, Hvm, Hsup.
    assert (registered (as_currencies st0) (acc_GetCoins acc)) as Hreg.
    { rw Ecs Em. intros coin Hin. by apply (vm_coins_elem _ _ _ _ _ _ _ _ Hs Ha Hcs Hin). }
    assert (synced st' a) as Hsy by (rw -Ea; eapply set_account_synced; [apply Hso|rw Ecs; apply Hcs|done|done]).
    assert (denoms_ok (as_currencies st')) as Hden' by (eapply same_currencies_denoms; [done|by rw Em]).
    split; [done|]. split; [done|]. split; [done|]. split.
    { intros [|Hsy0]; [congruence|]. rw (GetAccount_synced a caller c st Hs Hden Ha Hsy0) in Hg. by injection Hg as -> ->. }
    split; [split; [by rw Ea' lookup_insert_eq|done|..]|].
    + intros x d. rw Hvm Em. unfold auth_spec.vm_amount at 2. rw -Em -Eb. destruct (decide (x = a)) as [->|]; [|done].
      rw Ecs (proj2 Hcs). unfold auth_spec.vm_amount, balance_spec.amount. rw -Em -Eb. by destruct (as_currencies st0 !! d).
    + intros x Hx. by rw Ea' Eaccs lookup_insert_ne.
    + by rw -Em.
    + rw En. unfold read_account in Hread. destruct (as_accounts st !! a); [destruct (decide _); [done|]|]; by injection Hread as <- <-.
    + unfold read_account in Hread. rw Eaccs in Hsup. destruct (as_accounts st !! a) as [acc0|].
      * destruct (decide _); [done|]. injection Hread as <- <-. rw with_Coins_Coins. split; [done|]. intros d. by rw Hsup Z.add_0_r.
      * injection Hread as <- <-. split; [done|]. intros d. rw Hsup. simpl. by rw (proj2 Hcs).
    + rw (GetAccount_synced _ _ _ _ Hs' Hden' Ha Hsy). by rw Ea' lookup_insert_eq.
  - apply Hsame; [done|..].
    + intros _. unfold synced. unfold read_account in Hread. destruct (as_accounts st !! a) as [acc|] eqn:E; [|done].
      destruct (decide _) as [Hp|]; [|done]. unfold readable in Hr. rw E in Hr. split; [apply Hr|]. intros d. rw -(proj2 Hcs).
      symmetry. apply coins_amounts_perm; [apply Hcs|apply Hr|done].
    + unfold read_account in Hread. by destruct (as_accounts st !! a).
Qed.
End theorems.

(** ** Accounts: the zero-height squash

    Removing and renaming coins act on the amounts of every account; [squash_effects]
    lists what the options ask for, in the order it is done, and the theorem says that
    the accounts, and the VM's resources with them, end up with exactly that. *)
Local Open Scope string_scope.
Local Open Scope Z_scope.
Local Open Scope list_scope.

(** ** Effects on amounts *)
Inductive effect := Remove (d : string) | Rename (d d' : string).

Definition apply_effect (e : effect) (f : string → Z) : string → Z := λ x,
  match e with
  | Remove d => if decide (x = d) then 0 else f x
  | Rename d d' => (if decide (x = d) then 0 else f x) + (if decide (x = d') then f d else 0)
  end.
Definition apply_effects (es : list effect) (f : string → Z) : string → Z := foldl (λ f e, apply_effect e f) f es.

(** All removals come before all renamings. *)
Definition removal (op : vmauth.accountBalanceOperation) : option effect :=
  if vmauth.abo_Remove op then Some (Remove (vmauth.abo_Denom op)) else None.
Definition renaming (op : vmauth.accountBalanceOperation) : option effect :=
  if bool_decide (vmauth.abo_RenameTo op = "") then None else Some (Rename (vmauth.abo_Denom op) (vmauth.abo_RenameTo op)).
Definition squash_effects (ops : list vmauth.accountBalanceOperation) : list effect := omap removal ops ++ omap renaming ops.

(** The amounts stay within 128 bits on the way. *)
Fixpoint effects_fit (es : list effect) (f : string → Z) : Prop :=
  match es with
  | [] => True
  | e :: es' => (∀ d, apply_effect e f d < 2 ^ 128) ∧ effects_fit es' (apply_effect e f)
  end.

(** The denominations are valid, new names are registered. *)
Definition effect_ok `{SdkTypes} (m : gmap string Currency) (e : effect) : Prop :=
  match e with
  | Remove d => ValidateDenom d = true
  | Rename d d' => ValidateDenom d = true ∧ is_Some (m !! d')
  end.

Lemma apply_effect_ext e f g : (∀ d, f d = g d) → ∀ d, apply_effect e f d = apply_effect e g d.
Proof. intros Hfg d. unfold apply_effect. destruct e; by rw !Hfg. Qed.
Lemma apply_effects_ext es f g : (∀ d, f d = g d) → ∀ d, apply_effects es f d = apply_effects es g d.
Proof. revert f g. induction es as [|e es IH]; intros f g Hfg d; [done|]. apply IH. by apply apply_effect_ext. Qed.
Lemma effects_fit_ext es f g : (∀ d, f d = g d) → effects_fit es f → effects_fit es g.
Proof.
  revert f g. induction es as [|e es IH]; intros f g Hfg; [done|]. intros [H1 H2]. split.
  - intros d. by rewrite -(apply_effect_ext e f g Hfg).
  - eapply IH; [|exact H2]. by apply apply_effect_ext.
Qed.
Lemma apply_effect_nonneg e f : (∀ d, 0 ≤ f d) → ∀ d, 0 ≤ apply_effect e f d.
Proof. intros Hf d. unfold apply_effect. pose proof (Hf d). destruct e as [d0|d0 d1]; [by case_decide|]. pose proof (Hf d0). repeat case_decide; lia. Qed.

(** The list operations of an effect. *)
Definition effect_coins `{SdkTypes} `{SdkCoins} (e : effect) : list Coin → outcome (list Coin) :=
  match e with Remove d => vmauth.removed_coins d | Rename d d' => vmauth.renamed_coins d d' end.

Section coins.
Context `{SdkTypesLaws} `{SdkCoinsLaws} `{!CoinsEqualLaws}.
Implicit Types (d : string) (cs : list Coin).

Lemma coin_of_amount d cs : ValidateDenom d = true → NoDup (coin_Denom <$> cs) → vmauth.coin_of d cs = Ok (MkCoin d (amount_of cs d)).
Proof.
  intros Hd Hnd. unfold vmauth.coin_of. rw NewCoin_ok; [|done..]. rw outcome_bind_ok.
  destruct (filter (λ coin, coin_Denom coin = d) cs) as [|coin rest] eqn:E.
  - rw amount_of_absent; [done|]. intros (coin & -> & Hin)%list_elem_of_fmap.
    assert (coin ∈ filter (λ c, coin_Denom c = coin_Denom coin) cs) as Hf by (by apply list_elem_of_filter). rw E in Hf. by apply elem_of_nil in Hf.
  - assert (coin ∈ filter (λ c, coin_Denom c = d) cs) as [<- Hin]%list_elem_of_filter by (rw E; left). by rw coin_amount.
Qed.

(** Taking all of one denomination away. *)
Lemma take_away d cs : coins_valid cs → ValidateDenom d = true →
  ∃ r, (toDel ← NewCoins [MkCoin d (amount_of cs d)]; Coins_Sub cs toDel) = Ok r ∧ coins_valid r ∧
    ∀ x, amount_of r x = if decide (x = d) then 0 else amount_of cs x.
Proof.
  intros Hv Hd. pose proof (amount_of_nonneg cs d Hv) as Hn. destruct (decide (amount_of cs d = 0)) as [E|E].
  - rw NewCoins_zero; [|done..]. destruct (Coins_Sub_nil cs Hv) as (r & Hr & Hvr & Hx). exists r. split; [done|]. split; [done|].
    intros x. rw Hx. case_decide; [by subst|done].
  - rw NewCoins_one; [|done|simpl; lia]. destruct (Coins_Sub_ok cs (MkCoin d (amount_of cs d)) Hv) as (r & Hr & Hvr & Hx); [simpl; lia|].
    exists r. split; [done|]. split; [done|]. intros x. rw Hx amount_of_one. simpl. destruct (decide (x = d)) as [->|Hne]; [by rw decide_True; [lia|]|].
    rw decide_False; [lia|done].
Qed.

Lemma effect_coins_run e m cs : coins_valid cs → registered m cs → denoms_ok m → effect_ok m e →
  (∀ d, apply_effect e (amount_of cs) d < 2 ^ 128) →
  ∃ cs', effect_coins e cs = Ok cs' ∧ coins_valid cs' ∧ registered m cs' ∧ ∀ d, amount_of cs' d = apply_effect e (amount_of cs) d.
Proof.
  intros Hv Hreg Hden He Hfit.
  assert (∀ cs', coins_valid cs' → (∀ d, amount_of cs' d = apply_effect e (amount_of cs) d) → registered m cs') as Hreg'.
  { intros cs' [Hnd Hpos] Heq coin Hin. rewrite Forall_forall in Hpos. specialize (Hpos _ Hin). rw -(coin_amount _ _ Hnd Hin) Heq in Hpos.
    assert (∀ d, amount_of cs d ≠ 0 → is_Some (m !! d)) as Hin'.
    { intros d Hd. destruct (decide (d ∈ coin_Denom <$> cs)) as [(c & -> & Hc)%list_elem_of_fmap|Hn]; [by apply Hreg|].
      by rw amount_of_absent in Hd. }
    destruct e as [d|d d']; unfold apply_effect in Hpos.
    - case_decide; [lia|]. apply Hin'. lia.
    - destruct (decide (coin_Denom coin = d')) as [->|]; [by apply He|]. case_decide; [lia|]. apply Hin'. lia. }
  assert (∃ cs', effect_coins e cs = Ok cs' ∧ coins_valid cs' ∧ ∀ d, amount_of cs' d = apply_effect e (amount_of cs) d) as (cs' & Hr & Hvr & Hx).
  2:{ exists cs'. split; [done|]. split; [done|]. split; [by apply Hreg'|done]. }
  destruct e as [d|d d']; unfold effect_coins.
  - unfold vmauth.removed_coins. rw coin_of_amount; [|done|apply Hv]. by apply take_away.
  - destruct He as [Hd [cur Hd']]. destruct (Hden d' cur Hd') as [Hval' _]. unfold vmauth.renamed_coins. rw coin_of_amount; [|done|apply Hv].
    rw outcome_bind_ok. cbn [coin_Amount]. pose proof (amount_of_nonneg cs d Hv) as Hn. rw NewCoin_ok; [|done..]. rw outcome_bind_ok.
    destruct (take_away d cs Hv Hd) as (r & Hr & Hvr & Hx).
    destruct (NewCoins [MkCoin d (amount_of cs d)]) as [old| |]; [|done..]. rw outcome_bind_ok in Hr. rw outcome_bind_ok Hr outcome_bind_ok.
    destruct (Coins_Add_ok r (MkCoin d' (amount_of cs d)) Hvr) as (r' & Hr' & Hvr' & Hx'); [done|..].
    { simpl. rw Hx. specialize (Hfit d'). unfold apply_effect in Hfit. rw (decide_True _ _ eq_refl) in Hfit. assert (2 ^ 128 < maxInt) by done. lia. }
    exists r'. split; [done|]. split; [done|]. intros x. rw Hx' Hx amount_of_one. unfold apply_effect. simpl.
    destruct (decide (x = d')) as [->|Hne]; [by rw (decide_True _ _ eq_refl)|]. by rw (decide_False _ _ (not_eq_sym Hne)).
Qed.
End coins.

(** ** All accounts *)

(** Every account is synced and within 128 bits. *)
Definition all_synced (st : auth_state) : Prop :=
  ∀ a acc, as_accounts st !! a = Some acc → addr_ok a ∧ acc_GetAddress acc = a ∧ synced st a.

(** The account [acc] with the amounts [f] of its coins. *)
Definition with_amounts (f : string → Z) (acc : Account) (o : option Account) : Prop :=
  ∃ cs, o = Some (with_Coins cs acc) ∧ coins_valid cs ∧ ∀ d, amount_of cs d = f d.

(** The accounts of [changed] have the effects applied, the others are as they were. *)
Record squashed (es : list effect) (changed : list AccAddress) (st st' : auth_state) : Prop := {
  sq_currencies : as_currencies st' = as_currencies st;
  sq_next : as_next st' = as_next st;
  sq_synced : all_synced st';
  sq_accounts a : match as_accounts st !! a with
    | Some acc => if decide (a ∈ changed) then with_amounts (apply_effects es (amount_of (acc_GetCoins acc))) acc (as_accounts st' !! a)
                  else as_accounts st' !! a = Some acc
    | None => as_accounts st' !! a = None
    end;
}.

Section theorems.
Context `{SdkTypesLaws} `{SdkCoinsLaws} `{!CoinsEqualLaws} `{KVStoreLaws} `{LG : Ledger} `{VS : !VMStorage}.
Context (clients : string → Prop) (vm_store : string) `{VSL : !VMStorageLaws clients vm_store}.
Context `{GL : Glav} `{LI : !Lcs ccstorage.ResCurrencyInfo} `{LB : !Lcs ccstorage.ResBalance} `{CC : !Codec Currency}.
Context `{AuthAccountsLaws} `{AK : !AccountKeeper} (acc_store : string) `{AKL : !AccountKeeperLaws acc_store}.
Variable ccsPerms : ModulePermissions.
Hypothesis own_perms : mp_name ccsPerms = ccstorage.ModuleName.
Hypothesis admitted : clients ccstorage.ModuleName.
Hypothesis granted : ∀ perm, perm ∈ snd vmauth.RequestCCStoragePerms → Check ccsPerms vmauth.CallerName perm = Ok tt.
Hypothesis other_store : vm_store ≠ ccstorage.StoreKey.
Hypothesis own_store : acc_store ∉ [ccstorage.StoreKey; vm_store].
Hypothesis lcs_info : ∀ i : ccstorage.ResCurrencyInfo, 0 ≤ ccstorage.rci_TotalSupply i < 2 ^ 128 → ∃ bz, lcs_Marshal i = Ok bz.
Hypothesis lcs_balance : ∀ b : ccstorage.ResBalance, fits128 (ccstorage.rb_Value b) → ∃ bz, lcs_Marshal b = Ok bz.
Import vmauth.
Implicit Types (c : Ctx) (m : gmap string Currency) (d : string) (a : AccAddress) (st : auth_state) (acc : Account) (cs : list Coin) (e : effect).

Notation auth_holds := (auth_holds clients vm_store acc_store).
Notation auth_frame := (auth_frame vm_store acc_store).
Notation set_run := (SetAccount_ok_run clients vm_store acc_store ccsPerms own_perms admitted granted other_store own_store lcs_info lcs_balance).
Notation get_synced := (GetAccount_synced clients vm_store acc_store ccsPerms own_perms admitted granted other_store own_store lcs_info lcs_balance).

Lemma valid_fit cs : coins_valid cs → (∀ d, amount_of cs d < 2 ^ 128) → coins_fit cs.
Proof.
  intros [Hnd Hpos] Hfit. split; [done|]. intros coin Hin. rewrite Forall_forall in Hpos. specialize (Hpos _ Hin).
  rw -(coin_amount cs coin Hnd Hin) in Hpos. split; rw -(coin_amount cs coin Hnd Hin); [lia|apply Hfit].
Qed.

(** One account of the loop. *)
Lemma change_coins_run e a acc c st : auth_holds c st → denoms_ok (as_currencies st) → all_synced st → effect_ok (as_currencies st) e →
  as_accounts st !! a = Some acc → (∀ d, apply_effect e (amount_of (acc_GetCoins acc)) d < 2 ^ 128) →
  ∃ c' st', change_coins ccsPerms (effect_coins e) None (Some acc) CallerName c = (Ok (None, false), c') ∧
    auth_holds c' st' ∧ auth_frame c c' ∧ squashed [e] [a] st st'.
Proof.
  intros Hs Hden Hall He Ea Hfit. destruct (Hall a acc Ea) as (Ha & Eaddr & Hsy).
  pose proof (synced_registered st a acc Ea Hsy) as Hreg. assert (coins_valid (acc_GetCoins acc)) as Hv by (unfold synced in Hsy; rw Ea in Hsy; apply Hsy).
  destruct (effect_coins_run e _ _ Hv Hreg Hden He Hfit) as (cs & Hcs & Hvcs & Hregcs & Hamt).
  assert (coins_fit cs) as Hfitcs by (apply valid_fit; [done|]; intros d; by rw Hamt).
  destruct (set_run (with_Coins cs acc) CallerName c st Hs Hden) as (c' & st' & Hrun & Hset & Hs' & Hf).
  { split; rw ?with_Coins_Address ?with_Coins_Coins ?Eaddr; [done|done|]. by rw Ea. }
  { rw with_Coins_Address Eaddr. congruence. }
  exists c', st'. split; [|split; [done|split; [done|]]].
  - unfold change_coins. rw (M_bind_Ok _ _ _ _ _ _ (lift_Ok _ _ _ c Hcs)).
    rw (M_bind_Ok _ _ _ _ _ _ (attempt_Ok _ _ _ _ _ (lift_Ok _ _ _ c (SetCoins_ok acc cs)))). by rw (M_bind_Ok _ _ _ _ _ _ Hrun).
  - destruct (set_account_effect st (with_Coins cs acc) st') as (Eacc & En & _ & _ & Hvm & _ & _); [by rw with_Coins_Coins|done|].
    assert (as_currencies st' = as_currencies st) as Ecur.
    { unfold auth_spec.set_account in Hset. rw with_Coins_Address Eaddr Ea in Hset. by injection Hset as <-. }
    rw with_Coins_Address Eaddr in Eacc. split; [done|done|..].
    + intros x acc' Ex. destruct (decide (x = a)) as [->|Hx].
      * rw Eacc lookup_insert_eq in Ex. injection Ex as <-. rw with_Coins_Address. split; [done|]. split; [done|].
        rw -Eaddr -(with_Coins_Address cs acc). eapply set_account_synced; rw ?with_Coins_Coins; [done|done|exact Hregcs|done].
      * rw Eacc lookup_insert_ne in Ex; [|done]. destruct (Hall x acc' Ex) as (? & ? & Hx'). split; [done|]. split; [done|].
        eapply (set_account_other st (with_Coins cs acc)); rw ?with_Coins_Coins ?with_Coins_Address ?Eaddr; done.
    + intros x. destruct (decide (x = a)) as [->|Hx].
      * rw Ea decide_True; [|left]. exists cs. split; [by rw Eacc lookup_insert_eq|]. split; [done|]. exact Hamt.
      * rw Eacc lookup_insert_ne; [|done]. destruct (as_accounts st !! x); [|done]. rw decide_False; [done|]. by intros ->%list_elem_of_singleton.
Qed.

Lemma squashed_trans e l a st1 st2 st3 : a ∉ l → squashed [e] [a] st1 st2 → squashed [e] l st2 st3 → squashed [e] (a :: l) st1 st3.
Proof.
  intros Hn [E1 N1 S1' A1] [E2 N2 S2' A2]. split; [congruence|congruence|done|]. intros x. specialize (A1 x). specialize (A2 x).
  destruct (as_accounts st1 !! x) as [acc|]; [|by rw A1 in A2]. destruct (decide (x = a)) as [->|Hx].
  - rw decide_True in A1; [|left]. rw decide_True; [|left]. destruct A1 as (cs & E & Hv & Hamt). rw E in A2. rw decide_False in A2; [|done].
    by exists cs.
  - rw decide_False in A1; [|by intros ->%list_elem_of_singleton]. rw A1 in A2.
    destruct (decide (x ∈ l)); [rw decide_True; [done|by right]|]. rw decide_False; [done|]. by intros [->|?]%elem_of_cons.
Qed.

(** The loop over all accounts. *)
Lemma iterate_run e (l : list Account) c st : auth_holds c st → denoms_ok (as_currencies st) → all_synced st → effect_ok (as_currencies st) e →
  NoDup (acc_GetAddress <$> l) → (∀ acc, acc ∈ l → as_accounts st !! acc_GetAddress acc = Some acc) →
  (∀ acc d, acc ∈ l → apply_effect e (amount_of (acc_GetCoins acc)) d < 2 ^ 128) →
  ∃ c' st', iterate_accounts ccsPerms (change_coins ccsPerms (effect_coins e)) None l CallerName c = (Ok None, c') ∧
    auth_holds c' st' ∧ auth_frame c c' ∧ squashed [e] (acc_GetAddress <$> l) st st'.
Proof.
  revert c st. induction l as [|acc l IH]; intros c st Hs Hden Hall He Hnd Hin Hfit.
  { exists c, st. split; [done|]. split; [done|]. split; [done|]. split; [done|done|done|]. intros a. destruct (as_accounts st !! a) as [acc|]; [|done].
    destruct (decide _) as [Hx|]; [by apply elem_of_nil in Hx|done]. }
  rewrite fmap_cons in Hnd. apply NoDup_cons in Hnd as [Hn Hnd]. cbn [iterate_accounts]. set (a := acc_GetAddress acc) in *.
  assert (as_accounts st !! a = Some acc) as Ea by (apply Hin; left). destruct (Hall a acc Ea) as (Ha & _ & Hsy).
  rw (M_bind_Ok _ _ _ _ _ _ (get_synced a CallerName c st Hs Hden Ha Hsy)) Ea.
  destruct (change_coins_run e a acc c st Hs Hden Hall He Ea) as (c1 & st1 & Hrun1 & Hs1 & Hf1 & Hsq1); [intros d; apply Hfit; left|].
  rw (M_bind_Ok _ _ _ _ _ _ Hrun1). cbn [fst snd].
  destruct (IH c1 st1 Hs1) as (c' & st' & Hrun & Hs' & Hf & Hsq).
  - by rw (sq_currencies _ _ _ _ Hsq1).
  - apply Hsq1.
  - by rw (sq_currencies _ _ _ _ Hsq1).
  - done.
  - intros acc' Hacc'. pose proof (sq_accounts _ _ _ _ Hsq1 (acc_GetAddress acc')) as Hx. rw Hin in Hx; [|by right].
    rw decide_False in Hx; [done|]. intros E%list_elem_of_singleton. apply Hn. rw -E. apply list_elem_of_fmap. by exists acc'.
  - intros acc' d Hacc'. apply Hfit. by right.
  - exists c', st'. split; [done|]. split; [done|]. split; [by eapply auth_frame_trans|]. rewrite fmap_cons. by eapply squashed_trans.
Qed.

(** All accounts of the state have the effects applied. *)
Record squashed_all (es : list effect) st st' : Prop := {
  sa_currencies : as_currencies st' = as_currencies st;
  sa_next : as_next st' = as_next st;
  sa_synced : all_synced st';
  sa_accounts a : match as_accounts st !! a with
    | Some acc => with_amounts (apply_effects es (amount_of (acc_GetCoins acc))) acc (as_accounts st' !! a)
    | None => as_accounts st' !! a = None
    end;
}.

Definition accounts_fit (es : list effect) st : Prop :=
  ∀ a acc, as_accounts st !! a = Some acc → effects_fit es (amount_of (acc_GetCoins acc)).

Lemma change_all_run e c st : auth_holds c st → denoms_ok (as_currencies st) → all_synced st → effect_ok (as_currencies st) e →
  accounts_fit [e] st →
  ∃ c' st', change_all ccsPerms (effect_coins e) CallerName c = (Ok tt, c') ∧ auth_holds c' st' ∧ auth_frame c c' ∧ squashed_all [e] st st'.
Proof.
  intros Hs Hden Hall He Hfit. destruct (GetAllAccounts_ok CallerName c (ah_wf _ _ _ _ _ Hs)) as (l & Hget & Hnd & Hl).
  assert (∀ acc, acc ∈ l ↔ as_accounts st !! acc_GetAddress acc = Some acc) as Hl' by (intros acc; by rw Hl (ah_accounts _ _ _ _ _ Hs)).
  destruct (iterate_run e l c st Hs Hden Hall He Hnd) as (c' & st' & Hrun & Hs' & Hf & Hsq).
  - intros acc. apply Hl'.
  - intros acc d Hin%Hl'. by apply (Hfit _ _ Hin).
  - exists c', st'. split; [|split; [done|split; [done|]]].
    + unfold change_all, IterateAccounts, in_module. rw (M_bind_Ok _ _ _ c (None : option error) c'); [done|]. by rw (M_bind_Ok _ _ _ _ _ _ Hget).
    + destruct Hsq as [E N S A']. split; [done|done|done|]. intros a. specialize (A' a). destruct (as_accounts st !! a) as [acc|] eqn:Ea; [|done].
      rw decide_True in A'; [done|]. destruct (Hall a acc Ea) as (_ & <- & _). apply list_elem_of_fmap. exists acc. split; [done|]. by apply Hl'.
Qed.

Lemma with_amounts_ext f g acc o : (∀ d, f d = g d) → with_amounts f acc o → with_amounts g acc o.
Proof. intros Hfg (cs & E & Hv & Hx). exists cs. split; [done|]. split; [done|]. intros d. by rw Hx. Qed.

Lemma squashed_all_nil st : all_synced st → squashed_all [] st st.
Proof.
  intros Hall. split; [done|done|done|]. intros a. destruct (as_accounts st !! a) as [acc|] eqn:E; [|done]. exists (acc_GetCoins acc).
  rw with_Coins_same. split; [done|]. split; [|done]. destruct (Hall a acc E) as (_ & _ & Hsy). unfold synced in Hsy. rw E in Hsy. apply Hsy.
Qed.

Lemma accounts_fit_app es es' st : accounts_fit (es ++ es') st → accounts_fit es st.
Proof.
  intros Hfit a acc E. specialize (Hfit a acc E). revert Hfit. generalize (amount_of (acc_GetCoins acc)).
  induction es as [|e es IH]; intros f; [done|]. intros [H1' H2']. split; [done|]. by apply IH.
Qed.

Lemma squashed_all_app es es' st1 st2 st3 : squashed_all es st1 st2 → squashed_all es' st2 st3 → squashed_all (es ++ es') st1 st3.
Proof.
  intros [E1 N1 S1' A1] [E2 N2 S2' A2]. split; [congruence|congruence|done|]. intros x. specialize (A1 x). specialize (A2 x).
  destruct (as_accounts st1 !! x) as [acc|]; [|by rw A1 in A2]. destruct A1 as (cs & E & Hv & Hamt). rw E in A2.
  destruct A2 as (cs' & E' & Hv' & Hamt'). exists cs'. rw with_Coins_twice in E'. split; [done|]. split; [done|].
  intros d. rw Hamt' with_Coins_Coins. unfold apply_effects. rw foldl_app. by apply apply_effects_ext.
Qed.

Lemma squashed_all_fit_app es es' st1 st2 : accounts_fit (es ++ es') st1 → squashed_all es st1 st2 → accounts_fit es' st2.
Proof.
  intros Hfit [_ _ _ A1] a acc E. specialize (A1 a). destruct (as_accounts st1 !! a) as [acc0|] eqn:E0; [|congruence].
  destruct A1 as (cs & E' & Hv & Hamt). rw E in E'. injection E' as ->. rw with_Coins_Coins.
  eapply effects_fit_ext; [intros d; symmetry; apply Hamt|]. specialize (Hfit a acc0 E0). revert Hfit.
  generalize (amount_of (acc_GetCoins acc0)). clear. induction es as [|e es IH]; intros f; [done|]. intros [_ Hrest]. by apply IH.
Qed.

(** A list of operations, each with one effect or none. *)
Lemma effects_loop (f : accountBalanceOperation → M unit) (eff : accountBalanceOperation → option effect) ops c st :
  (∀ op c0, f op CallerName c0 = match eff op with Some e => change_all ccsPerms (effect_coins e) CallerName c0 | None => (Ok tt, c0) end) →
  auth_holds c st → denoms_ok (as_currencies st) → all_synced st → Forall (effect_ok (as_currencies st)) (omap eff ops) →
  accounts_fit (omap eff ops) st →
  ∃ c' st', forM ops f CallerName c = (Ok tt, c') ∧ auth_holds c' st' ∧ auth_frame c c' ∧ squashed_all (omap eff ops) st st'.
Proof.
  intros Hf. revert c st. induction ops as [|op ops IH]; intros c st Hs Hden Hall Heff Hfit.
  { exists c, st. split; [done|]. split; [done|]. split; [done|]. by apply squashed_all_nil. }
  cbn [forM]. cbn [omap list_omap] in *. pose proof (Hf op c) as Hop. destruct (eff op) as [e|].
  - apply Forall_cons in Heff as [He Heff].
    destruct (change_all_run e c st Hs Hden Hall He) as (c1 & st1 & Hrun1 & Hs1 & Hf1 & Hsq1).
    { intros a acc E. by destruct (Hfit a acc E) as [Hx _]. }
    rw Hrun1 in Hop. rw (M_bind_Ok _ _ _ _ _ _ Hop). pose proof (sa_currencies _ _ _ Hsq1) as Ecur.
    destruct (IH c1 st1 Hs1) as (c' & st' & Hrun & Hs' & Hf' & Hsq); [by rw Ecur|apply Hsq1|by rw Ecur|by eapply (squashed_all_fit_app [e])|].
    exists c', st'. split; [done|]. split; [done|]. split; [by eapply auth_frame_trans|by eapply (squashed_all_app [e])].
  - rw (M_bind_Ok _ _ _ _ _ _ Hop). by apply IH.
Qed.

(** *** Added accounts *)
Definition new_account (op : addAccountOperation) (n : Z) : Account := Account_base (MkBaseAccount (aao_Address op) (aao_Coins op) None n 0).

(** The accounts are stored one after the other, under new account numbers. *)
Inductive added : auth_state → list addAccountOperation → auth_state → Prop :=
  | added_nil st : added st [] st
  | added_cons st op ops st1 st2 :
      let acc := new_account op (as_next st) in
      let st0 := auth_spec.with_next st (wrap64 (as_next st + 1)) in
      storable st0 acc → coins_valid (aao_Coins op) → registered (as_currencies st) (aao_Coins op) →
      auth_spec.set_account st0 acc = Ok st1 → added st1 ops st2 → added st (op :: ops) st2.

Lemma added_run ops st st' c : added st ops st' → auth_holds c st → denoms_ok (as_currencies st) → all_synced st →
  ∃ c', forM ops (add_account ccsPerms) CallerName c = (Ok tt, c') ∧ auth_holds c' st' ∧ auth_frame c c' ∧
    denoms_ok (as_currencies st') ∧ all_synced st'.
Proof.
  intros Hadd. revert c. induction Hadd as [st|st op ops st1 st2 acc st0 Hso Hv Hreg Hset Hadd IH]; intros c Hs Hden Hall.
  { exists c. split; [done|]. split; [done|]. by split. }
  destruct (NewAccountWithAddress_ok (aao_Address op) CallerName c (ah_wf _ _ _ _ _ Hs)) as (s & Hnew & Hwf' & Hn & Hread).
  assert (auth_holds (set_store c acc_store s) st0) as Hs0.
  { assert (ctx_stores (set_store c acc_store s) acc_store = s) as Es by (simpl; by rw decide_True).
    split; rw ?Es; [by apply mirrored_acc, Hs|done|intros x; by rw Hread (ah_accounts _ _ _ _ _ Hs)|by rw Hn (ah_next _ _ _ _ _ Hs)]. }
  destruct (set_run acc CallerName _ st0 Hs0 Hden Hso) as (c1 & st1' & Hrun1 & Hset' & Hs1 & Hf1); [done|].
  assert (st1' = st1) as -> by congruence.
  destruct (set_account_effect _ _ _ (so_coins _ _ Hso) Hset) as (Eacc & _ & Hcur & _ & _ & _ & _).
  destruct (IH c1 Hs1) as (c' & Hrun & Hs' & Hf' & Hrest).
  - by eapply same_currencies_denoms.
  - intros a acc' E. rw Eacc in E. destruct (decide (a = acc_GetAddress acc)) as [->|Hne].
    + rw lookup_insert_eq in E. injection E as <-. split; [apply Hso|]. split; [done|]. exact (set_account_synced st0 acc st1 (so_coins _ _ Hso) Hv Hreg Hset).
    + rw lookup_insert_ne in E; [|done]. destruct (Hall a acc' E) as (? & ? & Hsy). split; [done|]. split; [done|].
      eapply (set_account_other st0 acc); [apply Hso|done|done|exact Hsy].
  - exists c'. split; [|split; [done|split; [|done]]].
    + cbn [forM]. rw (M_bind_Ok _ _ _ c tt c1); [done|]. unfold add_account. rw (M_bind_Ok _ _ _ _ _ _ Hnew).
      rw (M_bind_Ok _ _ _ _ _ _ (attempt_Ok _ _ _ _ _ (lift_Ok _ _ _ _ (SetCoins_ok _ _)))). by rw (ah_next _ _ _ _ _ Hs).
    + eapply auth_frame_trans; [apply auth_frame_acc|]. by eapply auth_frame_trans.
Qed.

(** C27: the zero-height squash first adds the accounts asked for, then removes and then
    renames coins: every account keeps its fields and ends with exactly the amounts the
    operations make of the ones it had, the VM's resources agree with them, and no
    supply changes. *)
Theorem PrepareForZeroHeight_squashes opts caller c st st1 :
  auth_holds c st → denoms_ok (as_currencies st) → all_synced st → added st (addAccountOps opts) st1 →
  Forall (effect_ok (as_currencies st1)) (squash_effects (accountBalanceOps opts)) →
  accounts_fit (squash_effects (accountBalanceOps opts)) st1 →
  ∃ c' st', PrepareForZeroHeight ccsPerms opts caller c = (Ok tt, c') ∧ auth_holds c' st' ∧ auth_frame c c' ∧
    squashed_all (squash_effects (accountBalanceOps opts)) st1 st'.
Proof.
  intros Hs Hden Hall Hadd Heff Hfit. unfold PrepareForZeroHeight, in_module.
  destruct (added_run _ _ _ c Hadd Hs Hden Hall) as (c1 & Hrun1 & Hs1 & Hf1 & Hden1 & Hall1). rw (M_bind_Ok _ _ _ _ _ _ Hrun1).
  unfold squash_effects in *. apply Forall_app in Heff as [He1 He2].
  destruct (effects_loop (λ op, if negb (abo_Remove op) then mret tt else change_all ccsPerms (removed_coins (abo_Denom op)))
    removal (accountBalanceOps opts) c1 st1) as (c2 & st2 & Hrun2 & Hs2 & Hf2 & Hsq2);
    [intros op c0; unfold removal; by destruct (abo_Remove op)|done..|by eapply accounts_fit_app|]. rw (M_bind_Ok _ _ _ _ _ _ Hrun2). pose proof (sa_currencies _ _ _ Hsq2) as Ecur.
  destruct (effects_loop (λ op, if bool_decide (abo_RenameTo op = "") then mret tt
      else change_all ccsPerms (renamed_coins (abo_Denom op) (abo_RenameTo op)))
    renaming (accountBalanceOps opts) c2 st2) as (c3 & st3 & Hrun3 & Hs3 & Hf3 & Hsq3);
    [intros op c0; unfold renaming; by destruct (bool_decide (abo_RenameTo op = ""))|done|by rw Ecur|apply Hsq2|by rw Ecur|by eapply squashed_all_fit_app|].
  exists c3, st3. split; [done|]. split; [done|]. split; [by do 2 (eapply auth_frame_trans; [eassumption|])|by eapply squashed_all_app].
Qed.
End theorems.
