(* ===== verification/GenAccounts.v ===== *)
(** * Genesis accounts ([x/genaccounts])

    The accounts of the genesis file become accounts of the chain, and back.  The account
    keeper is the one of [x/vmauth], so that storing a genesis account also fills its
    Move balances and the supplies. *)
From S2P Require Import Prelude Bytes Sdk SdkFacts DnTypes Perms Chain SdkBank Currency VMStorage CCStorage CCStorageFacts SdkAuth BalanceFacts VMAuth VMAuthFacts VMAuthTheorems.
Local Open Scope string_scope.
Local Open Scope Z_scope.

(** [sdk.Coins.Sort]: the same coins in another order. *)
Class CoinsSort := {
  Coins_Sort : list Coin → list Coin;
  Coins_Sort_perm cs : Coins_Sort cs ≡ₚ cs;
}.

Module genaccounts.

Definition ModuleName := "accounts".

Record GenesisAccount := MkGenesisAccount {
  ga_BaseAccount : BaseAccount; ga_ModuleName : string; ga_ModulePermissions : list string }.
Definition GenesisState : Type := list GenesisAccount.

Definition NewBaseAccount (address : AccAddress) (coins : list Coin) (pubKey : option PubKey) (accountNumber sequence : Z) :
    BaseAccount := MkBaseAccount address coins pubKey accountNumber sequence.

Definition NewGenesisAccountRaw (address : AccAddress) (coins : list Coin) (moduleName : string) : GenesisAccount :=
  MkGenesisAccount (NewBaseAccount address coins None 0 0) moduleName [].

(** The public key is left out. *)
Definition NewGenesisAccountI `{AuthAccounts} (acc : Account) : outcome GenesisAccount :=
  let baseAcc := NewBaseAccount (acc_GetAddress acc) (acc_GetCoins acc) None (acc_GetAccountNumber acc) (acc_GetSequence acc) in
  ba_Validate baseAcc;;
  match acc with
  | Account_module _ name permissions => Ok (MkGenesisAccount baseAcc name permissions)
  | Account_base _ => Ok (MkGenesisAccount baseAcc "" [])
  end.

Definition ToAccount `{AuthAccounts} (ga : GenesisAccount) : outcome Account :=
  if decide (ga_ModuleName ga ≠ "") then NewModuleAccount (ga_BaseAccount ga) (ga_ModuleName ga) (ga_ModulePermissions ga)
  else Ok (Account_base (ga_BaseAccount ga)).

Definition GenesisAccount_Validate `{AuthAccounts} (ga : GenesisAccount) : outcome unit := ba_Validate (ga_BaseAccount ga).

Definition Contains (gas : list GenesisAccount) (addr : AccAddress) : bool :=
  existsb (λ acc, bool_decide (ba_Address (ga_BaseAccount acc) = addr)) gas.

(** Sorting the coins of an account sorts the list the state holds. *)
Definition sort_coins `{CoinsSort} (ga : GenesisAccount) : GenesisAccount :=
  let b := ga_BaseAccount ga in
  MkGenesisAccount (MkBaseAccount (ba_Address b) (Coins_Sort (ba_Coins b)) (ba_PubKey b) (ba_AccountNumber b) (ba_Sequence b))
    (ga_ModuleName ga) (ga_ModulePermissions ga).
Definition Sanitize `{GoSort} `{CoinsSort} (gs : GenesisState) : GenesisState :=
  map sort_coins (sort_Sort (λ a b, ba_AccountNumber (ga_BaseAccount a) <? ba_AccountNumber (ga_BaseAccount b)) gs).

Definition validate_account `{SdkTypes} (addrMap : gset string) (acc : GenesisAccount) : outcome (gset string) :=
  let addrStr := AccAddress_String (ba_Address (ga_BaseAccount acc)) in
  fail_if (bool_decide (addrStr ∈ addrMap)) (Plain "duplicate account found in genesis state");;
  Ok ({[addrStr]} ∪ addrMap).
Definition ValidateGenesis `{SdkTypes} (genesisState : GenesisState) : outcome unit :=
  foldM validate_account ∅ genesisState;; Ok tt.

(** The application's state: the JSON of every module. *)
Definition GetGenesisStateFromAppState `{Codec GenesisState} (appState : gmap string string) : outcome GenesisState :=
  match appState !! ModuleName with
  | None => Ok []
  | Some bz => match Unmarshal JSON bz with Some gs => Ok gs | None => Panic end
  end.
Definition SetGenesisStateInAppState `{Codec GenesisState} (appState : gmap string string) (genesisState : GenesisState) :
    gmap string string := <[ModuleName := Marshal JSON genesisState]> appState.

Section keeper.
Context `{ST : SdkTypes} `{SC : SdkCoins} `{GS : GoSort} `{CO : CoinsSort} `{KV : KVStore} `{LG : Ledger} `{VS : !VMStorage}.
Context `{GL : Glav} `{LI : !Lcs ccstorage.ResCurrencyInfo} `{LB : !Lcs ccstorage.ResBalance} `{CC : !Codec Currency}.
Context `{AA : AuthAccounts} `{AK : !AccountKeeper}.
Variable ccsPerms : ModulePermissions.

Definition init_account (ga : GenesisAccount) : M unit :=
  acc ← lift (ToAccount ga);
  acc ← ak_NewAccount acc;
  vmauth.SetAccount ccsPerms acc.
Definition InitGenesis (genesisState : GenesisState) : M unit := forM (Sanitize genesisState) init_account.

Definition export_account (gAccounts : GenesisState) (acc : option Account) : M (GenesisState * bool) :=
  match acc with
  | None => panic
  | Some acc => match NewGenesisAccountI acc with Ok gAccount => mret ((gAccounts ++ [gAccount])%list, false) | _ => panic end
  end.
Definition ExportGenesis : M GenesisState := vmauth.IterateAccounts ccsPerms export_account [].
End keeper.
End genaccounts.

(** ** Genesis accounts: what a genesis file becomes, and the way back

    [InitGenesis] stores the accounts of the file in the order of their numbers and adds
    their coins to the supplies; [ExportGenesis] lists the accounts; importing an export
    on a fresh chain gives the same accounts, renumbered in the same order and without
    public keys. *)
Local Open Scope string_scope.
Local Open Scope Z_scope.
Local Open Scope list_scope.
Import genaccounts.

(** The permissions [supply.NewModuleAccount] accepts. *)
Definition perms_ok (ps : list string) : Prop := Forall (λ p, ∃ c s, p = String c s ∧ is_letter c = true) ps.

(** The account a genesis account stands for, and the genesis account of an account. *)
Definition account_of (ga : GenesisAccount) : Account :=
  if decide (ga_ModuleName ga ≠ "") then Account_module (ga_BaseAccount ga) (ga_ModuleName ga) (ga_ModulePermissions ga)
  else Account_base (ga_BaseAccount ga).
Definition exported (acc : Account) : GenesisAccount :=
  let baseAcc := MkBaseAccount (acc_GetAddress acc) (acc_GetCoins acc) None (acc_GetAccountNumber acc) (acc_GetSequence acc) in
  match acc with
  | Account_module _ name permissions => MkGenesisAccount baseAcc name permissions
  | Account_base _ => MkGenesisAccount baseAcc "" []
  end.
Definition ga_Address (ga : GenesisAccount) : AccAddress := ba_Address (ga_BaseAccount ga).
Definition ga_Coins (ga : GenesisAccount) : list Coin := ba_Coins (ga_BaseAccount ga).
Definition ga_Number (ga : GenesisAccount) : Z := ba_AccountNumber (ga_BaseAccount ga).

(** All coins of the accounts. *)
Definition total (gas : list GenesisAccount) (d : string) : Z := sumZ (λ ga, amount_of (ga_Coins ga) d) gas.

Lemma account_of_Address ga : acc_GetAddress (account_of ga) = ga_Address ga.
Proof. unfold account_of. by case_decide. Qed.
Lemma account_of_Coins ga : acc_GetCoins (account_of ga) = ga_Coins ga.
Proof. unfold account_of. by case_decide. Qed.
Lemma exported_Address acc : ga_Address (exported acc) = acc_GetAddress acc.
Proof. by destruct acc. Qed.
Lemma exported_Coins acc : ga_Coins (exported acc) = acc_GetCoins acc.
Proof. by destruct acc. Qed.
Lemma exported_Number acc : ga_Number (exported acc) = acc_GetAccountNumber acc.
Proof. by destruct acc. Qed.
Lemma number_Address n acc : acc_GetAddress (with_AccountNumber n acc) = acc_GetAddress acc.
Proof. by destruct acc. Qed.
Lemma number_Coins n acc : acc_GetCoins (with_AccountNumber n acc) = acc_GetCoins acc.
Proof. by destruct acc. Qed.

Lemma number_Number n acc : acc_GetAccountNumber (with_AccountNumber n acc) = n.
Proof. by destruct acc. Qed.

(** Module accounts have a name. *)
Definition module_ok (acc : Account) : Prop :=
  match acc with Account_base _ => True | Account_module _ name ps => name ≠ "" ∧ perms_ok ps end.
Lemma account_of_exported acc : module_ok acc → account_of (exported acc) = with_PubKey None acc.
Proof. destruct acc as [b|b name ps]; intros Hm; unfold account_of; simpl; [done|]. by rw decide_True; [|apply Hm]. Qed.
Lemma exported_perms acc : module_ok acc → perms_ok (ga_ModulePermissions (exported acc)).
Proof. destruct acc; simpl; [intros _; apply Forall_nil_2|by intros []]. Qed.

(** ** Sorting *)
Section sanitize.
Context `{GoSortLaws} `{CO : CoinsSort}.
Implicit Types (ga : GenesisAccount) (gs : GenesisState).

Lemma sort_coins_Address ga : ga_Address (sort_coins ga) = ga_Address ga.
Proof. done. Qed.
Lemma sort_coins_Coins ga : ga_Coins (sort_coins ga) ≡ₚ ga_Coins ga.
Proof. apply Coins_Sort_perm. Qed.
Lemma sort_coins_account ga : account_of (sort_coins ga) = with_Coins (ga_Coins (sort_coins ga)) (account_of ga).
Proof. unfold account_of. simpl. by destruct (decide (ga_ModuleName ga ≠ "")). Qed.

Lemma Sanitize_perm gs : Sanitize gs ≡ₚ sort_coins <$> gs.
Proof. unfold Sanitize. apply (fmap_Permutation sort_coins), sort_Sort_perm. Qed.
Lemma Sanitize_Addresses gs : ga_Address <$> Sanitize gs ≡ₚ ga_Address <$> gs.
Proof. by rewrite Sanitize_perm -list_fmap_compose. Qed.
Lemma Sanitize_elem gs ga : ga ∈ Sanitize gs ↔ ∃ ga0, ga = sort_coins ga0 ∧ ga0 ∈ gs.
Proof. rewrite Sanitize_perm. apply list_elem_of_fmap. Qed.
Lemma Sanitize_length gs : length (Sanitize gs) = length gs.
Proof. by rewrite Sanitize_perm length_fmap. Qed.
Lemma sumZ_fmap {A B} (g : A → B) (f : B → Z) l : sumZ f (g <$> l) = sumZ (λ x, f (g x)) l.
Proof. induction l as [|x l IH]; [done|]. rewrite fmap_cons. rw !sumZ_cons. by rw IH. Qed.
Lemma Sanitize_total gs d : total (Sanitize gs) d = total gs d.
Proof.
  unfold total. rewrite Sanitize_perm. rw sumZ_fmap. apply sumZ_ext. intros ga _. unfold amount_of. by rewrite sort_coins_Coins.
Qed.

(** Smaller numbers come first. *)
Lemma sorted_lookup {A} (R : A → A → Prop) l i j x y : StronglySorted R l → (i < j)%nat → l !! i = Some x → l !! j = Some y → R x y.
Proof.
  intros Hs Hij Hi Hj. rw -(take_drop j l) in Hs. eapply StronglySorted_app_1_elem_of; [exact Hs|..].
  - apply list_elem_of_lookup. exists i. by rewrite lookup_take_lt.
  - apply list_elem_of_lookup. exists 0%nat. by rewrite lookup_drop Nat.add_0_r.
Qed.
Lemma number_weak_order : weak_order (λ a b, ba_AccountNumber (ga_BaseAccount a) <? ba_AccountNumber (ga_BaseAccount b)).
Proof. split; intros x; [by rw Z.ltb_irrefl| |]; intros y z; rewrite ?Z.ltb_lt ?Z.ltb_ge; lia. Qed.
Lemma Sanitize_ordered gs i j a b : Sanitize gs !! i = Some a → Sanitize gs !! j = Some b → ga_Number a < ga_Number b → (i < j)%nat.
Proof.
  intros Hi Hj Hlt. destruct (decide (i < j)%nat) as [|Hge]; [done|]. exfalso.
  destruct (decide (i = j)) as [->|Hne]; [assert (a = b) by congruence; subst; lia|].
  unfold Sanitize in Hi, Hj. rewrite list_lookup_fmap in Hi. rewrite list_lookup_fmap in Hj.
  apply fmap_Some in Hi as (a0 & Hi & ->). apply fmap_Some in Hj as (b0 & Hj & ->).
  pose proof (sort_Sort_sorted _ _ gs number_weak_order) as Hs.
  pose proof (sorted_lookup _ _ j i b0 a0 Hs ltac:(lia) Hj Hi) as Hle. cbv beta in Hle. unfold ga_Number, sort_coins in Hlt. simpl in Hlt.
  apply Z.ltb_ge in Hle. lia.
Qed.
End sanitize.

(** ** Valid genesis states *)
Lemma ValidateGenesis_distinct `{SdkTypes} gs : ValidateGenesis gs = Ok tt → NoDup (ga_Address <$> gs).
Proof.
  unfold ValidateGenesis. intros Hv. apply outcome_bind_inv in Hv as (seen & Hv & _).
  assert (∀ gs (seen seen' : gset string), foldM validate_account seen gs = Ok seen' →
    NoDup (ga_Address <$> gs) ∧ ∀ ga, ga ∈ gs → AccAddress_String (ga_Address ga) ∉ seen) as Hgen; [|by apply (Hgen gs ∅ seen)].
  clear. induction gs as [|ga gs IH]; intros seen seen' Hrun.
  { split; [apply NoDup_nil_2|]. by intros ga Hx%elem_of_nil. }
  cbn [foldM] in Hrun. apply outcome_bind_inv in Hrun as (seen1 & Hone & Hrun). unfold validate_account in Hone.
  destruct (IH _ _ Hrun) as [Hnd Hout]. destruct (decide (AccAddress_String (ga_Address ga) ∈ seen)) as [Hin|Hin].
  - rw bool_decide_true in Hone; [|done]. done.
  - rw bool_decide_false in Hone; [|done]. injection Hone as <-. split.
    + rewrite fmap_cons. apply NoDup_cons. split; [|done]. intros (ga' & E & Hga')%list_elem_of_fmap. apply (Hout ga' Hga'). rw -E. set_solver.
    + intros ga' [->|Hga']%elem_of_cons; [done|]. specialize (Hout ga' Hga'). set_solver.
Qed.

(** ** Importing *)

(** What the accounts of a genesis file need: addresses of the VM's length, coins of
    registered denominations, room for all of them in the supplies. *)
Record importable (m : gmap string Currency) (gas : list GenesisAccount) : Prop := {
  im_distinct : NoDup (ga_Address <$> gas);
  im_addr ga : ga ∈ gas → addr_ok (ga_Address ga);
  im_coins ga : ga ∈ gas → coins_valid (ga_Coins ga) ∧ registered m (ga_Coins ga);
  im_perms ga : ga ∈ gas → perms_ok (ga_ModulePermissions ga);
  im_room d cur : m !! d = Some cur → 0 ≤ cur_Supply cur ∧ cur_Supply cur + total gas d < 2 ^ 128;
}.

(** The accounts [gas] are stored under the next numbers, nothing else is. *)
Record initialised (st : auth_state) (gas : list GenesisAccount) (st' : auth_state) : Prop := {
  in_stored (i : nat) ga : gas !! i = Some ga →
    as_accounts st' !! ga_Address ga = Some (with_AccountNumber (as_next st + Z.of_nat i) (account_of ga));
  in_others a : a ∉ ga_Address <$> gas → as_accounts st' !! a = as_accounts st !! a;
  in_next : as_next st' = as_next st + Z.of_nat (length gas);
  in_currencies : same_currencies (as_currencies st) (as_currencies st');
  in_supply d : auth_spec.supply st' d = auth_spec.supply st d + total gas d;
  in_synced : all_synced st';
}.

Lemma total_cons ga gas d : total (ga :: gas) d = amount_of (ga_Coins ga) d + total gas d.
Proof. done. Qed.
Lemma total_nonneg gas d : (∀ ga, ga ∈ gas → coins_valid (ga_Coins ga)) → 0 ≤ total gas d.
Proof. intros Hv. apply sumZ_nonneg. intros ga Hga. by apply amount_of_nonneg, Hv. Qed.

(** What is left to import after the first account. *)
Lemma importable_rest m ga gas st st' : importable m (ga :: gas) → m = as_currencies st → same_currencies m (as_currencies st') →
  (∀ d, auth_spec.supply st' d = auth_spec.supply st d + amount_of (ga_Coins ga) d) → importable (as_currencies st') gas.
Proof.
  intros [Hnd Ha Hc Hp Hroom] -> Hs Hsup. split.
  - rewrite fmap_cons in Hnd. by apply NoDup_cons in Hnd as [_ ?].
  - intros x Hx. apply Ha. by right.
  - intros x Hx. destruct (Hc x) as [Hv Hreg]; [by right|]. split; [done|]. intros coin Hin. apply (same_currencies_Some _ _ _ Hs). by apply Hreg.
  - intros x Hx. apply Hp. by right.
  - intros d cur E. assert (is_Some (as_currencies st !! d)) as [cur0 E0] by (apply (same_currencies_Some _ _ _ Hs); by eexists).
    specialize (Hsup d). unfold auth_spec.supply in Hsup. rw E E0 in Hsup. destruct (Hroom d cur0 E0) as [Hlo Hhi]. rw total_cons in Hhi.
    destruct (Hc ga) as [Hv _]; [left|]. pose proof (amount_of_nonneg _ d Hv). lia.
Qed.

(** The coins of the first account fit. *)
Lemma importable_fits m ga gas : importable m (ga :: gas) → coins_fit (ga_Coins ga) ∧ supplies_fit m (ga_Coins ga).
Proof.
  intros [_ _ Hc _ Hroom]. destruct (Hc ga) as [[Hnd Hpos] Hreg]; [left|]. rewrite Forall_forall in Hpos.
  assert (∀ coin cur, coin ∈ ga_Coins ga → m !! coin_Denom coin = Some cur → 0 < coin_Amount coin ∧ 0 ≤ cur_Supply cur ∧
    cur_Supply cur + coin_Amount coin < 2 ^ 128) as Hone.
  { intros coin cur Hin E. specialize (Hpos _ Hin). destruct (Hroom _ _ E) as [Hlo Hhi]. rw total_cons (coin_amount _ _ Hnd Hin) in Hhi.
    assert (0 ≤ total gas (coin_Denom coin)); [|lia]. apply total_nonneg. intros x Hx. apply Hc. by right. }
  split; [split; [done|]|].
  - intros coin Hin. destruct (Hreg _ Hin) as [cur E]. destruct (Hone _ _ Hin E). unfold fits128. lia.
  - intros coin Hin cur E. destruct (Hone _ _ Hin E). lia.
Qed.

Section theorems.
Context `{SdkTypesLaws} `{SdkCoinsLaws} `{!CoinsEqualLaws} `{GoSortLaws} `{CO : CoinsSort} `{KVStoreLaws} `{LG : Ledger} `{VS : !VMStorage}.
Context (clients : string → Prop) (vm_store : string) `{VSL : !VMStorageLaws clients vm_store}.
Context `{GL : Glav} `{LI : !Lcs ccstorage.ResCurrencyInfo} `{LB : !Lcs ccstorage.ResBalance} `{CC : !Codec Currency}.
Context `{AuthAccountsLaws} `{AK : !AccountKeeper} (acc_store : string) `{AKL : !AccountKeeperLaws acc_store}.
Variable ccsPerms : ModulePermissions.
Hypothesis own_perms : mp_name ccsPerms = ccstorage.ModuleName.
Hypothesis admitted : clients ccstorage.ModuleName.
Hypothesis granted : ∀ perm, perm ∈ snd vmauth.RequestCCStoragePerms → Check ccsPerms vmauth.CallerName perm = Ok tt.
Hypothesis other_store : vm_store ≠ ccstorage.StoreKey.
Hypothesis own_store : acc_store ∉ [ccstorage.StoreKey; vm_store].
Hypothesis lcs_info : ∀ i : ccstorage.ResCurrencyInfo, 0 ≤ ccstorage.rci_TotalSupply i < 2 ^ 128 → ∃ bz, lcs_Marshal i = Ok bz.
Hypothesis lcs_balance : ∀ b : ccstorage.ResBalance, fits128 (ccstorage.rb_Value b) → ∃ bz, lcs_Marshal b = Ok bz.
Implicit Types (c : Ctx) (d : string) (a : AccAddress) (st : auth_state) (acc : Account) (ga : GenesisAccount).

Notation auth_holds := (auth_holds clients vm_store acc_store).
Notation auth_frame := (auth_frame vm_store acc_store).
Notation set_run := (SetAccount_ok_run clients vm_store acc_store ccsPerms own_perms admitted granted other_store own_store lcs_info lcs_balance).
Notation get_synced := (GetAccount_synced clients vm_store acc_store ccsPerms own_perms admitted granted other_store own_store lcs_info lcs_balance).

Lemma ToAccount_run ga : perms_ok (ga_ModulePermissions ga) → ToAccount ga = Ok (account_of ga).
Proof. intros Hp. unfold ToAccount, account_of. case_decide; [by apply NewModuleAccount_ok|done]. Qed.

(** The state after a new account number is taken. *)
Lemma NewAccount_run acc caller c st : auth_holds c st →
  ∃ c', ak_NewAccount acc caller c = (Ok (with_AccountNumber (as_next st) acc), c') ∧
    auth_holds c' (auth_spec.with_next st (wrap64 (as_next st + 1))) ∧ auth_frame c c'.
Proof.
  intros Hs. destruct (NewAccount_ok acc caller c (ah_wf _ _ _ _ _ Hs)) as (s & Hnew & Hwf & Hn & Hread).
  exists (set_store c acc_store s). rw -(ah_next _ _ _ _ _ Hs). split; [done|]. split; [|apply auth_frame_acc].
  assert (ctx_stores (set_store c acc_store s) acc_store = s) as Es by (simpl; by rw decide_True).
  split; rw ?Es; [by eapply mirrored_acc, Hs|done|intros x; by rw Hread (ah_accounts _ _ _ _ _ Hs)|by rw Hn].
Qed.

(** One account: its effect on the state. *)
Lemma init_account_run ga gas caller c st : auth_holds c st → denoms_ok (as_currencies st) → all_synced st → importable (as_currencies st) (ga :: gas) →
  as_accounts st !! ga_Address ga = None → 0 ≤ as_next st < 2 ^ 64 - 1 →
  ∃ c' st', init_account ccsPerms ga caller c = (Ok tt, c') ∧ auth_holds c' st' ∧ auth_frame c c' ∧ all_synced st' ∧
    as_accounts st' = <[ga_Address ga := with_AccountNumber (as_next st) (account_of ga)]> (as_accounts st) ∧
    as_next st' = as_next st + 1 ∧ same_currencies (as_currencies st) (as_currencies st') ∧
    (∀ d, auth_spec.supply st' d = auth_spec.supply st d + amount_of (ga_Coins ga) d).
Proof.
  intros Hs Hden Hall Him Hnone Hn. destruct (importable_fits _ _ _ Him) as [Hfit Hsup].
  destruct (im_coins _ _ Him ga) as [Hv Hreg]; [left|]. assert (addr_ok (ga_Address ga)) as Ha by (apply (im_addr _ _ Him); left).
  set (acc := with_AccountNumber (as_next st) (account_of ga)).
  assert (acc_GetAddress acc = ga_Address ga) as Ea by (unfold acc; by rw number_Address account_of_Address).
  assert (acc_GetCoins acc = ga_Coins ga) as Ec by (unfold acc; by rw number_Coins account_of_Coins).
  destruct (NewAccount_run (account_of ga) caller c st Hs) as (c1 & Hnew & Hs1 & Hf1). fold acc in Hnew.
  set (st1 := auth_spec.with_next st (wrap64 (as_next st + 1))) in *.
  destruct (set_run acc caller c1 st1 Hs1 Hden) as (c' & st' & Hrun & Hset & Hs' & Hf').
  { split; rw ?Ea ?Ec; done. }
  { by rw Ec. }
  destruct (set_account_effect st1 acc st') as (Eacc & En & Hcur & _ & _ & Hsupply & _); [by rw Ec|done|]. rw Ea in Eacc, Hsupply. rw Ec in Hsupply.
  exists c', st'. split_and!; [|done|by eapply auth_frame_trans| |done| |done|].
  - unfold init_account. rw (M_bind_Ok _ _ _ _ _ _ (lift_Ok _ _ _ _ (ToAccount_run ga ltac:(apply (im_perms _ _ Him); left)))).
    by rw (M_bind_Ok _ _ _ _ _ _ Hnew).
  - intros a acc' E. rw Eacc in E. destruct (decide (a = ga_Address ga)) as [->|Hne].
    + rw lookup_insert_eq in E. injection E as <-. split; [done|]. split; [done|]. rw -Ea.
      apply (set_account_synced st1 acc st'); rw ?Ec; done.
    + rw lookup_insert_ne in E; [|done]. destruct (Hall a acc' E) as (? & ? & Hsy). split; [done|]. split; [done|].
      apply (set_account_other st1 acc st' a); rw ?Ec ?Ea; done.
  - rw En. simpl. unfold wrap64. apply Z.mod_small. lia.
  - intros d. rw Hsupply. change (as_accounts st1) with (as_accounts st). by rw Hnone.
Qed.

Lemma init_run gas caller c st : auth_holds c st → denoms_ok (as_currencies st) → all_synced st → importable (as_currencies st) gas →
  (∀ ga, ga ∈ gas → as_accounts st !! ga_Address ga = None) → 0 ≤ as_next st → as_next st + Z.of_nat (length gas) < 2 ^ 64 →
  ∃ c' st', forM gas (init_account ccsPerms) caller c = (Ok tt, c') ∧ auth_holds c' st' ∧ auth_frame c c' ∧ initialised st gas st'.
Proof.
  revert c st. induction gas as [|ga gas IH]; intros c st Hs Hden Hall Him Hnone Hn Hlt.
  { exists c, st. split; [done|]. split; [done|]. split; [done|]. split; [done|done|simpl; lia|done|intros d; unfold total; simpl; lia|done]. }
  cbn [length] in Hlt. pose proof (im_distinct _ _ Him) as Hnd. rewrite fmap_cons in Hnd. apply NoDup_cons in Hnd as [Hout Hnd].
  destruct (init_account_run ga gas caller c st Hs Hden Hall Him) as (c1 & st1 & Hrun1 & Hs1 & Hf1 & Hall1 & Eacc & En & Hcur & Hsup);
    [by apply Hnone; left|lia|].
  destruct (IH c1 st1 Hs1) as (c' & st' & Hrun & Hs' & Hf' & [Hst Hoth Hnx Hcu Hsu Hsy]).
  - by eapply same_currencies_denoms.
  - done.
  - by eapply importable_rest.
  - intros x Hx. rw Eacc lookup_insert_ne; [apply Hnone; by right|]. intros E. apply Hout. rw E. apply list_elem_of_fmap. by exists x.
  - lia.
  - lia.
  - exists c', st'. split; [cbn [forM]; by rw (M_bind_Ok _ _ _ _ _ _ Hrun1)|]. split; [done|]. split; [by eapply auth_frame_trans|]. split.
    + intros [|i] x Hx; simpl in Hx.
      * injection Hx as <-. rw Hoth; [|done]. by rw Eacc lookup_insert_eq Z.add_0_r.
      * rw (Hst i x Hx) En. do 2 f_equal. lia.
    + intros a Hx. rewrite fmap_cons in Hx. apply not_elem_of_cons in Hx as [Hne Hx]. by rw Hoth; [|done]; rw Eacc lookup_insert_ne.
    + rw Hnx En. simpl. lia.
    + by eapply same_currencies_trans.
    + intros d. rw Hsu Hsup total_cons. lia.
    + done.
Qed.

(** The sanitized state is as importable as the one given. *)
Lemma importable_Sanitize m gs : importable m gs → importable m (Sanitize gs).
Proof.
  intros [Hnd Ha Hc Hp Hroom]. split.
  - by rewrite Sanitize_Addresses.
  - intros ga (ga0 & -> & Hin)%Sanitize_elem. by apply (Ha ga0).
  - intros ga (ga0 & -> & Hin)%Sanitize_elem. destruct (Hc _ Hin) as [[Hd Hpos] Hreg]. pose proof (sort_coins_Coins ga0) as Hperm.
    split; [split; rewrite Hperm; [exact Hd|exact Hpos]|]. intros coin Hcoin. apply Hreg. rewrite -Hperm. exact Hcoin.
  - intros ga (ga0 & -> & Hin)%Sanitize_elem. by apply (Hp ga0).
  - intros d cur E. rw Sanitize_total. by apply Hroom.
Qed.

Lemma InitGenesis_run gs caller c st : auth_holds c st → denoms_ok (as_currencies st) → as_accounts st = ∅ → importable (as_currencies st) gs →
  0 ≤ as_next st → as_next st + Z.of_nat (length gs) < 2 ^ 64 →
  ∃ c' st', InitGenesis ccsPerms gs caller c = (Ok tt, c') ∧ auth_holds c' st' ∧ auth_frame c c' ∧ initialised st (Sanitize gs) st'.
Proof.
  intros Hs Hden Hempty Him Hn Hlt. apply init_run; [done|done| |by apply importable_Sanitize| |done|by rw Sanitize_length].
  - intros a acc E. by rw Hempty in E.
  - intros ga _. by rw Hempty.
Qed.

(** Importing a valid genesis file on a chain without accounts stores exactly its
    accounts, numbered in the order of their numbers in the file; the VM holds their
    coins, and each supply grows by what the accounts have together. *)
Theorem InitGenesis_stores gs caller c st :
  auth_holds c st → denoms_ok (as_currencies st) → as_accounts st = ∅ → 0 ≤ as_next st → as_next st + Z.of_nat (length gs) < 2 ^ 64 →
  ValidateGenesis gs = Ok tt →
  (∀ ga, ga ∈ gs → addr_ok (ga_Address ga) ∧ coins_valid (ga_Coins ga) ∧ registered (as_currencies st) (ga_Coins ga) ∧
    perms_ok (ga_ModulePermissions ga)) →
  (∀ d cur, as_currencies st !! d = Some cur → 0 ≤ cur_Supply cur ∧ cur_Supply cur + total gs d < 2 ^ 128) →
  ∃ c' st', InitGenesis ccsPerms gs caller c = (Ok tt, c') ∧ auth_holds c' st' ∧ auth_frame c c' ∧ all_synced st' ∧
    (∀ ga, ga ∈ gs → ∃ i, (i < length gs)%nat ∧ as_accounts st' !! ga_Address ga =
       Some (with_AccountNumber (as_next st + Z.of_nat i) (account_of (sort_coins ga)))) ∧
    (∀ a acc, as_accounts st' !! a = Some acc → a ∈ ga_Address <$> gs) ∧
    (∀ a b : GenesisAccount, a ∈ gs → b ∈ gs → ga_Number a < ga_Number b → ∃ acc acc', as_accounts st' !! ga_Address a = Some acc ∧
       as_accounts st' !! ga_Address b = Some acc' ∧ acc_GetAccountNumber acc < acc_GetAccountNumber acc') ∧
    (∀ d, auth_spec.supply st' d = auth_spec.supply st d + total gs d).
Proof.
  intros Hs Hden Hempty Hn Hlt Hval Hgs Hroom.
  assert (importable (as_currencies st) gs) as Him.
  { split; [by apply ValidateGenesis_distinct| | | |done]; intros ga Hga; destruct (Hgs ga Hga) as (? & ? & ? & ?); [done|done|done]. }
  destruct (InitGenesis_run gs caller c st Hs Hden Hempty Him Hn Hlt) as (c' & st' & Hrun & Hs' & Hf & [Hst Hoth _ _ Hsup Hsy]).
  exists c', st'. split_and!; [done..| | | |].
  - intros ga Hga. assert (sort_coins ga ∈ Sanitize gs) as [i Hi]%list_elem_of_lookup by (apply Sanitize_elem; by exists ga).
    exists i. split; [rw -Sanitize_length; by eapply lookup_lt_Some|exact (Hst i _ Hi)].
  - intros a acc E. destruct (decide (a ∈ ga_Address <$> gs)) as [|Hout]; [done|]. rw Hoth in E; [by rw Hempty in E|].
    by rewrite Sanitize_Addresses.
  - intros a b Ha Hb Hab. assert (sort_coins a ∈ Sanitize gs) as [i Hi]%list_elem_of_lookup by (apply Sanitize_elem; by exists a).
    assert (sort_coins b ∈ Sanitize gs) as [j Hj]%list_elem_of_lookup by (apply Sanitize_elem; by exists b).
    pose proof (Sanitize_ordered gs i j _ _ Hi Hj Hab). eexists _, _. split; [exact (Hst i _ Hi)|]. split; [exact (Hst j _ Hj)|].
    rw !number_Number. lia.
  - intros d. by rw Hsup Sanitize_total.
Qed.

(** ** Exporting *)
Lemma export_run (l : list Account) gs caller c st : auth_holds c st → denoms_ok (as_currencies st) → all_synced st →
  (∀ acc, acc ∈ l → as_accounts st !! acc_GetAddress acc = Some acc) →
  vmauth.iterate_accounts ccsPerms export_account gs l caller c = (Ok (gs ++ (exported <$> l)), c).
Proof.
  intros Hs Hden Hall. revert gs. induction l as [|acc l IH]; intros gs Hin; [by rw app_nil_r|]. cbn [vmauth.iterate_accounts].
  pose proof (Hin acc ltac:(left)) as E. destruct (Hall _ _ E) as (Ha & _ & Hsy).
  rw (M_bind_Ok _ _ _ _ _ _ (get_synced _ caller c st Hs Hden Ha Hsy)) E.
  assert (export_account gs (Some acc) caller c = (Ok (gs ++ [exported acc], false), c)) as Hone.
  { unfold export_account, NewGenesisAccountI. rw Validate_without_key; [|done]. rw outcome_bind_ok. by destruct acc. }
  rw (M_bind_Ok _ _ _ _ _ _ Hone). cbn [fst snd]. rw IH; [|intros x Hx; apply Hin; by right]. rewrite fmap_cons. by rw -app_assoc.
Qed.

Lemma ExportAccounts_run caller c st : auth_holds c st → denoms_ok (as_currencies st) → all_synced st →
  ∃ l, ExportGenesis ccsPerms caller c = (Ok (exported <$> l), c) ∧ NoDup (acc_GetAddress <$> l) ∧
    ∀ acc, acc ∈ l ↔ as_accounts st !! acc_GetAddress acc = Some acc.
Proof.
  intros Hs Hden Hall. destruct (GetAllAccounts_ok vmauth.CallerName c (ah_wf _ _ _ _ _ Hs)) as (l & Hget & Hnd & Hl).
  assert (∀ acc, acc ∈ l ↔ as_accounts st !! acc_GetAddress acc = Some acc) as Hl' by (intros acc; by rw Hl (ah_accounts _ _ _ _ _ Hs)).
  exists l. split; [|done]. unfold ExportGenesis, vmauth.IterateAccounts, in_module. rw (M_bind_Ok _ _ _ _ _ _ Hget).
  rw (export_run l [] vmauth.CallerName c st Hs Hden Hall); [done|]. intros acc. apply Hl'.
Qed.

(** C28: what a chain exports, another chain without accounts imports whenever its
    currencies have room for it: every account comes back with its address, sequence,
    module data and coins (in another order), without its public key, and the accounts'
    numbers keep their order; there are no others. *)
Theorem ExportGenesis_roundtrip caller c st :
  auth_holds c st → denoms_ok (as_currencies st) → all_synced st → (∀ a acc, as_accounts st !! a = Some acc → module_ok acc) →
  ∃ gs, ExportGenesis ccsPerms caller c = (Ok gs, c) ∧ ∀ caller2 c2 st2,
    auth_holds c2 st2 → denoms_ok (as_currencies st2) → as_accounts st2 = ∅ → 0 ≤ as_next st2 → as_next st2 + Z.of_nat (length gs) < 2 ^ 64 →
    (∀ d, is_Some (as_currencies st !! d) → is_Some (as_currencies st2 !! d)) →
    (∀ d cur, as_currencies st2 !! d = Some cur → 0 ≤ cur_Supply cur ∧ cur_Supply cur + total gs d < 2 ^ 128) →
    ∃ c' st', InitGenesis ccsPerms gs caller2 c2 = (Ok tt, c') ∧ auth_holds c' st' ∧ all_synced st' ∧
      (∀ a, match as_accounts st !! a with
        | Some acc => ∃ cs n, cs ≡ₚ acc_GetCoins acc ∧
            as_accounts st' !! a = Some (with_AccountNumber n (with_Coins cs (with_PubKey None acc)))
        | None => as_accounts st' !! a = None
        end) ∧
      (∀ a b acca accb, as_accounts st !! a = Some acca → as_accounts st !! b = Some accb →
        acc_GetAccountNumber acca < acc_GetAccountNumber accb → ∃ acca' accb', as_accounts st' !! a = Some acca' ∧
          as_accounts st' !! b = Some accb' ∧ acc_GetAccountNumber acca' < acc_GetAccountNumber accb').
Proof.
  intros Hs Hden Hall Hmod. destruct (ExportAccounts_run caller c st Hs Hden Hall) as (l & Hexp & Hnd & Hl).
  exists (exported <$> l). split; [done|]. intros caller2 c2 st2 Hs2 Hden2 Hempty Hn Hlt Hreg Hroom.
  assert (∀ acc, acc ∈ l → addr_ok (acc_GetAddress acc) ∧ coins_valid (acc_GetCoins acc) ∧ registered (as_currencies st2) (acc_GetCoins acc) ∧ module_ok acc) as Hacc.
  { intros acc Hin%Hl. destruct (Hall _ _ Hin) as (Ha & _ & Hsy). pose proof (synced_registered st _ acc Hin Hsy) as Hr.
    unfold synced in Hsy. rw Hin in Hsy. split; [done|]. split; [apply Hsy|]. split; [|by eapply Hmod]. intros coin Hcoin. by apply Hreg, Hr. }
  assert (importable (as_currencies st2) (exported <$> l)) as Him.
  { split; [|intros ga (acc & -> & Hin)%list_elem_of_fmap; destruct (Hacc acc Hin) as (? & ? & ? & ?)..|done].
    - rewrite -list_fmap_compose. rw (list_fmap_ext _ acc_GetAddress l); [done|]. intros i acc _. apply exported_Address.
    - by rw exported_Address.
    - by rw exported_Coins.
    - by apply exported_perms. }
  destruct (InitGenesis_run _ caller2 c2 st2 Hs2 Hden2 Hempty Him Hn Hlt) as (c' & st' & Hrun & Hs' & Hf & [Hst Hoth _ _ Hsup Hsy]).
  assert (∀ acc, acc ∈ l → ∃ i, Sanitize (exported <$> l) !! i = Some (sort_coins (exported acc))) as Hidx.
  { intros acc Hin. apply list_elem_of_lookup, Sanitize_elem. exists (exported acc). split; [done|]. apply list_elem_of_fmap. by exists acc. }
  assert (∀ acc i, acc ∈ l → Sanitize (exported <$> l) !! i = Some (sort_coins (exported acc)) →
    as_accounts st' !! acc_GetAddress acc = Some (with_AccountNumber (as_next st2 + Z.of_nat i)
      (with_Coins (ga_Coins (sort_coins (exported acc))) (with_PubKey None acc)))) as Hacc'.
  { intros acc i Hin Hi. rw -(exported_Address acc) -(sort_coins_Address (exported acc)) (Hst i _ Hi) sort_coins_account.
    by rw account_of_exported; [|by apply Hacc]. }
  exists c', st'. split; [done|]. split; [done|]. split; [done|]. split.
  - intros a. destruct (as_accounts st !! a) as [acc|] eqn:E.
    + destruct (Hall a acc E) as (_ & <- & _). assert (acc ∈ l) as Hin by (by apply Hl). destruct (Hidx acc Hin) as [i Hi].
      eexists _, _. split; [|by apply Hacc']. rw -(exported_Coins acc). apply sort_coins_Coins.
    + rw Hoth; [by rw Hempty|]. rewrite Sanitize_Addresses -list_fmap_compose. intros (acc & -> & Hin%Hl)%list_elem_of_fmap.
      rw /= exported_Address in E. congruence.
  - intros a b acca accb Ea Eb Hab. destruct (Hall a acca Ea) as (_ & <- & _). destruct (Hall b accb Eb) as (_ & <- & _).
    assert (acca ∈ l) as Hina by (by apply Hl). assert (accb ∈ l) as Hinb by (by apply Hl).
    destruct (Hidx acca Hina) as [i Hi]. destruct (Hidx accb Hinb) as [j Hj]. eexists _, _.
    split; [by apply Hacc'|]. split; [by apply Hacc'|].
    assert (i < j)%nat as Hij. { eapply Sanitize_ordered; [exact Hi|exact Hj|]. destruct acca, accb; exact Hab. }
    rw !number_Number. lia.
Qed.
End theorems.
