(* ===== verification/VMAuthWitnesses.v ===== *)
(** * Accounts: the theorems on a concrete chain

    Two currencies, an account with 1000 units of the staking coin and one that only the
    VM knows; the coin is renamed by a squash, and the account is exported to another
    chain. *)
From S2P Require Import Prelude Bytes Sdk SdkRef SdkFacts DnTypes Perms Chain SdkBank Currency VMStorage CCStorage Scenario CCStorageFacts SdkAuth.
From S2P Require Import BalanceFacts VMAuth VMAuthFacts VMAuthTheorems GenAccounts.
Local Open Scope string_scope.
Local Open Scope Z_scope.
Local Open Scope list_scope.

#[local] Existing Instance Bank_ledger.
#[local] Existing Instance Bank_ledger_laws.

(** ** Codecs and the VM's formats *)
#[export] Instance coin_countable : Countable Coin.
Proof. refine (inj_countable' (λ c, (coin_Denom c, coin_Amount c)) (λ x, MkCoin x.1 x.2) _). abstract (by intros []). Defined.
#[export] Instance info_eq_dec : EqDecision ccstorage.ResCurrencyInfo.
Proof. solve_decision. Defined.
#[export] Instance info_countable : Countable ccstorage.ResCurrencyInfo.
Proof.
  refine (inj_countable' (λ i, (ccstorage.rci_Denom i, ccstorage.rci_Decimals i, ccstorage.rci_IsToken i, ccstorage.rci_Owner i, ccstorage.rci_TotalSupply i))
    (λ x, let '(d, n, t, o, s) := x in ccstorage.MkResCurrencyInfo d n t o s) _). abstract (by intros []).
Defined.
#[export] Instance base_account_countable : Countable BaseAccount.
Proof.
  refine (inj_countable' (λ b, ((ba_Address b, ba_Coins b), (ba_PubKey b, ba_AccountNumber b, ba_Sequence b)))
    (λ x, let '((a, cs), (pk, n, s)) := x in MkBaseAccount a cs pk n s) _). abstract (by intros []).
Defined.
#[export] Instance account_countable : Countable Account.
Proof.
  refine (inj_countable' (λ acc, match acc with Account_base b => inl b | Account_module b n ps => inr (b, n, ps) end)
    (λ x, match x with inl b => Account_base b | inr (b, n, ps) => Account_module b n ps end) _). abstract (by intros []).
Defined.
#[export] Instance codec_Account : Codec Account := codec_of_countable Account.

(** Supplies are 128-bit unsigned integers. *)
#[export] Instance lcs_Info : Lcs ccstorage.ResCurrencyInfo.
Proof.
  refine {|
    lcs_Marshal i := if (0 <=? ccstorage.rci_TotalSupply i) && (ccstorage.rci_TotalSupply i <? 2 ^ 128)
                     then Ok (Marshal (Codec := codec_of_countable ccstorage.ResCurrencyInfo) Bare i) else Err (Plain "u128");
    lcs_Unmarshal bz := match Unmarshal (Codec := codec_of_countable ccstorage.ResCurrencyInfo) Bare bz with
                        | Some i => Ok i | None => Err (Plain "lcs") end;
  |}.
  abstract (intros i bz; destruct (_ && _); [|done]; intros [= <-]; by rw Unmarshal_Marshal).
Defined.
Lemma lcs_Info_ok (i : ccstorage.ResCurrencyInfo) : 0 ≤ ccstorage.rci_TotalSupply i < 2 ^ 128 → ∃ bz, lcs_Marshal i = Ok bz.
Proof.
  intros [Hlo Hhi]. simpl. rw (proj2 (Z.leb_le _ _) Hlo) (proj2 (Z.ltb_lt _ _) Hhi). by eexists.
Qed.
#[export] Program Instance glav_ref : Glav := {| BalanceVector d := "b" +:+ d; CurrencyInfoVector d := "c" +:+ d |}.
Next Obligation. intros a b E. by injection E. Qed.
Next Obligation. intros a b E. by injection E. Qed.

#[export] Instance balance_eq_dec : EqDecision ccstorage.ResBalance.
Proof. solve_decision. Defined.
#[export] Instance balance_countable : Countable ccstorage.ResBalance.
Proof. refine (inj_countable' ccstorage.rb_Value ccstorage.MkResBalance _). abstract (by intros []). Defined.
#[export] Instance lcs_Balance : Lcs ccstorage.ResBalance.
Proof.
  refine {|
    lcs_Marshal b := if (0 <=? ccstorage.rb_Value b) && (ccstorage.rb_Value b <? 2 ^ 128)
                     then Ok (Marshal (Codec := codec_of_countable ccstorage.ResBalance) Bare b) else Err (Plain "u128");
    lcs_Unmarshal bz := match Unmarshal (Codec := codec_of_countable ccstorage.ResBalance) Bare bz with
                        | Some b => Ok b | None => Err (Plain "lcs") end;
  |}.
  abstract (intros b bz; destruct (_ && _); [|done]; intros [= <-]; by rw Unmarshal_Marshal).
Defined.
Lemma lcs_Balance_ok (b : ccstorage.ResBalance) : fits128 (ccstorage.rb_Value b) → ∃ bz, lcs_Marshal b = Ok bz.
Proof. intros [Hlo Hhi]. simpl. rw (proj2 (Z.leb_le _ _) Hlo) (proj2 (Z.ltb_lt _ _) Hhi). by eexists. Qed.

Definition denom_le (a b : Coin) : Prop := key_le (coin_Denom a, "") (coin_Denom b, "").
#[export] Instance denom_le_dec a b : Decision (denom_le a b).
Proof. unfold denom_le. apply _. Defined.
#[export] Instance CoinsSort_ref : CoinsSort.
Proof. refine {| Coins_Sort := merge_sort denom_le |}. intros cs. apply merge_sort_Permutation. Defined.

(** ** Keepers and permissions *)
Definition granted (o : outcome ModulePermissions) : ModulePermissions := match o with Ok p => p | _ => ccstorage.NewModulePerms end.
Definition vm_perms : ModulePermissions := granted (vm.NewKeeper [ccstorage.RequestVMStoragePerms]).
#[local] Instance the_vm : VMStorage := vm.vm_storage vm_perms.
#[local] Instance the_vm_laws : VMStorageLaws (vm.storage_clients vm_perms) vm.StoreKey := vm.vm_storage_laws vm_perms.
#[local] Instance the_accounts : AccountKeeper := AccountKeeper_ref "acc".
#[local] Instance the_accounts_laws : AccountKeeperLaws "acc" := AccountKeeperLaws_ref "acc".
Definition auth_perms : ModulePermissions := granted (ccstorage.NewKeeper [vmauth.RequestCCStoragePerms]).

Lemma ccs_admitted : vm.storage_clients vm_perms ccstorage.ModuleName.
Proof. split; vm_compute; reflexivity. Qed.
Lemma ccs_store_differs : vm.StoreKey ≠ ccstorage.StoreKey.
Proof. intros E. discriminate E. Qed.
Lemma auth_grants perm : perm ∈ snd vmauth.RequestCCStoragePerms → Check auth_perms vmauth.CallerName perm = Ok tt.
Proof. cbn [snd vmauth.RequestCCStoragePerms]. rw !elem_of_cons elem_of_nil. intros [->|[->|[->|[]]]]; vm_compute; reflexivity. Qed.
Lemma acc_store_differs : "acc" ∉ [ccstorage.StoreKey; vm.StoreKey].
Proof. apply (bool_decide_unpack _). vm_compute. exact I. Qed.
Lemma auth_name : mp_name auth_perms = ccstorage.ModuleName.
Proof. vm_compute. reflexivity. Qed.

Notation auth_holds := (auth_holds (vm.storage_clients vm_perms) vm.StoreKey "acc").
Notation at_chain thm := (thm (vm.storage_clients vm_perms) vm.StoreKey _ _ _ _ _ _ _ _ "acc" _ auth_perms auth_name ccs_admitted auth_grants
  ccs_store_differs acc_store_differs lcs_Info_ok lcs_Balance_ok).

(** ** A chain with two currencies and no accounts *)
Definition currencies_at (supply : Z) : gmap string Currency :=
  {[ "sxfi" := MkCurrency "sxfi" 18 supply ""; "xfi" := MkCurrency "xfi" 18 0 "" ]}.
Definition no_accounts : auth_state := MkAuthState (currencies_at 0) ∅ 0 (λ _ _, None).

Definition nothing : Ctx := MkCtx (λ _, ∅) (∅, []) [] 5 genesis_time.
(** The other stores are empty. *)
Definition unused (c : Ctx) : Prop :=
  (∀ k, k ≠ ccstorage.StoreKey → k ≠ vm.StoreKey → ctx_stores c k = ∅) ∧ ctx_bank c = (∅, []).

Lemma fresh_chain : ∃ c, auth_holds c no_accounts ∧ unused c.
Proof.
  assert (mirrored (vm.storage_clients vm_perms) vm.StoreKey nothing ∅ (λ _ _, None)) as H0 by (split; [by apply empty_ccs_holds|done]).
  assert (∀ denom c m, mirrored (vm.storage_clients vm_perms) vm.StoreKey c m (λ _ _, None) → m !! denom = None → unused c →
    ∃ c', mirrored (vm.storage_clients vm_perms) vm.StoreKey c' (<[denom := MkCurrency denom 18 0 ""]> m) (λ _ _, None) ∧ unused c') as Hstep.
  { intros denom c m Hm Hd [Hk Hb].
    destruct (create_mirrored (vm.storage_clients vm_perms) vm.StoreKey auth_perms auth_name ccs_admitted ccs_store_differs lcs_Info_ok
      (MkCurrencyParams denom 18 "") ccstorage.ModuleName c m _ Hm) as (c' & _ & Hm' & Hf); [by left|done|done|].
    exists c'. split; [exact Hm'|]. split; [|by rw (cf_bank _ _ _ Hf)]. intros k H1 H2. rw (ccs_frame_store _ _ _ _ Hf); [by apply Hk|done|done]. }
  destruct (Hstep "xfi" _ _ H0 eq_refl) as (c1 & H1 & E1); [done|]. destruct (Hstep "sxfi" _ _ H1 eq_refl E1) as (c2 & H2 & E2).
  exists c2. assert (ctx_stores c2 "acc" = ∅) as E by (by apply E2). split; [|done]. split; [exact H2|..]; rw E.
  - intros a v Ev. discriminate Ev.
  - intros a. rewrite lookup_empty. reflexivity.
  - reflexivity.
Qed.
Lemma no_accounts_exists : ∃ c, auth_holds c no_accounts.
Proof. destruct fresh_chain as (c & Hc & _). by exists c. Qed.

Lemma denoms_fine supply : denoms_ok (currencies_at supply).
Proof.
  intros d cur. unfold currencies_at. rewrite lookup_insert_Some lookup_singleton_Some. intros [[<- _]|[_ [<- _]]]; split; try done; vm_compute; reflexivity.
Qed.

(** ** An account with 1000 units *)
Definition alice_acc : Account := Account_base (MkBaseAccount alice [MkCoin "sxfi" 1000] (Some "key") 0 3).
Definition stored : auth_state := MkAuthState (currencies_at 1000) {[ alice := alice_acc ]} 0
  (set_account (λ _ _, None) alice (balance_spec.set_coins (currencies_at 1000) [MkCoin "sxfi" 1000] (λ _, None))).

Lemma alice_ok : addr_ok alice.
Proof. apply (bool_decide_unpack _). vm_compute. exact I. Qed.
Lemma thousand_fits : coins_fit [MkCoin "sxfi" 1000].
Proof. split; [apply (bool_decide_unpack _); vm_compute; exact I|]. by intros c ->%list_elem_of_singleton. Qed.
Lemma thousand_valid : coins_valid [MkCoin "sxfi" 1000].
Proof. split; [apply (bool_decide_unpack _); vm_compute; exact I|]. by apply Forall_singleton. Qed.
Lemma thousand_registered z : registered (currencies_at z) [MkCoin "sxfi" 1000].
Proof. intros c ->%list_elem_of_singleton. by eexists. Qed.
Lemma storable_alice : storable no_accounts alice_acc.
Proof.
  split; [apply alice_ok|apply thousand_fits|]. intros _ c ->%list_elem_of_singleton cur. cbn [coin_Denom].
  change (as_currencies no_accounts !! "sxfi") with (Some (MkCurrency "sxfi" 18 0 "")). by intros [= <-].
Qed.

Lemma SetAccount_mirrors_witness : ∃ c c' st', auth_holds c no_accounts ∧
  vmauth.SetAccount auth_perms alice_acc "ante" c = (Ok tt, c') ∧ auth_holds c' st' ∧
  auth_spec.vm_amount st' alice "sxfi" = 1000 ∧ auth_spec.supply st' "sxfi" = 1000.
Proof.
  destruct no_accounts_exists as [c Hc].
  destruct (at_chain SetAccount_mirrors alice_acc "ante" c no_accounts Hc (denoms_fine 0) storable_alice) as [Hok _].
  destruct Hok as (c' & st' & Hrun & Hs' & _ & _ & Hvm & Hsup); [right; apply (thousand_registered 0)|].
  exists c, c', st'. split; [exact Hc|]. split; [exact Hrun|]. split; [exact Hs'|]. split.
  - rw Hvm; [reflexivity|by eexists].
  - rw Hsup. reflexivity.
Defined.

Lemma no_supply d cur : currencies_at 0 !! d = Some cur → cur_Supply cur = 0.
Proof. unfold currencies_at. intros [[_ <-]|[_ [_ <-]%lookup_singleton_Some]]%lookup_insert_Some; reflexivity. Qed.

Lemma currency_known z d : is_Some (currencies_at z !! d) ↔ d = "sxfi" ∨ d = "xfi".
Proof.
  split.
  - intros [cur E]. unfold currencies_at in E. apply lookup_insert_Some in E as [[<- _]|[_ [<- _]%lookup_singleton_Some]]; [by left|by right].
  - intros [->| ->]; by eexists.
Qed.

(** ** Coins only the VM knows *)
Definition vm_only_coins : auth_state := MkAuthState (currencies_at 0) ∅ 0
  (λ x e, if decide (x = alice ∧ e = "sxfi") then Some 7 else None).
Lemma vm_only_exists : ∃ c, auth_holds c vm_only_coins.
Proof.
  destruct no_accounts_exists as [c [Hm Hwf Hacc Hn]].
  destruct (put_run (vm.storage_clients vm_perms) vm.StoreKey ccs_admitted ccs_store_differs lcs_Balance_ok c _ _ alice "sxfi" 7 Hm alice_ok) as (c' & _ & Ho & Hm'); [done|].
  pose proof (vm_only_store _ _ _ "acc" Ho) as E. assert ("acc" ≠ vm.StoreKey) as Hne by (intros E'; discriminate E'). specialize (E Hne).
  exists c'. split; [by apply Hm'|..]; rw E; [exact Hwf|exact Hacc|exact Hn].
Qed.

Lemma GetAccount_syncs_witness : ∃ c c' st' acc, auth_holds c vm_only_coins ∧
  vmauth.GetAccount auth_perms alice "ante" c = (Ok (Some acc), c') ∧ auth_holds c' st' ∧
  amount_of (acc_GetCoins acc) "sxfi" = 7 ∧ auth_spec.supply st' "sxfi" = 7.
Proof.
  destruct vm_only_exists as [c Hc].
  assert (readable vm_only_coins alice) as Hr.
  { unfold readable. change (as_accounts vm_only_coins !! alice) with (None : option Account). intros _ d cur E. rw (no_supply _ _ E).
    unfold auth_spec.vm_amount, balance_spec.amount. cbn [as_currencies as_balances vm_only_coins].
    destruct (currencies_at 0 !! d); [|done]. by destruct (decide _). }
  assert (auth_spec.vm_knows vm_only_coins alice = true) as Hk by (vm_compute; reflexivity).
  destruct (at_chain GetAccount_syncs alice "ante" c vm_only_coins Hc (denoms_fine 0) alice_ok Hr) as (found & c' & st' & Hrun & Hs' & _ & _ & Hro & _).
  destruct found as [acc|].
  - exists c, c', st', acc. split; [exact Hc|]. split; [exact Hrun|]. split; [exact Hs'|]. pose proof (ro_synced _ _ _ _ Hro Hk) as Hsy.
    pose proof (ro_account _ _ _ _ Hro) as Ea. destruct (ro_found _ _ _ _ Hro) as [_ Hsup]. unfold synced in Hsy. rw Ea in Hsy. split.
    + rw (proj2 Hsy) (ro_vm _ _ _ _ Hro). vm_compute. reflexivity.
    + rw Hsup. vm_compute. reflexivity.
  - exfalso. pose proof (ro_found _ _ _ _ Hro) as Hf. cbn in Hf. rw Hk in Hf. discriminate Hf.
Defined.

(** ** A chain with the account *)
Lemma stored_exists : ∃ c, auth_holds c stored.
Proof.
  destruct no_accounts_exists as [c Hc].
  destruct (at_chain SetAccount_ok_run alice_acc "ante" c no_accounts Hc (denoms_fine 0) storable_alice) as (c' & st' & _ & Hset & Hs' & _);
    [intros _; apply (thousand_registered 0)|].
  exists c'. assert (st' = MkAuthState (as_currencies st') (as_accounts st') (as_next st') (as_balances st')) as Est by (by destruct st').
  unfold auth_spec.set_account in Hset. change (as_accounts no_accounts !! acc_GetAddress alice_acc) with (None : option Account) in Hset.
  apply outcome_bind_inv in Hset as (m & Hm & Hset). injection Hset as <-.
  assert (m = currencies_at 1000) as ->; [|exact Hs'].
  assert (auth_spec.add_supplies (currencies_at 0) [MkCoin "sxfi" 1000] = Ok (currencies_at 1000)) as E by (vm_compute; reflexivity).
  change (auth_spec.add_supplies (currencies_at 0) [MkCoin "sxfi" 1000] = Ok m) in Hm. congruence.
Qed.

Lemma stored_accounts a acc : as_accounts stored !! a = Some acc → a = alice ∧ acc = alice_acc.
Proof. change (as_accounts stored) with ({[ alice := alice_acc ]} : gmap string Account). by intros [<- <-]%lookup_singleton_Some. Qed.

Lemma stored_synced : all_synced stored.
Proof.
  intros a acc [-> ->]%stored_accounts. split; [apply alice_ok|]. split; [reflexivity|]. unfold synced.
  change (as_accounts stored !! alice) with (Some alice_acc). split; [apply thousand_valid|]. intros d.
  unfold auth_spec.vm_amount. change (as_balances stored alice) with (set_account (λ _ _, None) alice (balance_spec.set_coins (currencies_at 1000) [MkCoin "sxfi" 1000] (λ _, None)) alice).
  unfold set_account. destruct (decide (alice = alice)); [|done]. change (as_currencies stored) with (currencies_at 1000). rw set_coins_amount.
  change (acc_GetCoins alice_acc) with [MkCoin "sxfi" 1000]. destruct (currencies_at 1000 !! d) as [cur|] eqn:E; [reflexivity|].
  rw amount_of_one. destruct (decide (coin_Denom (MkCoin "sxfi" 1000) = d)) as [<-|]; [|reflexivity].
  assert (currencies_at 1000 !! "sxfi" = Some (MkCurrency "sxfi" 18 1000 "")) as E' by (vm_compute; reflexivity). cbn in E. congruence.
Qed.

(** The squash renames the coin and adds an account. *)
Definition bob : string := "carol-wallet-address".
Definition rename_sxfi : vmauth.SquashOptions :=
  vmauth.MkSquashOptions [vmauth.MkAddAccountOperation bob []] [vmauth.MkAccountBalanceOperation "sxfi" false "xfi"].

Lemma bob_ok : addr_ok bob.
Proof. apply (bool_decide_unpack _). vm_compute. exact I. Qed.
Lemma no_coins_valid : coins_valid [].
Proof. split; [apply NoDup_nil_2|apply Forall_nil_2]. Qed.

Lemma PrepareForZeroHeight_squashes_witness : ∃ c c' st' acc, auth_holds c stored ∧
  vmauth.PrepareForZeroHeight auth_perms rename_sxfi "app" c = (Ok tt, c') ∧ auth_holds c' st' ∧
  as_accounts st' !! alice = Some acc ∧ amount_of (acc_GetCoins acc) "sxfi" = 0 ∧ amount_of (acc_GetCoins acc) "xfi" = 1000.
Proof.
  destruct stored_exists as [c Hc].
  set (st0 := auth_spec.with_next stored (wrap64 (as_next stored + 1))).
  assert (∃ st1, auth_spec.set_account st0 (new_account (vmauth.MkAddAccountOperation bob []) 0) = Ok st1 ∧
    as_currencies st1 = currencies_at 1000 ∧ as_accounts st1 = <[bob := new_account (vmauth.MkAddAccountOperation bob []) 0]> (as_accounts stored)) as (st1 & Hset & Ecur & Eacc).
  { eexists. split; [reflexivity|]. split; reflexivity. }
  assert (added stored (vmauth.addAccountOps rename_sxfi) st1) as Hadd.
  { eapply added_cons; [|apply no_coins_valid| |exact Hset|apply added_nil].
    - split; [apply bob_ok|split; [apply NoDup_nil_2|]|]; [by intros x Hx%elem_of_nil|]. intros _ x Hx%elem_of_nil. done.
    - by intros x Hx%elem_of_nil. }
  destruct (at_chain PrepareForZeroHeight_squashes rename_sxfi "app" c stored st1 Hc (denoms_fine 1000) stored_synced Hadd) as (c' & st' & Hrun & Hs' & _ & Hsq).
  - rw Ecur. apply Forall_singleton. split; [vm_compute; reflexivity|by eexists].
  - intros a acc E. rw Eacc in E. apply lookup_insert_Some in E as [[<- <-]|[_ [-> ->]%stored_accounts]].
    + split; [|exact I]. intros d. change (apply_effect (Rename "sxfi" "xfi") (amount_of []) d < 2 ^ 128). unfold apply_effect. rw !amount_of_nil.
      by repeat destruct (decide _).
    + split; [|exact I]. intros d. change (apply_effect (Rename "sxfi" "xfi") (amount_of [MkCoin "sxfi" 1000]) d < 2 ^ 128). unfold apply_effect. rw !amount_of_one.
      by repeat destruct (decide _).
  - pose proof (sa_accounts _ _ _ Hsq alice) as Ha. assert (as_accounts st1 !! alice = Some alice_acc) as Ealice.
    { rw Eacc. vm_compute. reflexivity. }
    rw Ealice in Ha. destruct Ha as (cs & E & _ & Hamt). exists c, c', st', (with_Coins cs alice_acc).
    split; [exact Hc|]. split; [exact Hrun|]. split; [exact Hs'|]. split; [exact E|]. rw with_Coins_Coins. split; rw Hamt; vm_compute; reflexivity.
Defined.

(** ** Genesis *)
Definition two_accounts : genaccounts.GenesisState :=
  [genaccounts.MkGenesisAccount (MkBaseAccount alice [MkCoin "sxfi" 1000] None 5 0) "" [];
   genaccounts.MkGenesisAccount (MkBaseAccount bob [MkCoin "sxfi" 1000] None 3 0) "mint" ["minter"]].

Lemma InitGenesis_stores_witness : ∃ c c' st', auth_holds c no_accounts ∧
  genaccounts.InitGenesis auth_perms two_accounts "accounts" c = (Ok tt, c') ∧ auth_holds c' st' ∧ auth_spec.supply st' "sxfi" = 2000.
Proof.
  destruct no_accounts_exists as [c Hc].
  destruct (at_chain InitGenesis_stores two_accounts "accounts" c no_accounts Hc (denoms_fine 0) eq_refl) as (c' & st' & Hrun & Hs' & _ & _ & _ & _ & _ & Hsup).
  - done.
  - done.
  - vm_compute. reflexivity.
  - intros ga [->| ->%list_elem_of_singleton]%elem_of_cons; (split; [first [apply alice_ok|apply bob_ok]|]);
      (split; [apply thousand_valid|]); (split; [apply (thousand_registered 0)|]); [apply Forall_nil_2|].
    apply Forall_singleton. by eexists _, _.
  - intros d cur E. rw (no_supply _ _ E). split; [done|]. assert (total two_accounts d = amount_of [MkCoin "sxfi" 1000] d + (amount_of [MkCoin "sxfi" 1000] d + 0)) as -> by reflexivity. rw amount_of_one. by destruct (decide _).
  - exists c, c', st'. split; [exact Hc|]. split; [exact Hrun|]. split; [exact Hs'|]. rw Hsup. vm_compute. reflexivity.
Defined.

Lemma ExportGenesis_roundtrip_witness : ∃ c gs c2 c' st' cs n, auth_holds c stored ∧ auth_holds c2 no_accounts ∧
  genaccounts.ExportGenesis auth_perms "accounts" c = (Ok gs, c) ∧ genaccounts.InitGenesis auth_perms gs "accounts" c2 = (Ok tt, c') ∧
  auth_holds c' st' ∧ as_accounts st' !! alice = Some (with_AccountNumber n (with_Coins cs (with_PubKey None alice_acc))) ∧
  cs ≡ₚ [MkCoin "sxfi" 1000].
Proof.
  destruct stored_exists as [c Hc]. destruct no_accounts_exists as [c2 Hc2].
  destruct (at_chain ExportGenesis_roundtrip "accounts" c stored Hc (denoms_fine 1000) stored_synced) as (gs & Hexp & Himp).
  { intros a acc [_ ->]%stored_accounts. exact I. }
  assert (gs = [exported alice_acc]) as Egs.
  { destruct (at_chain ExportAccounts_run "accounts" c stored Hc (denoms_fine 1000) stored_synced) as (l & Hexp' & Hnd & Hl).
    rw Hexp in Hexp'. injection Hexp' as ->. assert (l ≡ₚ [alice_acc]) as ->%Permutation_singleton_r; [|reflexivity].
    apply NoDup_Permutation; [by eapply NoDup_fmap_1|apply NoDup_singleton|]. intros acc. rewrite list_elem_of_singleton. rw Hl. split.
    - by intros [_ ->]%stored_accounts.
    - intros ->. vm_compute. reflexivity. }
  destruct (Himp "accounts" c2 no_accounts Hc2 (denoms_fine 0) eq_refl) as (c' & st' & Hrun & Hs' & _ & Hacc & _).
  - done.
  - by rw Egs.
  - intros d. change (as_currencies stored) with (currencies_at 1000). change (as_currencies no_accounts) with (currencies_at 0).
    rewrite !currency_known. done.
  - intros d cur E. rw (no_supply _ _ E). split; [done|]. rw Egs. unfold total. rw sumZ_cons sumZ_nil exported_Coins. change (acc_GetCoins alice_acc) with [MkCoin "sxfi" 1000].
    rw amount_of_one. by destruct (decide _).
  - specialize (Hacc alice). change (as_accounts stored !! alice) with (Some alice_acc) in Hacc. destruct Hacc as (cs & n & Hp & E).
    exists c, gs, c2, c', st', cs, n. split; [exact Hc|]. split; [exact Hc2|]. split; [exact Hexp|]. split; [exact Hrun|]. split; [exact Hs'|]. split; [exact E|exact Hp].
Defined.
