(* ===== verification/BankKeeper.v ===== *)
(** * The bank over the accounts of [x/vmauth]

    The application builds the SDK's bank keeper on the account keeper of [x/vmauth]
    ([app.go]), so that every change of an account's coins goes through [vmauth]: the
    balances are read from the VM, written back to it, and the coins of an account that was
    not stored before are added to the supplies of their currencies.  [BankKeeperLaws] says
    how the bank uses the account keeper; the lemmas say what an operation does to a state
    of accounts and Move balances. *)
From S2P Require Import Prelude Bytes Sdk SdkFacts DnTypes Perms Chain SdkBank Currency VMStorage CCStorage CCStorageFacts SdkAuth BalanceFacts VMAuth VMAuthFacts VMAuthTheorems.
Local Open Scope string_scope.
Local Open Scope Z_scope.
Local Open Scope list_scope.

(** [sdkErrors] of the root codespace. *)
Definition ErrInsufficientFunds : error := Registered "sdk" 5.

Section bank.
Context `{ST : SdkTypes} `{SC : SdkCoins} `{KV : KVStore} `{LG : Ledger} `{VS : !VMStorage}.
Context `{GL : Glav} `{LI : !Lcs ccstorage.ResCurrencyInfo} `{LB : !Lcs ccstorage.ResBalance} `{CC : !Codec Currency}.
Context `{AA : AuthAccounts} `{AK : !AccountKeeper}.
Variable ccsPerms : ModulePermissions.

Definition account_coins (found : option Account) : list Coin :=
  match found with Some acc => acc_GetCoins acc | None => [] end.

(** Reading and writing the coins of an account through the account keeper. *)
Definition read_coins (a : AccAddress) : M (list Coin) :=
  found ← vmauth.GetAccount ccsPerms a; mret (account_coins found).
Definition write_coins_of (a : AccAddress) (cs : list Coin) : M unit :=
  found ← vmauth.GetAccount ccsPerms a;
  acc ← (match found with Some acc => mret acc | None => ak_NewAccountWithAddress a end);
  acc ← vmauth.or_panic (lift (acc_SetCoins acc cs));
  vmauth.SetAccount ccsPerms acc.

Definition valid_coins (cs : list Coin) : Prop := coins_valid cs ∧ Forall (λ c, ValidateDenom (coin_Denom c) = true) cs.

(** Documented behaviour of [bank.BaseKeeper] over an account keeper, for valid coins and
    accounts all of whose coins can be spent. *)
Class BankKeeperLaws {BK : BankKeeper} : Prop := {
  GetCoins_over a m c : bank_GetCoins a m c = read_coins a m c;
  SetCoins_over a cs m c : valid_coins cs → bank_SetCoins a cs m c = write_coins_of a cs m c;
  AddCoins_over a coin m c : valid_coins [coin] → bank_AddCoins a [coin] m c =
    (old ← read_coins a; new ← lift (Coins_Add old [coin]); bank_SetCoins a new) m c;
  SubtractCoins_over a coin m c : valid_coins [coin] → bank_SubtractCoins a [coin] m c =
    (old ← read_coins a;
     if amount_of old (coin_Denom coin) <? coin_Amount coin then throw ErrInsufficientFunds
     else new ← lift (Coins_Sub old [coin]); bank_SetCoins a new) m c;
}.

(** An executable bank. *)
Definition Bank_over : BankKeeper := {|
  bank_GetCoins := read_coins;
  bank_SetCoins := write_coins_of;
  bank_AddCoins a cs := old ← read_coins a; new ← lift (Coins_Add old cs); write_coins_of a new;
  bank_SubtractCoins a cs :=
    old ← read_coins a;
    if existsb (λ c, amount_of old (coin_Denom c) <? coin_Amount c) cs then throw ErrInsufficientFunds
    else new ← lift (Coins_Sub old cs); write_coins_of a new;
|}.
Lemma Bank_over_laws : BankKeeperLaws (BK := Bank_over).
Proof.
  split; try done. intros a coin m c _. simpl. unfold mbind, M_bind. destruct (read_coins a m c) as [[old|e|] c1]; [|done..].
  by rw orb_false_r.
Qed.
End bank.

(** ** States of accounts *)
Definition with_currencies (st : auth_state) (m : gmap string Currency) : auth_state :=
  MkAuthState m (as_accounts st) (as_next st) (as_balances st).
Definition coins_at (st : auth_state) (a : AccAddress) : list Coin := account_coins (as_accounts st !! a).
Definition unknown (st : auth_state) (a : AccAddress) : Prop := as_accounts st !! a = None.
#[export] Instance unknown_dec st a : Decision (unknown st a).
Proof. unfold unknown. apply _. Defined.
(** The account an operation on [a] works on: a new one when [a] is not stored. *)
Definition account_at (st : auth_state) (a : AccAddress) : Account :=
  match as_accounts st !! a with Some acc => acc | None => Account_base (MkBaseAccount a [] None (as_next st) 0) end.

Lemma synced_coins st a : synced st a → coins_valid (coins_at st a) ∧ ∀ d, amount_of (coins_at st a) d = auth_spec.vm_amount st a d.
Proof.
  unfold synced, coins_at. destruct (as_accounts st !! a) as [acc|]; [done|]. intros Hk. split; [by split; [apply NoDup_nil_2|]|].
  intros d. rw amount_of_nil. unfold auth_spec.vm_amount, balance_spec.amount. unfold auth_spec.vm_knows in Hk.
  destruct (as_currencies st !! d) eqn:E; [|done]. destruct (as_balances st a d) as [z|] eqn:Eb; [|done].
  assert (balance_spec.some_resource (as_currencies st) (as_balances st a) = true) as Ht by (apply some_resource_true; by exists d). congruence.
Qed.

Lemma known_account st a : ¬ unknown st a → as_accounts st !! a = Some (account_at st a).
Proof. unfold unknown, account_at. by destruct (as_accounts st !! a). Qed.

(** What a change of the coins of [a] by [amt], and of the supplies by [sup], makes of a
    state: nothing of another account, of the currencies but their supplies, or of the
    account but its coins is touched. *)
Record account_change (st : auth_state) (a : AccAddress) (amt sup : string → Z) (st' : auth_state) : Prop := {
  ac_account : ∃ cs, as_accounts st' = <[a := with_Coins cs (account_at st a)]> (as_accounts st) ∧ coins_valid cs ∧
    ∀ d, amount_of cs d = amount_of (coins_at st a) d + amt d;
  ac_next : as_next st' = if decide (unknown st a) then wrap64 (as_next st + 1) else as_next st;
  ac_vm x d : auth_spec.vm_amount st' x d = auth_spec.vm_amount st x d + if decide (x = a) then amt d else 0;
  ac_currencies : same_currencies (as_currencies st) (as_currencies st');
  ac_supply d : auth_spec.supply st' d = auth_spec.supply st d + sup d;
  ac_synced x : synced st x → synced st' x;
}.

Lemma ac_coins st a amt sup st' : account_change st a amt sup st' → ∀ x d,
  amount_of (coins_at st' x) d = amount_of (coins_at st x) d + if decide (x = a) then amt d else 0.
Proof.
  intros [(cs & E & _ & Hcs) _ _ _ _ _] x d. unfold coins_at at 1. rw E. destruct (decide (x = a)) as [->|Hx].
  - rw lookup_insert_eq. cbn [account_coins]. by rw with_Coins_Coins.
  - rw lookup_insert_ne; [|done]. by rw Z.add_0_r.
Qed.

(** Then the supplies change once more. *)
Lemma synced_currencies st m x : same_currencies (as_currencies st) m → synced st x → synced (with_currencies st m) x.
Proof.
  intros Hs. unfold synced. cbn [as_accounts with_currencies]. destruct (as_accounts st !! x) as [acc|].
  - intros [Hv Hd]. split; [done|]. intros d. rw Hd. unfold auth_spec.vm_amount. cbn [as_currencies as_balances with_currencies].
    symmetry. by apply same_currencies_amount.
  - unfold auth_spec.vm_knows. cbn [as_currencies as_balances with_currencies]. intros Hk. apply not_true_is_false.
    intros (d & Hd & Hr)%some_resource_true. apply (same_currencies_Some _ _ _ Hs) in Hd.
    assert (balance_spec.some_resource (as_currencies st) (as_balances st x) = true) as Ht by (apply some_resource_true; by exists d). congruence.
Qed.

Lemma add_supply_same m d z m' : ccs_spec.add_supply m d z = Ok m' → same_currencies m m'.
Proof.
  intros (cur & E & ->)%added_supply_inv x. destruct (decide (d = x)) as [<-|Hne]; [by rw lookup_insert_eq E|by rw lookup_insert_ne].
Qed.
Lemma add_supply_amount st d z m' : ccs_spec.add_supply (as_currencies st) d z = Ok m' →
  ∀ x, auth_spec.supply (with_currencies st m') x = auth_spec.supply st x + if decide (x = d) then z else 0.
Proof.
  intros (cur & E & ->)%added_supply_inv x. unfold auth_spec.supply. cbn [as_currencies with_currencies].
  destruct (decide (x = d)) as [->|Hne]; [by rw lookup_insert_eq E|]. rw lookup_insert_ne; [|done]. lia.
Qed.

Lemma account_change_supply st a amt sup st' d z m' : account_change st a amt sup st' → ccs_spec.add_supply (as_currencies st') d z = Ok m' →
  account_change st a amt (λ x, sup x + if decide (x = d) then z else 0) (with_currencies st' m').
Proof.
  intros [Hacc Hn Hvm Hcur Hsup Hsy] Hadd. pose proof (add_supply_same _ _ _ _ Hadd) as Hs. split; [done|done|..].
  - intros x e. rw -Hvm. unfold auth_spec.vm_amount. cbn [as_currencies as_balances with_currencies]. by apply same_currencies_amount.
  - by eapply same_currencies_trans.
  - intros x. rw (add_supply_amount st' d z m' Hadd) Hsup. lia.
  - intros x Hx. by apply synced_currencies; [|apply Hsy].
Qed.

Section facts.
Context `{SdkTypesLaws} `{SdkCoinsLaws} `{!CoinsEqualLaws} `{KVStoreLaws} `{LG : Ledger} `{VS : !VMStorage}.
Context (clients : string → Prop) (vm_store : string) `{VSL : !VMStorageLaws clients vm_store}.
Context `{GL : Glav} `{LI : !Lcs ccstorage.ResCurrencyInfo} `{LB : !Lcs ccstorage.ResBalance} `{CC : !Codec Currency}.
Context `{AuthAccountsLaws} `{AK : !AccountKeeper} (acc_store : string) `{AKL : !AccountKeeperLaws acc_store}.
Variable ccsPerms : ModulePermissions.
Context {BK : BankKeeper} {BKL : BankKeeperLaws ccsPerms}.
Hypothesis own_perms : mp_name ccsPerms = ccstorage.ModuleName.
Hypothesis admitted : clients ccstorage.ModuleName.
Hypothesis granted : ∀ perm, perm ∈ snd vmauth.RequestCCStoragePerms → Check ccsPerms vmauth.CallerName perm = Ok tt.
Hypothesis other_store : vm_store ≠ ccstorage.StoreKey.
Hypothesis own_store : acc_store ∉ [ccstorage.StoreKey; vm_store].
Hypothesis lcs_info : ∀ i : ccstorage.ResCurrencyInfo, 0 ≤ ccstorage.rci_TotalSupply i < 2 ^ 128 → ∃ bz, lcs_Marshal i = Ok bz.
Hypothesis lcs_balance : ∀ b : ccstorage.ResBalance, fits128 (ccstorage.rb_Value b) → ∃ bz, lcs_Marshal b = Ok bz.
Implicit Types (c : Ctx) (m : gmap string Currency) (d : string) (a : AccAddress) (st : auth_state) (acc : Account) (cs : list Coin).

Notation auth_holds := (auth_holds clients vm_store acc_store).
Notation auth_frame := (auth_frame vm_store acc_store).
Notation set_run := (SetAccount_ok_run clients vm_store acc_store ccsPerms own_perms admitted granted other_store own_store lcs_info lcs_balance).
Notation get_synced := (GetAccount_synced clients vm_store acc_store ccsPerms own_perms admitted granted other_store own_store lcs_info lcs_balance).

(** ** The state and the stores *)

(** Other stores, the bank and the events may differ. *)
Lemma auth_holds_frame c c' st : (∀ k, k ∈ [acc_store; ccstorage.StoreKey; vm_store] → ctx_stores c' k = ctx_stores c k) →
  auth_holds c st → auth_holds c' st.
Proof.
  intros Hk [[Hcur Hb] Hwf Hacc Hn].
  assert (ctx_stores c' acc_store = ctx_stores c acc_store) as Ea by (apply Hk; left).
  assert (ctx_stores c' ccstorage.StoreKey = ctx_stores c ccstorage.StoreKey) as Ec by (apply Hk; right; left).
  assert (ctx_stores c' vm_store = ctx_stores c vm_store) as Ev by (apply Hk; right; right; left).
  split; rw ?Ea; [|done..]. split; [by apply (ccs_holds_frame clients vm_store c)|]. intros a d Ha. specialize (Hb a d Ha).
  unfold value_held in *. by rw Ev.
Qed.
Lemma auth_holds_currencies c c' st m : auth_holds c st → mirrored clients vm_store c' m (as_balances st) → ccs_frame vm_store c c' →
  auth_holds c' (with_currencies st m).
Proof.
  intros [_ Hwf Hacc Hn] Hm Hf.
  assert (ctx_stores c' acc_store = ctx_stores c acc_store) as E by (apply (ccs_frame_store _ _ _ _ Hf); intros ->; apply own_store; [left|right; left]).
  split; rw ?E; done.
Qed.

Lemma account_at_address c st a : auth_holds c st → acc_GetAddress (account_at st a) = a.
Proof.
  intros Hs. unfold account_at. destruct (as_accounts st !! a) as [acc|] eqn:E; [|done].
  rw -(ah_accounts _ _ _ _ _ Hs) in E. by apply (acc_read_address _ _ _ (ah_wf _ _ _ _ _ Hs)) in E.
Qed.

Lemma registered_valid m cs : denoms_ok m → coins_valid cs → registered m cs → valid_coins cs.
Proof.
  intros Hden Hv Hreg. split; [done|]. apply Forall_forall. intros coin Hin. destruct (Hreg coin Hin) as [cur E]. by apply (Hden _ cur).
Qed.
Lemma registered_amount m cs d : registered m cs → m !! d = None → amount_of cs d = 0.
Proof. intros Hreg E. apply amount_of_absent. intros (c & -> & Hc)%list_elem_of_fmap. destruct (Hreg c Hc). congruence. Qed.

(** ** Reading and writing coins *)
Lemma read_coins_run a caller c st : auth_holds c st → denoms_ok (as_currencies st) → addr_ok a → synced st a →
  read_coins ccsPerms a caller c = (Ok (coins_at st a), c).
Proof. intros Hs Hden Ha Hsy. unfold read_coins. by rw (M_bind_Ok _ _ _ _ _ _ (get_synced a caller c st Hs Hden Ha Hsy)). Qed.

(** Coins an account can get. *)
Record settable st a cs : Prop := {
  se_addr : addr_ok a;
  se_synced : synced st a;
  se_valid : coins_valid cs;
  se_fits d : amount_of cs d < 2 ^ 128;
  se_registered : registered (as_currencies st) cs;
  se_supply : unknown st a → supplies_fit (as_currencies st) cs;
}.

(** The coins of an account that is not stored yet are new to the supplies. *)
Definition new_supply st a cs (d : string) : Z := if decide (unknown st a) then amount_of cs d else 0.

(** Storing the account with other coins. *)
Lemma set_account_change st st0 a cs st' : acc_GetAddress (account_at st a) = a → settable st a cs →
  as_currencies st0 = as_currencies st → as_accounts st0 = as_accounts st → as_balances st0 = as_balances st →
  as_next st0 = (if decide (unknown st a) then wrap64 (as_next st + 1) else as_next st) →
  auth_spec.set_account st0 (with_Coins cs (account_at st a)) = Ok st' →
  account_change st a (λ d, amount_of cs d - amount_of (coins_at st a) d) (new_supply st a cs) st'.
Proof.
  intros Ea [Ha Hsy Hv Hfit Hreg Hsup] Em Eacc Eb En Hset.
  assert (coins_fit (acc_GetCoins (with_Coins cs (account_at st a)))) as Hf by (rw with_Coins_Coins; by apply valid_fit).
  destruct (set_account_effect _ _ _ Hf Hset) as (Eacc' & En' & Hcur & Hb & Hvm & Hs & _).
  rw with_Coins_Address Ea in Eacc'. rw with_Coins_Address Ea in Hb. rw with_Coins_Address Ea with_Coins_Coins in Hvm. rw with_Coins_Address Ea with_Coins_Coins in Hs.
  rw Em in Hcur. rw Em in Hvm. rw Eacc in Eacc'. rw Eacc in Hs.
  assert (∀ x d, auth_spec.vm_amount st0 x d = auth_spec.vm_amount st x d) as Evm by (intros x d; unfold auth_spec.vm_amount; by rw Em Eb).
  assert (∀ x, synced st x → synced st0 x) as Hsy0.
  { intros x. unfold synced. rw Eacc. destruct (as_accounts st !! x).
    - intros [? Hd]. split; [done|]. intros d. by rw Evm Hd.
    - unfold auth_spec.vm_knows. by rw Em Eb. }
  split.
  - exists cs. split; [done|]. split; [done|]. intros d. lia.
  - by rw En' En.
  - intros x d. rw Hvm Evm. destruct (decide (x = a)) as [->|]; [|lia]. rw (proj2 (synced_coins st a Hsy)).
    destruct (as_currencies st !! d) eqn:E; [lia|]. rw (registered_amount _ cs d Hreg E). lia.
  - done.
  - intros d. rw Hs. unfold auth_spec.supply at 1. rw Em. fold (auth_spec.supply st d). unfold new_supply, unknown.
    destruct (decide (as_accounts st !! a = None)) as [->|Hk]; [done|]. by destruct (as_accounts st !! a).
  - intros x Hx. destruct (decide (x = a)) as [->|Hne].
    + rw -Ea -(with_Coins_Address cs (account_at st a)). apply (set_account_synced st0 (with_Coins cs (account_at st a)) st'); rw ?with_Coins_Coins; [by rw with_Coins_Coins in Hf|done|by rw Em|done].
    + apply (set_account_other st0 _ _ x Hf Hset); [by rw with_Coins_Address Ea|by apply Hsy0].
Qed.

Lemma write_coins_run a cs caller c st : auth_holds c st → denoms_ok (as_currencies st) → settable st a cs →
  ∃ c' st', write_coins_of ccsPerms a cs caller c = (Ok tt, c') ∧ auth_holds c' st' ∧ auth_frame c c' ∧
    account_change st a (λ d, amount_of cs d - amount_of (coins_at st a) d) (new_supply st a cs) st'.
Proof.
  intros Hs Hden Hse. pose proof Hse as [Ha Hsy Hv Hfit Hreg Hsup]. pose proof (account_at_address c st a Hs) as Ea.
  assert (∃ c0 st0, (match as_accounts st !! a with Some acc => mret acc | None => ak_NewAccountWithAddress a end) caller c = (Ok (account_at st a), c0) ∧
    auth_holds c0 st0 ∧ auth_frame c c0 ∧ as_currencies st0 = as_currencies st ∧ as_accounts st0 = as_accounts st ∧ as_balances st0 = as_balances st ∧
    as_next st0 = (if decide (unknown st a) then wrap64 (as_next st + 1) else as_next st)) as (c0 & st0 & Hrun0 & Hs0 & Hf0 & Em & Eacc & Eb & En).
  { destruct (decide (unknown st a)) as [Hu|Hu].
    - pose proof Hs as [Hmi Hwf Hacc Hnext]. destruct (NewAccountWithAddress_ok a caller c Hwf) as (s & Hnew & Hwf' & Hn & Hread).
      exists (set_store c acc_store s), (auth_spec.with_next st (wrap64 (as_next st + 1))). rw Hnext in Hnew. unfold account_at. rw Hu. split; [done|].
      assert (ctx_stores (set_store c acc_store s) acc_store = s) as Es by (simpl; by rw decide_True).
      split; [split; rw ?Es; [by apply (mirrored_acc clients vm_store acc_store own_store)|done|intros x; by rw Hread Hacc|by rw Hn Hnext]|].
      split; [by apply auth_frame_acc|done].
    - exists c, st. rw {1}(known_account st a Hu). done. }
  destruct (set_run (with_Coins cs (account_at st a)) caller c0 st0) as (c' & st' & Hrun & Hset & Hs' & Hf).
  - done.
  - by rw Em.
  - split; rw ?with_Coins_Address ?with_Coins_Coins ?Ea; [done|by apply valid_fit|]. rw Eacc Em. apply Hsup.
  - rw with_Coins_Coins Em. done.
  - exists c', st'. split; [|split; [done|split; [by eapply auth_frame_trans|by apply (set_account_change st st0 a cs st')]]].
    unfold write_coins_of. rw (M_bind_Ok _ _ _ _ _ _ (get_synced a caller c st Hs Hden Ha Hsy)) (M_bind_Ok _ _ _ _ _ _ Hrun0).
    by rw (M_bind_Ok _ _ _ _ _ _ (or_panic_run _ _ _ _ _ (lift_Ok _ _ _ c0 (SetCoins_ok (account_at st a) cs)))).
Qed.

Lemma change_ext st a amt amt' sup sup' st' : (∀ d, amt d = amt' d) → (∀ d, sup d = sup' d) →
  account_change st a amt sup st' → account_change st a amt' sup' st'.
Proof.
  intros Ha Hs [(cs & E & Hv & Hcs) Hn Hvm Hcur Hsup Hsy]. split; [|done| |done| |done].
  - exists cs. split; [done|]. split; [done|]. intros d. by rw Hcs Ha.
  - intros x d. by rw Hvm Ha.
  - intros d. by rw Hsup Hs.
Qed.

(** ** The operations *)

(** There is room for [coin] on the account of [a], and in the supply when [a] is new. *)
Record payable st a (coin : Coin) : Prop := {
  py_addr : addr_ok a;
  py_synced : synced st a;
  py_amount : 0 < coin_Amount coin;
  py_fits d : amount_of (coins_at st a) d + amount_of [coin] d < 2 ^ 128;
  py_registered : is_Some (as_currencies st !! coin_Denom coin);
  py_supply : unknown st a → ccs_spec.supply_fits (as_currencies st) (coin_Denom coin) (coin_Amount coin);
}.

Lemma valid_one m coin : denoms_ok m → is_Some (m !! coin_Denom coin) → 0 < coin_Amount coin → valid_coins [coin].
Proof.
  intros Hden [cur E] Hpos. split; [split|]; [apply NoDup_singleton|by apply Forall_singleton|]. apply Forall_singleton. by apply (Hden _ cur).
Qed.

Lemma coins_registered st a : synced st a → registered (as_currencies st) (coins_at st a).
Proof.
  intros Hsy c Hc. unfold coins_at in Hc. destruct (as_accounts st !! a) as [acc|] eqn:E; [|by apply elem_of_nil in Hc].
  by apply (synced_registered st a acc).
Qed.

(** Coins by their amounts are registered when all positive amounts are. *)
Lemma amounts_registered m cs : coins_valid cs → (∀ d, amount_of cs d ≠ 0 → is_Some (m !! d)) → registered m cs.
Proof.
  intros [Hnd Hpos] Hm c Hc. apply Hm. rw (coin_amount cs c Hnd Hc). rewrite Forall_forall in Hpos. specialize (Hpos c Hc). lia.
Qed.
Lemma registered_amounts m cs d : registered m cs → amount_of cs d ≠ 0 → is_Some (m !! d).
Proof. intros Hreg Hd. destruct (m !! d) eqn:E; [by eexists|]. by rw (registered_amount m cs d Hreg E) in Hd. Qed.

Lemma AddCoins_run a coin caller c st : auth_holds c st → denoms_ok (as_currencies st) → payable st a coin →
  ∃ c' st', bank_AddCoins a [coin] caller c = (Ok tt, c') ∧ auth_holds c' st' ∧ auth_frame c c' ∧
    account_change st a (amount_of [coin]) (λ d, if decide (unknown st a) then amount_of [coin] d else 0) st'.
Proof.
  intros Hs Hden [Ha Hsy Hpos Hfit Hreg Hsup]. destruct (synced_coins st a Hsy) as [Hv _].
  destruct (Coins_Add_ok (coins_at st a) coin) as (r & Hr & Hvr & Hm); [done|lia| |].
  { specialize (Hfit (coin_Denom coin)). rw amount_of_one decide_True in Hfit; [|done]. assert (2 ^ 128 < maxInt) by done. lia. }
  assert (registered (as_currencies st) r) as Hregr.
  { apply amounts_registered; [done|]. intros d. rw Hm amount_of_one. case_decide as E; [by subst d|]. rw Z.add_0_r.
    apply registered_amounts, coins_registered, Hsy. }
  destruct (write_coins_run a r caller c st Hs Hden) as (c' & st' & Hrun & Hs' & Hf & Hch).
  { split; [done|done|done| |done|].
    - intros d. by rw Hm.
    - intros Hu x Hx cur E. specialize (Hsup Hu). rw -(coin_amount r x (proj1 Hvr) Hx) Hm.
      assert (coins_at st a = []) as -> by (unfold coins_at; by rw Hu). rw amount_of_nil amount_of_one. case_decide as Ed.
      + rw -Ed in E. specialize (Hsup cur E). lia.
      + exfalso. pose proof (coin_amount r x (proj1 Hvr) Hx) as Ex. rw Hm in Ex. assert (coins_at st a = []) as E0 by (unfold coins_at; by rw Hu).
        rw E0 amount_of_nil amount_of_one decide_False in Ex; [|done]. destruct Hvr as [_ Hp]. rewrite Forall_forall in Hp. specialize (Hp x Hx). lia. }
  exists c', st'. split; [|split; [done|split; [done|]]].
  - rw AddCoins_over; [|by apply (valid_one (as_currencies st))]. rw (M_bind_Ok _ _ _ _ _ _ (read_coins_run a caller c st Hs Hden Ha Hsy)).
    rw (M_bind_Ok _ _ _ _ _ _ (lift_Ok _ _ _ c Hr)). rw SetCoins_over; [done|by apply (registered_valid (as_currencies st))].
  - eapply change_ext; [| |exact Hch].
    + intros d. cbv beta. rw Hm. lia.
    + intros d. unfold new_supply. destruct (decide (unknown st a)) as [Hu|]; [|done]. rw Hm.
      assert (coins_at st a = []) as -> by (unfold coins_at; by rw Hu). by rw amount_of_nil.
Qed.

Lemma SubtractCoins_run a coin caller c st : auth_holds c st → denoms_ok (as_currencies st) → addr_ok a → synced st a →
  0 < coin_Amount coin → is_Some (as_currencies st !! coin_Denom coin) → (∀ d, amount_of (coins_at st a) d < 2 ^ 128) →
  if coin_Amount coin <=? amount_of (coins_at st a) (coin_Denom coin) then
    ∃ c' st', bank_SubtractCoins a [coin] caller c = (Ok tt, c') ∧ auth_holds c' st' ∧ auth_frame c c' ∧
      account_change st a (λ d, - amount_of [coin] d) (λ _, 0) st'
  else bank_SubtractCoins a [coin] caller c = (Err ErrInsufficientFunds, c).
Proof.
  intros Hs Hden Ha Hsy Hpos Hreg Hfit. destruct (synced_coins st a Hsy) as [Hv _].
  assert (bank_SubtractCoins a [coin] caller c = (if amount_of (coins_at st a) (coin_Denom coin) <? coin_Amount coin then throw ErrInsufficientFunds
    else new ← lift (Coins_Sub (coins_at st a) [coin]); bank_SetCoins a new) caller c) as E0.
  { rw SubtractCoins_over; [|by apply (valid_one (as_currencies st))]. by rw (M_bind_Ok _ _ _ _ _ _ (read_coins_run a caller c st Hs Hden Ha Hsy)). }
  rw E0. destruct (Z.leb_spec (coin_Amount coin) (amount_of (coins_at st a) (coin_Denom coin))) as [Hle|Hgt].
  2:{ by rw (proj2 (Z.ltb_lt _ _) Hgt). }
  rw (proj2 (Z.ltb_ge _ _) Hle). destruct (Coins_Sub_ok (coins_at st a) coin) as (r & Hr & Hvr & Hm); [done|lia|].
  assert (¬ unknown st a) as Hk.
  { intros Hu. assert (coins_at st a = []) as E by (unfold coins_at; by rw Hu). rw E amount_of_nil in Hle. lia. }
  assert (registered (as_currencies st) r) as Hregr.
  { apply amounts_registered; [done|]. intros d. rw Hm amount_of_one. case_decide as E; [by subst d|]. rw Z.sub_0_r.
    apply registered_amounts, coins_registered, Hsy. }
  destruct (write_coins_run a r caller c st Hs Hden) as (c' & st' & Hrun & Hs' & Hf & Hch).
  { split; [done|done|done| |done|done]. intros d. rw Hm amount_of_one. specialize (Hfit d). case_decide; lia. }
  exists c', st'. split; [|split; [done|split; [done|]]].
  - rw (M_bind_Ok _ _ _ _ _ _ (lift_Ok _ _ _ c Hr)). rw SetCoins_over; [done|by apply (registered_valid (as_currencies st))].
  - eapply change_ext; [| |exact Hch].
    + intros d. cbv beta. rw Hm. lia.
    + intros d. unfold new_supply. by rw decide_False.
Qed.
End facts.
