(* ===== verification/Currencies.v ===== *)
(** * Currencies ([x/currencies])

    Coins of registered currencies are issued by multi signature calls and withdrawn
    by their owners; the module keeps every issue under the ID its caller chose and
    numbers the withdraws.  Each operation changes the coins of an account through the bank,
    the supply kept by [x/ccstorage] and the total supply of the supply keeper. *)
From S2P Require Import Prelude Bytes Sdk SdkRef SdkFacts DnTypes Perms Chain SdkBank Currency VMStorage CCStorage.
Local Open Scope string_scope.
Local Open Scope Z_scope.

(** A deferred [recover] that turns a panic into an error; the writes before it stay. *)
Definition recovering `{KV : KVStore} `{LG : Ledger} {A} (e : error) (m : M A) : M A := λ caller c,
  match m caller c with
  | (Panic, c') => (Err e, c')
  | r => r
  end.

(** The supply keeper's state, to read from. *)
Definition bank_state `{KV : KVStore} `{LG : Ledger} : M ledger := λ _ c, (Ok (ctx_bank c), c).

Module currencies.

Definition ModuleName := "currencies".
Definition RouterKey := ModuleName.
Definition StoreKey := ModuleName.
Definition GovRouterKey := RouterKey.
Definition PermInit := ModuleName +:+ "PermInit".
Definition PermCreate := ModuleName +:+ "PermCreate".
Definition PermIssue := ModuleName +:+ "PermIssue".
Definition PermWithdraw := ModuleName +:+ "PermWithdraw".
Definition PermRead := ModuleName +:+ "PermRead".
Definition AvailablePermissions : list string := [PermInit; PermCreate; PermIssue; PermWithdraw; PermRead].
Definition NewModulePerms : ModulePermissions := NewModulePermissions ModuleName AvailablePermissions.
Definition RequestCCStoragePerms : RequestModulePermissions :=
  (ModuleName, [ccstorage.PermCreate; ccstorage.PermUpdate; ccstorage.PermRead]).

Definition ErrInternal := Registered ModuleName 100.
Definition ErrWrongDenom := Registered ModuleName 101.
Definition ErrWrongAmount := Registered ModuleName 102.
Definition ErrWrongIssueID := Registered ModuleName 103.
Definition ErrWrongWithdrawID := Registered ModuleName 104.
Definition ErrWrongPegZonePayee := Registered ModuleName 105.
Definition ErrGovInvalidProposal := Registered ModuleName 200.
Definition ErrForceUnstake := Registered ModuleName 300.
Definition ErrNulifyBalance := Registered ModuleName 301.
Definition ErrAccountBanned := Registered ModuleName 303.

Definition MintDenom := "xfi".
Definition MintEventType := "mint".

(** ** Keys *)
Definition IssuePrefix := "issue".
Definition WithdrawPrefix := "withdraw".
Definition KeyDelimiter := ":".
Definition GetIssuesKey (id : string) : string := Join KeyDelimiter [IssuePrefix; id].
Definition GetIssuesPrefix : string := IssuePrefix +:+ KeyDelimiter.
Definition GetWithdrawsPrefix : string := WithdrawPrefix +:+ KeyDelimiter.
Definition MustParseIssueKey (key : string) : outcome string :=
  match Split ":" key with
  | [v0; v1] => panic_if (negb (bool_decide (v0 = IssuePrefix)));; Ok v1
  | _ => Panic
  end.
Definition GetLastWithdrawIDKey : string := "lastWithdrawID".

(** ** Issues and withdraws *)
Record Issue := MkIssue { iss_Coin : Coin; iss_Payee : AccAddress }.
Record Withdraw := MkWithdraw {
  w_ID : ID;
  w_Coin : Coin;
  w_Spender : AccAddress;
  w_PegZoneSpender : string;
  w_PegZoneChainID : string;
  w_Timestamp : Z;
  w_TxHash : string;
}.

(** ** Messages *)
Record MsgIssueCurrency := MkMsgIssueCurrency { mic_ID : string; mic_Coin : Coin; mic_Payee : AccAddress }.
Record MsgUnstakeCurrency := MkMsgUnstakeCurrency { muc_ID : string; muc_Staker : AccAddress }.
Record MsgWithdrawCurrency := MkMsgWithdrawCurrency {
  mwc_Coin : Coin; mwc_Payer : AccAddress; mwc_PegZonePayee : string; mwc_PegZoneChainID : string }.
Record AddCurrencyProposal := MkAddCurrencyProposal {
  acp_Denom : string; acp_Decimals : Z; acp_VmBalancePathHex : string; acp_VmInfoPathHex : string;
  acp_ContractAddress : string }.

(** What the multi signature, message and proposal handlers switch on. *)
Inductive MsMsg :=
  | MsMsg_IssueCurrency (msg : MsgIssueCurrency)
  | MsMsg_UnstakeCurrency (msg : MsgUnstakeCurrency)
  | MsMsg_other.
Inductive Msg := Msg_WithdrawCurrency (msg : MsgWithdrawCurrency) | Msg_other.
Inductive Content := Content_AddCurrency (p : AddCurrencyProposal) | Content_other (route : string).

Definition MsgIssueCurrency_GetSigners (msg : MsgIssueCurrency) : list AccAddress := [].
Definition MsgUnstakeCurrency_GetSigners (msg : MsgUnstakeCurrency) : list AccAddress := [].
Definition MsgWithdrawCurrency_GetSigners (msg : MsgWithdrawCurrency) : list AccAddress := [mwc_Payer msg].

(** The contract address of the proposal is not among the parameters. *)
Definition GetCurrencyParams (p : AddCurrencyProposal) : CurrencyParams :=
  MkCurrencyParams (acp_Denom p) (acp_Decimals p) "".

(** ** Queries *)
Record CurrencyReq := MkCurrencyReq { cq_Denom : string }.
Record IssueReq := MkIssueReq { iq_ID : string }.
Record WithdrawReq := MkWithdrawReq { wq_ID : ID }.
Record WithdrawsReq := MkWithdrawsReq { wq_Page : Uint; wq_Limit : Uint }.

Section types.
Context `{ST : SdkTypes}.

Definition GetWithdrawKey (id : ID) : string := Join KeyDelimiter [WithdrawPrefix; ID_String id].

Definition Issue_Valid (issue : Issue) : outcome unit :=
  DenomFilter (coin_Denom (iss_Coin issue));;
  fail_if (coin_Amount (iss_Coin issue) <=? 0) (Plain "coin: amount: LTE to zero");;
  fail_if (bool_decide (iss_Payee issue = "")) (Plain "payee: empty").
Definition NewIssue (coin : Coin) (payee : AccAddress) : Issue := MkIssue coin payee.

Definition Withdraw_Valid (withdraw : Withdraw) (curBlockTime : Z) : outcome unit :=
  ID_Valid (Some (w_ID withdraw));;
  DenomFilter (coin_Denom (w_Coin withdraw));;
  fail_if (coin_Amount (w_Coin withdraw) <=? 0) (Plain "coin: amount: LTE to zero");;
  fail_if (bool_decide (w_Spender withdraw = "")) (Plain "spender: empty");;
  fail_if (bool_decide (w_PegZoneSpender withdraw = "")) (Plain "pegzone_spender: empty");;
  fail_if (w_Timestamp withdraw <=? 0) (Plain "timestamp: invalid");;
  fail_if (bool_decide (w_TxHash withdraw = "")) (Plain "tx_hash: empty");;
  fail_if (negb (curBlockTime =? zero_time) && (curBlockTime <? w_Timestamp withdraw * 10 ^ 9))
    (Plain "timestamp: is after current blockTime").
Definition NewWithdraw (id : ID) (coin : Coin) (spender : AccAddress) (pzSpender pzChainID : string)
    (timestamp : Z) (txBytes : string) : Withdraw :=
  MkWithdraw id coin spender pzSpender pzChainID timestamp (hex_EncodeToString (sha256.Sum256 txBytes)).

(** [sdkErrors.Wrap] of a registered error around another one keeps the first. *)
Definition wrap_as (e : error) (o : outcome unit) : outcome unit := match o with Err _ => Err e | r => r end.

Definition MsgIssueCurrency_ValidateBasic (msg : MsgIssueCurrency) : outcome unit :=
  fail_if (bool_decide (mic_ID msg = "")) ErrWrongIssueID;;
  wrap_as ErrWrongDenom (DenomFilter (coin_Denom (mic_Coin msg)));;
  fail_if (coin_Amount (mic_Coin msg) <=? 0) ErrWrongAmount;;
  fail_if (bool_decide (mic_Payee msg = "")) ErrInvalidAddress.
Definition MsgUnstakeCurrency_ValidateBasic (msg : MsgUnstakeCurrency) : outcome unit :=
  fail_if (bool_decide (muc_ID msg = "")) ErrWrongIssueID;;
  fail_if (bool_decide (muc_Staker msg = "")) ErrInvalidAddress.
Definition MsgWithdrawCurrency_ValidateBasic (msg : MsgWithdrawCurrency) : outcome unit :=
  wrap_as ErrWrongDenom (DenomFilter (coin_Denom (mwc_Coin msg)));;
  fail_if (coin_Amount (mwc_Coin msg) <=? 0) ErrWrongAmount;;
  fail_if (bool_decide (mwc_Payer msg = "")) ErrInvalidAddress;;
  fail_if (bool_decide (mwc_PegZonePayee msg = "")) ErrWrongPegZonePayee.
Definition AddCurrencyProposal_ValidateBasic (p : AddCurrencyProposal) : outcome unit :=
  DenomFilter (acp_Denom p);; ccstorage.CurrencyParams_Validate (GetCurrencyParams p).

(** ** Genesis *)
Record GenesisIssue := MkGenesisIssue { gi_Issue : Issue; gi_ID : string }.
Record GenesisState := MkGenesisState {
  gs_Issues : list GenesisIssue; gs_Withdraws : list Withdraw; gs_LastWithdrawID : option ID }.
Definition DefaultGenesisState : GenesisState := MkGenesisState [] [] None.

Definition GenesisIssue_Valid (issue : GenesisIssue) : outcome unit :=
  Issue_Valid (gi_Issue issue);; fail_if (bool_decide (gi_ID issue = "")) (Plain "id: empty").

Definition Validate_issue (issueIdsSet : gset string) (issue : GenesisIssue) : outcome (gset string) :=
  GenesisIssue_Valid issue;;
  fail_if (bool_decide (gi_ID issue ∈ issueIdsSet)) (Plain "duplicated ID");;
  Ok ({[gi_ID issue]} ∪ issueIdsSet).

Definition Validate_withdraw (curBlockTime : Z) (acc : ID * gset string) (withdraw : Withdraw) : outcome (ID * gset string) :=
  Withdraw_Valid withdraw curBlockTime;;
  fail_if (bool_decide (ID_String (w_ID withdraw) ∈ acc.2)) (Plain "duplicated ID");;
  Ok (if ID_GT (w_ID withdraw) acc.1 then w_ID withdraw else acc.1, {[ID_String (w_ID withdraw)]} ∪ acc.2).

Definition GenesisState_Validate (s : GenesisState) (curBlockTime : Z) : outcome unit :=
  foldM Validate_issue ∅ (gs_Issues s);;
  acc ← foldM (Validate_withdraw curBlockTime) (NewZeroID, ∅) (gs_Withdraws s);
  match gs_LastWithdrawID s with
  | None => fail_if (negb (length (gs_Withdraws s) =? 0)%nat) (Plain "last_withdraw_id: nil with existing withdraws")
  | Some id =>
      fail_if (length (gs_Withdraws s) =? 0)%nat (Plain "last_withdraw_id: not nil without existing withdraws");;
      ID_Valid (Some id);;
      fail_if (negb (ID_Equal id acc.1)) (Plain "last_withdraw_id: not equal to max withdraw ID")
  end.

(** ** Events: [Int.String()] of a coin's amount is decimal *)
Definition Int_String (z : Int) : string := pretty z.
Definition NewIssueEvent (id : string) (coin : Coin) (payee : AccAddress) : Event :=
  MkEvent (ModuleName +:+ ".issue")
    [("issue_id", id); ("denom", coin_Denom coin); ("amount", Int_String (coin_Amount coin)); ("sender", AccAddress_String payee)].
Definition NewWithdrawEvent (id : ID) (coin : Coin) (spender : AccAddress) : Event :=
  MkEvent (ModuleName +:+ ".withdraw")
    [("withdraw_id", ID_String id); ("denom", coin_Denom coin); ("amount", Int_String (coin_Amount coin)); ("sender", AccAddress_String spender)].
End types.

Section keeper.
Context `{ST : SdkTypes} `{SC : SdkCoins} `{KV : KVStore} `{LG : Ledger} {SU : SupplyKeeper} {BK : BankKeeper} `{SK : !Staking} `{VS : !VMStorage}.
Context `{GL : Glav} `{LI : !Lcs ccstorage.ResCurrencyInfo} `{CC : !Codec Currency}.
Context `{CI : !Codec Z} `{CS : !Codec Issue} `{CW : !Codec Withdraw}.
Variable modulePerms : ModulePermissions.
(** The permissions of [x/ccstorage]'s keeper. *)
Variable ccs_perms : ModulePermissions.
(** [ctx.TxBytes()]: the transaction being delivered. *)
Variable TxBytes : string.

Definition CreateCurrency (params : CurrencyParams) : M unit :=
  keeper_method modulePerms PermCreate (ccstorage.CreateCurrency ccs_perms params).

(** [curSupply.SetTotal(f(curSupply.GetTotal()))] and [SetSupply]. *)
Definition change_supply (f : list Coin → outcome (list Coin)) : M unit :=
  bank_call (λ l, total ← f (GetSupply l); Ok (SetSupply l total)).

(** ** Issues *)
Definition HasIssue (id : string) : M bool := keeper_method modulePerms PermRead (kv_Has StoreKey (GetIssuesKey id)).
Definition getIssue (id : string) : M Issue :=
  bz ← kv_Get StoreKey (GetIssuesKey id); MustUnmarshal Bare (default "" bz).
Definition GetIssue (id : string) : M Issue :=
  keeper_method modulePerms PermRead (
    has ← HasIssue id;
    if negb has then throw ErrWrongIssueID else getIssue id).
Definition storeIssue (id : string) (issue : Issue) : M unit :=
  kv_Set StoreKey (GetIssuesKey id) (Marshal Bare issue).

Definition GetGenesisIssues : M (list GenesisIssue) :=
  kvs ← kv_PrefixIterator StoreKey GetIssuesPrefix;
  mapM_ (λ kv,
    issue ← MustUnmarshal Bare kv.2;
    issueID ← lift (MustParseIssueKey kv.1);
    mret (MkGenesisIssue issue issueID)) kvs.

Definition IssueCurrency (id : string) (coin : Coin) (payee : AccAddress) : M unit :=
  keeper_method modulePerms PermIssue (recovering ErrInternal (
    isBanned ← IsAccountBanned payee;
    if (isBanned : bool) then throw ErrAccountBanned
    else
      has ← HasIssue id;
      if (has : bool) then throw ErrWrongIssueID
      else
        ccstorage.GetCurrency ccs_perms (coin_Denom coin);;
        storeIssue id (NewIssue coin payee);;
        r ← attempt (bank_AddCoins payee [coin]);
        match r with
        | Ok _ =>
            ccstorage.IncreaseCurrencySupply ccs_perms coin;;
            change_supply (λ total, Coins_Add total [coin]);;
            EmitEvent (NewIssueEvent id coin payee)
        | _ => throw ErrInternal
        end)).

(** ** Withdraws *)
Definition HasWithdraw (id : ID) : M bool := keeper_method modulePerms PermRead (kv_Has StoreKey (GetWithdrawKey id)).
Definition getWithdraw (id : ID) : M Withdraw :=
  bz ← kv_Get StoreKey (GetWithdrawKey id); MustUnmarshal Bare (default "" bz).
Definition GetWithdraw (id : ID) : M Withdraw :=
  keeper_method modulePerms PermRead (
    has ← HasWithdraw id;
    if negb has then throw ErrWrongWithdrawID else getWithdraw id).
Definition getWithdraws : M (list Withdraw) :=
  kvs ← kv_PrefixIterator StoreKey GetWithdrawsPrefix;
  mapM_ (λ kv, MustUnmarshal Bare kv.2) kvs.
Definition storeWithdraw (withdraw : Withdraw) : M unit :=
  kv_Set StoreKey (GetWithdrawKey (w_ID withdraw)) (Marshal Bare withdraw).
Definition setLastWithdrawID (id : ID) : M unit := kv_Set StoreKey GetLastWithdrawIDKey (Marshal Bare id).
Definition hasLastWithdrawID : M bool := kv_Has StoreKey GetLastWithdrawIDKey.
Definition getLastWithdrawID : M ID :=
  bz ← kv_Get StoreKey GetLastWithdrawIDKey; MustUnmarshal Bare (default "" bz).
Definition getNextWithdrawID : M ID :=
  has ← hasLastWithdrawID;
  if negb has then mret (NewIDFromUint64 0)
  else lastID ← getLastWithdrawID; lift (ID_Incr lastID).

(** The loop from [startID]: it stops at the first ID without a withdraw. *)
Fixpoint withdraws_from (fuel : nat) (startID : Uint) : M (list Withdraw) :=
  match fuel with
  | O => mret []
  | S fuel' =>
      match NewIDFromString (Uint_String startID) with
      | Ok id =>
          r ← attempt (GetWithdraw id);
          match r with
          | Ok withdraw =>
              next ← lift (Uint_Add startID 1);
              rest ← withdraws_from fuel' next;
              mret (withdraw :: rest)
          | _ => mret []
          end
      | _ => panic
      end
  end.

Definition GetWithdrawsFiltered (params : WithdrawsReq) : M (list Withdraw) :=
  keeper_method modulePerms PermRead (
    page ← (if 0 <? wq_Page params then lift (Uint_Sub (wq_Page params) 1) else mret (wq_Page params));
    startID ← lift (Uint_Mul page (wq_Limit params));
    endID ← lift (Uint_Add startID (wq_Limit params));
    withdraws_from (Z.to_nat (endID - startID)) startID).

Definition WithdrawCurrency (coin : Coin) (spender : AccAddress) (recipient chainID : string) : M unit :=
  keeper_method modulePerms PermWithdraw (recovering ErrInternal (
    ccstorage.GetCurrency ccs_perms (coin_Denom coin);;
    newId ← getNextWithdrawID;
    blockTime ← BlockTime;
    let withdraw := NewWithdraw newId coin spender recipient chainID (Unix blockTime) TxBytes in
    storeWithdraw withdraw;;
    setLastWithdrawID newId;;
    newCoins ← lift (NewCoins [coin]);
    bank_SubtractCoins spender newCoins;;
    ccstorage.DecreaseCurrencySupply ccs_perms coin;;
    change_supply (λ total, Coins_Sub total newCoins);;
    EmitEvent (NewWithdrawEvent (w_ID withdraw) coin spender))).

(** ** Unstaking

    [balances.Sub] of a coin of [balances]; [curSupply] is written at the end. *)
Definition unstake_coin (stakingDenom liquidityDenom : string) (acc : list Coin * list Coin) (balance : Coin)
    : M (list Coin * list Coin) :=
  if bool_decide (coin_Denom balance = stakingDenom) || bool_decide (coin_Denom balance = liquidityDenom) then
    balances ← lift (Coins_Sub acc.1 [balance]);
    r ← attempt (ccstorage.DecreaseCurrencySupply ccs_perms balance);
    match r with
    | Ok _ => curSupply ← lift (Coins_Sub acc.2 [balance]); mret (balances, curSupply)
    | _ => throw ErrInternal
    end
  else mret acc.

Fixpoint unstake_coins (stakingDenom liquidityDenom : string) (acc : list Coin * list Coin) (l : list Coin)
    : M (list Coin * list Coin) :=
  match l with
  | [] => mret acc
  | balance :: l' => acc ← unstake_coin stakingDenom liquidityDenom acc balance; unstake_coins stakingDenom liquidityDenom acc l'
  end.

(** No permission is checked. *)
Definition UnstakeCurrency (staker : AccAddress) : M unit :=
  in_module ModuleName (
    stakingDenom ← BondDenom;
    liquidityDenom ← LPDenom;
    r ← attempt (ForceRemoveDelegator staker);
    match r with
    | Ok _ =>
        coins ← bank_GetCoins staker;
        l ← bank_state;
        acc ← unstake_coins stakingDenom liquidityDenom (coins, GetSupply l) coins;
        r ← attempt (bank_SetCoins staker acc.1);
        match r with
        | Ok _ =>
            bank_call (λ l, Ok (SetSupply l acc.2));;
            height ← BlockHeight;
            BanAccount staker height
        | _ => throw ErrNulifyBalance
        end
    | _ => throw ErrForceUnstake
    end).

(** ** Handlers *)
Definition handleMsMsgIssueCurrency (msg : MsgIssueCurrency) : M unit :=
  IssueCurrency (mic_ID msg) (mic_Coin msg) (mic_Payee msg);;
  EmitEvent (NewModuleNameEvent ModuleName).
Definition handleMsMsgUnstakeCurrency (msg : MsgUnstakeCurrency) : M unit := UnstakeCurrency (muc_Staker msg).
Definition NewMsHandler (msg : MsMsg) : M unit :=
  in_module ModuleName
    match msg with
    | MsMsg_IssueCurrency msg => handleMsMsgIssueCurrency msg
    | MsMsg_UnstakeCurrency msg => handleMsMsgUnstakeCurrency msg
    | MsMsg_other => throw ErrUnknownRequest
    end.

Definition handleMsgWithdraw (msg : MsgWithdrawCurrency) : M Result :=
  WithdrawCurrency (mwc_Coin msg) (mwc_Payer msg) (mwc_PegZonePayee msg) (mwc_PegZoneChainID msg);;
  EmitEvent (NewModuleNameEvent ModuleName);;
  events ← Events;
  mret (MkResult "" events).
Definition NewHandler (msg : Msg) : M Result :=
  in_module ModuleName (WithEventManager
    match msg with
    | Msg_WithdrawCurrency msg => handleMsgWithdraw msg
    | Msg_other => throw ErrUnknownRequest
    end).

Definition handleAddCurrencyProposal (p : AddCurrencyProposal) : M unit :=
  r ← attempt (CreateCurrency (GetCurrencyParams p));
  match r with
  | Ok _ => EmitEvent (NewModuleNameEvent ccstorage.ModuleName)
  | _ => throw ErrGovInvalidProposal
  end.
Definition NewGovHandler (c : Content) : M unit :=
  in_module ModuleName
    match c with
    | Content_AddCurrency p => handleAddCurrencyProposal p
    | Content_other route =>
        if bool_decide (route = GovRouterKey) then throw (Plain "unsupported proposal content type")
        else throw (Plain "invalid proposal route")
    end.

(** The amount of the first attribute of that key. *)
Definition mint_amount (attrs : list (string * string)) : option string :=
  match filter (λ attr, attr.1 = "amount") attrs with attr :: _ => Some attr.2 | [] => None end.
Definition BeginBlocker_event (event : Event) : M unit :=
  if bool_decide (ev_Type event = MintEventType) then
    match mint_amount (ev_Attributes event) with
    | Some value =>
        match NewIntFromString value with
        | None => panic
        | Some amount =>
            coin ← lift (NewCoin MintDenom amount);
            r ← attempt (ccstorage.IncreaseCurrencySupply ccs_perms coin);
            match r with Ok _ => mret tt | _ => panic end
        end
    | None => mret tt
    end
  else mret tt.
Definition BeginBlocker : M unit :=
  in_module ModuleName (
    height ← BlockHeight;
    if 1 <? height then events ← Events; forM events BeginBlocker_event else mret tt).

(** ** The invariant: the two lists it compares are the same list *)
Fixpoint sum_supplies (coins : list Coin) (l : list Currency) : outcome (list Coin) :=
  match l with
  | [] => Ok coins
  | currency :: l' => coin ← GetSupplyCoin currency; coins ← Coins_Add coins [coin]; sum_supplies coins l'
  end.
Definition TotalSupply : M bool :=
  in_module ModuleName (
    l ← bank_state;
    supplyCoins ← lift (Coins_Add [] (GetSupply l));
    currencies ← ccstorage.GetCurrencies ccs_perms;
    currenciesCoins ← lift (sum_supplies [] currencies);
    equal ← lift (Coins_IsEqual currenciesCoins currenciesCoins);
    mret (negb equal)).

(** ** Genesis *)
Definition InitGenesis (state : GenesisState) : M unit :=
  keeper_method modulePerms PermInit (
    blockTime ← BlockTime;
    match GenesisState_Validate state blockTime with
    | Ok _ =>
        match gs_LastWithdrawID state with Some id => setLastWithdrawID id | None => mret tt end;;
        forM (gs_Issues state) (λ issue,
          has ← ccstorage.HasCurrency ccs_perms (coin_Denom (iss_Coin (gi_Issue issue)));
          if negb has then panic else storeIssue (gi_ID issue) (gi_Issue issue));;
        forM (gs_Withdraws state) (λ withdraw,
          has ← ccstorage.HasCurrency ccs_perms (coin_Denom (w_Coin withdraw));
          if negb has then panic else storeWithdraw withdraw)
    | _ => panic
    end).

Definition ExportGenesis : M GenesisState :=
  keeper_method modulePerms PermRead (
    has ← hasLastWithdrawID;
    lastID ← (if (has : bool) then id ← getLastWithdrawID; mret (Some id) else mret None);
    issues ← GetGenesisIssues;
    withdraws ← getWithdraws;
    mret (MkGenesisState issues withdraws lastID)).

(** ** Queries *)
Context `{JC : !Codec CurrencyReq} `{JI : !Codec IssueReq} `{JW : !Codec WithdrawReq} `{JS : !Codec WithdrawsReq}.
Context `{JL : !Codec (list Withdraw)} `{JM : !Codec (list Currency)}.

Definition queryGetWithdraws (data : string) : M string :=
  match Unmarshal JSON data with
  | None => throw ErrInternal
  | Some params =>
      r ← attempt (GetWithdrawsFiltered params);
      match r with Ok withdraws => mret (Marshal JSON withdraws) | _ => throw ErrInternal end
  end.
Definition queryGetWithdraw (data : string) : M string :=
  match Unmarshal JSON data with
  | None => throw ErrInternal
  | Some params => withdraw ← GetWithdraw (wq_ID params); mret (Marshal JSON withdraw)
  end.
Definition queryGetIssue (data : string) : M string :=
  match Unmarshal JSON data with
  | None => throw ErrInternal
  | Some params => issue ← GetIssue (iq_ID params); mret (Marshal JSON issue)
  end.
Definition queryGetCurrency (data : string) : M string :=
  match Unmarshal JSON data with
  | None => throw ErrInternal
  | Some params => currency ← ccstorage.GetCurrency ccs_perms (cq_Denom params); mret (Marshal JSON currency)
  end.
Definition queryGetCurrencies : M string :=
  currencies ← ccstorage.GetCurrencies ccs_perms; mret (Marshal JSON currencies).

Definition NewQuerier (path : list string) (data : string) : M string :=
  in_module ModuleName
    match path with
    | [] => panic
    | p :: _ =>
        if decide (p = "withdraws") then queryGetWithdraws data
        else if decide (p = "withdraw") then queryGetWithdraw data
        else if decide (p = "issue") then queryGetIssue data
        else if decide (p = "currency") then queryGetCurrency data
        else if decide (p = "currencies") then queryGetCurrencies
        else throw ErrUnknownRequest
    end.
End keeper.

Definition NewKeeper (permsRequesters : list RequestModulePermissions) : outcome ModulePermissions :=
  foldM AutoAddRequester NewModulePerms permsRequesters.
End currencies.
