(* ===== verification/CurrenciesFacts.v ===== *)
(** * Currencies: the state as maps, and what every write does to it

    A [world] is what the module's operations work on: the accounts with their Move
    balances and the currencies, the issues by ID, the withdraws by number.  The
    lemmas say what the writes to the module's store and to the total supply do. *)
From S2P Require Import Prelude Bytes Sdk SdkRef SdkFacts DnTypes Perms Chain SdkBank Currency VMStorage CCStorage CCStorageFacts SdkAuth BalanceFacts VMAuth VMAuthFacts BankKeeper Currencies.
Local Open Scope string_scope.
Local Open Scope Z_scope.
Local Open Scope list_scope.

(** ** Keys *)
Section keys.
Context `{SdkTypesLaws}.
Import currencies.

Lemma GetIssuesKey_inj a b : GetIssuesKey a = GetIssuesKey b → a = b.
Proof. intros E. by apply (string_app_inj_len "issue:" "issue:") in E as [_ E]. Qed.
Lemma GetWithdrawKey_inj a b : 0 ≤ a → 0 ≤ b → GetWithdrawKey a = GetWithdrawKey b → a = b.
Proof. intros Ha Hb E. apply (string_app_inj_len "withdraw:" "withdraw:") in E as [_ E]; [|done]. by apply Uint_String_inj. Qed.
End keys.

Ltac other_keys := repeat match goal with
  | |- context [store_Get (store_Set _ _ _) _] => rewrite store_Get_Set_ne; [|let E := fresh in intros E; discriminate E]
  end.

Record world := MkWorld {
  wd_auth : auth_state;
  wd_issues : gmap string currencies.Issue;
  wd_withdraws : gmap Z currencies.Withdraw;
  wd_last : option Z;
}.
Definition wd_currencies (w : world) : gmap string Currency := as_currencies (wd_auth w).

(** ** The operations on the world *)
Module cc_spec.
Import currencies.

Definition set_auth (w : world) (st : auth_state) : world := MkWorld st (wd_issues w) (wd_withdraws w) (wd_last w).
Definition add_issue (w : world) (id : string) (i : Issue) : world :=
  MkWorld (wd_auth w) (<[id := i]> (wd_issues w)) (wd_withdraws w) (wd_last w).
Definition add_withdraw (w : world) (x : Withdraw) : world :=
  MkWorld (wd_auth w) (wd_issues w) (<[w_ID x := x]> (wd_withdraws w)) (Some (w_ID x)).
Definition next_id (w : world) : Z := match wd_last w with Some l => l + 1 | None => 0 end.

(** What an issue and a withdraw are refused for, before the coins move. *)
Definition registered_denom (w : world) (d : string) : outcome unit :=
  match wd_currencies w !! d with Some _ => Ok tt | None => Err ccstorage.ErrWrongDenom end.
Definition issue_check (banned : bool) (w : world) (id : string) (coin : Coin) : outcome unit :=
  fail_if banned ErrAccountBanned;;
  fail_if (bool_decide (is_Some (wd_issues w !! id))) ErrWrongIssueID;;
  registered_denom w (coin_Denom coin).

(** Taking [f d] units of every denomination [d] off its supply. *)
Definition burn (m : gmap string Currency) (f : string → Z) : gmap string Currency :=
  map_imap (λ d cur, Some (ccstorage.with_Supply cur (cur_Supply cur - f d))) m.
Definition is_staking (stakingDenom liquidityDenom d : string) : bool :=
  bool_decide (d = stakingDenom) || bool_decide (d = liquidityDenom).
End cc_spec.

Lemma lookup_burn m f d : cc_spec.burn m f !! d = (λ cur, ccstorage.with_Supply cur (cur_Supply cur - f d)) <$> m !! d.
Proof. unfold cc_spec.burn. rw map_lookup_imap. by destruct (m !! d). Qed.
Lemma with_Supply_same cur : ccstorage.with_Supply cur (cur_Supply cur) = cur.
Proof. by destruct cur. Qed.
Lemma burn_zero m f : (∀ d, f d = 0) → cc_spec.burn m f = m.
Proof.
  intros Hf. apply map_eq. intros d. rw lookup_burn Hf. destruct (m !! d) as [cur|]; [|done]. simpl.
  by rw Z.sub_0_r with_Supply_same.
Qed.
Lemma same_burn m f : same_currencies m (cc_spec.burn m f).
Proof. intros d. rw lookup_burn. by destruct (m !! d). Qed.

Lemma supply_of st d cur : as_currencies st !! d = Some cur → auth_spec.supply st d = cur_Supply cur.
Proof. unfold auth_spec.supply. by intros ->. Qed.
Lemma supply_burn st f d : (as_currencies st !! d = None → f d = 0) →
  auth_spec.supply (with_currencies st (cc_spec.burn (as_currencies st) f)) d = auth_spec.supply st d - f d.
Proof.
  intros Hf. unfold auth_spec.supply. cbn [as_currencies with_currencies]. rw lookup_burn. destruct (as_currencies st !! d); [done|]. rw Hf; done.
Qed.

Section facts.
Context `{SdkTypesLaws} `{SdkCoinsLaws} `{KVStoreLaws} `{LG : Ledger} {SU : SupplyKeeper} {SUL : SupplyKeeperLaws}.
Context `{CI : !Codec Z} `{CS : !Codec currencies.Issue} `{CW : !Codec currencies.Withdraw}.
Import currencies.
Implicit Types (s : store) (c : Ctx) (w : world) (m : gmap string Currency) (d : string) (st : auth_state).
Notation cc_store c := (ctx_stores c StoreKey).

(** *** The module's own store *)
Record cc_holds s w : Prop := {
  cc_issue id : store_Get s (GetIssuesKey id) = Marshal Bare <$> wd_issues w !! id;
  cc_withdraw id : 0 ≤ id → store_Get s (GetWithdrawKey id) = Marshal Bare <$> wd_withdraws w !! id;
  cc_last : store_Get s GetLastWithdrawIDKey = Marshal Bare <$> wd_last w;
  cc_withdraw_only k v : has_prefix GetWithdrawsPrefix k → store_Get s k = Some v → ∃ id, 0 ≤ id ∧ k = GetWithdrawKey id;
}.

(** The withdraws are numbered from zero without gaps. *)
Record cc_inv w : Prop := {
  ci_withdraw id x : wd_withdraws w !! id = Some x → w_ID x = id;
  ci_dense id : is_Some (wd_withdraws w !! id) ↔ 0 ≤ id < cc_spec.next_id w;
  ci_last l : wd_last w = Some l → 0 ≤ l < maxUint;
}.

Lemma next_id_nonneg w : cc_inv w → 0 ≤ cc_spec.next_id w.
Proof. intros Hi. unfold cc_spec.next_id. destruct (wd_last w) as [l|] eqn:E; [|done]. pose proof (ci_last _ Hi l E). lia. Qed.

Lemma cc_holds_same s w st : cc_holds s w → cc_holds s (cc_spec.set_auth w st).
Proof. by intros []. Qed.

Lemma holds_add_issue s w id i : cc_holds s w → cc_holds (store_Set s (GetIssuesKey id) (Marshal Bare i)) (cc_spec.add_issue w id i).
Proof.
  intros Hs. split; simpl.
  - intros id'. destruct (decide (id = id')) as [<-|Hne]; [by rw store_Get_Set_eq lookup_insert_eq|].
    rw store_Get_Set_ne; [|by intros E%GetIssuesKey_inj]. rw lookup_insert_ne; [|done]. by apply Hs.
  - intros id' Hid. other_keys. by apply Hs.
  - other_keys. by apply Hs.
  - intros k v [t ->]. other_keys. apply Hs. by exists t.
Qed.

Lemma holds_add_withdraw s w x : cc_holds s w → 0 ≤ w_ID x →
  cc_holds (store_Set (store_Set s (GetWithdrawKey (w_ID x)) (Marshal Bare x)) GetLastWithdrawIDKey (Marshal Bare (w_ID x)))
    (cc_spec.add_withdraw w x).
Proof.
  intros Hs Hx. split; simpl.
  - intros id. other_keys. by apply Hs.
  - intros id Hid. other_keys. destruct (decide (w_ID x = id)) as [<-|Hne]; [by rw store_Get_Set_eq lookup_insert_eq|].
    rw store_Get_Set_ne; [|by intros E%GetWithdrawKey_inj]. rw lookup_insert_ne; [|done]. by apply Hs.
  - by rw store_Get_Set_eq.
  - intros k v Hk. destruct (decide (k = GetWithdrawKey (w_ID x))) as [->|Hne]; [intros _; by exists (w_ID x)|].
    destruct Hk as [t ->]. other_keys. rw store_Get_Set_ne; [|congruence]. apply Hs. by exists t.
Qed.

Lemma inv_set_auth w st : cc_inv w → cc_inv (cc_spec.set_auth w st).
Proof. by intros []. Qed.
Lemma inv_add_issue w id i : cc_inv w → cc_inv (cc_spec.add_issue w id i).
Proof. by intros []. Qed.

Lemma inv_add_withdraw w x : cc_inv w → w_ID x = cc_spec.next_id w → cc_spec.next_id w < maxUint →
  cc_inv (cc_spec.add_withdraw w x).
Proof.
  intros Hi Hx Hlt. pose proof (next_id_nonneg w Hi). split; simpl.
  - intros id y. rw lookup_insert. case_decide as E; [intros [= <-]; done|by apply Hi].
  - intros id. unfold cc_spec.next_id at 1. simpl. rw lookup_insert. case_decide as E.
    + split; [intros _; lia|done].
    + rw (ci_dense _ Hi). lia.
  - intros l [= <-]. lia.
Qed.

(** *** Reading the module's store *)
Lemma getLast_run caller c w l : cc_holds (cc_store c) w → wd_last w = Some l → getLastWithdrawID caller c = (Ok l, c).
Proof.
  intros Hs E. unfold getLastWithdrawID, mbind, M_bind, kv_Get. rw (cc_last _ _ Hs) E. simpl. unfold MustUnmarshal. by rw Unmarshal_Marshal.
Qed.

Lemma getNextWithdrawID_run caller c w : cc_holds (cc_store c) w → cc_inv w → cc_spec.next_id w < maxUint →
  getNextWithdrawID caller c = (Ok (cc_spec.next_id w), c).
Proof.
  intros Hs Hi Hlt. unfold getNextWithdrawID. rw (M_bind_Ok _ _ _ c (bool_decide (is_Some (wd_last w))) c).
  - unfold cc_spec.next_id in *. destruct (wd_last w) as [l|] eqn:E; [|done]. simpl. rw (M_bind_Ok _ _ _ _ _ _ (getLast_run caller c w l Hs E)).
    apply lift_Ok, Uint_Add_ok; pose proof (ci_last _ Hi l E); lia.
  - unfold hasLastWithdrawID, kv_Has, store_Has. rw (cc_last _ _ Hs). do 2 f_equal. apply bool_decide_ext, fmap_is_Some.
Qed.

(** *** The total supply *)
Definition total_supply c (d : string) : Z := amount_of (GetSupply (ctx_bank c)) d.

Lemma fits_lt z : z < 2 ^ 128 → z < maxInt.
Proof. assert (2 ^ 128 < maxInt) by done. lia. Qed.

(** A change of the total leaves everything but the supply keeper's state alone. *)
Lemma change_supply_run f caller c r : f (GetSupply (ctx_bank c)) = Ok r →
  change_supply f caller c = (Ok tt, set_bank c (SetSupply (ctx_bank c) r)) ∧
  GetSupply (ctx_bank (set_bank c (SetSupply (ctx_bank c) r))) = r.
Proof. intros Hr. split; [|apply GetSupply_SetSupply]. unfold change_supply, bank_call. by rw Hr. Qed.

Lemma increase_supply_run coin caller c : 0 ≤ coin_Amount coin → coins_valid (GetSupply (ctx_bank c)) →
  total_supply c (coin_Denom coin) + coin_Amount coin < maxInt →
  ∃ l', change_supply (λ total, Coins_Add total [coin]) caller c = (Ok tt, set_bank c l') ∧ coins_valid (GetSupply l') ∧
    ∀ d, amount_of (GetSupply l') d = total_supply c d + amount_of [coin] d.
Proof.
  intros Hc Hv Hlt. destruct (Coins_Add_ok (GetSupply (ctx_bank c)) coin) as (r & Hr & Hvr & Hm); [done..|].
  destruct (change_supply_run (λ total, Coins_Add total [coin]) caller c r Hr) as [Hrun E]. cbn [ctx_bank set_bank] in E.
  eexists. split; [exact Hrun|]. rw E. done.
Qed.

Lemma decrease_supply_run coin caller c : 0 ≤ coin_Amount coin → coins_valid (GetSupply (ctx_bank c)) →
  coin_Amount coin ≤ total_supply c (coin_Denom coin) →
  ∃ l', change_supply (λ total, Coins_Sub total [coin]) caller c = (Ok tt, set_bank c l') ∧ coins_valid (GetSupply l') ∧
    ∀ d, amount_of (GetSupply l') d = total_supply c d - amount_of [coin] d.
Proof.
  intros Hc Hv Hle. destruct (Coins_Sub_ok (GetSupply (ctx_bank c)) coin) as (r & Hr & Hvr & Hm); [done..|].
  destruct (change_supply_run (λ total, Coins_Sub total [coin]) caller c r Hr) as [Hrun E]. cbn [ctx_bank set_bank] in E.
  eexists. split; [exact Hrun|]. rw E. done.
Qed.
End facts.
