(* ===== verification/CurrenciesTheorems.v ===== *)
(** * Currencies: issuing, withdrawing and unstaking

    What every operation does to the accounts, the supplies, the total supply and the
    module's records.  The supply of a currency and the total supply of its denomination
    move together, but for the coins of accounts that are stored for the first time, which
    [x/vmauth] adds to the supply of the currency alone. *)
From S2P Require Import Prelude Bytes Sdk SdkRef SdkFacts DnTypes Perms Chain SdkBank Currency VMStorage CCStorage CCStorageFacts SdkAuth BalanceFacts.
From S2P Require Import VMAuth VMAuthFacts VMAuthTheorems BankKeeper Currencies CurrenciesFacts.
Local Open Scope string_scope.
Local Open Scope Z_scope.
Local Open Scope list_scope.

Lemma recovering_Ok `{KV : KVStore} `{LG : Ledger} {A} e (m : M A) caller c a c' : m caller c = (Ok a, c') → recovering e m caller c = (Ok a, c').
Proof. unfold recovering. by intros ->. Qed.
Lemma recovering_Err `{KV : KVStore} `{LG : Ledger} {A} e (m : M A) caller c e' c' : m caller c = (Err e', c') → recovering e m caller c = (Err e', c').
Proof. unfold recovering. by intros ->. Qed.
Lemma recovering_no_panic `{KV : KVStore} `{LG : Ledger} {A} e (m : M A) caller c : (recovering e m caller c).1 ≠ Panic.
Proof. unfold recovering. by destruct (m caller c) as [[] ?]. Qed.

Lemma frame_bank `{KV : KVStore} `{LG : Ledger} keys (c : Ctx) l : frame keys c (set_bank c l).
Proof. done. Qed.

(** A denomination that passes the filter is one of a coin. *)
Lemma DenomFilter_valid `{SdkTypes} d : DenomFilter d = Ok tt → ValidateDenom d = true ∧ d ≠ "".
Proof.
  unfold DenomFilter, stringFilter, run_opts. intros Hf. apply outcome_bind_inv in Hf as ([] & Hopts & _). cbn [foldM] in Hopts.
  apply outcome_bind_inv in Hopts as ([] & H1 & Hopts). apply outcome_bind_inv in Hopts as ([] & H2 & _).
  unfold stringNotEmpty in H1. unfold validCoinDenom in H2. apply fail_if_inv in H1. apply fail_if_inv in H2. split.
  - by destruct (ValidateDenom d).
  - intros ->. done.
Qed.

(** The mint module's events. *)
Definition event_amount `{SdkCoins} (event : Event) : option Z :=
  if bool_decide (ev_Type event = currencies.MintEventType) then
    match currencies.mint_amount (ev_Attributes event) with
    | Some value => amount ← NewIntFromString value; if 0 <=? amount then Some amount else None
    | None => Some 0
    end
  else Some 0.
Fixpoint mint_sum `{SdkCoins} (events : list Event) : option Z :=
  match events with
  | [] => Some 0
  | event :: events' => amount ← event_amount event; rest ← mint_sum events'; Some (amount + rest)
  end.

Section theorems.
Context `{SdkTypesLaws} `{SdkCoinsLaws} `{!CoinsEqualLaws} `{KVStoreLaws} `{LG : Ledger} {SU : SupplyKeeper} {SUL : SupplyKeeperLaws}.
Context `{SK : !Staking} (staking_store : string) `{SKL : !StakingLaws staking_store}.
Context `{VS : !VMStorage} (clients : string → Prop) (vm_store : string) `{VSL : !VMStorageLaws clients vm_store}.
Context `{GL : Glav} `{LI : !Lcs ccstorage.ResCurrencyInfo} `{LB : !Lcs ccstorage.ResBalance} `{CC : !Codec Currency}.
Context `{AuthAccountsLaws} `{AK : !AccountKeeper} (acc_store : string) `{AKL : !AccountKeeperLaws acc_store}.
Context `{CI : !Codec Z} `{CS : !Codec currencies.Issue} `{CW : !Codec currencies.Withdraw}.
Variables (modulePerms ccs_perms : ModulePermissions) (TxBytes : string).
(** The bank runs over the accounts of [x/vmauth]. *)
Context {BK : BankKeeper} {BKL : BankKeeperLaws ccs_perms}.
Hypothesis own_perms : mp_name modulePerms = currencies.ModuleName.
Hypothesis ccs_own_perms : mp_name ccs_perms = ccstorage.ModuleName.
(** Both modules were granted what they request, and the VM storage admits [x/ccstorage]. *)
Hypothesis ccs_granted : ∀ perm, perm ∈ snd currencies.RequestCCStoragePerms → Check ccs_perms currencies.ModuleName perm = Ok tt.
Hypothesis auth_granted : ∀ perm, perm ∈ snd vmauth.RequestCCStoragePerms → Check ccs_perms vmauth.CallerName perm = Ok tt.
Hypothesis admitted : clients ccstorage.ModuleName.
Hypothesis lcs_info : ∀ i : ccstorage.ResCurrencyInfo, 0 ≤ ccstorage.rci_TotalSupply i < 2 ^ 128 → ∃ bz, lcs_Marshal i = Ok bz.
Hypothesis lcs_balance : ∀ b : ccstorage.ResBalance, fits128 (ccstorage.rb_Value b) → ∃ bz, lcs_Marshal b = Ok bz.
(** The stores are different ones. *)
Hypothesis stores_differ : NoDup [currencies.StoreKey; ccstorage.StoreKey; vm_store; acc_store; staking_store].
Import currencies.
Implicit Types (s : store) (c : Ctx) (w : world) (m : gmap string Currency) (d : string) (a : AccAddress) (st : auth_state).
Notation cc_store c := (ctx_stores c StoreKey).
Notation auth_holds := (auth_holds clients vm_store acc_store).
Notation auth_frame := (auth_frame vm_store acc_store).
Notation mirrored := (mirrored clients vm_store).
Notation self := ModuleName.

Record world_holds c w : Prop := {
  wh_auth : auth_holds c (wd_auth w);
  wh_denoms : denoms_ok (wd_currencies w);
  wh_store : cc_holds (cc_store c) w;
  wh_inv : cc_inv w;
  wh_total : coins_valid (GetSupply (ctx_bank c));
}.

(** What the operations may change. *)
Definition cc_stores : list string := [StoreKey; ccstorage.StoreKey; vm_store; acc_store].

Lemma other_store : vm_store ≠ ccstorage.StoreKey.
Proof. intros E. pose proof stores_differ as Hd. rewrite E !NoDup_cons in Hd. set_solver. Qed.
Lemma vm_cc_other : vm_store ≠ StoreKey.
Proof. intros E. pose proof stores_differ as Hd. rewrite E !NoDup_cons in Hd. set_solver. Qed.
Lemma own_store : acc_store ∉ [ccstorage.StoreKey; vm_store].
Proof. pose proof stores_differ as Hd. rewrite !NoDup_cons in Hd. set_solver. Qed.
Lemma cc_not_auth : StoreKey ∉ [acc_store; ccstorage.StoreKey; vm_store].
Proof. pose proof stores_differ as Hd. rewrite !NoDup_cons in Hd. set_solver. Qed.
Lemma staking_not_cc : staking_store ∉ cc_stores.
Proof. pose proof stores_differ as Hd. unfold cc_stores. rewrite !NoDup_cons in Hd. set_solver. Qed.

(** The callers a method admits. *)
Definition may (perm caller : string) : Prop := caller = self ∨ Check modulePerms caller perm = Ok tt.
Lemma may_self perm : may perm self.
Proof. by left. Qed.
Lemma may_run perm {B} (body : M B) caller c : may perm caller → keeper_method modulePerms perm body caller c = body self c.
Proof. intros [->|Hg]; [rw -own_perms; apply keeper_method_self|rw keeper_method_granted; [by rw own_perms|done]]. Qed.

Lemma ccs_allowed perm : perm ∈ snd RequestCCStoragePerms → allowed ccs_perms perm self.
Proof. intros Hp. right. by apply ccs_granted. Qed.
Lemma ccs_reads : allowed ccs_perms ccstorage.PermRead self.
Proof. apply ccs_allowed. right. right. left. Qed.
Lemma ccs_updates : allowed ccs_perms ccstorage.PermUpdate self.
Proof. apply ccs_allowed. right. left. Qed.

Notation with_accounts thm := (thm clients vm_store _ _ _ _ _ _ _ _ acc_store _ ccs_perms _ _ ccs_own_perms admitted auth_granted
  other_store own_store lcs_info lcs_balance).
Notation with_vmauth thm := (thm clients vm_store _ _ _ _ _ _ _ _ acc_store _ ccs_perms ccs_own_perms admitted auth_granted
  other_store own_store lcs_info lcs_balance).

Lemma ccs_get_run c m V d : mirrored c m V →
  ccstorage.GetCurrency ccs_perms d self c = (match m !! d with Some cur => Ok cur | None => Err ccstorage.ErrWrongDenom end, c).
Proof. intros Hs. apply (GetCurrency_run clients vm_store ccs_perms ccs_own_perms); [apply ccs_reads|by eapply mi_currencies]. Qed.

(** Writes to the module's own store, to the bank and of events. *)
Lemma own_write c st s : auth_holds c st → auth_holds (set_store c StoreKey s) st.
Proof.
  apply auth_holds_frame. intros k Hk. simpl. rw decide_False; [done|]. intros ->. by apply cc_not_auth.
Qed.
Lemma cc_store_auth c c' : auth_frame c c' → cc_store c' = cc_store c.
Proof. intros ((Hk & _) & _). apply Hk, cc_not_auth. Qed.
Lemma cc_store_ccs c c' : ccs_frame vm_store c c' → cc_store c' = cc_store c.
Proof. intros Hf. apply (ccs_frame_store _ _ _ _ Hf); [done|]. intros E. by apply vm_cc_other. Qed.
Lemma auth_frame_stores c c' : auth_frame c c' → frame cc_stores c c'.
Proof. intros (Hf & _). eapply frame_mono; [|exact Hf]. unfold cc_stores. set_solver. Qed.
Lemma ccs_frame_stores c c' : ccs_frame vm_store c c' → frame cc_stores c c'.
Proof. intros [Hf _]. eapply frame_mono; [|exact Hf]. unfold cc_stores. set_solver. Qed.
Lemma own_frame c s : frame cc_stores c (set_store c StoreKey s).
Proof. split; [|done]. intros k Hk. simpl. rw decide_False; [done|]. intros ->. apply Hk. left. Qed.

Lemma world_holds_frame c c' w : (∀ k, k ∈ cc_stores → ctx_stores c' k = ctx_stores c k) → coins_valid (GetSupply (ctx_bank c')) →
  world_holds c w → world_holds c' w.
Proof.
  intros Hk Hv [Hs Hden Hcc Hinv _]. split; [|done|by rw Hk; [|left]|done|done]. apply (auth_holds_frame clients vm_store acc_store c); [|done].
  intros k Hin. apply Hk. clear -Hin. unfold cc_stores. set_solver.
Qed.
Lemma world_holds_events c w es : world_holds c w → world_holds (set_events c es) w.
Proof. intros Hw. by apply (world_holds_frame c); [|apply Hw|]. Qed.

Lemma HasIssue_run c w id : cc_holds (cc_store c) w → HasIssue modulePerms id self c = (Ok (bool_decide (is_Some (wd_issues w !! id))), c).
Proof.
  intros Hs. unfold HasIssue. rw may_run; [|apply may_self]. unfold kv_Has, store_Has. rw (cc_issue _ _ Hs). do 2 f_equal.
  apply bool_decide_ext, fmap_is_Some.
Qed.

(** A supply changed by [z], in the storage and in the world. *)
Lemma add_supply_registered st d z : is_Some (as_currencies st !! d) → ∃ m', ccs_spec.add_supply (as_currencies st) d z = Ok m'.
Proof. intros [cur E]. unfold ccs_spec.add_supply. rw E. by eexists. Qed.
Lemma change_registered st a amt sup st' d : account_change st a amt sup st' → is_Some (as_currencies st !! d) → is_Some (as_currencies st' !! d).
Proof. intros Hch. apply (same_currencies_Some _ _ d (ac_currencies _ _ _ _ _ Hch)). Qed.
Lemma change_denoms st a amt sup st' : account_change st a amt sup st' → denoms_ok (as_currencies st) → denoms_ok (as_currencies st').
Proof. intros Hch. apply same_currencies_denoms, (ac_currencies _ _ _ _ _ Hch). Qed.
Lemma fits_supply st d z : (is_Some (as_currencies st !! d) → 0 ≤ auth_spec.supply st d + z < 2 ^ 128) → ccs_spec.supply_fits (as_currencies st) d z.
Proof. intros Hf cur E. rw -(supply_of st d cur E). apply Hf. by eexists. Qed.

(** *** Issuing *)

(** There is room for the coins: an unknown payee's count twice. *)
Record issue_fits c w (coin : Coin) (payee : AccAddress) : Prop := {
  if_addr : addr_ok payee;
  if_synced : synced (wd_auth w) payee;
  if_amount : 0 < coin_Amount coin;
  if_fits d : amount_of (coins_at (wd_auth w) payee) d + amount_of [coin] d < 2 ^ 128;
  if_supply : is_Some (wd_currencies w !! coin_Denom coin) → 0 ≤ auth_spec.supply (wd_auth w) (coin_Denom coin) ∧
    auth_spec.supply (wd_auth w) (coin_Denom coin) + 2 * coin_Amount coin < 2 ^ 128;
  if_total : total_supply c (coin_Denom coin) + coin_Amount coin < maxInt;
}.

(** What an issue adds to the supply of the currency. *)
Definition issued_supply st (payee : AccAddress) (coin : Coin) (d : string) : Z :=
  amount_of [coin] d + if decide (unknown st payee) then amount_of [coin] d else 0.

(** Issuing coins of a registered currency under a fresh ID to an account that is not
    banned records the issue, pays the account, in the accounts and in the VM, and
    raises the currency's supply and the total supply; the former twice when the account
    was not stored.  A banned account, a used ID or an unknown currency is an error that
    changes nothing. *)
Theorem IssueCurrency_issues caller c w id coin payee : may PermIssue caller → world_holds c w → issue_fits c w coin payee →
  match cc_spec.issue_check (banned (ctx_stores c staking_store) payee) w id coin with
  | Ok _ => ∃ c' st', IssueCurrency modulePerms ccs_perms id coin payee caller c = (Ok tt, c') ∧
      world_holds c' (cc_spec.add_issue (cc_spec.set_auth w st') id (MkIssue coin payee)) ∧
      account_change (wd_auth w) payee (amount_of [coin]) (issued_supply (wd_auth w) payee coin) st' ∧
      (∀ d, total_supply c' d = total_supply c d + amount_of [coin] d) ∧
      frame cc_stores c c' ∧ ctx_events c' = ctx_events c ++ [NewIssueEvent id coin payee]
  | Err e => IssueCurrency modulePerms ccs_perms id coin payee caller c = (Err e, c)
  | Panic => False
  end.
Proof.
  intros Hcaller [Hs Hden Hcc Hinv Hv] [Haddr Hsy Hpos Hfit Hsup Htot]. unfold cc_spec.issue_check, IssueCurrency. rw may_run; [|done].
  pose proof (IsAccountBanned_ok payee self c) as Hban.
  destruct (banned _ payee); simpl; [apply recovering_Err; by rw (M_bind_Ok _ _ _ _ _ _ Hban)|].
  destruct (bool_decide (is_Some (wd_issues w !! id))) eqn:Eid; simpl.
  { apply recovering_Err. rw (M_bind_Ok _ _ _ _ _ _ Hban) (M_bind_Ok _ _ _ _ _ _ (HasIssue_run c w id Hcc)). by rw Eid. }
  pose proof (ccs_get_run c _ _ (coin_Denom coin) (ah_mirrored _ _ _ _ _ Hs)) as Hget.
  unfold cc_spec.registered_denom. unfold wd_currencies in *. destruct (as_currencies (wd_auth w) !! coin_Denom coin) as [cur|] eqn:Ecur.
  2:{ apply recovering_Err. rw (M_bind_Ok _ _ _ _ _ _ Hban) (M_bind_Ok _ _ _ _ _ _ (HasIssue_run c w id Hcc)) Eid. simpl.
      by rw (M_bind_Err _ _ _ _ _ _ Hget). }
  assert (is_Some (as_currencies (wd_auth w) !! coin_Denom coin)) as Hreg by (by eexists). specialize (Hsup ltac:(by eexists)).
  set (c1 := set_store c StoreKey (store_Set (cc_store c) (GetIssuesKey id) (Marshal Bare (MkIssue coin payee)))).
  destruct (with_accounts AddCoins_run payee coin self c1 (wd_auth w)) as (c2 & st2 & Hrun2 & Hs2 & Hf2 & Hch2); [by apply own_write|done|..].
  { split; [done..|]. intros _. apply fits_supply. lia. }
  destruct (add_supply_registered st2 (coin_Denom coin) (coin_Amount coin)) as [m3 Hadd]; [by eapply change_registered|].
  destruct (increase_mirrored clients vm_store ccs_perms ccs_own_perms admitted other_store lcs_info coin self c2 _ _ m3 ccs_updates
    (ah_mirrored _ _ _ _ _ Hs2)) as (c3 & Hrun3 & Hm3 & Hf3 & He3); [|done|].
  { apply fits_supply. intros _. rw (ac_supply _ _ _ _ _ Hch2). case_decide; rw ?amount_of_one ?decide_True; [lia|done|lia]. }
  pose proof (auth_holds_currencies clients vm_store acc_store own_store c2 c3 st2 m3 Hs2 Hm3 Hf3) as Hs3.
  assert (ctx_bank c3 = ctx_bank c) as Eb3 by (rw (cf_bank _ _ _ Hf3); by destruct Hf2 as (_ & -> & _)).
  destruct (increase_supply_run coin self c3) as (l4 & Hrun4 & Hv4 & Ht4); [lia|by rw Eb3|by unfold total_supply; rw Eb3|].
  exists (set_events (set_bank c3 l4) (ctx_events (set_bank c3 l4) ++ [NewIssueEvent id coin payee])), (with_currencies st2 m3).
  split; [|split; [|split; [|split; [|split]]]].
  - apply recovering_Ok. rw (M_bind_Ok _ _ _ _ _ _ Hban) (M_bind_Ok _ _ _ _ _ _ (HasIssue_run c w id Hcc)) Eid. simpl.
    rw (M_bind_Ok _ _ _ _ _ _ Hget) (M_bind_Ok _ _ _ c tt c1); [|done].
    rw (M_bind_Ok _ _ _ c1 (Ok tt) c2); [|by apply attempt_Ok].
    rw (M_bind_Ok _ _ _ _ _ _ Hrun3) (M_bind_Ok _ _ _ _ _ _ Hrun4). done.
  - split; [by apply (auth_holds_frame clients vm_store acc_store c3)| | | |done].
    + apply (same_currencies_denoms (as_currencies st2)); [by eapply add_supply_same|by eapply change_denoms].
    + change (cc_store (set_events (set_bank c3 l4) _)) with (cc_store c3). rw (cc_store_ccs _ _ Hf3) (cc_store_auth _ _ Hf2).
      apply (holds_add_issue _ (cc_spec.set_auth w (with_currencies st2 m3)) id (MkIssue coin payee)), cc_holds_same, Hcc.
    + by apply inv_add_issue, inv_set_auth.
  - eapply change_ext; [| |exact (account_change_supply _ _ _ _ _ _ _ _ Hch2 Hadd)]; [done|]. intros d. unfold issued_supply.
    assert ((if decide (d = coin_Denom coin) then coin_Amount coin else 0) = amount_of [coin] d) as ->; [|lia].
    rw amount_of_one. by destruct (decide (d = _)) as [->|Hne]; [rw decide_True|rw decide_False; [|congruence]].
  - intros d. unfold total_supply at 1. cbn [ctx_bank set_events set_bank]. rw Ht4. unfold total_supply. by rw Eb3.
  - eapply frame_trans; [apply (own_frame c)|]. eapply frame_trans; [exact (auth_frame_stores _ _ Hf2)|].
    eapply frame_trans; [exact (ccs_frame_stores _ _ Hf3)|done].
  - cbn [ctx_events set_events set_bank]. rw He3. by destruct Hf2 as (_ & _ & ->).
Qed.

(** *** Withdrawing *)
Definition withdraw_of c w (coin : Coin) (spender : AccAddress) (recipient chainID : string) : Withdraw :=
  NewWithdraw (cc_spec.next_id w) coin spender recipient chainID (Unix (ctx_time c)) TxBytes.
Record withdraw_fits c w (coin : Coin) (spender : AccAddress) : Prop := {
  wf_addr : addr_ok spender;
  wf_synced : synced (wd_auth w) spender;
  wf_amount : 0 < coin_Amount coin;
  wf_fits d : amount_of (coins_at (wd_auth w) spender) d < 2 ^ 128;
  wf_id : cc_spec.next_id w < maxUint;
  (** The supply and the total cover what leaves. *)
  wf_supply : is_Some (wd_currencies w !! coin_Denom coin) →
    coin_Amount coin ≤ auth_spec.supply (wd_auth w) (coin_Denom coin) < 2 ^ 128 ∧ coin_Amount coin ≤ total_supply c (coin_Denom coin);
}.

(** The context once the withdraw is recorded. *)
Definition recorded c (x : Withdraw) : Ctx :=
  set_store (set_store c StoreKey (store_Set (cc_store c) (GetWithdrawKey (w_ID x)) (Marshal Bare x))) StoreKey
    (store_Set (store_Set (cc_store c) (GetWithdrawKey (w_ID x)) (Marshal Bare x)) GetLastWithdrawIDKey (Marshal Bare (w_ID x))).

Lemma recorded_store c x : cc_store (recorded c x) =
  store_Set (store_Set (cc_store c) (GetWithdrawKey (w_ID x)) (Marshal Bare x)) GetLastWithdrawIDKey (Marshal Bare (w_ID x)).
Proof. done. Qed.
Lemma recorded_frame c x : frame cc_stores c (recorded c x).
Proof. unfold recorded. eapply frame_trans; apply own_frame. Qed.

(** Up to the bank: the withdraw is recorded before the coins are taken. *)
Lemma WithdrawCurrency_records caller c w coin spender recipient chainID cur : may PermWithdraw caller → world_holds c w →
  withdraw_fits c w coin spender → wd_currencies w !! coin_Denom coin = Some cur →
  let x := withdraw_of c w coin spender recipient chainID in
  WithdrawCurrency modulePerms ccs_perms TxBytes coin spender recipient chainID caller c =
    recovering ErrInternal (bank_SubtractCoins spender [coin];;
      ccstorage.DecreaseCurrencySupply ccs_perms coin;;
      change_supply (λ total, Coins_Sub total [coin]);;
      EmitEvent (NewWithdrawEvent (w_ID x) coin spender)) self (recorded c x).
Proof.
  intros Hcaller [Hs Hden Hcc Hinv Hv] [_ _ Hpos _ Hlt _] Ecur x. unfold WithdrawCurrency. rw may_run; [|done].
  pose proof (ccs_get_run c _ _ (coin_Denom coin) (ah_mirrored _ _ _ _ _ Hs)) as Hget. fold (wd_currencies w) in Hget. rw Ecur in Hget.
  unfold recovering. rw (M_bind_Ok _ _ _ _ _ _ Hget) (M_bind_Ok _ _ _ _ _ _ (getNextWithdrawID_run self c w Hcc Hinv Hlt)).
  rw (M_bind_Ok _ _ _ c (ctx_time c) c); [|done].
  rw (M_bind_Ok _ _ _ c tt (set_store c StoreKey (store_Set (cc_store c) (GetWithdrawKey (w_ID x)) (Marshal Bare x)))); [|done].
  rw (M_bind_Ok _ _ _ _ tt (recorded c x)); [|done].
  rw (M_bind_Ok _ _ _ _ [coin] (recorded c x)); [done|]. apply lift_Ok, NewCoins_one; [by apply (Hden _ cur)|done].
Qed.

(** Withdrawing coins the spender has takes them from its account and from the VM, from
    the currency's supply and from the total supply, and records the withdraw under the
    next number; with too few coins it fails after the record is written, an unknown
    currency fails before. *)
Theorem WithdrawCurrency_withdraws caller c w coin spender recipient chainID :
  may PermWithdraw caller → world_holds c w → withdraw_fits c w coin spender →
  let x := withdraw_of c w coin spender recipient chainID in
  match cc_spec.registered_denom w (coin_Denom coin) with
  | Ok _ =>
      if coin_Amount coin <=? amount_of (coins_at (wd_auth w) spender) (coin_Denom coin) then
        ∃ c' st', WithdrawCurrency modulePerms ccs_perms TxBytes coin spender recipient chainID caller c = (Ok tt, c') ∧
          world_holds c' (cc_spec.add_withdraw (cc_spec.set_auth w st') x) ∧
          account_change (wd_auth w) spender (λ d, - amount_of [coin] d) (λ d, - amount_of [coin] d) st' ∧
          (∀ d, total_supply c' d = total_supply c d - amount_of [coin] d) ∧
          frame cc_stores c c' ∧ ctx_events c' = ctx_events c ++ [NewWithdrawEvent (w_ID x) coin spender]
      else WithdrawCurrency modulePerms ccs_perms TxBytes coin spender recipient chainID caller c = (Err ErrInsufficientFunds, recorded c x)
  | Err e => WithdrawCurrency modulePerms ccs_perms TxBytes coin spender recipient chainID caller c = (Err e, c)
  | Panic => False
  end.
Proof.
  intros Hcaller Hw Hf x. pose proof Hw as [Hs Hden Hcc Hinv Hv]. pose proof Hf as [Haddr Hsy Hpos Hfit Hlt Hsup]. unfold cc_spec.registered_denom.
  destruct (wd_currencies w !! coin_Denom coin) as [cur|] eqn:Ecur.
  2:{ pose proof (ccs_get_run c _ _ (coin_Denom coin) (ah_mirrored _ _ _ _ _ Hs)) as Hget. fold (wd_currencies w) in Hget. rw Ecur in Hget.
      unfold WithdrawCurrency. rw may_run; [|done]. apply recovering_Err. by rw (M_bind_Err _ _ _ _ _ _ Hget). }
  rw (WithdrawCurrency_records caller c w coin spender recipient chainID cur); [|done..]. fold x. set (c1 := recorded c x).
  specialize (Hsup ltac:(by eexists)) as [Hsup Htot]. unfold wd_currencies in *.
  assert (is_Some (as_currencies (wd_auth w) !! coin_Denom coin)) as Hreg by (by eexists).
  pose proof (with_accounts SubtractCoins_run spender coin self c1 (wd_auth w)) as Hsub.
  specialize (Hsub ltac:(by apply own_write, own_write) Hden Haddr Hsy Hpos Hreg Hfit).
  destruct (_ <=? _); [|apply recovering_Err; by rw (M_bind_Err _ _ _ _ _ _ Hsub)]. destruct Hsub as (c2 & st2 & Hrun2 & Hs2 & Hf2 & Hch2).
  destruct (add_supply_registered st2 (coin_Denom coin) (- coin_Amount coin)) as [m3 Hadd]; [by eapply change_registered|].
  destruct (decrease_mirrored clients vm_store ccs_perms ccs_own_perms admitted other_store lcs_info coin self c2 _ _ m3 ccs_updates
    (ah_mirrored _ _ _ _ _ Hs2)) as (c3 & Hrun3 & Hm3 & Hf3 & He3); [|done|].
  { apply fits_supply. intros _. rw (ac_supply _ _ _ _ _ Hch2). lia. }
  pose proof (auth_holds_currencies clients vm_store acc_store own_store c2 c3 st2 m3 Hs2 Hm3 Hf3) as Hs3.
  assert (ctx_bank c3 = ctx_bank c) as Eb3 by (rw (cf_bank _ _ _ Hf3); by destruct Hf2 as (_ & -> & _)).
  destruct (decrease_supply_run coin self c3) as (l4 & Hrun4 & Hv4 & Ht4); [lia|by rw Eb3|by unfold total_supply; rw Eb3|].
  exists (set_events (set_bank c3 l4) (ctx_events (set_bank c3 l4) ++ [NewWithdrawEvent (w_ID x) coin spender])), (with_currencies st2 m3).
  split; [|split; [|split; [|split; [|split]]]].
  - apply recovering_Ok. by rw (M_bind_Ok _ _ _ _ _ _ Hrun2) (M_bind_Ok _ _ _ _ _ _ Hrun3) (M_bind_Ok _ _ _ _ _ _ Hrun4).
  - split; [by apply (auth_holds_frame clients vm_store acc_store c3)| | | |done].
    + apply (same_currencies_denoms (as_currencies st2)); [by eapply add_supply_same|by eapply change_denoms].
    + change (cc_store (set_events (set_bank c3 l4) _)) with (cc_store c3). rw (cc_store_ccs _ _ Hf3) (cc_store_auth _ _ Hf2) (recorded_store c x).
      apply (holds_add_withdraw _ (cc_spec.set_auth w (with_currencies st2 m3)) x), next_id_nonneg; [by apply cc_holds_same|done].
    + apply inv_add_withdraw; [by apply inv_set_auth|done|done].
  - eapply change_ext; [| |exact (account_change_supply _ _ _ _ _ _ _ _ Hch2 Hadd)]; [done|]. intros d. cbv beta.
    rw amount_of_one. destruct (decide (d = coin_Denom coin)) as [->|Hne]; [by rw decide_True|rw decide_False; [done|congruence]].
  - intros d. unfold total_supply at 1. cbn [ctx_bank set_events set_bank]. rw Ht4. unfold total_supply. by rw Eb3.
  - eapply frame_trans; [apply (recorded_frame c x)|]. eapply frame_trans; [exact (auth_frame_stores _ _ Hf2)|].
    eapply frame_trans; [exact (ccs_frame_stores _ _ Hf3)|done].
  - cbn [ctx_events set_events set_bank]. rw He3. by destruct Hf2 as (_ & _ & ->).
Qed.

(** *** Unstaking *)
Section unstake.
Variables bond lp : string.
Notation stk := (cc_spec.is_staking bond lp).
Definition burned (l : list Coin) (d : string) : Z := if stk d then amount_of l d else 0.

(** What is left to be taken can be taken. *)
Definition burnable m (bal tot l : list Coin) : Prop :=
  ∀ x, x ∈ l → stk (coin_Denom x) = true → 0 < coin_Amount x ∧ amount_of bal (coin_Denom x) = coin_Amount x ∧
    coin_Amount x ≤ amount_of tot (coin_Denom x) ∧ ∃ cur, m !! coin_Denom x = Some cur ∧ coin_Amount x ≤ cur_Supply cur < 2 ^ 128.

Lemma burn_step m x l cur : stk (coin_Denom x) = true → m !! coin_Denom x = Some cur →
  cc_spec.burn (<[coin_Denom x := ccstorage.with_Supply cur (cur_Supply cur + - coin_Amount x)]> m) (burned l) = cc_spec.burn m (burned (x :: l)).
Proof.
  intros Hx Hm. apply map_eq. intros d. rw !lookup_burn lookup_insert. unfold burned. rw amount_of_cons. case_decide as E.
  - subst d. rw Hm Hx. simpl. do 2 f_equal. lia.
  - destruct (m !! d); [|done]. simpl. by destruct (stk d).
Qed.

Lemma burned_skip x l d : stk (coin_Denom x) = false → burned (x :: l) d = burned l d.
Proof.
  intros Hx. unfold burned. rw amount_of_cons. destruct (stk d) eqn:E; [|done]. rw decide_False; [done|]. intros Ed. by rw Ed E in Hx.
Qed.

Lemma unstake_coins_run l c m V bal tot : NoDup (coin_Denom <$> l) → mirrored c m V → coins_valid bal → coins_valid tot → burnable m bal tot l →
  ∃ c' bal' tot', unstake_coins ccs_perms bond lp (bal, tot) l self c = (Ok (bal', tot'), c') ∧
    mirrored c' (cc_spec.burn m (burned l)) V ∧ ccs_frame vm_store c c' ∧ ctx_events c' = ctx_events c ∧
    coins_valid bal' ∧ coins_valid tot' ∧
    (∀ d, amount_of bal' d = amount_of bal d - burned l d) ∧ (∀ d, amount_of tot' d = amount_of tot d - burned l d).
Proof.
  revert c m bal tot. induction l as [|x l IH]; intros c m bal tot Hnd Hm0 Hbal Htot Hb.
  { exists c, bal, tot. assert (∀ d, burned [] d = 0) as Hz by (intros d; unfold burned; by destruct (stk d)).
    rw burn_zero; [|done]. split; [done|]. split; [done|]. split; [apply ccs_frame_refl|]. split_and!; try done; intros d; rw Hz; lia. }
  rw fmap_cons in Hnd. apply NoDup_cons in Hnd as [Hn Hnd]. simpl. unfold unstake_coin.
  change (bool_decide (coin_Denom x = bond) || bool_decide (coin_Denom x = lp)) with (stk (coin_Denom x)).
  destruct (stk (coin_Denom x)) eqn:Ex.
  2:{ destruct (IH c m bal tot) as (c' & bal' & tot' & Hrun & Hs & Hf & He & Hv & Hvt & Hm & Ht); [done..| |].
      { intros y Hy. apply Hb. by right. }
      exists c', bal', tot'. assert (cc_spec.burn m (burned (x :: l)) = cc_spec.burn m (burned l)) as ->.
      { apply map_eq. intros d. by rw !lookup_burn burned_skip. }
      rw (M_bind_Ok _ _ _ c (bal, tot) c); [|done]. split_and!; try done; intros d; [by rw Hm burned_skip|by rw Ht burned_skip]. }
  destruct (Hb x) as (Hpos & Hamt & Hle0 & cur & Hm & Hle); [left|done|].
  destruct (Coins_Sub_ok bal x) as (bal1 & Hbal1 & Hv1 & Hm1); [done|lia|].
  set (m1 := <[coin_Denom x := ccstorage.with_Supply cur (cur_Supply cur + - coin_Amount x)]> m).
  assert (ccs_spec.add_supply m (coin_Denom x) (- coin_Amount x) = Ok m1) as Eadd by (unfold ccs_spec.add_supply; by rw Hm).
  destruct (decrease_mirrored clients vm_store ccs_perms ccs_own_perms admitted other_store lcs_info x self c m V m1 ccs_updates Hm0)
    as (c1 & Hrun1 & Hs1 & Hf1 & He1); [intros cur' E; assert (cur' = cur) as -> by congruence; lia|done|].
  destruct (Coins_Sub_ok tot x) as (tot1 & Htot1 & Hvt1 & Hmt1); [done|lia|].
  destruct (IH c1 m1 bal1 tot1) as (c' & bal' & tot' & Hrun & Hs & Hf & He & Hv & Hvt & Hmb & Ht); [done..| |].
  { intros y Hy Hsy. destruct (Hb y) as (? & ? & ? & cury & ? & ?); [by right|done|].
    assert (coin_Denom x ≠ coin_Denom y) as Hne by (intros E; apply Hn; rw E; by apply list_elem_of_fmap_2).
    rw Hm1 Hmt1 !amount_of_one !decide_False; [|done..]. split; [done|]. split; [lia|]. split; [lia|]. exists cury. split; [|done].
    unfold m1. by rw lookup_insert_ne. }
  exists c', bal', tot'. unfold m1 in Hs. rw burn_step in Hs; [|done..]. split; [|split; [done|split; [|split; [congruence|split; [done|split; [done|split]]]]]].
  - rw (M_bind_Ok _ _ _ c (bal1, tot1) c1); [done|]. rw (M_bind_Ok _ _ _ c bal1 c); [|by apply lift_Ok].
    rw (M_bind_Ok _ _ _ c (Ok tt) c1); [|by apply attempt_Ok]. cbn beta iota. rw (M_bind_Ok _ _ _ c1 tot1 c1); [done|by apply lift_Ok].
  - by eapply ccs_frame_trans.
  - intros d. rw Hmb Hm1 amount_of_one. unfold burned. rw amount_of_cons. case_decide as E; [subst d; rw Ex; lia|destruct (stk d); lia].
  - intros d. rw Ht Hmt1 amount_of_one. unfold burned. rw amount_of_cons. case_decide as E; [subst d; rw Ex; lia|destruct (stk d); lia].
Qed.
End unstake.

(** The staking and liquidity coins of an account. *)
Definition stake_of (bond lp : string) st (staker : AccAddress) : string → Z := burned bond lp (coins_at st staker).

(** What the account to be unstaked holds is covered by the supplies. *)
Record unstake_fits c w (bond lp : string) (staker : AccAddress) : Prop := {
  uf_addr : addr_ok staker;
  uf_synced : synced (wd_auth w) staker;
  uf_fits d : amount_of (coins_at (wd_auth w) staker) d < 2 ^ 128;
  uf_supply d : 0 < stake_of bond lp (wd_auth w) staker d →
    stake_of bond lp (wd_auth w) staker d ≤ auth_spec.supply (wd_auth w) d < 2 ^ 128 ∧
    stake_of bond lp (wd_auth w) staker d ≤ total_supply c d;
}.

(** The supplies changed before the account. *)
Lemma supplies_first st a amt sup z m st' : same_currencies (as_currencies st) m → 
  (∀ d, auth_spec.supply (with_currencies st m) d = auth_spec.supply st d + z d) →
  account_change (with_currencies st m) a amt sup st' → account_change st a amt (λ d, sup d + z d) st'.
Proof.
  intros Hs Hz [Hacc Hn Hvm Hcur Hsup Hsy]. split; [done|done|..].
  - intros x d. rw Hvm. f_equal. unfold auth_spec.vm_amount. cbn [as_currencies as_balances with_currencies]. by apply same_currencies_amount.
  - by eapply same_currencies_trans.
  - intros d. rw Hsup Hz. lia.
  - intros x Hx. apply Hsy. by apply synced_currencies.
Qed.

Lemma stake_burnable c w bond lp staker : unstake_fits c w bond lp staker →
  burnable bond lp (wd_currencies w) (coins_at (wd_auth w) staker) (GetSupply (ctx_bank c)) (coins_at (wd_auth w) staker).
Proof.
  intros [_ Hsy _ Hsup] x Hx Hst. destruct (synced_coins _ _ Hsy) as [[Hnd Hpos] _]. rewrite Forall_forall in Hpos. specialize (Hpos x Hx). cbn beta in Hpos.
  pose proof (coin_amount _ x Hnd Hx) as Ha. assert (stake_of bond lp (wd_auth w) staker (coin_Denom x) = coin_Amount x) as E
    by (unfold stake_of, burned; by rw Hst).
  destruct (Hsup (coin_Denom x)) as [Hs Ht]; [by rw E|]. rw E in Hs. rw E in Ht. split; [done|]. split; [done|]. split; [exact Ht|].
  destruct (coins_registered _ _ Hsy x Hx) as [cur Ecur]. exists cur. split; [done|]. by rw (supply_of _ _ _ Ecur) in Hs.
Qed.

Lemma stake_registered w bond lp staker d : synced (wd_auth w) staker → wd_currencies w !! d = None → stake_of bond lp (wd_auth w) staker d = 0.
Proof.
  intros Hsy E. unfold stake_of, burned. destruct (cc_spec.is_staking bond lp d); [|done].
  by apply (registered_amount (wd_currencies w)); [apply coins_registered|].
Qed.

(** The forced removal of the delegations left [c1]; the rest takes the staking and
    liquidity coins off the account, the supplies and the total, and bans the account. *)
Lemma UnstakeCurrency_run caller c c1 w staker bond lp : world_holds c1 w →
  BondDenom self c = (Ok bond, c) → LPDenom self c = (Ok lp, c) → ForceRemoveDelegator staker self c = (Ok tt, c1) →
  unstake_fits c1 w bond lp staker →
  ∃ c' st', UnstakeCurrency ccs_perms staker caller c = (Ok tt, c') ∧ world_holds c' (cc_spec.set_auth w st') ∧
    account_change (wd_auth w) staker (λ d, - stake_of bond lp (wd_auth w) staker d) (λ d, - stake_of bond lp (wd_auth w) staker d) st' ∧
    (∀ d, total_supply c' d = total_supply c1 d - stake_of bond lp (wd_auth w) staker d) ∧
    (∀ x, banned (ctx_stores c' staking_store) x = if decide (x = staker) then true else banned (ctx_stores c1 staking_store) x) ∧
    frame (staking_store :: cc_stores) c1 c' ∧ ctx_events c' = ctx_events c1.
Proof.
  intros [Hs Hden Hcc Hinv Hvs] Hbond Hlp Hforce Hfits. pose proof (stake_burnable _ _ _ _ _ Hfits) as Hburn. destruct Hfits as [Haddr Hsy Hfit Hsup].
  set (st := wd_auth w) in *. set (coins := coins_at st staker) in *. destruct (synced_coins st staker Hsy) as [Hv _]. fold coins in Hv.
  destruct (unstake_coins_run bond lp coins c1 (as_currencies st) (as_balances st) coins (GetSupply (ctx_bank c1)))
    as (c2 & bal & tot & Hrun2 & Hm2 & Hf2 & He2 & Hvb & Hvt & Hmb & Hmt); [apply Hv|by apply ah_mirrored in Hs|done..|].
  set (z := burned bond lp coins) in *. change (stake_of bond lp st staker) with z in *.
  set (st2 := with_currencies st (cc_spec.burn (as_currencies st) z)).
  pose proof (auth_holds_currencies clients vm_store acc_store own_store c1 c2 st _ Hs Hm2 Hf2) as Hs2. fold st2 in Hs2.
  pose proof (same_burn (as_currencies st) z) as Hsame.
  assert (denoms_ok (as_currencies st2)) as Hden2 by (by eapply same_currencies_denoms).
  assert (∀ d, amount_of bal d < 2 ^ 128) as Hfitb.
  { intros d. rw Hmb. specialize (Hfit d). fold coins in Hfit. unfold z, burned. pose proof (amount_of_nonneg coins d Hv). destruct (cc_spec.is_staking bond lp d); lia. }
  assert (registered (as_currencies st2) bal) as Hregb.
  { apply amounts_registered; [done|]. intros d Hd. apply (same_currencies_Some _ _ d Hsame). apply (registered_amounts _ coins); [by apply coins_registered|].
    rw Hmb in Hd. unfold z, burned in Hd. destruct (cc_spec.is_staking bond lp d); lia. }
  assert (unknown st2 staker → bal = []) as Hempty.
  { intros Hu. assert (coins = []) as E0 by (unfold coins, coins_at; change (as_accounts st !! staker) with (as_accounts st2 !! staker); by rw Hu).
    destruct bal as [|x l]; [done|]. exfalso. destruct Hvb as [Hnd Hp]. pose proof (coin_amount (x :: l) x Hnd ltac:(left)) as Ex.
    apply Forall_cons in Hp as [Hp _]. rw Hmb in Ex. unfold z, burned in Ex. rw E0 !amount_of_nil in Ex. destruct (cc_spec.is_staking _ _ _); lia. }
  destruct (with_vmauth write_coins_run staker bal self c2 st2 Hs2 Hden2) as (c3 & st3 & Hrun3 & Hs3 & Hf3 & Hch3).
  { split; [done|by apply synced_currencies|done|done|done|]. intros Hu. rw (Hempty Hu). by intros x Hx%elem_of_nil. }
  set (c4 := set_bank c3 (SetSupply (ctx_bank c3) tot)).
  destruct (BanAccount_ok staker (ctx_height c4) self c4) as (sb & Hban & Hbanned). exists (set_store c4 staking_store sb), st3.
  assert (∀ k, k ∈ cc_stores → ctx_stores (set_store c4 staking_store sb) k = ctx_stores c3 k) as Hk4.
  { intros k Hk. simpl. rw decide_False; [done|]. intros ->. by apply staking_not_cc. }
  split; [|split; [|split; [|split; [|split; [|split]]]]].
  - unfold UnstakeCurrency, in_module. rw (M_bind_Ok _ _ _ _ _ _ Hbond) (M_bind_Ok _ _ _ _ _ _ Hlp).
    rw (M_bind_Ok _ _ _ c (Ok tt) c1); [|by apply attempt_Ok]. cbn beta iota.
    rw (M_bind_Ok _ _ _ c1 coins c1); [|by rw GetCoins_over (with_vmauth read_coins_run staker self c1 st Hs Hden Haddr Hsy)].
    rw (M_bind_Ok _ _ _ c1 (ctx_bank c1) c1); [|done]. rw (M_bind_Ok _ _ _ _ _ _ Hrun2). cbn [fst snd].
    rw (M_bind_Ok _ _ _ c2 (Ok tt) c3); [|apply attempt_Ok; rw SetCoins_over; [done|by apply (registered_valid (as_currencies st2))]].
    cbn beta iota. rw (M_bind_Ok _ _ _ c3 tt c4); [|done]. rw (M_bind_Ok _ _ _ c4 (ctx_height c4) c4); [|done]. exact Hban.
  - split.
    + apply (auth_holds_frame clients vm_store acc_store c3); [|done]. intros k Hk. apply Hk4. clear -Hk. unfold cc_stores. set_solver.
    + by eapply change_denoms.
    + rw Hk4; [|left]. rw (cc_store_auth _ _ Hf3) (cc_store_ccs _ _ Hf2). by apply cc_holds_same.
    + by apply inv_set_auth.
    + cbn [ctx_bank set_store c4 set_bank]. by rw GetSupply_SetSupply.
  - assert (∀ d, auth_spec.supply st2 d = auth_spec.supply st d + - z d) as Hz.
    { intros d. unfold st2. rw supply_burn; [lia|]. intros E. by apply (stake_registered w bond lp staker d). }
    eapply change_ext; [| |exact (supplies_first st staker _ _ (λ d, - z d) _ _ Hsame Hz Hch3)].
    + intros d. cbv beta. rw Hmb. change (coins_at st2 staker) with coins. lia.
    + intros d. cbv beta. unfold new_supply. destruct (decide (unknown st2 staker)) as [Hu|]; [|done]. by rw (Hempty Hu).
  - intros d. unfold total_supply at 1. cbn [ctx_bank set_store c4 set_bank]. rw GetSupply_SetSupply Hmt. done.
  - intros x. simpl. rw decide_True; [|done]. rw Hbanned. case_decide; [done|]. simpl.
    assert (ctx_stores c3 staking_store = ctx_stores c1 staking_store) as ->; [|done].
    destruct (frame_trans _ _ _ _ (ccs_frame_stores _ _ Hf2) (auth_frame_stores _ _ Hf3)) as [Hk _]. apply Hk, staking_not_cc.
  - destruct (frame_trans _ _ _ _ (ccs_frame_stores _ _ Hf2) (auth_frame_stores _ _ Hf3)) as (Hk & Hh & Ht).
    split; [|split; [exact Hh|exact Ht]]. intros k Hk'. simpl. rw decide_False; [|intros ->; apply Hk'; left]. apply Hk. intros Hin. apply Hk'. by right.
  - cbn [ctx_events set_store c4 set_bank]. destruct Hf3 as (_ & _ & ->). exact He2.
Qed.

(** *** Minting: the begin blocker follows the events of the mint module *)
Lemma event_amount_nonneg e z : event_amount e = Some z → 0 ≤ z.
Proof.
  unfold event_amount. case_bool_decide; [|intros [= <-]; done]. destruct (mint_amount _) as [v|]; [|intros [= <-]; done].
  destruct (NewIntFromString v) as [x|]; [|done]. simpl. destruct (Z.leb_spec 0 x); [|done]. by intros [= <-].
Qed.
Lemma mint_sum_nonneg events z : mint_sum events = Some z → 0 ≤ z.
Proof.
  revert z. induction events as [|e events IH]; intros z Hz; simpl in Hz; [injection Hz as <-; lia|].
  destruct (event_amount e) as [x|] eqn:Ea; [|done]. destruct (mint_sum events) as [r|]; [|done]. injection Hz as <-.
  pose proof (event_amount_nonneg e x Ea). specialize (IH r eq_refl). lia.
Qed.

Lemma BeginBlocker_event_run e c m V cur x : mirrored c m V → m !! MintDenom = Some cur → 0 ≤ cur_Supply cur →
  ValidateDenom MintDenom = true → event_amount e = Some x → cur_Supply cur + x < 2 ^ 128 →
  ∃ c', BeginBlocker_event ccs_perms e self c = (Ok tt, c') ∧
    mirrored c' (<[MintDenom := ccstorage.with_Supply cur (cur_Supply cur + x)]> m) V ∧ ccs_frame vm_store c c'.
Proof.
  intros Hs Hm Hsup Hd Ha Hlt. pose proof (event_amount_nonneg e x Ha).
  assert (x = 0 → ∃ c', (mret tt : M unit) self c = (Ok tt, c') ∧
    mirrored c' (<[MintDenom := ccstorage.with_Supply cur (cur_Supply cur + x)]> m) V ∧ ccs_frame vm_store c c') as Hzero.
  { intros ->. exists c. rw Z.add_0_r with_Supply_same insert_id; [|done]. split; [done|]. split; [done|apply ccs_frame_refl]. }
  unfold event_amount in Ha. unfold BeginBlocker_event. case_bool_decide; [|apply Hzero; congruence].
  destruct (mint_amount _) as [v|]; [|apply Hzero; congruence]. destruct (NewIntFromString v) as [y|]; [|done]. simpl in Ha.
  destruct (Z.leb_spec 0 y) as [Hx|]; [|done]. injection Ha as ->.
  destruct (increase_mirrored clients vm_store ccs_perms ccs_own_perms admitted other_store lcs_info (MkCoin MintDenom x) self c m V
    (<[MintDenom := ccstorage.with_Supply cur (cur_Supply cur + x)]> m) ccs_updates Hs) as (c1 & Hrun1 & Hs1 & Hf1 & _).
  { intros cur' E. cbn [coin_Denom coin_Amount] in *. assert (cur' = cur) as -> by congruence. lia. }
  { unfold ccs_spec.add_supply. cbn [coin_Denom coin_Amount]. by rw Hm. }
  exists c1. split; [|done]. rw (M_bind_Ok _ _ _ c (MkCoin MintDenom x) c); [|by apply lift_Ok, NewCoin_ok].
  by rw (M_bind_Ok _ _ _ c (Ok tt) c1); [|apply attempt_Ok].
Qed.

Lemma BeginBlocker_events_run events c m V cur z : mirrored c m V → m !! MintDenom = Some cur → 0 ≤ cur_Supply cur →
  ValidateDenom MintDenom = true → mint_sum events = Some z → cur_Supply cur + z < 2 ^ 128 →
  ∃ c', forM events (BeginBlocker_event ccs_perms) self c = (Ok tt, c') ∧
    mirrored c' (<[MintDenom := ccstorage.with_Supply cur (cur_Supply cur + z)]> m) V ∧ ccs_frame vm_store c c'.
Proof.
  revert c m cur z. induction events as [|e events IH]; intros c m cur z Hs Hm Hsup Hd Hz Hlt; simpl in Hz.
  { injection Hz as <-. exists c. rw Z.add_0_r with_Supply_same insert_id; [|done]. split; [done|]. split; [done|apply ccs_frame_refl]. }
  destruct (event_amount e) as [x|] eqn:Ea; [|done]. destruct (mint_sum events) as [r|] eqn:Er; [|done]. simpl in Hz. injection Hz as <-.
  pose proof (mint_sum_nonneg events r Er). pose proof (event_amount_nonneg e x Ea).
  destruct (BeginBlocker_event_run e c m V cur x) as (c1 & Hrun1 & Hs1 & Hf1); [done..|lia|].
  destruct (IH c1 _ (ccstorage.with_Supply cur (cur_Supply cur + x)) r Hs1) as (c2 & Hrun2 & Hs2 & Hf2); [by rw lookup_insert_eq|simpl; lia|done|done|simpl; lia|].
  exists c2. split; [|split; [|by eapply ccs_frame_trans]].
  - cbn [forM]. by rw (M_bind_Ok _ _ _ _ _ _ Hrun1).
  - rw insert_insert_eq in Hs2. simpl in Hs2. by rw -Z.add_assoc in Hs2.
Qed.

(** *** What the rest of the chain does to the accounts, and what it adds to the supplies *)
Notation gains := (string → Z) (only parsing).
Definition nothing_gained : gains := λ _, 0.
(** The coins of an account count when it is not stored yet. *)
Definition first_stored c a cs : gains := λ d, if decide (acc_read (ctx_stores c acc_store) a = None) then amount_of cs d else 0.

Inductive outside : Ctx → gains → Ctx → Prop :=
  (** An account is stored: a transfer, a fee, a delegation. *)
  | out_store c acc caller c' : (∀ w, world_holds c w → storable (wd_auth w) acc) →
      vmauth.SetAccount ccs_perms acc caller c = (Ok tt, c') → outside c (first_stored c (acc_GetAddress acc) (acc_GetCoins acc)) c'
  (** An account number is used up. *)
  | out_number c a acc caller c' : ak_NewAccountWithAddress a caller c = (Ok acc, c') → outside c nothing_gained c'
  (** The VM moves balances. *)
  | out_vm c c' V : vm_only vm_store c c' →
      (∀ q, common_vm.path_ok q → vp_Address q = common_vm.StdLibAddress → vm_read (ctx_stores c' vm_store) q = vm_read (ctx_stores c vm_store) q) →
      (∀ a d, addr_ok a → value_held clients vm_store c' a d (V a d)) → outside c nothing_gained c'
  | out_others c c' : (∀ k, k ∈ cc_stores → ctx_stores c' k = ctx_stores c k) → GetSupply (ctx_bank c') = GetSupply (ctx_bank c) →
      outside c nothing_gained c'
  | out_both c f c1 g c2 : outside c f c1 → outside c1 g c2 → outside c (λ d, f d + g d) c2.

(** The supply of a currency less the total supply of its denomination. *)
Definition surplus c w d : Z := auth_spec.supply (wd_auth w) d - total_supply c d.

(** Issues and withdraws are never changed or forgotten. *)
Definition grows w w' : Prop := wd_issues w ⊆ wd_issues w' ∧ wd_withdraws w ⊆ wd_withdraws w'.
Lemma grows_trans w1 w2 w3 : grows w1 w2 → grows w2 w3 → grows w1 w3.
Proof. intros [? ?] [? ?]. split; by etrans. Qed.

(** What every step is shown to do. *)
Definition step_ok c w (f : gains) c' : Prop := ∃ w', world_holds c' w' ∧ (∀ d, surplus c' w' d = surplus c w d + f d) ∧ grows w w'.

Lemma first_stored_spec c w a cs d : world_holds c w → first_stored c a cs d = if decide (unknown (wd_auth w) a) then amount_of cs d else 0.
Proof. intros Hw. unfold first_stored, unknown. by rw (ah_accounts _ _ _ _ _ (wh_auth _ _ Hw)). Qed.

(** Another state of the accounts, the rest of the world being as it was. *)
Lemma world_set_auth c c' w st : world_holds c w → auth_holds c' st → denoms_ok (as_currencies st) → cc_store c' = cc_store c →
  coins_valid (GetSupply (ctx_bank c')) → world_holds c' (cc_spec.set_auth w st).
Proof. intros [_ _ Hcc Hinv _] Hs Hden E Hv. split; [done|done| |by apply inv_set_auth|done]. rw E. by apply cc_holds_same. Qed.

Lemma outside_ok c f c' w : outside c f c' → world_holds c w → step_ok c w f c'.
Proof.
  intros Hout. revert w. induction Hout as [c acc caller c' Hso Hrun|c a acc caller c' Hrun|c c' V Ho Hinfo Hval|c c' Hk Hsup|c f c1 g c2 _ IH1 _ IH2];
    intros w Hw; pose proof Hw as [Hs Hden Hcc Hinv Hv].
  - pose proof (SetAccount_run clients vm_store acc_store ccs_perms ccs_own_perms admitted auth_granted other_store own_store lcs_info lcs_balance
      acc caller c (wd_auth w) Hs Hden (Hso w Hw)) as Hr.
    destruct (auth_spec.set_account (wd_auth w) acc) as [st'|e|] eqn:Hset; [|destruct Hr as [c0 Hr]; congruence|done].
    destruct Hr as (c0 & Hrun0 & Hs' & Hf). rw Hrun in Hrun0. injection Hrun0 as <-.
    destruct (set_account_effect _ _ _ (so_coins _ _ (Hso w Hw)) Hset) as (_ & _ & Hcur & _ & _ & Hsup & _).
    exists (cc_spec.set_auth w st'). destruct Hf as (Hfr & Eb & Ee). split; [|split; [|done]].
    + apply (world_set_auth c); [done|done|by eapply same_currencies_denoms|by apply cc_store_auth|by rw Eb].
    + intros d. unfold surplus, total_supply. cbn [wd_auth cc_spec.set_auth]. rw Eb Hsup (first_stored_spec c w _ _ d Hw). unfold unknown.
      destruct (decide (as_accounts (wd_auth w) !! acc_GetAddress acc = None)) as [->|Hk]; [lia|]. destruct (as_accounts (wd_auth w) !! _); [lia|done].
  - pose proof Hs as [Hmi Hwf Hacc Hnext]. destruct (NewAccountWithAddress_ok a caller c Hwf) as (s & Hnew & Hwf' & Hn & Hread).
    rw Hrun in Hnew. injection Hnew as _ ->. assert (ctx_stores (set_store c acc_store s) acc_store = s) as Es by (simpl; by rw decide_True).
    exists (cc_spec.set_auth w (auth_spec.with_next (wd_auth w) (wrap64 (as_next (wd_auth w) + 1)))). split; [|split; [|done]].
    + apply (world_set_auth c); [done| |done|apply (cc_store_auth c), auth_frame_acc|done].
      split; rw ?Es; [by apply (mirrored_acc clients vm_store acc_store own_store)|done|intros x; by rw Hread Hacc|by rw Hn Hnext].
    + intros d. unfold nothing_gained. by rw Z.add_0_r.
  - destruct Ho as (Hfr & Eb & Ee). pose proof Hs as [[[Hcur Hd Hi] Hb] Hwf Hacc Hnext].
    assert (∀ k, k ≠ vm_store → ctx_stores c' k = ctx_stores c k) as Hk by (intros k Hne; apply Hfr; by intros ->%list_elem_of_singleton).
    assert (ctx_stores c' acc_store = ctx_stores c acc_store) as Ea by (apply Hk; intros E; apply own_store; rw E; right; left).
    exists (cc_spec.set_auth w (MkAuthState (wd_currencies w) (as_accounts (wd_auth w)) (as_next (wd_auth w)) V)). split; [|split; [|done]].
    + apply (world_set_auth c); [done| |done|apply Hk; intros E; by apply vm_cc_other|by rw Eb].
      split; rw ?Ea; [split; [split|]|done..]; cbn [as_currencies as_balances].
      * intros d. rw Hk; [apply Hcur|intros E; by apply other_store].
      * done.
      * intros d cur E. destruct (Hi d cur E) as (bz & Hbz & Hr). exists bz. split; [done|]. rw Hinfo; [done|apply info_path_ok|done].
      * exact Hval.
    + intros d. unfold surplus, total_supply, nothing_gained. rw Eb.
      change (auth_spec.supply (wd_auth (cc_spec.set_auth w _)) d) with (auth_spec.supply (wd_auth w) d). lia.
  - exists w. split; [by apply (world_holds_frame c); [|rw Hsup|]|]. split; [|done]. intros d. unfold surplus, total_supply, nothing_gained. rw Hsup. lia.
  - destruct (IH1 w Hw) as (w1 & Hw1 & E1 & G1). destruct (IH2 w1 Hw1) as (w2 & Hw2 & E2 & G2). exists w2. split; [done|].
    split; [|by eapply grows_trans]. intros d. cbv beta. rw E2 E1. lia.
Qed.

(** *** The steps of the chain that concern the module *)
Inductive cc_step : Ctx → gains → Ctx → Prop :=
  | cs_issue c msg caller c' :
      (∀ w, world_holds c w → issue_fits c w (mic_Coin msg) (mic_Payee msg)) →
      NewMsHandler modulePerms ccs_perms (MsMsg_IssueCurrency msg) caller c = (Ok tt, c') →
      cc_step c (first_stored c (mic_Payee msg) [mic_Coin msg]) c'
  | cs_withdraw c msg caller r c' :
      (∀ w, world_holds c w → withdraw_fits (set_events c []) w (mwc_Coin msg) (mwc_Payer msg)) →
      NewHandler modulePerms ccs_perms TxBytes (Msg_WithdrawCurrency msg) caller c = (Ok r, c') → cc_step c nothing_gained c'
  (** The forced removal of the delegations works on the accounts from outside. *)
  | cs_unstake c f c1 msg caller c' bond lp :
      BondDenom self c = (Ok bond, c) → LPDenom self c = (Ok lp, c) → ForceRemoveDelegator (muc_Staker msg) self c = (Ok tt, c1) →
      outside c f c1 → (∀ w, world_holds c1 w → unstake_fits c1 w bond lp (muc_Staker msg)) →
      NewMsHandler modulePerms ccs_perms (MsMsg_UnstakeCurrency msg) caller c = (Ok tt, c') → cc_step c f c'
  | cs_create c p caller c' :
      0 ≤ acp_Decimals p < 256 → AddCurrencyProposal_ValidateBasic p = Ok tt →
      NewGovHandler modulePerms ccs_perms (Content_AddCurrency p) caller c = (Ok tt, c') → cc_step c nothing_gained c'
  (** The mint module raises the total supply, the begin blocker follows. *)
  | cs_mint c c1 z caller c' :
      (∀ k, ctx_stores c1 k = ctx_stores c k) → coins_valid (GetSupply (ctx_bank c1)) →
      (∀ d, total_supply c1 d = total_supply c d + (if decide (d = MintDenom) then z else 0)) →
      1 < ctx_height c1 → mint_sum (ctx_events c1) = Some z →
      (∀ w, world_holds c w → is_Some (wd_currencies w !! MintDenom) ∧ 0 ≤ auth_spec.supply (wd_auth w) MintDenom ∧
        auth_spec.supply (wd_auth w) MintDenom + z < 2 ^ 128) →
      BeginBlocker ccs_perms caller c1 = (Ok tt, c') → cc_step c nothing_gained c'
  | cs_outside c f c' : outside c f c' → cc_step c f c'.

(** Any sequence of steps, with all that was gained. *)
Inductive cc_run : Ctx → gains → Ctx → Prop :=
  | run_none c : cc_run c nothing_gained c
  | run_more c f c1 g c2 : cc_step c f c1 → cc_run c1 g c2 → cc_run c (λ d, f d + g d) c2.

Lemma emit_run e caller c : EmitEvent e caller c = (Ok tt, set_events c (ctx_events c ++ [e])).
Proof. done. Qed.

Lemma step_ok_events c w f c' es : step_ok c w f c' → step_ok c w f (set_events c' es).
Proof. intros (w' & Hw' & Hsur & Hg). exists w'. split; [by apply world_holds_events|]. split; [exact Hsur|done]. Qed.

Lemma step_issue c msg caller c' w : world_holds c w → issue_fits c w (mic_Coin msg) (mic_Payee msg) →
  NewMsHandler modulePerms ccs_perms (MsMsg_IssueCurrency msg) caller c = (Ok tt, c') →
  step_ok c w (first_stored c (mic_Payee msg) [mic_Coin msg]) c'.
Proof.
  intros Hw Hfits Hrun. unfold NewMsHandler, in_module, handleMsMsgIssueCurrency in Hrun.
  pose proof (IssueCurrency_issues self c w (mic_ID msg) (mic_Coin msg) (mic_Payee msg) (may_self _) Hw Hfits) as Hr.
  destruct (cc_spec.issue_check _ _ _ _) as [[]|e|] eqn:Ei; [|by rw (M_bind_Err _ _ _ _ _ _ Hr) in Hrun|done].
  destruct Hr as (c2 & st2 & Hrun2 & Hw2 & Hch & Htot & _). rw (M_bind_Ok _ _ _ _ _ _ Hrun2) emit_run in Hrun. injection Hrun as <-.
  apply step_ok_events. eexists. split; [exact Hw2|]. split.
  - intros d. unfold surplus. cbn [wd_auth cc_spec.add_issue cc_spec.set_auth]. rw (ac_supply _ _ _ _ _ Hch) Htot (first_stored_spec c w _ _ d Hw).
    unfold issued_supply. lia.
  - split; [|done]. simpl. apply insert_subseteq. unfold cc_spec.issue_check in Ei. ok_inv.
    match goal with Hb : bool_decide _ = false |- _ => apply bool_decide_eq_false in Hb; by apply eq_None_not_Some end.
Qed.

Lemma step_withdraw c msg caller r c' w : world_holds c w → withdraw_fits (set_events c []) w (mwc_Coin msg) (mwc_Payer msg) →
  NewHandler modulePerms ccs_perms TxBytes (Msg_WithdrawCurrency msg) caller c = (Ok r, c') → step_ok c w nothing_gained c'.
Proof.
  intros Hw Hfits Hrun. unfold NewHandler, in_module, WithEventManager, handleMsgWithdraw in Hrun. apply pair_eq in Hrun as [Hr <-].
  pose proof (WithdrawCurrency_withdraws self (set_events c []) w (mwc_Coin msg) (mwc_Payer msg) (mwc_PegZonePayee msg) (mwc_PegZoneChainID msg)
    (may_self _) (world_holds_events _ _ _ Hw) Hfits) as Hrun. cbv zeta in Hrun.
  destruct (cc_spec.registered_denom _ _) as [[]|e|]; [|by rw (M_bind_Err _ _ _ _ _ _ Hrun) in Hr|done].
  destruct (_ <=? _); [|by rw (M_bind_Err _ _ _ _ _ _ Hrun) in Hr].
  destruct Hrun as (c2 & st2 & Hrun2 & Hw2 & Hch & Htot & _). rw (M_bind_Ok _ _ _ _ _ _ Hrun2). apply step_ok_events.
  rw (M_bind_Ok _ _ _ _ _ _ (emit_run _ _ _)). apply step_ok_events. eexists. split; [exact Hw2|]. split.
  - intros d. unfold surplus, nothing_gained. cbn [wd_auth cc_spec.add_withdraw cc_spec.set_auth]. rw (ac_supply _ _ _ _ _ Hch) Htot.
    change (total_supply (set_events c []) d) with (total_supply c d). lia.
  - split; [done|]. simpl. apply insert_subseteq, eq_None_not_Some. rw (ci_dense _ (wh_inv _ _ Hw)). lia.
Qed.

Lemma step_unstake c f c1 msg caller c' bond lp w : world_holds c w →
  BondDenom self c = (Ok bond, c) → LPDenom self c = (Ok lp, c) → ForceRemoveDelegator (muc_Staker msg) self c = (Ok tt, c1) →
  outside c f c1 → (∀ w, world_holds c1 w → unstake_fits c1 w bond lp (muc_Staker msg)) →
  NewMsHandler modulePerms ccs_perms (MsMsg_UnstakeCurrency msg) caller c = (Ok tt, c') → step_ok c w f c'.
Proof.
  intros Hw Hb Hl Hf Hout Hfits Hrun. destruct (outside_ok c f c1 w Hout Hw) as (w1 & Hw1 & Hsur & Hg).
  destruct (UnstakeCurrency_run self c c1 w1 (muc_Staker msg) bond lp Hw1 Hb Hl Hf (Hfits w1 Hw1)) as (c2 & st2 & Hrun2 & Hw2 & Hch & Htot & _).
  unfold NewMsHandler, in_module, handleMsMsgUnstakeCurrency in Hrun. rw Hrun2 in Hrun. injection Hrun as <-.
  eexists. split; [exact Hw2|]. split; [|done]. intros d. rw -Hsur. unfold surplus. cbn [wd_auth cc_spec.set_auth].
  rw (ac_supply _ _ _ _ _ Hch) Htot. lia.
Qed.

Lemma step_create c p caller c' w : world_holds c w → 0 ≤ acp_Decimals p < 256 → AddCurrencyProposal_ValidateBasic p = Ok tt →
  NewGovHandler modulePerms ccs_perms (Content_AddCurrency p) caller c = (Ok tt, c') → step_ok c w nothing_gained c'.
Proof.
  intros Hw Hdec Hval Hrun. pose proof Hw as [Hs Hden Hcc Hinv Hv]. set (pr := GetCurrencyParams p).
  unfold NewGovHandler, in_module, handleAddCurrencyProposal, CreateCurrency in Hrun. fold pr in Hrun.
  apply M_bind_inv in Hrun as (o & c1 & Hcreate & Hrun). apply attempt_inv in Hcreate. rw may_run in Hcreate; [|apply may_self].
  assert (allowed ccs_perms ccstorage.PermCreate self) as Hcaller by (apply ccs_allowed; left).
  destruct (wd_currencies w !! cp_Denom pr) as [cur|] eqn:E.
  - pose proof (create_run clients vm_store ccs_perms ccs_own_perms admitted other_store lcs_info self c (wd_currencies w) pr Hcaller
      (mi_currencies _ _ _ _ _ (ah_mirrored _ _ _ _ _ Hs)) Hdec) as Hr.
    unfold refines, ccs_spec.step, run in Hr. rw bool_decide_true in Hr; [|by rw E; eexists]. rw Hr in Hcreate. by injection Hcreate as <- <-.
  - destruct (create_mirrored clients vm_store ccs_perms ccs_own_perms admitted other_store lcs_info pr self c _ _ (ah_mirrored _ _ _ _ _ Hs) Hcaller Hdec E)
      as (c2 & Hrun2 & Hm2 & Hf2). rw Hrun2 in Hcreate. injection Hcreate as <- <-. rw emit_run in Hrun. injection Hrun as <-. apply step_ok_events.
    exists (cc_spec.set_auth w (with_currencies (wd_auth w) (<[cp_Denom pr := NewCurrency pr 0]> (wd_currencies w)))). split; [|split; [|done]].
    + apply (world_set_auth c); [done|by apply (auth_holds_currencies clients vm_store acc_store own_store c)| |by apply cc_store_ccs|by rw (cf_bank _ _ _ Hf2)].
      cbn [as_currencies with_currencies]. intros d cur [[<- _]|[_ Hd]]%lookup_insert_Some; [|by apply (Hden d cur)]. apply DenomFilter_valid.
      unfold AddCurrencyProposal_ValidateBasic in Hval. apply outcome_bind_inv in Hval as ([] & Hd & _). exact Hd.
    + intros d. unfold surplus, total_supply, nothing_gained. rw (cf_bank _ _ _ Hf2). cbn [wd_auth cc_spec.set_auth]. unfold auth_spec.supply.
      cbn [as_currencies with_currencies]. unfold wd_currencies in *.
      destruct (decide (cp_Denom pr = d)) as [<-|Hne]; [rw lookup_insert_eq E; simpl; lia|rw lookup_insert_ne; [lia|done]].
Qed.

Lemma step_mint c c1 z caller c' w : world_holds c w → (∀ k, ctx_stores c1 k = ctx_stores c k) → coins_valid (GetSupply (ctx_bank c1)) →
  (∀ d, total_supply c1 d = total_supply c d + (if decide (d = MintDenom) then z else 0)) →
  1 < ctx_height c1 → mint_sum (ctx_events c1) = Some z →
  is_Some (wd_currencies w !! MintDenom) → 0 ≤ auth_spec.supply (wd_auth w) MintDenom → auth_spec.supply (wd_auth w) MintDenom + z < 2 ^ 128 →
  BeginBlocker ccs_perms caller c1 = (Ok tt, c') → step_ok c w nothing_gained c'.
Proof.
  intros [Hs Hden Hcc Hinv Hv] Hk Hv1 Ht1 Hh Hz [cur Hm] Hpos Hlt Hrun. unfold wd_currencies in Hm. rw (supply_of _ _ _ Hm) in Hpos. rw (supply_of _ _ _ Hm) in Hlt.
  assert (auth_holds c1 (wd_auth w)) as Hs1 by (by apply (auth_holds_frame clients vm_store acc_store c)).
  destruct (BeginBlocker_events_run (ctx_events c1) c1 _ _ cur z (ah_mirrored _ _ _ _ _ Hs1) Hm Hpos) as (c2 & Hrun2 & Hm2 & Hf2); [by apply (Hden _ cur)|done..|].
  assert (BeginBlocker ccs_perms caller c1 = (Ok tt, c2)) as E.
  { unfold BeginBlocker, in_module. rw (M_bind_Ok _ _ _ c1 (ctx_height c1) c1); [|done]. rw (proj2 (Z.ltb_lt _ _) Hh).
    by rw (M_bind_Ok _ _ _ c1 (ctx_events c1) c1). }
  rw E in Hrun. injection Hrun as <-. set (m' := <[MintDenom := _]> _) in Hm2.
  exists (cc_spec.set_auth w (with_currencies (wd_auth w) m')). split; [|split; [|done]].
  - split; [by apply (auth_holds_currencies clients vm_store acc_store own_store c1)| | |by apply inv_set_auth|by rw (cf_bank _ _ _ Hf2)].
    + unfold wd_currencies. cbn [wd_auth cc_spec.set_auth as_currencies with_currencies]. unfold m'. intros d cur' [[<- _]|[_ Hd]]%lookup_insert_Some; [by apply (Hden _ cur)|by apply (Hden d cur')].
    + rw (cc_store_ccs _ _ Hf2) Hk. by apply cc_holds_same.
  - intros d. unfold surplus, nothing_gained. change (total_supply c2 d) with (amount_of (GetSupply (ctx_bank c2)) d). rw (cf_bank _ _ _ Hf2).
    fold (total_supply c1 d). rw Ht1. cbn [wd_auth cc_spec.set_auth]. unfold auth_spec.supply. cbn [as_currencies with_currencies].
    destruct (decide (d = MintDenom)) as [->|Hne]; [unfold m'; rw lookup_insert_eq Hm; simpl; lia|unfold m'; rw lookup_insert_ne; [lia|congruence]].
Qed.

Lemma cc_step_ok c f c' w : world_holds c w → cc_step c f c' → step_ok c w f c'.
Proof.
  intros Hw Hstep. destruct Hstep as [c msg caller c' Hfits Hrun|c msg caller r c' Hfits Hrun|c f c1 msg caller c' bond lp Hb Hl Hf Hout Hfits Hrun|
    c p caller c' Hdec Hval Hrun|c c1 z caller c' Hk Hv Ht Hh Hz Hc Hrun|c f c' Hout].
  - by apply (step_issue c msg caller); [|apply Hfits|].
  - by apply (step_withdraw c msg caller r); [|apply Hfits|].
  - by apply (step_unstake c f c1 msg caller c' bond lp).
  - by apply (step_create c p caller).
  - destruct (Hc w Hw) as (Hreg & Hpos & Hlt). by apply (step_mint c c1 z caller).
  - by apply outside_ok.
Qed.


(** C19: unstaking by force, once the delegations are removed, takes all staking and
    liquidity coins of the account, exactly those, off the account, the VM's balances,
    the supplies of the currencies and the total supply, and bans the account: nothing
    can be issued to it afterwards.  Nothing else is touched: not the other coins of
    the account, other accounts or their balances, the issues, the withdraws or the
    currencies, and nobody else is banned. *)
Theorem UnstakeCurrency_burns_and_bans caller c c1 w staker bond lp : world_holds c1 w →
  BondDenom self c = (Ok bond, c) → LPDenom self c = (Ok lp, c) → ForceRemoveDelegator staker self c = (Ok tt, c1) →
  unstake_fits c1 w bond lp staker →
  let st := wd_auth w in
  let gone d := if bool_decide (d = bond ∨ d = lp) then amount_of (coins_at st staker) d else 0 in
  ∃ c' st' cs, UnstakeCurrency ccs_perms staker caller c = (Ok tt, c') ∧
    world_holds c' (MkWorld st' (wd_issues w) (wd_withdraws w) (wd_last w)) ∧
    as_accounts st' = <[staker := with_Coins cs (account_at st staker)]> (as_accounts st) ∧ coins_valid cs ∧
    (∀ d, amount_of cs d = amount_of (coins_at st staker) d - gone d) ∧
    (∀ x d, auth_spec.vm_amount st' x d = auth_spec.vm_amount st x d - if decide (x = staker) then gone d else 0) ∧
    same_currencies (as_currencies st) (as_currencies st') ∧
    (∀ d, auth_spec.supply st' d = auth_spec.supply st d - gone d) ∧
    (∀ d, total_supply c' d = total_supply c1 d - gone d) ∧
    (∀ x, banned (ctx_stores c' staking_store) x = if decide (x = staker) then true else banned (ctx_stores c1 staking_store) x) ∧
    frame (staking_store :: cc_stores) c1 c' ∧ ctx_events c' = ctx_events c1 ∧
    (∀ id coin, IssueCurrency modulePerms ccs_perms id coin staker self c' = (Err ErrAccountBanned, c')).
Proof.
  intros Hw Hb Hl Hf Hfits st gone.
  destruct (UnstakeCurrency_run caller c c1 w staker bond lp Hw Hb Hl Hf Hfits) as (c' & st' & Hrun & Hw' & Hch & Htot & Hban & Hfr & He).
  assert (∀ d, stake_of bond lp st staker d = gone d) as Egone.
  { intros d. unfold stake_of, burned, gone, cc_spec.is_staking. by repeat case_bool_decide; naive_solver. }
  destruct (ac_account _ _ _ _ _ Hch) as (cs & Eacc & Hv & Hcs). exists c', st', cs.
  split; [done|]. split; [done|]. split; [done|]. split; [done|]. split_and!; [..|done|done|done|].
  - intros d. rw Hcs Egone. done.
  - intros x d. rw (ac_vm _ _ _ _ _ Hch) Egone. fold st. destruct (decide (x = staker)); lia.
  - apply (ac_currencies _ _ _ _ _ Hch).
  - intros d. rw (ac_supply _ _ _ _ _ Hch) Egone. done.
  - intros d. by rw Htot Egone.
  - intros id coin. unfold IssueCurrency. rw may_run; [|apply may_self]. apply recovering_Err.
    pose proof (IsAccountBanned_ok staker self c') as Hi. rw Hban decide_True in Hi; [|done]. by rw (M_bind_Ok _ _ _ _ _ _ Hi).
Qed.

(** *** Pages of withdraws *)
Lemma GetWithdraw_run c w id : cc_holds (cc_store c) w → 0 ≤ id →
  GetWithdraw modulePerms id self c = (match wd_withdraws w !! id with Some x => Ok x | None => Err ErrWrongWithdrawID end, c).
Proof.
  intros Hs Hid. unfold GetWithdraw. rw may_run; [|apply may_self].
  rw (M_bind_Ok _ _ _ c (bool_decide (is_Some (wd_withdraws w !! id))) c).
  - destruct (wd_withdraws w !! id) as [x|] eqn:E; [|done]. simpl. unfold getWithdraw, mbind, M_bind, kv_Get.
    rw (cc_withdraw _ _ Hs); [|done]. rw E. simpl. unfold MustUnmarshal. by rw Unmarshal_Marshal.
  - unfold HasWithdraw. rw may_run; [|apply may_self]. unfold kv_Has, store_Has. rw (cc_withdraw _ _ Hs); [|done]. do 2 f_equal.
    apply bool_decide_ext, fmap_is_Some.
Qed.

Lemma NewIDFromString_of id : 0 ≤ id < maxUint → NewIDFromString (Uint_String id) = Ok id.
Proof.
  intros Hid. unfold NewIDFromString. rw decide_False; [|rw Uint_String_decimal; [apply pretty_N_nonempty|lia]].
  by rw NewUintFromString_String.
Qed.

Lemma omap_absent w start n : cc_inv w → cc_spec.next_id w ≤ start → omap (λ id, wd_withdraws w !! id) (seqZ start (Z.of_nat n)) = [].
Proof.
  intros Hi Hs. induction n as [|n IH] in start, Hs |-*; [done|]. rw seqZ_cons; [|lia]. simpl.
  assert (wd_withdraws w !! start = None) as ->.
  { apply eq_None_not_Some. rw (ci_dense _ Hi). lia. }
  replace (Z.pred (Z.of_nat (S n))) with (Z.of_nat n) by lia. apply IH. lia.
Qed.

Lemma withdraws_from_run n start c w : cc_holds (cc_store c) w → cc_inv w → 0 ≤ start → start + Z.of_nat n < maxUint →
  withdraws_from modulePerms n start self c = (Ok (omap (λ id, wd_withdraws w !! id) (seqZ start (Z.of_nat n))), c).
Proof.
  intros Hs Hi. revert start. induction n as [|n IH]; intros start Hst Hlt; [done|]. cbn [withdraws_from].
  rw NewIDFromString_of; [|lia]. pose proof (GetWithdraw_run c w start Hs Hst) as Hget.
  destruct (wd_withdraws w !! start) as [x|] eqn:E.
  - rw (M_bind_Ok _ _ _ c (Ok x) c); [|by apply attempt_Ok]. cbn beta iota.
    rw (M_bind_Ok _ _ _ c (start + 1) c); [|apply lift_Ok, Uint_Add_ok; lia].
    assert (0 ≤ start + 1) as H1' by lia. assert (start + 1 + Z.of_nat n < maxUint) as H2' by (rw Nat2Z.inj_succ in Hlt; lia).
    rw (M_bind_Ok _ _ _ _ _ _ (IH (start + 1) H1' H2')). rw (seqZ_cons start); [|lia].
    replace (Z.pred (Z.of_nat (S n))) with (Z.of_nat n) by lia. cbn [omap list_omap]. by rw E.
  - rw (M_bind_Ok _ _ _ c (Err ErrWrongWithdrawID) c); [|by apply attempt_Err]. cbn beta iota.
    rw omap_absent; [done|done|]. pose proof (proj2 (ci_dense _ Hi start)) as Hd. rw E in Hd.
    destruct (Z.le_gt_cases (cc_spec.next_id w) start) as [|Hgt]; [done|]. destruct Hd as [? Hd]; [lia|done].
Qed.

(** A page of withdraws is exactly the withdraws whose numbers are in it, in order;
    pages are counted from one, page zero is the first one too. *)
Theorem GetWithdrawsFiltered_page caller c w page limit : may PermRead caller → world_holds c w →
  0 ≤ page → 0 ≤ limit → (page + 1) * limit < maxUint → page < maxUint →
  GetWithdrawsFiltered modulePerms (MkWithdrawsReq page limit) caller c =
    (Ok (omap (λ id, wd_withdraws w !! id) (seqZ (Z.max 0 (page - 1) * limit) limit)), c).
Proof.
  intros Hcaller [_ _ Hcc Hinv _] Hp Hl Hlt Hpm. unfold GetWithdrawsFiltered. rw may_run; [|done]. simpl.
  rw (M_bind_Ok _ _ _ c (Z.max 0 (page - 1)) c).
  2:{ destruct (Z.ltb_spec 0 page); [|by replace (Z.max 0 (page - 1)) with page by lia].
      rw Z.max_r; [|lia]. apply lift_Ok, Uint_Sub_ok; lia. }
  set (start := Z.max 0 (page - 1) * limit). assert (0 ≤ start ∧ start + limit < maxUint) as [Hs Hlt'] by nia.
  rw (M_bind_Ok _ _ _ c start c); [|apply lift_Ok, Uint_Mul_ok; lia].
  rw (M_bind_Ok _ _ _ c (start + limit) c); [|apply lift_Ok, Uint_Add_ok; lia].
  replace (start + limit - start) with limit by lia. rw (withdraws_from_run _ start c w Hcc Hinv Hs); rw Z2Nat.id; done.
Qed.

(** The invariant the module registers compares a list with itself. *)
Lemma TotalSupply_never_broken caller c b c' : TotalSupply ccs_perms caller c = (Ok b, c') → b = false.
Proof. unfold TotalSupply, in_module. intros Hrun. m_inv.
  match goal with Hq : Coins_IsEqual _ _ = Ok _ |- _ => rw Coins_IsEqual_refl in Hq; by injection Hq as <- end. Qed.
End theorems.
