(* ===== verification/CurrenciesWitnesses.v ===== *)
(** * Currencies: the theorems on a concrete chain

    Two currencies and no accounts: coins are issued to an account that is not stored yet,
    which counts them twice, and the account is unstaked by force. *)
From S2P Require Import Prelude Bytes Sdk SdkRef SdkFacts DnTypes Perms Chain SdkBank Currency VMStorage CCStorage Scenario CCStorageFacts SdkAuth BalanceFacts.
From S2P Require Import VMAuth VMAuthFacts VMAuthTheorems VMAuthWitnesses BankKeeper Currencies CurrenciesFacts CurrenciesTheorems.
Local Open Scope string_scope.
Local Open Scope Z_scope.
Local Open Scope list_scope.
Import currencies.

#[local] Existing Instance Bank_ledger.
#[local] Existing Instance Bank_ledger_laws.
#[local] Existing Instance Supply_ops.
#[local] Existing Instance Supply_ops_laws.
#[local] Existing Instance Staking_ref.
#[local] Existing Instance Staking_ref_laws.

(** ** Codecs *)
#[export] Instance issue_eq_dec : EqDecision Issue.
Proof. solve_decision. Defined.
#[export] Instance issue_countable : Countable Issue.
Proof. refine (inj_countable' (λ i, (iss_Coin i, iss_Payee i)) (λ x, MkIssue x.1 x.2) _). abstract (by intros []). Defined.
#[export] Instance withdraw_eq_dec : EqDecision Withdraw.
Proof. solve_decision. Defined.
#[export] Instance withdraw_countable : Countable Withdraw.
Proof.
  refine (inj_countable' (λ w, ((w_ID w, w_Coin w, w_Spender w), (w_PegZoneSpender w, w_PegZoneChainID w, w_Timestamp w, w_TxHash w)))
    (λ x, let '((i, c, s), (p, q, t, h)) := x in MkWithdraw i c s p q t h) _). abstract (by intros []).
Defined.
#[export] Instance codec_Issue : Codec Issue := codec_of_countable Issue.
#[export] Instance codec_Withdraw : Codec Withdraw := codec_of_countable Withdraw.

(** ** Keepers and permissions *)
#[local] Instance the_vm : VMStorage := vm.vm_storage vm_perms.
#[local] Instance the_vm_laws : VMStorageLaws (vm.storage_clients vm_perms) vm.StoreKey := vm.vm_storage_laws vm_perms.
#[local] Instance the_accounts : AccountKeeper := AccountKeeper_ref "acc".
#[local] Instance the_accounts_laws : AccountKeeperLaws "acc" := AccountKeeperLaws_ref "acc".
Definition the_ccs_perms : ModulePermissions :=
  granted (ccstorage.NewKeeper [currencies.RequestCCStoragePerms; vmauth.RequestCCStoragePerms]).
Definition cc_perms : ModulePermissions := granted (NewKeeper []).
#[local] Instance the_bank : BankKeeper := Bank_over the_ccs_perms.
#[local] Instance the_bank_laws : BankKeeperLaws the_ccs_perms := Bank_over_laws the_ccs_perms.

Lemma ccs_grants perm : perm ∈ snd currencies.RequestCCStoragePerms → Check the_ccs_perms ModuleName perm = Ok tt.
Proof. cbn [snd currencies.RequestCCStoragePerms]. rw !elem_of_cons elem_of_nil. intros [->|[->|[->|[]]]]; vm_compute; reflexivity. Qed.
Lemma vmauth_grants perm : perm ∈ snd vmauth.RequestCCStoragePerms → Check the_ccs_perms vmauth.CallerName perm = Ok tt.
Proof. cbn [snd vmauth.RequestCCStoragePerms]. rw !elem_of_cons elem_of_nil. intros [->|[->|[->|[]]]]; vm_compute; reflexivity. Qed.
Lemma the_stores_differ : NoDup [StoreKey; ccstorage.StoreKey; vm.StoreKey; "acc"; "staking"].
Proof. apply (bool_decide_unpack _). vm_compute. exact I. Qed.
Lemma the_ccs_name : mp_name the_ccs_perms = ccstorage.ModuleName.
Proof. vm_compute. reflexivity. Qed.
Lemma cc_name : mp_name cc_perms = ModuleName.
Proof. vm_compute. reflexivity. Qed.

Notation holds := (world_holds (vm.storage_clients vm_perms) vm.StoreKey "acc").
Notation run_of := (cc_run (vm.storage_clients vm_perms) vm.StoreKey "acc" cc_perms the_ccs_perms "tx").

(** ** Two currencies *)
Definition two_currencies : world := MkWorld no_accounts ∅ ∅ None.

Lemma registered_exists : ∃ c, holds c two_currencies ∧ (∀ a, banned (ctx_stores c "staking") a = false) ∧ ctx_bank c = (∅, []).
Proof.
  destruct fresh_chain as (c & Hc & Hk & Hb). exists c.
  assert (ctx_stores c StoreKey = ∅) as E by (by apply Hk). split; [split|split].
  - exact Hc.
  - apply (denoms_fine 0).
  - rw E. by split.
  - split; try done. intros id. split; [by intros [? E']|]. unfold cc_spec.next_id. simpl. lia.
  - rw Hb. split; [apply NoDup_nil_2|apply Forall_nil_2].
  - intros a. assert (ctx_stores c "staking" = ∅) as -> by (by apply Hk). reflexivity.
  - exact Hb.
Qed.

(** A context holds one world, as far as an account with an address of the VM can tell. *)
Record same_for (st st' : auth_state) (a : AccAddress) : Prop := {
  sf_currencies : as_currencies st' = as_currencies st;
  sf_account : as_accounts st' !! a = as_accounts st !! a;
  sf_balances d : as_balances st' a d = as_balances st a d;
}.
Lemma holds_same c w w' a : holds c w → holds c w' → addr_ok a → same_for (wd_auth w) (wd_auth w') a.
Proof.
  intros [[[[Hc _ _] Hb] _ Ha _] _ _ _ _] [[[[Hc' _ _] Hb'] _ Ha' _] _ _ _ _] Hok. split.
  - apply map_eq. intros d. pose proof (Hc d) as E. rw Hc' in E.
    destruct (as_currencies (wd_auth w) !! d) as [x|], (as_currencies (wd_auth w') !! d) as [y|]; try done.
    change (Some (Marshal Bare y) = Some (Marshal Bare x)) in E. apply Some_inj, (f_equal (Unmarshal Bare : string → option Currency)) in E.
    rw !Unmarshal_Marshal in E. congruence.
  - by rw -Ha -Ha'.
  - intros d. specialize (Hb a d Hok). specialize (Hb' a d Hok). unfold value_held in *.
    destruct (as_balances (wd_auth w) a d) as [z|], (as_balances (wd_auth w') a d) as [z'|]; [| | |done].
    + destruct Hb as (_ & bz & E1 & E2), Hb' as (_ & bz' & E1' & E2'). congruence.
    + destruct Hb as (_ & bz & E1 & E2). congruence.
    + destruct Hb' as (_ & bz & E1 & E2). congruence.
Qed.
Lemma synced_same st st' a : same_for st st' a → synced st a → synced st' a.
Proof.
  intros [Em Ea Eb]. unfold synced. rw Ea. destruct (as_accounts st !! a) as [acc|].
  - intros [Hv Hd]. split; [done|]. intros d. rw Hd. unfold auth_spec.vm_amount, balance_spec.amount. by rw Em Eb.
  - unfold auth_spec.vm_knows. rw Em. intros Hk. apply not_true_is_false. intros (d & Hd & Hr)%some_resource_true. rw Eb in Hr.
    assert (balance_spec.some_resource (as_currencies st) (as_balances st a) = true) as Ht by (apply some_resource_true; by exists d). congruence.
Qed.

(** ** 1000 units of the staking coin for [alice] *)
Definition stake : Coin := MkCoin "sxfi" 1000.

Lemma alice_unknown : synced no_accounts alice.
Proof. vm_compute. reflexivity. Qed.
Lemma stake_amount d : amount_of [stake] d = if decide ("sxfi" = d) then 1000 else 0.
Proof. apply amount_of_one. Qed.

Lemma fits_first c w : holds c two_currencies → ctx_bank c = (∅, []) → holds c w → issue_fits c w stake alice.
Proof.
  intros H0 Hb Hw. pose proof (holds_same c _ w alice H0 Hw alice_ok) as Hs. split.
  - apply alice_ok.
  - by apply (synced_same no_accounts); [|apply alice_unknown].
  - done.
  - intros d. unfold coins_at. rw (sf_account _ _ _ Hs). change (account_coins (as_accounts (wd_auth two_currencies) !! alice)) with ([] : list Coin).
    rw amount_of_nil stake_amount. by destruct (decide _).
  - intros _. unfold auth_spec.supply. rw (sf_currencies _ _ _ Hs). by split.
  - unfold total_supply. by rw Hb.
Qed.

(** The issue, as the call the multi signature executes. *)
Lemma issued_exists : ∃ c c' w f, holds c two_currencies ∧ run_of c f c' ∧ f "sxfi" = 1000 ∧ ctx_bank c = (∅, []) ∧
  holds c' w ∧ synced (wd_auth w) alice ∧ (∀ d, amount_of (coins_at (wd_auth w) alice) d = amount_of [stake] d) ∧
  auth_spec.supply (wd_auth w) "sxfi" = 2000 ∧ total_supply c' "sxfi" = 1000.
Proof.
  destruct registered_exists as (c & Hw & Hban & Hb).
  pose proof (IssueCurrency_issues "staking" (vm.storage_clients vm_perms) vm.StoreKey "acc" cc_perms the_ccs_perms cc_name the_ccs_name
    ccs_grants vmauth_grants ccs_admitted lcs_Info_ok lcs_Balance_ok the_stores_differ ModuleName c two_currencies "issue1" stake alice
    (or_introl eq_refl) Hw (fits_first c _ Hw Hb Hw)) as Hr.
  rw (Hban alice) in Hr. change (cc_spec.issue_check false two_currencies "issue1" stake) with (Ok tt) in Hr. cbn beta iota in Hr.
  destruct Hr as (c' & st' & Hrun & Hw' & Hch & Htot & _).
  exists c, (set_events c' (ctx_events c' ++ [NewModuleNameEvent ModuleName])). eexists _, _. split; [exact Hw|]. split; [|split; [|split; [exact Hb|split; [by apply world_holds_events|]]]].
  - eapply run_more; [|apply run_none]. apply (cs_issue _ _ _ _ _ _ c (MkMsgIssueCurrency "issue1" stake alice) ModuleName).
    + intros w Hw2. by apply fits_first.
    + unfold NewMsHandler, in_module, handleMsMsgIssueCurrency. by rw (M_bind_Ok _ _ _ _ _ _ Hrun).
  - cbv beta. unfold nothing_gained. unfold first_stored. rw (ah_accounts _ _ _ _ _ (wh_auth _ _ _ _ _ Hw)). vm_compute. reflexivity.
  - cbn [wd_auth cc_spec.add_issue cc_spec.set_auth]. split; [|split; [|split]].
    + apply (ac_synced _ _ _ _ _ Hch), alice_unknown.
    + intros d. rw (ac_coins _ _ _ _ _ Hch). destruct (decide (alice = alice)); [reflexivity|done].
    + rw (ac_supply _ _ _ _ _ Hch). vm_compute. reflexivity.
    + change (total_supply (set_events c' (ctx_events c' ++ [NewModuleNameEvent ModuleName])) "sxfi") with (total_supply c' "sxfi"). rw Htot.
      unfold total_supply. rw Hb. reflexivity.
Qed.


(** ** [alice] is unstaked *)
Lemma UnstakeCurrency_burns_and_bans_witness : ∃ c c' st', UnstakeCurrency the_ccs_perms alice ModuleName c = (Ok tt, c') ∧
  total_supply c "sxfi" = 1000 ∧ total_supply c' "sxfi" = 0 ∧ auth_spec.supply st' "sxfi" = 1000 ∧
  amount_of (coins_at st' alice) "sxfi" = 0 ∧
  IssueCurrency cc_perms the_ccs_perms "issue2" stake alice ModuleName c' = (Err ErrAccountBanned, c').
Proof.
  destruct issued_exists as (_ & c & w & _ & _ & _ & _ & _ & Hw & Hsy & Hcoins & Hsup & Htot).
  assert (∀ d, stake_of "sxfi" "lpt" (wd_auth w) alice d = if decide ("sxfi" = d) then 1000 else 0) as Hst.
  { intros d. unfold stake_of, burned. rw Hcoins stake_amount. destruct (decide ("sxfi" = d)) as [<-|]; [reflexivity|]. by destruct (cc_spec.is_staking _ _ _). }
  destruct (UnstakeCurrency_burns_and_bans (SK := Staking_ref) "staking" (vm.storage_clients vm_perms) vm.StoreKey "acc" cc_perms the_ccs_perms cc_name the_ccs_name
    ccs_grants vmauth_grants ccs_admitted lcs_Info_ok lcs_Balance_ok the_stores_differ ModuleName c c w alice "sxfi" "lpt" Hw eq_refl eq_refl eq_refl)
    as (c' & st' & cs & Hrun & _ & Eacc & _ & Hcs & _ & _ & Hsup' & Htot' & _ & _ & _ & Hban).
  - split; [apply alice_ok|exact Hsy| |].
    + intros d. rw Hcoins stake_amount. by destruct (decide _).
    + intros d. rw Hst. destruct (decide ("sxfi" = d)) as [<-|]; [|done]. rw Hsup Htot. done.
  - assert (amount_of (coins_at (wd_auth w) alice) "sxfi" = 1000) as E by (rw Hcoins; reflexivity).
    exists c, c', st'. split; [exact Hrun|]. split; [exact Htot|]. split; [rw Htot' E Htot; reflexivity|]. split; [rw Hsup' E Hsup; reflexivity|].
    split; [|apply Hban]. unfold coins_at. rw Eacc lookup_insert_eq. cbn [account_coins]. rw with_Coins_Coins Hcs E. reflexivity.
Defined.

