(* ===== verification/Abci.v ===== *)
(** * Transactions and blocks: what the application gets from the SDK

    [sdk.Context] with its gas meters, the multistore of the application, panics and
    what [recover] tells of them, and the requests and responses of the consensus engine.
    Gas meters and the committing multistore are interfaces; [Meter] and [Versions] are
    executable instances of them. *)
From S2P Require Import Prelude Bytes Sdk SdkRef Perms Chain.
Local Open Scope string_scope.
Local Open Scope Z_scope.
Local Open Scope list_scope.

(** ** Panics *)

(** What a panic was called with: the SDK's gas errors, an error, anything else. *)
Inductive panic_value := ErrorOutOfGas | ErrorGasOverflow | PanicError (e : error) | PanicOther.
#[export] Instance panic_value_eq_dec : EqDecision panic_value.
Proof. solve_decision. Defined.

(** A call returns or panics. *)
Inductive run (A : Type) := Returns (a : A) | Panics (p : panic_value).
Arguments Returns {A} a.
Arguments Panics {A} p.

(** [sdkErrors] of the root codespace. *)
Definition ErrOutOfGas : error := Registered "sdk" 11.
Definition ErrInvalidRequest : error := Registered "sdk" 18.
Definition ErrPanic : error := Registered "undefined" 111222.

(** ** Gas meters *)
Class TxGas (G : Type) := {
  NewGasMeter : Z → G;
  NewInfiniteGasMeter : G;
  GasConsumed : G → Z;
  GasConsumedToLimit : G → Z;
  GasLimit : G → Z;
  IsOutOfGas : G → bool;
  (** The meter counts what it panics on too. *)
  ConsumeGas : G → Z → option panic_value * G;
}.

(** Documented behaviour, below 64 bits: a meter adds up what is consumed and panics once
    that is past its limit. *)
Class TxGasLaws (G : Type) `{TxGas G} := {
  limited : G → bool;
  NewGasMeter_ok n : 0 ≤ n < 2 ^ 64 → GasConsumed (NewGasMeter n) = 0 ∧ GasLimit (NewGasMeter n) = n ∧ limited (NewGasMeter n) = true;
  NewInfiniteGasMeter_ok : GasConsumed NewInfiniteGasMeter = 0 ∧ limited NewInfiniteGasMeter = false;
  GasConsumedToLimit_ok g : GasConsumedToLimit g = if limited g then Z.min (GasConsumed g) (GasLimit g) else GasConsumed g;
  IsOutOfGas_ok g : IsOutOfGas g = limited g && (GasLimit g <=? GasConsumed g);
  ConsumeGas_ok g n : 0 ≤ n → 0 ≤ GasConsumed g → GasConsumed g + n < 2 ^ 64 →
    let r := ConsumeGas g n in
    GasConsumed r.2 = GasConsumed g + n ∧ GasLimit r.2 = GasLimit g ∧ limited r.2 = limited g ∧
    r.1 = if limited g && (GasLimit g <? GasConsumed g + n) then Some ErrorOutOfGas else None;
}.

(** An executable meter. *)
Record Meter := MkMeter { mt_limit : option Z; mt_consumed : Z }.
#[export] Instance meter_gas : TxGas Meter := {|
  NewGasMeter n := MkMeter (Some n) 0;
  NewInfiniteGasMeter := MkMeter None 0;
  GasConsumed := mt_consumed;
  GasConsumedToLimit g := match mt_limit g with Some l => Z.min (mt_consumed g) l | None => mt_consumed g end;
  GasLimit g := default 0 (mt_limit g);
  IsOutOfGas g := match mt_limit g with Some l => l <=? mt_consumed g | None => false end;
  ConsumeGas g n :=
    let consumed := mt_consumed g + n in
    (match mt_limit g with
     | Some l => if l <? consumed then Some ErrorOutOfGas else None
     | None => None
     end, MkMeter (mt_limit g) consumed);
|}.
#[export] Program Instance meter_gas_laws : TxGasLaws Meter := {| limited g := bool_decide (is_Some (mt_limit g)) |}.
Next Obligation. done. Qed.
Next Obligation. done. Qed.
Next Obligation. intros [[]]; done. Qed.
Next Obligation. intros [[]]; done. Qed.
Next Obligation. intros [[]] n Hn Hg Hf; simpl; split_and!; done. Qed.

Section stores.
Context `{KV : KVStore} `{LG : Ledger}.

(** ** Stores *)

(** The content of all stores; the balances are a store too. *)
Record MultiStore := MkMultiStore { ms_stores : string → store; ms_bank : ledger }.

Record Header := MkHeader { hd_ChainID : string; hd_Height : Z; hd_Time : Z }.
(** [ConsensusParams.Block.MaxGas]. *)
Record ConsensusParams := MkConsensusParams { csp_MaxGas : option Z }.

(** ** Requests and responses *)
Record GasInfo := MkGasInfo { gi_Wanted : Z; gi_Used : Z }.
Record TxResult := MkTxResult { txr_Data : string; txr_Log : string; txr_Events : list Event }.
Record RequestQuery := MkRequestQuery { req_Path : string; req_Data : string; req_Height : Z; req_Prove : bool }.
Record ResponseQuery := MkResponseQuery {
  rsp_Error : option error; rsp_Codespace : string; rsp_Height : Z; rsp_Value : string }.
(** [sdkerrors.QueryResult]. *)
Definition QueryResult (e : error) : ResponseQuery := MkResponseQuery (Some e) "" 0 "".

(** ** The committing multistore *)
Class CommitMultiStore (C : Type) := {
  (** What [CacheMultiStore] copies. *)
  cms_content : C → MultiStore;
  (** [Write] of such a copy. *)
  cms_Write : C → MultiStore → C;
  cms_Commit : C → string * C;
  (** The version and the hash. *)
  LastCommitID : C → Z * string;
  CacheMultiStoreWithVersion : C → Z → error + MultiStore;
  LoadLatestVersion : C → error + C;
  LoadVersion : C → Z → error + C;
  cms_Query : C → RequestQuery → ResponseQuery;
}.

(** Documented behaviour: committing keeps the content, numbers it and makes it the
    version of that number; earlier versions stay readable or not as they were. *)
Class CommitMultiStoreLaws (C : Type) `{!CommitMultiStore C} : Prop := {
  content_Write c ms : cms_content (cms_Write c ms) = ms;
  version_Write c ms : LastCommitID (cms_Write c ms) = LastCommitID c;
  at_Write c ms v : CacheMultiStoreWithVersion (cms_Write c ms) v = CacheMultiStoreWithVersion c v;
  content_Commit c : cms_content (cms_Commit c).2 = cms_content c;
  version_Commit c : LastCommitID (cms_Commit c).2 = (fst (LastCommitID c) + 1, (cms_Commit c).1);
  load_Commit c : LoadLatestVersion (cms_Commit c).2 = inr (cms_Commit c).2;
  at_Commit c : CacheMultiStoreWithVersion (cms_Commit c).2 (fst (LastCommitID c) + 1) = inr (cms_content c);
}.

(** Every version in a list. *)
Record Versions := MkVersions { vs_current : MultiStore; vs_committed : list MultiStore }.
#[global] Instance versions_cms : CommitMultiStore Versions := {|
  cms_content := vs_current;
  cms_Write c ms := MkVersions ms (vs_committed c);
  cms_Commit c := ("hash", MkVersions (vs_current c) (vs_committed c ++ [vs_current c]));
  LastCommitID c := (Z.of_nat (length (vs_committed c)), if (0 <? length (vs_committed c))%nat then "hash" else "");
  CacheMultiStoreWithVersion c v :=
    if 1 <=? v then match vs_committed c !! Z.to_nat (v - 1) with Some ms => inr ms | None => inl ErrUnknownRequest end
    else inl ErrUnknownRequest;
  LoadLatestVersion c := match last (vs_committed c) with Some ms => inr (MkVersions ms (vs_committed c)) | None => inr c end;
  LoadVersion c v := match vs_committed c !! Z.to_nat (v - 1) with
                     | Some ms => inr (MkVersions ms (take (Z.to_nat v) (vs_committed c))) | None => inl ErrUnknownRequest end;
  cms_Query _ r := MkResponseQuery None "" (req_Height r) "";
|}.
#[global] Instance versions_laws : CommitMultiStoreLaws Versions.
Proof.
  split; simpl; try done.
  - intros c. rewrite length_app. simpl. rw (proj2 (Nat.ltb_lt 0 _)); [|lia]. f_equal. lia.
  - intros c. by rewrite last_snoc.
  - intros c. rw (proj2 (Z.leb_le _ _)); [|lia]. rewrite lookup_app_r; [|lia]. 
    replace (Z.to_nat _ - _)%nat with 0%nat by lia. done.
Qed.
End stores.
