(* ===== verification/BaseApp.v ===== *)
(** * The application ([src/app/baseapp.go], [abci.go], [helpers.go])

    The state machine behind the consensus engine: blocks are begun, filled with
    transactions, ended and committed on one copy of the stores, the mempool checks
    transactions on another, queries read committed versions.  The handlers of the modules
    are functions of the context; what a handler does to the things its context points to
    (the stores and the gas meters) is the context it gives back. *)
From S2P Require Import Prelude Bytes Sdk Strconv DnTypes Perms Chain VmEvents Abci.
Local Open Scope string_scope.
Local Open Scope Z_scope.
Local Open Scope list_scope.

(** ** Defaults and restrictions of the node ([src/cmd/config]) *)
Module restrictions.
Definition MainDenom := "xfi".
Definition LiquidityProviderDenom := "lpt".

(** What the restrictions look at: the bank's transfers by their amounts, other messages
    not at all. *)
Inductive MsgView := MsgSend (amount : list Coin) | MsgOther.

Definition CustomMsgVerifiers (msg : MsgView) : option error :=
  match msg with
  | MsgSend amount =>
      if existsb (λ coin, bool_decide (coin_Denom coin = LiquidityProviderDenom)) amount then Some ErrInvalidRequest else None
  | MsgOther => None
  end.
Definition MsgDeniedList : gmap string (list string) := {[ "currencies" := ["withdraw_currency"] ]}.
End restrictions.

Module baseapp.

Definition mainConsensusParamsKey := "consensus_params".

Inductive runTxMode := runTxModeCheck | runTxModeReCheck | runTxModeSimulate | runTxModeDeliver.
#[export] Instance runTxMode_eq_dec : EqDecision runTxMode.
Proof. solve_decision. Defined.

Inductive CheckTxType := CheckTxType_New | CheckTxType_Recheck | CheckTxType_Other.

Definition splitPath (requestPath : string) : list string :=
  match Split "/" requestPath with
  | "" :: path => path
  | path => path
  end.

(** [abci.Header{}]: the zero of Go's time is the first of January of the year one. *)
Definition EmptyHeader : Header := MkHeader "" 0 (-62135596800 * 10 ^ 9).

(** [int64] of an unsigned number. *)
Definition to_int64 (z : Z) : Z := let w := z mod 2 ^ 64 in if w <? 2 ^ 63 then w else w - 2 ^ 64.

Section app.
Context `{KV : KVStore} `{LG : Ledger} {G : Type} `{TG : !TxGas G} {C : Type} `{CM : !CommitMultiStore C}.
(** Transactions, messages, votes and prices are the SDK's and the engine's. *)
Context {Tx Msg VoteInfo DecCoins ValidatorUpdate : Type} `{EV : EqDecision ValidatorUpdate} `{GS : GoSort}.
Context `{CP : !Codec ConsensusParams} `{CS : !Codec (GasInfo * TxResult)}.

(** ** Contexts *)
Record Context := MkContext {
  cx_Ctx : Ctx;
  cx_ChainID : string;
  cx_GasMeter : G;
  cx_BlockGasMeter : option G;
  cx_TxBytes : string;
  cx_VoteInfos : list VoteInfo;
  cx_ConsensusParams : option ConsensusParams;
  cx_IsCheckTx : bool;
  cx_IsReCheckTx : bool;
  cx_MinGasPrices : option DecCoins;
}.

Definition NewContext (ms : MultiStore) (header : Header) (isCheckTx : bool) : Context :=
  MkContext (MkCtx (ms_stores ms) (ms_bank ms) [] (hd_Height header) (hd_Time header)) (hd_ChainID header)
    NewInfiniteGasMeter None "" [] None isCheckTx false None.

Definition cx_MultiStore (cx : Context) : MultiStore := MkMultiStore (ctx_stores (cx_Ctx cx)) (ctx_bank (cx_Ctx cx)).
Definition cx_BlockHeader (cx : Context) : Header := MkHeader (cx_ChainID cx) (ctx_height (cx_Ctx cx)) (ctx_time (cx_Ctx cx)).

Definition WithCtx (cx : Context) (c : Ctx) : Context :=
  MkContext c (cx_ChainID cx) (cx_GasMeter cx) (cx_BlockGasMeter cx) (cx_TxBytes cx) (cx_VoteInfos cx)
    (cx_ConsensusParams cx) (cx_IsCheckTx cx) (cx_IsReCheckTx cx) (cx_MinGasPrices cx).
Definition WithMultiStore (cx : Context) (ms : MultiStore) : Context :=
  let c := cx_Ctx cx in WithCtx cx (MkCtx (ms_stores ms) (ms_bank ms) (ctx_events c) (ctx_height c) (ctx_time c)).
Definition WithNewEventManager (cx : Context) : Context := WithCtx cx (set_events (cx_Ctx cx) []).
Definition WithMeters (cx : Context) (gas : G) (block : option G) : Context :=
  MkContext (cx_Ctx cx) (cx_ChainID cx) gas block (cx_TxBytes cx) (cx_VoteInfos cx)
    (cx_ConsensusParams cx) (cx_IsCheckTx cx) (cx_IsReCheckTx cx) (cx_MinGasPrices cx).
Definition WithBlockGasMeter (cx : Context) (block : G) : Context := WithMeters cx (cx_GasMeter cx) (Some block).
Definition WithBlockHeader (cx : Context) (h : Header) : Context :=
  let c := cx_Ctx cx in
  MkContext (MkCtx (ctx_stores c) (ctx_bank c) (ctx_events c) (hd_Height h) (hd_Time h)) (hd_ChainID h) (cx_GasMeter cx)
    (cx_BlockGasMeter cx) (cx_TxBytes cx) (cx_VoteInfos cx) (cx_ConsensusParams cx) (cx_IsCheckTx cx) (cx_IsReCheckTx cx) (cx_MinGasPrices cx).
Definition WithMinGasPrices (cx : Context) (p : option DecCoins) : Context :=
  MkContext (cx_Ctx cx) (cx_ChainID cx) (cx_GasMeter cx) (cx_BlockGasMeter cx) (cx_TxBytes cx) (cx_VoteInfos cx)
    (cx_ConsensusParams cx) (cx_IsCheckTx cx) (cx_IsReCheckTx cx) p.
Definition WithTx (cx : Context) (txBytes : string) (votes : list VoteInfo) (params : option ConsensusParams) (recheck : bool) : Context :=
  MkContext (cx_Ctx cx) (cx_ChainID cx) (cx_GasMeter cx) (cx_BlockGasMeter cx) txBytes votes params
    (cx_IsCheckTx cx || recheck) (cx_IsReCheckTx cx || recheck) (cx_MinGasPrices cx).

(** A context shares its meters, or its meters and its stores, with the one a callee was
    given and gives back as [after]. *)
Definition meters_of (after cx : Context) : Context := WithMeters cx (cx_GasMeter after) (cx_BlockGasMeter after).
Definition block_meter_of (after cx : Context) : Context := WithMeters cx (cx_GasMeter cx) (cx_BlockGasMeter after).
Definition pointed (after cx : Context) : Context :=
  WithMultiStore (meters_of after cx) (cx_MultiStore after).

(** ** What the application is built from *)
Definition Handler : Type := Context → Msg → run (error + TxResult) * Context.
(** An ante handler returns a context of its own and an error, or panics. *)
Inductive ante_result := AnteReturns (newCtx : option Context) (err : option error) | AntePanics (p : panic_value).
Definition AnteHandler : Type := Context → Tx → bool → ante_result * Context.
Definition Querier : Type := Context → list string → RequestQuery → run (error + string).

Record RequestInitChain := MkRequestInitChain {
  ric_ConsensusParams : option ConsensusParams; ric_ChainId : string; ric_Time : Z;
  ric_Validators : list ValidatorUpdate; ric_AppStateBytes : string }.
Record RequestBeginBlock := MkRequestBeginBlock { rbb_Header : Header; rbb_Votes : list VoteInfo }.
Record ResponseBlock := MkResponseBlock { rb_Events : list Event; rb_Updates : list ValidatorUpdate }.

(** The parts set before the application is sealed. *)
Record AppConfig := MkAppConfig {
  ac_name : string;
  ac_txDecoder : string → error + Tx;
  ac_GetMsgs : Tx → list Msg;
  ac_Route : Msg → string;
  ac_Type : Msg → string;
  ac_ValidateBasic : Msg → option error;
  ac_anteHandler : option AnteHandler;
  ac_initChainer : option (Context → RequestInitChain → run (list ValidatorUpdate) * Context);
  ac_beginBlocker : option (Context → RequestBeginBlock → run ResponseBlock * Context);
  ac_endBlocker : option (Context → Z → run ResponseBlock * Context);
  ac_addrPeerFilter : option (string → ResponseQuery);
  ac_idPeerFilter : option (string → ResponseQuery);
  ac_router : Context → string → option Handler;
  ac_queryRouter : string → option Querier;
  ac_minGasPrices : option DecCoins;
  ac_haltHeight : Z;
  ac_haltTime : Z;
  ac_appVersion : string;
  ac_msgsDeniedList : gmap string (list string);
  ac_msgsCustomVerifier : Msg → option error;
  (** [abci.ValidatorUpdates] as a [sort.Interface]. *)
  ac_updates_Less : ValidatorUpdate → ValidatorUpdate → bool;
  (** [sdk.ABCIMessageLogs.String] of index, log and events. *)
  ac_logs_String : list (Z * string * list Event) → string;
}.

Record BaseApp := MkBaseApp {
  app_cms : C;
  app_baseKey : option string;
  app_checkState : option Context;
  app_deliverState : option Context;
  app_voteInfos : list VoteInfo;
  app_consensusParams : option ConsensusParams;
  app_sealed : bool;
  (** The process was signalled to stop. *)
  app_halted : bool;
}.
Definition App (A : Type) : Type := BaseApp → run A * BaseApp.

Definition set_cms (c : C) (app : BaseApp) : BaseApp :=
  MkBaseApp c (app_baseKey app) (app_checkState app) (app_deliverState app) (app_voteInfos app) (app_consensusParams app) (app_sealed app) (app_halted app).
Definition set_check (s : option Context) (app : BaseApp) : BaseApp :=
  MkBaseApp (app_cms app) (app_baseKey app) s (app_deliverState app) (app_voteInfos app) (app_consensusParams app) (app_sealed app) (app_halted app).
Definition set_deliver (s : option Context) (app : BaseApp) : BaseApp :=
  MkBaseApp (app_cms app) (app_baseKey app) (app_checkState app) s (app_voteInfos app) (app_consensusParams app) (app_sealed app) (app_halted app).
Definition set_votes (v : list VoteInfo) (app : BaseApp) : BaseApp :=
  MkBaseApp (app_cms app) (app_baseKey app) (app_checkState app) (app_deliverState app) v (app_consensusParams app) (app_sealed app) (app_halted app).
Definition setConsensusParams (p : ConsensusParams) (app : BaseApp) : BaseApp :=
  MkBaseApp (app_cms app) (app_baseKey app) (app_checkState app) (app_deliverState app) (app_voteInfos app) (Some p) (app_sealed app) (app_halted app).
Definition Seal (app : BaseApp) : BaseApp :=
  MkBaseApp (app_cms app) (app_baseKey app) (app_checkState app) (app_deliverState app) (app_voteInfos app) (app_consensusParams app) true (app_halted app).
Definition halt (app : BaseApp) : BaseApp :=
  MkBaseApp (app_cms app) (app_baseKey app) (app_checkState app) (app_deliverState app) (app_voteInfos app) (app_consensusParams app) (app_sealed app) true.
Definition with_baseKey (k : string) (app : BaseApp) : BaseApp :=
  MkBaseApp (app_cms app) (Some k) (app_checkState app) (app_deliverState app) (app_voteInfos app) (app_consensusParams app) (app_sealed app) (app_halted app).

(** [NewBaseApp] on the multistore [c]. *)
Definition NewBaseApp (c : C) : BaseApp := MkBaseApp c None None None [] None false false.

Variable cfg : AppConfig.

Definition setCheckState (header : Header) (app : BaseApp) : BaseApp :=
  set_check (Some (WithMinGasPrices (NewContext (cms_content (app_cms app)) header true) (ac_minGasPrices cfg))) app.
Definition setDeliverState (header : Header) (app : BaseApp) : BaseApp :=
  set_deliver (Some (NewContext (cms_content (app_cms app)) header false)) app.
Definition GetDSContext (app : BaseApp) : Context := NewContext (cms_content (app_cms app)) EmptyHeader true.

(** A write past the caches, to the store of the multistore itself. *)
Definition storeConsensusParams (p : ConsensusParams) (app : BaseApp) : BaseApp :=
  let ms := cms_content (app_cms app) in
  let key := default "" (app_baseKey app) in
  set_cms (cms_Write (app_cms app)
    (MkMultiStore (λ k, if decide (k = key) then store_Set (ms_stores ms k) mainConsensusParamsKey (Marshal Bare p) else ms_stores ms k)
       (ms_bank ms))) app.

Definition LastBlockHeight (app : BaseApp) : Z := fst (LastCommitID (app_cms app)).

(** Zero is no limit. *)
Definition getMaximumBlockGas (app : BaseApp) : run Z :=
  match app_consensusParams app with
  | Some (MkConsensusParams (Some maxGas)) =>
      if maxGas <? -1 then Panics PanicOther else if maxGas =? -1 then Returns 0 else Returns maxGas
  | _ => Returns 0
  end.

Definition initFromMainStore (baseKey : string) : App (option error) := λ app,
  match app_baseKey app with
  | Some _ => (Panics PanicOther, app)
  | None =>
      let app := with_baseKey baseKey app in
      let finish app := (Returns None, Seal (setCheckState EmptyHeader app)) in
      match store_Get (ms_stores (cms_content (app_cms app)) baseKey) mainConsensusParamsKey with
      | None => finish app
      | Some bz => match Unmarshal Bare bz with
                   | Some p => finish (setConsensusParams p app)
                   | None => (Panics (PanicError (Plain "proto")), app)
                   end
      end
  end.
Definition load (o : error + C) (baseKey : string) : App (option error) := λ app,
  match o with
  | inl e => (Returns (Some e), app)
  | inr c => initFromMainStore baseKey (set_cms c app)
  end.
Definition app_LoadLatestVersion (baseKey : string) : App (option error) := λ app, load (LoadLatestVersion (app_cms app)) baseKey app.
Definition app_LoadVersion (version : Z) (baseKey : string) : App (option error) := λ app, load (LoadVersion (app_cms app) version) baseKey app.

Definition validateHeight (app : BaseApp) (req : RequestBeginBlock) : option error :=
  let h := hd_Height (rbb_Header req) in
  if h <? 1 then Some (Plain "invalid height")
  else if decide (h = LastBlockHeight app + 1) then None else Some (Plain "invalid height").

Fixpoint first_error {A} (f : A → option error) (l : list A) : option error :=
  match l with
  | [] => None
  | x :: l' => match f x with Some e => Some e | None => first_error f l' end
  end.
Definition validateBasicTxMsgs (msgs : list Msg) : option error :=
  match msgs with
  | [] => Some ErrInvalidRequest
  | _ => first_error (ac_ValidateBasic cfg) msgs
  end.

(** ** Running a transaction *)
Definition getState (mode : runTxMode) (app : BaseApp) : option Context :=
  match mode with runTxModeDeliver => app_deliverState app | _ => app_checkState app end.
Definition setState (mode : runTxMode) (s : Context) (app : BaseApp) : BaseApp :=
  match mode with runTxModeDeliver => set_deliver (Some s) app | _ => set_check (Some s) app end.

Definition getContextForTx (mode : runTxMode) (txBytes : string) (app : BaseApp) (st : Context) : Context :=
  WithTx st txBytes (app_voteInfos app) (app_consensusParams app) (bool_decide (mode = runTxModeReCheck)).

(** The local variables of [runTx]: the context, the context of the state it was made
    from (they point to the same stores, and to the same gas meter until the ante handler
    returns a context of its own, which is taken to have a meter of its own) and the
    gas wanted. *)
Record vars := MkVars { v_ctx : Context; v_own : Context; v_fresh : bool; v_wanted : Z }.

Definition set_meters (after : Context) (v : vars) : vars :=
  MkVars (meters_of after (v_ctx v)) (if v_fresh v then block_meter_of after (v_own v) else meters_of after (v_own v)) (v_fresh v) (v_wanted v).
(** A cache's [Write] to the stores of the state. *)
Definition write_ms (ms : MultiStore) (v : vars) : vars :=
  MkVars (WithMultiStore (v_ctx v) ms) (WithMultiStore (v_own v) ms) (v_fresh v) (v_wanted v).
Definition take_context (newCtx : option Context) (v : vars) : vars :=
  match newCtx with
  | Some cx =>
      let cx := WithMultiStore cx (cx_MultiStore (v_own v)) in
      MkVars cx (v_own v) true (GasLimit (cx_GasMeter cx))
  | None => MkVars (v_ctx v) (v_own v) (v_fresh v) (GasLimit (cx_GasMeter (v_ctx v)))
  end.

Definition run_ante (mode : runTxMode) (tx : Tx) (v : vars) : run (option error) * vars :=
  match ac_anteHandler cfg with
  | None => (Returns None, v)
  | Some anteHandler =>
      let (r, after) := anteHandler (WithNewEventManager (v_ctx v)) tx (bool_decide (mode = runTxModeSimulate)) in
      let v := set_meters after v in
      match r with
      | AntePanics p => (Panics p, v)
      | AnteReturns newCtx err =>
          let v := take_context newCtx v in
          match err with
          | Some e => (Returns (Some e), v)
          | None => (Returns None, write_ms (cx_MultiStore after) v)
          end
      end
  end.

Definition denied (route typ : string) : bool :=
  match ac_msgsDeniedList cfg !! route with Some types => bool_decide (typ ∈ types) | None => false end.

Fixpoint run_messages (mode : runTxMode) (i : Z) (msgs : list Msg) (ctx : Context) (data : string)
    (msgLogs : list (Z * string * list Event)) (events : list Event) : run (error + TxResult) * Context :=
  let result := (Returns (inr (MkTxResult data (TrimSpace (ac_logs_String cfg msgLogs)) events)), ctx) in
  match msgs with
  | [] => result
  | msg :: msgs' =>
      match ac_msgsCustomVerifier cfg msg with
      | Some e => (Returns (inl e), ctx)
      | None =>
          if bool_decide (mode = runTxModeCheck ∨ mode = runTxModeReCheck) then result
          else if denied (ac_Route cfg msg) (ac_Type cfg msg) then (Returns (inl ErrUnknownRequest), ctx)
          else
            match ac_router cfg ctx (ac_Route cfg msg) with
            | None => (Returns (inl ErrUnknownRequest), ctx)
            | Some handler =>
                let (r, after) := handler ctx msg in
                let ctx := pointed after ctx in
                match r with
                | Panics p => (Panics p, ctx)
                | Returns (inl e) => (Returns (inl e), ctx)
                | Returns (inr msgResult) =>
                    let msgEvents := MkEvent "message" [("action", ac_Type cfg msg)] :: txr_Events msgResult in
                    run_messages mode (i + 1) msgs' ctx (data +:+ txr_Data msgResult)
                      (msgLogs ++ [(i mod 2 ^ 16, txr_Log msgResult, msgEvents)]) (events ++ msgEvents)
                end
            end
      end
  end.
Definition runMsgs (ctx : Context) (msgs : list Msg) (mode : runTxMode) : run (error + TxResult) * Context :=
  run_messages mode 0 msgs ctx "" [] [].

(** The body of [runTx], up to its deferred calls. *)
Definition run_body (mode : runTxMode) (tx : Tx) (v : vars) : run (error + TxResult) * vars :=
  let msgs := ac_GetMsgs cfg tx in
  match validateBasicTxMsgs msgs with
  | Some e => (Returns (inl e), v)
  | None =>
      let (r, v) := run_ante mode tx v in
      match r with
      | Panics p => (Panics p, v)
      | Returns (Some e) => (Returns (inl e), v)
      | Returns None =>
          let (r, after) := runMsgs (v_ctx v) msgs mode in
          let v := set_meters after v in
          match r with
          | Returns (inr result) =>
              (Returns (inr result), if decide (mode = runTxModeDeliver) then write_ms (cx_MultiStore after) v else v)
          | _ => (r, v)
          end
      end
  end.

(** The deferred call that charges the block; a panic of its own replaces the one under way. *)
Definition charge_block (mode : runTxMode) (startingGas : Z) (r : run (error + TxResult)) (v : vars) : run (error + TxResult) * vars :=
  if decide (mode = runTxModeDeliver) then
    match cx_BlockGasMeter (v_ctx v) with
    | None => (Panics PanicOther, v)
    | Some block =>
        let (p, block) := ConsumeGas block (GasConsumedToLimit (cx_GasMeter (v_ctx v))) in
        let v := MkVars (WithBlockGasMeter (v_ctx v) block) (WithBlockGasMeter (v_own v) block) (v_fresh v) (v_wanted v) in
        match p with
        | Some p => (Panics p, v)
        | None => if GasConsumed block <? startingGas then (Panics ErrorGasOverflow, v) else (r, v)
        end
    end
  else (r, v).

(** The deferred call that recovers; the crash of the VM is passed on. *)
Definition recover_panic (r : run (error + TxResult)) : run (error + TxResult) :=
  match r with
  | Returns x => Returns x
  | Panics ErrorOutOfGas => Returns (inl ErrOutOfGas)
  | Panics (PanicError e) => if decide (e = vm_types.ErrVMCrashed) then Panics (PanicError e) else Returns (inl ErrPanic)
  | Panics _ => Returns (inl ErrPanic)
  end.

Definition runTx (mode : runTxMode) (txBytes : string) (tx : Tx) : App (GasInfo * (error + TxResult)) := λ app,
  match getState mode app with
  | None => (Panics PanicOther, app)
  | Some st =>
      let own := match mode with runTxModeSimulate => WithNewEventManager st | _ => st end in
      let v := MkVars (getContextForTx mode txBytes app own) own false 0 in
      let go startingGas :=
        let (r, v) := run_body mode tx v in
        let (r, v) := charge_block mode startingGas r v in
        let gInfo := MkGasInfo (v_wanted v) (GasConsumed (cx_GasMeter (v_ctx v))) in
        let app := setState mode (match mode with runTxModeSimulate => meters_of (v_own v) st | _ => v_own v end) app in
        match recover_panic r with
        | Panics p => (Panics p, app)
        | Returns x => (Returns (gInfo, x), app)
        end in
      if decide (mode = runTxModeDeliver) then
        match cx_BlockGasMeter st with
        | None => (Panics PanicOther, app)
        | Some block =>
            if IsOutOfGas block then (Returns (MkGasInfo 0 (GasConsumed block), inl ErrOutOfGas), app)
            else go (GasConsumed block)
        end
      else go 0
  end.

Definition Check (tx : Tx) : App (GasInfo * (error + TxResult)) := runTx runTxModeCheck "" tx.
Definition Deliver (tx : Tx) : App (GasInfo * (error + TxResult)) := runTx runTxModeDeliver "" tx.
Definition Simulate (txBytes : string) (tx : Tx) : App (GasInfo * (error + TxResult)) := runTx runTxModeSimulate txBytes tx.

(** A context on the state under way, with a header of the caller's. *)
Definition app_NewContext (isCheckTx : bool) (header : Header) (app : BaseApp) : run Context :=
  match (if isCheckTx then app_checkState app else app_deliverState app) with
  | None => Panics PanicOther
  | Some st =>
      let ctx := NewContext (cx_MultiStore st) header isCheckTx in
      Returns (if isCheckTx then WithMinGasPrices ctx (ac_minGasPrices cfg) else ctx)
  end.

(** ** The requests of the consensus engine *)
Record ResponseTx := MkResponseTx {
  rtx_Error : option error; rtx_GasWanted : Z; rtx_GasUsed : Z; rtx_Log : string; rtx_Data : string; rtx_Events : list Event }.
(** [sdkerrors.ResponseCheckTx], [ResponseDeliverTx] and the responses of a success. *)
Definition response (x : run (GasInfo * (error + TxResult))) : run ResponseTx :=
  match x with
  | Panics p => Panics p
  | Returns (g, inl e) => Returns (MkResponseTx (Some e) (to_int64 (gi_Wanted g)) (to_int64 (gi_Used g)) "" "" [])
  | Returns (g, inr r) =>
      Returns (MkResponseTx None (to_int64 (gi_Wanted g)) (to_int64 (gi_Used g)) (txr_Log r) (txr_Data r) (txr_Events r))
  end.

Definition CheckTx (txBytes : string) (typ : CheckTxType) : App ResponseTx := λ app,
  match ac_txDecoder cfg txBytes with
  | inl e => (response (Returns (MkGasInfo 0 0, inl e)), app)
  | inr tx =>
      let check mode := let (x, app) := runTx mode txBytes tx app in (response x, app) in
      match typ with
      | CheckTxType_New => check runTxModeCheck
      | CheckTxType_Recheck => check runTxModeReCheck
      | CheckTxType_Other => (Panics PanicOther, app)
      end
  end.
Definition DeliverTx (txBytes : string) : App ResponseTx := λ app,
  match ac_txDecoder cfg txBytes with
  | inl e => (response (Returns (MkGasInfo 0 0, inl e)), app)
  | inr tx => let (x, app) := runTx runTxModeDeliver txBytes tx app in (response x, app)
  end.

(** The same validators, in the same order once both are sorted. *)
Definition same_validators (asked found : list ValidatorUpdate) : bool :=
  (length asked =? length found)%nat &&
  bool_decide (sort_Sort (ac_updates_Less cfg) asked = sort_Sort (ac_updates_Less cfg) found).

Definition InitChain (req : RequestInitChain) : App (list ValidatorUpdate) := λ app,
  let app := match ric_ConsensusParams req with
             | Some p => storeConsensusParams p (setConsensusParams p app)
             | None => app
             end in
  let initHeader := MkHeader (ric_ChainId req) 0 (ric_Time req) in
  let app := setCheckState initHeader (setDeliverState initHeader app) in
  match ac_initChainer cfg, app_deliverState app with
  | Some initChainer, Some d =>
      let d := WithBlockGasMeter d NewInfiniteGasMeter in
      let (r, after) := initChainer d req in
      let app := set_deliver (Some (pointed after d)) app in
      match r with
      | Panics p => (Panics p, app)
      | Returns validators =>
          if (0 <? length (ric_Validators req))%nat then
            if same_validators (ric_Validators req) validators then (Returns (sort_Sort (ac_updates_Less cfg) validators), app)
            else (Panics PanicOther, app)
          else (Returns validators, app)
      end
  | _, _ => (Returns [], app)
  end.

Definition BeginBlock (req : RequestBeginBlock) : App ResponseBlock := λ app,
  match validateHeight app req with
  | Some e => (Panics (PanicError e), app)
  | None =>
      let d := match app_deliverState app with
               | None => NewContext (cms_content (app_cms app)) (rbb_Header req) false
               | Some d => WithBlockHeader d (rbb_Header req)
               end in
      match getMaximumBlockGas app with
      | Panics p => (Panics p, set_deliver (Some d) app)
      | Returns maxGas =>
          let d := WithBlockGasMeter d (if 0 <? maxGas then NewGasMeter maxGas else NewInfiniteGasMeter) in
          let (r, d) := match ac_beginBlocker cfg with
                        | Some beginBlocker => let (r, after) := beginBlocker d req in (r, pointed after d)
                        | None => (Returns (MkResponseBlock [] []), d)
                        end in
          let app := set_deliver (Some d) app in
          match r with
          | Panics p => (Panics p, app)
          | Returns res => (Returns res, set_votes (rbb_Votes req) app)
          end
      end
  end.

Definition EndBlock (height : Z) : App ResponseBlock := λ app,
  match app_deliverState app with
  | None => (Panics PanicOther, app)
  | Some d =>
      match ac_endBlocker cfg with
      | Some endBlocker => let (r, after) := endBlocker d height in (r, set_deliver (Some (pointed after d)) app)
      | None => (Returns (MkResponseBlock [] []), app)
      end
  end.

(** Whether the node stops after the block. *)
Definition halts (header : Header) : bool :=
  ((0 <? ac_haltHeight cfg) && (ac_haltHeight cfg <=? hd_Height header mod 2 ^ 64)) ||
  ((0 <? ac_haltTime cfg) && (to_int64 (ac_haltTime cfg) <=? hd_Time header / 10 ^ 9)).
Definition Commit : App string := λ app,
  match app_deliverState app with
  | None => (Panics PanicOther, app)
  | Some d =>
      let header := cx_BlockHeader d in
      let (hash, c) := cms_Commit (cms_Write (app_cms app) (cx_MultiStore d)) in
      let app := set_deliver None (setCheckState header (set_cms c app)) in
      (Returns hash, if halts header then halt app else app)
  end.

(** ** Queries *)
Definition FilterPeerByAddrPort (info : string) : ResponseQuery :=
  match ac_addrPeerFilter cfg with Some f => f info | None => MkResponseQuery None "" 0 "" end.
Definition FilterPeerByID (info : string) : ResponseQuery :=
  match ac_idPeerFilter cfg with Some f => f info | None => MkResponseQuery None "" 0 "" end.

Definition handleQueryApp (path : list string) (req : RequestQuery) : App ResponseQuery := λ app,
  match path with
  | _ :: what :: _ =>
      if decide (what = "simulate") then
        match ac_txDecoder cfg (req_Data req) with
        | inl e => (Returns (QueryResult e), app)
        | inr tx =>
            let (x, app) := Simulate (req_Data req) tx app in
            (match x with
             | Panics p => Panics p
             | Returns (_, inl e) => Returns (QueryResult e)
             | Returns (gInfo, inr res) => Returns (MkResponseQuery None "sdk" (req_Height req) (Marshal Bare (gInfo, res)))
             end, app)
        end
      else if decide (what = "version") then (Returns (MkResponseQuery None "sdk" (req_Height req) (ac_appVersion cfg)), app)
      else (Returns (QueryResult ErrUnknownRequest), app)
  | _ => (Returns (QueryResult ErrUnknownRequest), app)
  end.

(** The latest height when the client gives none. *)
Definition query_height (app : BaseApp) (req : RequestQuery) : Z :=
  if decide (req_Height req = 0) then LastBlockHeight app else req_Height req.
Definition at_height (req : RequestQuery) (path : string) (h : Z) : RequestQuery := MkRequestQuery path (req_Data req) h (req_Prove req).

Definition handleQueryStore (path : list string) (req : RequestQuery) (app : BaseApp) : ResponseQuery :=
  let h := query_height app req in
  if (h <=? 1) && req_Prove req then QueryResult ErrInvalidRequest
  else
    let resp := cms_Query (app_cms app) (at_height req ("/" +:+ Join "/" (tail path)) h) in
    MkResponseQuery (rsp_Error resp) (rsp_Codespace resp) h (rsp_Value resp).

Definition handleQueryP2P (path : list string) : ResponseQuery :=
  match path with
  | _ :: cmd :: typ :: arg :: _ =>
      if decide (cmd = "filter") then
        if decide (typ = "addr") then FilterPeerByAddrPort arg
        else if decide (typ = "id") then FilterPeerByID arg
        else QueryResult ErrUnknownRequest
      else QueryResult ErrUnknownRequest
  | _ => QueryResult ErrUnknownRequest
  end.

Definition handleQueryCustom (path : list string) (req : RequestQuery) (app : BaseApp) : run ResponseQuery :=
  match path with
  | _ :: route :: rest =>
      if decide (route = "") then Returns (QueryResult ErrUnknownRequest)
      else
        match ac_queryRouter cfg route with
        | None => Returns (QueryResult ErrUnknownRequest)
        | Some querier =>
            let h := query_height app req in
            if (h <=? 1) && req_Prove req then Returns (QueryResult ErrInvalidRequest)
            else
              match CacheMultiStoreWithVersion (app_cms app) h with
              | inl _ => Returns (QueryResult ErrInvalidRequest)
              | inr cacheMS =>
                  match app_checkState app with
                  | None => Panics PanicOther
                  | Some st =>
                      let ctx := WithMinGasPrices (NewContext cacheMS (cx_BlockHeader st) true) (ac_minGasPrices cfg) in
                      match querier ctx rest (at_height req (req_Path req) h) with
                      | Panics p => Panics p
                      | Returns (inl e) => Returns (MkResponseQuery (Some e) "" h "")
                      | Returns (inr resBytes) => Returns (MkResponseQuery None "" h resBytes)
                      end
                  end
              end
        end
  | _ => Returns (QueryResult ErrUnknownRequest)
  end.

(** An empty path is answered by indexing it. *)
Definition Query (req : RequestQuery) : App ResponseQuery := λ app,
  let path := splitPath (req_Path req) in
  match path with
  | [] => (Panics PanicOther, app)
  | what :: _ =>
      if decide (what = "app") then handleQueryApp path req app
      else if decide (what = "store") then (Returns (handleQueryStore path req app), app)
      else if decide (what = "p2p") then (Returns (handleQueryP2P path), app)
      else if decide (what = "custom") then (handleQueryCustom path req app, app)
      else (Returns (QueryResult ErrUnknownRequest), app)
  end.
End app.
End baseapp.
