(* ===== verification/BaseAppTheorems.v ===== *)
(** * The application: what the chain sees of it

    Two applications are the same chain when the consensus engine cannot tell them apart:
    they may differ in what the mempool checks and queries did to them.  Checks and
    queries keep an application the same chain; the requests of a block give equal
    answers, and the same chain again, on applications that are. *)
From S2P Require Import Prelude Bytes Sdk Strconv DnTypes Perms Chain VmEvents Abci BaseApp.
Local Open Scope string_scope.
Local Open Scope Z_scope.
Local Open Scope list_scope.
Import baseapp.

Section facts.
Context `{KV : KVStore} `{LG : Ledger} {G : Type} `{TG : !TxGas G} {C : Type} `{CM : !CommitMultiStore C}.
Context {Tx Msg VoteInfo DecCoins ValidatorUpdate : Type} `{EV : EqDecision ValidatorUpdate} `{GS : GoSort}.
Context `{CP : !Codec ConsensusParams} `{CS : !Codec (GasInfo * TxResult)}.
Notation Context := (Context (G := G) (VoteInfo := VoteInfo) (DecCoins := DecCoins)).
Notation BaseApp := (BaseApp (G := G) (C := C) (VoteInfo := VoteInfo) (DecCoins := DecCoins)).
Notation AppConfig := (AppConfig (G := G) (Tx := Tx) (Msg := Msg) (VoteInfo := VoteInfo) (DecCoins := DecCoins) (ValidatorUpdate := ValidatorUpdate)).
Notation vars := (vars (G := G) (VoteInfo := VoteInfo) (DecCoins := DecCoins)).
Variable cfg : AppConfig.
Implicit Types (app : BaseApp) (cx st d : Context) (v : vars) (mode : runTxMode).

(** ** The same chain *)
Record same_chain (app app' : BaseApp) : Prop := {
  sc_cms : app_cms app = app_cms app';
  sc_baseKey : app_baseKey app = app_baseKey app';
  sc_deliver : app_deliverState app = app_deliverState app';
  sc_params : app_consensusParams app = app_consensusParams app';
  (** The votes are set anew with each block. *)
  sc_votes : app_deliverState app ≠ None → app_voteInfos app = app_voteInfos app';
}.
#[export] Instance same_chain_equivalence : Equivalence same_chain.
Proof.
  split.
  - done.
  - intros a b [? ? E ? ?]. split; [done..|]. intros Hd. symmetry. rw -E in Hd. auto.
  - intros a b c [? ? E1 ? ?] [? ? E2 ? ?]. split; [congruence..|]. intros Hd. trans (app_voteInfos b); [auto|]. rw E1 in Hd. auto.
Qed.

(** Equal answers and the same chain; a panic ends the process. *)
Definition alike {A} (x y : run A * BaseApp) : Prop := x.1 = y.1 ∧ ∀ a, x.1 = Returns a → same_chain x.2 y.2.

(** *** Checking and querying *)
Lemma set_check_same s app : same_chain (set_check s app) app.
Proof. done. Qed.

(** Only the state of its mode is another after a transaction has run. *)
Lemma runTx_sets mode txBytes tx app : (runTx cfg mode txBytes tx app).2 = app ∨ ∃ s, (runTx cfg mode txBytes tx app).2 = setState mode s app.
Proof.
  unfold runTx. destruct (getState mode app) as [st|]; [|by left]. cbv zeta.
  destruct (decide (mode = runTxModeDeliver)); [destruct (cx_BlockGasMeter st) as [block|]; [|by left]; destruct (IsOutOfGas block); [by left|]|];
    right; destruct (run_body cfg mode tx _) as [r v]; destruct (charge_block mode _ r v) as [r0 v0];
    destruct (recover_panic r0); by eexists.
Qed.

Lemma runTx_check_same mode txBytes tx app : mode ≠ runTxModeDeliver → same_chain (runTx cfg mode txBytes tx app).2 app.
Proof. intros Hm. destruct (runTx_sets mode txBytes tx app) as [->|[s ->]]; [done|]. by destruct mode. Qed.

Lemma CheckTx_same txBytes typ app : same_chain (CheckTx cfg txBytes typ app).2 app.
Proof.
  unfold CheckTx. destruct (ac_txDecoder cfg txBytes) as [e|tx]; [done|].
  destruct typ; [| |done].
  - pose proof (runTx_check_same runTxModeCheck txBytes tx app) as Hs. destruct (runTx cfg _ txBytes tx app). by apply Hs.
  - pose proof (runTx_check_same runTxModeReCheck txBytes tx app) as Hs. destruct (runTx cfg _ txBytes tx app). by apply Hs.
Qed.

Lemma Query_same req app : same_chain (Query cfg req app).2 app.
Proof.
  unfold Query. destruct (splitPath (req_Path req)) as [|what path]; [done|].
  destruct (decide (what = "app")) as [->|]; [|by repeat destruct (decide _)].
  unfold handleQueryApp. destruct path as [|cmd path]; [done|].
  destruct (decide (cmd = "simulate")) as [->|]; [|by destruct (decide _)].
  destruct (ac_txDecoder cfg (req_Data req)) as [e|tx]; [done|].
  pose proof (runTx_check_same runTxModeSimulate (req_Data req) tx app) as Hs. unfold Simulate.
  destruct (runTx cfg _ (req_Data req) tx app) as [x app']. apply Hs. done.
Qed.

(** *** The requests of a block *)
Lemma same_set_deliver s app app' : same_chain app app' → (s ≠ None → app_voteInfos app = app_voteInfos app') →
  same_chain (set_deliver s app) (set_deliver s app').
Proof. intros [] Hv. by split. Qed.

Lemma runTx_deliver_alike txBytes tx app app' : same_chain app app' →
  alike (runTx cfg runTxModeDeliver txBytes tx app) (runTx cfg runTxModeDeliver txBytes tx app').
Proof.
  intros Hs. pose proof Hs as [Hc Hb Hd Hp Hv]. unfold runTx. cbn [getState]. rw -Hd. destruct (app_deliverState app) as [st|]; [|done].
  assert (app_voteInfos app = app_voteInfos app') as Ev by (by apply Hv).
  assert (getContextForTx runTxModeDeliver txBytes app st = getContextForTx runTxModeDeliver txBytes app' st) as Ectx
    by (unfold getContextForTx; by rw Ev Hp).
  cbv zeta. rw Ectx. destruct (decide (runTxModeDeliver = runTxModeDeliver)); [|done].
  destruct (cx_BlockGasMeter st) as [block|]; [|done]. destruct (IsOutOfGas block); [done|].
  destruct (run_body cfg _ tx _) as [r v]. destruct (charge_block _ _ r v) as [r0 v0].
  destruct (recover_panic r0); (split; [done|]); [|done]. intros _ _. by apply same_set_deliver.
Qed.

#[export] Instance DeliverTx_proper txBytes : Proper (same_chain ==> alike) (DeliverTx cfg txBytes).
Proof.
  intros app app' Hs. unfold DeliverTx. destruct (ac_txDecoder cfg txBytes) as [e|tx]; [by split|].
  destruct (runTx_deliver_alike txBytes tx app app' Hs) as [E Hs'].
  destruct (runTx cfg _ txBytes tx app) as [x a1], (runTx cfg _ txBytes tx app') as [x' a2]. cbn in *. subst x'. split; [done|].
  destruct x as [x|p]; [|done]. intros _ _. by apply (Hs' x).
Qed.

#[export] Instance EndBlock_proper height : Proper (same_chain ==> alike) (EndBlock cfg height).
Proof.
  intros app app' Hs. pose proof Hs as [Hc Hb Hd Hp Hv]. unfold EndBlock. rw -Hd. destruct (app_deliverState app) as [d|]; [|done].
  destruct (ac_endBlocker cfg) as [f|]; [|by split]. destruct (f d height) as [r after]. split; [done|]. intros _ _. apply same_set_deliver; auto.
Qed.

#[export] Instance BeginBlock_proper req : Proper (same_chain ==> alike) (BeginBlock cfg req).
Proof.
  intros app app' Hs. pose proof Hs as [Hc Hb Hd Hp Hv].
  assert (validateHeight app req = validateHeight app' req) as Eh by (unfold validateHeight, LastBlockHeight; by rw Hc).
  assert (getMaximumBlockGas app = getMaximumBlockGas app') as Eg by (unfold getMaximumBlockGas; by rw Hp).
  unfold BeginBlock. rw Eh Eg -Hc -Hd. destruct (validateHeight app' req); [done|]. destruct (getMaximumBlockGas app') as [maxGas|]; [|done].
  destruct (ac_beginBlocker cfg) as [f|].
  - destruct (f _ req) as [[res|p] after]; (split; [done|]); [|done]. intros _ _. split; cbn; auto.
  - split; [done|]. intros _ _. split; cbn; auto.
Qed.

#[export] Instance Commit_proper : Proper (same_chain ==> alike) (Commit cfg).
Proof.
  intros app app' Hs. pose proof Hs as [Hc Hb Hd Hp Hv]. unfold Commit. rw -Hc -Hd. destruct (app_deliverState app) as [d|]; [|done].
  destruct (cms_Commit _) as [hash c]. destruct (halts _ _); (split; [done|]); intros _ _; split; cbn; auto; done.
Qed.

(** ** Sequences of requests *)
Inductive request :=
  | ReqBeginBlock (req : RequestBeginBlock (VoteInfo := VoteInfo))
  | ReqDeliverTx (txBytes : string)
  | ReqEndBlock (height : Z)
  | ReqCommit
  | ReqCheckTx (txBytes : string) (typ : CheckTxType)
  | ReqQuery (req : RequestQuery).
Inductive answer :=
  | AnsBlock (r : ResponseBlock (ValidatorUpdate := ValidatorUpdate))
  | AnsTx (r : ResponseTx)
  | AnsCommit (hash : string)
  | AnsQuery (r : ResponseQuery).

Definition answered {A} (f : A → answer) (x : run A * BaseApp) : run answer * BaseApp :=
  (match x.1 with Returns a => Returns (f a) | Panics p => Panics p end, x.2).
Definition handle (r : request) (app : BaseApp) : run answer * BaseApp :=
  match r with
  | ReqBeginBlock req => answered AnsBlock (BeginBlock cfg req app)
  | ReqDeliverTx txBytes => answered AnsTx (DeliverTx cfg txBytes app)
  | ReqEndBlock height => answered AnsBlock (EndBlock cfg height app)
  | ReqCommit => answered AnsCommit (Commit cfg app)
  | ReqCheckTx txBytes typ => answered AnsTx (CheckTx cfg txBytes typ app)
  | ReqQuery req => answered AnsQuery (Query cfg req app)
  end.
(** The requests of the consensus engine, as opposed to the mempool's and the clients'. *)
Definition of_consensus (r : request) : bool :=
  match r with ReqCheckTx _ _ | ReqQuery _ => false | _ => true end.

(** One after the other, until one panics. *)
Fixpoint process (rs : list request) (app : BaseApp) : list (request * run answer) * BaseApp :=
  match rs with
  | [] => ([], app)
  | r :: rs' =>
      let (x, app') := handle r app in
      match x with
      | Panics p => ([(r, x)], app')
      | Returns _ => let (xs, app'') := process rs' app' in ((r, x) :: xs, app'')
      end
  end.

Lemma answered_alike {A} (f : A → answer) x y : alike x y → alike (answered f x) (answered f y).
Proof. intros [E Hs]. unfold answered. split; cbn; [by rw E|]. destruct x.1 as [a|p]; [|done]. intros _ _. by apply (Hs a). Qed.

Lemma handle_proper r : of_consensus r = true → Proper (same_chain ==> alike) (handle r).
Proof. intros Hr app app' Hs. destruct r; try done; apply answered_alike; by apply BeginBlock_proper || apply DeliverTx_proper || apply EndBlock_proper || apply Commit_proper. Qed.

Lemma handle_same r app : of_consensus r = false → same_chain (handle r app).2 app.
Proof. intros Hr. destruct r; try done; cbn; [apply CheckTx_same|apply Query_same]. Qed.
End facts.

(** ** The application: what holds of every chain

    Mempool checks, queries and restarts are invisible to the chain; a transaction is
    applied completely, up to its ante handler, or not at all; only a crash of the VM
    stops the node; queries see committed states. *)
Local Open Scope string_scope.
Local Open Scope Z_scope.
Local Open Scope list_scope.
Import baseapp.

Section theorems.
Context `{KV : KVStore} `{LG : Ledger} {G : Type} `{TG : !TxGas G} {C : Type} `{CM : !CommitMultiStore C}.
Context {Tx Msg VoteInfo DecCoins ValidatorUpdate : Type} `{EV : EqDecision ValidatorUpdate} `{GS : GoSort}.
Context `{CP : !Codec ConsensusParams} `{CS : !Codec (GasInfo * TxResult)}.
Notation Context := (Context (G := G) (VoteInfo := VoteInfo) (DecCoins := DecCoins)).
Notation BaseApp := (BaseApp (G := G) (C := C) (VoteInfo := VoteInfo) (DecCoins := DecCoins)).
Notation AppConfig := (AppConfig (G := G) (Tx := Tx) (Msg := Msg) (VoteInfo := VoteInfo) (DecCoins := DecCoins) (ValidatorUpdate := ValidatorUpdate)).
Notation vars := (vars (G := G) (VoteInfo := VoteInfo) (DecCoins := DecCoins)).
Notation request := (request (VoteInfo := VoteInfo)).
Notation answer := (answer (ValidatorUpdate := ValidatorUpdate)).
Variable cfg : AppConfig.
Implicit Types (app : BaseApp) (cx st d : Context) (v : vars) (mode : runTxMode) (rs : list request).

Notation process := (process cfg).
Notation handle := (handle cfg).

(** ** Checks and queries *)
Definition no_panic (answers : list (request * run answer)) : Prop := ∀ x p, x ∈ answers → x.2 ≠ Panics p.

Lemma filter_request (r : request) rs : filter (λ r, of_consensus r = true) (r :: rs) =
  if of_consensus r then r :: filter (λ r, of_consensus r = true) rs else filter (λ r, of_consensus r = true) rs.
Proof. rewrite filter_cons. destruct (decide (of_consensus r = true)) as [Hr|Hr]; [by rw Hr|by destruct (of_consensus r)]. Qed.
Lemma filter_answer_in (x : request * run answer) xs : of_consensus x.1 = true →
  filter (λ x, of_consensus x.1 = true) (x :: xs) = x :: filter (λ x, of_consensus x.1 = true) xs.
Proof. intros Hx. rewrite filter_cons. by destruct (decide _). Qed.
Lemma filter_answer_out (x : request * run answer) xs : of_consensus x.1 = false →
  filter (λ x, of_consensus x.1 = true) (x :: xs) = filter (λ x, of_consensus x.1 = true) xs.
Proof. intros Hx. rewrite filter_cons. destruct (decide (of_consensus x.1 = true)) as [E|]; [congruence|done]. Qed.

Lemma process_same_chain rs app app' : same_chain app app' →
  (∀ x p, x ∈ (process rs app).1 → of_consensus x.1 = false → x.2 ≠ Panics p) →
  filter (λ x, of_consensus x.1 = true) (process rs app).1 = (process (filter (λ r, of_consensus r = true) rs) app').1 ∧
  (no_panic (process rs app).1 → same_chain (process rs app).2 (process (filter (λ r, of_consensus r = true) rs) app').2).
Proof.
  revert app app'. induction rs as [|r rs IH]; intros app app' Hs Hp; [done|]. cbn [BaseAppTheorems.process] in Hp |- *.
  pose proof (filter_request r rs) as Ef. destruct (of_consensus r) eqn:Hr; rw Ef; clear Ef.
  - destruct (handle_proper cfg r Hr app app' Hs) as [E Hs']. cbn [BaseAppTheorems.process].
    destruct (handle r app) as [x app1], (handle r app') as [x' app1']. cbn in E, Hs'. subst x'.
    destruct x as [a|p].
    + specialize (IH app1 app1' (Hs' a eq_refl)). destruct (process rs app1) as [xs app2], (process _ app1') as [xs' app2'].
      cbn [fst snd] in *. rw filter_answer_in; [|done]. destruct IH as [E IH].
      { intros y q Hy. apply Hp. by right. }
      split; [by rw E|]. intros Hn. apply IH. intros y q Hy. apply Hn. by right.
    + cbn [fst snd] in *. rw filter_answer_in; [|done]. split; [done|]. intros Hn. by destruct (Hn (r, Panics p) p ltac:(left)).
  - pose proof (handle_same cfg r app Hr) as Hs'. destruct (handle r app) as [x app1]. cbn in Hs'.
    destruct x as [a|p].
    + assert (same_chain app1 app') as Hs1 by (by trans app). specialize (IH app1 app' Hs1). destruct (process rs app1) as [xs app2].
      cbn [fst snd] in *. rw filter_answer_out; [|done]. destruct IH as [E IH]; [intros y q Hy; apply Hp; by right|].
      split; [done|]. intros Hn. apply IH. intros y q Hy. apply Hn. by right.
    + exfalso. by apply (Hp (r, Panics p) p ltac:(left) Hr).
Qed.

(** C30: mempool checks and queries are invisible to the chain: whatever the interleaving,
    the requests of the consensus engine get the answers they get without them, and the
    application ends as the same chain. *)
Theorem mempool_is_invisible rs app :
  (∀ x p, x ∈ (process rs app).1 → of_consensus x.1 = false → x.2 ≠ Panics p) →
  filter (λ x, of_consensus x.1 = true) (process rs app).1 = (process (filter (λ r, of_consensus r = true) rs) app).1 ∧
  (no_panic (process rs app).1 → same_chain (process rs app).2 (process (filter (λ r, of_consensus r = true) rs) app).2).
Proof. by apply process_same_chain. Qed.

(** ** Restarts *)

(** The main store holds the consensus parameters the application remembers. *)
Definition params_stored app (key : string) : Prop :=
  store_Get (ms_stores (cms_content (app_cms app)) key) mainConsensusParamsKey = Marshal Bare <$> app_consensusParams app.

(** C31: a node that is restarted after a block goes on exactly as one that is not: loading
    the latest version succeeds, and every later request of the consensus engine is
    answered alike. *)
Theorem restart_is_invisible `{!CommitMultiStoreLaws C} app app1 hash key rs :
  Commit cfg app = (Returns hash, app1) → app_baseKey app1 = Some key → params_stored app1 key → Forall (λ r, of_consensus r = true) rs →
  ∃ app2, app_LoadLatestVersion cfg key (NewBaseApp (app_cms app1)) = (Returns None, app2) ∧
    (process rs app2).1 = (process rs app1).1 ∧
    (no_panic (process rs app1).1 → same_chain (process rs app2).2 (process rs app1).2).
Proof.
  intros Hrun Hkey Hparams Hrs.
  assert (∃ app2, app_LoadLatestVersion cfg key (NewBaseApp (app_cms app1)) = (Returns None, app2) ∧ same_chain app2 app1) as (app2 & Hload & Hs).
  { unfold Commit in Hrun. destruct (app_deliverState app) as [d|]; [|done]. destruct (cms_Commit _) as [h c] eqn:Ec.
    assert (app_cms app1 = c ∧ app_deliverState app1 = None) as [Ecms Edel] by (destruct (halts _ _); by injection Hrun as _ <-).
    assert (LoadLatestVersion c = inr c) as El by (pose proof (load_Commit (cms_Write (app_cms app) (cx_MultiStore d))) as Hl; by rw Ec in Hl).
    unfold app_LoadLatestVersion, load, NewBaseApp. cbn [app_cms]. rw Ecms El. unfold initFromMainStore. cbn [app_baseKey set_cms app_cms with_baseKey].
    unfold params_stored in Hparams. rw Ecms in Hparams. rw Hparams. destruct (app_consensusParams app1) as [p|] eqn:Ep.
    - cbn [fmap option_fmap option_map]. rw Unmarshal_Marshal. eexists. split; [done|]. by split; cbn; rw ?Ep ?Edel.
    - eexists. split; [done|]. by split; cbn; rw ?Ep ?Edel. }
  exists app2. split; [done|].
  assert (filter (λ r : request, of_consensus r = true) rs = rs) as Ef.
  { clear -Hrs. induction Hrs as [|r rs Hr _ IH]; [done|]. rw filter_request Hr. by rw IH. }
  assert (∀ rs app, Forall (λ r, of_consensus r = true) rs → ∀ x, x ∈ (process rs app).1 → of_consensus x.1 = true) as Hof.
  { clear. induction rs as [|r rs IH]; intros app Hrs x Hx; cbn [BaseAppTheorems.process] in Hx; [by apply elem_of_nil in Hx|].
    apply Forall_cons in Hrs as [Hr Hrs]. destruct (handle r app) as [[a|p] app1].
    - specialize (IH app1 Hrs). destruct (process rs app1). cbn in Hx. apply elem_of_cons in Hx as [->|Hx]; [done|]. by apply IH.
    - by apply list_elem_of_singleton in Hx as ->. }
  assert (∀ app, filter (λ x : request * run answer, of_consensus x.1 = true) (process rs app).1 = (process rs app).1) as Efx.
  { intros a. pose proof (Hof rs a Hrs) as Ha. revert Ha. generalize ((process rs a).1). clear.
    induction l as [|x l IH]; intros Ha; [done|]. rw filter_answer_in; [|apply Ha; left]. rw IH; [done|]. intros y Hy. apply Ha. by right. }
  assert (∀ a x p, x ∈ (process rs a).1 → of_consensus x.1 = false → x.2 ≠ Panics p) as Hnp.
  { intros a x p Hx Hc. pose proof (Hof rs a Hrs x Hx). congruence. }
  destruct (process_same_chain rs app2 app1 Hs (Hnp app2)) as [E1 E2]. rw Efx Ef in E1. rw Ef in E2. split; [done|].
  intros Hn. apply E2. by rw E1.
Qed.

(** ** One transaction *)
Lemma ms_WithMultiStore cx ms : cx_MultiStore (WithMultiStore cx ms) = ms.
Proof. by destruct ms. Qed.

(** The ante handler accepts the transaction on the stores [ms] and makes them [ms1]. *)
Definition ante_accepts (tx : Tx) (simulate : bool) (ms ms1 : MultiStore) : Prop :=
  match ac_anteHandler cfg with
  | None => ms1 = ms
  | Some anteHandler => ∃ cx newCtx after, cx_MultiStore cx = ms ∧ anteHandler cx tx simulate = (AnteReturns newCtx None, after) ∧ ms1 = cx_MultiStore after
  end.
Notation simulated mode := (bool_decide (mode = runTxModeSimulate)).

(** The state's context and the transaction's point to the same stores, [ms]. *)
Record on_stores (ms : MultiStore) (header : Header) v : Prop := {
  os_ctx : cx_MultiStore (v_ctx v) = ms;
  os_own : cx_MultiStore (v_own v) = ms;
  os_header : cx_BlockHeader (v_own v) = header;
}.
Lemma on_stores_meters ms h after v : on_stores ms h v → on_stores ms h (set_meters after v).
Proof. intros [? ? ?]. by split; unfold set_meters; simpl; [|destruct (v_fresh v)..]. Qed.
Lemma on_stores_take ms h newCtx v : on_stores ms h v → on_stores ms h (take_context newCtx v).
Proof. intros [? Ho ?]. destruct newCtx as [cx|]; [|done]. split; [|done..]. unfold take_context. cbn [v_ctx]. by rw ms_WithMultiStore. Qed.
Lemma on_stores_write ms ms' h v : on_stores ms h v → on_stores ms' h (write_ms ms' v).
Proof. intros [? ? ?]. split; [apply ms_WithMultiStore..|done]. Qed.

Lemma run_ante_stores mode tx v r v1 ms h : on_stores ms h v → run_ante cfg mode tx v = (r, v1) →
  match r with
  | Returns None => ∃ ms1, ante_accepts tx (simulated mode) ms ms1 ∧ on_stores ms1 h v1
  | _ => on_stores ms h v1
  end.
Proof.
  intros Hv. unfold run_ante, ante_accepts. destruct (ac_anteHandler cfg) as [ah|]; [|intros [= <- <-]; by exists ms].
  destruct (ah _ tx (simulated mode)) as [[newCtx err|p] after] eqn:Ea; [|intros [= <- <-]; by apply on_stores_meters].
  destruct err as [e|]; intros [= <- <-].
  - by apply on_stores_take, on_stores_meters.
  - eexists. split; [|by eapply on_stores_write, on_stores_take, on_stores_meters].
    eexists _, newCtx, after. split; [|done]. apply (os_ctx _ _ _ Hv).
Qed.

Lemma set_deliver_same app st : app_deliverState app = Some st → app = set_deliver (Some st) app.
Proof. destruct app. unfold set_deliver. cbn. congruence. Qed.

(** What the body of a transaction does to the stores of its state. *)
Inductive tx_effect mode (tx : Tx) (ms : MultiStore) : run (error + TxResult) → MultiStore → Prop :=
  | tx_rejected r : (∀ res, r ≠ Returns (inr res)) → tx_effect mode tx ms r ms
  | tx_failed r ms1 : ante_accepts tx (simulated mode) ms ms1 → (∀ res, r ≠ Returns (inr res)) → tx_effect mode tx ms r ms1
  | tx_executed ms1 ctx res after : ante_accepts tx (simulated mode) ms ms1 → cx_MultiStore ctx = ms1 →
      runMsgs cfg ctx (ac_GetMsgs cfg tx) mode = (Returns (inr res), after) →
      tx_effect mode tx ms (Returns (inr res)) (if decide (mode = runTxModeDeliver) then cx_MultiStore after else ms1).

Lemma run_body_effect mode tx v r v1 ms h : on_stores ms h v → run_body cfg mode tx v = (r, v1) →
  ∃ ms1, tx_effect mode tx ms r ms1 ∧ on_stores ms1 h v1.
Proof.
  intros Hv. unfold run_body. destruct (validateBasicTxMsgs _ _) as [e|]; [intros [= <- <-]; exists ms; split; [by apply tx_rejected|done]|].
  destruct (run_ante cfg mode tx v) as [ra va] eqn:Ea. pose proof (run_ante_stores _ _ _ _ _ _ _ Hv Ea) as Ha.
  destruct ra as [[e|]|p]; [intros [= <- <-]; exists ms; split; [by apply tx_rejected|done]| |intros [= <- <-]; exists ms; split; [by apply tx_rejected|done]].
  destruct Ha as (ms1 & Hacc & Hv1). destruct (runMsgs cfg (v_ctx va) _ mode) as [rm after] eqn:Em.
  pose proof (on_stores_meters _ _ after _ Hv1) as Hv2. destruct rm as [[e|res]|p]; intros [= <- <-]; [exists ms1; split; [by apply (tx_failed _ _ _ _ ms1)|done]| |exists ms1; split; [by apply (tx_failed _ _ _ _ ms1)|done]].
  eexists. split; [by eapply tx_executed; [|apply (os_ctx _ _ _ Hv1)|]|]. destruct (decide (mode = runTxModeDeliver)); [by eapply on_stores_write|done].
Qed.

Lemma charge_block_effect mode g r v r1 v1 ms h : on_stores ms h v → charge_block mode g r v = (r1, v1) →
  on_stores ms h v1 ∧ (r1 = r ∨ (mode = runTxModeDeliver ∧ ∃ p, r1 = Panics p)).
Proof.
  intros [Hc Ho Hh]. unfold charge_block. destruct (decide (mode = runTxModeDeliver)) as [->|]; [|intros [= <- <-]; by split; [|left]].
  destruct (cx_BlockGasMeter (v_ctx v)) as [block|]; [|intros [= <- <-]; split; [done|right]; split; [done|by eexists]].
  destruct (ConsumeGas block _) as [[p|] block']; [|destruct (GasConsumed block' <? g)]; intros [= <- <-]; (split; [done|]); [right|right|by left];
    (split; [done|by eexists]).
Qed.

Lemma DeliverTx_run txBytes tx app st g r app' :
  app_deliverState app = Some st → runTx cfg runTxModeDeliver txBytes tx app = (Returns (g, r), app') →
  ∃ st', app' = set_deliver (Some st') app ∧ cx_BlockHeader st' = cx_BlockHeader st ∧
    let ms := cx_MultiStore st in
    ((∃ e, r = inl e ∧ cx_MultiStore st' = ms) ∨
     (∃ e ms1, r = inl e ∧ ante_accepts tx false ms ms1 ∧ cx_MultiStore st' = ms1) ∨
     (∃ ms1 ctx res after, ante_accepts tx false ms ms1 ∧ cx_MultiStore ctx = ms1 ∧
        runMsgs cfg ctx (ac_GetMsgs cfg tx) runTxModeDeliver = (Returns (inr res), after) ∧ cx_MultiStore st' = cx_MultiStore after ∧
        (r = inr res ∨ r = inl ErrOutOfGas ∨ r = inl ErrPanic))).
Proof.
  intros Hst. unfold runTx. cbn [getState]. rw Hst. cbv zeta. destruct (decide (runTxModeDeliver = runTxModeDeliver)); [|done].
  destruct (cx_BlockGasMeter st) as [block|]; [|done]. destruct (IsOutOfGas block).
  { intros [= <- <- <-]. exists st. split; [by apply set_deliver_same|]. split; [done|]. left. by eexists. }
  set (v := MkVars _ st false 0). assert (on_stores (cx_MultiStore st) (cx_BlockHeader st) v) as Hv by done.
  destruct (run_body cfg runTxModeDeliver tx v) as [rb vb] eqn:Eb. destruct (run_body_effect _ _ _ _ _ _ _ Hv Eb) as (ms1 & Heff & Hvb).
  destruct (charge_block runTxModeDeliver (GasConsumed block) rb vb) as [rc vc] eqn:Ec.
  destruct (charge_block_effect _ _ _ _ _ _ _ _ Hvb Ec) as [[_ Ho Hh] Hrc]. destruct (recover_panic rc) as [x|p] eqn:Er; [|done].
  intros [= _ <- <-]. exists (v_own vc). split; [done|]. split; [done|]. cbv zeta. rw Ho.
  assert ((∃ res, rb = Returns (inr res) ∧ x = inr res) ∨ ∃ e, x = inl e) as Hx.
  { destruct x as [e0|res]; [right; by eexists|left]. destruct Hrc as [->|[_ [p ->]]].
    - destruct rb as [[e0|res']|p]; cbn in Er; [congruence|by exists res'; split; [|congruence]|]. destruct p; cbn in Er; try done. by destruct (decide _).
    - destruct p; cbn in Er; try done. by destruct (decide _). }
  destruct Heff as [rb Hne|rb ms1 Hacc Hne|ms1 ctx res after Hacc Hctx Hrun].
  - left. destruct Hx as [(res & -> & _)|[e0 ->]]; [by destruct (Hne res)|by eexists].
  - right. left. destruct Hx as [(res & -> & _)|[e0 ->]]; [by destruct (Hne res)|]. by exists e0, ms1.
  - right. right. exists ms1, ctx, res, after. split; [done|]. split; [done|]. split; [done|].
    destruct (decide (runTxModeDeliver = runTxModeDeliver)); [|done]. split; [done|].
    destruct Hrc as [->|[_ [p ->]]]; [cbn in Er; left; congruence|]. right. destruct p; cbn in Er; try (left; congruence); try (right; congruence).
    destruct (decide _); [done|right; congruence].
Qed.

(** C32: a delivered transaction leaves of the stores of the block what they were, what
    the ante handler accepted it with, or what its messages made of them, all of which
    succeeded; it is answered by an error in the first two cases.  The header of the
    block, the committed versions and the state of the mempool are not touched.  (In the
    third case too it is answered by an error when it takes the block past its gas.) *)
Theorem DeliverTx_is_atomic txBytes tx app st g r app' :
  app_deliverState app = Some st → runTx cfg runTxModeDeliver txBytes tx app = (Returns (g, r), app') →
  ∃ st', app' = set_deliver (Some st') app ∧ cx_BlockHeader st' = cx_BlockHeader st ∧
    let ms := cx_MultiStore st in
    ((∃ e, r = inl e ∧ cx_MultiStore st' = ms) ∨
     (∃ e ms1, r = inl e ∧ ante_accepts tx false ms ms1 ∧ cx_MultiStore st' = ms1) ∨
     (∃ ms1 ctx res after, ante_accepts tx false ms ms1 ∧ cx_MultiStore ctx = ms1 ∧
        runMsgs cfg ctx (ac_GetMsgs cfg tx) runTxModeDeliver = (Returns (inr res), after) ∧ cx_MultiStore st' = cx_MultiStore after ∧
        (r = inr res ∨ r = inl ErrOutOfGas ∨ r = inl ErrPanic))).
Proof. apply DeliverTx_run. Qed.

(** *** Panics *)
Lemma recover_panic_crash r p : recover_panic r = Panics p → p = PanicError vm_types.ErrVMCrashed.
Proof. destruct r as [x|[| |e0|]]; cbn; try done. destruct (decide _) as [->|]; [|done]. by intros [= <-]. Qed.

(** The errors a recovered panic is answered by. *)
Definition recovered_as (p : panic_value) : error := match p with ErrorOutOfGas => ErrOutOfGas | _ => ErrPanic end.

(** Where a transaction on the stores [ms] panics: in the ante handler, or in the handler of
    one of its messages, which checks do not run. *)
Inductive raised mode (tx : Tx) (ms : MultiStore) (p : panic_value) : Prop :=
  | raised_by_ante anteHandler cx after : ac_anteHandler cfg = Some anteHandler → cx_MultiStore cx = ms →
      anteHandler cx tx (simulated mode) = (AntePanics p, after) → raised mode tx ms p
  | raised_by_message ms1 msg cx cx' handler after : ante_accepts tx (simulated mode) ms ms1 → msg ∈ ac_GetMsgs cfg tx →
      mode = runTxModeDeliver ∨ mode = runTxModeSimulate → ac_router cfg cx' (ac_Route cfg msg) = Some handler →
      handler cx msg = (Panics p, after) → raised mode tx ms p.

(** Charging the block for the gas of a delivered transaction panics. *)
Inductive charge_panics (start : Z) v : panic_value → Prop :=
  | charge_no_meter : cx_BlockGasMeter (v_ctx v) = None → charge_panics start v PanicOther
  | charge_over_limit block q : cx_BlockGasMeter (v_ctx v) = Some block →
      (ConsumeGas block (GasConsumedToLimit (cx_GasMeter (v_ctx v)))).1 = Some q → charge_panics start v q
  | charge_overflow block block' : cx_BlockGasMeter (v_ctx v) = Some block →
      ConsumeGas block (GasConsumedToLimit (cx_GasMeter (v_ctx v))) = (None, block') → GasConsumed block' < start →
      charge_panics start v ErrorGasOverflow.

(** The panic under way once the transaction has run and the block is charged: the last one. *)
Inductive under_panic mode (start : Z) (r : run (error + TxResult)) v : panic_value → Prop :=
  | panic_of_charge q : mode = runTxModeDeliver → charge_panics start v q → under_panic mode start r v q
  | panic_of_body q : r = Panics q → (mode = runTxModeDeliver → ∀ q', ¬ charge_panics start v q') → under_panic mode start r v q.

(** The gas of the block when the transaction starts; none is counted outside blocks. *)
Inductive starts mode st : Z → Prop :=
  | starts_in_block block : mode = runTxModeDeliver → cx_BlockGasMeter st = Some block → IsOutOfGas block = false → starts mode st (GasConsumed block)
  | starts_outside : mode ≠ runTxModeDeliver → starts mode st 0.
Definition start_vars mode (txBytes : string) app st : vars :=
  let own := match mode with runTxModeSimulate => WithNewEventManager st | _ => st end in
  MkVars (getContextForTx mode txBytes app own) own false 0.

Lemma run_messages_raises mode i msgs cx data logs events p after : run_messages cfg mode i msgs cx data logs events = (Panics p, after) →
  (mode = runTxModeDeliver ∨ mode = runTxModeSimulate) ∧
  ∃ msg cx0 cx' handler after', msg ∈ msgs ∧ ac_router cfg cx' (ac_Route cfg msg) = Some handler ∧ handler cx0 msg = (Panics p, after').
Proof.
  revert i cx data logs events. induction msgs as [|msg msgs IH]; intros i cx data logs events; [done|]. cbn [run_messages].
  destruct (ac_msgsCustomVerifier cfg msg); [done|]. destruct (bool_decide _) eqn:Eb; [done|]. destruct (denied _ _ _); [done|].
  destruct (ac_router cfg cx _) as [h|] eqn:Er; [|done]. destruct (h cx msg) as [[[e|res]|q] after'] eqn:Eh; intros E; [done|..].
  - destruct (IH _ _ _ _ _ E) as (Hm & msg' & cx0 & cx' & h' & a' & Hin & Hrest). split; [done|].
    exists msg', cx0, cx', h', a'. split; [by right|done].
  - injection E as -> _. split.
    + apply bool_decide_eq_false in Eb. destruct mode; [destruct Eb; by left|destruct Eb; by right|by right|by left].
    + exists msg, cx, cx, h, after'. split; [left|done].
Qed.

Lemma run_body_raises mode tx v v1 ms h p : on_stores ms h v → run_body cfg mode tx v = (Panics p, v1) → raised mode tx ms p.
Proof.
  intros Hv. unfold run_body. destruct (validateBasicTxMsgs _ _); [done|]. destruct (run_ante cfg mode tx v) as [ra va] eqn:Ea.
  pose proof (run_ante_stores _ _ _ _ _ _ _ Hv Ea) as Ha. destruct ra as [[e|]|q]; [done|..].
  - destruct Ha as (ms1 & Hacc & Hv1). destruct (runMsgs cfg (v_ctx va) _ mode) as [[[e|res]|q] after] eqn:Em; intros E; [done|done|].
    injection E as -> _. destruct (run_messages_raises _ _ _ _ _ _ _ _ _ Em) as (Hm & msg & cx0 & cx' & h' & a' & Hin & Hr & Hh).
    by eapply raised_by_message.
  - intros [= -> _]. revert Ea. unfold run_ante. destruct (ac_anteHandler cfg) as [ah|] eqn:Eah; [|done].
    destruct (ah _ tx (simulated mode)) as [[newCtx [e|]|q] after] eqn:E; [done..|]. intros [= -> _].
    eapply raised_by_ante; [done| |exact E]. apply (os_ctx _ _ _ Hv).
Qed.

(** What stands once the block is charged. *)
Lemma charge_block_panic mode start r v : 
  (∃ q, under_panic mode start r v q ∧ (charge_block mode start r v).1 = Panics q) ∨
  ((∀ q, ¬ under_panic mode start r v q) ∧ ∃ y, r = Returns y ∧ (charge_block mode start r v).1 = Returns y).
Proof.
  assert (∀ r', r' = r → (mode = runTxModeDeliver → ∀ q', ¬ charge_panics start v q') →
    (∃ q, under_panic mode start r v q ∧ r' = Panics q) ∨ ((∀ q, ¬ under_panic mode start r v q) ∧ ∃ y, r = Returns y ∧ r' = Returns y)) as Hsame.
  { intros r' -> Hn. destruct r as [y|p]; [right|left; exists p; split; [by apply panic_of_body|done]].
    split; [|by exists y]. intros q [q' Hm Hq|q' E _]; [by apply (Hn Hm q')|done]. }
  unfold charge_block. destruct (decide (mode = runTxModeDeliver)) as [Hm|Hm]; [|by apply Hsame].
  destruct (cx_BlockGasMeter (v_ctx v)) as [block|] eqn:Eb.
  2: { left. exists PanicOther. split; [by apply panic_of_charge, charge_no_meter|done]. }
  destruct (ConsumeGas block (GasConsumedToLimit (cx_GasMeter (v_ctx v)))) as [[q|] block'] eqn:Ec.
  { left. exists q. split; [|done]. apply panic_of_charge; [done|]. eapply charge_over_limit; [done|]. by rw Ec. }
  destruct (GasConsumed block' <? start) eqn:El.
  { left. exists ErrorGasOverflow. split; [|done]. apply panic_of_charge; [done|]. eapply charge_overflow; [done..|]. by apply Z.ltb_lt. }
  apply Z.ltb_ge in El. apply Hsame; [done|]. intros _ q' [E|b q'' E Hq|b b' E Hq Hlt]; [congruence|..]; assert (b = block) as -> by congruence;
    rw Ec in Hq; [done|]. injection Hq as <-. lia.
Qed.

Lemma runTx_answers mode txBytes tx app st start : getState mode app = Some st → starts mode st start →
  let v := start_vars mode txBytes app st in
  ∃ r v1 st', run_body cfg mode tx v = (r, v1) ∧ (runTx cfg mode txBytes tx app).2 = setState mode st' app ∧
    (∀ q, under_panic mode start r v1 q →
      if decide (q = PanicError vm_types.ErrVMCrashed) then (runTx cfg mode txBytes tx app).1 = Panics q
      else ∃ g, (runTx cfg mode txBytes tx app).1 = Returns (g, inl (recovered_as q))) ∧
    ((∀ q, ¬ under_panic mode start r v1 q) → ∃ g y, r = Returns y ∧ (runTx cfg mode txBytes tx app).1 = Returns (g, y)) ∧
    (∀ p, r = Panics p → raised mode tx (cx_MultiStore st) p ∧
      (cx_MultiStore st' = cx_MultiStore st ∨ ante_accepts tx (simulated mode) (cx_MultiStore st) (cx_MultiStore st'))).
Proof.
  intros Hst Hstart v. destruct (run_body cfg mode tx v) as [r v1] eqn:Eb.
  set (own := match mode with runTxModeSimulate => WithNewEventManager st | _ => st end).
  assert (cx_MultiStore own = cx_MultiStore st) as Eown by (unfold own; by destruct mode).
  assert (on_stores (cx_MultiStore st) (cx_BlockHeader own) v) as Hv by (unfold v, start_vars; fold own; by split).
  destruct (run_body_effect _ _ _ _ _ _ _ Hv Eb) as (ms1 & Heff & Hv1).
  destruct (charge_block mode start r v1) as [r0 v0] eqn:Ec. destruct (charge_block_effect _ _ _ _ _ _ _ _ Hv1 Ec) as [[_ Ho _] _].
  set (st' := match mode with runTxModeSimulate => meters_of (v_own v0) st | _ => v_own v0 end).
  assert (runTx cfg mode txBytes tx app = (match recover_panic r0 with
    | Panics p => Panics p
    | Returns x => Returns (MkGasInfo (v_wanted v0) (GasConsumed (cx_GasMeter (v_ctx v0))), x) end, setState mode st' app)) as E.
  { unfold runTx. rw Hst. cbv zeta. fold own. destruct Hstart as [block -> Hbl Hout|Hm].
    - destruct (decide (runTxModeDeliver = runTxModeDeliver)); [|done]. rw Hbl Hout. unfold v, start_vars in Eb. fold own in Eb. rw Eb Ec.
      by destruct (recover_panic r0).
    - destruct (decide (mode = runTxModeDeliver)); [done|]. unfold v, start_vars in Eb. fold own in Eb. rw Eb Ec. by destruct (recover_panic r0). }
  exists r, v1, st'. split; [done|]. rw E. cbn [fst snd]. split; [done|].
  pose proof (charge_block_panic mode start r v1) as Hp. rw Ec in Hp. cbn [fst] in Hp.
  assert (∀ q q', under_panic mode start r v1 q → under_panic mode start r v1 q' → q = q') as Hdet.
  { assert (∀ q q', charge_panics start v1 q → charge_panics start v1 q' → q = q') as Hc.
    { intros q q' [E1|b1 q1 E1 H1|b1 c1 E1 H1 L1] [E2|b2 q2 E2 H2|b2 c2 E2 H2 L2]; try congruence;
        assert (b1 = b2) as -> by congruence;
        first [rw H1 in H2; by injection H2|rw H2 in H1; by injection H1|rw H1 in H2; done|rw H2 in H1; done]. }
    intros q q' [q1 M1 H1|q1 E1 H1] [q2 M2 H2|q2 E2 H2]; [by apply Hc|by destruct (H2 M1 q1)|by destruct (H1 M2 q2)|congruence]. }
  split; [|split].
  - intros q Hq. destruct Hp as [(q' & Hq' & ->)|[Hn _]]; [|by destruct (Hn q)]. pose proof (Hdet _ _ Hq Hq') as ->. clear Hdet.
    destruct q' as [| |e|]; cbn [recover_panic recovered_as];
      try (destruct (decide _) as [Eq|_]; [done|by eexists]).
    destruct (decide (e = vm_types.ErrVMCrashed)) as [->|Hne]; destruct (decide _) as [Eq|Hne']; [done|by destruct Hne'|by injection Eq|by eexists].
  - intros Hn. destruct Hp as [(q' & Hq' & _)|(_ & y & -> & ->)]; [by destruct (Hn q')|]. by eexists _, y.
  - intros p ->. split; [by eapply run_body_raises|].
    assert (cx_MultiStore st' = cx_MultiStore st ∨ cx_MultiStore st' = ms1) as [E'|E'] by
      (unfold st'; destruct mode; [by right|by right|by left|by right]); [by left|].
    inversion Heff as [r1 Hne E1 E2|r1 ms2 Hacc Hne E1 E2|]; rw E'; [by left|]. right. congruence.
Qed.

(** C33: only a crash of the VM stops the node.  A panic is one of the ante handler or of the
    handler of a message (checks run no handlers), or one of charging the block, which replaces
    the other.  The crash of the VM is passed on; every other panic is answered by an error
    (out of gas, or panic), and nothing stays of a transaction that panics but what the ante
    handler did.  Without a panic the answer is what the transaction returned.  A block
    that has no gas left runs nothing. *)
Theorem only_vm_crash_stops mode txBytes tx app st :
  getState mode app = Some st → (mode = runTxModeDeliver → cx_BlockGasMeter st ≠ None) →
  let answer := (runTx cfg mode txBytes tx app).1 in
  (∀ p, answer = Panics p → p = PanicError vm_types.ErrVMCrashed) ∧
  ((∀ start, ¬ starts mode st start) → ∃ g, runTx cfg mode txBytes tx app = (Returns (g, inl ErrOutOfGas), app)) ∧
  ∀ start, starts mode st start → ∃ r v1 st',
    run_body cfg mode tx (start_vars mode txBytes app st) = (r, v1) ∧ (runTx cfg mode txBytes tx app).2 = setState mode st' app ∧
    (∀ q, under_panic mode start r v1 q →
      if decide (q = PanicError vm_types.ErrVMCrashed) then answer = Panics q else ∃ g, answer = Returns (g, inl (recovered_as q))) ∧
    ((∀ q, ¬ under_panic mode start r v1 q) → ∃ g y, r = Returns y ∧ answer = Returns (g, y)) ∧
    (∀ p, r = Panics p → raised mode tx (cx_MultiStore st) p ∧
      (cx_MultiStore st' = cx_MultiStore st ∨ ante_accepts tx (simulated mode) (cx_MultiStore st) (cx_MultiStore st'))).
Proof.
  intros Hst Hgas answer.
  assert ((∃ start, starts mode st start) ∨ ∃ g, (∀ start, ¬ starts mode st start) ∧ runTx cfg mode txBytes tx app = (Returns (g, inl ErrOutOfGas), app)) as [[start Hstart]|(g & Hno & E)].
  { destruct (decide (mode = runTxModeDeliver)) as [Hm|Hm]; [|left; eexists; by apply starts_outside]. subst mode.
    destruct (cx_BlockGasMeter st) as [block|] eqn:Eb; [|by destruct (Hgas eq_refl)].
    destruct (IsOutOfGas block) eqn:Eo; [right|left; eexists; by eapply starts_in_block].
    eexists. split; [|unfold runTx; rw Hst; cbv zeta; destruct (decide (runTxModeDeliver = runTxModeDeliver)); [|done]; by rw Eb Eo].
    intros start [b _ E1 E2|]; [congruence|done]. }
  - pose proof (runTx_answers mode txBytes tx app st start Hst Hstart) as (r & v1 & st' & Eb & Est & Hpan & Hret & Hraised).
    split; [|split].
    + intros p Hp. unfold answer in Hp. pose proof (charge_block_panic mode start r v1) as [(q & Hq & _)|[Hn _]].
      * specialize (Hpan q Hq). destruct (decide _) as [->|_]; [rw Hpan in Hp; by injection Hp|]. destruct Hpan as [g E]. by rw E in Hp.
      * destruct (Hret Hn) as (g & y & _ & E). by rw E in Hp.
    + intros Hno. by destruct (Hno start).
    + intros start' Hstart'. by apply runTx_answers.
  - split; [|split].
    + intros p Hp. unfold answer in Hp. by rw E in Hp.
    + intros _. by exists g.
    + intros start Hstart. by destruct (Hno start).
Qed.

(** C34: a transaction that takes the block past its gas limit is answered by an error
    although everything its messages did stays in the stores of the block. *)
Theorem over_block_gas_still_applied `{TL : !TxGasLaws G} txBytes tx app st v1 res block start :
  app_deliverState app = Some st → cx_BlockGasMeter st = Some start → IsOutOfGas start = false →
  run_body cfg runTxModeDeliver tx (MkVars (getContextForTx runTxModeDeliver txBytes app st) st false 0) = (Returns (inr res), v1) →
  cx_BlockGasMeter (v_ctx v1) = Some block → limited block = true →
  let used := GasConsumedToLimit (cx_GasMeter (v_ctx v1)) in
  0 ≤ used → 0 ≤ GasConsumed block → GasConsumed block + used < 2 ^ 64 → GasLimit block < GasConsumed block + used →
  ∃ g st' ms1 ctx after, runTx cfg runTxModeDeliver txBytes tx app = (Returns (g, inl ErrOutOfGas), set_deliver (Some st') app) ∧
    ante_accepts tx false (cx_MultiStore st) ms1 ∧ cx_MultiStore ctx = ms1 ∧
    runMsgs cfg ctx (ac_GetMsgs cfg tx) runTxModeDeliver = (Returns (inr res), after) ∧ cx_MultiStore st' = cx_MultiStore after.
Proof.
  intros Hst Hstart Hout Hbody Hblock Hlim used Hu Hg Hfit Hover. pose proof (ConsumeGas_ok block used Hu Hg Hfit) as (_ & _ & _ & Hp).
  rw Hlim (proj2 (Z.ltb_lt _ _) Hover) in Hp. cbn [andb] in Hp.
  set (v := MkVars _ st false 0) in Hbody. assert (on_stores (cx_MultiStore st) (cx_BlockHeader st) v) as Hv by done.
  destruct (run_body_effect _ _ _ _ _ _ _ Hv Hbody) as (ms1 & Heff & [_ Ho _]).
  unfold runTx. cbn [getState]. rw Hst. cbv zeta. fold v. rw Hstart Hout Hbody. destruct (decide (runTxModeDeliver = runTxModeDeliver)); [|done].
  unfold charge_block. destruct (decide (runTxModeDeliver = runTxModeDeliver)); [|done]. rw Hblock. fold used.
  destruct (ConsumeGas block used) as [p block']. cbn [fst snd] in Hp. subst p. cbn [recover_panic v_ctx v_own v_wanted setState].
  inversion Heff as [r Hne E1 E2|r ms2 Hacc Hne E1 E2|ms2 ctx res' after Hacc Hctx Hrun E1 E2]; [by destruct (Hne res)|by destruct (Hne res)|]. subst res'.
  eexists _, _, ms2, ctx, after. split; [done|]. split; [done|]. split; [done|]. split; [done|].
  transitivity ms1; [exact Ho|]. rw -E2. by destruct (decide _).
Qed.

(** ** Committed versions *)

(** The context of the check state, or of the deliver state, keeps its header. *)
Lemma runTx_keeps_header mode txBytes tx app : (runTx cfg mode txBytes tx app).2 = app ∨
  ∃ st s, getState mode app = Some st ∧ (runTx cfg mode txBytes tx app).2 = setState mode s app ∧ cx_BlockHeader s = cx_BlockHeader st.
Proof.
  unfold runTx. destruct (getState mode app) as [st|]; [|by left]. cbv zeta.
  set (own := match mode with runTxModeSimulate => WithNewEventManager st | _ => st end).
  assert (on_stores (cx_MultiStore own) (cx_BlockHeader own) (MkVars (getContextForTx mode txBytes app own) own false 0)) as Hv by done.
  assert (cx_BlockHeader own = cx_BlockHeader st) as Eh by (unfold own; by destruct mode).
  destruct (decide (mode = runTxModeDeliver)); [destruct (cx_BlockGasMeter st) as [block|]; [|by left]; destruct (IsOutOfGas block); [by left|]|];
    right; destruct (run_body cfg mode tx _) as [r v] eqn:Eb; destruct (run_body_effect _ _ _ _ _ _ _ Hv Eb) as (ms1 & _ & Hvb);
    destruct (charge_block mode _ r v) as [r0 v0] eqn:Ec; destruct (charge_block_effect _ _ _ _ _ _ _ _ Hvb Ec) as [[_ _ Hh] _];
    exists st; (eexists; split; [done|]; split; [by destruct (recover_panic r0)|]); destruct mode; first [reflexivity|exact (eq_trans Hh Eh)].
Qed.

(** Until the next commit the committed versions and the header of the check state stay. *)
Record committed_same app app' : Prop := {
  cs_cms : app_cms app = app_cms app';
  cs_header : cx_BlockHeader <$> app_checkState app = cx_BlockHeader <$> app_checkState app';
}.
Lemma setState_committed mode s st app : getState mode app = Some st → cx_BlockHeader s = cx_BlockHeader st → committed_same (setState mode s app) app.
Proof. intros Hst Hh. by destruct mode; cbn in *; split; cbn; rw ?Hst; cbn; rw ?Hh. Qed.
Lemma runTx_committed mode txBytes tx app : committed_same (runTx cfg mode txBytes tx app).2 app.
Proof.
  destruct (runTx_keeps_header mode txBytes tx app) as [->|(st & s & Hst & -> & Hh)]; [done|by eapply setState_committed].
Qed.
Lemma handle_committed r app : r ≠ ReqCommit → committed_same (handle r app).2 app.
Proof.
  intros Hr. destruct r as [req|txBytes|h| |txBytes typ|req]; [| | |done|..]; cbn [BaseAppTheorems.handle]; unfold answered; cbn [snd].
  - unfold BeginBlock. destruct (validateHeight app req); [done|]. destruct (getMaximumBlockGas app); [|done].
    destruct (ac_beginBlocker cfg) as [f|]; [|done]. by destruct (f _ req) as [[res|p] after].
  - unfold DeliverTx. destruct (ac_txDecoder cfg txBytes) as [e|tx]; [done|].
    pose proof (runTx_committed runTxModeDeliver txBytes tx app) as Hc. by destruct (runTx cfg _ txBytes tx app).
  - unfold EndBlock. destruct (app_deliverState app); [|done]. destruct (ac_endBlocker cfg) as [f|]; [|done]. by destruct (f _ h).
  - unfold CheckTx. destruct (ac_txDecoder cfg txBytes) as [e|tx]; [done|]. destruct typ; [| |done].
    + pose proof (runTx_committed runTxModeCheck txBytes tx app) as Hc. by destruct (runTx cfg _ txBytes tx app).
    + pose proof (runTx_committed runTxModeReCheck txBytes tx app) as Hc. by destruct (runTx cfg _ txBytes tx app).
  - unfold Query. destruct (splitPath (req_Path req)) as [|what path]; [done|].
    destruct (decide (what = "app")) as [->|]; [|by repeat destruct (decide _)].
    unfold handleQueryApp. destruct path as [|cmd path]; [done|]. destruct (decide (cmd = "simulate")) as [->|]; [|by destruct (decide _)].
    destruct (ac_txDecoder cfg (req_Data req)) as [e|tx]; [done|]. unfold Simulate.
    pose proof (runTx_committed runTxModeSimulate (req_Data req) tx app) as Hc. by destruct (runTx cfg _ (req_Data req) tx app).
Qed.
Lemma process_committed rs app : Forall (λ r, r ≠ ReqCommit) rs → committed_same (process rs app).2 app.
Proof.
  revert app. induction rs as [|r rs IH]; intros app Hrs; [done|]. apply Forall_cons in Hrs as [Hr Hrs]. cbn [BaseAppTheorems.process].
  pose proof (handle_committed r app Hr) as Hc. destruct (handle r app) as [[a|p] app1]; [|done]. specialize (IH app1 Hrs).
  destruct (process rs app1). cbn in *. destruct Hc, IH. split; congruence.
Qed.

(** Within a block its header stays. *)
Definition deliver_header app : option Header := cx_BlockHeader <$> app_deliverState app.
Definition within_block (r : request) : bool := match r with ReqBeginBlock _ | ReqCommit => false | _ => true end.

Lemma runTx_deliver_header mode txBytes tx app : deliver_header (runTx cfg mode txBytes tx app).2 = deliver_header app.
Proof.
  destruct (runTx_keeps_header mode txBytes tx app) as [->|(st & s & Hst & -> & Hh)]; [done|].
  unfold deliver_header. destruct mode; cbn in *; [done..|]. by rw Hst Hh.
Qed.
Lemma handle_deliver_header r app : within_block r = true → deliver_header (handle r app).2 = deliver_header app.
Proof.
  intros Hr. destruct r as [req|txBytes|h| |txBytes typ|req]; try done.
  - cbn [BaseAppTheorems.handle]. unfold answered. cbn [snd]. unfold DeliverTx. destruct (ac_txDecoder cfg txBytes) as [e|tx]; [done|].
    pose proof (runTx_deliver_header runTxModeDeliver txBytes tx app) as Hc. by destruct (runTx cfg _ txBytes tx app).
  - cbn [BaseAppTheorems.handle]. unfold answered. cbn [snd]. unfold EndBlock, deliver_header.
    destruct (app_deliverState app) as [d|] eqn:Ed; cbn [snd]; [|by rw Ed]. destruct (ac_endBlocker cfg) as [f|]; cbn [snd]; [|by rw Ed]. by destruct (f d h).
  - pose proof (sc_deliver _ _ (handle_same cfg (ReqCheckTx txBytes typ) app eq_refl)) as E. unfold deliver_header. by rw E.
  - pose proof (sc_deliver _ _ (handle_same cfg (ReqQuery req) app eq_refl)) as E. unfold deliver_header. by rw E.
Qed.
Lemma process_deliver_header rs app : Forall (λ r, within_block r = true) rs → deliver_header (process rs app).2 = deliver_header app.
Proof.
  revert app. induction rs as [|r rs IH]; intros app Hrs; [done|]. apply Forall_cons in Hrs as [Hr Hrs]. cbn [BaseAppTheorems.process].
  pose proof (handle_deliver_header r app Hr) as Hc. destruct (handle r app) as [[a|p] app1]; [|done]. specialize (IH app1 Hrs).
  destruct (process rs app1). cbn in *. congruence.
Qed.

Lemma BeginBlock_returns req app res app1 : BeginBlock cfg req app = (Returns res, app1) →
  hd_Height (rbb_Header req) = LastBlockHeight app + 1 ∧ 1 ≤ hd_Height (rbb_Header req) ∧ deliver_header app1 = Some (rbb_Header req) ∧
  app_cms app1 = app_cms app.
Proof.
  unfold BeginBlock, validateHeight. destruct (_ <? 1) eqn:E1; [done|]. destruct (decide _) as [E2|]; [|done].
  destruct (getMaximumBlockGas app) as [maxGas|]; [|done]. intros Hrun. split; [done|]. split; [by apply Z.ltb_ge|].
  destruct (ac_beginBlocker cfg) as [f|].
  - destruct (f _ req) as [[r|p] after]; [|done]. injection Hrun as _ <-. split; [|done]. unfold deliver_header.
    destruct (app_deliverState app); by destruct (rbb_Header req).
  - injection Hrun as _ <-. split; [|done]. unfold deliver_header. destruct (app_deliverState app); by destruct (rbb_Header req).
Qed.

Lemma BeginBlock_wrong_height req app : hd_Height (rbb_Header req) ≠ LastBlockHeight app + 1 →
  ∃ e, BeginBlock cfg req app = (Panics (PanicError e), app).
Proof.
  intros Hne. unfold BeginBlock, validateHeight. destruct (_ <? 1); [by eexists|]. destruct (decide _); [done|by eexists].
Qed.

(** What a committed version [stores] answers to a custom query at height [h]. *)
Definition answer_at (querier : Querier (G := G) (VoteInfo := VoteInfo) (DecCoins := DecCoins)) (rest : list string) (req : RequestQuery) (header : Header) (h : Z) (stores : error + MultiStore) :
    run ResponseQuery :=
  if decide (h ≤ 1 ∧ req_Prove req = true) then Returns (QueryResult ErrInvalidRequest)
  else match stores with
  | inl _ => Returns (QueryResult ErrInvalidRequest)
  | inr ms =>
      match querier (WithMinGasPrices (NewContext ms header true) (ac_minGasPrices cfg)) rest (at_height req (req_Path req) h) with
      | Panics p => Panics p
      | Returns (inl e) => Returns (MkResponseQuery (Some e) "" h "")
      | Returns (inr bz) => Returns (MkResponseQuery None "" h bz)
      end
  end.

Lemma Query_custom app req route rest querier st : ac_queryRouter cfg route = Some querier → route ≠ "" →
  splitPath (req_Path req) = "custom" :: route :: rest → app_checkState app = Some st →
  let h := if decide (req_Height req = 0) then LastBlockHeight app else req_Height req in
  (Query cfg req app).1 = answer_at querier rest req (cx_BlockHeader st) h (CacheMultiStoreWithVersion (app_cms app) h).
Proof.
  intros Hq Hroute Hpath Hst h. unfold Query. rw Hpath. repeat (destruct (decide (_ = _)) as [?|]; [done|]). destruct (decide ("custom" = "custom")); [|done].
  cbn [fst]. unfold handleQueryCustom. destruct (decide (route = "")) as [|]; [done|]. rw Hq. cbv zeta. fold (query_height app req) in h.
  change (query_height app req) with h. unfold answer_at.
  destruct (decide (h ≤ 1 ∧ req_Prove req = true)) as [[Hh ->]|Hn]; [by rw (proj2 (Z.leb_le _ _) Hh)|].
  assert ((h <=? 1) && req_Prove req = false) as ->.
  { destruct (Z.leb_spec h 1); [|done]. destruct (req_Prove req); [|done]. exfalso. by apply Hn. }
  by rw Hst.
Qed.

(** C35: a block is begun at the height after the last commit, or the node stops without a
    change; it is committed under that height.  Until the next commit a custom query for that
    height, or for none, is answered from exactly the stores the block ended with, and a query
    for another height from the version of that height, or by an error when there is none;
    all of them with the header of the committed block, whatever is checked, simulated,
    delivered or begun meanwhile.  A proof is refused up to height one. *)
Theorem queries_read_last_commit `{!CommitMultiStoreLaws C} app block res app1 rs hash app2 rs' req route rest querier :
  BeginBlock cfg block app = (Returns res, app1) → Forall (λ r, within_block r = true) rs →
  Commit cfg (process rs app1).2 = (Returns hash, app2) → Forall (λ r, r ≠ ReqCommit) rs' →
  ac_queryRouter cfg route = Some querier → route ≠ "" → splitPath (req_Path req) = "custom" :: route :: rest →
  let height := hd_Height (rbb_Header block) in
  height = LastBlockHeight app + 1 ∧
  (∀ block', hd_Height (rbb_Header block') ≠ height → ∃ e, BeginBlock cfg block' app = (Panics (PanicError e), app)) ∧
  LastBlockHeight app2 = height ∧
  ∃ d, app_deliverState (process rs app1).2 = Some d ∧
    (Query cfg req (process rs' app2).2).1 =
      let h := if decide (req_Height req = 0) then height else req_Height req in
      answer_at querier rest req (rbb_Header block) h
        (if decide (h = height) then inr (cx_MultiStore d) else CacheMultiStoreWithVersion (app_cms app2) h).
Proof.
  intros Hbegin Hrs Hrun Hrs' Hq Hroute Hpath height. apply BeginBlock_returns in Hbegin as (Hh & _ & Hhd & Ecms). fold height in Hh.
  split; [done|]. split; [intros block' Hne; apply BeginBlock_wrong_height; by rw -Hh|].
  rw -(process_deliver_header rs app1 Hrs) in Hhd.
  assert (app_cms (process rs app1).2 = app_cms app) as Ecms1.
  { rw -Ecms. apply process_committed. eapply Forall_impl; [exact Hrs|]. intros r Hr ->. done. }
  set (appe := (process rs app1).2) in *. unfold deliver_header in Hhd.
  unfold Commit in Hrun. destruct (app_deliverState appe) as [d|] eqn:Hd; [|done]. cbn in Hhd. apply (inj Some) in Hhd.
  set (c0 := cms_Write (app_cms appe) (cx_MultiStore d)) in Hrun.
  pose proof (version_Commit c0) as Hver. pose proof (at_Commit c0) as Hat. unfold c0 in Hat at 2 3. rw version_Write content_Write in Hat.
  unfold c0 in Hver at 2. rw version_Write in Hver. destruct (cms_Commit c0) as [hash' c1]. cbn [fst snd] in Hver, Hat.
  assert (app_cms app2 = c1 ∧ cx_BlockHeader <$> app_checkState app2 = Some (rbb_Header block)) as [Ec Es]
    by (rw -Hhd; destruct (halts _ _); injection Hrun as _ <-; by split).
  assert (fst (LastCommitID (app_cms appe)) + 1 = height) as Eh by (rw Ecms1; unfold LastBlockHeight in Hh; lia).
  rw Eh in Hver. rw Eh in Hat. cbn [fst] in Hver.
  assert (LastBlockHeight app2 = height) as El by (unfold LastBlockHeight; by rw Ec Hver).
  split; [done|]. exists d. split; [done|]. destruct (process_committed rs' app2 Hrs') as [Ec2 Es2]. set (app3 := (process rs' app2).2) in *.
  rw Es in Es2. destruct (app_checkState app3) as [st|] eqn:Est; [|done]. cbn in Es2. apply (inj Some) in Es2.
  pose proof (Query_custom app3 req route rest querier st Hq Hroute Hpath Est) as E. cbv zeta in E |- *. rw E Es2.
  assert (LastBlockHeight app3 = height) as -> by (unfold LastBlockHeight in *; by rw Ec2). rw Ec2 Ec.
  destruct (decide (_ = height)) as [E3|]; [by rw {2}E3 Hat|done].
Qed.

(** ** Restricted messages *)
Definition restricted (msg : Msg) : Prop :=
  ac_msgsCustomVerifier cfg msg ≠ None ∨ denied cfg (ac_Route cfg msg) (ac_Type cfg msg) = true.

Lemma run_messages_restricted mode i msgs cx data logs events msg res : mode = runTxModeDeliver ∨ mode = runTxModeSimulate →
  msg ∈ msgs → restricted msg → (run_messages cfg mode i msgs cx data logs events).1 ≠ Returns (inr res).
Proof.
  intros Hm Hin Hres. revert i cx data logs events. induction msgs as [|m msgs IH]; intros i cx data logs events; [by apply elem_of_nil in Hin|].
  cbn [run_messages]. destruct (ac_msgsCustomVerifier cfg m) as [e|] eqn:Ev; [done|].
  rw bool_decide_false; [|by destruct Hm as [-> | ->]; intros [|]]. destruct (denied cfg (ac_Route cfg m) (ac_Type cfg m)) eqn:Ed; [done|].
  destruct (ac_router cfg cx _) as [h|]; [|done]. destruct (h cx m) as [[[e|r]|p] after]; [done| |done].
  apply elem_of_cons in Hin as [->|Hin]; [|by apply IH]. exfalso. destruct Hres; congruence.
Qed.

(** C36: a transaction with a message that is denied, or that the verifier refuses, is
    never executed, neither in a block nor in a simulation: it is answered by an error and
    leaves nothing but what the ante handler did. *)
Theorem restricted_messages_never_run mode txBytes tx app st msg x app' :
  mode = runTxModeDeliver ∨ mode = runTxModeSimulate → getState mode app = Some st → msg ∈ ac_GetMsgs cfg tx → restricted msg →
  runTx cfg mode txBytes tx app = (Returns x, app') →
  ∃ e, x.2 = inl e ∧ (mode = runTxModeDeliver → ∃ st', app_deliverState app' = Some st' ∧
    (cx_MultiStore st' = cx_MultiStore st ∨ ante_accepts tx false (cx_MultiStore st) (cx_MultiStore st'))).
Proof.
  intros Hm Hst Hin Hres Hrun. destruct Hm as [->| ->].
  - destruct x as [g r]. destruct (DeliverTx_run txBytes tx app st g r app' Hst Hrun) as (st' & -> & _ & Hcases). cbv zeta in Hcases.
    destruct Hcases as [(e & -> & E)|[(e & ms1 & -> & Hacc & E)|(ms1 & ctx & res & after & Hacc & _ & Hmsgs & _)]].
    + exists e. split; [done|]. intros _. exists st'. split; [done|]. by left.
    + exists e. split; [done|]. intros _. exists st'. split; [done|]. right. by rw E.
    + exfalso. apply (run_messages_restricted runTxModeDeliver 0 (ac_GetMsgs cfg tx) ctx "" [] [] msg res); [by left|done|done|].
      unfold runMsgs in Hmsgs. by rw Hmsgs.
  - assert (∃ e, x.2 = inl e) as [e He]; [|by exists e]. unfold runTx in Hrun. rw Hst in Hrun. cbv zeta in Hrun.
    destruct (decide (runTxModeSimulate = runTxModeDeliver)); [done|].
    destruct (run_body cfg _ tx _) as [r v] eqn:Eb. destruct (charge_block _ _ r v) as [r0 v0] eqn:Ec.
    unfold charge_block in Ec. destruct (decide (runTxModeSimulate = runTxModeDeliver)); [done|]. injection Ec as -> ->.
    destruct (recover_panic r0) as [y|p] eqn:Er; [|done]. injection Hrun as <- _. cbn [snd]. destruct y as [e|res]; [by exists e|exfalso].
    destruct r0 as [y|[| |e|]]; cbn in Er; try done; [|by destruct (decide (e = vm_types.ErrVMCrashed))]. injection Er as ->.
    set (own := WithNewEventManager st) in *.
    assert (on_stores (cx_MultiStore own) (cx_BlockHeader own) (MkVars (getContextForTx runTxModeSimulate txBytes app own) own false 0)) as Hv by done.
    destruct (run_body_effect _ _ _ _ _ _ _ Hv Eb) as (ms1 & Heff & _).
    inversion Heff as [r Hne E1 E2|r ms2 Hacc Hne E1 E2|ms2 ctx res' after Hacc Hctx Hmsgs E1 E2]; [by destruct (Hne res)|by destruct (Hne res)|].
    apply (run_messages_restricted runTxModeSimulate 0 (ac_GetMsgs cfg tx) ctx "" [] [] msg res'); [by right|done|done|].
    unfold runMsgs in Hmsgs. rw Hmsgs. cbn. congruence.
Qed.

(** Checking looks at the first message only: the verifier sees no other. *)
Lemma check_verifies_first_message mode cx msg msgs : mode = runTxModeCheck ∨ mode = runTxModeReCheck →
  (runMsgs cfg cx (msg :: msgs) mode).1 = match ac_msgsCustomVerifier cfg msg with
    | Some e => Returns (inl e) | None => Returns (inr (MkTxResult "" (TrimSpace (ac_logs_String cfg [])) [])) end.
Proof.
  intros Hm. unfold runMsgs. cbn [run_messages]. destruct (ac_msgsCustomVerifier cfg msg); [done|]. by rw bool_decide_true.
Qed.

(** A query without a path is answered by a panic. *)
Lemma empty_query_panics data h prove app : Query cfg (MkRequestQuery "" data h prove) app = (Panics PanicOther, app).
Proof. done. Qed.
End theorems.
