(* ===== verification/AppWitnesses.v ===== *)
(** * The application: the theorems on a concrete one

    Messages put a value into a store for a price in gas, or crash the VM; the ante
    handler counts transactions and gives each a thousand units of gas; a block has a
    hundred. *)
From S2P Require Import Prelude Bytes Sdk SdkRef SdkFacts DnTypes Perms Chain Scenario VmEvents Abci BaseApp BaseAppTheorems.
Local Open Scope string_scope.
Local Open Scope Z_scope.
Local Open Scope list_scope.
Import baseapp.

(** ** Codecs *)
#[export] Instance params_eq_dec : EqDecision ConsensusParams.
Proof. solve_decision. Defined.
#[export] Instance params_countable : Countable ConsensusParams.
Proof. refine (inj_countable' csp_MaxGas MkConsensusParams _). abstract (by intros []). Defined.
#[export] Instance codec_Params : Codec ConsensusParams := codec_of_countable ConsensusParams.
#[export] Instance gasinfo_eq_dec : EqDecision GasInfo.
Proof. solve_decision. Defined.
#[export] Instance gasinfo_countable : Countable GasInfo.
Proof. refine (inj_countable' (λ g, (gi_Wanted g, gi_Used g)) (λ x, MkGasInfo x.1 x.2) _). abstract (by intros []). Defined.
#[export] Instance event_is_countable : Countable Event.
Proof. refine (inj_countable' (λ e, (ev_Type e, ev_Attributes e)) (λ x, MkEvent x.1 x.2) _). abstract (by intros []). Defined.
#[export] Instance txresult_eq_dec : EqDecision TxResult.
Proof. solve_decision. Defined.
#[export] Instance txresult_countable : Countable TxResult.
Proof. refine (inj_countable' (λ r, (txr_Data r, txr_Log r, txr_Events r)) (λ x, MkTxResult x.1.1 x.1.2 x.2) _). abstract (by intros []). Defined.
#[export] Instance codec_Simulation : Codec (GasInfo * TxResult) := codec_of_countable (GasInfo * TxResult).

(** ** The application *)
Inductive demo_msg := Put (key value : string) (gas : Z) | Crash.
Definition demo_tx : Type := list demo_msg.
Notation demo_context := (Context (G := Meter) (VoteInfo := unit) (DecCoins := unit)).

Definition put_value (key value : string) (ms : MultiStore) : MultiStore :=
  MkMultiStore (λ k, if decide (k = "demo") then store_Set (ms_stores ms k) key value else ms_stores ms k) (ms_bank ms).
Definition demo_handler : Handler (G := Meter) (Msg := demo_msg) (VoteInfo := unit) (DecCoins := unit) := λ cx msg,
  match msg with
  | Put key value gas =>
      let (p, meter) := ConsumeGas (cx_GasMeter cx) gas in
      let cx := WithMeters cx meter (cx_BlockGasMeter cx) in
      match p with
      | Some p => (Panics p, cx)
      | None => (Returns (inr (MkTxResult "" "" [])), WithMultiStore cx (put_value key value (cx_MultiStore cx)))
      end
  | Crash => (Panics (PanicError vm_types.ErrVMCrashed), cx)
  end.
Definition demo_ante : AnteHandler (G := Meter) (Tx := demo_tx) (VoteInfo := unit) (DecCoins := unit) := λ cx tx _,
  let n := default "" (store_Get (ms_stores (cx_MultiStore cx) "demo") "count") in
  let after := WithMultiStore cx (put_value "count" ("I" +:+ n) (cx_MultiStore cx)) in
  (AnteReturns (Some (WithMeters after (NewGasMeter 1000) (cx_BlockGasMeter after))) None, after).
Definition demo_querier : Querier (G := Meter) (VoteInfo := unit) (DecCoins := unit) := λ cx path _,
  match path with
  | key :: _ => Returns (inr (default "" (store_Get (ms_stores (cx_MultiStore cx) "demo") key)))
  | [] => Panics PanicOther
  end.

Definition demo_cfg : AppConfig (G := Meter) (Tx := demo_tx) (Msg := demo_msg) (VoteInfo := unit) (DecCoins := unit) (ValidatorUpdate := unit) := {|
  ac_name := "demo";
  ac_txDecoder s :=
    if decide (s = "put") then inr [Put "a" "1" 10]
    else if decide (s = "big") then inr [Put "b" "2" 150]
    else if decide (s = "crash") then inr [Crash]
    else if decide (s = "denied") then inr [Put "a" "2" 10; Put "denied" "1" 10]
    else inl (Plain "decoding");
  ac_GetMsgs tx := tx;
  ac_Route _ := "demo";
  ac_Type msg := match msg with Put key _ _ => key | Crash => "crash" end;
  ac_ValidateBasic _ := None;
  ac_anteHandler := Some demo_ante;
  ac_initChainer := None;
  ac_beginBlocker := None;
  ac_endBlocker := None;
  ac_addrPeerFilter := None;
  ac_idPeerFilter := None;
  ac_router _ route := if decide (route = "demo") then Some demo_handler else None;
  ac_queryRouter route := if decide (route = "demo") then Some demo_querier else None;
  ac_minGasPrices := None;
  ac_haltHeight := 0;
  ac_haltTime := 0;
  ac_appVersion := "1";
  ac_msgsDeniedList := {[ "demo" := ["denied"] ]};
  ac_msgsCustomVerifier _ := None;
  ac_updates_Less _ _ := false;
  ac_logs_String _ := "[]";
|}.

Notation demo_app := (BaseApp (G := Meter) (C := Versions) (VoteInfo := unit) (DecCoins := unit)).
Definition new_app : demo_app := NewBaseApp (MkVersions (MkMultiStore (λ _, ∅) ∅) []).
Definition loaded : demo_app := (app_LoadLatestVersion demo_cfg "main" new_app).2.
Definition at_genesis : demo_app := (InitChain demo_cfg (MkRequestInitChain (Some (MkConsensusParams (Some 100))) "demo-1" 0 [] "") loaded).2.
Definition block (height : Z) : RequestBeginBlock (VoteInfo := unit) := MkRequestBeginBlock (MkHeader "demo-1" height 0) [].
Definition in_block_1 : demo_app := (BeginBlock demo_cfg (block 1) at_genesis).2.
Definition after_put : demo_app := (DeliverTx demo_cfg "put" in_block_1).2.
Definition after_block_1 : demo_app := (Commit demo_cfg after_put).2.

Definition value_in (app : demo_app) (key : string) : option string :=
  match app_deliverState app with Some d => store_Get (ms_stores (cx_MultiStore d) "demo") key | None => None end.

(** The block with a check and a query in between. *)
Definition busy : list request :=
  [ReqBeginBlock (block 1); ReqCheckTx "put" CheckTxType_New; ReqDeliverTx "put"; ReqQuery (MkRequestQuery "/app/simulate" "big" 0 false);
   ReqCheckTx "crash" CheckTxType_New; ReqEndBlock 1; ReqCommit].
Definition quiet : list request := [ReqBeginBlock (block 1); ReqDeliverTx "put"; ReqEndBlock 1; ReqCommit].

Definition panicked {A} (x : run A) : bool := match x with Panics _ => true | _ => false end.
Lemma no_panics (l : list (request (VoteInfo := unit) * run (answer (ValidatorUpdate := unit)))) :
  forallb (λ x, negb (panicked x.2)) l = true → no_panic l.
Proof.
  intros Hl x p Hx E. rewrite forallb_forall in Hl. specialize (Hl x (proj1 (list_elem_of_In _ _) Hx)). by rw E in Hl.
Qed.

Lemma mempool_is_invisible_witness :
  filter (λ x, of_consensus x.1 = true) (process demo_cfg busy at_genesis).1 = (process demo_cfg quiet at_genesis).1 ∧
  same_chain (process demo_cfg busy at_genesis).2 (process demo_cfg quiet at_genesis).2.
Proof.
  assert (no_panic (process demo_cfg busy at_genesis).1) as Hn by (apply no_panics; vm_compute; reflexivity).
  destruct (mempool_is_invisible demo_cfg busy at_genesis) as [E Hs]; [intros x p Hx _; by apply Hn|].
  split; [exact E|exact (Hs Hn)].
Defined.

Definition block_2 : list request := [ReqBeginBlock (block 2); ReqDeliverTx "put"; ReqEndBlock 2; ReqCommit].
Lemma run_pair {A B} (x : A * B) a : x.1 = a → x = (a, x.2).
Proof. destruct x. by intros <-. Qed.

Lemma commit_1 : Commit demo_cfg after_put = (Returns "hash", after_block_1).
Proof. unfold after_block_1. apply (run_pair (Commit demo_cfg after_put)). vm_compute. reflexivity. Qed.

(** The state under way in a block. *)
Definition state_of (app : demo_app) : demo_context := default (NewContext (MkMultiStore (λ _, ∅) ∅) EmptyHeader false) (app_deliverState app).
Definition under_way (app : demo_app) : bool := match app_deliverState app with Some _ => true | None => false end.
Lemma state_of_under_way app : under_way app = true → app_deliverState app = Some (state_of app).
Proof. unfold under_way, state_of. by destruct (app_deliverState app). Qed.
Lemma state_of_block_1 : app_deliverState in_block_1 = Some (state_of in_block_1).
Proof. apply state_of_under_way. vm_compute. reflexivity. Qed.

Lemma restart_is_invisible_witness : ∃ app2, app_LoadLatestVersion demo_cfg "main" (NewBaseApp (app_cms after_block_1)) = (Returns None, app2) ∧
  (process demo_cfg block_2 app2).1 = (process demo_cfg block_2 after_block_1).1 ∧
  LastBlockHeight (process demo_cfg block_2 app2).2 = 2.
Proof.
  destruct (restart_is_invisible demo_cfg after_put after_block_1 "hash" "main" block_2 commit_1) as (app2 & Hload & E & Hs).
  - vm_compute. reflexivity.
  - unfold params_stored. vm_compute. reflexivity.
  - by repeat constructor.
  - exists app2. split; [exact Hload|]. split; [exact E|].
    assert (no_panic (process demo_cfg block_2 after_block_1).1) as Hn by (apply no_panics; vm_compute; reflexivity).
    unfold LastBlockHeight. rw (sc_cms _ _ (Hs Hn)). vm_compute. reflexivity.
Defined.

Lemma DeliverTx_is_atomic_witness : ∃ g r st', runTx demo_cfg runTxModeDeliver "put" [Put "a" "1" 10] in_block_1 =
    (Returns (g, inr r), set_deliver (Some st') in_block_1) ∧ value_in in_block_1 "a" = None ∧
  store_Get (ms_stores (cx_MultiStore st') "demo") "a" = Some "1".
Proof.
  set (x := runTx demo_cfg runTxModeDeliver "put" [Put "a" "1" 10] in_block_1).
  assert (x = (Returns (MkGasInfo 1000 10, inr (MkTxResult "" "[]" [MkEvent "message" [("action", "a")]])), x.2)) as E by (apply run_pair; vm_compute; reflexivity).
  pose proof state_of_block_1 as Hst.
  destruct (DeliverTx_is_atomic demo_cfg "put" [Put "a" "1" 10] in_block_1 (state_of in_block_1) _ _ _ Hst E) as (st' & Est & _ & _).
  rw Est in E. eexists _, _, st'. split; [exact E|]. split; [vm_compute; reflexivity|].
  assert (value_in x.2 "a" = Some "1") as Hv by (vm_compute; reflexivity). by rw Est in Hv.
Defined.

(** A crash is passed on; a message that takes more than a thousand units is answered. *)
Lemma only_vm_crash_stops_witness : (runTx demo_cfg runTxModeDeliver "crash" [Crash] in_block_1).1 = Panics (PanicError vm_types.ErrVMCrashed) ∧
  ∃ g, (runTx demo_cfg runTxModeSimulate "loop" [Put "a" "1" 2000] in_block_1).1 = Returns (g, inl ErrOutOfGas).
Proof.
  split.
  - pose proof state_of_block_1 as Hst.
    destruct (only_vm_crash_stops demo_cfg runTxModeDeliver "crash" [Crash] in_block_1 (state_of in_block_1) Hst) as [Hcrash _]; [intros _; vm_compute; discriminate|].
    cbv zeta in Hcrash.
    destruct (runTx demo_cfg runTxModeDeliver "crash" [Crash] in_block_1).1 as [x|p] eqn:E; [vm_compute in E; discriminate E|].
    by rw (Hcrash p eq_refl).
  - set (st := default (NewContext (MkMultiStore (λ _, ∅) ∅) EmptyHeader false) (app_checkState in_block_1)).
    assert (getState runTxModeSimulate in_block_1 = Some st) as Hst.
    { unfold st. cbn [getState]. destruct (app_checkState in_block_1) eqn:E; [done|]. exfalso.
      assert (match app_checkState in_block_1 with Some _ => true | None => false end = true) as E' by (vm_compute; reflexivity). by rw E in E'. }
    destruct (only_vm_crash_stops demo_cfg runTxModeSimulate "loop" [Put "a" "1" 2000] in_block_1 st Hst) as (_ & _ & Hans); [done|].
    destruct (Hans 0 ltac:(by apply starts_outside)) as (r & v1 & st' & Eb & _ & Hpan & _).
    set (b := run_body demo_cfg runTxModeSimulate [Put "a" "1" 2000] (start_vars runTxModeSimulate "loop" in_block_1 st)) in *.
    assert (b.1 = Panics ErrorOutOfGas) as E1 by (vm_compute; reflexivity). rw Eb in E1. cbn in E1. subst r.
    specialize (Hpan ErrorOutOfGas ltac:(by apply panic_of_body)). cbn in Hpan. exact Hpan.
Defined.

Lemma over_block_gas_still_applied_witness : ∃ g st', runTx demo_cfg runTxModeDeliver "big" [Put "b" "2" 150] in_block_1 =
    (Returns (g, inl ErrOutOfGas), set_deliver (Some st') in_block_1) ∧ store_Get (ms_stores (cx_MultiStore st') "demo") "b" = Some "2".
Proof.
  pose proof state_of_block_1 as Hst.
  set (st := state_of in_block_1) in *.
  set (b := run_body demo_cfg runTxModeDeliver [Put "b" "2" 150] (MkVars (getContextForTx runTxModeDeliver "big" in_block_1 st) st false 0)).
  assert (b = (Returns (inr (MkTxResult "" "[]" [MkEvent "message" [("action", "b")]])), b.2)) as E by (apply run_pair; vm_compute; reflexivity).
  destruct (over_block_gas_still_applied demo_cfg "big" [Put "b" "2" 150] in_block_1 st b.2 (MkTxResult "" "[]" [MkEvent "message" [("action", "b")]]) (NewGasMeter 100) (NewGasMeter 100) Hst)
    as (g & st' & ms1 & ctx & after & Hrun & _); [vm_compute; reflexivity|vm_compute; reflexivity|exact E|vm_compute; reflexivity|
    vm_compute; reflexivity|vm_compute; discriminate|vm_compute; discriminate|vm_compute; reflexivity|vm_compute; reflexivity|].
  exists g, st'. split; [exact Hrun|].
  assert (value_in (runTx demo_cfg runTxModeDeliver "big" [Put "b" "2" 150] in_block_1).2 "b" = Some "2") as Hv by (vm_compute; reflexivity).
  rw Hrun in Hv. exact Hv.
Defined.

(** The third block is under way when the queries are answered: for no height, for the
    first block and for a block to come. *)
Definition begun_2 : demo_app := (BeginBlock demo_cfg (block 2) after_block_1).2.
Definition block_2_txs : list (request (VoteInfo := unit)) := [ReqDeliverTx "put"; ReqCheckTx "put" CheckTxType_New; ReqEndBlock 2].
Definition committed_2 : demo_app := (Commit demo_cfg (process demo_cfg block_2_txs begun_2).2).2.
Definition block_3 : list request := [ReqBeginBlock (block 3); ReqDeliverTx "put"; ReqCheckTx "put" CheckTxType_New].
Definition count_query (h : Z) : RequestQuery := MkRequestQuery "/custom/demo/count" "" h false.
Lemma queries_read_last_commit_witness :
  LastBlockHeight committed_2 = 2 ∧
  (Query demo_cfg (count_query 0) (process demo_cfg block_3 committed_2).2).1 = Returns (MkResponseQuery None "" 2 "II") ∧
  (Query demo_cfg (count_query 1) (process demo_cfg block_3 committed_2).2).1 = Returns (MkResponseQuery None "" 1 "I") ∧
  (Query demo_cfg (count_query 7) (process demo_cfg block_3 committed_2).2).1 = Returns (QueryResult ErrInvalidRequest).
Proof.
  assert (BeginBlock demo_cfg (block 2) after_block_1 = (Returns (MkResponseBlock [] []), begun_2)) as Hb.
  { apply (run_pair (BeginBlock demo_cfg (block 2) after_block_1)). vm_compute. reflexivity. }
  assert (Commit demo_cfg (process demo_cfg block_2_txs begun_2).2 = (Returns "hash", committed_2)) as Hc.
  { apply (run_pair (Commit demo_cfg (process demo_cfg block_2_txs begun_2).2)). vm_compute. reflexivity. }
  assert (∀ h, _) as Hq by (intros h; refine (queries_read_last_commit demo_cfg after_block_1 (block 2) _ begun_2 block_2_txs "hash" committed_2 block_3
    (count_query h) "demo" ["count"] demo_querier Hb ltac:(by repeat constructor) Hc ltac:(by repeat constructor) eq_refl ltac:(discriminate) eq_refl)).
  cbv zeta in Hq. split; [apply (Hq 0)|].
  assert (∀ h, ∃ d, app_deliverState (process demo_cfg block_2_txs begun_2).2 = Some d ∧ _) as Hd by (intros h; exact (proj2 (proj2 (proj2 (Hq h))))).
  clear Hq. split; [|split].
  - destruct (Hd 0) as (d & Ed & E). rw E. assert (d = state_of (process demo_cfg block_2_txs begun_2).2) as -> by (unfold state_of; by rw Ed).
    vm_compute. reflexivity.
  - destruct (Hd 1) as (d & Ed & E). rw E. vm_compute. reflexivity.
  - destruct (Hd 7) as (d & Ed & E). rw E. vm_compute. reflexivity.
Defined.

Lemma restricted_messages_never_run_witness : ∃ e, (runTx demo_cfg runTxModeDeliver "denied" [Put "a" "2" 10; Put "denied" "1" 10] in_block_1).1 =
    Returns (MkGasInfo 1000 10, inl e) ∧
  value_in (runTx demo_cfg runTxModeDeliver "denied" [Put "a" "2" 10; Put "denied" "1" 10] in_block_1).2 "a" = None.
Proof.
  set (x := runTx demo_cfg runTxModeDeliver "denied" [Put "a" "2" 10; Put "denied" "1" 10] in_block_1).
  assert (x = (Returns (MkGasInfo 1000 10, inl ErrUnknownRequest), x.2)) as E by (apply run_pair; vm_compute; reflexivity).
  pose proof state_of_block_1 as Hst.
  destruct (restricted_messages_never_run demo_cfg runTxModeDeliver "denied" [Put "a" "2" 10; Put "denied" "1" 10] in_block_1 (state_of in_block_1)
    (Put "denied" "1" 10) _ _ (or_introl eq_refl) Hst ltac:(right; left) ltac:(right; vm_compute; reflexivity) E) as (e & Ee & _).
  exists e. split; [rw E; cbn; cbn in Ee; congruence|vm_compute; reflexivity].
Defined.
