(* ===== verification/Ante.v ===== *)
(** * The ante handler ([x/core])

    What is done with a transaction before its messages: the fee is asked for and taken,
    the public keys of the signers are stored, the signatures are paid for and verified,
    the sequences of the signers go up.  Decorators of the SDK are parameters, between
    the ones of the module; both are functions of the next handler. *)
From S2P Require Import Prelude Bytes Sdk DnTypes Perms Chain SdkBank Currency VMStorage CCStorage VmEvents SdkAuth VMAuth Abci BaseApp.
Local Open Scope string_scope.
Local Open Scope Z_scope.
Local Open Scope list_scope.
Import baseapp.

(** ** The account keeper the decorators use

    [ak.GetAccount] and [ak.SetAccount] of [vmauth.Keeper]. *)
Class AuthKeeper `{KV : KVStore} `{LG : Ledger} := {
  auth_GetAccount : AccAddress → M (option Account);
  auth_SetAccount : Account → M unit;
}.

(** What the decorators rely on: the keeper is a map from addresses to accounts, as long
    as only accounts that are in it are stored, with the coins they have. *)
Class AuthKeeperLaws `{AK : AuthKeeper} := {
  auth_addr : AccAddress → Prop;
  auth_map : Ctx → gmap AccAddress Account → Prop;
  auth_map_ext c c' m : ctx_stores c' = ctx_stores c → ctx_bank c' = ctx_bank c → auth_map c m → auth_map c' m;
  auth_map_address c m a acc : auth_map c m → m !! a = Some acc → acc_GetAddress acc = a;
  auth_Get a caller c m : auth_map c m → auth_addr a → auth_GetAccount a caller c = (Ok (m !! a), c);
  auth_Set acc old caller c m : auth_map c m → m !! acc_GetAddress acc = Some old → acc_GetCoins acc = acc_GetCoins old →
    ∃ c', auth_SetAccount acc caller c = (Ok tt, c') ∧ auth_map c' (<[acc_GetAddress acc := acc]> m) ∧
      ctx_height c' = ctx_height c ∧ ctx_time c' = ctx_time c;
}.

Definition vmauth_keeper `{SdkTypes} `{SdkCoins} `{KVStore} `{Ledger} `{!VMStorage} `{Glav}
    `{!Lcs ccstorage.ResCurrencyInfo} `{!Lcs ccstorage.ResBalance} `{!Codec Currency} `{AuthAccounts} `{!AccountKeeper}
    (ccsPerms : ModulePermissions) : AuthKeeper :=
  {| auth_GetAccount := vmauth.GetAccount ccsPerms; auth_SetAccount := vmauth.SetAccount ccsPerms |}.

(** ** What the module gets from the SDK *)

(** [Coins.IsZero], [Coins.DenomsSubsetOf]. *)
Class FeeCoins := {
  Coins_IsZero : list Coin → bool;
  Coins_DenomsSubsetOf : list Coin → list Coin → bool;
}.
(** Documented behaviour; of valid coins only denominations are compared. *)
Class FeeCoinsLaws `{F : FeeCoins} : Prop := {
  IsZero_ok cs : Coins_IsZero cs = true ↔ Forall (λ c, coin_Amount c = 0) cs;
  DenomsSubsetOf_ok cs cs' : coins_valid cs → coins_valid cs' →
    Coins_DenomsSubsetOf cs cs' = true ↔ Forall (λ c, coin_Denom c ∈ coin_Denom <$> cs') cs;
}.

(** Public keys and signatures. *)
Class Crypto := {
  pk_Address : PubKey → AccAddress;
  VerifyBytes : PubKey → string → option string → bool;
  is_multisig : PubKey → bool;
  (** The all zero [secp256k1.PubKeySecp256k1]. *)
  zero_secp256k1 : PubKey;
  (** [MustMarshalBinaryLengthPrefixed] of an [auth.StdSignature]. *)
  Marshal_signature : PubKey → string → string;
}.

(** The parameters of [x/auth] that are read here. *)
Record Params := MkParams { par_TxSigLimit : Z; par_TxSizeCostPerByte : Z }.

Module core.

Definition Codespace := "core".
Definition ErrInternal : error := Registered Codespace 100.

(** [sdkErrors] of the root codespace. *)
Definition ErrTxDecode : error := Registered "sdk" 2.

(** [sdk.NewCoin] of a valid denomination. *)
Definition DefaultFees : list Coin := [MkCoin restrictions.MainDenom 1].

(** *** The body of a decorator: it goes on to the next handler, fails or panics, with
    what it did to the things its context points to. *)
Inductive step_result (A : Type) := Goes (a : A) | Fails (e : error) | Crashes (p : panic_value).
Arguments Goes {A} a.
Arguments Fails {A} e.
Arguments Crashes {A} p.

Section ante.
Context `{KV : KVStore} `{LG : Ledger} {G : Type} `{TG : !TxGas G} {Tx VoteInfo DecCoins : Type}.
Context `{AK : !AuthKeeper} `{FC : FeeCoins} `{CR : Crypto} `{AA : AuthAccounts}.
Notation Context := (Context (G := G) (VoteInfo := VoteInfo) (DecCoins := DecCoins)).
Notation AnteHandler := (AnteHandler (G := G) (Tx := Tx) (VoteInfo := VoteInfo) (DecCoins := DecCoins)).
Notation ante_result := (ante_result (G := G) (VoteInfo := VoteInfo) (DecCoins := DecCoins)).

(** [simSecp256k1Pubkey], [simSecp256k1Sig]. *)
Definition simSecp256k1Pubkey : PubKey := zero_secp256k1.
Definition simSecp256k1Sig : string := String.string_of_list_ascii (replicate 64 zero).

(** *** The views of a transaction ([ante.SigVerifiableTx], [ante.FeeTx]) *)
Record SigVerifiableTx := MkSigVerifiableTx {
  GetSignatures : list (option string);
  GetSigners : list AccAddress;
  GetPubKeys : list (option PubKey);
  GetSignBytes : Context → Account → string;
}.
Record FeeTx := MkFeeTx { GetFee : list Coin; FeePayer : AccAddress }.

Class AnteSdk := {
  (** [tx.(auth.StdTx)], of it [Fee.Amount]. *)
  as_StdTx : Tx → option (list Coin);
  as_SigVerifiableTx : Tx → option SigVerifiableTx;
  as_FeeTx : Tx → option FeeTx;
  SetGasMeter : bool → Context → Z → Context;
  SetUpContextDecorator : AnteHandler → AnteHandler;
  MempoolFeeDecorator : AnteHandler → AnteHandler;
  ValidateBasicDecorator : AnteHandler → AnteHandler;
  ValidateMemoDecorator : AnteHandler → AnteHandler;
  ValidateSigCountDecorator : AnteHandler → AnteHandler;
  ak_GetParams : M Params;
  (** [supplyKeeper.GetModuleAddress] of the fee collector. *)
  FeeCollector : option AccAddress;
  DeductFees : Account → list Coin → M unit;
}.
Definition SignatureVerificationGasConsumer : Type :=
  G → option string → option PubKey → Params → run (option error) * G.

Context `{SK : !AnteSdk}.

Definition D (A : Type) : Type := Context → step_result A * Context.
#[global] Instance D_ret : MRet D := λ A a cx, (Goes a, cx).
#[global] Instance D_bind : MBind D := λ A B f m cx,
  match m cx with
  | (Goes a, cx') => f a cx'
  | (Fails e, cx') => (Fails e, cx')
  | (Crashes p, cx') => (Crashes p, cx')
  end.
Definition fail_with {A} (e : error) : D A := λ cx, (Fails e, cx).
Definition crash {A} : D A := λ cx, (Crashes PanicOther, cx).
Definition get_ctx : D Context := λ cx, (Goes cx, cx).
(** A call of a keeper. *)
Definition call {A} (m : M A) : D A := λ cx,
  match m "core" (cx_Ctx cx) with
  | (Ok a, c) => (Goes a, WithCtx cx c)
  | (Err e, c) => (Fails e, WithCtx cx c)
  | (Panic, c) => (Crashes PanicOther, WithCtx cx c)
  end.
Definition with_meter {A} (f : G → step_result A * G) : D A := λ cx,
  let (r, g) := f (cx_GasMeter cx) in (r, WithMeters cx g (cx_BlockGasMeter cx)).
Definition consume (gas : Z) : D unit :=
  with_meter (λ g, let (p, g) := ConsumeGas g gas in (match p with Some p => Crashes p | None => Goes tt end, g)).
(** Indexing a slice. *)
Definition at_index {A} (l : list A) (i : nat) : D A := match l !! i with Some x => mret x | None => crash end.
(** [for i, x := range l]. *)
Fixpoint for_range {A} (f : nat → A → D unit) (i : nat) (l : list A) : D unit :=
  match l with
  | [] => mret tt
  | x :: l' => f i x;; for_range f (S i) l'
  end.
(** A type assertion with an error. *)
Definition view {A} (o : option A) : D A := match o with Some x => mret x | None => fail_with ErrTxDecode end.

Definition decorator (body : Tx → bool → D unit) (next : AnteHandler) : AnteHandler := λ cx tx simulate,
  match body tx simulate cx with
  | (Goes _, cx') => next cx' tx simulate
  | (Fails e, cx') => (AnteReturns (Some cx') (Some e), cx')
  | (Crashes p, cx') => (AntePanics p, cx')
  end.

Definition GetSignerAcc (addr : AccAddress) : D Account :=
  acc ← call (auth_GetAccount addr);
  match acc with Some acc => mret acc | None => fail_with ErrUnknownAddress end.

(** *** Fees of the right kind *)
Definition DenomDecorator (next : AnteHandler) : AnteHandler := λ ctx tx simulate,
  let fails e := (AnteReturns (Some (SetGasMeter simulate ctx 0)) (Some e), ctx) in
  match as_StdTx tx with
  | None => fails ErrInternal
  | Some amount =>
      if 0 <? hd_Height (cx_BlockHeader ctx) then
        if Coins_IsZero amount then fails ErrFeeRequired
        else if Coins_DenomsSubsetOf amount DefaultFees then next ctx tx simulate
        else fails ErrWrongFeeDenom
      else next ctx tx simulate
  end.

(** *** Gas for the size of the transaction *)
Definition size_of_signature (sigs : list (option string)) (params : Params) (i : nat) (signer : AccAddress) : D unit :=
  sig ← at_index sigs i;
  match sig with
  | Some _ => mret tt
  | None =>
      acc ← call (auth_GetAccount signer);
      let pubkey := default simSecp256k1Pubkey (acc ≫= acc_GetPubKey) in
      let cost := Z.of_nat (String.length (Marshal_signature pubkey simSecp256k1Sig)) + 6 in
      let cost := if is_multisig pubkey then wrap64 (cost * par_TxSigLimit params) else cost in
      consume (wrap64 (par_TxSizeCostPerByte params * cost))
  end.
Definition ConsumeTxSizeGasDecorator : AnteHandler → AnteHandler := decorator (λ tx simulate,
  sigTx ← view (as_SigVerifiableTx tx);
  params ← call ak_GetParams;
  ctx ← get_ctx;
  consume (wrap64 (par_TxSizeCostPerByte params * Z.of_nat (String.length (cx_TxBytes ctx))));;
  if (simulate : bool) then for_range (size_of_signature (GetSignatures sigTx) params) 0 (GetSigners sigTx) else mret tt).

(** *** Public keys *)
Definition set_pubkey (simulate : bool) (signers : list AccAddress) (i : nat) (pk : option PubKey) : D unit :=
  match (match pk with Some pk => Some pk | None => if simulate then Some simSecp256k1Pubkey else None end) with
  | None => mret tt
  | Some pk =>
      (if negb simulate then
         signer ← at_index signers i;
         if decide (pk_Address pk = signer) then mret tt else fail_with ErrInvalidPubKey
       else mret tt);;
      signer ← at_index signers i;
      acc ← GetSignerAcc signer;
      match acc_GetPubKey acc with
      | Some _ => mret tt
      | None =>
          match acc_SetPubKey acc pk with
          | Ok acc => call (auth_SetAccount acc)
          | Err _ => fail_with ErrInvalidPubKey
          | Panic => crash
          end
      end
  end.
Definition SetPubKeyDecorator : AnteHandler → AnteHandler := decorator (λ tx simulate,
  sigTx ← view (as_SigVerifiableTx tx);
  for_range (set_pubkey simulate (GetSigners sigTx)) 0 (GetPubKeys sigTx)).

(** *** The fee *)
Definition DeductFeeDecorator : AnteHandler → AnteHandler := decorator (λ tx simulate,
  feeTx ← view (as_FeeTx tx);
  match FeeCollector with
  | None => crash
  | Some _ =>
      feePayerAcc ← call (auth_GetAccount (FeePayer feeTx));
      match feePayerAcc with
      | None => fail_with ErrUnknownAddress
      | Some feePayerAcc =>
          if Coins_IsZero (GetFee feeTx) then mret tt else call (DeductFees feePayerAcc (GetFee feeTx))
      end
  end).

(** *** Gas for the signatures *)
Definition consume_signature (sigGasConsumer : SignatureVerificationGasConsumer) (simulate : bool) (signers : list AccAddress)
    (params : Params) (i : nat) (sig : option string) : D unit :=
  signer ← at_index signers i;
  signerAcc ← GetSignerAcc signer;
  let pubKey := match acc_GetPubKey signerAcc with
                | None => if simulate then Some simSecp256k1Pubkey else None
                | pk => pk
                end in
  with_meter (λ g,
    let (r, g) := sigGasConsumer g sig pubKey params in
    (match r with Panics p => Crashes p | Returns (Some e) => Fails e | Returns None => Goes tt end, g)).
Definition SigGasConsumeDecorator (sigGasConsumer : SignatureVerificationGasConsumer) : AnteHandler → AnteHandler :=
  decorator (λ tx simulate,
    sigTx ← view (as_SigVerifiableTx tx);
    params ← call ak_GetParams;
    for_range (consume_signature sigGasConsumer simulate (GetSigners sigTx) params) 0 (GetSignatures sigTx)).

(** *** Signatures *)
Definition verify_signature (sigTx : SigVerifiableTx) (simulate : bool) (i : nat) (sig : option string) : D unit :=
  signer ← at_index (GetSigners sigTx) i;
  signerAcc ← GetSignerAcc signer;
  ctx ← get_ctx;
  let signBytes := GetSignBytes sigTx ctx signerAcc in
  if simulate then mret tt
  else
    match acc_GetPubKey signerAcc with
    | None => fail_with ErrInvalidPubKey
    | Some pubKey => if VerifyBytes pubKey signBytes sig then mret tt else fail_with ErrUnauthorized
    end.
Definition SigVerificationDecorator : AnteHandler → AnteHandler := decorator (λ tx simulate,
  ctx ← get_ctx;
  if cx_IsReCheckTx ctx then mret tt
  else
    sigTx ← view (as_SigVerifiableTx tx);
    if decide (length (GetSignatures sigTx) = length (GetSigners sigTx)) then
      for_range (verify_signature sigTx simulate) 0 (GetSignatures sigTx)
    else fail_with ErrUnauthorized).

(** *** Sequences; a signer that has no account is a nil dereference. *)
Definition increment_sequence (i : nat) (addr : AccAddress) : D unit :=
  acc ← call (auth_GetAccount addr);
  match acc with
  | None => crash
  | Some acc =>
      match acc_SetSequence acc (wrap64 (acc_GetSequence acc + 1)) with
      | Ok acc => call (auth_SetAccount acc)
      | Err e => λ cx, (Crashes (PanicError e), cx)
      | Panic => crash
      end
  end.
Definition IncrementSequenceDecorator : AnteHandler → AnteHandler := decorator (λ tx simulate,
  sigTx ← view (as_SigVerifiableTx tx);
  for_range increment_sequence 0 (GetSigners sigTx)).

(** *** The chain ([sdk.ChainAnteDecorators], ended by [sdk.Terminator]) *)
Definition Terminator : AnteHandler := λ ctx tx simulate, (AnteReturns (Some ctx) None, ctx).
Definition ChainAnteDecorators (chain : list (AnteHandler → AnteHandler)) : AnteHandler :=
  foldr (λ d next, d next) Terminator chain.
Definition NewAnteHandler (sigGasConsumer : SignatureVerificationGasConsumer) : AnteHandler :=
  ChainAnteDecorators
    [DenomDecorator; SetUpContextDecorator; MempoolFeeDecorator; ValidateBasicDecorator; ValidateMemoDecorator;
     ConsumeTxSizeGasDecorator; SetPubKeyDecorator; ValidateSigCountDecorator; DeductFeeDecorator;
     SigGasConsumeDecorator sigGasConsumer; SigVerificationDecorator; IncrementSequenceDecorator].
End ante.
End core.
