(* ===== verification/AnteFacts.v ===== *)
(** * The ante handler: what its decorators do when they go on

    [goes m cx P]: when the body [m] goes on from [cx], what it gives and leaves
    satisfies [P].  [holds h r m cx] says what the accounts are; the decorators are
    followed through it.  The keeper of [x/vmauth] is shown to be the map of accounts
    that the decorators rely on. *)
From S2P Require Import Prelude Bytes Sdk SdkFacts DnTypes Perms Chain SdkBank Currency VMStorage CCStorage CCStorageFacts VmEvents SdkAuth BalanceFacts VMAuth VMAuthFacts VMAuthTheorems.
From S2P Require Import Abci BaseApp BaseAppTheorems Ante.
Local Open Scope string_scope.
Local Open Scope Z_scope.
Local Open Scope list_scope.
Import baseapp core.

(** ** The keeper of [x/vmauth] is a map of accounts *)
Section vmauth.
Context `{SdkTypesLaws} `{SdkCoinsLaws} `{!CoinsEqualLaws} `{KVStoreLaws} `{LG : Ledger} `{VS : !VMStorage}.
Context (clients : string → Prop) (vm_store : string) `{VSL : !VMStorageLaws clients vm_store}.
Context `{GL : Glav} `{LI : !Lcs ccstorage.ResCurrencyInfo} `{LB : !Lcs ccstorage.ResBalance} `{CC : !Codec Currency}.
Context `{AuthAccountsLaws} `{AK : !AccountKeeper} (acc_store : string) `{AKL : !AccountKeeperLaws acc_store}.
Variable ccsPerms : ModulePermissions.
Hypothesis own_perms : mp_name ccsPerms = ccstorage.ModuleName.
Hypothesis admitted : clients ccstorage.ModuleName.
Hypothesis granted : ∀ perm, perm ∈ snd vmauth.RequestCCStoragePerms → Perms.Check ccsPerms vmauth.CallerName perm = Ok tt.
Hypothesis other_store : vm_store ≠ ccstorage.StoreKey.
Hypothesis own_store : acc_store ∉ [ccstorage.StoreKey; vm_store].
Hypothesis lcs_info : ∀ i : ccstorage.ResCurrencyInfo, 0 ≤ ccstorage.rci_TotalSupply i < 2 ^ 128 → ∃ bz, lcs_Marshal i = Ok bz.
Hypothesis lcs_balance : ∀ b : ccstorage.ResBalance, fits128 (ccstorage.rb_Value b) → ∃ bz, lcs_Marshal b = Ok bz.

(** The state of the keeper, in which every account has the VM's coins. *)
Definition vmauth_state (c : Ctx) (st : auth_state) : Prop :=
  auth_holds clients vm_store acc_store c st ∧ denoms_ok (as_currencies st) ∧ (∀ a, addr_ok a → synced st a) ∧
  ∀ a acc, as_accounts st !! a = Some acc → addr_ok a.

Lemma vmauth_ext c c' st : ctx_stores c' = ctx_stores c → auth_holds clients vm_store acc_store c st → auth_holds clients vm_store acc_store c' st.
Proof. intros E [[[Hc1 Hc2 Hc3] Hb] Hwf Hacc Hn]. split; [split; [split|]|..]; rw ?E; try done. intros a d Ha. specialize (Hb a d Ha). unfold value_held in *. by rw E. Qed.

Lemma synced_coins_fit c st a acc : vmauth_state c st → as_accounts st !! a = Some acc → coins_fit (acc_GetCoins acc) ∧ coins_valid (acc_GetCoins acc).
Proof.
  intros (Hs & _ & Hsy & Hok) E. specialize (Hsy a (Hok _ _ E)). unfold synced in Hsy. rw E in Hsy. split; [|apply Hsy].
  eapply vm_coins_fit; [exact Hs|by eapply Hok|exact Hsy].
Qed.

Lemma vmauth_Set acc old caller c st : vmauth_state c st → as_accounts st !! acc_GetAddress acc = Some old → acc_GetCoins acc = acc_GetCoins old →
  ∃ c' st', vmauth.SetAccount ccsPerms acc caller c = (Ok tt, c') ∧ vmauth_state c' st' ∧
    as_accounts st' = <[acc_GetAddress acc := acc]> (as_accounts st) ∧ ctx_height c' = ctx_height c ∧ ctx_time c' = ctx_time c.
Proof.
  intros Hst E Ec. pose proof (synced_coins_fit _ _ _ _ Hst E) as [Hfit Hval]. rw -Ec in Hfit Hval. destruct Hst as (Hs & Hden & Hsy & Hok).
  pose proof (synced_registered _ _ _ E (Hsy _ (Hok _ _ E))) as Hreg. rw -Ec in Hreg.
  assert (storable st acc) as Hso by (split; [by eapply Hok|done|by rw E]).
  destruct (SetAccount_ok_run clients vm_store acc_store ccsPerms own_perms admitted granted other_store own_store lcs_info lcs_balance
    acc caller c st Hs Hden Hso) as (c' & st' & Hrun & Hset & Hs' & (Hf & _)); [by rw E|].
  destruct (set_account_effect _ _ _ Hfit Hset) as (Ea & _ & Hcur & _).
  exists c', st'. split; [done|]. split; [|by split; [|apply Hf]]. split; [done|]. split; [by eapply same_currencies_denoms|]. split.
  - intros x Hx. destruct (decide (x = acc_GetAddress acc)) as [->|Hne]; [by eapply set_account_synced|]. eapply set_account_other; eauto.
  - intros x y. rw Ea. destruct (decide (acc_GetAddress acc = x)) as [<-|Hne]; [intros _; by eapply Hok|]. rw lookup_insert_ne; [apply Hok|done].
Qed.

Definition vmauth_keeper_laws : AuthKeeperLaws (AK := vmauth_keeper ccsPerms).
Proof.
  refine {| auth_addr := addr_ok; auth_map c m := ∃ st, vmauth_state c st ∧ as_accounts st = m |}.
  - intros c c' m E _ (st & (Hs & Hrest) & <-). exists st. split; [|done]. split; [|done]. by eapply vmauth_ext.
  - intros c m a acc (st & (Hs & _) & <-) E. rw -(ah_accounts _ _ _ _ _ Hs) in E. by eapply acc_read_address, E; apply Hs.
  - intros a caller c m (st & (Hs & Hden & Hsy & _) & <-) Ha.
    exact (GetAccount_synced clients vm_store acc_store ccsPerms own_perms admitted granted other_store own_store lcs_info lcs_balance a caller c st Hs Hden Ha (Hsy a Ha)).
  - intros acc old caller c m (st & Hst & <-) E Ec. destruct (vmauth_Set acc old caller c st Hst E Ec) as (c' & st' & Hrun & Hst' & Ea & Hht).
    exists c'. split; [exact Hrun|]. split; [by exists st'|done].
Defined.
End vmauth.

(** ** Accounts before and after *)

Definition is_module (acc : Account) : bool := match acc with Account_module _ _ _ => true | Account_base _ => false end.

(** An account keeps its kind, address, number and sequence, and its public key if it has
    one; a key it gets is of its address. *)
Record account_kept `{Crypto} (x y : Account) : Prop := {
  kept_kind : is_module y = is_module x;
  kept_address : acc_GetAddress y = acc_GetAddress x;
  kept_number : acc_GetAccountNumber y = acc_GetAccountNumber x;
  kept_sequence : acc_GetSequence y = acc_GetSequence x;
  kept_key : acc_GetPubKey y = acc_GetPubKey x ∨
    acc_GetPubKey x = None ∧ ∃ pk, acc_GetPubKey y = Some pk ∧ pk_Address pk = acc_GetAddress x;
}.
(** Accounts that appear are accounts of modules. *)
Definition accounts_kept `{Crypto} (m m' : gmap AccAddress Account) : Prop :=
  (∀ a x, m !! a = Some x → ∃ y, m' !! a = Some y ∧ account_kept x y) ∧
  ∀ a y, m !! a = None → m' !! a = Some y → is_module y = true.

#[export] Instance account_kept_preorder `{Crypto} : PreOrder account_kept.
Proof.
  split; [intros x; split; [done..|by left]|]. intros x y z [T1 A1 N1 S1 K1] [T2 A2 N2 S2 K2]. split; [congruence..|].
  destruct K1 as [E1|(E1 & pk & Ey & Ha)], K2 as [E2|(E2 & pk' & Ez & Ha')]; [left; congruence| |right|congruence].
  - right. split; [congruence|]. exists pk'. split; congruence.
  - split; [done|]. exists pk. split; congruence.
Qed.
Lemma account_kept_Coins `{Crypto} cs x : account_kept x (with_Coins cs x).
Proof. destruct x; split; by [|left]. Qed.

#[export] Instance accounts_kept_preorder `{Crypto} : PreOrder accounts_kept.
Proof.
  split; [intros m; split; [intros a x E; by exists x|congruence]|]. intros m1 m2 m3 [K1 N1] [K2 N2]. split.
  - intros a x E. destruct (K1 a x E) as (y & Ey & Hxy). destruct (K2 a y Ey) as (z & Ez & Hyz). exists z. split; [done|by trans y].
  - intros a z E Ez. destruct (m2 !! a) as [y|] eqn:Ey; [|by eapply N2]. destruct (K2 a y Ey) as (z' & E' & Hk). rw Ez in E'.
    injection E' as <-. rw (kept_kind _ _ Hk). by eapply N1.
Qed.
Lemma accounts_kept_insert `{Crypto} m a x y : m !! a = Some x → account_kept x y → accounts_kept m (<[a := y]> m).
Proof.
  intros E Hxy. split.
  - intros b z Ez. destruct (decide (a = b)) as [<-|Hne]; [|by exists z; rw lookup_insert_ne].
    rw lookup_insert_eq. exists y. split; [done|congruence].
  - intros b z Eb. destruct (decide (a = b)) as [<-|Hne]; [congruence|]. rw lookup_insert_ne; [congruence|done].
Qed.

(** ** Bodies that go on *)
Section goes.
Context `{KV : KVStore} `{LG : Ledger} {G : Type} `{TG : !TxGas G} {Tx VoteInfo DecCoins : Type}.
Context `{AKL : AuthKeeperLaws} `{FC : FeeCoins} `{CR : Crypto} `{AA : AuthAccounts} `{AAL : !AuthAccountsLaws}.
Notation Context := (Context (G := G) (VoteInfo := VoteInfo) (DecCoins := DecCoins)).
Notation AnteHandler := (AnteHandler (G := G) (Tx := Tx) (VoteInfo := VoteInfo) (DecCoins := DecCoins)).
Notation D := (D (G := G) (VoteInfo := VoteInfo) (DecCoins := DecCoins)).
Implicit Types (cx : Context) (m : gmap AccAddress Account) (h : Header).

Definition goes {A} (b : D A) cx (P : A → Context → Prop) : Prop := ∀ a cx', b cx = (Goes a, cx') → P a cx'.

Lemma goes_ret {A} (a : A) cx (P : A → Context → Prop) : P a cx → goes (mret a) cx P.
Proof. by intros HP b cx' [= <- <-]. Qed.
Lemma goes_bind {A B} (b : D A) (f : A → D B) cx (P : B → Context → Prop) : goes b cx (λ a cx', goes (f a) cx' P) → goes (b ≫= f) cx P.
Proof.
  intros Hb x cx' E. unfold mbind, D_bind in E. destruct (b cx) as [[a|e|p] cx1] eqn:Eb; [|done..]. by apply (Hb a cx1 Eb).
Qed.
Lemma goes_mono {A} (b : D A) cx (P Q : A → Context → Prop) : goes b cx P → (∀ a cx', P a cx' → Q a cx') → goes b cx Q.
Proof. intros Hb HPQ a cx' E. by apply HPQ, Hb. Qed.
Lemma goes_fail {A} e cx (P : A → Context → Prop) : goes (fail_with e) cx P.
Proof. by intros a cx'. Qed.
Lemma goes_crash {A} cx (P : A → Context → Prop) : goes crash cx P.
Proof. by intros a cx'. Qed.
Lemma goes_call {A} (b : M A) cx (P : A → Context → Prop) :
  (∀ a c, b "core" (cx_Ctx cx) = (Ok a, c) → P a (WithCtx cx c)) → goes (call b) cx P.
Proof. intros HP a cx' E. unfold call in E. destruct (b "core" (cx_Ctx cx)) as [[x|e|] c]; [|done..]. injection E as <- <-. by apply HP. Qed.
Lemma goes_meter {A} (f : G → step_result A * G) cx (P : A → Context → Prop) :
  (∀ a g, P a (WithMeters cx g (cx_BlockGasMeter cx))) → goes (with_meter f) cx P.
Proof. intros HP a cx' E. unfold with_meter in E. destruct (f (cx_GasMeter cx)) as [r g]. injection E as -> <-. apply HP. Qed.
Lemma goes_view {A} (o : option A) cx (P : A → Context → Prop) : (∀ a, o = Some a → P a cx) → goes (view o) cx P.
Proof. intros HP. destruct o as [a|]; [by apply goes_ret, HP|apply goes_fail]. Qed.
Lemma goes_at {A} (l : list A) i cx (P : A → Context → Prop) : (∀ a, l !! i = Some a → P a cx) → goes (at_index l i) cx P.
Proof. intros HP. unfold at_index. destruct (l !! i) as [a|]; [by apply goes_ret, HP|apply goes_crash]. Qed.
Lemma goes_range {A} (f : nat → A → D unit) (I : nat → Context → Prop) i l cx : I i cx →
  (∀ j x cx, l !! j = Some x → I (i + j)%nat cx → goes (f (i + j)%nat x) cx (λ _, I (S (i + j)))) →
  goes (for_range f i l) cx (λ _, I (i + length l)%nat).
Proof.
  revert i cx. induction l as [|x l IH]; intros i cx Hi Hf; cbn [for_range length].
  { apply goes_ret. by rw Nat.add_0_r. }
  apply goes_bind. eapply goes_mono; [rw -{1}(Nat.add_0_r i); apply (Hf 0%nat x cx eq_refl); by rw Nat.add_0_r|].
  intros a cx' Hi'. cbn beta in Hi'. rw Nat.add_0_r in Hi'. replace (i + S (length l))%nat with (S i + length l)%nat by lia.
  apply IH; [done|]. intros j y cx2 Hj Hij. replace (S i + j)%nat with (i + S j)%nat in * by lia. by apply Hf.
Qed.

(** The accounts, the header and whether the transaction is rechecked. *)
Record holds h (r : bool) m cx : Prop := {
  ho_map : auth_map (cx_Ctx cx) m;
  ho_header : cx_BlockHeader cx = h;
  ho_recheck : cx_IsReCheckTx cx = r;
}.
Lemma holds_meters h r m cx g b : holds h r m cx → holds h r m (WithMeters cx g b).
Proof. by intros [? ? ?]. Qed.
Lemma holds_stores h r m cx cx' : holds h r m cx → cx_MultiStore cx' = cx_MultiStore cx → cx_BlockHeader cx' = cx_BlockHeader cx →
  cx_IsReCheckTx cx' = cx_IsReCheckTx cx → holds h r m cx'.
Proof.
  intros [Hm <- <-] Es Eh Er. split; [|done..]. unfold cx_MultiStore in Es. injection Es as E1 E2. by eapply auth_map_ext.
Qed.
Lemma holds_set h r m cx c m' : holds h r m cx → auth_map c m' → ctx_height c = ctx_height (cx_Ctx cx) → ctx_time c = ctx_time (cx_Ctx cx) →
  holds h r m' (WithCtx cx c).
Proof. intros [_ <- <-] Hm Eh Et. split; [done| |done]. unfold cx_BlockHeader, WithCtx. simpl. by rw Eh Et. Qed.
Lemma goes_GetAccount h r m cx a (P : option Account → Context → Prop) : holds h r m cx → auth_addr a →
  (∀ cx', holds h r m cx' → P (m !! a) cx') → goes (call (auth_GetAccount a)) cx P.
Proof.
  intros Hh Ha HP. apply goes_call. intros o c E. rw (auth_Get a _ _ m) in E; [|apply Hh|done]. injection E as <- <-. apply HP.
  by eapply holds_set; [|apply Hh|..].
Qed.
Lemma goes_GetSignerAcc h r m cx a (P : Account → Context → Prop) : holds h r m cx → auth_addr a →
  (∀ acc cx', m !! a = Some acc → holds h r m cx' → P acc cx') → goes (GetSignerAcc a) cx P.
Proof.
  intros Hh Ha HP. apply goes_bind. eapply goes_GetAccount; [done..|]. intros cx' Hh'.
  destruct (m !! a) as [acc|]; [by apply goes_ret, HP|apply goes_fail].
Qed.
Lemma goes_SetAccount h r m cx acc old (P : unit → Context → Prop) : holds h r m cx → m !! acc_GetAddress acc = Some old →
  acc_GetCoins acc = acc_GetCoins old → (∀ cx', holds h r (<[acc_GetAddress acc := acc]> m) cx' → P tt cx') →
  goes (call (auth_SetAccount acc)) cx P.
Proof.
  intros Hh E Ec HP. apply goes_call. intros [] c Hc. destruct (auth_Set acc old "core" _ m (ho_map _ _ _ _ Hh) E Ec) as (c' & E' & Hm & Eh & Et).
  rw E' in Hc. injection Hc as <-. apply HP. by eapply holds_set.
Qed.

(** A decorator that goes on. *)
Lemma decorator_goes (body : Tx → bool → D unit) next cx tx simulate new after :
  decorator body next cx tx simulate = (AnteReturns new None, after) →
  ∃ cx', body tx simulate cx = (Goes tt, cx') ∧ next cx' tx simulate = (AnteReturns new None, after).
Proof. unfold decorator. destruct (body tx simulate cx) as [[[]|e|p] cx']; [|done..]. by exists cx'. Qed.
Lemma decorator_step (body : Tx → bool → D unit) next cx tx simulate new after (P : Context → Prop) :
  decorator body next cx tx simulate = (AnteReturns new None, after) → goes (body tx simulate) cx (λ _, P) →
  ∃ cx', P cx' ∧ next cx' tx simulate = (AnteReturns new None, after).
Proof. intros (cx' & Eb & En)%decorator_goes Hg. exists cx'. split; [by apply (Hg tt)|done]. Qed.
End goes.

(** ** The ante handler: the decorators, one by one

    [AnteSdkLaws] is what is assumed of the SDK's decorators and keepers.  A lemma per
    decorator says what the accounts are when the next handler is called. *)
Local Open Scope string_scope.
Local Open Scope Z_scope.
Local Open Scope list_scope.
Import baseapp core.

(** ** What is assumed of the SDK *)
Section laws.
Context `{KV : KVStore} `{LG : Ledger} {G : Type} `{TG : !TxGas G} {Tx VoteInfo DecCoins : Type}.
Context `{AKL : AuthKeeperLaws}.
Notation Context := (Context (G := G) (VoteInfo := VoteInfo) (DecCoins := DecCoins)).
Notation AnteHandler := (AnteHandler (G := G) (Tx := Tx) (VoteInfo := VoteInfo) (DecCoins := DecCoins)).

(** A decorator that only looks: when it accepts, the next handler did, on the same
    stores and in the same block, and the stores are what that made of them. *)
Definition passes (d : AnteHandler → AnteHandler) : Prop := ∀ next cx tx simulate new after,
  d next cx tx simulate = (AnteReturns new None, after) →
  ∃ cx' new' after', next cx' tx simulate = (AnteReturns new' None, after') ∧ cx_MultiStore cx' = cx_MultiStore cx ∧
    cx_BlockHeader cx' = cx_BlockHeader cx ∧ cx_IsReCheckTx cx' = cx_IsReCheckTx cx ∧ cx_MultiStore after = cx_MultiStore after'.

Class AnteSdkLaws `{SK : !AnteSdk (G := G) (Tx := Tx) (VoteInfo := VoteInfo) (DecCoins := DecCoins)} : Prop := {
  sdk_passes : Forall passes [SetUpContextDecorator; MempoolFeeDecorator; ValidateBasicDecorator; ValidateMemoDecorator; ValidateSigCountDecorator];
  SetGasMeter_ok cx n : 0 < hd_Height (cx_BlockHeader cx) → SetGasMeter false cx n = WithMeters cx (NewGasMeter n) (cx_BlockGasMeter cx);
  GetParams_reads caller c : (ak_GetParams caller c).2 = c;
  (** The fee is taken from coins; the account of the collector may be created. *)
  DeductFees_ok acc fees caller c c' m : auth_map c m → m !! acc_GetAddress acc = Some acc → DeductFees acc fees caller c = (Ok tt, c') →
    ∃ m', auth_map c' m' ∧ ctx_height c' = ctx_height c ∧ ctx_time c' = ctx_time c ∧
      (∀ a x, m !! a = Some x → ∃ cs, m' !! a = Some (with_Coins cs x)) ∧
      (∀ a y, m !! a = None → m' !! a = Some y → is_module y = true);
  (** The bytes to sign depend on the chain, whether this is the genesis block, and the
      account's number and sequence. *)
  GetSignBytes_ok tx sigTx cx cx' acc acc' : as_SigVerifiableTx tx = Some sigTx →
    hd_ChainID (cx_BlockHeader cx) = hd_ChainID (cx_BlockHeader cx') →
    (hd_Height (cx_BlockHeader cx) = 0 ↔ hd_Height (cx_BlockHeader cx') = 0) →
    acc_GetAccountNumber acc = acc_GetAccountNumber acc' → acc_GetSequence acc = acc_GetSequence acc' →
    GetSignBytes sigTx cx acc = GetSignBytes sigTx cx' acc';
}.
End laws.

Section theorems.
Context `{KV : KVStore} `{LG : Ledger} {G : Type} `{TG : !TxGas G} {Tx VoteInfo DecCoins : Type}.
Context `{AKL : AuthKeeperLaws} `{FC : FeeCoins} `{CR : Crypto} `{AA : AuthAccounts} `{AAL : !AuthAccountsLaws}.
Context `{SK : !AnteSdk (G := G) (Tx := Tx) (VoteInfo := VoteInfo) (DecCoins := DecCoins)} `{SKL : !AnteSdkLaws}.
Notation Context := (Context (G := G) (VoteInfo := VoteInfo) (DecCoins := DecCoins)).
Notation AnteHandler := (AnteHandler (G := G) (Tx := Tx) (VoteInfo := VoteInfo) (DecCoins := DecCoins)).
Notation D := (D (G := G) (VoteInfo := VoteInfo) (DecCoins := DecCoins)).
Notation SigVerifiableTx := (SigVerifiableTx (G := G) (VoteInfo := VoteInfo) (DecCoins := DecCoins)).
Implicit Types (cx : Context) (m : gmap AccAddress Account) (h : Header) (sigTx : SigVerifiableTx) (tx : Tx).
Variable sigGasConsumer : SignatureVerificationGasConsumer (G := G).

(** ** The decorators, one by one *)

(** A handler accepts the transaction and leaves the stores of [after]. *)
Definition accepts (ah : AnteHandler) cx tx (after : Context) : Prop :=
  ∃ new after', ah cx tx false = (AnteReturns new None, after') ∧ cx_MultiStore after = cx_MultiStore after'.

Lemma accepts_decorator (body : Tx → bool → D unit) next cx tx after (P : Context → Prop) :
  accepts (decorator body next) cx tx after → goes (body tx false) cx (λ _, P) → ∃ cx', P cx' ∧ accepts next cx' tx after.
Proof. intros (new & after' & E & Ea) Hg. destruct (decorator_step _ _ _ _ _ _ _ P E Hg) as (cx' & HP & En). exists cx'. split; [done|]. by exists new, after'. Qed.
Lemma accepts_passes d next h r m cx tx after : passes d → accepts (d next) cx tx after → holds h r m cx →
  ∃ cx', holds h r m cx' ∧ accepts next cx' tx after.
Proof.
  intros Hd (new & after' & E & Ea) Hh. destruct (Hd _ _ _ _ _ _ E) as (cx' & new' & after2 & En & Es & Eh & Er & Ea2).
  exists cx'. split; [by eapply holds_stores|]. exists new', after2. split; [done|congruence].
Qed.
Lemma GetParams_goes h r m cx (P : Params → Context → Prop) : holds h r m cx → (∀ p cx', holds h r m cx' → P p cx') → goes (call ak_GetParams) cx P.
Proof.
  intros Hh HP. apply goes_call. intros p c E. pose proof (GetParams_reads "core" (cx_Ctx cx)) as Ec. rw E in Ec. cbn in Ec. subst c.
  apply HP. by eapply holds_set; [|apply Hh|..].
Qed.
Lemma consume_goes h r m cx gas : holds h r m cx → goes (consume gas) cx (λ _, holds h r m).
Proof. intros Hh. apply goes_meter. intros a g. by apply holds_meters. Qed.

Lemma size_step next h r m cx tx after : accepts (ConsumeTxSizeGasDecorator next) cx tx after → holds h r m cx →
  ∃ cx', holds h r m cx' ∧ accepts next cx' tx after.
Proof.
  intros Hacc Hh. apply (accepts_decorator _ _ _ _ _ _ Hacc). apply goes_bind, goes_view. intros sigTx _. apply goes_bind.
  apply (GetParams_goes h r m); [done|]. clear cx Hh Hacc. intros p cx Hh.
  apply goes_bind. intros _ cx' [= <- <-]. apply goes_bind. eapply goes_mono; [by apply consume_goes|]. intros ? cx' Hh'. by apply goes_ret.
Qed.

(** A public key that is set. *)
Lemma set_pubkey_goes h r m cx signers i pk : holds h r m cx → Forall auth_addr signers →
  goes (set_pubkey false signers i pk) cx (λ _ cx', ∃ m', holds h r m' cx' ∧ accounts_kept m m').
Proof.
  intros Hh Hok. unfold set_pubkey. destruct pk as [pk|]; [|apply goes_ret; by exists m]. cbn [negb].
  apply goes_bind. eapply (goes_mono _ _ (λ _ cx', cx' = cx ∧ signers !! i = Some (pk_Address pk))).
  { apply goes_bind, goes_at. intros signer E. destruct (decide (pk_Address pk = signer)) as [->|]; [by apply goes_ret|apply goes_fail]. }
  intros ? cx1 [-> E]. apply goes_bind, goes_at. intros signer E'. assert (signer = pk_Address pk) as -> by congruence.
  apply goes_bind. eapply goes_GetSignerAcc; [done|by eapply Forall_lookup_1|]. clear cx Hh. intros acc cx Ea Hh.
  pose proof (auth_map_address _ _ _ _ (ho_map _ _ _ _ Hh) Ea) as Haddr.
  destruct (acc_GetPubKey acc) eqn:Ek; [apply goes_ret; by exists m|]. destruct acc as [b|b n ps].
  - rw SetPubKey_base. assert (acc_GetAddress (with_PubKey (Some pk) (Account_base b)) = pk_Address pk) as Haddr' by exact Haddr.
    eapply goes_SetAccount; [done|by rw Haddr'|done|]. intros cx' Hh'. eexists. split; [exact Hh'|]. rw Haddr'.
    eapply accounts_kept_insert; [done|]. split; try done. right. split; [done|]. exists pk. by split.
  - destruct (SetPubKey_module b n ps pk) as [e ->]. apply goes_fail.
Qed.
Lemma SetPubKey_step next h r m cx tx after sigTx : accepts (SetPubKeyDecorator next) cx tx after → holds h r m cx →
  as_SigVerifiableTx tx = Some sigTx → Forall auth_addr (GetSigners sigTx) →
  ∃ cx' m', holds h r m' cx' ∧ accounts_kept m m' ∧ accepts next cx' tx after.
Proof.
  intros Hacc Hh E Hok. destruct (accepts_decorator _ _ _ _ _ (λ cx', ∃ m', holds h r m' cx' ∧ accounts_kept m m') Hacc) as (cx' & (m' & ? & ?) & ?);
    [|by exists cx', m'].
  apply goes_bind, goes_view. intros sigTx' E'. rw E in E'. injection E' as <-.
  apply (goes_range _ (λ _ cx', ∃ m', holds h r m' cx' ∧ accounts_kept m m')); [by exists m|].
  intros j pk cx1 _ (m1 & Hh1 & Hk1). eapply goes_mono; [by apply set_pubkey_goes|]. intros ? cx2 (m2 & Hh2 & Hk2). exists m2.
  split; [done|by trans m1].
Qed.

(** The fee. *)
Lemma DeductFee_step next h r m cx tx after feeTx : accepts (DeductFeeDecorator next) cx tx after → holds h r m cx →
  as_FeeTx tx = Some feeTx → auth_addr (FeePayer feeTx) →
  ∃ cx' m', holds h r m' cx' ∧ accounts_kept m m' ∧ accepts next cx' tx after.
Proof.
  intros Hacc Hh E Hok. destruct (accepts_decorator _ _ _ _ _ (λ cx', ∃ m', holds h r m' cx' ∧ accounts_kept m m') Hacc) as (cx' & (m' & ? & ?) & ?);
    [|by exists cx', m']. clear Hacc.
  apply goes_bind, goes_view. intros feeTx' E'. rw E in E'. injection E' as <-. destruct FeeCollector; [|apply goes_crash].
  apply goes_bind. eapply goes_GetAccount; [done|done|]. clear cx Hh. intros cx Hh. destruct (m !! FeePayer feeTx) as [acc|] eqn:Ea; [|apply goes_fail].
  destruct (Coins_IsZero _); [apply goes_ret; by exists m|]. apply goes_call. intros [] c Ec.
  pose proof (auth_map_address _ _ _ _ (ho_map _ _ _ _ Hh) Ea) as Haddr. rw -Haddr in Ea.
  destruct (DeductFees_ok _ _ _ _ _ m (ho_map _ _ _ _ Hh) Ea Ec) as (m' & Hm & Eh & Et & Hkept & Hnew). exists m'.
  split; [by eapply holds_set|]. split; [|done]. intros a x Ex. destruct (Hkept a x Ex) as [cs Ecs]. eexists. split; [done|apply account_kept_Coins].
Qed.

(** The gas of the signatures. *)
Lemma SigGas_step next h r m cx tx after sigTx : accepts (SigGasConsumeDecorator sigGasConsumer next) cx tx after → holds h r m cx →
  as_SigVerifiableTx tx = Some sigTx → Forall auth_addr (GetSigners sigTx) →
  ∃ cx', holds h r m cx' ∧ accepts next cx' tx after.
Proof.
  intros Hacc Hh E Hok. apply (accepts_decorator _ _ _ _ _ _ Hacc). clear Hacc. apply goes_bind, goes_view. intros sigTx' E'. rw E in E'. injection E' as <-.
  apply goes_bind. apply (GetParams_goes h r m); [done|]. clear cx Hh. intros p cx Hh.
  apply (goes_range _ (λ _, holds h r m)); [done|]. intros j sig cx1 _ Hh1. apply goes_bind, goes_at. intros signer Es.
  apply goes_bind. eapply goes_GetSignerAcc; [done|by eapply Forall_lookup_1|]. clear cx1 Hh1. intros acc cx1 _ Hh1.
  apply goes_meter. intros ? g. by apply holds_meters.
Qed.

(** The signature [sig] is of the signer at [i], whose account is in [m]. *)
Definition signed h m sigTx (cx : Context) (i : nat) (sig : option string) : Prop :=
  ∃ signer acc pk, GetSigners sigTx !! i = Some signer ∧ m !! signer = Some acc ∧ acc_GetPubKey acc = Some pk ∧
    VerifyBytes pk (GetSignBytes sigTx cx acc) sig = true.

Lemma SigVerification_step next h m cx tx after sigTx : accepts (SigVerificationDecorator next) cx tx after → holds h false m cx →
  as_SigVerifiableTx tx = Some sigTx → Forall auth_addr (GetSigners sigTx) →
  ∃ cx', holds h false m cx' ∧ length (GetSignatures sigTx) = length (GetSigners sigTx) ∧
    (∀ i sig, GetSignatures sigTx !! i = Some sig → signed h m sigTx cx i sig) ∧ accepts next cx' tx after.
Proof.
  intros Hacc Hh E Hok.
  destruct (accepts_decorator _ _ _ _ _ (λ cx', holds h false m cx' ∧ length (GetSignatures sigTx) = length (GetSigners sigTx) ∧
    ∀ i sig, (i < length (GetSignatures sigTx))%nat → GetSignatures sigTx !! i = Some sig → signed h m sigTx cx i sig) Hacc) as (cx' & (Hh' & El & Hs) & Hn).
  2:{ exists cx'. split; [done|]. split; [done|]. split; [|done]. intros i sig Hi. apply Hs; [by eapply lookup_lt_Some|done]. }
  apply goes_bind. intros ? cx' [= <- <-]. rw (ho_recheck _ _ _ _ Hh). apply goes_bind, goes_view. intros sigTx' E'. rw E in E'. injection E' as <-.
  destruct (decide _) as [El|]; [|apply goes_fail].
  eapply goes_mono.
  - apply (goes_range _ (λ i cx', holds h false m cx' ∧ ∀ j sig, (j < i)%nat → GetSignatures sigTx !! j = Some sig → signed h m sigTx cx j sig));
      [split; [done|lia]|].
    intros j sig cx1 Ej [Hh1 Hs]. apply goes_bind, goes_at. intros signer Es. apply goes_bind.
    eapply goes_GetSignerAcc; [done|by eapply Forall_lookup_1|]. clear cx1 Hh1. intros acc cx1 Ea Hh1.
    apply goes_bind. intros ? cx2 [= <- <-]. cbv zeta. destruct (acc_GetPubKey acc) as [pk|] eqn:Ek; [|apply goes_fail].
    destruct (VerifyBytes _ _ _) eqn:Ev; [|apply goes_fail]. apply goes_ret. split; [done|]. intros k sig' Hk Ek'.
    destruct (decide (k = j)) as [->|]; [|apply Hs; [cbn in *; lia|done]]. assert (sig' = sig) as -> by (cbn in *; congruence). exists signer, acc, pk.
    split; [done|]. split; [done|]. split; [done|]. rw -Ev.
    assert (cx_BlockHeader cx = cx_BlockHeader cx1) as Eh by (rw (ho_header _ _ _ _ Hh); symmetry; apply Hh1).
    f_equal. eapply GetSignBytes_ok; [done|by rw Eh..|done|done].
  - intros ? cx' [Hh' Hs]. split; [done|]. split; [done|]. intros i sig Hi. by apply Hs.
Qed.

(** *** Sequences *)
Definition bump (acc : Account) : Account := with_Sequence (wrap64 (acc_GetSequence acc + 1)) acc.

Definition bumped m m' (signers : list AccAddress) : Prop :=
  (∀ a, m' !! a = if decide (a ∈ signers) then bump <$> m !! a else m !! a) ∧
  ∀ a, a ∈ signers → ∃ x, m !! a = Some x ∧ is_module x = false.

Lemma IncrementSequence_step next h r m cx tx after sigTx : accepts (IncrementSequenceDecorator next) cx tx after → holds h r m cx →
  as_SigVerifiableTx tx = Some sigTx → Forall auth_addr (GetSigners sigTx) → NoDup (GetSigners sigTx) →
  ∃ cx' m', holds h r m' cx' ∧ bumped m m' (GetSigners sigTx) ∧ accepts next cx' tx after.
Proof.
  intros Hacc Hh E Hok Hnd. set (signers := GetSigners sigTx) in *.
  destruct (accepts_decorator _ _ _ _ _ (λ cx', ∃ m', holds h r m' cx' ∧ bumped m m' (take (length signers) signers)) Hacc) as (cx' & (m' & ? & Hb) & ?);
    [|exists cx', m'; by rw firstn_all in Hb].
  apply goes_bind, goes_view. intros sigTx' E'. rw E in E'. injection E' as <-. fold signers.
  refine (goes_range _ (λ i cx', ∃ m', holds h r m' cx' ∧ bumped m m' (take i signers)) 0 signers cx _ _).
  { exists m. split; [done|]. split; [intros a; destruct (decide _) as [Ha|]; [by apply elem_of_nil in Ha|done]|intros a Ha; by apply elem_of_nil in Ha]. }
  cbn [Nat.add]. intros j a cx1 Ej (m1 & Hh1 & Hb & Hin). apply goes_bind.
  eapply goes_GetAccount; [done|by eapply Forall_lookup_1|]. clear cx1 Hh1. intros cx1 Hh1. destruct (m1 !! a) as [acc|] eqn:Ea; [|apply goes_crash].
  assert (a ∉ take j signers) as Hnin.
  { intros (k & Hk & Hlt)%elem_of_take. assert (k = j) by (by eapply (NoDup_lookup signers)). lia. }
  assert (m !! a = Some acc) as Em by (by rw -Ea Hb decide_False).
  pose proof (auth_map_address _ _ _ _ (ho_map _ _ _ _ Hh1) Ea) as Haddr. destruct acc as [b|b n ps].
  - rw SetSequence_base. assert (acc_GetAddress (bump (Account_base b)) = a) as Haddr' by exact Haddr.
    eapply goes_SetAccount; [done|by rw Haddr'|done|]. intros cx' Hh'. eexists. split; [exact Hh'|]. rw Haddr'. rw (take_S_r _ _ _ Ej). split.
    + intros x. destruct (decide (x = a)) as [->|Hne].
      * rw lookup_insert_eq decide_True; [|set_solver]. by rw Em.
      * rw lookup_insert_ne; [|done]. rw Hb. destruct (decide (x ∈ take j signers)); [rw decide_True; [done|set_solver]|rw decide_False; [done|set_solver]].
    + intros x [Hx| ->%list_elem_of_singleton]%elem_of_app; [by apply Hin|by eexists].
  - destruct (SetSequence_module b n ps (wrap64 (acc_GetSequence (Account_module b n ps) + 1))) as [e ->]. by intros ? ?.
Qed.
End theorems.
