(* ===== verification/AnteTheorems.v ===== *)
(** * The ante handler: who may send a transaction

    Transactions without a fee in the staking coin go no further and leave no trace; an
    accepted one has a valid signature of every signer, whose sequence went up; it is
    not accepted again. *)
From S2P Require Import Prelude Bytes Sdk SdkFacts DnTypes Perms Chain SdkBank VmEvents SdkAuth Abci BaseApp BaseAppTheorems Ante AnteFacts.
Local Open Scope string_scope.
Local Open Scope Z_scope.
Local Open Scope list_scope.
Import baseapp core.

Section theorems.
Context `{KV : KVStore} `{LG : Ledger} {G : Type} `{TG : !TxGas G} {Tx VoteInfo DecCoins : Type}.
Context `{AKL : AuthKeeperLaws} `{FC : FeeCoins} `{CR : Crypto} `{AA : AuthAccounts} `{AAL : !AuthAccountsLaws}.
Context `{SK : !AnteSdk (G := G) (Tx := Tx) (VoteInfo := VoteInfo) (DecCoins := DecCoins)} `{SKL : !AnteSdkLaws}.
Notation Context := (Context (G := G) (VoteInfo := VoteInfo) (DecCoins := DecCoins)).
Notation AnteHandler := (AnteHandler (G := G) (Tx := Tx) (VoteInfo := VoteInfo) (DecCoins := DecCoins)).
Notation SigVerifiableTx := (SigVerifiableTx (G := G) (VoteInfo := VoteInfo) (DecCoins := DecCoins)).
Implicit Types (cx : Context) (m : gmap AccAddress Account) (h : Header) (sigTx : SigVerifiableTx) (tx : Tx).
Variable sigGasConsumer : SignatureVerificationGasConsumer (G := G).
Notation NewAnteHandler := (NewAnteHandler sigGasConsumer).

(** ** Accepted transactions *)

(** The addresses of a transaction are ones the keeper knows how to look up, and no
    signer is listed twice. *)
Record well_formed tx sigTx : Prop := {
  wf_view : as_SigVerifiableTx tx = Some sigTx;
  wf_signers : Forall auth_addr (GetSigners sigTx);
  wf_distinct : NoDup (GetSigners sigTx);
  wf_payer : ∃ feeTx, as_FeeTx tx = Some feeTx ∧ auth_addr (FeePayer feeTx);
}.

(** The public key the account of a signer verifies with: its own, or the first one
    given, which must be of its address. *)
Definition key_of (signer : AccAddress) (acc : Account) (pk : PubKey) : Prop :=
  acc_GetPubKey acc = Some pk ∨ acc_GetPubKey acc = None ∧ pk_Address pk = signer.

(** What an accepted transaction is and does. *)
Record accepted_with cx m m' sigTx : Prop := {
  aw_length : length (GetSignatures sigTx) = length (GetSigners sigTx);
  aw_signed i signer sig : GetSigners sigTx !! i = Some signer → GetSignatures sigTx !! i = Some sig →
    ∃ x y pk, m !! signer = Some x ∧ m' !! signer = Some y ∧ key_of signer x pk ∧ acc_GetPubKey y = Some pk ∧
      VerifyBytes pk (GetSignBytes sigTx cx x) sig = true ∧
      acc_GetAccountNumber y = acc_GetAccountNumber x ∧ acc_GetSequence y = wrap64 (acc_GetSequence x + 1);
  aw_others a x : a ∉ GetSigners sigTx → m !! a = Some x → ∃ y, m' !! a = Some y ∧ account_kept x y;
}.

Lemma bump_fields x : acc_GetPubKey (bump x) = acc_GetPubKey x ∧ acc_GetAccountNumber (bump x) = acc_GetAccountNumber x ∧
  acc_GetSequence (bump x) = wrap64 (acc_GetSequence x + 1).
Proof. by destruct x. Qed.

Lemma accepted_run cx m tx sigTx after : auth_map (cx_Ctx cx) m → cx_IsReCheckTx cx = false → well_formed tx sigTx →
  accepts NewAnteHandler cx tx after → ∃ m', auth_map (cx_Ctx after) m' ∧ accepted_with cx m m' sigTx.
Proof.
  intros Hm Hr [Hview Hok Hnd (feeTx & Hfee & Hpayer)] Hacc. assert (holds (cx_BlockHeader cx) false m cx) as Hh by done.
  pose proof sdk_passes as Hp. rewrite !Forall_cons in Hp. destruct Hp as (P1 & P2 & P3 & P4 & P5 & _).
  unfold core.NewAnteHandler, ChainAnteDecorators in Hacc. cbn [foldr] in Hacc. set (h := cx_BlockHeader cx) in *.
  set (inner := SetUpContextDecorator _) in Hacc. assert (accepts inner cx tx after) as Hacc1.
  { destruct Hacc as (new & after' & E & Ea). exists new, after'. split; [|done]. unfold DenomDecorator in E.
    destruct (as_StdTx tx); [|done]. destruct (0 <? _); [|done]. destruct (Coins_IsZero _); [done|]. by destruct (Coins_DenomsSubsetOf _ _). }
  clear Hacc. unfold inner in Hacc1. clear inner.
  destruct (accepts_passes _ _ _ _ _ _ _ _ P1 Hacc1 Hh) as (cx1 & Hh1 & Hacc2). destruct (accepts_passes _ _ _ _ _ _ _ _ P2 Hacc2 Hh1) as (cx2 & Hh2 & Hacc3).
  destruct (accepts_passes _ _ _ _ _ _ _ _ P3 Hacc3 Hh2) as (cx3 & Hh3 & Hacc4). destruct (accepts_passes _ _ _ _ _ _ _ _ P4 Hacc4 Hh3) as (cx4 & Hh4 & Hacc5).
  destruct (size_step _ _ _ _ _ _ _ Hacc5 Hh4) as (cx5 & Hh5 & Hacc6).
  destruct (SetPubKey_step _ _ _ _ _ _ _ _ Hacc6 Hh5 Hview Hok) as (cx6 & m6 & Hh6 & K6 & Hacc7).
  destruct (accepts_passes _ _ _ _ _ _ _ _ P5 Hacc7 Hh6) as (cx7 & Hh7 & Hacc8).
  destruct (DeductFee_step _ _ _ _ _ _ _ _ Hacc8 Hh7 Hfee Hpayer) as (cx8 & m8 & Hh8 & K8 & Hacc9).
  destruct (SigGas_step _ _ _ _ _ _ _ _ _ Hacc9 Hh8 Hview Hok) as (cx9 & Hh9 & Hacc10).
  destruct (SigVerification_step _ _ _ _ _ _ _ Hacc10 Hh9 Hview Hok) as (cx10 & Hh10 & El & Hs & Hacc11).
  destruct (IncrementSequence_step _ _ _ _ _ _ _ _ Hacc11 Hh10 Hview Hok Hnd) as (cx11 & m11 & Hh11 & [Hb Hbase] & (new & after' & E & Ea)).
  injection E as _ <-. exists m11. split.
  { unfold cx_MultiStore in Ea. injection Ea as E1 E2. by eapply auth_map_ext; [..|apply Hh11]. }
  assert (accounts_kept m m8) as [Hkept Hnew] by (by trans m6). split; [done|..].
  - intros i signer sig Esigner Esig. destruct (Hs i sig Esig) as (signer' & acc & pk & E' & Eacc & Epk & Hv).
    assert (signer' = signer) as -> by congruence. assert (signer ∈ GetSigners sigTx) as Hin by (by eapply list_elem_of_lookup_2).
    destruct (Hbase _ Hin) as (acc' & E2 & Hmod). assert (acc' = acc) as -> by congruence.
    destruct (m !! signer) as [x|] eqn:Ex; [|specialize (Hnew _ _ Ex Eacc); congruence].
    destruct (Hkept _ _ Ex) as (y & Ey & [_ Ka Kn Ks Kk]). assert (y = acc) as -> by congruence. destruct (bump_fields acc) as (B1 & B2 & B3).
    exists x, (bump acc), pk. split; [done|]. split; [rw Hb decide_True; [by rw Eacc|done]|]. split.
    { destruct Kk as [Kk|(Ek & pk' & Ek' & Ha)]; [left; congruence|right]. split; [done|].
      rw (auth_map_address _ _ _ _ Hm Ex) in Ha. congruence. }
    split; [congruence|]. split; [|split; congruence]. rw -Hv. f_equal.
    assert (cx_BlockHeader cx = cx_BlockHeader cx9) as Eh by (symmetry; apply Hh9). eapply GetSignBytes_ok; [done|by rw Eh..|done|done].
  - intros a x Hn Ex. rw Hb decide_False; [|done]. by apply Hkept.
Qed.

(** C37: an accepted transaction, outside of rechecks and simulations, is signed by every
    signer: there are as many signatures as signers, and each verifies the bytes the
    account signs with the key of the account, or with a first key that is of its
    address.  The keys are stored and the sequences of the signers go up by one; no
    other account changes but in its coins and a first key. *)
Theorem accepted_transactions_are_signed cx m tx sigTx new after :
  auth_map (cx_Ctx cx) m → cx_IsReCheckTx cx = false → well_formed tx sigTx →
  NewAnteHandler cx tx false = (AnteReturns new None, after) →
  ∃ m', auth_map (cx_Ctx after) m' ∧ accepted_with cx m m' sigTx.
Proof. intros Hm Hr Hwf E. apply (accepted_run cx m tx sigTx after Hm Hr Hwf). by exists new, after. Qed.

(** No signature of the transaction is good for two sequences. *)
Definition signs_once sigTx : Prop := ∀ pk sig cx cx' acc acc', sig ∈ GetSignatures sigTx →
  VerifyBytes pk (GetSignBytes sigTx cx acc) sig = true → VerifyBytes pk (GetSignBytes sigTx cx' acc') sig = true →
  acc_GetSequence acc = acc_GetSequence acc'.

Lemma bump_differs z : wrap64 (z + 1) ≠ z.
Proof.
  unfold wrap64. pose proof (Z.mod_pos_bound (z + 1) (2 ^ 64)) as Hb. assert (0 < 2 ^ 64) as Hp by done. specialize (Hb Hp).
  intros E. destruct (decide (z = 2 ^ 64 - 1)) as [->|Hne]; [by vm_compute in E|]. rw E in Hb. rw Z.mod_small in E; [lia|]. cbn in *. lia.
Qed.

(** C38: a transaction that was accepted is not accepted again, in this block or a later
    one, while some signer's account is as the first acceptance left it. *)
Theorem accepted_transactions_do_not_replay cx m tx sigTx new after cx2 m2 signer :
  auth_map (cx_Ctx cx) m → cx_IsReCheckTx cx = false → well_formed tx sigTx → signs_once sigTx →
  NewAnteHandler cx tx false = (AnteReturns new None, after) →
  ∃ m', auth_map (cx_Ctx after) m' ∧
    (auth_map (cx_Ctx cx2) m2 → cx_IsReCheckTx cx2 = false → signer ∈ GetSigners sigTx →
     (∀ y, m' !! signer = Some y → ∃ z, m2 !! signer = Some z ∧ account_kept y z) →
     ∀ new2 after2, NewAnteHandler cx2 tx false ≠ (AnteReturns new2 None, after2)).
Proof.
  intros Hm Hr Hwf Honce E. destruct (accepted_run cx m tx sigTx after Hm Hr Hwf) as (m' & Hm' & [El Hs _]); [by exists new, after|].
  exists m'. split; [done|]. intros Hm2 Hr2 (i & Hi)%list_elem_of_lookup_1 Hkept new2 after2 E2.
  destruct (accepted_run cx2 m2 tx sigTx after2 Hm2 Hr2 Hwf) as (m3 & _ & [_ Hs2 _]); [by exists new2, after2|].
  destruct (lookup_lt_is_Some_2 (GetSignatures sigTx) i) as [sig Esig]; [rw El; by eapply lookup_lt_Some|].
  destruct (Hs i signer sig Hi Esig) as (x & y & pk & Ex & Ey & _ & Ek & Hv & _ & Eseq).
  destruct (Hkept y Ey) as (z & Ez & [_ _ _ Ks Kk]). destruct (Hs2 i signer sig Hi Esig) as (z' & y2 & pk2 & Ez' & _ & Hk2 & _ & Hv2 & _).
  assert (z' = z) as -> by congruence. assert (acc_GetPubKey z = Some pk) as Ekz by (destruct Kk as [Kk|[? _]]; congruence).
  assert (pk2 = pk) as -> by (destruct Hk2 as [?|[? _]]; congruence).
  pose proof (Honce pk sig cx cx2 x z ltac:(by eapply list_elem_of_lookup_2) Hv Hv2) as Eq. apply (bump_differs (acc_GetSequence x)). congruence.
Qed.

(** ** Fees *)

(** The fee is refused with this error. *)
Inductive refused_fee (fee : list Coin) : error → Prop :=
  | no_fee : Forall (λ c, coin_Amount c = 0) fee → refused_fee fee ErrFeeRequired
  | wrong_denom c : coins_valid fee → c ∈ fee → coin_Denom c ≠ restrictions.MainDenom → refused_fee fee ErrWrongFeeDenom.

Lemma DenomDecorator_refuses `{!FeeCoinsLaws} next cx tx fee e : 0 < hd_Height (cx_BlockHeader cx) → as_StdTx tx = Some fee → refused_fee fee e →
  DenomDecorator next cx tx false = (AnteReturns (Some (WithMeters cx (NewGasMeter 0) (cx_BlockGasMeter cx))) (Some e), cx).
Proof.
  intros Hh Hfee Href. unfold DenomDecorator. rw Hfee (proj2 (Z.ltb_lt _ _) Hh) SetGasMeter_ok; [|done]. destruct Href as [Hz|c Hval Hc Hne].
  - by rw (proj2 (IsZero_ok _) Hz).
  - destruct (Coins_IsZero fee) eqn:Ez.
    { apply IsZero_ok in Ez. destruct Hval as [_ Hpos]. rewrite Forall_forall in Ez. rewrite Forall_forall in Hpos. specialize (Ez c Hc). specialize (Hpos c Hc). cbn in *. lia. }
    assert (coins_valid DefaultFees) as Hdef by (split; [apply NoDup_singleton|by apply Forall_singleton]).
    destruct (Coins_DenomsSubsetOf fee DefaultFees) eqn:Ed; [|done]. apply DenomsSubsetOf_ok in Ed; [|done..]. rewrite Forall_forall in Ed.
    specialize (Ed c Hc). apply list_elem_of_singleton in Ed. by destruct Hne.
Qed.

Section application.
Context {C Msg ValidatorUpdate : Type} `{CM : !CommitMultiStore C} `{TGL : !TxGasLaws G} `{FCL : !FeeCoinsLaws}.
Notation AppConfig := (AppConfig (G := G) (Tx := Tx) (Msg := Msg) (VoteInfo := VoteInfo) (DecCoins := DecCoins) (ValidatorUpdate := ValidatorUpdate)).
Variable cfg : AppConfig.
Hypothesis ante : ac_anteHandler cfg = Some NewAnteHandler.

(** C39: after the genesis block no transaction is checked or delivered without a fee in
    the staking coin: it is refused, consumes no gas of the transaction or the block, and leaves
    the stores, and everything else of the application, as they were. *)
Theorem fees_are_required mode txBytes tx (app : BaseApp (C := C)) st fee e :
  mode ≠ runTxModeSimulate → getState mode app = Some st → 0 < hd_Height (cx_BlockHeader st) →
  (mode = runTxModeDeliver → ∃ block, cx_BlockGasMeter st = Some block ∧ IsOutOfGas block = false ∧ 0 ≤ GasConsumed block < 2 ^ 64) →
  validateBasicTxMsgs cfg (ac_GetMsgs cfg tx) = None → as_StdTx tx = Some fee → refused_fee fee e →
  ∃ st', runTx cfg mode txBytes tx app = (Returns (MkGasInfo 0 0, inl e), setState mode st' app) ∧
    cx_MultiStore st' = cx_MultiStore st ∧ cx_BlockHeader st' = cx_BlockHeader st ∧ cx_GasMeter st' = cx_GasMeter st ∧
    ((mode = runTxModeDeliver → GasConsumed <$> cx_BlockGasMeter st' = GasConsumed <$> cx_BlockGasMeter st)).
Proof.
  intros Hmode Hst Hh Hblock Hbasic Hfee Href. unfold runTx. rw Hst. cbv zeta.
  replace (match mode with runTxModeSimulate => WithNewEventManager st | _ => st end) with st by (by destruct mode).
  set (ctx := getContextForTx mode txBytes app st).
  assert (run_body cfg mode tx (MkVars ctx st false 0) =
    (Returns (inl e), MkVars (WithMeters (WithNewEventManager ctx) (NewGasMeter 0) (cx_BlockGasMeter st)) st true 0)) as Eb.
  { unfold run_body. rw Hbasic. unfold run_ante. rw ante. cbn [v_ctx]. rw bool_decide_false; [|done].
    unfold core.NewAnteHandler, ChainAnteDecorators. cbn [foldr]. rw (DenomDecorator_refuses _ _ tx fee e); [|done..].
    unfold take_context, set_meters. cbn [v_own v_fresh v_ctx v_wanted]. destruct (NewGasMeter_ok 0) as (_ & El & _); [done|].
    unfold ctx. destruct st as [[] ? ? ? ? ? ? ? ? ?]. f_equal. unfold meters_of, getContextForTx. cbn. by rw El. }
  destruct (NewGasMeter_ok 0) as (Ec & El & Elim); [done|].
  assert (GasConsumedToLimit (NewGasMeter 0 : G) = 0) as Eto by (by rw GasConsumedToLimit_ok Elim Ec El).
  destruct (decide (mode = runTxModeDeliver)) as [->|Hd].
  - destruct Hblock as (block & Ebl & Hout & Hlo & Hhi); [done|]. rw Ebl Hout Eb. unfold charge_block. cbn [v_ctx v_own v_fresh v_wanted].
    destruct (decide _); [|done]. rw Ebl. cbn [cx_BlockGasMeter cx_GasMeter WithMeters]. rw Eto.
    pose proof (ConsumeGas_ok block 0) as Hc. cbv zeta in Hc. rw Z.add_0_r in Hc. destruct Hc as (Hcon & _ & _ & Hp); [done|done|done|].
    rw IsOutOfGas_ok in Hout. assert ((limited block && (GasLimit block <? GasConsumed block))%bool = false) as Eover.
    { destruct (limited block); [|done]. apply Z.ltb_ge. apply Z.leb_gt in Hout. lia. }
    rw Eover in Hp. destruct (ConsumeGas block 0) as [p block']. cbn [fst snd] in Hcon, Hp. subst p. rw Hcon Z.ltb_irrefl.
    cbn [recover_panic v_ctx v_own v_wanted]. eexists. split; [|split; [|split; [|split]]].
    + cbn. by rw Ec.
    + done.
    + done.
    + done.
    + intros _. cbn. by rw Hcon.
  - rw Eb. unfold charge_block. destruct (decide _); [done|]. cbn [recover_panic v_ctx v_own v_wanted]. exists st. split; [|done].
    cbn. rw Ec. by destruct mode.
Qed.
End application.
End theorems.
