(* ===== verification/AnteWitnesses.v ===== *)
(** * The ante handler: the theorems on a concrete chain

    An account with a hundred units of the staking coin and no public key yet signs a
    transaction for one unit.  A signature is its key and the bytes signed, which are the
    sequence; the SDK's decorators only set the gas meter. *)
From S2P Require Import Prelude Bytes Sdk SdkRef SdkFacts DnTypes Perms Chain SdkBank Scenario VmEvents SdkAuth VMAuthWitnesses Abci BaseApp BaseAppTheorems Ante AnteFacts.
From S2P Require Import AnteTheorems.
Local Open Scope string_scope.
Local Open Scope Z_scope.
Local Open Scope list_scope.
Import baseapp core.

(** ** A keeper that is a map of accounts *)
#[local] Instance accounts : AccountKeeper := AccountKeeper_ref "acc".
#[local] Instance AuthKeeper_ref : AuthKeeper := {| auth_GetAccount := ak_GetAccount; auth_SetAccount := ak_SetAccount |}.
Definition accounts_laws : AccountKeeperLaws "acc" := AccountKeeperLaws_ref "acc".
Definition account_map (c : Ctx) (m : gmap AccAddress Account) : Prop :=
  acc_wf (AccountKeeperLaws := accounts_laws) (ctx_stores c "acc") ∧
  ∀ a, acc_read (AccountKeeperLaws := accounts_laws) (ctx_stores c "acc") a = m !! a.

Lemma account_map_Set acc caller c m : account_map c m →
  ∃ s, ak_SetAccount acc caller c = (Ok tt, set_store c "acc" s) ∧ account_map (set_store c "acc" s) (<[acc_GetAddress acc := acc]> m).
Proof.
  intros [Hwf Hm]. destruct (SetAccount_ok (AccountKeeperLaws := accounts_laws) acc caller c Hwf) as (s & Hrun & Hwf' & _ & Hread). exists s. split; [done|].
  assert (ctx_stores (set_store c "acc" s) "acc" = s) as Es by reflexivity.
  split; rw Es; [done|]. intros a. rw Hread Hm. destruct (decide (a = acc_GetAddress acc)) as [->|]; [by rw lookup_insert_eq|by rw lookup_insert_ne].
Qed.

#[local] Instance AuthKeeperLaws_ref : AuthKeeperLaws.
Proof.
  refine {| auth_addr _ := True; auth_map := account_map |}.
  - intros c c' m E _ [Hwf Hm]. split; by rw E.
  - intros c m a acc [Hwf Hm] E. rw -Hm in E. by eapply acc_read_address, E.
  - intros a caller c m [Hwf Hm] _. rw -Hm. by apply (GetAccount_ok (AccountKeeperLaws := accounts_laws)).
  - intros acc old caller c m Hm _ _. destruct (account_map_Set acc caller c m Hm) as (s & Hrun & Hm'). by exists (set_store c "acc" s).
Defined.

(** ** Keys, coins, transactions *)
#[local] Instance Crypto_ref : Crypto := {|
  pk_Address pk := pk;
  VerifyBytes pk bytes sig := bool_decide (sig = Some (pk +:+ ":" +:+ bytes));
  is_multisig _ := false;
  zero_secp256k1 := "zero";
  Marshal_signature pk sig := pk +:+ sig;
|}.
#[local] Instance FeeCoins_ref : FeeCoins := {|
  Coins_IsZero := forallb (λ c, bool_decide (coin_Amount c = 0));
  Coins_DenomsSubsetOf cs cs' := forallb (λ c, bool_decide (coin_Denom c ∈ coin_Denom <$> cs')) cs;
|}.
#[local] Instance FeeCoinsLaws_ref : FeeCoinsLaws.
Proof.
  assert (∀ {A} (P : A → Prop) `{∀ x, Decision (P x)} l, forallb (λ x, bool_decide (P x)) l = true ↔ Forall P l) as Hall.
  { intros A P HP l. rewrite forallb_forall Forall_forall. setoid_rewrite bool_decide_eq_true. by setoid_rewrite <-list_elem_of_In. }
  split; intros; apply Hall.
Qed.

Record demo_tx := MkDemoTx { dt_fee : list Coin; dt_signers : list (AccAddress * option PubKey * option string) }.
Notation demo_context := (Context (G := Meter) (VoteInfo := unit) (DecCoins := unit)).
Notation demo_ante := (AnteHandler (G := Meter) (Tx := demo_tx) (VoteInfo := unit) (DecCoins := unit)).

Definition demo_sigs (tx : demo_tx) : SigVerifiableTx (G := Meter) (VoteInfo := unit) (DecCoins := unit) := {|
  GetSignatures := (λ s, s.2) <$> dt_signers tx;
  GetSigners := (λ s, s.1.1) <$> dt_signers tx;
  GetPubKeys := (λ s, s.1.2) <$> dt_signers tx;
  GetSignBytes _ acc := pretty (acc_GetSequence acc);
|}.
Definition demo_meter (simulate : bool) (cx : demo_context) (gas : Z) : demo_context :=
  WithMeters cx (if simulate || (hd_Height (cx_BlockHeader cx) =? 0) then NewInfiniteGasMeter else NewGasMeter gas) (cx_BlockGasMeter cx).
Definition demo_setup (next : demo_ante) : demo_ante := λ cx tx simulate,
  let (r, after) := next (demo_meter simulate cx 100000) tx simulate in (r, WithMeters after (cx_GasMeter cx) (cx_BlockGasMeter after)).
Definition demo_deduct (acc : Account) (fees : list Coin) : M unit :=
  match Coins_Sub (acc_GetCoins acc) fees with
  | Ok cs => ak_SetAccount (with_Coins cs acc)
  | _ => throw (Plain "insufficient funds")
  end.
#[local] Instance demo_sdk : AnteSdk (G := Meter) (Tx := demo_tx) (VoteInfo := unit) (DecCoins := unit) := {|
  as_StdTx tx := Some (dt_fee tx);
  as_SigVerifiableTx tx := Some (demo_sigs tx);
  as_FeeTx tx := Some (MkFeeTx (dt_fee tx) "alice");
  SetGasMeter := demo_meter;
  SetUpContextDecorator := demo_setup;
  MempoolFeeDecorator next := next;
  ValidateBasicDecorator next := next;
  ValidateMemoDecorator next := next;
  ValidateSigCountDecorator next := next;
  ak_GetParams := mret (MkParams 7 10);
  FeeCollector := Some "fees";
  DeductFees := demo_deduct;
|}.

Lemma same_passes : passes (G := Meter) (Tx := demo_tx) (VoteInfo := unit) (DecCoins := unit) (λ next, next).
Proof. intros next cx tx simulate new after E. by exists cx, new, after. Qed.
#[local] Instance demo_sdk_laws : AnteSdkLaws (G := Meter) (Tx := demo_tx) (VoteInfo := unit) (DecCoins := unit).
Proof.
  split.
  - rewrite !Forall_cons. split; [|by split_and!; try apply same_passes].
    intros next cx tx simulate new after E. cbn [SetUpContextDecorator demo_sdk] in E. unfold demo_setup in E.
    destruct (next _ tx simulate) as [r after'] eqn:En. injection E as -> <-. exists (demo_meter simulate cx 100000), new, after'. by split_and!.
  - intros cx n Hh. cbn. unfold demo_meter. cbn [orb]. rw (proj2 (Z.eqb_neq _ _)); [done|lia].
  - done.
  - intros acc fees caller c c' m Hm Hacc E. cbn [DeductFees demo_sdk] in E. unfold demo_deduct in E.
    destruct (Coins_Sub _ _) as [cs|e|]; [|done..]. destruct (account_map_Set (with_Coins cs acc) caller c m Hm) as (s & Hrun & Hm').
    rw Hrun in E. injection E as <-. rw with_Coins_Address in Hm'. eexists. split; [exact Hm'|]. split; [done|]. split; [done|]. split.
    + intros a x Ex. destruct (decide (acc_GetAddress acc = a)) as [<-|]; [|rw lookup_insert_ne; [|done]].
      * rw lookup_insert_eq. exists cs. f_equal. congruence.
      * exists (acc_GetCoins x). by rw with_Coins_same.
    + intros a y En Ey. destruct (decide (acc_GetAddress acc = a)) as [<-|]; [congruence|]. rw lookup_insert_ne in Ey; [congruence|done].
  - intros tx sigTx cx cx' acc acc' [= <-] _ _ _ E. cbn. by rw E.
Qed.

Definition demo_consumer : SignatureVerificationGasConsumer (G := Meter) := λ g _ _ _,
  let (p, g) := ConsumeGas g 1000 in (match p with Some p => Panics p | None => Returns None end, g).
Notation demo_handler := (NewAnteHandler (Tx := demo_tx) (VoteInfo := unit) (DecCoins := unit) demo_consumer).

(** ** Alice's transaction *)
Definition alice0 : Account := Account_base (MkBaseAccount "alice" [MkCoin "xfi" 100] None 0 3).
Definition signed_tx : demo_tx := MkDemoTx [MkCoin "xfi" 1] [("alice", Some "alice", Some "alice:3")].
Definition no_stores : string → store := λ _, ∅.
Definition start : Ctx := (ak_SetAccount alice0 "" (MkCtx no_stores ∅ [] 1 0)).2.
Definition before : demo_context := MkContext start "demo" (NewGasMeter 0) None "bytes" [] None false false None.

Lemma account_map_start : account_map start {[ "alice" := alice0 ]}.
Proof.
  destruct (account_map_Set alice0 "" (MkCtx no_stores ∅ [] 1 0) ∅) as (s & Hrun & Hm).
  - split; [by intros a v|]. intros a. reflexivity.
  - unfold start. rw Hrun. exact Hm.
Qed.
Lemma signed_well_formed : well_formed signed_tx (demo_sigs signed_tx).
Proof.
  split; [reflexivity|by apply Forall_singleton|apply NoDup_singleton|]. by eexists.
Qed.
Definition ran : ante_result * demo_context := demo_handler before signed_tx false.
Definition accepted (x : ante_result (G := Meter) (VoteInfo := unit) (DecCoins := unit)) : bool := match x with AnteReturns _ None => true | _ => false end.
Lemma accepted_inv (x : ante_result (G := Meter) (VoteInfo := unit) (DecCoins := unit) * demo_context) : accepted x.1 = true → ∃ new, x = (AnteReturns new None, x.2).
Proof. destruct x as [[new [e|]|p] after]; [done| |done]. intros _. by exists new. Qed.

Lemma accepted_transactions_are_signed_witness : ∃ m' y, account_map (cx_Ctx ran.2) m' ∧ m' !! "alice" = Some y ∧
  acc_GetPubKey y = Some "alice" ∧ acc_GetSequence y = 4.
Proof.
  destruct (accepted_inv (demo_handler before signed_tx false)) as [new E]; [vm_compute; reflexivity|].
  destruct (accepted_transactions_are_signed (AKL := AuthKeeperLaws_ref) demo_consumer before {[ "alice" := alice0 ]} signed_tx (demo_sigs signed_tx) new ran.2 account_map_start eq_refl signed_well_formed E)
    as (m' & Hm' & [_ Hs _]).
  destruct (Hs 0%nat "alice" (Some "alice:3") eq_refl eq_refl) as (x & y & pk & Ex & Ey & Hk & Ek & _ & _ & Eseq).
  rw lookup_singleton_eq in Ex. injection Ex as <-. exists m', y. split; [exact Hm'|]. split; [exact Ey|]. split; [|exact Eseq].
  destruct Hk as [Hk|[_ Hk]]; [discriminate Hk|]. cbn in Hk. congruence.
Defined.

(** Her signature is good for sequence 3 only; the stores it was accepted on, with the
    accounts it left, refuse it. *)
Lemma signed_once : signs_once (demo_sigs signed_tx).
Proof.
  intros pk sig cx cx' acc acc' _ Hv Hv'. cbn in Hv, Hv'. apply bool_decide_eq_true in Hv, Hv'. rw Hv in Hv'. injection Hv' as E.
  apply (inj (String.append pk)) in E. apply (inj (String.append ":")) in E. by apply (inj pretty) in E.
Qed.
Lemma accepted_transactions_do_not_replay_witness : accepted ran.1 = true ∧
  ∀ new2 after2, demo_handler (WithMultiStore before (cx_MultiStore ran.2)) signed_tx false ≠ (AnteReturns new2 None, after2).
Proof.
  split; [vm_compute; reflexivity|].
  destruct (accepted_inv (demo_handler before signed_tx false)) as [new E]; [vm_compute; reflexivity|].
  assert (∃ m2, account_map (cx_Ctx ran.2) m2) as [m2 Hm2].
  { destruct (accepted_run (AKL := AuthKeeperLaws_ref) demo_consumer before {[ "alice" := alice0 ]} signed_tx (demo_sigs signed_tx) ran.2 account_map_start eq_refl signed_well_formed)
      as (m' & Hm' & _); [exists new, ran.2; split; [exact E|reflexivity]|exists m'; exact Hm']. }
  destruct (accepted_transactions_do_not_replay (AKL := AuthKeeperLaws_ref) demo_consumer before {[ "alice" := alice0 ]} signed_tx (demo_sigs signed_tx) new ran.2
    (WithMultiStore before (cx_MultiStore ran.2)) m2 "alice" account_map_start eq_refl signed_well_formed signed_once E) as (m' & Hm' & Hno).
  apply Hno; [exact Hm2|reflexivity|by left|]. intros y Ey. exists y. split; [|reflexivity].
  destruct Hm2 as [_ Hm2], Hm' as [_ Hm']. by rw -Hm2 Hm'.
Defined.

(** ** A transaction with a fee in another coin *)
Definition ante_cfg : AppConfig (G := Meter) (Tx := demo_tx) (Msg := unit) (VoteInfo := unit) (DecCoins := unit) (ValidatorUpdate := unit) := {|
  ac_name := "demo";
  ac_txDecoder _ := inl (Plain "decoding");
  ac_GetMsgs _ := [tt];
  ac_Route _ := "demo";
  ac_Type _ := "demo";
  ac_ValidateBasic _ := None;
  ac_anteHandler := Some demo_handler;
  ac_initChainer := None;
  ac_beginBlocker := None;
  ac_endBlocker := None;
  ac_addrPeerFilter := None;
  ac_idPeerFilter := None;
  ac_router _ _ := None;
  ac_queryRouter _ := None;
  ac_minGasPrices := None;
  ac_haltHeight := 0;
  ac_haltTime := 0;
  ac_appVersion := "1";
  ac_msgsDeniedList := restrictions.MsgDeniedList;
  ac_msgsCustomVerifier _ := None;
  ac_updates_Less _ _ := false;
  ac_logs_String _ := "[]";
|}.
Definition in_block : demo_context :=
  WithBlockGasMeter (NewContext (MkMultiStore (ctx_stores start) ∅) (MkHeader "demo" 1 0) false) (NewGasMeter 100).
Definition the_app : BaseApp (G := Meter) (C := Versions) (VoteInfo := unit) (DecCoins := unit) :=
  set_deliver (Some in_block) (NewBaseApp (MkVersions (MkMultiStore no_stores ∅) [])).
Definition eth_tx : demo_tx := MkDemoTx [MkCoin "eth" 1] [("alice", Some "alice", Some "alice:3")].

Lemma fees_are_required_witness : ∃ st', runTx ante_cfg runTxModeDeliver "bytes" eth_tx the_app =
  (Returns (MkGasInfo 0 0, inl ErrWrongFeeDenom), set_deliver (Some st') the_app) ∧ cx_MultiStore st' = cx_MultiStore in_block.
Proof.
  destruct (fees_are_required demo_consumer ante_cfg eq_refl runTxModeDeliver "bytes" eth_tx the_app in_block [MkCoin "eth" 1] ErrWrongFeeDenom)
    as (st' & Hrun & Hms & _).
  - discriminate.
  - reflexivity.
  - reflexivity.
  - intros _. exists (NewGasMeter 100). split; [reflexivity|]. split; [reflexivity|]. split; [discriminate|reflexivity].
  - reflexivity.
  - reflexivity.
  - apply (wrong_denom _ (MkCoin "eth" 1)); [|by left|discriminate].
    split; [apply NoDup_singleton|by apply Forall_singleton].
  - exists st'. split; [exact Hrun|exact Hms].
Defined.
