(* ===== verification/Parsers.v ===== *)
(** * Parameters of commands and requests ([src/helpers/input_parsers.go]), and
    arguments of scripts

    The clients parse their flags, arguments, paths and requests with these functions.
    The name of a parameter and the way it came are only part of the text of an error,
    and are left out; so are the functions that read files and set up commands. *)
From S2P Require Import Prelude Bytes Sdk SdkRef Strconv DnTypes Perms Chain SdkBank VMStorage VmEvents VmKeeper SdkAuth.
Local Open Scope string_scope.
Local Open Scope Z_scope.
Local Open Scope list_scope.

(** More parsers of the SDK: [sdk.NewDecFromStr], [sdk.AccAddressFromHex],
    [sdk.ParseCoin]; [Int64] panics out of 64 bits. *)
Class SdkParamParse := {
  NewDecFromStr : string → outcome Dec;
  AccAddressFromHex : string → outcome AccAddress;
  ParseCoin : string → outcome Coin;
  Int_Int64 : Int → outcome Z;
}.

Module helpers.
Section parsers.
Context `{ST : SdkTypes} `{SC : SdkCoins} `{SP : SdkParse} `{SQ : SdkParamParse}.

Definition errParam : error := Plain "parsing failed".
(** An error of a parser gets the parameter's name in front. *)
Definition or_error {A} (o : outcome A) : outcome A := match o with Err _ => Err errParam | r => r end.

(** The [--deposit] flag as the command got it. *)
Definition ParseDepositFlag (flag : outcome string) : outcome (list Coin) :=
  depositStr ← or_error flag;
  or_error (ParseCoins depositStr).

Definition parsePageUint (paramValue : string) : outcome Uint :=
  match NewIntFromString paramValue with
  | None => Err errParam
  | Some valueInt => fail_if (valueInt <? 1) errParam;; NewUintFromBigInt valueInt
  end.
Definition ParsePaginationParams (pageStr limitStr : string) : outcome (Uint * Uint) :=
  let pageStr := if decide (pageStr = "") then "1" else pageStr in
  let limitStr := if decide (limitStr = "") then "100" else limitStr in
  page ← parsePageUint pageStr;
  limit ← parsePageUint limitStr;
  Ok (page, limit).

Definition ParseSdkIntParam (argValue : string) : outcome Int :=
  match NewIntFromString argValue with Some v => Ok v | None => Err errParam end.
Definition ParseSdkDecParam (argValue : string) : outcome Dec := or_error (NewDecFromStr argValue).
Definition ParseSdkUintParam (argValue : string) : outcome Uint :=
  match NewIntFromString argValue with
  | None => Err errParam
  | Some vInt => fail_if (vInt <? 0) errParam;; NewUintFromBigInt vInt
  end.
Definition ParseUint8Param (argValue : string) : outcome Z := or_error (ParseUint argValue 8).
Definition ParseUint64Param (argValue : string) : outcome Z := or_error (ParseUint argValue 64).
Definition ParseInt64Param (argValue : string) : outcome Z := or_error (ParseInt argValue 64).

(** The deferred check: an address that came out empty is an error. *)
Definition nonempty_address (addr : AccAddress) : outcome AccAddress :=
  if decide (addr = "") then Err errParam else Ok addr.
Definition ParseSdkAddressParam (argValue : string) : outcome AccAddress :=
  match AccAddressFromBech32 argValue with
  | Ok v => nonempty_address v
  | Panic => Panic
  | Err _ =>
      match AccAddressFromHex (TrimPrefix argValue "0x") with
      | Ok v => nonempty_address v
      | Panic => Panic
      | Err _ => nonempty_address ""
      end
  end.
Definition ParseSdkAddressesParams (argValue : string) : outcome (list AccAddress) :=
  foldM (λ retAddrs addressStr, addr ← or_error (ParseSdkAddressParam (TrimSpace addressStr)); Ok (retAddrs ++ [addr])) []
    (Split "," argValue).

Definition ParseEthereumAddressParam (argValue : string) : outcome string :=
  fail_if (negb (IsEthereumAddress argValue)) errParam;; Ok argValue.
Definition ParseDnIDParam (argValue : string) : outcome ID := or_error (NewIDFromString argValue).
Definition ValidateDenomParam (argValue : string) : outcome unit := or_error (DenomFilter argValue).
Definition ParseHexStringParam (argValue : string) : outcome (string * string) :=
  let argValueNorm := TrimPrefix argValue "0x" in
  argValueBytes ← or_error (hex_DecodeString argValueNorm);
  Ok (argValueNorm, argValueBytes).
Definition ParseAssetCodeParam (argValue : string) : outcome string :=
  let assetCode := ToLower argValue in
  or_error (AssetCode_Validate assetCode);;
  Ok assetCode.

(** A panic is recovered. *)
Definition coin_body (argValue : string) : outcome Coin :=
  coin ← or_error (ParseCoin argValue);
  or_error (DenomFilter (coin_Denom coin));;
  fail_if (coin_Amount coin <? 0) errParam;;
  Ok coin.
Definition ParseCoinParam (argValue : string) : outcome Coin :=
  match coin_body argValue with Panic => Err errParam | r => r end.

(** *** [helpers/big.go]: numbers in little endian order; the sign is lost. *)
Definition BigToBytes (val : Int) (bytesLen : nat) : string :=
  let bytes := big_Bytes (Z.abs val) in
  let bytes := if (String.length bytes <? bytesLen)%nat then zeros (bytesLen - String.length bytes) +:+ bytes else bytes in
  string_reverse bytes.
Definition LeToBig (bytes : string) : outcome Int := NewIntFromBigInt (be_value 0 (string_reverse bytes)).

(** [time.Unix], in UTC. *)
Definition ParseUnixTimestamp (argValue : string) : outcome Z :=
  ts ← ParseSdkIntParam argValue;
  seconds ← Int_Int64 ts;
  Ok (seconds * 10 ^ 9).
End parsers.
End helpers.

(** ** Arguments of Move scripts ([src/x/vm/client/vm_client/args.go])

    A client writes the arguments of a script as strings; the compiler says of what types
    they are.  Each is parsed and put into the bytes the VM reads. *)
Local Open Scope string_scope.
Local Open Scope Z_scope.
Import vm_keeper.

(** The codes of the types in the VM's protocol. *)
Class VmTypeTags := {
  VMTypeTag_Bool : Z;
  VMTypeTag_U64 : Z;
  VMTypeTag_Vector : Z;
  VMTypeTag_Address : Z;
  VMTypeTag_U8 : Z;
  VMTypeTag_U128 : Z;
}.
(** Different types have different codes. *)
Class VmTypeTagsLaws `{T : VmTypeTags} : Prop :=
  tags_differ : NoDup [VMTypeTag_Bool; VMTypeTag_U64; VMTypeTag_Vector; VMTypeTag_Address; VMTypeTag_U8; VMTypeTag_U128].

(** [xxhash]: [Sum64] with seed zero. *)
Class XxHash := { xxhash_Sum64 : string → Z }.

Module vm_client.
Section args.
Context `{ST : SdkTypes} `{SP : SdkParse} `{TT : VmTypeTags} `{XH : XxHash}.

(** An empty argument; an argument that does not parse. *)
Definition errEmpty : error := Plain "empty".
Definition errParsing : error := Plain "parsing argument".

Definition parseXxHashUint (value : string) : outcome string :=
  match value with
  | EmptyString => Err errEmpty
  | String "#" value' =>
      if (String.length value <? 2)%nat then Err (Plain "xxHash parsing: invalid length")
      else Ok (FormatUint (xxhash_Sum64 (ToLower value')))
  | _ => Ok value
  end.

Definition NewAddressScriptArg (value : string) : outcome ScriptArg :=
  fail_if (bool_decide (value = "")) errEmpty;;
  addr ← AccAddressFromBech32 value;
  Ok (MkScriptArg VMTypeTag_Address (common_vm.Bech32ToLibra addr)).

Definition NewU8ScriptArg (value : string) : outcome ScriptArg :=
  hashParsedValue ← parseXxHashUint value;
  uintValue ← ParseUint hashParsedValue 8;
  Ok (MkScriptArg VMTypeTag_U8 (String (byte_of uintValue) "")).

Definition NewU64ScriptArg (value : string) : outcome ScriptArg :=
  hashParsedValue ← parseXxHashUint value;
  uintValue ← ParseUint hashParsedValue 64;
  Ok (MkScriptArg VMTypeTag_U64 (le_bytes 8 uintValue)).

(** The bytes of the number are reversed and padded with zeros; a panic of the parser is
    an error. *)
Definition u128_body (value : string) : outcome ScriptArg :=
  hashParsedValue ← parseXxHashUint value;
  bigIntValue ← NewUintFromString hashParsedValue;
  fail_if (128 <? big_BitLen bigIntValue) errParsing;;
  let argValue := string_reverse (big_Bytes bigIntValue) in
  let argValue := if (String.length argValue <? 16)%nat then argValue +:+ zeros (16 - String.length argValue) else argValue in
  Ok (MkScriptArg VMTypeTag_U128 argValue).
Definition NewU128ScriptArg (value : string) : outcome ScriptArg :=
  match u128_body value with Panic => Err errParsing | r => r end.

Definition NewVectorScriptArg (value : string) : outcome ScriptArg :=
  fail_if (bool_decide (value = "")) errEmpty;;
  argValue ← hex_DecodeString (TrimPrefix value "0x");
  Ok (MkScriptArg VMTypeTag_Vector argValue).

Definition NewBoolScriptArg (value : string) : outcome ScriptArg :=
  valueBool ← ParseBool value;
  Ok (MkScriptArg VMTypeTag_Bool (String (byte_of (if (valueBool : bool) then 1 else 0)) "")).

(** One argument. *)
Definition convert_argument (argStr : string) (argType : Z) : outcome ScriptArg :=
  if decide (argType = VMTypeTag_Address) then NewAddressScriptArg argStr
  else if decide (argType = VMTypeTag_U8) then NewU8ScriptArg argStr
  else if decide (argType = VMTypeTag_U64) then NewU64ScriptArg argStr
  else if decide (argType = VMTypeTag_U128) then NewU128ScriptArg argStr
  else if decide (argType = VMTypeTag_Bool) then NewBoolScriptArg argStr
  else if decide (argType = VMTypeTag_Vector) then NewVectorScriptArg argStr
  else Err (Plain "unsupported argType code").
Fixpoint convert_arguments (argStrs : list string) (argTypes : list Z) : outcome (list ScriptArg) :=
  match argStrs, argTypes with
  | argStr :: argStrs', argType :: argTypes' =>
      scriptArg ← convert_argument argStr argType;
      scriptArgs ← convert_arguments argStrs' argTypes';
      Ok (scriptArg :: scriptArgs)%list
  | _, _ => Ok []
  end.
Definition ConvertStringScriptArguments (argStrs : list string) (argTypes : list Z) : outcome (list ScriptArg) :=
  fail_if (negb (length argStrs =? length argTypes)%nat) (Plain "strArgs / typedArgs length mismatch");;
  convert_arguments argStrs argTypes.
End args.
End vm_client.
