(* ===== verification/ParsersTheorems.v ===== *)
(** * Parameters and arguments: what is accepted

    Accepted values are within the bounds of their types; accepted pages of a list are
    the pages of the list, as long as they are within 64 bits. *)
From S2P Require Import Prelude Bytes Sdk SdkRef Strconv SdkFacts DnTypes Perms Chain SdkBank VMStorage VmEvents VmKeeper SdkAuth Parsers.
Local Open Scope string_scope.
Local Open Scope Z_scope.
Local Open Scope list_scope.
Import helpers.

Section theorems.
Context `{STL : SdkTypesLaws} `{SC : SdkCoins} `{SP : SdkParse} `{SQ : SdkParamParse}.
(** [sdk.NewIntFromString] gives a number of at most 255 bits; the parsers of addresses
    return; [Int64] is for numbers of 64 bits. *)
Hypothesis int_range : ∀ s z, NewIntFromString s = Some z → - maxInt < z < maxInt.
Hypothesis bech32_returns : ∀ s, AccAddressFromBech32 s ≠ Panic.
Hypothesis hex_returns : ∀ s, AccAddressFromHex s ≠ Panic.
Hypothesis int64_or_panic : ∀ z, Int_Int64 z = if (- 2 ^ 63 <=? z) && (z <? 2 ^ 63) then Ok z else Panic.

(** ** Pages *)
Lemma parsePageUint_ok s : match parsePageUint s with
  | Ok z => NewIntFromString s = Some z ∧ 1 ≤ z < maxInt
  | Err _ => True
  | Panic => False
  end.
Proof.
  unfold parsePageUint. destruct (NewIntFromString s) as [z|] eqn:E; [|done]. destruct (Z.ltb_spec z 1) as [|Hz]; [done|].
  pose proof (int_range s z E) as Hr. assert (maxInt < maxUint) by done. cbn [fail_if mbind outcome_bind]. rw NewUintFromBigInt_ok; [split; [done|lia]|lia].
Qed.
Lemma ParsePaginationParams_ok pageStr limitStr : match ParsePaginationParams pageStr limitStr with
  | Ok (page, limit) => 1 ≤ page < maxInt ∧ 1 ≤ limit < maxInt
  | Err _ => True
  | Panic => False
  end.
Proof.
  unfold ParsePaginationParams. set (ps := if decide (pageStr = "") then _ else _). set (ls := if decide (limitStr = "") then _ else _).
  pose proof (parsePageUint_ok ps) as Hp. destruct (parsePageUint ps) as [page| |]; [|done..]. cbn [mbind outcome_bind].
  pose proof (parsePageUint_ok ls) as Hl. destruct (parsePageUint ls) as [limit| |]; [|done..]. cbn [mbind outcome_bind]. by destruct Hp, Hl.
Qed.

(** The page of a list, as the queries take it. *)
Definition page_of {A} (l : list A) (page limit : Uint) : outcome (list A) :=
  range ← PaginateSlice (Z.of_nat (length l)) page limit;
  slice l range.1 range.2.

Lemma PaginateSlice_small n page limit : 0 ≤ n < 2 ^ 63 → 1 ≤ page → 1 ≤ limit → page * limit < 2 ^ 64 →
  PaginateSlice n page limit = let start := (page - 1) * limit in if n <=? start then Ok (0, 0) else Ok (start, Z.min n (page * limit)).
Proof.
  intros Hn Hp Hl Hm. unfold PaginateSlice. rw (proj2 (Z.ltb_ge _ _)); [|lia]. rw (proj2 (Z.eqb_neq page _)); [|lia]. rw (proj2 (Z.eqb_neq limit _)); [|lia].
  cbv zeta. destruct (Z.eqb_spec n 0) as [->|Hn0]; [by rw (proj2 (Z.leb_le _ _)); [|nia]|].
  rw Uint_Uint64_ok; [|nia]. rw Uint_Uint64_ok; [|nia]. cbn [mbind outcome_bind]. unfold wrap64. rw (Z.mod_small (page - 1)); [|nia].
  rw (Z.mod_small ((page - 1) * limit)); [|nia]. rw Z.mod_small; [|nia]. replace (limit + (page - 1) * limit) with (page * limit) by lia.
  destruct (Z.leb_spec n ((page - 1) * limit)); [done|]. destruct (Z.leb_spec n (page * limit)); f_equal; f_equal; lia.
Qed.

(** The page a client asks for is the page it gets: pages of [limit] elements from
    the first, cut off at the end of the list, a page past the end being empty; pages
    and limits of one and more are accepted, one and a hundred when none is given.  This
    holds while the last element of the page is within 64 bits; a page beyond 64
    bits is accepted as well, and is a panic. *)
Theorem pages_are_served {A} (l : list A) pageStr limitStr page limit :
  ParsePaginationParams pageStr limitStr = Ok (page, limit) → Z.of_nat (length l) < 2 ^ 63 →
  (page * limit < 2 ^ 64 → page_of l page limit = Ok (take (Z.to_nat limit) (drop (Z.to_nat ((page - 1) * limit)) l))) ∧
  (2 ^ 64 ≤ page → l ≠ [] → page_of l page limit = Panic).
Proof.
  intros Hparse Hlen. pose proof (ParsePaginationParams_ok pageStr limitStr) as Hok. rw Hparse in Hok. destruct Hok as [[Hp _] [Hl _]]. split.
  - intros Hm. unfold page_of. rw PaginateSlice_small; [|lia|done..]. cbv zeta. destruct (Z.leb_spec (Z.of_nat (length l)) ((page - 1) * limit)) as [Hle|Hlt].
    + cbn [mbind outcome_bind fst snd]. unfold slice. cbn [Z.leb Z.compare andb]. rw (proj2 (Z.leb_le _ _)); [|lia]. cbn [andb]. f_equal.
      rewrite (drop_ge l (Z.to_nat ((page - 1) * limit))); [|lia]. by rewrite take_nil.
    + cbn [mbind outcome_bind fst snd]. unfold slice. rw !(proj2 (Z.leb_le _ _)); [|nia..]. cbn [andb]. f_equal.
      destruct (decide (page * limit ≤ Z.of_nat (length l))) as [Hin|Hout].
      * f_equal. rw Z.min_r; [|done]. f_equal. lia.
      * rw Z.min_l; [|lia]. rewrite !take_ge; [done|rewrite length_drop; nia..].
  - intros Hbig Hne. unfold page_of, PaginateSlice. destruct l as [|x l]; [done|].
    rw (proj2 (Z.ltb_ge _ _)); [|lia]. rw (proj2 (Z.eqb_neq page _)); [|lia]. rw (proj2 (Z.eqb_neq limit _)); [|lia].
    rw (proj2 (Z.eqb_neq _ _)); [|cbn; lia]. by rw (Uint_Uint64_overflow page).
Qed.

(** ** Values *)
Lemma or_error_Ok {A} (o : outcome A) a : or_error o = Ok a → o = Ok a.
Proof. by destruct o. Qed.
Lemma or_error_no_panic {A} (o : outcome A) : o ≠ Panic → or_error o ≠ Panic.
Proof. by destruct o. Qed.

Lemma ParseSdkAddressParam_ok s : match ParseSdkAddressParam s with Ok a => a ≠ "" | Err _ => True | Panic => False end.
Proof.
  assert (∀ a, match nonempty_address a with Ok b => b ≠ "" | Err _ => True | Panic => False end) as Hn by (intros a; unfold nonempty_address; by destruct (decide _)).
  unfold ParseSdkAddressParam. pose proof (bech32_returns s) as Hb. destruct (AccAddressFromBech32 s) as [a|e|]; [apply Hn| |done].
  pose proof (hex_returns (TrimPrefix s "0x")) as Hh. destruct (AccAddressFromHex _) as [a|e'|]; [apply Hn|apply Hn|done].
Qed.
Lemma ParseSdkAddressesParam_ok s : match ParseSdkAddressesParams s with
  | Ok addrs => Forall (λ a, a ≠ "") addrs ∧ length addrs = S (count_byte "," s)
  | Err _ => True
  | Panic => False
  end.
Proof.
  unfold ParseSdkAddressesParams. rw -length_Split. generalize (Split "," s). intros parts.
  assert (∀ acc, Forall (λ a : string, a ≠ "") acc →
    match foldM (λ retAddrs addressStr, addr ← or_error (ParseSdkAddressParam (TrimSpace addressStr)); Ok (retAddrs ++ [addr])) acc parts with
    | Ok addrs => Forall (λ a, a ≠ "") addrs ∧ length addrs = (length acc + length parts)%nat
    | Err _ => True | Panic => False end) as Hall; [|by apply (Hall [])].
  induction parts as [|p parts IH]; intros acc Hacc; cbn [foldM]; [by split; [|rewrite Nat.add_0_r]|].
  pose proof (ParseSdkAddressParam_ok (TrimSpace p)) as Ha. destruct (ParseSdkAddressParam (TrimSpace p)) as [a|e|]; [|done..].
  cbn [or_error mbind outcome_bind]. specialize (IH (acc ++ [a])). destruct (foldM _ (acc ++ [a]) parts) as [addrs|e|]; [|done|].
  - destruct IH as [Hf Hlen]; [apply Forall_app; split; [done|by apply Forall_singleton]|]. split; [done|]. rewrite length_app in Hlen. cbn in *. lia.
  - apply IH, Forall_app. split; [done|by apply Forall_singleton].
Qed.

(** What a parser may do with a string: accept a value that is good, or refuse. *)
Definition accepts_only {A} (parse : string → outcome A) (good : A → Prop) : Prop :=
  ∀ s, match parse s with Ok a => good a | Err _ => True | Panic => False end.

(** C0: the parsers accept values within the bounds of their types only, and never
    panic, but for the one of times, which panics on a number beyond 64 bits. *)
Theorem parsers_keep_bounds :
  accepts_only ParseSdkUintParam (λ z, 0 ≤ z < maxInt) ∧
  accepts_only ParseUint8Param (λ z, 0 ≤ z < 2 ^ 8) ∧
  accepts_only ParseUint64Param (λ z, 0 ≤ z < 2 ^ 64) ∧
  accepts_only ParseInt64Param (λ z, - 2 ^ 63 ≤ z < 2 ^ 63) ∧
  accepts_only ParseSdkAddressesParams (Forall (λ a, a ≠ "")) ∧
  accepts_only ParseCoinParam (λ c, 0 ≤ coin_Amount c ∧ DenomFilter (coin_Denom c) = Ok tt) ∧
  ∀ s, match ParseUnixTimestamp s with
    | Ok t => ∃ z, NewIntFromString s = Some z ∧ - 2 ^ 63 ≤ z < 2 ^ 63 ∧ t = z * 10 ^ 9
    | Err _ => NewIntFromString s = None
    | Panic => ∃ z, NewIntFromString s = Some z ∧ ¬ - 2 ^ 63 ≤ z < 2 ^ 63
    end.
Proof.
  split_and!; intros s.
  - unfold ParseSdkUintParam. destruct (NewIntFromString s) as [z|] eqn:E; [|done]. pose proof (int_range s z E) as Hr.
    destruct (Z.ltb_spec z 0); [done|]. assert (maxInt < maxUint) by done. cbn [fail_if mbind outcome_bind]. rw NewUintFromBigInt_ok; [lia|lia].
  - unfold ParseUint8Param. pose proof (ParseUint_no_panic s 8). destruct (ParseUint s 8) eqn:E; [|done..]. by apply ParseUint_range in E.
  - unfold ParseUint64Param. pose proof (ParseUint_no_panic s 64). destruct (ParseUint s 64) eqn:E; [|done..]. by apply ParseUint_range in E.
  - unfold ParseInt64Param. pose proof (ParseInt_no_panic s 64). destruct (ParseInt s 64) eqn:E; [|done..]. by apply ParseInt_range in E.
  - pose proof (ParseSdkAddressesParam_ok s) as Ha. destruct (ParseSdkAddressesParams s); [apply Ha|done..].
  - unfold ParseCoinParam, coin_body. destruct (ParseCoin s) as [c| |]; [|done..]. cbn [or_error mbind outcome_bind].
    destruct (DenomFilter (coin_Denom c)) as [[]| |] eqn:E; [|done..]. cbn [or_error mbind outcome_bind].
    destruct (Z.ltb_spec (coin_Amount c) 0); [done|]. by cbn.
  - unfold ParseUnixTimestamp, ParseSdkIntParam. destruct (NewIntFromString s) as [z|] eqn:E; [|done]. cbn [mbind outcome_bind]. rw int64_or_panic.
    destruct (Z.leb_spec (- 2 ^ 63) z), (Z.ltb_spec z (2 ^ 63)); cbn [andb mbind outcome_bind]; exists z; (split; [done|]); try (split; [done|done]); lia.
Qed.

(** ** Numbers in bytes ([helpers/big.go]) *)
Lemma BigToBytes_le z n : BigToBytes z n = le_bytes (Nat.max n (String.length (big_Bytes (Z.abs z)))) (Z.abs z).
Proof.
  unfold BigToBytes. set (k := String.length (big_Bytes (Z.abs z))). assert (0 ≤ Z.abs z < 256 ^ Z.of_nat k) as Hz.
  { split; [apply Z.abs_nonneg|]. apply big_Bytes_fits, Z.abs_nonneg. }
  assert (string_reverse (big_Bytes (Z.abs z)) = le_bytes k (Z.abs z)) as E.
  { unfold k, big_Bytes. by rw length_be_bytes reverse_be_bytes. }
  destruct (Nat.ltb_spec k n).
  - rw string_reverse_app reverse_zeros E le_bytes_pad; [|done]. f_equal. lia.
  - rw E. f_equal. lia.
Qed.
Theorem LeToBig_BigToBytes z n : - maxInt < z < maxInt → LeToBig (BigToBytes z n) = Ok (Z.abs z).
Proof.
  intros Hz. rw BigToBytes_le. unfold LeToBig. set (k := Nat.max _ _). rw -reverse_be_bytes string_reverse_involutive be_value_bytes.
  rw Z.mod_small; [rw Z.add_0_l; by apply NewIntFromBigInt_ok; lia|]. split; [lia|]. 
  eapply Z.lt_le_trans; [apply big_Bytes_fits, Z.abs_nonneg|]. apply Z.pow_le_mono_r; lia.
Qed.
End theorems.

(** ** Arguments of Move scripts: what is accepted and what the VM gets

    Values are written as strings, and the bytes made of them are their values again;
    whatever is accepted has the type asked for and bytes of its width. *)
Local Open Scope string_scope.
Local Open Scope Z_scope.
Local Open Scope list_scope.
Import vm_keeper vm_client.

(** ** Values *)
Inductive move_value :=
  | Move_bool (b : bool)
  | Move_u8 (n : Z)
  | Move_u64 (n : Z)
  | Move_u128 (n : Z)
  | Move_address (a : AccAddress)
  | Move_vector (bz : string).

Section values.
Context `{STL : SdkTypesLaws} `{SP : SdkParse} `{TTL : VmTypeTagsLaws} `{XH : XxHash}.

Definition type_of (v : move_value) : Z :=
  match v with
  | Move_bool _ => VMTypeTag_Bool | Move_u8 _ => VMTypeTag_U8 | Move_u64 _ => VMTypeTag_U64 | Move_u128 _ => VMTypeTag_U128
  | Move_address _ => VMTypeTag_Address | Move_vector _ => VMTypeTag_Vector
  end.
Definition fits (v : move_value) : Prop :=
  match v with
  | Move_u8 n => 0 ≤ n < 2 ^ 8 | Move_u64 n => 0 ≤ n < 2 ^ 64 | Move_u128 n => 0 ≤ n < 2 ^ 128
  | _ => True
  end.

(** *** As a client writes them *)
Definition printed (v : move_value) : string :=
  match v with
  | Move_bool b => if b then "true" else "false"
  | Move_u8 n | Move_u64 n => FormatUint n
  | Move_u128 n => Uint_String n
  | Move_address a => AccAddress_String a
  | Move_vector bz => "0x" +:+ hex_EncodeToString bz
  end.

(** *** As the VM reads them *)
Definition encoded (v : move_value) : ScriptArg :=
  MkScriptArg (type_of v)
    match v with
    | Move_bool b => String (byte_of (if b then 1 else 0)) ""
    | Move_u8 n => le_bytes 1 n
    | Move_u64 n => le_bytes 8 n
    | Move_u128 n => le_bytes 16 n
    | Move_address a => a
    | Move_vector bz => bz
    end.
Definition decoded (arg : ScriptArg) : option move_value :=
  let t := sa_Type arg in
  let bz := sa_Value arg in
  let number n (v : Z → move_value) := if decide (String.length bz = n) then Some (v (le_value bz)) else None in
  if decide (t = VMTypeTag_Bool) then if decide (bz = String (byte_of 1) "") then Some (Move_bool true) else
                                      if decide (bz = String (byte_of 0) "") then Some (Move_bool false) else None
  else if decide (t = VMTypeTag_U8) then number 1%nat Move_u8
  else if decide (t = VMTypeTag_U64) then number 8%nat Move_u64
  else if decide (t = VMTypeTag_U128) then number 16%nat Move_u128
  else if decide (t = VMTypeTag_Address) then Some (Move_address bz)
  else if decide (t = VMTypeTag_Vector) then Some (Move_vector bz)
  else None.

Lemma tags_distinct : VMTypeTag_Bool ≠ VMTypeTag_U64 ∧ VMTypeTag_Bool ≠ VMTypeTag_Vector ∧ VMTypeTag_Bool ≠ VMTypeTag_Address ∧
  VMTypeTag_Bool ≠ VMTypeTag_U8 ∧ VMTypeTag_Bool ≠ VMTypeTag_U128 ∧ VMTypeTag_U64 ≠ VMTypeTag_Vector ∧ VMTypeTag_U64 ≠ VMTypeTag_Address ∧
  VMTypeTag_U64 ≠ VMTypeTag_U8 ∧ VMTypeTag_U64 ≠ VMTypeTag_U128 ∧ VMTypeTag_Vector ≠ VMTypeTag_Address ∧ VMTypeTag_Vector ≠ VMTypeTag_U8 ∧
  VMTypeTag_Vector ≠ VMTypeTag_U128 ∧ VMTypeTag_Address ≠ VMTypeTag_U8 ∧ VMTypeTag_Address ≠ VMTypeTag_U128 ∧ VMTypeTag_U8 ≠ VMTypeTag_U128.
Proof. pose proof tags_differ as Hd. repeat (apply NoDup_cons in Hd as [? Hd]). set_solver. Qed.

(** The bytes hold the value. *)
Lemma decoded_encoded v : fits v → decoded (encoded v) = Some v.
Proof.
  pose proof tags_distinct as Hd. intros Hv. unfold decoded, encoded. cbn [sa_Type sa_Value].
  destruct v as [b|n|n|n|a|bz]; cbn [type_of]; repeat (destruct (decide _) as [?|?]; try (exfalso; intuition congruence); try done).
  all: try (by destruct b).
  all: first [by rw le_value_bytes|match goal with H : String.length _ ≠ _ |- _ => by destruct H; apply le_bytes_length end].
Qed.

(** ** Parsing *)

(** A decimal number is no hash. *)
Lemma parseXxHashUint_decimal z : parseXxHashUint (FormatUint z) = Ok (FormatUint z).
Proof.
  unfold FormatUint. pose proof (digits_value_pretty (Z.to_N z)) as E. pose proof (pretty_N_nonempty (Z.to_N z)) as Hne.
  destruct (pretty (Z.to_N z)) as [|c s]; [done|]. unfold parseXxHashUint.
  destruct (decide (c = "#"%char)) as [->|Hc]; [done|]. by destruct c as [[] [] [] [] [] [] [] []].
Qed.

Lemma two128_maxUint : 2 ^ 128 < maxUint.
Proof. by vm_compute. Qed.

Lemma convert_printed v : fits v →
  (∀ a, v = Move_address a → AccAddressFromBech32 (AccAddress_String a) = Ok a ∧ AccAddress_String a ≠ "") →
  convert_argument (printed v) (type_of v) = Ok (encoded v).
Proof.
  pose proof tags_distinct as Hd. intros Hv Hb. unfold convert_argument, encoded.
  destruct v as [b|n|n|n|a|bz]; cbn [type_of printed]; repeat (destruct (decide _) as [?|?]; try (exfalso; intuition congruence); try done).
  - by destruct b.
  - unfold NewU8ScriptArg. rw parseXxHashUint_decimal. cbn [mbind outcome_bind]. by rw ParseUint_Format.
  - unfold NewU64ScriptArg. rw parseXxHashUint_decimal. cbn [mbind outcome_bind]. by rw ParseUint_Format.
  - unfold NewU128ScriptArg, u128_body. cbn in Hv. pose proof (Z.lt_trans _ _ _ (proj2 Hv) two128_maxUint) as Hmax.
    pose proof (NewUintFromString_String n (conj (proj1 Hv) Hmax)) as Hp. rw Uint_String_decimal in Hp; [|exact (proj1 Hv)].
    rw Uint_String_decimal; [|exact (proj1 Hv)]. fold (FormatUint n) in Hp |- *. rw parseXxHashUint_decimal. cbn [mbind outcome_bind]. rw Hp. cbn [mbind outcome_bind].
    assert ((128 <? big_BitLen n) = false) as -> by (apply Z.ltb_ge, big_BitLen_bound; first [exact (proj1 Hv)|exact (proj2 Hv)|done]). cbn [fail_if mbind outcome_bind].
    rw -(big_Bytes_le n 16); [|done]. unfold big_Bytes. rw reverse_be_bytes le_bytes_length length_be_bytes. f_equal. f_equal.
    destruct (Nat.ltb_spec (Z.to_nat ((big_BitLen n + 7) / 8)) 16) as [|Hge]; [done|].
    rw (proj2 (Nat.sub_0_le 16 _) Hge). by rw string_app_nil_r.
  - destruct (Hb a eq_refl) as [E Hne]. unfold NewAddressScriptArg. rw bool_decide_false; [|done]. cbn [fail_if mbind outcome_bind]. by rw E.
  - unfold NewVectorScriptArg. cbn [fail_if mbind outcome_bind]. rw TrimPrefix_app hex_DecodeString_Encode. done.
Qed.

(** C40: values come back: whatever list of values is written down and converted, each
    with its type, the arguments are the encodings of the values, and the VM reads the
    values from them. *)
Theorem arguments_roundtrip (vs : list move_value) :
  Forall fits vs → (∀ a, Move_address a ∈ vs → AccAddressFromBech32 (AccAddress_String a) = Ok a ∧ AccAddress_String a ≠ "") →
  ConvertStringScriptArguments (printed <$> vs) (type_of <$> vs) = Ok (encoded <$> vs) ∧
  decoded <$> (encoded <$> vs) = Some <$> vs.
Proof.
  intros Hfit Haddr. split.
  - unfold ConvertStringScriptArguments. rewrite !length_fmap Nat.eqb_refl. cbn [negb fail_if mbind outcome_bind].
    induction vs as [|v vs IH]; [done|]. apply Forall_cons in Hfit as [Hv Hfit]. rewrite !fmap_cons. cbn [convert_arguments].
    rw convert_printed; [|done|intros a ->; apply Haddr; left]. cbn [mbind outcome_bind]. rw IH; [done|done|]. intros a Ha. apply Haddr. by right.
  - rewrite -list_fmap_compose. apply list_fmap_ext. intros i v Hv. apply decoded_encoded. by eapply Forall_lookup_1.
Qed.

(** ** Whatever is accepted *)
Hypothesis bech32_returns : ∀ s, AccAddressFromBech32 s ≠ Panic.
Hypothesis uint_positive : ∀ s z, NewUintFromString s = Ok z → 0 ≤ z.

Lemma parseXxHashUint_no_panic s : parseXxHashUint s ≠ Panic.
Proof.
  unfold parseXxHashUint. destruct s as [|c s]; [done|].
  destruct (decide (c = "#"%char)) as [->|Hc]; [by destruct (_ <? _)%nat|by destruct c as [[] [] [] [] [] [] [] []]].
Qed.

Lemma hex_DecodeString_no_panic s : hex_DecodeString s ≠ Panic.
Proof.
  remember (String.length s) as n eqn:En. assert (String.length s ≤ n)%nat as Hn by lia. clear En. revert s Hn.
  induction n as [|n IH]; intros [|c [|d s]] Hn; try done; try (cbn in Hn; lia). cbn [hex_DecodeString]. destruct (hex_val c), (hex_val d); try done.
  specialize (IH s ltac:(cbn in Hn; lia)). by destruct (hex_DecodeString s).
Qed.

Ltac convert_step :=
  match goal with
  | |- context [parseXxHashUint ?s] => pose proof (parseXxHashUint_no_panic s); destruct (parseXxHashUint s) eqn:?; cbn [mbind outcome_bind]; try done
  | |- context [ParseUint ?s ?b] => pose proof (ParseUint_no_panic s b); destruct (ParseUint s b) eqn:?; cbn [mbind outcome_bind]; try done
  end.

Lemma convert_argument_sound s t : match convert_argument s t with
  | Ok arg => ∃ v, arg = encoded v ∧ type_of v = t ∧ fits v
  | Err _ => True
  | Panic => False
  end.
Proof.
  unfold convert_argument. repeat (destruct (decide _) as [->|_]); [..|done].
  - unfold NewAddressScriptArg. destruct (bool_decide _); [done|]. cbn [fail_if mbind outcome_bind]. pose proof (bech32_returns s) as Hb.
    destruct (AccAddressFromBech32 s) as [a| |]; [|done..]. by exists (Move_address a).
  - unfold NewU8ScriptArg. repeat convert_step. match goal with H : ParseUint _ 8 = Ok ?z |- _ => exists (Move_u8 z); apply ParseUint_range in H end. done.
  - unfold NewU64ScriptArg. repeat convert_step. match goal with H : ParseUint _ 64 = Ok ?z |- _ => exists (Move_u64 z); apply ParseUint_range in H end. done.
  - unfold NewU128ScriptArg, u128_body. convert_step. destruct (NewUintFromString _) as [n| |] eqn:En; [|done..]. cbn [mbind outcome_bind].
    apply uint_positive in En. destruct (Z.ltb_spec 128 (big_BitLen n)) as [|Hlen]; [done|]. cbn [fail_if mbind outcome_bind].
    apply big_BitLen_bound in Hlen; [|done..]. exists (Move_u128 n). split; [|done]. unfold encoded. cbn [type_of]. f_equal.
    rw -(big_Bytes_le n 16); [|done]. unfold big_Bytes. rw reverse_be_bytes le_bytes_length length_be_bytes.
    destruct (Nat.ltb_spec (Z.to_nat ((big_BitLen n + 7) / 8)) 16) as [|Hge]; [done|]. replace (16 - _)%nat with 0%nat by lia. by rw string_app_nil_r.
  - unfold NewBoolScriptArg. unfold ParseBool. destruct (bool_decide _); [by exists (Move_bool true)|]. destruct (bool_decide _); [by exists (Move_bool false)|done].
  - unfold NewVectorScriptArg. destruct (bool_decide _); [done|]. cbn [fail_if mbind outcome_bind].
    pose proof (hex_DecodeString_no_panic (TrimPrefix s "0x")) as Hhex. destruct (hex_DecodeString _) as [bz| |]; [|done..]. by exists (Move_vector bz).
Qed.

(** Converting arguments never panics, whatever a client wrote; what is accepted are
    the encodings of values of the types asked for, one for each, within their bounds. *)
Theorem accepted_arguments_are_typed strs types :
  match ConvertStringScriptArguments strs types with
  | Ok args => ∃ vs, args = encoded <$> vs ∧ type_of <$> vs = types ∧ length vs = length strs ∧ Forall fits vs
  | Err _ => True
  | Panic => False
  end.
Proof.
  unfold ConvertStringScriptArguments. destruct (Nat.eqb_spec (length strs) (length types)) as [El|]; [|done]. cbn [negb fail_if mbind outcome_bind].
  revert types El. induction strs as [|s strs IH]; intros [|t types] El; try done; [by exists []|]. cbn [convert_arguments].
  pose proof (convert_argument_sound s t) as Hs. destruct (convert_argument s t) as [arg| |]; [|done..]. cbn [mbind outcome_bind].
  specialize (IH types ltac:(by injection El)). destruct (convert_arguments strs types) as [args| |]; [|done..]. cbn [mbind outcome_bind].
  destruct Hs as (v & -> & Et & Hf), IH as (vs & -> & Ets & Elen & Hfs). exists (v :: vs). rewrite !fmap_cons Et Ets. split_and!; [done|done| |by constructor].
  cbn. by rw Elen.
Qed.
End values.

(** ** Parameters and arguments: the theorems on concrete strings *)
Local Open Scope string_scope.
Local Open Scope Z_scope.
Local Open Scope list_scope.
Import vm_keeper vm_client.

(** Addresses are their own strings. *)
#[local] Instance demo_parse : SdkParse := {|
  AccAddressFromBech32 s := if decide (s = "") then Err (Plain "empty address") else Ok s;
  ParseCoins s := Ok [];
|}.
#[local] Instance demo_params : SdkParamParse := {|
  NewDecFromStr s := Err (Plain "decimal");
  AccAddressFromHex s := hex_DecodeString s;
  ParseCoin s := if decide (s = "") then Panic else Ok (MkCoin "xfi" 5);
  Int_Int64 z := if (- 2 ^ 63 <=? z) && (z <? 2 ^ 63) then Ok z else Panic;
|}.
#[local] Instance demo_tags : VmTypeTags := {|
  VMTypeTag_Bool := 0; VMTypeTag_U64 := 1; VMTypeTag_Vector := 2; VMTypeTag_Address := 3; VMTypeTag_U8 := 4; VMTypeTag_U128 := 5 |}.
#[local] Instance demo_tags_laws : VmTypeTagsLaws.
Proof. unfold VmTypeTagsLaws. apply (bool_decide_unpack _). vm_compute. exact I. Qed.
#[local] Instance demo_hash : XxHash := {| xxhash_Sum64 s := 42 |}.

Lemma bech32_returns s : AccAddressFromBech32 s ≠ Panic.
Proof. simpl. by destruct (decide _). Qed.
Lemma uint_positive s z : NewUintFromString s = Ok z → 0 ≤ z.
Proof.
  simpl. unfold ref_NewUintFromString. destruct (decide _); [done|]. destruct (digits_value 0 s) as [v|] eqn:E; [|done].
  pose proof (digits_value_nonneg 0 s v ltac:(done) E) as Hn. unfold checkUint, range_check. destruct (_ && _); [|done]. by intros [= <-].
Qed.
Lemma int_range s z : NewIntFromString s = Some z → - maxInt < z < maxInt.
Proof.
  simpl. pose proof (uint_positive s) as Hp. simpl in Hp. destruct (ref_NewUintFromString s) as [n| |]; [|done..]. specialize (Hp n eq_refl).
  destruct (Z.ltb_spec n maxInt); [|done]. intros [= <-]. assert (0 < maxInt) by done. lia.
Qed.

(** ** Arguments *)
Definition demo_values : list move_value :=
  [Move_bool true; Move_u8 255; Move_u64 258; Move_u128 (2 ^ 127 + 1); Move_address "alice"; Move_vector "bytes"].
Lemma arguments_roundtrip_witness :
  ConvertStringScriptArguments ["true"; "255"; "258"; "170141183460469231731687303715884105729"; "alice"; "0x6279746573"] [0; 4; 1; 5; 3; 2] =
    Ok (encoded <$> demo_values) ∧
  decoded <$> (encoded <$> demo_values) = Some <$> demo_values.
Proof.
  assert (Forall fits demo_values) as Hfit by (repeat constructor; vm_compute; try reflexivity; discriminate).
  destruct (arguments_roundtrip demo_values Hfit) as [E1 E2].
  - intros a Ha. assert (a = "alice") as ->.
    { unfold demo_values in Ha. rewrite !elem_of_cons in Ha. repeat (destruct Ha as [E|Ha]; [first [discriminate E|by injection E]|]). by apply elem_of_nil in Ha. }
    split; [reflexivity|discriminate].
  - split; [rw -E1; vm_compute; reflexivity|exact E2].
Defined.

(** Hashes, a number too large, a hexadecimal digit missing. *)
Example hashed_argument : ConvertStringScriptArguments ["#BTC"] [4] = Ok [MkScriptArg 4 "*"].
Proof. vm_compute. reflexivity. Qed.
Lemma accepted_arguments_are_typed_witness : ∃ vs, ConvertStringScriptArguments ["#BTC"; "0x"] [4; 2] = Ok (encoded <$> vs) ∧
  type_of <$> vs = [4; 2] ∧ Forall fits vs ∧ ConvertStringScriptArguments ["256"] [4] = Err ErrRange.
Proof.
  pose proof (accepted_arguments_are_typed bech32_returns uint_positive ["#BTC"; "0x"] [4; 2]) as H.
  destruct (ConvertStringScriptArguments ["#BTC"; "0x"] [4; 2]) as [args|e|] eqn:E; [|vm_compute in E; discriminate E|destruct H].
  destruct H as (vs & -> & Ht & _ & Hf). exists vs. split; [reflexivity|]. split; [exact Ht|]. split; [exact Hf|]. vm_compute. reflexivity.
Defined.

(** ** Pages *)
Lemma pages_are_served_witness : page_of [1; 2; 3; 4; 5] 2 3 = Ok [4; 5] ∧ page_of [1; 2; 3; 4; 5] (2 ^ 64) 100 = Panic.
Proof.
  split.
  - destruct (pages_are_served int_range [1; 2; 3; 4; 5] "2" "3" 2 3) as [Hp _]; [vm_compute; reflexivity|reflexivity|].
    rw Hp; reflexivity.
  - destruct (pages_are_served int_range [1; 2; 3; 4; 5] "18446744073709551616" "" (2 ^ 64) 100) as [_ Hp]; [vm_compute; reflexivity|reflexivity|].
    apply Hp; [discriminate|discriminate].
Defined.
(** Within 64 bits the product of page and limit can still wrap around, to a page that
    starts after its end. *)
Example wrapped_page : page_of [1; 2; 3; 4; 5; 6] (2 ^ 64 - 4) (2 ^ 64 - 1) = Panic.
Proof. vm_compute. reflexivity. Qed.

Lemma hex_returns s : AccAddressFromHex s ≠ Panic.
Proof. apply hex_DecodeString_no_panic. Qed.
Lemma parsers_keep_bounds_witness : helpers.ParseUint8Param "256" = Err helpers.errParam ∧ helpers.ParseInt64Param "-7" = Ok (-7) ∧
  helpers.ParseCoinParam "5xfi" = Ok (MkCoin "xfi" 5) ∧ helpers.ParseCoinParam "" = Err helpers.errParam ∧
  ∃ z, NewIntFromString "9223372036854775808" = Some z ∧ ¬ - 2 ^ 63 ≤ z < 2 ^ 63.
Proof.
  pose proof (parsers_keep_bounds int_range bech32_returns hex_returns (λ _, eq_refl)) as (_ & _ & _ & _ & _ & _ & Htime).
  split_and!; [vm_compute; reflexivity..|]. specialize (Htime "9223372036854775808").
  destruct (helpers.ParseUnixTimestamp "9223372036854775808") eqn:E; [vm_compute in E; discriminate E|vm_compute in E; discriminate E|exact Htime].
Defined.
