(* ===== verification/Queries.v ===== *)
(** * Queries of markets and orders ([x/markets/internal/keeper/querier.go],
    [x/orders/internal/keeper/querier.go])

    A query names an endpoint and carries its parameters as JSON. *)
From S2P Require Import Prelude Bytes Sdk DnTypes Perms Chain Currency VMStorage CCStorage Markets MarketsFacts Orders.
Local Open Scope string_scope.
Local Open Scope Z_scope.

Module market_queries.
Definition QueryList := "list".
Definition QueryMarket := "market".
Record MarketReq := MkMarketReq { mreq_ID : ID }.

Section querier.
Context `{ST : SdkTypes} `{KV : KVStore} `{LG : Ledger} `{CS : !CurrencyStorage}.
Context `{CM : !Codec Market} `{CI : !Codec Z} `{CL : !Codec (list Market)} `{CP : !Codec markets.MarketsReq} `{CR : !Codec MarketReq}.
Variable modulePerms : ModulePermissions.

Definition queryList (data : string) : M string :=
  match Unmarshal (A := markets.MarketsReq) JSON data with
  | None => throw markets.ErrInternal
  | Some params => list ← markets.GetListFiltered modulePerms params; mret (Marshal JSON list)
  end.
Definition queryMarket (data : string) : M string :=
  match Unmarshal (A := MarketReq) JSON data with
  | None => throw markets.ErrInternal
  | Some params => market ← markets.Get modulePerms (mreq_ID params); mret (Marshal JSON market)
  end.
(** The querier's calls are those of its module. *)
Definition NewQuerier (path : list string) (data : string) : M string :=
  in_module markets.ModuleName
    match path with
    | [] => panic
    | endpoint :: _ =>
        if decide (endpoint = QueryList) then queryList data
        else if decide (endpoint = QueryMarket) then queryMarket data
        else throw ErrUnknownRequest
    end.
End querier.
End market_queries.

Module order_queries.
Definition QueryList := "list".
Definition QueryOrder := "order".
Record OrderReq := MkOrderReq { oreq_ID : ID }.

Section querier.
Context `{ST : SdkTypes} `{KV : KVStore} `{LG : Ledger} `{CS : !CurrencyStorage}.
Context `{CO : !Codec Order} `{CL : !Codec (list Order)} `{CP : !Codec orders.OrdersReq} `{CR : !Codec OrderReq}.
Variable modulePerms : ModulePermissions.

Definition queryList (data : string) : M string :=
  match Unmarshal (A := orders.OrdersReq) JSON data with
  | None => throw orders.ErrInternal
  | Some params => list ← orders.GetListFiltered modulePerms params; mret (Marshal JSON list)
  end.
Definition queryOrder (data : string) : M string :=
  match Unmarshal (A := OrderReq) JSON data with
  | None => throw orders.ErrInternal
  | Some params => order ← orders.Get modulePerms (oreq_ID params); mret (Marshal JSON order)
  end.
Definition NewQuerier (path : list string) (data : string) : M string :=
  in_module orders.ModuleName
    match path with
    | [] => panic
    | endpoint :: _ =>
        if decide (endpoint = QueryList) then queryList data
        else if decide (endpoint = QueryOrder) then queryOrder data
        else throw ErrUnknownRequest
    end.
End querier.
End order_queries.

(** ** Queries of markets and orders: they only read *)
Local Open Scope string_scope.
Local Open Scope Z_scope.

Section markets.
Context `{ST : SdkTypes} `{KV : KVStore} `{LG : Ledger} `{CS : !CurrencyStorage}.
Context `{CM : !Codec Market} `{CI : !Codec Z} `{CL : !Codec (list Market)} `{CP : !Codec markets.MarketsReq} `{CR : !Codec market_queries.MarketReq}.
Variable modulePerms : ModulePermissions.
Lemma market_queries_read path data : reads (market_queries.NewQuerier modulePerms path data).
Proof.
  unfold market_queries.NewQuerier. apply reads_in_module. destruct path as [|endpoint _]; [done|].
  destruct (decide _); [|destruct (decide _); [|done]].
  - unfold market_queries.queryList. destruct (Unmarshal JSON data) as [params|]; [|done]. apply reads_bind; [by apply reads_GetListFiltered|done].
  - unfold market_queries.queryMarket. destruct (Unmarshal JSON data) as [params|]; [|done]. apply reads_bind; [by apply reads_Get|done].
Qed.
End markets.

Section orders.
Context `{ST : SdkTypes} `{KV : KVStore} `{LG : Ledger}.
Context `{CO : !Codec Order} `{CL : !Codec (list Order)} `{CP : !Codec orders.OrdersReq} `{CR : !Codec order_queries.OrderReq}.
Variable modulePerms : ModulePermissions.

Lemma reads_order id : reads (orders.Get modulePerms id).
Proof.
  unfold orders.Get. apply reads_keeper_method, reads_bind; [done|]. intros key. apply reads_bind; [apply reads_kv_Get|].
  intros [bz|]; [apply reads_MustUnmarshal|done].
Qed.
Lemma reads_orders params : reads (orders.GetListFiltered modulePerms params).
Proof.
  unfold orders.GetListFiltered. apply reads_keeper_method, reads_bind.
  - unfold orders.GetList. apply reads_keeper_method, reads_bind; [apply reads_keeper_method, reads_kv_PrefixIterator|].
    intros kvs. apply reads_mapM. intros kv. by destruct (Unmarshal LengthPrefixed kv.2).
  - intros l. apply reads_bind; [done|]. intros filtered. apply reads_bind; [done|]. intros range. apply reads_lift.
Qed.
Lemma order_queries_read path data : reads (order_queries.NewQuerier modulePerms path data).
Proof.
  unfold order_queries.NewQuerier. apply reads_in_module. destruct path as [|endpoint _]; [done|].
  destruct (decide _); [|destruct (decide _); [|done]].
  - unfold order_queries.queryList. destruct (Unmarshal JSON data) as [params|]; [|done]. apply reads_bind; [by apply reads_orders|done].
  - unfold order_queries.queryOrder. destruct (Unmarshal JSON data) as [params|]; [|done]. apply reads_bind; [by apply reads_order|done].
Qed.
End orders.
