(* ===== verification/GenesisCommands.v ===== *)
(** * Commands that edit the genesis file ([x/*/client/cli/genesis.go])

    Each parses its arguments, changes the genesis state of one module and puts it back
    into the application's state.  Reading and writing the file are input and output: a
    command takes the state that was read and returns the state that is written. *)
From S2P Require Import Prelude Bytes Sdk SdkFacts DnTypes Perms Chain SdkBank SdkAuth Currency VMStorage CCStorage Markets Poa Oracle VMAuth VMAuthFacts GenAccounts Strconv Parsers.
Local Open Scope string_scope.
Local Open Scope Z_scope.

Module genesis_commands.

(** The application's state: the JSON of every module. *)
Definition AppState : Type := gmap string string.

(** [cdc.MustUnmarshalJSON], [cdc.MustMarshalJSON] of a module's state. *)
Definition module_state {A} `{Codec A} (moduleName : string) (appState : AppState) : outcome A :=
  match appState !! moduleName with
  | Some bz => match Unmarshal JSON bz with Some a => Ok a | None => Panic end
  | None => Panic
  end.
Definition with_state {A} `{Codec A} (moduleName : string) (a : A) (appState : AppState) : AppState :=
  <[moduleName := Marshal JSON a]> appState.

(** The index of the first element, the [foundIdx] of a loop. *)
Fixpoint find_index {A} (f : A → bool) (l : list A) : option nat :=
  match l with
  | [] => None
  | x :: l' => if f x then Some 0%nat else S <$> find_index f l'
  end.

Section commands.
Context `{ST : SdkTypes} `{SC : SdkCoins} `{SP : SdkParse} `{SQ : SdkParamParse} `{AA : AuthAccounts}.
Context `{CC : !Codec ccstorage.GenesisState} `{CM : !Codec markets.GenesisState} `{CP : !Codec poa.GenesisState}.
Context `{CO : !Codec oracle.GenesisState} `{CG : !Codec genaccounts.GenesisState}.

(** *** [set-currency denom decimals [ERC20ContractAddress]] *)
Definition put_currency (params : CurrencyParams) (state : ccstorage.GenesisState) : ccstorage.GenesisState :=
  let l := ccstorage.gs_CurrenciesParams state in
  ccstorage.MkGenesisState
    match find_index (λ p, bool_decide (cp_Denom p = cp_Denom params)) l with
    | None => l ++ [params]
    | Some foundIdx => <[foundIdx := params]> l
    end.
Definition AddGenesisCurrencyInfo (args : list string) (appState : AppState) : outcome AppState :=
  let denom := nth 0 args "" in
  helpers.ValidateDenomParam denom;;
  decimals ← helpers.ParseUint8Param (nth 1 args "");
  let contractAddress := nth 2 args "" in
  (if bool_decide (contractAddress = "") then Ok "" else helpers.ParseEthereumAddressParam contractAddress);;
  state ← module_state ccstorage.ModuleName appState;
  let params := MkCurrencyParams denom decimals contractAddress in
  ccstorage.CurrencyParams_Validate params;;
  Ok (with_state ccstorage.ModuleName (put_currency params state) appState).

(** *** [add-market-gen base_denom quote_denom] *)
Definition denoms_found (base quote : string) (l : list CurrencyParams) : bool * bool :=
  foldl (λ found params,
    if bool_decide (cp_Denom params = base) then (true, found.2)
    else if bool_decide (cp_Denom params = quote) then (found.1, true)
    else found) (false, false) l.
Definition put_market (base quote : string) (state : markets.GenesisState) : outcome markets.GenesisState :=
  id ← match markets.gs_LastMarketID state with None => Ok NewZeroID | Some marketID => ID_Incr marketID end;
  Ok (markets.MkGenesisState (markets.gs_Markets state ++ [MkMarket id base quote]) (Some id)).
Definition AddMarketGenCmd (args : list string) (appState : AppState) : outcome AppState :=
  let baseDenom := nth 0 args "" in let quoteDenom := nth 1 args "" in
  helpers.ValidateDenomParam baseDenom;;
  helpers.ValidateDenomParam quoteDenom;;
  genesisCCS ← module_state (A := ccstorage.GenesisState) ccstorage.ModuleName appState;
  genesisMarket ← module_state markets.ModuleName appState;
  let found := denoms_found baseDenom quoteDenom (ccstorage.gs_CurrenciesParams genesisCCS) in
  fail_if (negb found.1) (Plain "base asset denom currency not registered");;
  fail_if (negb found.2) (Plain "quote asset denom currency not registered");;
  genesisMarket ← put_market baseDenom quoteDenom genesisMarket;
  Ok (with_state markets.ModuleName genesisMarket appState).

(** *** [add-genesis-poa-validator address ethAddress] *)
Definition AddGenesisPoAValidatorCmd (args : list string) (appState : AppState) : outcome AppState :=
  sdkAddr ← helpers.ParseSdkAddressParam (nth 0 args "");
  ethAddr ← helpers.ParseEthereumAddressParam (nth 1 args "");
  state ← module_state poa.ModuleName appState;
  let state := poa.MkGenesisState (poa.gs_Parameters state) (poa.gs_Validators state ++ [poa.NewValidator sdkAddr ethAddr]) in
  poa.GenesisState_Validate state true;;
  Ok (with_state poa.ModuleName state appState).

(** *** [add-genesis-account address_or_key_name coins]: [key_address] looks a key up *)
Variable key_address : string → outcome AccAddress.
Definition AddGenesisAccountCmd (args : list string) (moduleName : string) (appState : AppState) : outcome AppState :=
  addr ← match AccAddressFromBech32 (nth 0 args "") with Err _ => key_address (nth 0 args "") | r => r end;
  coins ← ParseCoins (nth 1 args "");
  let genAcc := genaccounts.NewGenesisAccountRaw addr coins moduleName in
  genaccounts.GenesisAccount_Validate genAcc;;
  genesisAccounts ← module_state (A := genaccounts.GenesisState) genaccounts.ModuleName appState;
  fail_if (genaccounts.Contains genesisAccounts addr) (Plain "cannot add account at existing address");;
  Ok (with_state (A := genaccounts.GenesisState) genaccounts.ModuleName (genesisAccounts ++ [genAcc])%list appState).

(** *** [add-oracle-nominees-gen nomineeAddresses] *)
Definition added_nominee (nominees : list string) (n : AccAddress) : list string :=
  match filter (λ nn, AccAddress_String n = nn) nominees with
  | [] => [AccAddress_String n]
  | found => found
  end.
Definition put_nominees (addresses : list AccAddress) (state : oracle.GenesisState) : oracle.GenesisState :=
  let p := oracle.gs_Params state in
  oracle.MkGenesisState
    (oracle.MkParams (oracle.p_Assets p) (addresses ≫= added_nominee (oracle.p_Nominees p)) (oracle.p_PostPrice p))
    (oracle.gs_CurrentPrices state).
Definition AddOracleNomineesCmd (args : list string) (appState : AppState) : outcome AppState :=
  addresses ← helpers.ParseSdkAddressesParams (nth 0 args "");
  state ← module_state oracle.ModuleName appState;
  Ok (with_state oracle.ModuleName (put_nominees addresses state) appState).

(** *** [add-oracle-asset-gen assetCode oracleAddresses] *)
Definition parseOraclesArg (argValue : string) : outcome (list oracle.Oracle) :=
  addresses ← helpers.ParseSdkAddressesParams argValue;
  Ok (map oracle.NewOracle addresses).
Definition put_asset (assetCode : string) (oracles : list oracle.Oracle) (state : oracle.GenesisState) : oracle.GenesisState :=
  let p := oracle.gs_Params state in
  let l := oracle.p_Assets p in
  oracle.MkGenesisState
    (oracle.MkParams
      match find_index (λ asset, bool_decide (oracle.as_AssetCode asset = assetCode)) l with
      | None => l ++ [oracle.NewAsset assetCode oracles true]
      | Some foundIdx => alter (λ asset, oracle.MkAsset (oracle.as_AssetCode asset) oracles (oracle.as_Active asset)) foundIdx l
      end (oracle.p_Nominees p) (oracle.p_PostPrice p))
    (oracle.gs_CurrentPrices state).
Definition AddAssetGenCmd (args : list string) (appState : AppState) : outcome AppState :=
  assetCode ← helpers.ParseAssetCodeParam (nth 0 args "");
  oracles ← parseOraclesArg (nth 1 args "");
  fail_if (length oracles =? 0)%nat (Plain "empty slice");;
  state ← module_state oracle.ModuleName appState;
  Ok (with_state oracle.ModuleName (put_asset assetCode oracles state) appState).
End commands.
End genesis_commands.

(** ** Theorems *)
Import genesis_commands.

Lemma find_index_Some {A} (f : A → bool) l i : find_index f l = Some i → ∃ x, l !! i = Some x ∧ f x = true.
Proof.
  revert i. induction l as [|x l IH]; intros i E; [done|]. simpl in E. destruct (f x) eqn:Ef; [injection E as <-; by exists x|].
  destruct (find_index f l) as [j|]; [|done]. injection E as <-. by apply IH.
Qed.
Lemma find_index_None {A} (f : A → bool) l : find_index f l = None → ∀ x, x ∈ l → f x = false.
Proof.
  induction l as [|x l IH]; intros E y Hy; [by apply elem_of_nil in Hy|]. simpl in E. destruct (f x) eqn:Ef; [done|].
  apply elem_of_cons in Hy as [->|Hy]; [done|]. apply IH; [by destruct (find_index f l)|done].
Qed.

(** A loop that collects distinct names and checks each element. *)
Section distinct.
Context {A : Type} (name : A → string) (check : A → outcome unit) (f : gset string → A → outcome (gset string)).
Hypothesis f_spec : ∀ seen x seen', f seen x = Ok seen' ↔ name x ∉ seen ∧ check x = Ok tt ∧ seen' = {[name x]} ∪ seen.

Lemma distinct_loop l seen : (∃ seen', foldM f seen l = Ok seen') ↔
  NoDup (name <$> l) ∧ (∀ x, x ∈ l → check x = Ok tt) ∧ ∀ x, x ∈ l → name x ∉ seen.
Proof.
  revert seen. induction l as [|x l IH]; intros seen.
  { split; [|by exists seen]. intros _. split; [constructor|]. split; by intros ? ?%elem_of_nil. }
  cbn [foldM]. split.
  - intros (s & (s1 & (Hn & Hc & ->)%f_spec & Hrun)%outcome_bind_inv).
    destruct (proj1 (IH ({[name x]} ∪ seen)) (ex_intro _ s Hrun)) as (Hnd & Hch & Hnew). split.
    + rw fmap_cons. constructor; [|done]. intros (y & E & Hy)%list_elem_of_fmap. specialize (Hnew y Hy). set_solver.
    + split; intros y [->|Hy]%elem_of_cons; [done|by apply Hch|done|specialize (Hnew y Hy); set_solver].
  - intros (Hnd & Hch & Hnew). rw fmap_cons in Hnd. apply NoDup_cons in Hnd as [Hx Hnd].
    assert (f seen x = Ok ({[name x]} ∪ seen)) as -> by (apply f_spec; split; [apply Hnew; left|split; [apply Hch; left|done]]).
    rw outcome_bind_ok. apply IH. split; [done|]. split; [intros y Hy; apply Hch; by right|].
    intros y Hy Hin. apply elem_of_union in Hin as [E%elem_of_singleton|Hin]; [|by apply (Hnew y); [right|]].
    apply Hx. rw -E. by apply list_elem_of_fmap_2.
Qed.
End distinct.

Section currency.
Context `{ST : SdkTypes}.
Import ccstorage.

(** A currency genesis is valid: distinct, valid denominations. *)
Lemma currencies_valid s : GenesisState_Validate s = Ok tt ↔
  NoDup (cp_Denom <$> gs_CurrenciesParams s) ∧ ∀ p, p ∈ gs_CurrenciesParams s → DenomFilter (cp_Denom p) = Ok tt.
Proof.
  pose proof (distinct_loop cp_Denom CurrencyParams_Validate Validate_params) as Hl. unfold GenesisState_Validate.
  assert (∀ seen x seen', Validate_params seen x = Ok seen' ↔ cp_Denom x ∉ seen ∧ CurrencyParams_Validate x = Ok tt ∧ seen' = {[cp_Denom x]} ∪ seen) as Hf.
  { intros seen x seen'. unfold Validate_params. case_bool_decide; cbn [fail_if]; [by split; [|intros [? _]]|]. rw outcome_bind_ok.
    destruct (CurrencyParams_Validate x) as [[]| |]; simpl; naive_solver. }
  specialize (Hl Hf (gs_CurrenciesParams s) ∅). split.
  - intros (s' & Hrun & _)%outcome_bind_inv. by destruct (proj1 Hl (ex_intro _ s' Hrun)) as (? & ? & _).
  - intros [Hnd Hc]. destruct (proj2 Hl) as [s' ->]; [|done]. split; [done|]. split; [exact Hc|set_solver].
Qed.

(** [set-currency] keeps the genesis valid: the currency has the new parameters and every
    other one is as before. *)
Theorem set_currency_keeps_valid params s : GenesisState_Validate s = Ok tt → CurrencyParams_Validate params = Ok tt →
  let s' := put_currency params s in
  GenesisState_Validate s' = Ok tt ∧ ∀ p, p ∈ gs_CurrenciesParams s' ↔
    p = params ∨ (p ∈ gs_CurrenciesParams s ∧ cp_Denom p ≠ cp_Denom params).
Proof.
  rw !currencies_valid. intros [Hnd Hc] Hp. simpl. set (l := gs_CurrenciesParams s) in *. unfold put_currency. fold l. simpl.
  destruct (find_index _ l) as [i|] eqn:E.
  - apply find_index_Some in E as (q & Hi & Hq%bool_decide_eq_true).
    assert (cp_Denom <$> <[i:=params]> l = cp_Denom <$> l) as Eden.
    { rw list_fmap_insert. apply list_insert_id. rw list_lookup_fmap Hi. simpl. by rw Hq. }
    assert (∀ p, p ∈ <[i:=params]> l ↔ p = params ∨ (p ∈ l ∧ cp_Denom p ≠ cp_Denom params)) as Hel.
    { intros p. rw !list_elem_of_lookup. split.
      - intros (j & Hj). destruct (decide (i = j)) as [<-|Hne].
        + rw list_lookup_insert_eq in Hj; [by injection Hj as <-; left|by eapply lookup_lt_Some].
        + rw list_lookup_insert_ne in Hj; [|done]. right. split; [by exists j|]. intros Ed. apply Hne.
          eapply (NoDup_lookup _ _ _ (cp_Denom q) Hnd); rw list_lookup_fmap; [by rw Hi|rw Hj; simpl; by rw Ed Hq].
      - intros [->|[(j & Hj) Hne]]; [exists i; apply list_lookup_insert_eq; by eapply lookup_lt_Some|].
        exists j. rw list_lookup_insert_ne; [done|]. intros <-. rw Hi in Hj. injection Hj as ->. done. }
    split; [|done]. apply currencies_valid. simpl. split; [by rw Eden|]. intros p [->|[Hin _]]%Hel; [exact Hp|by apply Hc].
  - pose proof (find_index_None _ _ E) as Hno. assert (∀ p, p ∈ l → cp_Denom p ≠ cp_Denom params) as Hne.
    { intros p Hin Ep. specialize (Hno p Hin). by rw bool_decide_true in Hno. }
    assert (∀ p, p ∈ (l ++ [params])%list ↔ p = params ∨ (p ∈ l ∧ cp_Denom p ≠ cp_Denom params)) as Hel.
    { intros p. rw elem_of_app list_elem_of_singleton. specialize (Hne p). naive_solver. }
    split; [|done]. apply currencies_valid. simpl. split; [|intros p [->|[Hin _]]%Hel; [exact Hp|by apply Hc]].
    rw fmap_app. apply NoDup_app. split; [done|]. split; [|apply NoDup_singleton].
    intros d (p & -> & Hin)%list_elem_of_fmap Hd%list_elem_of_singleton. by apply (Hne p).
Qed.
End currency.

Section market.
Context `{STL : SdkTypesLaws}.
Import markets.

Lemma Validate_markets_run l mx seen acc : foldM Validate_market (mx, seen) l = Ok acc →
  mx ≤ acc.1 ∧ (∀ m, m ∈ l → mkt_ID m ≤ acc.1) ∧
  ∀ k, k ∈ acc.2 → k ∈ seen ∨ ∃ m, m ∈ l ∧ k = ID_String (mkt_ID m).
Proof.
  revert mx seen. induction l as [|m l IH]; intros mx seen Hrun.
  { injection Hrun as <-. split; [simpl; lia|]. split; [by intros ? ?%elem_of_nil|by left]. }
  cbn [foldM] in Hrun. apply outcome_bind_inv in Hrun as ([mx1 seen1] & H1 & Hrun). unfold Validate_market in H1.
  apply outcome_bind_inv in H1 as ([] & _ & H1). apply outcome_bind_inv in H1 as ([] & _ & H1).
  injection H1 as E1 E2. destruct (IH _ _ Hrun) as (Hm & Hall & Hk). unfold ID_GT in E1.
  assert (mx ≤ mx1 ∧ mkt_ID m ≤ mx1) as [? ?] by (subst mx1; destruct (Z.ltb_spec mx (mkt_ID m)); lia).
  split; [lia|]. split.
  - intros y [->|Hy]%elem_of_cons; [lia|by apply Hall].
  - intros k Hk'. apply Hk in Hk' as [Hin|(y & Hy & ->)]; [|right; exists y; split; [by right|done]].
    rw -E2 in Hin. apply elem_of_union in Hin as [->%elem_of_singleton|Hin]; [right; exists m; split; [left|done]|by left].
Qed.

(** [add-market-gen] keeps the genesis valid as long as there is a next ID: one market
    more, under the ID after the last.  The pair is not compared with the others, as the
    keeper does when it adds a market. *)
Theorem add_market_keeps_valid base quote s : GenesisState_Validate s = Ok tt →
  (∀ m, m ∈ gs_Markets s → 0 ≤ mkt_ID m) → DenomFilter base = Ok tt → DenomFilter quote = Ok tt →
  (∀ id, gs_LastMarketID s = Some id → 0 ≤ id ∧ id + 1 < maxUint) →
  ∃ id s', put_market base quote s = Ok s' ∧ gs_Markets s' = (gs_Markets s ++ [MkMarket id base quote])%list ∧
    0 ≤ id ∧ (∀ m, m ∈ gs_Markets s → mkt_ID m < id) ∧ GenesisState_Validate s' = Ok tt.
Proof.
  intros Hv Hids Hb Hq Hlast. unfold GenesisState_Validate in Hv. apply outcome_bind_inv in Hv as (acc & Hrun & Hv).
  destruct (Validate_markets_run _ _ _ _ Hrun) as (_ & Hall & Hk).
  assert (∃ id, match gs_LastMarketID s with None => Ok NewZeroID | Some marketID => ID_Incr marketID end = Ok id ∧ 0 ≤ id ∧
    (∀ m, m ∈ gs_Markets s → mkt_ID m < id) ∧ (if ID_GT id acc.1 then id else acc.1) = id) as (id & Hid & Hpos & Hlt & Hmax).
  { destruct (gs_LastMarketID s) as [lst|].
    - apply outcome_bind_inv in Hv as ([] & _ & Hv). apply outcome_bind_inv in Hv as ([] & _ & Hv). unfold ID_Equal in Hv.
      destruct (Z.eqb_spec lst acc.1) as [E|]; [|done]. destruct (Hlast lst eq_refl) as [? ?]. unfold ID_Incr. rw Uint_Add_ok; [|lia..].
      rw E. exists (acc.1 + 1). split; [done|]. split; [lia|]. split; [intros m Hm; specialize (Hall m Hm); lia|].
      unfold ID_GT. destruct (Z.ltb_spec acc.1 (acc.1 + 1)); lia.
    - destruct (gs_Markets s) as [|m l]; [|done]. injection Hrun as <-. exists NewZeroID. split; [done|]. split; [done|].
      split; [by intros ? ?%elem_of_nil|done]. }
  unfold put_market. rw Hid outcome_bind_ok. eexists id, _. split; [done|]. split; [done|]. split; [done|]. split; [done|].
  unfold GenesisState_Validate. cbn [gs_Markets gs_LastMarketID]. rw foldM_app Hrun outcome_bind_ok. cbn [foldM].
  assert (Validate_market acc (MkMarket id base quote) = Ok (id, {[ID_String id]} ∪ acc.2)) as ->.
  { destruct acc as [mx seen]. unfold Validate_market, Market_Valid. cbn [mkt_ID mkt_BaseAssetDenom mkt_QuoteAssetDenom ID_Valid]. rw Hb Hq.
    cbn [wrap_err]. rw !outcome_bind_ok. rw bool_decide_false; [cbn [fail_if]; rw outcome_bind_ok; by rw Hmax|].
    intros Hin. apply Hk in Hin as [Hin|(m & Hm & E)]; [by apply not_elem_of_empty in Hin|].
    apply Uint_String_inj in E; [|done|by apply Hids]. specialize (Hlt m Hm). lia. }
  rw !outcome_bind_ok. rw length_app. cbn [length]. rw (proj2 (Nat.eqb_neq _ _)); [|lia]. cbn [fail_if ID_Valid]. rw !outcome_bind_ok.
  unfold ID_Equal. cbn [fst]. by rw Z.eqb_refl.
Qed.
End market.

Section nominees.
Context `{ST : SdkTypes}.
Import oracle.

(** [add-oracle-nominees-gen] replaces the nominees: after it they are the addresses it
    was given, whatever they were before. *)
Theorem nominees_are_replaced addresses s : NoDup (p_Nominees (gs_Params s)) →
  p_Nominees (gs_Params (put_nominees addresses s)) = AccAddress_String <$> addresses.
Proof.
  intros Hnd. simpl. induction addresses as [|n l IH]; [done|]. rw bind_cons fmap_cons IH.
  assert (added_nominee (p_Nominees (gs_Params s)) n = [AccAddress_String n]) as ->; [|done].
  unfold added_nominee. clear - Hnd. induction Hnd as [|x l Hx Hnd IH]; [done|]. rw filter_cons.
  destruct (decide (AccAddress_String n = x)) as [<-|Hne]; [|exact IH].
  f_equal. destruct (filter _ l) as [|y l'] eqn:Ef; [done|].
  assert (y ∈ filter (λ nn, AccAddress_String n = nn) l) as [Ey Hy]%list_elem_of_filter by (rw Ef; left). by rw Ey in Hx.
Qed.
End nominees.

Section accounts.
Context `{ST : SdkTypes}.
Hypothesis bech32_inj : ∀ a b, AccAddress_String a = AccAddress_String b → a = b.
Import genaccounts.

Lemma accounts_valid gas : ValidateGenesis gas = Ok tt ↔ NoDup ((λ ga, ba_Address (ga_BaseAccount ga)) <$> gas).
Proof.
  pose proof (distinct_loop (λ ga, AccAddress_String (ba_Address (ga_BaseAccount ga))) (λ _, Ok tt) validate_account) as Hl.
  assert (∀ seen x seen', validate_account seen x = Ok seen' ↔ AccAddress_String (ba_Address (ga_BaseAccount x)) ∉ seen ∧ Ok tt = Ok tt ∧
    seen' = {[AccAddress_String (ba_Address (ga_BaseAccount x))]} ∪ seen) as Hf.
  { intros seen x seen'. unfold validate_account. case_bool_decide; cbn [fail_if]; [by split; [|intros [? _]]|]. rw outcome_bind_ok. naive_solver. }
  specialize (Hl Hf gas ∅). unfold ValidateGenesis. split.
  - intros (s' & Hrun & _)%outcome_bind_inv. destruct (proj1 Hl (ex_intro _ s' Hrun)) as (Hnd & _ & _).
    rw (list_fmap_compose (λ ga, ba_Address (ga_BaseAccount ga)) AccAddress_String) in Hnd. by apply NoDup_fmap_1 in Hnd.
  - intros Hnd. destruct (proj2 Hl) as [s' ->]; [|done]. split; [|split; [done|set_solver]].
    rw (list_fmap_compose (λ ga, ba_Address (ga_BaseAccount ga)) AccAddress_String). by apply NoDup_fmap_2.
Qed.

(** [add-genesis-account] adds an account only for an address that has none, and keeps
    the addresses distinct. *)
Theorem add_account_keeps_valid addr coins moduleName gas : ValidateGenesis gas = Ok tt → Contains gas addr = false →
  ValidateGenesis (gas ++ [NewGenesisAccountRaw addr coins moduleName])%list = Ok tt.
Proof.
  rw !accounts_valid. intros Hnd Hc. rw fmap_app. apply NoDup_app. split; [done|]. split; [|apply NoDup_singleton].
  intros a (ga & -> & Hin)%list_elem_of_fmap Ha%list_elem_of_singleton. simpl in Ha.
  assert (Contains gas addr = true); [|congruence]. unfold Contains. apply existsb_exists. exists ga.
  split; [by apply list_elem_of_In|]. by apply bool_decide_eq_true.
Qed.
End accounts.
