(* ===== verification/Mainnet.v ===== *)
(** * The balances of the main network ([src/app/export_v10.go])

    When the state of the test network is exported for the main network, every account
    that took part is compared with what it was given: what it holds, has earned and has
    delegated must not be less than its genesis balance and its issues.  What is missing
    is minted and sent to it. *)
From S2P Require Import Prelude Bytes Sdk SdkFacts DnTypes Perms Chain SdkBank SdkAuth Currency VMStorage CCStorage CCStorageFacts Currencies VMAuth VmEvents Abci BaseApp Ante.
Local Open Scope string_scope.
Local Open Scope Z_scope.

Module export_v10.

(** ** The report *)
Record SXFIStakerReportItem := MkSXFIStakerReportItem {
  sr_TxHash : string; sr_AccAddress : AccAddress; sr_EthAddress : string; sr_BondingAmount : Int; sr_LPAmount : Int }.
Record SXFIBalanceReportItem := MkSXFIBalanceReportItem {
  ri_AccAddress : AccAddress;
  ri_AccBalance : list Coin;
  ri_IssueCoins : list Coin;
  ri_RewardCoins : list Coin;
  ri_DelBondingShares : Dec;
  ri_DelLPShares : Dec;
  ri_DelBondingTokens : Dec;
  ri_DelLPTokens : Dec;
  ri_GenCoins : list Coin;
  ri_StakerReport : option SXFIStakerReportItem;
  ri_IssueBondingDenom : string;
  ri_IssueLPDenom : string;
  ri_BondingDenom : string;
  ri_LPDenom : string;
}.
Record SXFIBalanceReportResult := MkSXFIBalanceReportResult {
  rr_ReportItem : SXFIBalanceReportItem; rr_BondingDiff : Int; rr_LPDiff : Int }.
(** A map from the address's string to the item it points to. *)
Definition SXFIBalanceReport : Type := gmap string SXFIBalanceReportItem.

Definition with_StakerReport (i : SXFIBalanceReportItem) (s : SXFIStakerReportItem) : SXFIBalanceReportItem :=
  MkSXFIBalanceReportItem (ri_AccAddress i) (ri_AccBalance i) (ri_IssueCoins i) (ri_RewardCoins i) (ri_DelBondingShares i)
    (ri_DelLPShares i) (ri_DelBondingTokens i) (ri_DelLPTokens i) (ri_GenCoins i) (Some s) (ri_IssueBondingDenom i)
    (ri_IssueLPDenom i) (ri_BondingDenom i) (ri_LPDenom i).
Definition with_IssueCoins (i : SXFIBalanceReportItem) (cs : list Coin) : SXFIBalanceReportItem :=
  MkSXFIBalanceReportItem (ri_AccAddress i) (ri_AccBalance i) cs (ri_RewardCoins i) (ri_DelBondingShares i)
    (ri_DelLPShares i) (ri_DelBondingTokens i) (ri_DelLPTokens i) (ri_GenCoins i) (ri_StakerReport i) (ri_IssueBondingDenom i)
    (ri_IssueLPDenom i) (ri_BondingDenom i) (ri_LPDenom i).
Definition with_RewardCoins (i : SXFIBalanceReportItem) (cs : list Coin) : SXFIBalanceReportItem :=
  MkSXFIBalanceReportItem (ri_AccAddress i) (ri_AccBalance i) (ri_IssueCoins i) cs (ri_DelBondingShares i)
    (ri_DelLPShares i) (ri_DelBondingTokens i) (ri_DelLPTokens i) (ri_GenCoins i) (ri_StakerReport i) (ri_IssueBondingDenom i)
    (ri_IssueLPDenom i) (ri_BondingDenom i) (ri_LPDenom i).
Definition with_GenCoins (i : SXFIBalanceReportItem) (cs : list Coin) : SXFIBalanceReportItem :=
  MkSXFIBalanceReportItem (ri_AccAddress i) (ri_AccBalance i) (ri_IssueCoins i) (ri_RewardCoins i) (ri_DelBondingShares i)
    (ri_DelLPShares i) (ri_DelBondingTokens i) (ri_DelLPTokens i) cs (ri_StakerReport i) (ri_IssueBondingDenom i)
    (ri_IssueLPDenom i) (ri_BondingDenom i) (ri_LPDenom i).
Definition with_delegated (i : SXFIBalanceReportItem) (bShares bTokens lpShares lpTokens : Dec) : SXFIBalanceReportItem :=
  MkSXFIBalanceReportItem (ri_AccAddress i) (ri_AccBalance i) (ri_IssueCoins i) (ri_RewardCoins i) bShares
    lpShares bTokens lpTokens (ri_GenCoins i) (ri_StakerReport i) (ri_IssueBondingDenom i)
    (ri_IssueLPDenom i) (ri_BondingDenom i) (ri_LPDenom i).

Definition NewSXFIBalanceReportItem (accAddr : AccAddress) (accCoins : list Coin)
    (issueBondingDenom issueLPDenom bondingDenom lpDenom : string) : SXFIBalanceReportItem :=
  MkSXFIBalanceReportItem accAddr accCoins [] [] 0 0 0 0 [] None issueBondingDenom issueLPDenom bondingDenom lpDenom.

(** The accounts of the genesis file: address, bonding and liquidity amounts. *)
Definition genBalances : list (string * string * string) :=
  [("wallet1wwmenr38hhrem2v3ue3gwdhj03ynzcvlxgc92u", "3400000000000000000000000", "0");
   ("wallet1a6sd0y8l0ma0gnytacrnwlmnupm7ftnwxngalr", "2500000000000000000000", "0");
   ("wallet1whpkntyj549f7euftgpng24k2we8legght4rzg", "2500000000000000000000", "0");
   ("wallet1zwkqfm2sdgyx0g6h2dj9em4z4kjgy5lmtnmgjd", "2500000000000000000000", "0");
   ("wallet10a24shxzjtutj637rr8shwkwaxx8paplu4vc6f", "2500000000000000000000", "0");
   ("wallet19xshddf5ww7fhd53fumly2r7lqsszz63fxca9x", "2500000000000000000000", "0");
   ("wallet1l9mukqvh0etam66dvgw99w9awv3jjv6tyh2hpc", "50000000000000000000000", "0")].

(** What [csv.Reader.Read] returns: the columns of an entry, or an error. *)
Definition csv_read : Type := option (list string).

Section report.
Context `{ST : SdkTypes} `{SC : SdkCoins} `{SP : SdkParse}.

(** *** Balances of an item; the [Int] sums panic out of 255 bits *)
Definition GetInitialBondingBalance (i : SXFIBalanceReportItem) : outcome Int :=
  let genAmt := amount_of (ri_GenCoins i) (ri_BondingDenom i) in
  let issuedAmt := match ri_StakerReport i with Some _ => amount_of (ri_IssueCoins i) (ri_IssueBondingDenom i) | None => 0 end in
  Int_Add genAmt issuedAmt.
Definition GetInitialLPBalance (i : SXFIBalanceReportItem) : outcome Int :=
  let genAmt := amount_of (ri_GenCoins i) (ri_LPDenom i) in
  let issuedAmt := match ri_StakerReport i with Some _ => amount_of (ri_IssueCoins i) (ri_IssueLPDenom i) | None => 0 end in
  Int_Add genAmt issuedAmt.
Definition GetCurrentBondingBalance (i : SXFIBalanceReportItem) : outcome Int :=
  let accBalanceAmt := amount_of (ri_AccBalance i) (ri_BondingDenom i) in
  let rewardAmt := amount_of (ri_RewardCoins i) (ri_BondingDenom i) in
  delAmt ← Dec_TruncateInt (ri_DelBondingTokens i);
  sum ← Int_Add accBalanceAmt rewardAmt;
  Int_Add sum delAmt.
Definition GetCurrentLPBalance (i : SXFIBalanceReportItem) : outcome Int :=
  let accBalanceAmt := amount_of (ri_AccBalance i) (ri_LPDenom i) in
  let rewardAmt := amount_of (ri_RewardCoins i) (ri_LPDenom i) in
  delAmt ← Dec_TruncateInt (ri_DelLPTokens i);
  sum ← Int_Add accBalanceAmt rewardAmt;
  Int_Add sum delAmt.

(** *** The staker's report: the rows of a file, the first of them a header *)
Definition parse_amount (amtRaw : string) : outcome Int :=
  if bool_decide (amtRaw = "") then Ok 0
  else match NewIntFromString amtRaw with Some amt => Ok amt | None => Err (Plain "invalid sdk.Int") end.
Definition parse_entry (csvEntry : list string) : outcome SXFIStakerReportItem :=
  match csvEntry with
  | [stakerTxHash; bondingRaw; accRaw; stakerEthAddress; lpRaw] =>
      fail_if (bool_decide (stakerTxHash = "")) (Plain "TxHash: emtpy");;
      stakerBondingAmt ← parse_amount bondingRaw;
      stakerAccAddress ← match AccAddressFromBech32 accRaw with Err _ => Err (Plain "invalid sdk.AccAddress") | r => r end;
      fail_if (negb (IsEthereumAddress stakerEthAddress)) (Plain "EthAddress: invalid");;
      stakerLPAmt ← parse_amount lpRaw;
      Ok (MkSXFIStakerReportItem stakerTxHash stakerAccAddress stakerEthAddress stakerBondingAmt stakerLPAmt)
  | _ => Err (Plain "invalid number of columns")
  end.
Definition append_entry (r : SXFIBalanceReport) (read : csv_read) : outcome SXFIBalanceReport :=
  match read with
  | None => Err (Plain "read failed")
  | Some csvEntry =>
      stakerReport ← parse_entry csvEntry;
      let key := AccAddress_String (sr_AccAddress stakerReport) in
      match r !! key with
      | None => Err (Plain "reportEntry: not found")
      | Some reportItem =>
          match ri_StakerReport reportItem with
          | Some _ => Err (Plain "StakerReport already exists")
          | None => Ok (<[key := with_StakerReport reportItem stakerReport]> r)
          end
      end
  end.
Definition AppendStakerCSVReport (r : SXFIBalanceReport) (reads : list csv_read) : outcome SXFIBalanceReport :=
  match reads with
  | [] => Ok r
  | None :: _ => Err (Plain "read failed")
  | Some _ :: entries => foldM append_entry r entries
  end.

(** *** Verification and results; [items] is the order the map is ranged over *)
Definition verify_item (reportItem : SXFIBalanceReportItem) : outcome unit :=
  match ri_StakerReport reportItem with
  | None => Ok tt
  | Some stakerReport =>
      fail_if (negb (amount_of (ri_IssueCoins reportItem) (ri_IssueBondingDenom reportItem) =? sr_BondingAmount stakerReport))
        (Plain "issued / staker Bonding amount mismatch")
  end.
Definition Verify (items : list SXFIBalanceReportItem) : outcome unit := foldM (λ _ i, verify_item i) tt items.

Definition result_of (reportItem : SXFIBalanceReportItem) : outcome SXFIBalanceReportResult :=
  currentBonding ← GetCurrentBondingBalance reportItem;
  initialBonding ← GetInitialBondingBalance reportItem;
  diffBonding ← Int_Sub currentBonding initialBonding;
  currentLP ← GetCurrentLPBalance reportItem;
  initialLP ← GetInitialLPBalance reportItem;
  diffLP ← Int_Sub currentLP initialLP;
  Ok (MkSXFIBalanceReportResult reportItem diffBonding diffLP).
Definition GetResults `{GS : GoSort} (items : list SXFIBalanceReportItem) : outcome (list SXFIBalanceReportResult) :=
  results ← foldM (λ results i, r ← result_of i; Ok (results ++ [r])%list) [] items;
  Ok (sort_Sort (λ a b, rr_BondingDiff a <? rr_BondingDiff b) results).
End report.

(** ** What the SDK's modules are asked for

    A delegation has shares of both kinds; [RewardsBankCoins] are the coins a delegator
    has with each validator. *)
Record Delegation := MkDelegation { del_Validator : string; del_BondingShares : Dec; del_LPShares : Dec }.
Class MainnetSdk `{KV : KVStore} `{LG : Ledger} := {
  Validator : Type;
  GetValidator : string → M (option Validator);
  BondingTokensFromSharesTruncated : Validator → Dec → outcome Dec;
  LPTokensFromSharesTruncated : Validator → Dec → outcome Dec;
  Delegations : AccAddress → M (list Delegation);
  RewardsBankCoins : AccAddress → M (list (list Coin));
  MintCoins : list Coin → M unit;
  (** The registered invariants: whether they are broken. *)
  crisis_Routes : list (M bool);
}.
Definition mint_ModuleName := "mint".

Section keeper.
Context `{ST : SdkTypes} `{SC : SdkCoins} `{SP : SdkParse} `{GS : GoSort} `{KV : KVStore} `{LG : Ledger} `{VS : !VMStorage}.
Context `{AK : !AuthKeeper} `{MS : !MainnetSdk}.
Context `{GL : Glav} `{LI : !Lcs ccstorage.ResCurrencyInfo} `{CC : !Codec Currency} `{CI : !Codec currencies.Issue}.
Variable ccsPerms : ModulePermissions.
(** The order a loop ranges over a report, which another loop need not repeat. *)
Variable range : nat → SXFIBalanceReport → list (string * SXFIBalanceReportItem).

(** *** Building the report *)
Definition append_genesis (issueBondingDenom issueLPDenom bondingDenom lpDenom : string) (r : SXFIBalanceReport)
    (genBalance : string * string * string) : M SXFIBalanceReport :=
  let '(address, bonding, lp) := genBalance in
  accAddress ← lift match AccAddressFromBech32 address with Err _ => Err (Plain "genBalance: AccAddress: invalid") | r => r end;
  bondingAmt ← lift match NewIntFromString bonding with Some amt => Ok amt | None => Err (Plain "BondingBalance: invalid sdk.Int") end;
  lpAmt ← lift match NewIntFromString lp with Some amt => Ok amt | None => Err (Plain "LPBalance: invalid sdk.Int") end;
  acc ← auth_GetAccount accAddress;
  match acc with
  | None => throw (Plain "genBalance: account: not found")
  | Some acc =>
      let reportItem := NewSXFIBalanceReportItem accAddress (acc_GetCoins acc) issueBondingDenom issueLPDenom bondingDenom lpDenom in
      bondingCoin ← lift (NewCoin bondingDenom bondingAmt);
      lpCoin ← lift (NewCoin lpDenom lpAmt);
      coins ← lift (NewCoins [bondingCoin; lpCoin]);
      mret (<[AccAddress_String accAddress := with_GenCoins reportItem coins]> r)
  end.
Fixpoint fold_report {A} (f : SXFIBalanceReport → A → M SXFIBalanceReport) (l : list A) (r : SXFIBalanceReport) : M SXFIBalanceReport :=
  match l with [] => mret r | x :: l' => r' ← f r x; fold_report f l' r' end.
Definition AppendGenesisBalances (issueBondingDenom issueLPDenom bondingDenom lpDenom : string) (r : SXFIBalanceReport) :
    M SXFIBalanceReport :=
  fold_report (append_genesis issueBondingDenom issueLPDenom bondingDenom lpDenom) genBalances r.

(** All issues of one payee in one item. *)
Definition append_issue (issueBondingDenom issueLPDenom bondingDenom lpDenom : string) (r : SXFIBalanceReport)
    (issue : currencies.GenesisIssue) : M SXFIBalanceReport :=
  let accAddr := currencies.iss_Payee (currencies.gi_Issue issue) in
  let key := AccAddress_String accAddr in
  reportItem ← match r !! key with
               | Some reportItem => mret reportItem
               | None =>
                   acc ← auth_GetAccount accAddr;
                   match acc with
                   | None => throw (Plain "issue: getAccount: not found")
                   | Some acc =>
                       mret (NewSXFIBalanceReportItem accAddr (acc_GetCoins acc) issueBondingDenom issueLPDenom bondingDenom lpDenom)
                   end
               end;
  coins ← lift (Coins_Add (ri_IssueCoins reportItem) [currencies.iss_Coin (currencies.gi_Issue issue)]);
  mret (<[key := with_IssueCoins reportItem coins]> r).

(** A loop over the report changes the items its entries point to. *)
Definition update_item (f : SXFIBalanceReportItem → M SXFIBalanceReportItem) (r : SXFIBalanceReport)
    (entry : string * SXFIBalanceReportItem) : M SXFIBalanceReport :=
  reportItem ← f entry.2;
  mret (<[entry.1 := reportItem]> r).

Definition add_rewards (i : SXFIBalanceReportItem) : M SXFIBalanceReportItem :=
  rewards ← RewardsBankCoins (ri_AccAddress i);
  coins ← lift (foldM Coins_Add (ri_RewardCoins i) rewards);
  mret (with_RewardCoins i coins).

Definition add_delegation (i : SXFIBalanceReportItem) (del : Delegation) : M SXFIBalanceReportItem :=
  val ← GetValidator (del_Validator del);
  match val with
  | None => throw (Plain "get delegation validator: not found")
  | Some val =>
      bShares ← lift (Dec_Add (ri_DelBondingShares i) (del_BondingShares del));
      bTokens ← (if del_BondingShares del =? 0 then mret (ri_DelBondingTokens i)
                 else tokens ← lift (BondingTokensFromSharesTruncated val (del_BondingShares del));
                      lift (Dec_Add (ri_DelBondingTokens i) tokens));
      lpShares ← lift (Dec_Add (ri_DelLPShares i) (del_LPShares del));
      lpTokens ← (if del_LPShares del =? 0 then mret (ri_DelLPTokens i)
                  else tokens ← lift (LPTokensFromSharesTruncated val (del_LPShares del));
                       lift (Dec_Add (ri_DelLPTokens i) tokens));
      mret (with_delegated i bShares bTokens lpShares lpTokens)
  end.
Fixpoint add_delegations (dels : list Delegation) (i : SXFIBalanceReportItem) : M SXFIBalanceReportItem :=
  match dels with [] => mret i | del :: dels' => i' ← add_delegation i del; add_delegations dels' i' end.
Definition add_delegated (i : SXFIBalanceReportItem) : M SXFIBalanceReportItem :=
  dels ← Delegations (ri_AccAddress i);
  add_delegations dels i.

(** Reading in a cached context, which is dropped. *)
Definition on_context {A} (cacheCtx : Ctx) (m : M A) : M A := λ caller c, ((m caller cacheCtx).1, c).

(** The cached context sees what was written to [ctx] before it was first used; [reads]
    are the rows of the staker's report, if its path is set. *)
Definition getMainnetSXFIBalanceReport (issueBondingDenom issueLPDenom bondingDenom lpDenom : string)
    (stakerCSVReport : option (outcome (list csv_read))) : M SXFIBalanceReport :=
  report ← AppendGenesisBalances issueBondingDenom issueLPDenom bondingDenom lpDenom ∅;
  r ← cached (issues ← currencies.GetGenesisIssues;
              fold_report (append_issue issueBondingDenom issueLPDenom bondingDenom lpDenom) issues report);
  report ← lift r.1;
  report ← fold_report (update_item add_rewards) (range 0%nat report) report;
  report ← on_context r.2 (fold_report (update_item add_delegated) (range 1%nat report) report);
  match stakerCSVReport with
  | None => mret report
  | Some reads => lift (reads ← reads; AppendStakerCSVReport report reads)
  end.

(** *** Minting what is missing *)
Definition issueDenom := "sxfi".
Definition bondingDenom := "xfi".
Definition lpDenom := "lpt".

Fixpoint checkInvariants (routes : list (M bool)) : M unit :=
  match routes with
  | [] => mret tt
  | invar :: routes' => stop ← invar; if (stop : bool) then throw (Plain "invariant broken") else checkInvariants routes'
  end.

(** The sums of the positive and of the negative differences. *)
Definition sum_diff (sums : Int * Int) (result : SXFIBalanceReportResult) : outcome (Int * Int) :=
  let diff := rr_BondingDiff result in
  if negb (diff <? 0) then positive ← Int_Add sums.1 diff; Ok (positive, sums.2)
  else negative ← Int_Add sums.2 diff; Ok (sums.1, negative).

Definition send_minted (result : SXFIBalanceReportResult) : M unit :=
  let diff := rr_BondingDiff result in
  if negb (diff <? 0) then mret tt
  else
    coin ← lift (NewCoin bondingDenom (- diff));
    coins ← lift (NewCoins [coin]);
    bank_call (λ l, SendCoinsFromModuleToAccount l mint_ModuleName (ri_AccAddress (rr_ReportItem result)) coins).

Definition mint_and_send (results : list SXFIBalanceReportResult) : M unit :=
  sums ← lift (foldM sum_diff (0, 0) results);
  bondingMintCoin ← lift (NewCoin bondingDenom (- sums.2));
  coins ← lift (NewCoins [bondingMintCoin]);
  MintCoins coins;;
  ccstorage.IncreaseCurrencySupply ccsPerms bondingMintCoin;;
  forM results send_minted.

(** The environment's variables, the file of the staker's report and the files that are
    written. *)
Variables stakerReportPath reportOutputPrefix : string.
Variable read_csv : string → outcome (list csv_read).
Variable save_data : string → list SXFIBalanceReportResult → outcome unit.
Variable save_stats : string → list SXFIBalanceReportResult → outcome unit.

Definition processMainnetSXFIBalance : M unit :=
  (if bool_decide (stakerReportPath = "") then throw (Plain "envVar: not set") else mret tt);;
  (if bool_decide (reportOutputPrefix = "") then throw (Plain "envVar: not set") else mret tt);;
  report ← getMainnetSXFIBalanceReport issueDenom lpDenom bondingDenom lpDenom (Some (read_csv stakerReportPath));
  lift (Verify (range 2%nat report).*2);;
  results ← lift (GetResults (range 3%nat report).*2);
  lift (save_data (reportOutputPrefix +:+ "data.csv") results);;
  mint_and_send results;;
  lift (save_stats (reportOutputPrefix +:+ "stats.json") results);;
  checkInvariants crisis_Routes.
End keeper.
End export_v10.

(** ** Everybody ends up with what they were given *)
Import export_v10.

(** Documented behaviour of the mint keeper: the coins appear in its module's account. *)
Class MainnetSdkLaws `{MS : MainnetSdk} : Prop := {
  MintCoins_ok cs m c :
    Forall (λ cn, 0 < coin_Amount cn ∧ balance (ctx_bank c) (ModuleAddress mint_ModuleName) (coin_Denom cn) + coin_Amount cn < maxInt) cs →
    (length cs ≤ 1)%nat →
    ∃ l, MintCoins cs m c = (Ok tt, set_bank c l) ∧ ∀ x d, balance l x d = balance (ctx_bank c) x d +
      (if decide (x = ModuleAddress mint_ModuleName) then amount_of cs d else 0);
}.

Notation addr_of r := (ri_AccAddress (rr_ReportItem r)).

(** What an account is short of. *)
Definition deficit (r : SXFIBalanceReportResult) : Z := if rr_BondingDiff r <? 0 then - rr_BondingDiff r else 0.
Definition surplus (r : SXFIBalanceReportResult) : Z := if rr_BondingDiff r <? 0 then 0 else rr_BondingDiff r.

Lemma deficit_nonneg r : 0 ≤ deficit r.
Proof. unfold deficit. destruct (Z.ltb_spec (rr_BondingDiff r) 0); lia. Qed.
Lemma surplus_nonneg r : 0 ≤ surplus r.
Proof. unfold surplus. destruct (Z.ltb_spec (rr_BondingDiff r) 0); lia. Qed.

Section sends.
Context `{SdkTypesLaws} `{SC : SdkCoins} `{LedgerLaws} `{KV : KVStore}.
Implicit Types (c : Ctx) (results : list SXFIBalanceReportResult).
Notation mint_account := (ModuleAddress mint_ModuleName).
Hypothesis denom_ok : ValidateDenom bondingDenom = true.

Lemma sum_diff_run results p n :
  (∀ l, l `prefix_of` results → p + sumZ surplus l < maxInt ∧ n + sumZ deficit l < maxInt) → 0 ≤ p → 0 ≤ n →
  foldM sum_diff (p, - n) results = Ok (p + sumZ surplus results, - (n + sumZ deficit results)).
Proof.
  revert p n. induction results as [|r l IH]; intros p n Hb Hp Hn; [by rw sumZ_nil !Z.add_0_r|].
  rw !sumZ_cons. pose proof (Hb [r] (prefix_cons _ _ _ (prefix_nil _))) as [H1 H2']. rw !sumZ_cons !sumZ_nil in H1 H2'.
  cbn [foldM]. unfold sum_diff at 2. cbn [fst snd].
  assert (∀ p' n', p' = p + surplus r → n' = n + deficit r →
    foldM sum_diff (p', - n') l = Ok (p + (surplus r + sumZ surplus l), - (n + (deficit r + sumZ deficit l)))) as Hrest.
  { intros p' n' -> ->. pose proof (surplus_nonneg r). pose proof (deficit_nonneg r). rw IH; [by rw !Z.add_assoc| |lia..].
    intros l' Hl'. specialize (Hb (r :: l') (prefix_cons _ _ _ Hl')). rw !sumZ_cons in Hb. lia. }
  unfold surplus, deficit in *. destruct (Z.ltb_spec (rr_BondingDiff r) 0) as [Hneg|Hpos]; cbn [negb].
  - rw Int_Add_ok; [|lia]. rw !outcome_bind_ok. replace (- n + rr_BondingDiff r) with (- (n + - rr_BondingDiff r)) by lia. apply Hrest; lia.
  - rw Int_Add_ok; [|assert (0 < maxInt) by done; lia]. rw !outcome_bind_ok. apply Hrest; lia.
Qed.

Lemma amount_of_coin d a d' : amount_of [MkCoin d a] d' = if decide (d = d') then a else 0.
Proof. apply amount_of_one. Qed.

(** The sends take the minted coins to the accounts. *)
Lemma sends_run results caller c :
  sumZ deficit results ≤ balance (ctx_bank c) mint_account bondingDenom →
  (∀ x, balance (ctx_bank c) x bondingDenom + sumZ deficit results < maxInt) →
  ∃ l, forM results send_minted caller c = (Ok tt, set_bank c l) ∧ ∀ x d, balance l x d = balance (ctx_bank c) x d +
    (if decide (d = bondingDenom) then
       sumZ (λ r, if decide (x = addr_of r) then deficit r else 0) results - (if decide (x = mint_account) then sumZ deficit results else 0)
     else 0).
Proof.
  revert c. induction results as [|r rs IH]; intros c Hmint Hroom.
  { exists (ctx_bank c). split; [by destruct c|]. intros x d. rw !sumZ_nil. repeat case_decide; lia. }
  rw sumZ_cons in Hmint Hroom. assert (∀ l, 0 ≤ sumZ deficit l) as Hpos by (intros l; apply sumZ_nonneg; intros; apply deficit_nonneg).
  pose proof (Hpos rs) as Hrs. pose proof (deficit_nonneg r) as Hr.
  assert (∃ l, send_minted r caller c = (Ok tt, set_bank c l) ∧ ∀ x d, balance l x d = balance (ctx_bank c) x d +
    (if decide (d = bondingDenom) then (if decide (x = addr_of r) then deficit r else 0) - (if decide (x = mint_account) then deficit r else 0) else 0))
    as (l1 & Hrun1 & Hb1).
  { unfold send_minted, deficit in *. destruct (Z.ltb_spec (rr_BondingDiff r) 0) as [Hneg|]; cbn [negb].
    2:{ exists (ctx_bank c). split; [by destruct c|]. intros x d. repeat case_decide; lia. }
    rw (M_bind_Ok _ _ _ c (MkCoin bondingDenom (- rr_BondingDiff r)) c); [|apply lift_Ok, NewCoin_ok; [done|lia]].
    rw (M_bind_Ok _ _ _ c [MkCoin bondingDenom (- rr_BondingDiff r)] c); [|apply lift_Ok, NewCoins_one; [done|simpl; lia]].
    destruct (FromModule_ok (ctx_bank c) mint_ModuleName (addr_of r) (MkCoin bondingDenom (- rr_BondingDiff r))) as [l Hl];
      [simpl; lia|simpl; specialize (Hroom (addr_of r)); lia|].
    exists l. unfold bank_call. rw Hl. split; [done|]. intros x d. rw (FromModule_balance _ _ _ _ _ x d Hl). unfold moved.
    rw amount_of_coin. repeat case_decide; subst; try done; lia. }
  destruct (IH (set_bank c l1)) as (l2 & Hrun2 & Hb2).
  { simpl. rw Hb1. repeat case_decide; try done; lia. }
  { intros x. simpl. rw Hb1. specialize (Hroom x). repeat case_decide; try done; lia. }
  exists l2. cbn [forM]. rw (M_bind_Ok _ _ _ _ _ _ Hrun1) Hrun2. split; [by destruct c|]. intros x d. rw Hb2. change (ctx_bank (set_bank c l1)) with l1.
  rw Hb1 !sumZ_cons. repeat case_decide; lia.
Qed.
End sends.

Section minting.
Context `{SdkTypesLaws} `{SC : SdkCoins} `{LedgerLaws} `{KVStoreLaws} `{VS : !VMStorage}.
Context (clients : string → Prop) (vm_store : string) `{VSL : !VMStorageLaws clients vm_store}.
Context `{GL : Glav} `{LI : !Lcs ccstorage.ResCurrencyInfo} `{CC : !Codec Currency} `{MS : !MainnetSdk} `{ML : !MainnetSdkLaws}.
Variable ccsPerms : ModulePermissions.
Hypothesis own_perms : mp_name ccsPerms = ccstorage.ModuleName.
Hypothesis admitted : clients ccstorage.ModuleName.
Hypothesis other_store : vm_store ≠ ccstorage.StoreKey.
Hypothesis lcs_info : ∀ i : ccstorage.ResCurrencyInfo, 0 ≤ ccstorage.rci_TotalSupply i < 2 ^ 128 → ∃ bz, lcs_Marshal i = Ok bz.
Hypothesis denom_ok : ValidateDenom bondingDenom = true.
Implicit Types (c : Ctx) (results : list SXFIBalanceReportResult).
Notation ccs_holds := (CCStorageFacts.ccs_holds clients vm_store).
Notation mint_account := (ModuleAddress mint_ModuleName).

(** The totals fit their types: 255 bits for balances and sums, 128 for the supply. *)
Record mint_fits c cur results : Prop := {
  mf_surplus : sumZ surplus results < maxInt;
  mf_supply : 0 ≤ cur_Supply cur ∧ cur_Supply cur + sumZ deficit results < 2 ^ 128;
  mf_room x : 0 ≤ balance (ctx_bank c) x bondingDenom ∧ balance (ctx_bank c) x bondingDenom + 2 * sumZ deficit results < maxInt;
}.

Lemma mint_and_send_run results caller c m cur : allowed ccsPerms ccstorage.PermUpdate caller → ccs_holds c m → m !! bondingDenom = Some cur →
  mint_fits c cur results →
  ∃ c', mint_and_send ccsPerms results caller c = (Ok tt, c') ∧
    (∀ x d, balance (ctx_bank c') x d = balance (ctx_bank c) x d +
      (if decide (d = bondingDenom) then sumZ (λ r, if decide (x = addr_of r) then deficit r else 0) results else 0)) ∧
    ccs_holds c' (<[bondingDenom := ccstorage.with_Supply cur (cur_Supply cur + sumZ deficit results)]> m) ∧
    frame [ccstorage.StoreKey; vm_store] c c'.
Proof.
  intros Hcaller Hs Ecur [Hsur [Hsup0 Hsup] Hroom]. set (total := sumZ deficit results) in *.
  assert (∀ l, 0 ≤ sumZ deficit l) as Hpos by (intros l; apply sumZ_nonneg; intros; apply deficit_nonneg).
  assert (∀ l, 0 ≤ sumZ surplus l) as Hpos' by (intros l; apply sumZ_nonneg; intros; apply surplus_nonneg).
  pose proof (Hpos results) as Htot. assert (2 ^ 128 < maxInt) as H128 by done.
  pose proof (sum_diff_run results 0 0) as Hsum. rw !Z.add_0_l in Hsum.
  assert (foldM sum_diff (0, 0) results = Ok (sumZ surplus results, - total)) as Hsums.
  { apply Hsum; [|done..]. intros l [l' ->]. unfold total in Hsup. rw !sumZ_app in Hsup Hsur. specialize (Hpos l'). specialize (Hpos' l'). lia. }
  assert (∃ coins, NewCoins [MkCoin bondingDenom total] = Ok coins ∧ (length coins ≤ 1)%nat ∧ (∀ d, amount_of coins d = if decide (bondingDenom = d) then total else 0) ∧
    Forall (λ cn, 0 < coin_Amount cn ∧ balance (ctx_bank c) mint_account (coin_Denom cn) + coin_Amount cn < maxInt) coins) as (coins & Hcoins & Hlen & Hamt & Hall).
  { destruct (decide (total = 0)) as [E|E].
    - exists []. split; [by apply NewCoins_zero|]. split; [simpl; lia|]. split; [intros d; rw E; by case_decide|done].
    - exists [MkCoin bondingDenom total]. split; [apply NewCoins_one; [done|simpl; lia]|]. split; [simpl; lia|].
      split; [intros d; by apply amount_of_coin|]. constructor; [|done]. simpl. split; [lia|]. specialize (Hroom mint_account). lia. }
  destruct (MintCoins_ok coins caller c Hall Hlen) as (l1 & Hmint & Hb1).
  set (c1 := set_bank c l1) in *. assert (ccs_holds c1 m) as Hs1 by (by apply (ccs_holds_frame clients vm_store c)).
  pose proof (increase_run clients vm_store ccsPerms own_perms admitted other_store lcs_info caller c1 m (MkCoin bondingDenom total) Hcaller Hs1) as Hinc.
  unfold ccs_spec.add_supply in Hinc. cbn [coin_Denom coin_Amount] in Hinc. rw Ecur in Hinc.
  destruct Hinc as (c2 & Hrun2 & Hs2 & [Hf2 Eb2] & _).
  { intros cur' E. cbn [coin_Denom coin_Amount] in E. rw Ecur in E. injection E as <-. cbn [coin_Amount]. lia. }
  destruct (sends_run denom_ok results caller c2) as (l3 & Hrun3 & Hb3).
  { rw Eb2. change (ctx_bank c1) with l1. rw Hb1 Hamt. specialize (Hroom mint_account). fold total. repeat case_decide; try done; lia. }
  { intros x. rw Eb2. change (ctx_bank c1) with l1. rw Hb1 Hamt. specialize (Hroom x). fold total. repeat case_decide; try done; lia. }
  exists (set_bank c2 l3). split.
  { unfold mint_and_send. rw (M_bind_Ok _ _ _ c (sumZ surplus results, - total) c); [|by apply lift_Ok]. cbn [snd]. rw Z.opp_involutive.
    rw (M_bind_Ok _ _ _ c (MkCoin bondingDenom total) c); [|by apply lift_Ok, NewCoin_ok]. rw (M_bind_Ok _ _ _ c coins c); [|by apply lift_Ok].
    by rw (M_bind_Ok _ _ _ _ _ _ Hmint) (M_bind_Ok _ _ _ _ _ _ Hrun2). }
  split.
  { intros x d. simpl ctx_bank. rw Hb3 Eb2. change (ctx_bank c1) with l1. rw Hb1 Hamt. fold total. repeat case_decide; subst; try done; lia. }
  split; [by apply (ccs_holds_frame clients vm_store c2)|]. apply Hf2.
Qed.
End minting.
