(* ===== verification/DnApp.v ===== *)
(** * The application ([src/app/app.go])

    The keepers are built with the permissions their clients request, and the end
    blockers of the modules run in a fixed order under the SDK's module manager. *)
From S2P Require Import Prelude Bytes Sdk DnTypes Perms Chain SdkBank Currency VMStorage CCStorage Markets Orders Aggregates Curves Matcher OrderBook Poa MsModule.
From S2P Require Import Multisig Currencies Oracle SdkAuth VMAuth.
Local Open Scope string_scope.
Local Open Scope Z_scope.

Module dnapp.

(** ** Permissions *)

(** The module the tests of the application call keepers from. *)
Definition appModulePerms (allPerms : list string) : RequestModulePermissions := ("app", allPerms).

(** The permissions of the keepers of this repository. *)
Record KeeperPerms := MkKeeperPerms {
  kp_vm : ModulePermissions;
  kp_ccs : ModulePermissions;
  kp_cc : ModulePermissions;
  kp_poa : ModulePermissions;
  kp_ms : ModulePermissions;
  kp_oracle : ModulePermissions;
  kp_market : ModulePermissions;
  kp_order : ModulePermissions;
  kp_orderBook : ModulePermissions;
}.
(** The clients each is built with. *)
Definition vmClients : list RequestModulePermissions :=
  [ccstorage.RequestVMStoragePerms; oracle.RequestVMStoragePerms; appModulePerms vm.AvailablePermissions].
Definition ccsClients : list RequestModulePermissions :=
  [currencies.RequestCCStoragePerms; vmauth.RequestCCStoragePerms; markets.RequestCCStoragePerms;
   appModulePerms ccstorage.AvailablePermissions].
Definition ccClients : list RequestModulePermissions := [appModulePerms currencies.AvailablePermissions].
Definition poaClients : list RequestModulePermissions := [multisig.RequestPoaPerms; appModulePerms poa.AvailablePermissions].
Definition msClients : list RequestModulePermissions := [appModulePerms multisig.AvailablePermissions].
Definition oracleClients : list RequestModulePermissions := [appModulePerms oracle.AvailablePermissions].
Definition marketClients : list RequestModulePermissions := [orders.RequestMarketsPerms; appModulePerms markets.AvailablePermissions].
Definition orderClients : list RequestModulePermissions := [orderbook.RequestOrdersPerms; appModulePerms orders.AvailablePermissions].
Definition orderBookClients : list RequestModulePermissions := [appModulePerms orderbook.AvailablePermissions].

Definition keeper_perms : outcome KeeperPerms :=
  vmKeeper ← vm.NewKeeper vmClients;
  ccsKeeper ← ccstorage.NewKeeper ccsClients;
  ccKeeper ← currencies.NewKeeper ccClients;
  poaKeeper ← poa.NewKeeper poaClients;
  msKeeper ← multisig.NewKeeper msClients;
  oracleKeeper ← oracle.NewKeeper oracleClients;
  marketKeeper ← markets.NewKeeper marketClients;
  orderKeeper ← orders.NewKeeper orderClients;
  orderBookKeeper ← orderbook.NewKeeper orderBookClients;
  Ok (MkKeeperPerms vmKeeper ccsKeeper ccKeeper poaKeeper msKeeper oracleKeeper marketKeeper orderKeeper orderBookKeeper).

Definition tables (kp : KeeperPerms) : list ModulePermissions :=
  [kp_vm kp; kp_ccs kp; kp_cc kp; kp_poa kp; kp_ms kp; kp_oracle kp; kp_market kp; kp_order kp; kp_orderBook kp].

(** ** Blocks *)

Definition BeginBlockers : list string :=
  ["upgrade"; "mint"; currencies.ModuleName; "distribution"; "slashing"; vm.ModuleName].
Definition EndBlockers : list string :=
  ["crisis"; "gov"; "staking"; multisig.ModuleName; oracle.ModuleName; orders.ModuleName; orderbook.ModuleName].
End dnapp.

(** ** The SDK's module manager

    [EndBlock] of [module.Manager] takes the order, the end blocker of each module and
    returns the validator updates and the events; [U] are validator updates. *)
Section manager.
Context `{KV : KVStore} `{LG : Ledger} (U : Type).
Class ModuleManager := {
  mm_EndBlock : list string → (string → M (list U)) → M (list U * list Event);
}.
(** Documented behaviour: the end blockers run one after the other with an event
    manager of their own; only one module may return validator updates. *)
Class ModuleManagerLaws `{MM : ModuleManager} : Prop := {
  EndBlock_in_order order (f : string → M (list U)) us u caller c c' :
    mapM_ f order caller (set_events c []) = (Ok us, c') → filter (λ u, u ≠ []) us ⊆+ [u] →
    mm_EndBlock order f caller c = (Ok (concat us, ctx_events c'), set_events c' (ctx_events c));
}.
End manager.

Module dnapp_blocks.
Import dnapp.
Section blocks.
Context `{ST : SdkTypes} `{SI : SdkInts} `{DE : Decimal} `{OV : OracleVector} `{LP : !Lcs oracle.ResPrice} `{GS : GoSort}.
Context `{KV : KVStore} `{LG : Ledger} `{VMS : !VMStorage} `{MS : MsMsgs} `{VS : !ValidatorSet}.
Context `{CI : !Codec Z} `{CM : !Codec multisig.Call} `{CN : !Codec (list string)}.
Context `{CA : !Codec (list oracle.Asset)} `{CP : !Codec oracle.CurrentPrice} `{CR : !Codec (list oracle.PostedPrice)}.
Context `{CO : !Codec Order} `{CH : !Codec HistoryItem}.
Context {U : Type} `{MM : !ModuleManager U}.
(** The keepers' permissions, what multi signature calls need, the order a pool of
    matchers is ranged over, and the end blockers of the SDK's modules. *)
Variable kp : KeeperPerms.
Variable error_Error : error → string.
Variable msRouter : msRouter.
Variable range : MatcherPool → list Matcher.
Variable sdk_EndBlock : string → M (list U).

(** [EndBlock] of the modules: those of this repository return no updates. *)
Definition module_EndBlock (moduleName : string) : M (list U) :=
  if decide (moduleName = multisig.ModuleName) then multisig.EndBlocker error_Error (kp_ms kp) msRouter;; mret []
  else if decide (moduleName = oracle.ModuleName) then oracle.EndBlocker (kp_oracle kp);; mret []
  else if decide (moduleName = orders.ModuleName) then orders.EndBlocker (kp_order kp);; mret []
  else if decide (moduleName = orderbook.ModuleName) then orderbook.EndBlocker (kp_orderBook kp) (kp_order kp) range;; mret []
  else sdk_EndBlock moduleName.

Definition EndBlocker : M (list U * list Event) := mm_EndBlock U EndBlockers module_EndBlock.
End blocks.
End dnapp_blocks.
