(* ===== verification/DnAppTheorems.v ===== *)
(** * The application: who may call a keeper, and the end of a block

    The permissions the keepers are built with, and the end blockers of the orders and
    of the order book one after the other. *)
From S2P Require Import Prelude Bytes Sdk SdkRef SdkFacts DnTypes Perms Chain SdkBank Currency VMStorage CCStorage Markets MarketsFacts Orders OrdersFacts OrdersTheorems OrdersGenesis.
From S2P Require Import Scenario OrdersWitnesses Aggregates Curves CurvesFacts Matcher MatcherFacts MatcherTheorems OrderBook OrderBookTheorems OrderBookBlock OrderBookWitnesses Poa MsModule Multisig MultisigWitnesses Currencies Oracle.
From S2P Require Import OracleWitnesses SdkAuth VMAuth DnApp.
Local Open Scope string_scope.
Local Open Scope Z_scope.
Import dnapp dnapp_blocks.

(** ** Permissions *)

Lemma add_requesters requesters m m' : perms_wf m → NoDup requesters.*1 → (∀ r, r ∈ requesters.*1 → mp_modsPerms m !! r = None) →
  foldM AutoAddRequester m requesters = Ok m' →
  mp_name m' = mp_name m ∧ mp_perms m' = mp_perms m ∧ ∀ caller p, Check m' caller p = Ok tt ↔
    Check m caller p = Ok tt ∨ ∃ perms, (caller, perms) ∈ requesters ∧ p ∈ perms.
Proof.
  revert m. induction requesters as [|[name perms] l IH]; intros m Hwf Hnd Hnew Hrun.
  { injection Hrun as <-. split; [done|]. split; [done|]. intros caller p. split; [by left|]. intros [?|(? & ?%elem_of_nil & _)]; done. }
  cbn [foldM] in Hrun. apply outcome_bind_inv in Hrun as (m1 & H1 & Hrun).
  assert (AddModulePermission m (name, perms) = Ok m1) as Hadd.
  { unfold AutoAddRequester in H1. by destruct (AddModulePermission m (name, perms)); [injection H1 as ->|..]. }
  pose proof (AddModulePermission_inv _ _ _ _ Hadd) as (_ & _ & _ & Em1).
  destruct (AddModulePermission_grants _ _ _ _ Hwf Hadd) as (Hwf1 & En & Hg & Hother).
  rw fmap_cons in Hnd. apply NoDup_cons in Hnd as [Hn Hnd].
  destruct (IH m1 Hwf1 Hnd) as (En' & Ep' & Hall); [|done|].
  { intros r Hr. rw Em1. simpl. rw lookup_insert_ne; [|intros <-; by apply Hn]. apply Hnew. by right. }
  split; [by rw En' En|]. split; [by rw Ep' Em1|]. intros caller p. rw Hall. destruct (decide (caller = name)) as [->|Hne].
  - rw Hg. assert (Check m name p ≠ Ok tt) as Hm. { unfold Check. rw Hnew; [done|left]. }
    split; [intros [Hp|(ps & Hps & Hp)]; right; [by exists perms; split; [left|]|by exists ps; split; [right|]]|].
    intros [?|(ps & Hps & Hp)]; [done|]. apply elem_of_cons in Hps as [[= ->]|Hps]; [by left|]. right. by exists ps.
  - rw Hother; [|done]. split; (intros [?|(ps & Hps & Hp)]; [by left|]; right; exists ps; split; [|done]).
    + by right.
    + by apply elem_of_cons in Hps as [[= -> ->]|Hps].
Qed.

(** What the modules of this repository may do to each other: a module, its client, a
    permission. *)
Definition privileges : list (string * string * string) :=
  [("vm", "ccstorage", vm.PermStorageRead); ("vm", "ccstorage", vm.PermStorageWrite);
   ("vm", "oracle", vm.PermStorageRead); ("vm", "oracle", vm.PermStorageWrite);
   ("ccstorage", "currencies", ccstorage.PermCreate); ("ccstorage", "currencies", ccstorage.PermUpdate);
   ("ccstorage", "currencies", ccstorage.PermRead);
   ("ccstorage", "vmauth", ccstorage.PermUpdate); ("ccstorage", "vmauth", ccstorage.PermRead);
   ("ccstorage", "vmauth", ccstorage.PermResUpdate);
   ("ccstorage", "markets", ccstorage.PermRead);
   ("poa", "multisig", poa.PermRead);
   ("markets", "orders", markets.PermRead);
   ("orders", "orderbook", orders.PermRead); ("orders", "orderbook", orders.PermExecFill)].

(** What a keeper with the clients [requesters] admits. *)
Definition admits_only (mp : ModulePermissions) (requesters : list RequestModulePermissions) : Prop :=
  ∀ caller perm, AutoCheck mp (mp_name mp) caller perm = Ok tt ↔
    caller = mp_name mp ∨ ∃ perms, (caller, perms) ∈ requesters ∧ perm ∈ perms.

Lemma NewKeeper_admits name perms requesters mp : NoDup requesters.*1 →
  foldM AutoAddRequester (NewModulePermissions name perms) requesters = Ok mp →
  mp_name mp = name ∧ mp_perms mp = perms ∧ admits_only mp requesters.
Proof.
  intros Hnd Hrun. assert (perms_wf (NewModulePermissions name perms)) as Hwf by (intros n s p E; done).
  destruct (add_requesters _ _ _ Hwf Hnd (λ _ _, eq_refl) Hrun) as (En & Ep & Hc).
  split; [done|]. split; [done|]. intros caller perm. unfold AutoCheck. destruct (decide (caller = mp_name mp)) as [E|E].
  { rw bool_decide_true; [|done]. split; [by left|done]. }
  rw bool_decide_false; [|done].
  specialize (Hc caller perm). assert (Check (NewModulePermissions name perms) caller perm ≠ Ok tt) as Hno by done.
  destruct (Check mp caller perm) as [[]| |] eqn:Ec.
  - split; [intros _; right; by destruct (proj1 Hc eq_refl)|done].
  - split; [done|]. intros [?|H']; [done|]. by discriminate (proj2 Hc (or_intror H')).
  - split; [done|]. intros [?|H']; [done|]. by discriminate (proj2 Hc (or_intror H')).
Qed.

Ltac requesters_distinct := apply (bool_decide_unpack _); vm_compute; exact I.

(** A keeper of the application: itself, the tests, and its clients. *)
Lemma table_privileges mp requesters name perms : mp_name mp = name → mp_perms mp = perms → admits_only mp requesters →
  (∀ caller perm, (∃ ps, (caller, ps) ∈ requesters ∧ perm ∈ ps) ↔
     (caller = "app" ∧ perm ∈ perms) ∨ (name, caller, perm) ∈ privileges) →
  ∀ caller perm, AutoCheck mp (mp_name mp) caller perm = Ok tt ↔
    caller = mp_name mp ∨ (caller = "app" ∧ perm ∈ mp_perms mp) ∨ (mp_name mp, caller, perm) ∈ privileges.
Proof. intros En Ep Ha Hr caller perm. rw Ha Hr. by rw En Ep. Qed.

(** Both sides are finite: the requests as pairs of a caller and a permission. *)
Definition pairs (requesters : list RequestModulePermissions) : list (string * string) :=
  requesters ≫= λ r, (λ p, (r.1, p)) <$> r.2.
Definition privileged (name : string) (perms : list string) : list (string * string) :=
  ((λ p, ("app", p)) <$> perms) ++ omap (λ x, if decide (x.1.1 = name) then Some (x.1.2, x.2) else None) privileges.

Lemma pairs_elem requesters caller perm :
  (caller, perm) ∈ pairs requesters ↔ ∃ ps, (caller, ps) ∈ requesters ∧ perm ∈ ps.
Proof.
  unfold pairs. rw list_elem_of_bind. split.
  - intros ([c ps] & (p & [= -> ->] & Hp)%list_elem_of_fmap & Hr). by exists ps.
  - intros (ps & Hr & Hp). exists (caller, ps). split; [|done]. by apply (list_elem_of_fmap_2 (pair caller)).
Qed.
Lemma privileged_elem name perms caller perm :
  (caller, perm) ∈ privileged name perms ↔ (caller = "app" ∧ perm ∈ perms) ∨ (name, caller, perm) ∈ privileges.
Proof.
  unfold privileged. rw elem_of_app list_elem_of_fmap list_elem_of_omap. f_equiv.
  - split; [by intros (p & [= -> ->] & ?)|]. intros [-> Hp]. by exists perm.
  - split.
    + intros ([[n c] p] & Hin & E). simpl in E. case_decide; [|done]. injection E as -> ->. by subst.
    + intros Hin. exists (name, caller, perm). split; [done|]. simpl. by rw decide_True.
Qed.

Lemma requests_privileges requesters name perms : pairs requesters ≡ₚ privileged name perms → ∀ caller perm,
  (∃ ps, (caller, ps) ∈ requesters ∧ perm ∈ ps) ↔ (caller = "app" ∧ perm ∈ perms) ∨ (name, caller, perm) ∈ privileges.
Proof. intros Hp caller perm. by rw -pairs_elem -privileged_elem Hp. Qed.

Ltac decide_closed := apply (bool_decide_unpack _); vm_compute; exact I.

Lemma NewKeeper_table name perms requesters mp :
  foldM AutoAddRequester (NewModulePermissions name perms) requesters = Ok mp → NoDup requesters.*1 →
  pairs requesters ≡ₚ privileged name perms →
  mp_name mp = name ∧ ∀ caller perm, AutoCheck mp (mp_name mp) caller perm = Ok tt ↔
    caller = mp_name mp ∨ (caller = "app" ∧ perm ∈ mp_perms mp) ∨ (mp_name mp, caller, perm) ∈ privileges.
Proof.
  intros Hrun Hnd Hp. destruct (NewKeeper_admits _ _ _ _ Hnd Hrun) as (En & Ep & Ha). split; [done|].
  by eapply table_privileges; [..|apply requests_privileges].
Qed.

(** The keepers are built, each with its own name and the privileges of its clients. *)
Definition table_ok (name : string) (mp : ModulePermissions) : Prop :=
  mp_name mp = name ∧ ∀ caller perm, AutoCheck mp (mp_name mp) caller perm = Ok tt ↔
    caller = mp_name mp ∨ (caller = "app" ∧ perm ∈ mp_perms mp) ∨ (mp_name mp, caller, perm) ∈ privileges.

Lemma keeper_perms_tables kp : keeper_perms = Ok kp →
  table_ok "vm" (kp_vm kp) ∧ table_ok "ccstorage" (kp_ccs kp) ∧ table_ok "currencies" (kp_cc kp) ∧ table_ok "poa" (kp_poa kp) ∧
  table_ok "multisig" (kp_ms kp) ∧ table_ok "oracle" (kp_oracle kp) ∧ table_ok "markets" (kp_market kp) ∧
  table_ok "orders" (kp_order kp) ∧ table_ok "orderbook" (kp_orderBook kp).
Proof.
  unfold keeper_perms. intros Hk.
  repeat (apply outcome_bind_inv in Hk; let m := fresh "m" in let H := fresh "Hm" in destruct Hk as (m & H & Hk)).
  injection Hk as <-. cbn [kp_vm kp_ccs kp_cc kp_poa kp_ms kp_oracle kp_market kp_order kp_orderBook].
  repeat match goal with |- _ ∧ _ => split end;
    (eapply NewKeeper_table; [eassumption|decide_closed|decide_closed]).
Qed.

Lemma keeper_perms_Ok : ∃ kp, keeper_perms = Ok kp.
Proof.
  assert (match keeper_perms with Ok _ => True | _ => False end) as H by (vm_compute; exact I).
  destruct keeper_perms as [kp| |]; [by exists kp|done..].
Qed.

(** C29: the keepers are built without a panic, and each admits exactly its own module, the
    privileges of its clients and, for any of its permissions, the application itself: no
    other module reads or writes the VM's storage, moves currency supplies, executes
    fills or reads another module. *)
Theorem keepers_grant_least_privilege :
  ∃ kp, keeper_perms = Ok kp ∧ NoDup (mp_name <$> tables kp) ∧ ∀ mp, mp ∈ tables kp → ∀ caller perm,
    AutoCheck mp (mp_name mp) caller perm = Ok tt ↔
    caller = mp_name mp ∨ (caller = "app" ∧ perm ∈ mp_perms mp) ∨ (mp_name mp, caller, perm) ∈ privileges.
Proof.
  destruct keeper_perms_Ok as (kp & Hk). exists kp. split; [done|].
  pose proof (keeper_perms_tables kp Hk) as Ht. unfold table_ok in Ht. destruct_and!. split.
  - unfold tables. cbn [fmap list_fmap]. repeat match goal with E : mp_name _ = _ |- _ => rw E; clear E end. decide_closed.
  - intros mp Hmp. unfold tables in Hmp. repeat (apply elem_of_cons in Hmp as [->|Hmp]; [done|]). by apply elem_of_nil in Hmp.
Qed.

(** ** The end of a block *)
Section blocks.
Context `{SdkTypesLaws} `{SI : SdkInts} `{DE : Decimal} `{OV : OracleVector} `{LP : !Lcs oracle.ResPrice} `{GoSortLaws}.
Context `{KVStoreLaws} `{LedgerLaws} `{VMS : !VMStorage} `{MS : MsMsgs} `{VS : !ValidatorSet}.
Context `{CI : !Codec Z} `{CM : !Codec multisig.Call} `{CN : !Codec (list string)}.
Context `{CA : !Codec (list oracle.Asset)} `{CP : !Codec oracle.CurrentPrice} `{CR : !Codec (list oracle.PostedPrice)}.
Context `{CO : !Codec Order} `{CH : !Codec HistoryItem}.
Context {U : Type} `{MM : !ModuleManager U} `{ML : !ModuleManagerLaws U}.
Variable kp : KeeperPerms.
Hypothesis built : keeper_perms = Ok kp.
Variable error_Error : error → string.
Variable msRouter : msRouter.
Variable range : MatcherPool → list Matcher.
Hypothesis range_any : ∀ mp, range_of mp (range mp).
Variable sdk_EndBlock : string → M (list U).
Implicit Types (c : Ctx) (os : list Order).
Notation orders_store c := (ctx_stores c orders.StoreKey).
Notation fill_id := (λ f, o_ID (f_Order f)).
Notation owed x d := (λ f, if decide (x = o_Owner (f_Order f)) then paid f d else 0).
Notation module_EndBlock := (module_EndBlock kp error_Error msRouter range sdk_EndBlock).

Lemma order_perms : mp_name (kp_order kp) = orders.ModuleName ∧ mp_name (kp_orderBook kp) = orderbook.ModuleName ∧
  Check (kp_order kp) orderbook.ModuleName orders.PermRead = Ok tt ∧ Check (kp_order kp) orderbook.ModuleName orders.PermExecFill = Ok tt.
Proof.
  pose proof (keeper_perms_tables kp built) as Ht. unfold table_ok in Ht. destruct_and!.
  match goal with E : mp_name (kp_order kp) = _, Ha : ∀ caller perm, AutoCheck (kp_order kp) _ caller perm = Ok tt ↔ _ |- _ =>
    rename E into En, Ha into Hadm end.
  split; [done|]. split; [done|].
  assert (∀ perm, ("orders", "orderbook", perm) ∈ privileges → Check (kp_order kp) orderbook.ModuleName perm = Ok tt) as Hc; [|split; apply Hc; decide_closed].
  intros perm Hp. assert (AutoCheck (kp_order kp) (mp_name (kp_order kp)) orderbook.ModuleName perm = Ok tt) as Hok.
  { apply Hadm. right. right. by rw En. }
  unfold AutoCheck in Hok. rw En in Hok. rw bool_decide_false in Hok; [|done].
  by destruct (Check (kp_order kp) orderbook.ModuleName perm) as [[]| |].
Qed.

Lemma mapM_app {A B} (f : A → M B) l l' caller c ys c1 : mapM_ f l caller c = (Ok ys, c1) →
  mapM_ f (l ++ l') caller c = (ys' ← mapM_ f l'; mret (ys ++ ys')%list) caller c1.
Proof.
  revert c ys. induction l as [|x l IH]; intros c ys Hrun.
  { injection Hrun as <- <-. unfold mbind, M_bind, mret, M_ret. simpl. by destruct (mapM_ f l' caller c) as [[]]. }
  cbn [mapM_] in Hrun. apply M_bind_inv in Hrun as (y & c2 & Hx & Hrun). apply M_bind_inv in Hrun as (zs & c3 & Hl & Hr).
  injection Hr as <- <-. cbn [app mapM_]. rw (M_bind_Ok _ _ _ _ _ _ Hx). unfold mbind at 1, M_bind at 1. rw (IH _ _ Hl).
  unfold mbind, M_bind, mret, M_ret. by destruct (mapM_ f l' caller c3) as [[]].
Qed.

(** The orders the end blocker of the orders leaves. *)
Definition live_orders c : list Order :=
  filter (λ o, removed (ctx_time c) o = false) (stored_orders (orders_store c)).

Lemma live_orders_left c c2 : entries_wf (orders_store c) → entries_wf (orders_store c2) →
  (∀ id, 0 ≤ id < 2 ^ 64 → order_at (orders_store c2) id =
     order_at (orders_store c) id ≫= λ o, if removed (ctx_time c) o then None else Some o) →
  stored_orders (orders_store c2) = live_orders c.
Proof.
  intros Hw Hw2 Hat. apply (sorted_ext (λ a b, o_ID a < o_ID b)).
  - intros o. lia.
  - intros a b d. lia.
  - by apply stored_orders_sorted.
  - unfold live_orders. apply sorted_filter. by apply stored_orders_sorted.
  - intros o. unfold live_orders. rw list_elem_of_filter !stored_orders_elem; [|done..]. split.
    + intros [Hid Ho]. rw Hat in Ho; [|done]. destruct (order_at (orders_store c) (o_ID o)) as [o'|] eqn:E; [|done].
      simpl in Ho. destruct (removed (ctx_time c) o') eqn:Er; [done|]. by injection Ho as ->.
    + intros (Hr & Hid & Ho). split; [done|]. rw Hat; [|done]. rw Ho. simpl. by rw Hr.
Qed.

Lemma orders_EndBlocker_writes mp : writes [orders.StoreKey] (orders.EndBlocker mp).
Proof.
  assert (∀ o, writes [orders.StoreKey] (orders.UnlockOrderCoins mp o)) as Hu.
  { intros o. unfold orders.UnlockOrderCoins, orders.wrap_internal. apply writes_keeper_method, writes_bind; [by apply writes_reads|].
    intros coin. apply writes_bind; [by apply writes_reads|]. intros cs. apply writes_bind; [auto with writes|]. by intros []. }
  assert (∀ id, writes [orders.StoreKey] (orders.RevokeOrder mp id)) as Hr.
  { intros id. unfold orders.RevokeOrder. apply writes_keeper_method, writes_bind.
    - apply writes_attempt, writes_reads. unfold orders.Get. apply reads_keeper_method, reads_bind; [done|]. intros key.
      apply reads_bind; [apply reads_kv_Get|]. intros [bz|]; [apply reads_MustUnmarshal|done].
    - intros [o|e|]; [|by apply writes_reads..]. apply writes_bind; [apply Hu|]. intros _. unfold orders.del.
      apply writes_bind; [|auto with writes]. apply writes_bind; [by apply writes_reads|]. auto with writes. }
  unfold orders.EndBlocker. apply writes_in_module, writes_bind; [by apply writes_reads|]. intros now.
  apply writes_bind; [by apply writes_reads|]. intros es. apply writes_bind.
  { unfold orders.GetIterator. apply writes_keeper_method. by apply writes_reads, reads_kv_PrefixIterator. }
  intros kvs. apply writes_bind.
  { apply writes_forM. intros kv. unfold orders.EndBlocker_step. apply writes_bind; [apply writes_reads, reads_MustUnmarshal|].
    intros o. apply writes_if; [|by apply writes_reads]. apply writes_bind; [by apply writes_attempt|]. by intros _. }
  intros _. apply writes_bind; [by apply writes_reads|]. intros es'. apply writes_if; [auto with writes|by apply writes_reads].
Qed.

(** The end blocker of the order book, with what the fills are of. *)
Lemma matched_block bookPerms ordersPerms caller c :
  mp_name bookPerms = orderbook.ModuleName →
  Check ordersPerms orderbook.ModuleName orders.PermRead = Ok tt → Check ordersPerms orderbook.ModuleName orders.PermExecFill = Ok tt →
  orders_wf (orders_store c) → solvent c → supported (stored_orders (orders_store c)) → 0 ≤ ctx_height c < 2 ^ 63 →
  (∀ rs, Process (range (pool_of (stored_orders (orders_store c)))) = Ok rs →
     ∀ x d, balance (ctx_bank c) x d + sumZ (owed x d) (rs ≫= mr_OrderFills) < maxInt) →
  ∃ rs c', orderbook.EndBlocker bookPerms ordersPerms range caller c = (Ok tt, c') ∧
    (∀ r, r ∈ rs → sound_result (stored_orders (orders_store c)) r) ∧
    (∀ mid, mid ∈ mr_MarketID <$> rs ↔ matcher_crossed (book_of (stored_orders (orders_store c)) mid)) ∧
    block_effect rs c c'.
Proof.
  intros Eb Hread Hfill Hwf Hsol Hsup Hh Hcap.
  destruct (EndBlocker_results bookPerms ordersPerms Eb Hread Hfill range range_any caller c Hwf Hsol Hsup Hh Hcap)
    as (rs & c1 & _ & Hm & _ & Hx & _ & He & Hrun).
  assert (∀ r, r ∈ rs → sound_result (stored_orders (orders_store c)) r) as Hs by (intros r Hr; by apply Hm).
  rw Hrun. exists rs. destruct (0 <? length rs)%nat; [|by exists c1].
  eexists. split; [done|]. split; [done|]. split; [done|]. by destruct He.
Qed.

(** The last two end blockers of a block. *)
Lemma last_two us caller c c2 c3 : orders.EndBlocker (kp_order kp) caller c = (Ok tt, c2) →
  orderbook.EndBlocker (kp_orderBook kp) (kp_order kp) range caller c2 = (Ok tt, c3) →
  (us' ← mapM_ module_EndBlock [orders.ModuleName; orderbook.ModuleName]; mret (us ++ us')%list) caller c = (Ok (us ++ [[]; []])%list, c3).
Proof.
  intros Hr2 Hr3.
  assert (module_EndBlock orders.ModuleName caller c = (Ok [], c2)) as He2.
  { change (module_EndBlock orders.ModuleName) with (orders.EndBlocker (kp_order kp);; mret (M := M) ([] : list U)). by rw (M_bind_Ok _ _ _ _ _ _ Hr2). }
  assert (module_EndBlock orderbook.ModuleName caller c2 = (Ok [], c3)) as He3.
  { change (module_EndBlock orderbook.ModuleName) with (orderbook.EndBlocker (kp_orderBook kp) (kp_order kp) range;; mret (M := M) ([] : list U)).
    by rw (M_bind_Ok _ _ _ _ _ _ Hr3). }
  rw (M_bind_Ok _ _ _ _ [[]; []] c3); [done|]. cbn [mapM_]. rw (M_bind_Ok _ _ _ _ _ _ He2).
  rw (M_bind_Ok _ _ _ _ [[]] c3); [done|]. by rw (M_bind_Ok _ _ _ _ _ _ He3).
Qed.

End blocks.

(** ** The application: the end of a block on a concrete chain

    A bid whose minute is over, a later bid and an ask that both bids would cross. *)
Local Open Scope string_scope.
Local Open Scope Z_scope.
Import dnapp dnapp_blocks.

(** ** A module manager *)
#[export] Instance ModuleManager_ref : ModuleManager nat := {|
  mm_EndBlock order f := λ caller c,
    match mapM_ f order caller (set_events c []) with
    | (Ok us, c') =>
        match filter (λ u, u ≠ []) us with
        | _ :: _ :: _ => (Panic, c)
        | _ => (Ok (concat us, ctx_events c'), set_events c' (ctx_events c))
        end
    | (Err e, c') => (Err e, c')
    | (Panic, c') => (Panic, c')
    end;
|}.
#[export] Instance ModuleManagerLaws_ref : ModuleManagerLaws nat.
Proof.
  split. intros order f us u caller c c' Hrun Hone. simpl. rw Hrun. apply submseteq_length in Hone.
  destruct (filter (λ u0, u0 ≠ []) us) as [|x [|y l]]; [done..|]. simpl in Hone. lia.
Qed.

(** ** The chain *)
Definition book1 : Ctx := (post orders.Bid 9000000001 150000000 60 start).2.
Definition book2 : Ctx := (post orders.Bid 9000000001 50000000 600 book1).2.
Definition book3 : Ctx := (post orders.Ask 9000000000 100000000 600 book2).2.
Definition late_bid : Order :=
  MkOrder 1 alice btc_usdt orders.Bid 9000000001 50000000 (600 * 10 ^ 9) genesis_time genesis_time.
Definition late_ask : Order :=
  MkOrder 2 alice btc_usdt orders.Ask 9000000000 100000000 (600 * 10 ^ 9) genesis_time genesis_time.

Lemma post_posts direction price quantity ttl c o :
  orders_wf (ctx_stores c orders.StoreKey) → solvent c → 0 ≤ price → 0 ≤ quantity →
  (post direction price quantity ttl c).1 = Ok o → OrdersTheorems.posted c (post direction price quantity ttl c).2 o.
Proof.
  intros Hwf Hsol Hp Hq E.
  assert (post direction price quantity ttl c = (Ok o, (post direction price quantity ttl c).2)) as Hrun
    by (rw -E; by destruct (post _ _ _ _ _)).
  apply (PostOrder_posted orders_perms markets_perms (λ _, True) "ccstorage" I) in Hrun as [_ Hp']; done.
Qed.
Lemma book1_posted : OrdersTheorems.posted start book1 ex_bid.
Proof. apply post_posts; [exact empty_orders_wf|intros d; apply ref_balance_nonneg|done|done|vm_compute; reflexivity]. Qed.
Lemma book2_posted : OrdersTheorems.posted book1 book2 late_bid.
Proof. apply post_posts; [apply book1_posted|apply book1_posted|done|done|vm_compute; reflexivity]. Qed.
Lemma book3_posted : OrdersTheorems.posted book2 book3 late_ask.
Proof. apply post_posts; [apply book2_posted|apply book2_posted|done|done|vm_compute; reflexivity]. Qed.

(** The parameters the end blockers read, and the minute that is over. *)
Definition no_assets : store (KVStore := KVStore_ref) := store_Set empty_store oracle.KeyAssets (Marshal JSON ([] : list oracle.Asset)).
Definition block_end : Ctx :=
  let c := set_store (set_store book3 (params_store multisig.DefaultParamspace) interval_store)
    (params_store oracle.DefaultParamspace) no_assets in
  MkCtx (ctx_stores c) (ctx_bank c) (ctx_events c) (ctx_height c) (genesis_time + 60 * 10 ^ 9).

#[local] Instance app_vm : VMStorage := vm.vm_storage vm_for_oracle.
Definition the_perms : KeeperPerms :=
  match keeper_perms with Ok kp => kp | _ => MkKeeperPerms orders_perms orders_perms orders_perms orders_perms orders_perms orders_perms orders_perms orders_perms orders_perms end.
Lemma the_perms_built : keeper_perms = Ok the_perms.
Proof. unfold the_perms. destruct keeper_perms_Ok as (kp & ->). reflexivity. Qed.

(** The SDK's modules return a validator update of the staking module. *)
Definition sdk_blocks (name : string) : M (list nat) := mret (if decide (name = "staking") then [7%nat] else []).
Definition before_orders : outcome (list (list nat)) * Ctx :=
  mapM_ (module_EndBlock the_perms no_text the_router crossing_range sdk_blocks) (take 5 EndBlockers) "app" (set_events block_end []).
Definition at_orders : Ctx := before_orders.2.

Lemma before_orders_run : before_orders = (Ok [[]; []; [7%nat]; []; []], at_orders).
Proof.
  assert (before_orders.1 = Ok [[]; []; [7%nat]; []; []]) as E by (vm_compute; reflexivity).
  rewrite -E. unfold at_orders. by destruct before_orders.
Qed.
Lemma at_orders_store : ctx_stores at_orders orders.StoreKey = ctx_stores book3 orders.StoreKey.
Proof. vm_compute. reflexivity. Qed.
Lemma at_orders_bank : (ctx_bank at_orders : ledger_ref) = ctx_bank book3.
Proof. decide_closed. Qed.
Lemma at_orders_time : ctx_time at_orders = genesis_time + 60 * 10 ^ 9.
Proof. vm_compute. reflexivity. Qed.
Lemma at_orders_height : ctx_height at_orders = 1.
Proof. vm_compute. reflexivity. Qed.

(** *** The hypotheses *)
Lemma at_orders_wf : orders_wf (ctx_stores at_orders orders.StoreKey).
Proof. rewrite at_orders_store. apply book3_posted. Qed.
Lemma at_orders_solvent : solvent at_orders.
Proof. intros d. rewrite at_orders_store at_orders_bank. exact (post_solvent _ _ _ book3_posted d). Qed.
Lemma book3_balances x d : ref_balance (ctx_bank book3) x d ≤ Z.of_N (2 ^ 60).
Proof. apply balances_at_most_spec. vm_compute. reflexivity. Qed.
Lemma at_orders_balances x d : balance (ctx_bank at_orders) x d ≤ 2 ^ 60.
Proof. rewrite at_orders_bank. exact (book3_balances x d). Qed.
Lemma at_orders_capacity : capacity at_orders.
Proof.
  intros x d. pose proof (at_orders_solvent d) as Hs. pose proof (at_orders_balances x d) as Hx.
  pose proof (at_orders_balances (ModuleAddress orders.ModuleName) d) as Hm. pose proof two60_capacity. lia.
Qed.
Lemma at_orders_stored : stored_orders (ctx_stores at_orders orders.StoreKey) = [ex_bid; late_bid; late_ask].
Proof. rewrite at_orders_store. vm_compute. reflexivity. Qed.
Lemma at_orders_live : live_orders at_orders = [late_bid; late_ask].
Proof. unfold live_orders. rewrite at_orders_stored at_orders_time. vm_compute. reflexivity. Qed.
Lemma live_supported : supported [late_bid; late_ask].
Proof.
  split.
  - intros o Ho. apply elem_of_cons in Ho as [->|Ho%list_elem_of_singleton]; [|subst o];
      (split; [exact id_0|split; [split; discriminate|reflexivity]|split; [split; discriminate|reflexivity]|split; reflexivity|split; [reflexivity|discriminate]|]); [by left|by right].
  - intros mid. assert (∀ P `{∀ o : Order, Decision (P o)}, 0 ≤ volume (filter P [late_bid; late_ask]) ≤ 250000000) as Hv.
    { intros P HP. rw !filter_cons filter_nil. repeat case_decide; vm_compute; done. }
    pose proof (Hv (λ o, o_Direction o = orders.Ask ∧ me_ID (o_Market o) = mid) _).
    pose proof (Hv (λ o, o_Direction o = orders.Bid ∧ me_ID (o_Market o) = mid) _).
    assert (1000000000 < Precision) by done. unfold book_of. simpl. lia.
Qed.

Definition live_results : list MatcherResult :=
  match Process (crossing_range (pool_of [late_bid; late_ask])) with Ok rs => rs | _ => [] end.
Lemma live_process : Process (crossing_range (pool_of [late_bid; late_ask])) = Ok live_results.
Proof. vm_compute. reflexivity. Qed.
Lemma live_pays : forallb (pays_at_most (2 ^ 60)) (live_results ≫= mr_OrderFills) = true ∧ (length (live_results ≫= mr_OrderFills) ≤ 2)%nat.
Proof. vm_compute. split; [reflexivity|lia]. Qed.
Lemma refund_small x d : refund ex_bid x d ≤ 2 ^ 60.
Proof.
  unfold refund. rw (lock_amount_ok _ _ d ex_bid_lock). simpl coin_Amount. assert (13500000001 ≤ 2 ^ 60) by done.
  repeat case_decide; lia.
Qed.
Lemma live_room rs : Process (crossing_range (pool_of (live_orders at_orders))) = Ok rs → ∀ x d,
  balance (ctx_bank at_orders) x d +
  sumZ (λ o, if removed (ctx_time at_orders) o then refund o x d else 0) (stored_orders (ctx_stores at_orders orders.StoreKey)) +
  sumZ (λ f, if decide (x = o_Owner (f_Order f)) then paid f d else 0) (rs ≫= mr_OrderFills) < maxInt.
Proof.
  rewrite at_orders_live live_process at_orders_stored at_orders_time. intros <-%Ok_inj x d.
  pose proof (owed_at_most (2 ^ 60) _ x d two60_nonneg (proj1 live_pays)) as Ho. pose proof (proj2 live_pays) as Hl.
  pose proof (at_orders_balances x d) as Hb. pose proof (refund_small x d) as Hr.
  assert (sumZ (λ o, if removed (genesis_time + 60 * 10 ^ 9) o then refund o x d else 0) [ex_bid; late_bid; late_ask] = refund ex_bid x d) as ->.
  { apply Z.add_0_r. }
  assert (2 ^ 60 * 7 < maxInt) as H by done. clear - Ho Hl Hb Hr H. lia.
Qed.


Lemma at_orders_run : mapM_ (module_EndBlock the_perms no_text the_router crossing_range sdk_blocks) (take 5 EndBlockers) "app" (set_events block_end []) =
  (Ok [[]; []; [7%nat]; []; []], at_orders).
Proof. exact before_orders_run. Qed.

